(* ===== verification/_CoqProject ===== *)
-Q . S2P
Prelude.v
Xerror.v
GoStd.v
Utils.v
Float.v
Strconv.v
Glob.v
Bitmap.v
Sha.v
Store.v
Ranges.v
Mem.v
Client.v
Object.v
Reply.v
ObjectSpec.v
Counters.v
Generic.v
GenericSpec.v
Strings.v
StringsSpec.v
BitCmd.v
HashCmd.v
Rank.v
ListA.v
ListB.v
ListCmd.v
ZSet.v
Scan.v
Stream.v
Hll.v
Block.v
SetCmd.v
Heap.v
SetAlgebra.v
ZAlgebra.v
Geo.v
Json.v
JsonCmd.v
Transaction.v
TransactionSpec.v
Pubsub.v
PubsubSpec.v
CommandTable.v
Acl.v
ServerCmd.v
ConnCmd.v
Gc.v
GcSpec.v
Resp.v
RespSpec.v
NextCmd.v
Redcon.v
RedconSpec.v
HashSpec.v
ListSpec.v
BlockSpec.v
RankSpec.v
BitSpec.v
AclSpec.v
StreamSpec.v
ZSetSpec.v
ZRangeSpec.v
GeoSpec.v
JsonSpec.v
TypeSpec.v
SetAlgebraSpec.v
HllSpec.v
ZAlgebraSpec.v
SampleLibs.v
Samples.v
ListSamples.v
ZSetSamples.v
AlgebraSamples.v
GeoSamples.v
BlockSamples.v
StreamSamples.v
ValueSamples.v
ServerSamples.v
JsonSamples.v
