(* ===== verification/Prelude.v ===== *)
(** * A verification development of lancelot

    lancelot is a server that speaks the Redis protocol and keeps its data in TiKV, a
    distributed transactional key-value store. A connection sends commands; the server
    (redcon/, server/server.go) reads them from the wire and hands each to its handler
    (command/), which runs in a transaction of the store (store/txn.go) over keys that
    encode users, databases, objects, counters and an expiry index. A collector
    (command/gc.go) removes what has expired. The development models these parts as
    executable functions and proves what they compute.

    ** The files

    - [Prelude] (this file): bytes, machine integers with their wrap-around, the order of
      byte slices, lists. [GoStd]: what the code uses of Go's standard library (strconv,
      strings, time, hash/fnv, division, make).
    - [Xerror] (xerror/error.go): the errors, their texts, how they are written.
    - [Utils] (utils/bytes.go, int.go, hash.go): key successors, overflow checks,
      order-preserving encodings, shards. Module [Bytes] and Module [Int].
    - [Store] (store/txn.go, conn.go, the fields of config/config.go that are read): the
      transaction [Txn] as a record, the class [Platform] for TiKV (its client, clock,
      random numbers and uuids) and the class [PlatformSpec] for what the code relies on
      while TiKV answers; the monad [M] of code that runs on a transaction (a value and the
      transaction after it, a panic, or out of fuel); Begin, Commit, Rollback, Get, Put, Del,
      LockKeys, Iter, List, DeleteUntil; weakest preconditions [wp]. [Ranges]: entries of
      a range in order, listings that accumulate. [Mem]: an in-memory platform that
      satisfies [PlatformSpec], on which the theorems are applied to concrete stores.
    - [Client] (store/client.go): operations that open transactions of their own, between
      which other clients act (class [Clients]); range deletion.
    - [Object] (command/object.go, count.go, and the helpers of const.go, hash.go,
      generic.go): key layout, headers, the expiry index, counters, reading, writing and
      deleting objects. [Reply]: the values of handlers. [ObjectSpec], [Counters]: what
      these operations do to the data of the store.
    - [Generic], [Strings], [HashCmd], [SetCmd] (command/generic.go, string.go, hash.go,
      set.go): one definition per handler, with its guards and early returns, and one
      [Fixpoint] per loop. [GenericSpec], [StringsSpec], [HashSpec]: the handlers against
      an abstract database.
    - [Float] (utils/float.go, number.go): [float64] as IEEE 754 bit patterns with Go's
      arithmetic, the comparable encoding of scores, [Number]. [Strconv]: ParseFloat and
      FormatFloat.
    - [Rank] (store/iter.go LeftRight, rangeRank of lista.go, utils/sort.go): walking a
      collection from both ends. [ListA], [ListB] (command/lista.go, listb.go): the two
      encodings of lists. [ListCmd] (command/list.go): the commands on them. [ListSpec],
      [RankSpec]: pushes, pops and ranges against the list of elements.
    - [ZSet] (command/zset.go): sorted sets, which keep an entry per member and an index
      by score. [ZSetSpec], [ZRangeSpec]: updates and ranges against the finite map of
      scores, with the two in step.
    - [Bitmap] (utils/bitmap.go): bit sets in segments. [BitCmd] (command/bit.go) and
      [BitSpec]: the commands on bits. [Sha]: SHA-1 and SHA-256 of Go's crypto packages,
      evaluated on their test vectors. [Acl] (command/acl.go, user.go) and [AclSpec]:
      users, passwords and the commands they may run.
    - [Glob] (utils/glob/glob.go): patterns, against the language they denote. [Scan]
      (KEYS, SCAN and the scans of collections): options, pages and cursors; the cache of
      cursors and TiKV's timestamps are the class [Cursors].
    - [ZAlgebra], [ZAlgebraSpec]: ZINTER, ZUNION, ZDIFF and their STORE forms; the order in
      which Go visits a map is the class [MapOrder]. [Block], [BlockSpec] (BlockHandle of
      command/object.go): the commands that wait, over the events they select on.
    - [Stream], [StreamSpec] (command/stream.go): XADD with its trim task, XRANGE, XGROUP
      and the subscriptions of streams; the msgpack library is the class [Msgpack].
    - [Hll], [HllSpec] (hll/hll.go, hll/dense.go, command/hll.go): PFADD, PFCOUNT,
      PFMERGE. The class [Dense] is the interface of the two stores of registers, [DenseSpec]
      its laws; Go's math functions are the class [HllMath].
    - [Geo], [GeoSpec] (command/geo.go): GEOADD and the searches. The s2 and geohash
      libraries are the class [GeoLib], sort.Slice is the class [SortSlice].
    - [Json]: json.Valid and the numbers of encoding/json. [JsonCmd], [JsonSpec]
      (command/json.go): the JSON commands. The ajson library is the class [Ajson] of its
      operations on nodes that are shared by pointer, an explicit heap.
    - [TypeSpec]: commands on keys of another type.
    - [Heap] (utils/heap.go as container/heap drives it), [SetAlgebra] (store/iter.go and
      the algebra of command/set.go), [SetAlgebraSpec].
    - [Transaction] (command/transaction.go, PUBLISH of pubsub.go, ServeRESP of
      server/server.go): the connection, MULTI, EXEC, DISCARD, WATCH, UNWATCH, retries.
      A handler of the command table ([Handler]) works on the transaction of its command and
      on the store: [on_txn] are those that keep to the transaction, [on_client] the two that
      delete through the client. [TransactionSpec].
    - [ServerCmd] (command/server.go, sentinel.go, OBJECT of object.go): FLUSHALL, FLUSHDB,
      TIME, DBSIZE, ROLE, OBJECT, SENTINEL; TiKV's placement driver is the class
      [PlacementDriver]. [ConnCmd] (command/connection.go): SELECT, ECHO, PING and CLIENT over
      the connections of the server.
    - [Pubsub], [PubsubSpec] (command/pubsub.go, command/rpc.go): hubs, connections that
      listen with their queues, publishing, PUBSUB. The answers of other nodes are
      arguments, the order of maps is the class [MapRange].
    - [CommandTable] (command/command.go, luaCall of script.go): all commands with flags,
      numbers and functions, and the gate for scripts.
    - [Gc], [GcSpec] (command/gc.go): rounds of the collector and its tasks.
    - [Resp], [RespSpec] (redcon/resp.go, redcon.go): encoding replies, reading values
      and pipelined commands. [NextCmd]: the reader of single commands in three protocols.
      [Redcon], [RedconSpec] (redcon/redcon.go): the loop of the server over the packets of
      a connection; the class [Network] says which writes fail.
    - [Samples] and the files that end in it: the theorems at concrete stores and connections.

    ** The state and its operations

    A transaction's view of the store is a finite map [t_view t]; handlers are functions
    [list bytes -> M reply] as in the code ([TxnHandle]). The abstract database of the
    refinement theorems is [find c t d k], the live object under a key of the
    connection's database, and [fields d o], the fields of a hash or set. Counters live
    in their own key space: [dv t] is the view without them, and [in_step] says that the
    counters of a collection add up to the number of its fields. A connection is a record
    [Conn], the node with its store a [World], a command a [Step]; [reachable] is the
    state machine of a connection under arbitrary commands while other clients act.

    ** What is shown

    - Transactions: [multi_exec] (a MULTI block queues without effect and EXEC runs exactly
      its commands, in the order of the relation [executes]), [serve_commits_once] (at most one
      commit per command whose handlers keep to their transaction ([keeps]), and none when an
      error is reported), [connection_invariant], [failed_watch_forgets].
    - Removal: [DelteRange_clears] (range deletion terminates and is exact),
      [doGC_collects] (what a round of the collector removes).
    - Keys, strings, hashes: [SetHandle_refines], [HSetHandle_refines],
      [DELHandle_refines]: updates of the abstract database, on every branch, with the
      expiry index and the counters in step.
    - Sorted sets: [ZAddHandle_refines], [ZRangeByScoreHandle_range]:
      finite maps from members to scores; the index by score stays in step and ranges by
      score list what they should. [ZUnionHandle_merges]: unions with weighted scores. Waiting:
      [block_pop_serves], [block_pop_ends] (an attempt at every tick, on the store as it is
      then; a wait with a timeout ends). Lists: [push_refines], [pophandle_refines],
      [LRangeHandle_slice]: sequences. Streams: [XADDHandle_appends],
      [XRangeHandle_lists]. HyperLogLogs: [PfAddHandle_raises]:
      the registers are maxima. Places: [GeoAddHandle_refines], [GeoSearchHandle_finds]:
      a search lists the members inside its region. Documents: [JsonSetHandle_refines].
      [wrong_type_refused]: types are checked.
    - Users: [AclSetUser_known] (what the rules of SETUSER make of a user, and what is
      stored when one of them fails).
    - The server: [flush_clears] (FLUSHALL and FLUSHDB delete the keys of a user or of one
      database and no others), [client_isolated] (CLIENT reaches no connection of another
      user).
    - Publish and subscribe: [pubsub_invariant] (hubs and connections agree),
      [publish_delivers] (who receives a message, in which form and order).
    - Set algebra: [SInterHandle_inter], [SUnionHandle_union], [SDiffHandle_diff]: the
      operations of mathematics, up to the empty member, which the statements single out;
      the union rests on the order of the heap ([Heap.Pop_heap]).
    - The wire: [readCommands_pipeline] (the reader returns the commands that were sent
      however they are cut), [reply_framing] (every reply is one value); and of a whole
      connection, [server_pipeline] (one value per command, in order).
    - Scans and patterns: [page_resumes], [Match_matches].
    - Foundations: [List_traverses], [ObjectDecode_ObjectEncode],
      [ValidIncrementInt_correct].

    Where the code does something other than it means to, the theorem states what it does
    and the comment says so.

    ** Fuel and bounds

    Loops of the code are structural where they can be. Loops over an iterator take
    [it_size], a bound on the entries it still yields that [PlatformSpec] guarantees, as
    fuel; [List_traverses] shows that it is enough. [DelteRange] takes the number of
    rounds, one more than the entries of the range suffices ([DelteRange_clears]). The merge
    of a union takes one more than the entries of its iterators, and [SUnionHandle_union]
    shows that it returns. The heap
    takes its size. Parsers take one more than the length of their input ([readCommands_pipeline]), and so
    does matching ([Glob.Match_total]). The walk from both ends takes the entries of its two iterators. The shortest decimal of a double tries up to 17
    digits. Integers are
    [Z] with [i64], [u64] and [wrap_u] written where the code computes with them.

    ** Not modelled

    The connections between nodes and the Lua interpreter, INFO and the settings of the
    process (CONFIG), leader election. TiKV, etcd, the clock, random
    numbers and uuids are parameters. Logging, metrics and tracing are left out, except
    that arguments of log calls that can panic are kept. Goroutines of the collector are
    returned as tasks that run on their own. Go's random order of maps appears as the
    order of insertion where the result does not depend on it. *)

From stdpp Require Export base numbers list gmap strings.
From Stdlib Require Export ZArith Lia.
From Stdlib Require Import Init.Byte Strings.Byte.

#[global] Open Scope Z_scope.
#[global] Set Default Goal Selector "!".

(** ** Bytes and byte slices *)

Abbreviation bytes := (list Init.Byte.byte).

#[export] Instance byte_eq_dec : EqDecision Init.Byte.byte := Byte.byte_eq_dec.

#[export] Program Instance byte_countable : Countable Init.Byte.byte :=
  inj_countable Byte.to_N Byte.of_N _.
Next Obligation. intros; apply Byte.of_to_N. Qed.

(** A byte as the integer 0..255, and the conversion [byte(z)], which keeps the
    low eight bits. *)
Definition b2z (b : Init.Byte.byte) : Z := Z.of_N (Byte.to_N b).
Definition z2b (z : Z) : Init.Byte.byte :=
  default x00 (Byte.of_N (Z.to_N (z mod 256))).

#[global] Arguments Z.compare : simpl never.
#[global] Arguments b2z : simpl never.
#[global] Arguments z2b : simpl never.

Lemma b2z_range b : 0 <= b2z b < 256.
Proof. unfold b2z. pose proof (Byte.to_N_bounded b). lia. Qed.

Lemma b2z_z2b z : b2z (z2b z) = z mod 256.
Proof.
  unfold b2z, z2b. pose proof (Z.mod_pos_bound z 256 eq_refl) as Hz.
  destruct (Byte.of_N (Z.to_N (z mod 256))) as [b|] eqn:Hb; cbn [default].
  - apply Byte.to_of_N in Hb. unfold default; simpl. lia.
  - apply Byte.of_N_None_iff in Hb. lia.
Qed.

Lemma z2b_b2z b : z2b (b2z b) = b.
Proof.
  unfold z2b. rewrite Z.mod_small by apply b2z_range.
  unfold b2z. rewrite N2Z.id, Byte.of_to_N. reflexivity.
Qed.

#[export] Instance b2z_inj : Inj (=) (=) b2z.
Proof. intros x y H. rewrite <- (z2b_b2z x), H. apply z2b_b2z. Qed.

(** A string literal of the source as the bytes it denotes. *)
Definition bs (s : string) : bytes := String.list_byte_of_string s.

(** ** Machine integers *)

(** Go's conversion to an unsigned (resp. two's complement signed) integer of
    [w] bits. *)
Definition wrap_u (w z : Z) : Z := z mod 2 ^ w.
Definition wrap_s (w z : Z) : Z := (z + 2 ^ (w - 1)) mod 2 ^ w - 2 ^ (w - 1).

Abbreviation u64 := (wrap_u 64).
Abbreviation i64 := (wrap_s 64).

Definition MaxInt64 : Z := 2 ^ 63 - 1.
Definition MinInt64 : Z := - 2 ^ 63.

(** [int64] and [uint64] as ranges of [Z]. *)
Definition in_i64 (z : Z) : Prop := MinInt64 <= z <= MaxInt64.
Definition in_u64 (z : Z) : Prop := 0 <= z < 2 ^ 64.

Lemma wrap_u_range w z : 0 <= w -> 0 <= wrap_u w z < 2 ^ w.
Proof. intros. apply Z.mod_pos_bound. lia. Qed.

Lemma wrap_u_small w z : 0 <= z < 2 ^ w -> wrap_u w z = z.
Proof. apply Z.mod_small. Qed.

Lemma i64_small z : in_i64 z -> i64 z = z.
Proof. unfold in_i64, wrap_s, MinInt64, MaxInt64. intros. rewrite Z.mod_small; lia. Qed.

Lemma i64_range z : in_i64 (i64 z).
Proof.
  unfold in_i64, wrap_s, MinInt64, MaxInt64.
  pose proof (Z.mod_pos_bound (z + 2 ^ (64 - 1)) (2 ^ 64)). lia.
Qed.

Lemma u64_small z : in_u64 z -> u64 z = z.
Proof. apply wrap_u_small. Qed.

Lemma u64_range z : in_u64 (u64 z).
Proof. apply wrap_u_range. lia. Qed.

Lemma i64_u64 z : in_i64 z -> i64 (u64 z) = z.
Proof.
  unfold in_i64, wrap_s, wrap_u, MinInt64, MaxInt64. intros Hz.
  rewrite Z.add_mod_idemp_l by lia. rewrite Z.mod_small; lia.
Qed.

Lemma u64_i64 z : in_u64 z -> u64 (i64 z) = z.
Proof.
  unfold in_u64, wrap_s, wrap_u. intros Hz.
  rewrite Zminus_mod_idemp_l. rewrite Z.mod_small; lia.
Qed.

Lemma i64_mod z : exists q, i64 z = z + q * 2 ^ 64.
Proof.
  unfold wrap_s. exists (- ((z + 2 ^ (64 - 1)) / 2 ^ 64)).
  rewrite Z.mod_eq by lia. lia.
Qed.

Lemma i64_plus_mod z q : i64 (z + q * 2 ^ 64) = i64 z.
Proof.
  unfold wrap_s. replace (z + q * 2 ^ 64 + 2 ^ (64 - 1)) with (z + 2 ^ (64 - 1) + q * 2 ^ 64) by lia.
  by rewrite Z_mod_plus_full.
Qed.

(** Wrapping an operand first does not change a wrapped sum. *)
Lemma i64_add_r a b : i64 (a + i64 b) = i64 (a + b).
Proof. destruct (i64_mod b) as [q ->]. by rewrite Z.add_assoc, i64_plus_mod. Qed.
Lemma i64_add_l a b : i64 (i64 a + b) = i64 (a + b).
Proof. by rewrite Z.add_comm, i64_add_r, Z.add_comm. Qed.

(** ** Big-endian integers ([binary.BigEndian.PutUintN] / [UintN]) *)

Fixpoint be_put (n : nat) (v : Z) : bytes :=
  match n with
  | O => []
  | S n => z2b (v / 256 ^ Z.of_nat n) :: be_put n v
  end.

Fixpoint be_get (l : bytes) : Z :=
  match l with
  | [] => 0
  | b :: l => b2z b * 256 ^ Z.of_nat (length l) + be_get l
  end.

Lemma length_be_put n v : length (be_put n v) = n.
Proof. induction n; simpl; congruence. Qed.

Lemma be_get_range l : 0 <= be_get l < 256 ^ Z.of_nat (length l).
Proof.
  induction l as [|b l IH]; [simpl; lia|].
  cbn [be_get length]. rewrite Nat2Z.inj_succ, Z.pow_succ_r by lia.
  pose proof (b2z_range b). nia.
Qed.

Lemma be_get_put n v : be_get (be_put n v) = v mod 256 ^ Z.of_nat n.
Proof.
  induction n as [|n IH]; [simpl; by rewrite Z.mod_1_r|].
  cbn [be_put be_get]. rewrite length_be_put, b2z_z2b, IH.
  rewrite Nat2Z.inj_succ, Z.pow_succ_r, (Z.mul_comm 256) by lia.
  rewrite Z.rem_mul_r by lia. lia.
Qed.

Lemma be_put_get l : be_put (length l) (be_get l) = l.
Proof.
  assert (Hgen : forall h l, 0 <= h ->
    be_put (length l) (h * 256 ^ Z.of_nat (length l) + be_get l) = l).
  { clear l. intros h l. revert h. induction l as [|b l IH]; intros h Hh; [done|].
    cbn [be_put be_get length]. rewrite Nat2Z.inj_succ, Z.pow_succ_r by lia.
    pose proof (be_get_range l). pose proof (b2z_range b) as Hb.
    f_equal.
    - replace (_ + _) with ((h * 256 + b2z b) * 256 ^ Z.of_nat (length l) + be_get l) by lia.
      rewrite Z.div_add_l by lia. rewrite Z.div_small, Z.add_0_r by lia.
      unfold z2b. rewrite Z.add_comm, Z_mod_plus_full. apply z2b_b2z.
    - replace (_ + _) with ((h * 256 + b2z b) * 256 ^ Z.of_nat (length l) + be_get l) by lia.
      apply IH. lia. }
  specialize (Hgen 0 l). rewrite Z.mul_0_l, Z.add_0_l in Hgen. by apply Hgen.
Qed.

Lemma be_put_inj n u v :
  0 <= u < 256 ^ Z.of_nat n -> 0 <= v < 256 ^ Z.of_nat n ->
  be_put n u = be_put n v -> u = v.
Proof.
  intros Hu Hv He. apply (f_equal be_get) in He.
  rewrite !be_get_put, !Z.mod_small in He by lia. done.
Qed.

(** ** The order of byte slices ([bytes.Compare]) *)

Fixpoint bytes_compare (a b : bytes) : comparison :=
  match a, b with
  | [], [] => Eq
  | [], _ :: _ => Lt
  | _ :: _, [] => Gt
  | x :: a, y :: b =>
      match b2z x ?= b2z y with Eq => bytes_compare a b | c => c end
  end.

(** [bytes.Compare(a, b) < 0] and [<= 0]. *)
Definition bytes_ltb (a b : bytes) : bool :=
  match bytes_compare a b with Lt => true | _ => false end.
Definition bytes_leb (a b : bytes) : bool :=
  match bytes_compare a b with Gt => false | _ => true end.
Definition blt (a b : bytes) : Prop := bytes_compare a b = Lt.
Definition ble (a b : bytes) : Prop := bytes_compare a b <> Gt.

Lemma bytes_compare_refl a : bytes_compare a a = Eq.
Proof. induction a; simpl; [done|]. by rewrite Z.compare_refl. Qed.

Lemma bytes_compare_eq a b : bytes_compare a b = Eq <-> a = b.
Proof.
  split; [|intros ->; apply bytes_compare_refl].
  revert b. induction a as [|x a IH]; intros [|y b]; simpl; try done.
  destruct (Z.compare_spec (b2z x) (b2z y)) as [E|E|E]; try done.
  intros H. apply IH in H. apply (inj b2z) in E. by subst.
Qed.

Lemma bytes_compare_antisym a b : bytes_compare a b = CompOpp (bytes_compare b a).
Proof.
  revert b. induction a as [|x a IH]; intros [|y b]; simpl; try done.
  rewrite (Z.compare_antisym (b2z y) (b2z x)).
  destruct (b2z y ?= b2z x); simpl; auto.
Qed.

Lemma blt_trans a b c : blt a b -> blt b c -> blt a c.
Proof.
  unfold blt. revert b c. induction a as [|x a IH]; intros [|y b] [|z c]; simpl; try done.
  destruct (Z.compare_spec (b2z x) (b2z y)), (Z.compare_spec (b2z y) (b2z z)),
    (Z.compare_spec (b2z x) (b2z z)); try done; try lia. eauto.
Qed.

Lemma blt_irrefl a : ~ blt a a.
Proof. unfold blt. by rewrite bytes_compare_refl. Qed.

Lemma blt_not_ble a b : blt a b <-> ~ ble b a.
Proof.
  unfold blt, ble. rewrite (bytes_compare_antisym b a).
  destruct (bytes_compare a b); simpl; split; intuition congruence.
Qed.

Lemma ble_lt_eq a b : ble a b <-> blt a b \/ a = b.
Proof.
  unfold ble, blt. rewrite <- (bytes_compare_eq a b).
  destruct (bytes_compare a b); intuition congruence.
Qed.

Lemma ble_refl a : ble a a.
Proof. apply ble_lt_eq. by right. Qed.

Lemma ble_trans a b c : ble a b -> ble b c -> ble a c.
Proof.
  rewrite !ble_lt_eq. intros [H1| ->] [H2| ->]; eauto using blt_trans.
Qed.

Lemma ble_blt_trans a b c : ble a b -> blt b c -> blt a c.
Proof. rewrite ble_lt_eq. intros [H1| ->] H2; eauto using blt_trans. Qed.

Lemma blt_ble_trans a b c : blt a b -> ble b c -> blt a c.
Proof. rewrite ble_lt_eq. intros H1 [H2| <-]; eauto using blt_trans. Qed.

Lemma blt_ble a b : blt a b -> ble a b.
Proof. rewrite ble_lt_eq. auto. Qed.

Lemma bytes_ltb_spec a b : bytes_ltb a b = true <-> blt a b.
Proof. unfold bytes_ltb, blt. destruct (bytes_compare a b); intuition congruence. Qed.

Lemma bytes_leb_spec a b : bytes_leb a b = true <-> ble a b.
Proof. unfold bytes_leb, ble. destruct (bytes_compare a b); intuition congruence. Qed.

#[export] Instance blt_dec a b : Decision (blt a b).
Proof. unfold blt. apply _. Defined.
#[export] Instance ble_dec a b : Decision (ble a b).
Proof. unfold ble. apply _. Defined.

(** A common prefix is irrelevant to the order. *)
Lemma bytes_compare_app p a b : bytes_compare (p ++ a) (p ++ b) = bytes_compare a b.
Proof. induction p; simpl; [done|]. by rewrite Z.compare_refl. Qed.

(** Heads of equal length that differ decide the order. *)
Lemma bytes_compare_fst a b a' b' c :
  length a = length b -> bytes_compare a b = c -> c <> Eq ->
  bytes_compare (a ++ a') (b ++ b') = c.
Proof.
  revert b. induction a as [|x a IH]; intros [|y b] Hl Hc Hn; simpl in *; try done.
  destruct (Z.compare_spec (b2z x) (b2z y)); [|done|done]. by apply IH; [lia|..].
Qed.

Lemma ble_app p a : ble p (p ++ a).
Proof.
  unfold ble. rewrite <- (app_nil_r p) at 1. rewrite bytes_compare_app. by destruct a.
Qed.

(** Slices of equal length are ordered as the big-endian numbers they hold. *)
Lemma bytes_compare_be a b :
  length a = length b -> bytes_compare a b = (be_get a ?= be_get b).
Proof.
  revert b. induction a as [|x a IH]; intros [|y b] Hl; simpl in Hl; try done.
  injection Hl as Hl. cbn [bytes_compare be_get]. rewrite <- Hl.
  pose proof (be_get_range a) as Ha. pose proof (be_get_range b) as Hb.
  rewrite <- Hl in Hb.
  destruct (Z.compare_spec (b2z x) (b2z y)) as [E|E|E].
  - rewrite E, IH by done. by rewrite Z.add_compare_mono_l.
  - symmetry. apply Z.compare_lt_iff. nia.
  - symmetry. apply Z.compare_gt_iff. nia.
Qed.

Lemma bytes_compare_be_put n u v :
  0 <= u < 256 ^ Z.of_nat n -> 0 <= v < 256 ^ Z.of_nat n ->
  bytes_compare (be_put n u) (be_put n v) = (u ?= v).
Proof.
  intros Hu Hv. rewrite bytes_compare_be by by rewrite !length_be_put.
  by rewrite !be_get_put, !Z.mod_small by lia.
Qed.

(** ** Prefixes and Go slice expressions *)

Lemma rev_is_reverse {A} (l : list A) : rev l = reverse l.
Proof. apply rev_alt. Qed.

Lemma rev_replicate {A} n (x : A) : rev (replicate n x) = replicate n x.
Proof. rewrite rev_is_reverse. apply reverse_replicate. Qed.

Definition has_prefix (p k : bytes) : bool :=
  bool_decide (take (length p) k = p).

Lemma has_prefix_spec p k : has_prefix p k = true <-> exists d, k = p ++ d.
Proof.
  unfold has_prefix. rewrite bool_decide_eq_true. split.
  - intros H. exists (drop (length p) k). rewrite <- H at 1. by rewrite take_drop.
  - intros [d ->]. by rewrite take_app_length.
Qed.

(** [l[i:j]] for in-range bounds. *)
Definition slice {A} (i j : nat) (l : list A) : list A := take (j - i) (drop i l).

(** [len(x)] as a Go [int]. *)
Definition len {A} (l : list A) : Z := Z.of_nat (length l).

Lemma len_nonneg {A} (l : list A) : 0 <= len l.
Proof. unfold len. lia. Qed.

Lemma len_app {A} (l k : list A) : len (l ++ k) = len l + len k.
Proof. unfold len. rewrite length_app. lia. Qed.

Lemma len_cons {A} (x : A) l : len (x :: l) = 1 + len l.
Proof. unfold len. simpl. lia. Qed.

#[export] Instance len_perm {A} : Proper ((≡ₚ) ==> eq) (@len A).
Proof. intros l k Hp. unfold len. by rewrite Hp. Qed.

Lemma len_nil_iff {A} (l : list A) : len l = 0 <-> l = [].
Proof. unfold len. destruct l; simpl; split; try done; lia. Qed.

Create HintDb go discriminated.
Create Rewrite HintDb golen.
#[export] Hint Resolve len_nonneg b2z_range ble_refl blt_ble : go.
#[export] Hint Rewrite @length_app length_be_put @len_app : golen.
