(* ===== verification/Xerror.v ===== *)
(** Errors: [xerror/error.go], with the sentinel errors of [store/error.go] and
    [utils]. Go compares errors by identity, so a sentinel is a constructor and an
    error built on the fly ([RedisNew(fmt.Sprintf(...))]) is a constructor that no
    sentinel equals. *)

From S2P Require Import Prelude.
From Stdlib Require Import Strings.Ascii.

#[local] Open Scope string_scope.

(** The package-level errors of [xerror], one constructor each. *)
Inductive sentinel :=
  | ErrWatchInsideMulti | ErrTraceInsideMulti | ErrMultiNested | ErrEXECErr | ErrDISCARDErr
  | ErrMultiErr | ErrTransactionDiscarded | ErrNotInteger | ErrGTLTCompat | ErrGTLTNXCompat
  | ErrInvalidFloat | ErrNotPositiveInteger | ErrStartConflictsWithPrefix
  | ErrEndConflictsWithPrefix | ErrRankZero | ErrBitFieldType | ErrNotFloat | ErrOffset
  | ErrFloatInfinity | ErrNumberGreater | ErrNumberNegative | ErrCountNegative
  | ErrTimeoutNegative | ErrLuaInvalidType | ErrSyntax | ErrMustCreateRoot
  | ErrWrongStaticPath | ErrArrayOutOfRange | ErrMinMaxString | ErrNotExpire | WrongTypeErr
  | ErrNoMatchScript | ErrReadOnlyScript | CallNeedArgsScript | UnsupportCmdFromScript
  | UnknownCmdFromScript | UnsupportFlushOption | UnsupportCmd | WRONGPASS
  | ErrAuthentication | ErrExceedMaxSize | ErrBusyScript | ErrScriptKilled | ErrScriptTimeout
  | ErrResultNan | ErrStoreOption | ErrKeyIsLocked | ErrPathNotExist | ErrPathNotObject
  | ErrPathNotString | ErrPathNotBool | ErrPathNotArray | ErrPathNotNumber | MissingTxn
  | InvalidTxn | WrongNumberOfArgs | ErrValueTooShort | ErrKeyTooLong | ErrValueTooLong
  | ErrNotTTL | ErrTTLInvalidValueType | ErrNoLuasAvailable | ErrNotSupport | InvalidPassword
  | ErrNotExistPassword | ErrTooManyPasswords | ErrInvalidPassword
  | ErrSubscribeMessageTooSlow | UnknownCommandInACL | ErrCheckFailed | InvalidJsonError
  | InvalidJsonPathError | InvalidCursor | NotFoundCursor | InvalidChannel | InvalidPartition
  | ErrInvalidIndex | ErrOutOfRange | ErrDBIndexOutOfRange | ErrOverflow | ErrNotFound
  | TimeOut | ErrXADDID | InvalidStreamID | XgroupRequireExist | XgroupAlreadyExist
  | ErrStartGreaterThanEnd | ErrNoSuchKey | ErrNoLeader | InvalidWeight | ErrClientClosed
  | ErrUnBlocked | ErrNoSuchMaster | ErrGeoFromSpecified | ErrGeoBySpecified | InvalidOffset
  | InvalidLimit | ErrClosed | ErrEmpty | ErrInternalServer.

(** [RedisError]: the struct behind every error of the package. *)
Record RedisError := { Prefix : string; Name : string }.

Definition ScriptNew (text : string) := {| Prefix := "NOSCRIPT"; Name := text |}.
Definition RedisNew (text : string) := {| Prefix := "ERR"; Name := text |}.
Definition WrongTypeNew (text : string) := {| Prefix := "WRONGTYPE"; Name := text |}.
Definition BusyNew (text : string) := {| Prefix := "BUSY"; Name := text |}.
Definition ExecAbortNew (text : string) := {| Prefix := "EXECABORT"; Name := text |}.

(** The [var] block: what each sentinel holds. *)
Definition sentinel_error (s : sentinel) : RedisError :=
  match s with
  | ErrWatchInsideMulti => RedisNew "WATCH inside MULTI is not allowed"
  | ErrTraceInsideMulti => RedisNew "Trace inside MULTI is not allowed"
  | ErrMultiNested => RedisNew "MULTI calls can not be nested"
  | ErrEXECErr => RedisNew "EXEC without MULTI"
  | ErrDISCARDErr => RedisNew "DISCARD without MULTI"
  | ErrMultiErr => RedisNew "without MULTI"
  | ErrTransactionDiscarded =>
      ExecAbortNew "Transaction discarded because of previous errors."
  | ErrNotInteger => RedisNew "value is not an integer or out of range"
  | ErrGTLTCompat => RedisNew "GT and LT options at the same time are not compatible"
  | ErrGTLTNXCompat =>
      RedisNew "NX and XX, GT or LT options at the same time are not compatible"
  | ErrInvalidFloat => RedisNew "value is not a valid float"
  | ErrNotPositiveInteger => RedisNew "value is out of range, must be positive"
  | ErrStartConflictsWithPrefix => RedisNew "start conflicts with prefix"
  | ErrEndConflictsWithPrefix => RedisNew "end conflicts with prefix"
  | ErrRankZero =>
      RedisNew "RANK can't be zero: use 1 to start from the first match, 2 from the second, ..."
  | ErrBitFieldType =>
      RedisNew "Invalid bitfield type. Use something like i16 u8. Note that u64 is not supported but i64 is."
  | ErrNotFloat => RedisNew "value is not a valid float"
  | ErrOffset => RedisNew "offset is out of range"
  | ErrFloatInfinity => RedisNew "increment would produce NaN or Infinity"
  | ErrNumberGreater => RedisNew "Number of keys can't be greater than number of args"
  | ErrNumberNegative => RedisNew "Number of keys can't be negative"
  | ErrCountNegative => RedisNew "COUNT can't be negative"
  | ErrTimeoutNegative => RedisNew "timeout is negative"
  | ErrLuaInvalidType => RedisNew "lua invalid type"
  | ErrSyntax => RedisNew "syntax error"
  | ErrMustCreateRoot => RedisNew "new objects must be created at the root"
  | ErrWrongStaticPath => RedisNew "wrong static path"
  | ErrArrayOutOfRange => RedisNew "array index out of range"
  | ErrMinMaxString => RedisNew "min or max not valid string range item"
  | ErrNotExpire => RedisNew "not expire"
  | WrongTypeErr => WrongTypeNew "Operation against a key holding the wrong kind of value"
  | ErrNoMatchScript => ScriptNew "No matching script. Please use EVAL."
  | ErrReadOnlyScript =>
      RedisNew "Write commands are not allowed from read-only scripts."
  | CallNeedArgsScript =>
      RedisNew "Please specify at least one argument for redis.call()"
  | UnsupportCmdFromScript => RedisNew "This Redis command is not allowed from scripts"
  | UnknownCmdFromScript => RedisNew "Unknown Redis command called from Lua script"
  | UnsupportFlushOption => RedisNew "SCRIPT FLUSH only support SYNC|ASYNC option."
  | UnsupportCmd => RedisNew "This Redis command is not allowed"
  | WRONGPASS => RedisNew "WRONGPASS invalid username-password pair or user is disabled."
  | ErrAuthentication => RedisNew "Authentication required."
  | ErrExceedMaxSize => RedisNew "exceeds maximum allowed size"
  | ErrBusyScript =>
      BusyNew "Redis is busy running a script. You can only call SCRIPT KILL or SHUTDOWN NOSAVE."
  | ErrScriptKilled => RedisNew "Script killed by user with SCRIPT KILL..."
  | ErrScriptTimeout => RedisNew "Script timeout"
  | ErrResultNan => RedisNew "resulting score is not a number (NaN)"
  | ErrStoreOption =>
      RedisNew "STORE option in GEORADIUS is not compatible with WITHDIST, WITHHASH and WITHCOORDS options"
  | ErrKeyIsLocked => RedisNew "key is locked"
  | ErrPathNotExist => RedisNew "Path does not exist"
  | ErrPathNotObject => RedisNew "Path does not an object"
  | ErrPathNotString => RedisNew "Path does not a string"
  | ErrPathNotBool => RedisNew "Path does not exist or not a bool"
  | ErrPathNotArray => RedisNew "Path does not an array"
  | ErrPathNotNumber => RedisNew "Path does not a number"
  | MissingTxn => RedisNew "missing transcation"
  | InvalidTxn => RedisNew "invalid transcation"
  | WrongNumberOfArgs => RedisNew "wrong number of arguments"
  | ErrValueTooShort => RedisNew "value is too short"
  | ErrKeyTooLong => RedisNew "key is too long"
  | ErrValueTooLong => RedisNew "value is too long"
  | ErrNotTTL => RedisNew "value is not ttl"
  | ErrTTLInvalidValueType => RedisNew "ttl invalid value type"
  | ErrNoLuasAvailable => RedisNew "no lua available"
  | ErrNotSupport => RedisNew "not support"
  | InvalidPassword =>
      RedisNew "The password hash must be exactly 64 characters and contain only lowercase hexadecimal characters"
  | ErrNotExistPassword =>
      RedisNew "The password you are trying to remove from the user does not exist"
  | ErrTooManyPasswords => RedisNew "Too many passwords"
  | ErrInvalidPassword => RedisNew "invalid password"
  | ErrSubscribeMessageTooSlow => RedisNew "subscribe message too slow"
  | UnknownCommandInACL => RedisNew "Unknown command or category name in ACL"
  | ErrCheckFailed => RedisNew "check failed"
  | InvalidJsonError => RedisNew "invalid json"
  | InvalidJsonPathError => RedisNew "invalid json path"
  | InvalidCursor => RedisNew "invalid cursor"
  | NotFoundCursor => RedisNew "not found cursor"
  | InvalidChannel => RedisNew "invalid channel name"
  | InvalidPartition => RedisNew "invalid partition"
  | ErrInvalidIndex => RedisNew "invalid index"
  | ErrOutOfRange => RedisNew "index out of range"
  | ErrDBIndexOutOfRange => RedisNew "DB index is out of range"
  | ErrOverflow => RedisNew "increment or decrement would overflow"
  | ErrNotFound => RedisNew "value not found"
  | TimeOut => RedisNew "time out"
  | ErrXADDID =>
      RedisNew "The ID specified in XADD is equal or smaller than the target stream top item"
  | InvalidStreamID => RedisNew "Invalid stream ID specified as stream command argument"
  | XgroupRequireExist =>
      RedisNew "The XGROUP subcommand requires the key to exist. Note that for CREATE you may want to use the MKSTREAM option to create an empty stream automatically."
  | XgroupAlreadyExist => RedisNew "BUSYGROUP Consumer Group name already exists"
  | ErrStartGreaterThanEnd => RedisNew "start is larger than the end of the list"
  | ErrNoSuchKey => RedisNew "no such key"
  | ErrNoLeader => RedisNew "no leader"
  | InvalidWeight => RedisNew "weight value is not a float"
  | ErrClientClosed => RedisNew "client closed"
  | ErrUnBlocked => RedisNew "UNBLOCKED client unblocked via CLIENT UNBLOCK"
  | ErrNoSuchMaster => RedisNew "No such master with that name"
  | ErrGeoFromSpecified =>
      RedisNew "exactly one of FROMMEMBER or FROMLONLAT can be specified for geosearch"
  | ErrGeoBySpecified =>
      RedisNew "exactly one of BYRADIUS and BYBOX can be specified for geosearch"
  | InvalidOffset => RedisNew "invalid offset"
  | InvalidLimit => RedisNew "invalid limit"
  | ErrClosed => RedisNew "closed"
  | ErrEmpty => RedisNew "emtpy"
  | ErrInternalServer => RedisNew "internal server error"
  end.

(** The methods [Error] and [StructError] of a [RedisError]. *)
Definition Error (e : RedisError) : string := Name e.
Definition StructError (e : RedisError) : string := Prefix e +:+ " " +:+ Name e.

(** What lancelot observes of an error of the TiKV client: the answers of
    [tikverr.IsErrNotFound], [tikverr.IsErrWriteConflict], the comparison of its
    cause with the two lock errors, and its text. *)
Record tikv_error := {
  te_notfound : bool; te_conflict : bool; te_locknowait : bool; te_lockwait : bool;
  te_msg : string
}.

(** The values of Go's [error] that the modelled code returns or compares. *)
Inductive error :=
  | KeyNotFound | ReachLimit | UnsafeDestroyRangeFailed   (* store/error.go *)
  | ErrInvalidInt | ErrPrecision                          (* utils *)
  | NumError (text : string)                              (* strconv *)
  | ErrBadPattern                                         (* utils/glob *)
  | Sentinel (s : sentinel)
  | Redis (e : RedisError)
  | Tikv (e : tikv_error)
  | UuidError (text : string)                             (* google/uuid *)
  | FmtError (text : string).                             (* fmt.Errorf *)

Coercion Sentinel : sentinel >-> error.

(** The errors built from a command name or an option. *)
Definition WrongArgsString (command : string) : string :=
  "wrong number of arguments for '" +:+ command +:+ "' command".
Definition NotExistKey (key : string) : string :=
  "key '" +:+ key +:+ "' does not exist in path".
Definition UnsupportedOption (opt : string) : string := "Unsupported option " +:+ opt.
Definition UnknownCommand (command : string) : string :=
  "unknown command `" +:+ command +:+ "`, with args beginning with:".
Definition InvalidExpire (command : string) : string :=
  "invalid expire time in " +:+ command.
Definition InvalidCommand (command : string) : string :=
  "Can't execute '" +:+ command +:+ "': only SUBSCRIBE / UNSUBSCRIBE / PING / QUIT are allowed in this context".

Definition NotExistKeyError (key : string) : error := Redis (RedisNew (NotExistKey key)).
Definition UnsupportedOptionError (opt : string) : error :=
  Redis (RedisNew (UnsupportedOption opt)).
Definition WrongArgsError (command : string) : error :=
  Redis (RedisNew (WrongArgsString command)).
Definition UnknownCommandError (command : string) : error :=
  Redis (RedisNew (UnknownCommand command)).
Definition InvalidExpireError (command : string) : error :=
  Redis (RedisNew (InvalidExpire command)).
Definition InvalidCommandError (command : string) : error :=
  Redis (RedisNew (InvalidCommand command)).
Definition WrongSubArgsString (command help : string) : string :=
  "Unknown subcommand or wrong number of arguments for '" +:+ command
    +:+ "'. Try " +:+ help +:+ ".".
Definition WrongSubArgsError (command help : string) : error :=
  Redis (RedisNew (WrongSubArgsString command help)).
Definition WrongPermissionString (command : string) : string :=
  "this user has no permissions to run the '" +:+ command +:+ "' command or its subcommand".
Definition WrongPermissionError (command : string) : error :=
  Redis (RedisNew (WrongPermissionString command)).
Definition WrongUsernameString (username : string) : string :=
  "invalid username '" +:+ username +:+ "'".
Definition WrongUsernameError (username : string) : error :=
  Redis (RedisNew (WrongUsernameString username)).

(** [strings.ReplaceAll(s, c, " ")] for a single-byte [c]. *)
Fixpoint ReplaceAll (c : Ascii.ascii) (s : string) : string :=
  match s with
  | EmptyString => EmptyString
  | String d s => String (if Ascii.eqb c d then " "%char else d) (ReplaceAll c s)
  end.

Definition MakeSafeString (msg : string) : string :=
  ReplaceAll "013"%char (ReplaceAll "010"%char msg).

Definition PathNotExist (path : string) : string := "Path '" +:+ path +:+ "' does not exist".
Definition PathNotExistError (path : string) : error :=
  Redis (RedisNew (MakeSafeString (PathNotExist path))).

(** [err.Error()] for the errors above. *)
Definition error_text (e : error) : string :=
  match e with
  | KeyNotFound => "key not found"
  | ReachLimit => "reach the limit"
  | UnsafeDestroyRangeFailed => "unsafe destroy range failed"
  | ErrInvalidInt => "invalid int"
  | ErrPrecision => "precision lost"
  | NumError s => s
  | ErrBadPattern => "syntax error in pattern"
  | Sentinel s => Error (sentinel_error s)
  | Redis e => Error e
  | Tikv e => te_msg e
  | UuidError s => s
  | FmtError s => s
  end.

(** [strings.ToUpper] of an ASCII string. *)
Definition upper_ascii (c : Ascii.ascii) : Ascii.ascii :=
  let n := Ascii.nat_of_ascii c in
  if (97 <=? n)%nat && (n <=? 122)%nat then Ascii.ascii_of_nat (n - 32) else c.
Fixpoint ToUpper (s : string) : string :=
  match s with EmptyString => EmptyString | String c s => String (upper_ascii c) (ToUpper s) end.

Definition WrongModifier (command modifier : string) (err : error) : error :=
  FmtError ("Error in " +:+ ToUpper command +:+ " modifier '" +:+ modifier +:+ "': " +:+ error_text err).

(** [WriteConnError] chooses the text of an error reply by the error's type. *)
Definition conn_error_text (e : error) : string :=
  match e with
  | Sentinel s => StructError (sentinel_error s)
  | Redis e => StructError e
  | _ => error_text e
  end.

(** [MakeSafeErr]: an error whose text has no line break, so it cannot break the
    framing of an error reply. *)
Definition MakeSafeErr (e : error) : error := Redis (RedisNew (MakeSafeString (error_text e))).

(** ** Line breaks *)

Fixpoint str_In (c : Ascii.ascii) (s : string) : Prop :=
  match s with EmptyString => False | String d s => d = c \/ str_In c s end.

Lemma ReplaceAll_In c d s : c <> " "%char -> str_In d (ReplaceAll c s) -> d <> c /\ (d = " "%char \/ str_In d s).
Proof.
  intros Hc. induction s as [|a s IH]; simpl; [done|].
  intros [<-|H].
  - destruct (Ascii.eqb_spec c a) as [->|Hne]; [split; auto|split; [congruence|auto]].
  - destruct (IH H) as (?&[?|?]); auto.
Qed.

Lemma MakeSafeString_no_newline msg :
  ~ str_In "010"%char (MakeSafeString msg) /\ ~ str_In "013"%char (MakeSafeString msg).
Proof.
  unfold MakeSafeString. split; intros H.
  - apply ReplaceAll_In in H as (_&[H|H]); [done| |done].
    by apply ReplaceAll_In in H as (?&_).
  - by apply ReplaceAll_In in H as (?&_).
Qed.
