(* ===== verification/GoStd.v ===== *)
(** The parts of Go's standard library that the modelled code calls:
    [strconv.ParseInt], [Atoi] and [FormatInt] in base 10, [strings.ToLower] as it is
    used to recognise keywords, [hash/fnv], and [time]. *)

From S2P Require Import Prelude.
From Stdlib Require Import Init.Byte.

(** ** strconv *)

Definition is_digit (b : Init.Byte.byte) : bool := (48 <=? b2z b) && (b2z b <=? 57).

(** The digits of [l] accumulated onto [acc]; [None] at a byte that is no digit. *)
Fixpoint parse_digits (l : bytes) (acc : Z) : option Z :=
  match l with
  | [] => Some acc
  | b :: l => if is_digit b then parse_digits l (acc * 10 + (b2z b - 48)) else None
  end.

(** [strconv.ParseInt(s, 10, 64)]: an optional sign, at least one digit, and a value
    that fits; [None] is any error (syntax or range). [strconv.Atoi] accepts the same
    strings, an [int] having 64 bits. *)
Definition ParseInt (s : bytes) : option Z :=
  let '(neg, ds) :=
    match s with
    | x2d :: ds => (true, ds)
    | x2b :: ds => (false, ds)
    | ds => (false, ds)
    end in
  match ds with
  | [] => None
  | _ =>
      match parse_digits ds 0 with
      | None => None
      | Some n =>
          if neg then (if n <=? 2 ^ 63 then Some (- n) else None)
          else (if n <? 2 ^ 63 then Some n else None)
      end
  end.

Definition Atoi (s : bytes) : option Z := ParseInt s.

(** [strconv.ParseUint(s, 10, 64)]: digits only. *)
Definition ParseUint (s : bytes) : option Z :=
  match s with
  | [] => None
  | _ => match parse_digits s 0 with
         | Some n => if n <? 2 ^ 64 then Some n else None
         | None => None
         end
  end.

Definition digit (n : Z) : Init.Byte.byte := z2b (48 + n).

(** The decimal digits of [n] in front of [acc]; twenty digits are enough for any
    64-bit integer. *)
Fixpoint format_digits (fuel : nat) (n : Z) (acc : bytes) : bytes :=
  match fuel with
  | O => acc
  | S fuel =>
      if n <? 10 then digit n :: acc
      else format_digits fuel (n / 10) (digit (n mod 10) :: acc)
  end.

Definition FormatUint (n : Z) : bytes := format_digits 20 n [].
Definition FormatInt (n : Z) : bytes :=
  if n <? 0 then x2d :: FormatUint (- n) else FormatUint n.

Lemma b2z_digit n : 0 <= n < 10 -> b2z (digit n) = 48 + n.
Proof. intros. unfold digit. rewrite b2z_z2b, Z.mod_small; lia. Qed.

Lemma is_digit_digit n : 0 <= n < 10 -> is_digit (digit n) = true.
Proof. intros. unfold is_digit. rewrite b2z_digit by done. lia. Qed.

Lemma is_digit_range b : is_digit b = true <-> 48 <= b2z b <= 57.
Proof. unfold is_digit. lia. Qed.

Lemma parse_format_digits fuel n acc :
  0 <= n < 10 ^ Z.of_nat fuel ->
  parse_digits (format_digits fuel n acc) 0 = parse_digits acc n.
Proof.
  revert n acc. induction fuel as [|fuel IH]; intros n acc Hn.
  - simpl in Hn. assert (n = 0) as -> by lia. done.
  - rewrite Nat2Z.inj_succ, Z.pow_succ_r in Hn by lia. cbn [format_digits].
    destruct (Z.ltb_spec n 10).
    + cbn [parse_digits]. rewrite is_digit_digit, b2z_digit by lia. f_equal. lia.
    + pose proof (Z.mod_pos_bound n 10 eq_refl).
      rewrite IH; [|split; [apply Z.div_pos; lia|apply Z.div_lt_upper_bound; lia]].
      cbn [parse_digits]. rewrite is_digit_digit, b2z_digit by lia. f_equal.
      rewrite (Z.div_mod n 10) at 3 by lia. lia.
Qed.

Lemma format_digits_head fuel n acc :
  0 <= n -> (fuel <> 0)%nat -> exists d l, format_digits fuel n acc = d :: l /\ is_digit d = true.
Proof.
  revert n acc. induction fuel as [|fuel IH]; intros n acc Hn Hf; [done|]. simpl.
  destruct (Z.ltb_spec n 10); [eexists _, _; split; [done|apply is_digit_digit; lia]|].
  destruct fuel as [|fuel].
  - simpl. eexists _, _; split; [done|].
    apply is_digit_digit. apply Z.mod_pos_bound. lia.
  - apply IH; [|done]. apply Z.div_pos; lia.
Qed.

Lemma ParseInt_digits d l :
  is_digit d = true ->
  ParseInt (d :: l) =
  match parse_digits (d :: l) 0 with
  | Some n => if n <? 2 ^ 63 then Some n else None
  | None => None
  end.
Proof.
  rewrite is_digit_range. intros Hd. unfold ParseInt.
  assert (d <> x2d /\ d <> x2b) as [H1 H2].
  { split; intros ->; vm_compute in Hd; intuition congruence. }
  destruct d; try done; reflexivity.
Qed.

(** What [FormatInt] writes, [ParseInt] reads back. *)
Lemma ParseInt_FormatInt v : in_i64 v -> ParseInt (FormatInt v) = Some v.
Proof.
  unfold in_i64, MinInt64, MaxInt64, FormatInt, FormatUint. intros Hv.
  destruct (Z.ltb_spec v 0).
  - pose proof (parse_format_digits 20 (- v) [] ltac:(simpl; lia)) as Hp.
    destruct (format_digits_head 20 (- v) [] ltac:(lia) ltac:(done)) as (d&l&He&_).
    cbn [ParseInt]. rewrite He in *. rewrite Hp. cbn [parse_digits].
    destruct (Z.leb_spec (- v) (2 ^ 63)); [f_equal; lia|lia].
  - pose proof (parse_format_digits 20 v [] ltac:(simpl; lia)) as Hp.
    destruct (format_digits_head 20 v [] ltac:(lia) ltac:(done)) as (d&l&He&Hd).
    rewrite He in *. rewrite ParseInt_digits, Hp by done. cbn [parse_digits].
    destruct (Z.ltb_spec v (2 ^ 63)); [done|lia].
Qed.

(** [ParseInt] only returns 64-bit integers. *)
Lemma parse_digits_nonneg l acc n : 0 <= acc -> parse_digits l acc = Some n -> 0 <= n.
Proof.
  revert acc. induction l as [|b l IH]; simpl; intros acc Ha H; [by simplify_eq|].
  destruct (is_digit b) eqn:Hb; [|done]. apply is_digit_range in Hb.
  apply IH in H; lia.
Qed.

Lemma ParseInt_range s v : ParseInt s = Some v -> in_i64 v.
Proof.
  unfold ParseInt, in_i64, MinInt64, MaxInt64.
  set (p := match s with [] => _ | _ => _ end). destruct p as [neg ds].
  destruct ds as [|d ds]; [done|].
  destruct (parse_digits (d :: ds) 0) as [n|] eqn:Hn; [|done].
  apply parse_digits_nonneg in Hn; [|done].
  destruct neg; [destruct (Z.leb_spec n (2 ^ 63))|destruct (Z.ltb_spec n (2 ^ 63))];
    intros; simplify_eq; lia.
Qed.

(** A decimal number is never empty. *)
Lemma FormatInt_nonempty v : FormatInt v <> [].
Proof.
  unfold FormatInt, FormatUint. destruct (Z.ltb_spec v 0); [done|].
  destruct (format_digits_head 20 v [] ltac:(lia) ltac:(done)) as (d&l&->&_). done.
Qed.

(** ** strings.ToLower *)

Definition lower (b : Init.Byte.byte) : Init.Byte.byte :=
  if (65 <=? b2z b) && (b2z b <=? 90) then z2b (b2z b + 32) else b.

(** [strings.ToLower] as far as a comparison of its result with a keyword in ASCII
    can see: the two runes outside ASCII whose lower case is in ASCII (the Kelvin
    sign and the dotted capital I) are mapped, every other byte outside ASCII stays
    outside ASCII. *)
Fixpoint ToLower (s : bytes) : bytes :=
  match s with
  | xe2 :: x84 :: xaa :: s => x6b :: ToLower s
  | xc4 :: xb0 :: s => x69 :: ToLower s
  | c :: s => lower c :: ToLower s
  | [] => []
  end.

(** [strings.ToLower(B2S(arg)) == kw]. *)
Definition lower_is (arg : bytes) (kw : string) : bool := bool_decide (ToLower arg = bs kw).

(** ** hash/fnv: the 64-bit FNV-1a sum *)

Definition fnv_offset64 : Z := 14695981039346656037.
Definition fnv_prime64 : Z := 1099511628211.

Definition fnv_New64a_Sum64 (s : bytes) : Z :=
  foldl (fun h b => wrap_u 64 (Z.lxor h (b2z b) * fnv_prime64)) fnv_offset64 s.

(** ** time: an instant as its nanoseconds since the Unix epoch *)

Definition Second : Z := 1000000000.
Definition Millisecond : Z := 1000000.

Definition time_Unix (sec nsec : Z) : Z := sec * Second + nsec.
(** [Time.UnixNano], whose result wraps outside the years 1678 to 2262. *)
Definition UnixNano (t : Z) : Z := i64 t.
(** The zero [time.Time] is midnight of January 1 of year 1. *)
Definition time_IsZero (t : Z) : bool := t =? - 62135596800 * Second.

(** Go's [/] and [%] on signed integers truncate towards zero. *)
Definition go_div (a b : Z) : Z := Z.quot a b.
Definition go_rem (a b : Z) : Z := Z.rem a b.

(** ** make: the runtime panics when the slice would exceed its address space (2^48
    bytes on 64-bit Linux) *)

Definition maxAlloc : Z := 2 ^ 48.
Definition makeslice_ok (n size : Z) : bool := (0 <=? n) && (n * size <=? maxAlloc).
