(* ===== verification/Utils.v ===== *)
(** The package [utils]: key arithmetic (bytes.go), integers (int.go), hashing
    (hash.go) and the size limits (const.go). *)

From S2P Require Import Prelude Xerror GoStd.
From Stdlib Require Import Init.Byte.

(** ** const.go *)

Definition MAX_KEY_SIZE : Z := 4 * 1024.
Definition MAX_VALUE_SIZE : Z := 5 * 1024 * 1024.

(** ** bytes.go *)

Module Bytes.

Definition NextKey (key : bytes) : bytes := key ++ [x00].

(** The loops of [PrevKey] and [PrefixNext] run from the last byte down, so both are
    written on the reversed slice. *)
Fixpoint prev_rev (l : bytes) : option bytes :=
  match l with
  | [] => None
  | b :: l =>
      if b2z b =? 0 then prev_rev l
      else Some (rev (xff :: z2b (b2z b - 1) :: l))
  end.

Definition PrevKey (key : bytes) : option bytes :=
  match key with
  | [] => None
  | _ => prev_rev (rev key)
  end.

(** The increment with carry; the flag says that the loop was left by [break]. *)
Fixpoint incr_rev (l : bytes) : bytes * bool :=
  match l with
  | [] => ([], false)
  | b :: l =>
      let b' := z2b (b2z b + 1) in
      if negb (b2z b' =? 0) then (b' :: l, true)
      else let '(l', brk) := incr_rev l in (b' :: l', brk)
  end.

Definition PrefixNext (prefix : bytes) : bytes :=
  let '(l, brk) := incr_rev (rev prefix) in
  if brk then rev l else prefix ++ [x00].

(** [hex.Encode] and [hex.Decode] as used by the three helpers. *)
Definition hex_digit (n : Z) : Init.Byte.byte := if n <? 10 then z2b (48 + n) else z2b (87 + n).
Definition from_hex (b : Init.Byte.byte) : option Z :=
  let c := b2z b in
  if (48 <=? c) && (c <=? 57) then Some (c - 48)
  else if (97 <=? c) && (c <=? 102) then Some (c - 87)
  else if (65 <=? c) && (c <=? 70) then Some (c - 55)
  else None.

Fixpoint HexEncode (src : bytes) : bytes :=
  match src with
  | [] => []
  | b :: src => hex_digit (b2z b / 16) :: hex_digit (b2z b mod 16) :: HexEncode src
  end.

Fixpoint GetHexDecode (src : bytes) : option bytes :=
  match src with
  | [] => Some []
  | [_] => None
  | a :: b :: src =>
      match from_hex a, from_hex b with
      | Some x, Some y =>
          match GetHexDecode src with Some l => Some (z2b (x * 16 + y) :: l) | None => None end
      | _, _ => None
      end
  end.

(** *** Order facts *)

Lemma NextKey_gt k : blt k (NextKey k).
Proof.
  unfold blt, NextKey. rewrite <- (app_nil_r k) at 1. by rewrite bytes_compare_app.
Qed.

Lemma NextKey_least k x : blt k x -> ble (NextKey k) x.
Proof.
  unfold NextKey, blt, ble. revert x.
  induction k as [|b k IH]; intros [|y x]; simpl; try done.
  - intros _. pose proof (b2z_range y). change (b2z x00) with 0.
    destruct (Z.compare_spec 0 (b2z y)); [by destruct x|done|lia].
  - destruct (b2z b ?= b2z y); try done. apply IH.
Qed.

Lemma incr_rev_spec l :
  incr_rev l =
  if decide (Forall (fun b => b = xff) l) then (replicate (length l) x00, false)
  else (fst (incr_rev l), true).
Proof.
  induction l as [|b l IH]; [done|]. cbn [incr_rev].
  rewrite b2z_z2b. pose proof (b2z_range b) as Hb.
  destruct (Z.eqb_spec ((b2z b + 1) mod 256) 0) as [E|E]; cbn [negb].
  - assert (b = xff) as ->.
    { apply (inj b2z). change (b2z xff) with 255. 
      destruct (Z.eq_dec (b2z b) 255); [done|]. rewrite Z.mod_small in E; lia. }
    rewrite IH. destruct (decide (Forall _ l)) as [Hl|Hl].
    + rewrite decide_True by by constructor. done.
    + rewrite decide_False; [done|]. intros H. by inversion H.
  - rewrite decide_False; [done|]. intros H. inversion H; subst. by apply E.
Qed.

(** [PrefixNext] of a prefix that is not all [0xff] increments its last byte below
    [0xff] and clears the bytes behind it. *)
Lemma PrefixNext_shape p :
  ~ Forall (fun b => b = xff) p ->
  exists q c n, p = q ++ c :: replicate n xff /\ b2z c < 255 /\
    PrefixNext p = q ++ z2b (b2z c + 1) :: replicate n x00.
Proof.
  intros Hp. unfold PrefixNext.
  assert (Hr : ~ Forall (fun b => b = xff) (rev p)).
  { intros H. apply Hp. rewrite <- (rev_involutive p), rev_is_reverse. by apply Forall_reverse. }
  assert (Hinc : forall l, ~ Forall (fun b => b = xff) l ->
    exists n c r, l = replicate n xff ++ c :: r /\ b2z c < 255 /\
      incr_rev l = (replicate n x00 ++ z2b (b2z c + 1) :: r, true)).
  { clear. induction l as [|b l IH]; intros Hl; [by destruct Hl|].
    destruct (decide (b = xff)) as [->|Hb].
    - destruct IH as (n&c&r&->&Hc&He); [intros ?; apply Hl; by constructor|].
      exists (S n), c, r. split; [done|]. split; [done|].
      cbn [incr_rev]. rewrite He. done.
    - assert (b2z b < 255).
      { pose proof (b2z_range b). assert (b2z b <> 255); [|lia].
        intros E. apply Hb. by apply (inj b2z). }
      exists 0%nat, b, l. split; [done|]. split; [done|].
      cbn [incr_rev]. rewrite b2z_z2b. pose proof (b2z_range b).
      rewrite Z.mod_small by lia. destruct (Z.eqb_spec (b2z b + 1) 0); [lia|done]. }
  destruct (Hinc _ Hr) as (n&c&r&Hl&Hc&->).
  exists (rev r), c, n. split; [|split; [done|]].
  - rewrite <- (rev_involutive p), Hl, rev_app_distr. simpl.
    by rewrite rev_replicate, <- app_assoc.
  - rewrite rev_app_distr. simpl.
    by rewrite rev_replicate, <- app_assoc.
Qed.

Lemma bytes_compare_common q a b : bytes_compare (q ++ a) (q ++ b) = bytes_compare a b.
Proof. apply bytes_compare_app. Qed.

Lemma ble_ffs n k : ble (replicate n xff) k <-> exists d, k = replicate n xff ++ d.
Proof.
  split; [|intros [d ->]; apply ble_app].
  revert k. induction n as [|n IH]; intros k H; [by exists k|].
  destruct k as [|b k]; [done|]. unfold ble in H. simpl in H.
  change (b2z xff) with 255 in H. pose proof (b2z_range b).
  destruct (Z.compare_spec 255 (b2z b)) as [E|E|E]; [|lia|done].
  destruct (IH k H) as [d ->]. exists d. simpl. f_equal.
  symmetry. by apply (inj b2z).
Qed.

Lemma blt_zeros_length n k : blt k (replicate n x00) -> (length k < n)%nat.
Proof.
  revert k. induction n as [|n IH]; intros [|b k]; simpl; try done; [lia|].
  unfold blt; simpl. change (b2z x00) with 0. pose proof (b2z_range b).
  destruct (Z.compare_spec (b2z b) 0); try done; [|lia].
  intros H'. apply IH in H'. lia.
Qed.

(** A key in [\[p, PrefixNext p)] that is no shorter than [p] has the prefix [p]. *)
Lemma PrefixNext_range_prefix p k :
  ~ Forall (fun b => b = xff) p -> (length p <= length k)%nat ->
  ble p k -> blt k (PrefixNext p) -> has_prefix p k = true.
Proof.
  intros Hp Hlen H1 H2. apply PrefixNext_shape in Hp as (q&c&n&->&Hc&HN).
  rewrite HN in H2. clear HN. rewrite has_prefix_spec.
  revert k Hlen H1 H2. induction q as [|x q IH]; intros [|y k] Hlen H1 H2; simpl in *; try lia.
  - unfold ble, blt in *. simpl in *. rewrite b2z_z2b in H2.
    pose proof (b2z_range c). rewrite Z.mod_small in H2 by lia.
    destruct (Z.compare_spec (b2z c) (b2z y)) as [E|E|E]; [| |done].
    + apply ble_ffs in H1 as [d ->]. exists d. f_equal. symmetry. by apply (inj b2z).
    + destruct (Z.compare_spec (b2z y) (b2z c + 1)) as [E'|E'|E']; [|lia|done].
      apply blt_zeros_length in H2. rewrite length_replicate in Hlen. lia.
  - unfold ble, blt in *. simpl in *. destruct (Z.compare_spec (b2z x) (b2z y)) as [E|E|E]; [| |done].
    + rewrite <- E, Z.compare_refl in H2. apply (inj b2z) in E as <-.
      destruct (IH k ltac:(lia) H1 H2) as [d ->]. by exists d.
    + rewrite (Z.compare_antisym (b2z x)), (proj2 (Z.compare_lt_iff _ _) E) in H2. done.
Qed.

Lemma has_prefix_in_range p k :
  ~ Forall (fun b => b = xff) p -> has_prefix p k = true ->
  ble p k /\ blt k (PrefixNext p).
Proof.
  intros Hp [d ->]%has_prefix_spec. split; [apply ble_app|].
  apply PrefixNext_shape in Hp as (q&c&n&->&Hc&->).
  unfold blt. rewrite <- app_assoc, bytes_compare_app. simpl.
  rewrite b2z_z2b. pose proof (b2z_range c). rewrite Z.mod_small by lia.
  by rewrite (proj2 (Z.compare_lt_iff _ _)) by lia.
Qed.

(** The range scan [\[p, PrefixNext p)] that every listing of the store uses
    selects, among the keys no shorter than [p] (the length test the callbacks
    make), exactly the keys with prefix [p], for any prefix that has a byte other
    than [0xff] (all prefixes of the store begin with a letter). *)
Lemma PrefixNext_range p k :
  ~ Forall (fun b => b = xff) p -> (length p <= length k)%nat ->
  (ble p k /\ blt k (PrefixNext p)) <-> has_prefix p k = true.
Proof.
  intros Hp Hl. split; [intros [??]; by apply PrefixNext_range_prefix|].
  by apply has_prefix_in_range.
Qed.

Lemma PrefixNext_range_witness :
  (ble (bs "dk") (bs "dkey") /\ blt (bs "dkey") (PrefixNext (bs "dk"))) <->
  has_prefix (bs "dk") (bs "dkey") = true.
Proof.
  apply (PrefixNext_range (bs "dk") (bs "dkey")).
  - intros H. inversion H; done.
  - vm_compute. lia.
Defined.

(** The length test is needed: a key shorter than the prefix can fall in the range. *)
Example PrefixNext_short_key :
  ble [x61; xff] [x62] /\ blt [x62] (PrefixNext [x61; xff]) /\
  has_prefix [x61; xff] [x62] = false.
Proof. done. Qed.

(** [NextKey k] is the least slice above [k]: a scan resumed at it misses no key
    and repeats none. *)
Lemma NextKey_successor k x : blt k x <-> ble (NextKey k) x.
Proof.
  split; [apply NextKey_least|]. intros H. eapply blt_ble_trans; [apply NextKey_gt|done].
Qed.

Lemma PrevKey_lt k k' : PrevKey k = Some k' -> blt k' k.
Proof.
  unfold PrevKey. intros H.
  assert (Hr : forall l r, prev_rev l = Some r -> blt r (rev l)).
  { clear. induction l as [|b l IH]; simpl; intros r H; [done|].
    destruct (Z.eqb_spec (b2z b) 0) as [E|E].
    - apply IH in H. eapply blt_ble_trans; [exact H|]. apply ble_app.
    - simplify_eq. unfold blt. simpl. rewrite <- app_assoc. rewrite bytes_compare_app. simpl.
      rewrite b2z_z2b. pose proof (b2z_range b). rewrite Z.mod_small by lia.
      by rewrite (proj2 (Z.compare_lt_iff _ _)) by lia. }
  destruct k as [|b k]; [done|]. apply Hr in H. by rewrite rev_involutive in H.
Qed.

Lemma from_hex_digit n : 0 <= n < 16 -> from_hex (hex_digit n) = Some n.
Proof.
  intros Hn. unfold hex_digit, from_hex. destruct (Z.ltb_spec n 10); rewrite b2z_z2b, Z.mod_small by lia.
  - replace ((48 <=? 48 + n) && (48 + n <=? 57)) with true by lia. f_equal. lia.
  - replace ((48 <=? 87 + n) && (87 + n <=? 57)) with false by lia.
    replace ((97 <=? 87 + n) && (87 + n <=? 102)) with true by lia. f_equal. lia.
Qed.

Lemma HexEncode_GetHexDecode src : GetHexDecode (HexEncode src) = Some src.
Proof.
  induction src as [|b src IH]; [done|]. cbn [HexEncode GetHexDecode].
  pose proof (b2z_range b). pose proof (Z.mod_pos_bound (b2z b) 16 eq_refl).
  assert (0 <= b2z b / 16 < 16).
  { split; [apply Z.div_pos; lia|apply Z.div_lt_upper_bound; lia]. }
  rewrite !from_hex_digit, IH by lia. do 2 f_equal.
  replace (b2z b / 16 * 16 + b2z b mod 16) with (b2z b)
    by (rewrite (Z.div_mod (b2z b) 16) at 1 by lia; lia).
  apply z2b_b2z.
Qed.

End Bytes.

(** ** int.go *)

Module Int.

Definition signMask64 : Z := 2 ^ 63.
Definition signMask16 : Z := 2 ^ 15.

(** [-x] wraps: [Abs] of the least [int64] is itself. *)
Definition Abs (x : Z) : Z := if x <? 0 then i64 (- x) else x.

Definition GetNonnegativeInt64 (arg : bytes) : Z * option error :=
  match ParseInt arg with
  | None => (0, Some ErrInvalidInt)
  | Some offset => if offset <? 0 then (0, Some ErrInvalidInt) else (offset, None)
  end.

(** On a value that is no positive integer the parsed value is still returned, and an
    argument that does not parse gives the error of [strconv]. *)
Definition GetPositiveInt (arg : bytes) : Z * option error :=
  match Atoi arg with
  | None => (0, Some (NumError "strconv.Atoi"))
  | Some offset => if offset <=? 0 then (offset, Some ErrInvalidInt) else (offset, None)
  end.

(** The differences are [int64] subtractions. *)
Definition ValidIncrementInt (v i : Z) : bool :=
  if (v >=? 0) && (i64 (MaxInt64 - v) <? i) then false
  else if (v <? 0) && (i64 (MinInt64 - v) >? i) then false
  else true.

Definition EncodeInt64ToCmpUint (v : Z) : Z := Z.lxor (u64 v) signMask64.
Definition DecodeCmpUintToInt64 (u : Z) : Z := i64 (Z.lxor u signMask64).
Definition EncodeInt16ToCmpUint (v : Z) : Z := Z.lxor (wrap_u 16 v) signMask16.
Definition DecodeCmpUintToInt16 (u : Z) : Z := wrap_s 16 (Z.lxor u signMask16).

Lemma ValidIncrementInt_iff v i :
  in_i64 v -> in_i64 i -> ValidIncrementInt v i = true <-> in_i64 (v + i).
Proof.
  unfold ValidIncrementInt, in_i64, MinInt64, MaxInt64. intros Hv Hi.
  destruct (Z.geb_spec v 0), (Z.ltb_spec v 0); try lia; cbn [andb].
  - rewrite i64_small by (unfold in_i64, MinInt64, MaxInt64; lia).
    destruct (Z.ltb_spec (2 ^ 63 - 1 - v) i); split; try done; lia.
  - rewrite i64_small by (unfold in_i64, MinInt64, MaxInt64; lia).
    rewrite Z.gtb_ltb. destruct (Z.ltb_spec i (- 2 ^ 63 - v)); split; try done; lia.
Qed.

(** C39. [ValidIncrementInt] accepts exactly the increments that do not overflow, and the
    subtraction it makes, from the largest integer when the value is not negative and from
    the least when it is, does not wrap. *)
Theorem ValidIncrementInt_correct v i :
  in_i64 v -> in_i64 i ->
  (ValidIncrementInt v i = true <-> in_i64 (v + i)) /\
  (v >= 0 -> i64 (MaxInt64 - v) = MaxInt64 - v) /\ (v < 0 -> i64 (MinInt64 - v) = MinInt64 - v).
Proof.
  intros Hv Hi. split; [by apply ValidIncrementInt_iff|].
  split; intros; apply i64_small; unfold in_i64, MinInt64, MaxInt64 in *; lia.
Qed.

Lemma ValidIncrementInt_correct_witness :
  (ValidIncrementInt MaxInt64 1 = true <-> in_i64 (MaxInt64 + 1)) /\ i64 (MaxInt64 - MaxInt64) = 0.
Proof.
  destruct (ValidIncrementInt_correct MaxInt64 1) as (Hiff&Hp&_); [split; vm_compute; congruence..|].
  split; [exact Hiff|]. rewrite Hp; [reflexivity|vm_compute; congruence].
Defined.

(** Flipping the sign bit of a [w]-bit integer is adding [2^(w-1)] modulo [2^w]. *)
Lemma lxor_sign w z : 0 < w -> 0 <= z < 2 ^ w -> Z.lxor z (2 ^ (w - 1)) = (z + 2 ^ (w - 1)) mod 2 ^ w.
Proof.
  intros Hw Hz. assert (Hp : 2 ^ w = 2 * 2 ^ (w - 1)) by (rewrite <- Z.pow_succ_r by lia; f_equal; lia).
  destruct (Z_lt_dec z (2 ^ (w - 1))) as [Hlt|Hge].
  - rewrite Z.mod_small by lia.
    rewrite <- Z.add_nocarry_lxor; [done|].
    apply Z.bits_inj_0. intros n. rewrite Z.land_spec, Z.pow2_bits_eqb by lia.
    destruct (Z.eqb_spec (w - 1) n) as [<-|]; [|by rewrite andb_false_r].
    rewrite Z.testbit_eqb, Z.div_small by lia. done.
  - replace (z + 2 ^ (w - 1)) with (z - 2 ^ (w - 1) + 1 * 2 ^ w) by lia.
    rewrite Z_mod_plus_full, Z.mod_small by lia.
    assert (Hz' : z = Z.lxor (z - 2 ^ (w - 1)) (2 ^ (w - 1))).
    { rewrite <- Z.add_nocarry_lxor; [lia|].
      apply Z.bits_inj_0. intros n. rewrite Z.land_spec, Z.pow2_bits_eqb by lia.
      destruct (Z.eqb_spec (w - 1) n) as [<-|]; [|by rewrite andb_false_r].
      rewrite Z.testbit_eqb, Z.div_small by lia. done. }
    rewrite Hz' at 1. rewrite Z.lxor_assoc, Z.lxor_nilpotent, Z.lxor_0_r. done.
Qed.

Lemma EncodeInt64ToCmpUint_eq v : in_i64 v -> EncodeInt64ToCmpUint v = v + 2 ^ 63.
Proof.
  unfold in_i64, MinInt64, MaxInt64, EncodeInt64ToCmpUint, signMask64. intros Hv.
  change 63 with (64 - 1). rewrite lxor_sign by (try apply u64_range; lia).
  unfold wrap_u. rewrite Z.add_mod_idemp_l by lia. apply Z.mod_small. lia.
Qed.

Lemma EncodeInt16ToCmpUint_eq v :
  - 2 ^ 15 <= v < 2 ^ 15 -> EncodeInt16ToCmpUint v = v + 2 ^ 15.
Proof.
  unfold EncodeInt16ToCmpUint, signMask16. intros Hv.
  change 15 with (16 - 1). rewrite lxor_sign by (try apply wrap_u_range; lia).
  unfold wrap_u. rewrite Z.add_mod_idemp_l by lia. apply Z.mod_small. lia.
Qed.

(** The comparable encoding of an [int64], written big-endian as the list keys do,
    orders byte slices as the integers, and decodes to the integer. *)
Lemma EncodeInt64ToCmpUint_order u v :
  in_i64 u -> in_i64 v ->
  bytes_compare (be_put 8 (EncodeInt64ToCmpUint u)) (be_put 8 (EncodeInt64ToCmpUint v)) = (u ?= v)
  /\ DecodeCmpUintToInt64 (EncodeInt64ToCmpUint u) = u.
Proof.
  intros Hu Hv. rewrite !EncodeInt64ToCmpUint_eq by done. split.
  - unfold in_i64, MinInt64, MaxInt64 in *. rewrite bytes_compare_be_put by lia.
    by rewrite !(Z.add_comm _ (2 ^ 63)), Z.add_compare_mono_l.
  - unfold DecodeCmpUintToInt64, signMask64. change 63 with (64 - 1).
    unfold in_i64, MinInt64, MaxInt64 in *. rewrite lxor_sign by lia.
    change (2 ^ (64 - 1)) with (2 ^ 63).
    replace ((u + 2 ^ 63 + 2 ^ 63) mod 2 ^ 64) with (u64 u)
      by (unfold wrap_u; rewrite <- (Z_mod_plus_full u 1 (2 ^ 64)); f_equal; lia).
    apply i64_u64. done.
Qed.

Lemma EncodeInt64ToCmpUint_order_witness :
  bytes_compare (be_put 8 (EncodeInt64ToCmpUint (-1))) (be_put 8 (EncodeInt64ToCmpUint 1)) = Lt
  /\ DecodeCmpUintToInt64 (EncodeInt64ToCmpUint (-1)) = -1.
Proof. apply (EncodeInt64ToCmpUint_order (-1) 1); split; vm_compute; congruence. Defined.

End Int.

(** ** hash.go *)

Module Hash.

Definition Sum64 (s : bytes) : Z := fnv_New64a_Sum64 s.

Definition IsPowerOfTwo16 (number : Z) : bool :=
  negb (number =? 0) && (Z.land number (u64 (number - 1)) =? 0) && (number <=? Z.shiftl 1 16).

Definition GetShard (s : bytes) (shardMark : Z) : Z := wrap_u 16 (Z.land (Sum64 s) shardMark).

Lemma GetShard_range s m : 0 <= GetShard s m < 2 ^ 16.
Proof. by apply wrap_u_range. Qed.

(** [n & (n-1)] is zero exactly for the powers of two. *)
Lemma land_pred_pow2 n : 0 < n -> Z.land n (n - 1) = 0 <-> n = 2 ^ Z.log2 n.
Proof.
  intros Hn. pose proof (Z.log2_spec n Hn) as [Hlo Hhi]. pose proof (Z.log2_nonneg n) as Hk.
  split.
  - intros H. destruct (Z.eq_dec n (2 ^ Z.log2 n)) as [|Hne]; [done|exfalso].
    apply (f_equal (fun z => Z.testbit z (Z.log2 n))) in H.
    rewrite Z.land_spec, Z.bits_0, Z.bit_log2 in H by done.
    replace (Z.log2 n) with (Z.log2 (n - 1)) in H
      by (apply Z.log2_unique; [done|rewrite <- Z.add_1_r, Z.pow_add_r in *; lia]).
    rewrite Z.bit_log2 in H; [done|]. lia.
  - intros ->. set (k := Z.log2 n) in *. rewrite Z.sub_1_r, <- Z.ones_equiv, Z.land_ones by done.
    by apply Z_mod_same_full.
Qed.

(** [IsPowerOfTwo16] accepts exactly the powers of two up to [2^16]. *)
Lemma IsPowerOfTwo16_correct n :
  in_u64 n -> IsPowerOfTwo16 n = true <-> exists e, 0 <= e <= 16 /\ n = 2 ^ e.
Proof.
  intros Hn. unfold IsPowerOfTwo16. change (Z.shiftl 1 16) with (2 ^ 16).
  destruct (Z.eqb_spec n 0) as [->|Hz]; cbn [negb andb].
  { split; [done|]. intros (e&He&E). pose proof (Z.pow_pos_nonneg 2 e). lia. }
  rewrite u64_small by (unfold in_u64 in *; lia).
  rewrite andb_true_iff, Z.eqb_eq, Z.leb_le, land_pred_pow2 by (unfold in_u64 in Hn; lia).
  split.
  - intros [E Hle]. exists (Z.log2 n). split; [|done]. split; [apply Z.log2_nonneg|].
    change 16 with (Z.log2 (2 ^ 16)). by apply Z.log2_le_mono.
  - intros (e&He&->). rewrite Z.log2_pow2 by lia. split; [done|].
    apply Z.pow_le_mono_r; lia.
Qed.

End Hash.
