(* ===== verification/Float.v ===== *)
(** Floating point: [float64] as its IEEE 754 bit pattern, with Go's operations on it,
    and the encodings of utils/float.go and utils/number.go. The arithmetic on the
    decoded numbers is that of [SpecFloat], rounding to nearest even. *)

From S2P Require Import Prelude Xerror GoStd Utils.
From Stdlib Require Import Init.Byte Floats.SpecFloat.

#[local] Open Scope Z_scope.

(** ** IEEE 754 double precision *)

(** A [float64] is what [math.Float64bits] returns for it. *)
Abbreviation float64 := Z.

Definition is_neg (b : float64) : bool := 2 ^ 63 <=? b.
Definition exponent (b : float64) : Z := (b / 2 ^ 52) mod 2 ^ 11.
Definition mantissa (b : float64) : Z := b mod 2 ^ 52.

(** The number a bit pattern denotes. *)
Definition decode (b : float64) : spec_float :=
  let s := is_neg b in
  let e := exponent b in
  let m := mantissa b in
  if e =? 2047 then (if m =? 0 then S754_infinity s else S754_nan)
  else if e =? 0 then
    match m with
    | Zpos p => S754_finite s p (-1074)
    | _ => S754_zero s
    end
  else match m + 2 ^ 52 with
       | Zpos p => S754_finite s p (e - 1075)
       | _ => S754_nan
       end.

Definition sign_bit (s : bool) : Z := if s then 2 ^ 63 else 0.

(** The bit pattern of a number; [math.NaN] is the only NaN produced. *)
Definition encode (f : spec_float) : float64 :=
  match f with
  | S754_zero s => sign_bit s
  | S754_infinity s => sign_bit s + 2047 * 2 ^ 52
  | S754_nan => 9221120237041090561
  | S754_finite s m e =>
      if Zpos m <? 2 ^ 52 then sign_bit s + Zpos m
      else sign_bit s + (e + 1075) * 2 ^ 52 + (Zpos m - 2 ^ 52)
  end.

Definition lift2 (op : spec_float -> spec_float -> spec_float) (a b : float64) : float64 :=
  encode (op (decode a) (decode b)).

(** Go's operators. *)
Definition fadd : float64 -> float64 -> float64 := lift2 (SFadd 53 1024).
Definition fsub : float64 -> float64 -> float64 := lift2 (SFsub 53 1024).
Definition fmul : float64 -> float64 -> float64 := lift2 (SFmul 53 1024).
Definition fdiv : float64 -> float64 -> float64 := lift2 (SFdiv 53 1024).
Definition fneg (a : float64) : float64 := Z.lxor a (2 ^ 63).
Definition fcompare (a b : float64) : option comparison := SFcompare (decode a) (decode b).
Definition feq (a b : float64) : bool :=
  match fcompare a b with Some Eq => true | _ => false end.
Definition flt (a b : float64) : bool :=
  match fcompare a b with Some Lt => true | _ => false end.
Definition fle (a b : float64) : bool :=
  match fcompare a b with Some (Lt | Eq) => true | _ => false end.
Definition isNaN (a : float64) : bool :=
  match decode a with S754_nan => true | _ => false end.

(** [float64(n)] for an [int64] or [uint64]. *)
Definition of_int (n : Z) : float64 := encode (binary_normalize 53 1024 n 0 false).

Definition MaxFloat64 : float64 := 2047 * 2 ^ 52 - 1.
Definition fone : float64 := 1023 * 2 ^ 52.
Definition ftwo : float64 := 1024 * 2 ^ 52.

(** ** utils/float.go *)

(** Both encoders write these bytes. *)
Definition EncodeFloatUint (f : float64) : Z :=
  if negb (Z.shiftr f 63 =? 0) then Z.lxor f (2 ^ 64 - 1) else Z.lor f (2 ^ 63).
Definition EncodeFloat (f : float64) : bytes := be_put 8 (EncodeFloatUint f).
Definition EncodeFloatBytes (f : float64) : bytes := be_put 8 (EncodeFloatUint f).

Definition DecodeFloatUint (vi : Z) : float64 :=
  if negb (Z.shiftr vi 63 =? 0) then Z.lxor vi (2 ^ 63) else Z.lxor vi (2 ^ 64 - 1).

(** A key shorter than eight bytes panics ([None]). *)
Definition DecodeFloat (k : bytes) : option float64 :=
  if len k <? 8 then None else Some (DecodeFloatUint (be_get (take 8 k))).

Definition MiddleFloat (left right : float64) : error + float64 :=
  let m := fdiv (fadd left right) ftwo in
  if feq m left || feq m right then inl ErrPrecision
  else
    let b := EncodeFloat m in
    if bool_decide (b = EncodeFloat left) then inl ErrPrecision
    else if bool_decide (b = EncodeFloat right) then inl ErrPrecision
    else inr m.

Definition fzero : float64 := 0.

Definition ValidIncrementFloat (v i : float64) : bool :=
  if fle fzero v && flt (fsub MaxFloat64 v) i then false
  else if flt v fzero && flt i (fsub (fneg MaxFloat64) v) then false
  else true.

Definition ValidMultiFloat (v i : float64) : bool :=
  let v := if flt v fzero then fneg v else v in
  let i := if flt i fzero then fneg i else i in
  if fle fone v && flt (fdiv MaxFloat64 v) i then false else true.

(** ** utils/number.go *)

Record Number := mkNumber { IsInt : bool; Uint64 : Z; Float64 : float64 }.

Definition Number_Decode (n : Number) (v : bytes) : option Number :=
  if IsInt n then
    if len v <? 8 then None else Some (mkNumber true (be_get (take 8 v)) (Float64 n))
  else
    f ← DecodeFloat v; Some (mkNumber false (Uint64 n) f).

Definition Number_Encode (n : Number) : bytes :=
  if IsInt n then be_put 8 (Uint64 n) else EncodeFloatBytes (Float64 n).

Definition Number_Add (n m : Number) : Number :=
  if IsInt n then mkNumber true (u64 (Uint64 n + Uint64 m)) (Float64 n)
  else mkNumber false (Uint64 n) (fadd (Float64 n) (Float64 m)).

(** The kind of [m] decides how the two are compared. *)
Definition Number_Compare (n m : Number) : Z :=
  if IsInt m then
    if Uint64 n <? Uint64 m then -1 else if Uint64 n >? Uint64 m then 1 else 0
  else if flt (Float64 n) (Float64 m) then -1
  else if flt (Float64 m) (Float64 n) then 1 else 0.

Definition Number_IsNan (n : Number) : bool := if negb (IsInt n) then isNaN (Float64 n) else false.

(** ** Properties *)

Lemma land_pow2_small a n : 0 <= n -> 0 <= a < 2 ^ n -> Z.land a (2 ^ n) = 0.
Proof.
  intros Hn Ha. apply Z.bits_inj_0. intros i. rewrite Z.land_spec, Z.pow2_bits_eqb by lia.
  destruct (Z.eqb_spec n i) as [<-|]; [|by rewrite andb_false_r].
  by rewrite Z.testbit_eqb, Z.div_small by lia.
Qed.

Lemma lor_pow2 a n : 0 <= n -> 0 <= a < 2 ^ n -> Z.lor a (2 ^ n) = a + 2 ^ n.
Proof. intros Hn Ha. pose proof (Z.add_lor_land a (2 ^ n)). rewrite land_pow2_small in *; lia. Qed.

Lemma lxor_ones a n : 0 <= n -> 0 <= a < 2 ^ n -> Z.lxor a (2 ^ n - 1) = 2 ^ n - 1 - a.
Proof.
  intros Hn Ha. rewrite Z.sub_1_r, <- Z.ones_equiv.
  assert (a = 0 \/ Z.log2 a < n) as Hl.
  { destruct (decide (a = 0)); [by left|right]. apply Z.log2_lt_pow2; lia. }
  destruct Hl as [->|Hl]; [by rewrite Z.lxor_0_l, Z.sub_0_r|].
  rewrite <- Z.ldiff_ones_l_low by lia. symmetry. apply Z.sub_nocarry_ldiff.
  apply Z.ldiff_ones_r_low; lia.
Qed.

Lemma shiftr63 f : in_u64 f -> negb (Z.shiftr f 63 =? 0) = is_neg f.
Proof.
  unfold in_u64, is_neg. intros Hf. rewrite Z.shiftr_div_pow2 by lia.
  destruct (Z.leb_spec (2 ^ 63) f).
  - pose proof (Z.div_le_lower_bound f (2 ^ 63) 1). destruct (Z.eqb_spec (f / 2 ^ 63) 0); [lia|done].
  - by rewrite Z.div_small by lia.
Qed.

(** The encoding reverses the order of the negative patterns and puts them first. *)
Lemma EncodeFloatUint_eq f : in_u64 f ->
  EncodeFloatUint f = if is_neg f then 2 ^ 64 - 1 - f else f + 2 ^ 63.
Proof.
  intros Hf. unfold EncodeFloatUint. rewrite shiftr63 by done. unfold is_neg, in_u64 in *.
  destruct (Z.leb_spec (2 ^ 63) f); [apply lxor_ones; lia|apply lor_pow2; lia].
Qed.

Lemma EncodeFloatUint_range f : in_u64 f -> in_u64 (EncodeFloatUint f).
Proof.
  intros Hf. rewrite EncodeFloatUint_eq by done. unfold is_neg, in_u64 in *.
  destruct (Z.leb_spec (2 ^ 63) f); lia.
Qed.

Lemma DecodeFloatUint_eq u : in_u64 u ->
  DecodeFloatUint u = if is_neg u then u - 2 ^ 63 else 2 ^ 64 - 1 - u.
Proof.
  intros Hf. unfold DecodeFloatUint. rewrite shiftr63 by done. unfold is_neg, in_u64 in *.
  destruct (Z.leb_spec (2 ^ 63) u); [|apply lxor_ones; lia].
  change 63 with (64 - 1). rewrite Int.lxor_sign by lia.
  replace (u + 2 ^ (64 - 1)) with (u - 2 ^ (64 - 1) + 1 * 2 ^ 64) by lia.
  rewrite Z_mod_plus_full, Z.mod_small; lia.
Qed.

Lemma length_EncodeFloat f : length (EncodeFloat f) = 8%nat.
Proof. apply length_be_put. Qed.

(** Every bit pattern, NaN or not, survives the encoding. *)
Theorem DecodeFloat_EncodeFloat f k : in_u64 f -> DecodeFloat (EncodeFloat f ++ k) = Some f.
Proof.
  intros Hf. unfold DecodeFloat. rewrite len_app. unfold len at 1. rewrite length_EncodeFloat.
  pose proof (len_nonneg k). destruct (Z.ltb_spec (Z.of_nat 8 + len k) 8); [lia|].
  rewrite (take_app_length' (EncodeFloat f) k 8) by by rewrite length_EncodeFloat.
  unfold EncodeFloat. rewrite be_get_put, Z.mod_small by by apply EncodeFloatUint_range.
  f_equal. rewrite DecodeFloatUint_eq by by apply EncodeFloatUint_range.
  rewrite EncodeFloatUint_eq by done. unfold is_neg, in_u64 in *.
  destruct (Z.leb_spec (2 ^ 63) f).
  - destruct (Z.leb_spec (2 ^ 63) (2 ^ 64 - 1 - f)); lia.
  - destruct (Z.leb_spec (2 ^ 63) (f + 2 ^ 63)); lia.
Qed.

(** *** The order of scores *)

(** The magnitude of a pattern. *)
Definition magnitude (b : float64) : Z := if is_neg b then b - 2 ^ 63 else b.

Lemma magnitude_parts b : in_u64 b ->
  magnitude b = exponent b * 2 ^ 52 + mantissa b /\ 0 <= exponent b < 2 ^ 11 /\ 0 <= mantissa b < 2 ^ 52.
Proof.
  unfold in_u64, magnitude, exponent, mantissa, is_neg. intros Hb.
  pose proof (Z.mod_pos_bound b (2 ^ 52) ltac:(lia)).
  pose proof (Z.mod_pos_bound (b / 2 ^ 52) (2 ^ 11) ltac:(lia)). repeat split; try lia.
  pose proof (Z.div_mod b (2 ^ 52) ltac:(lia)) as E1.
  pose proof (Z.div_mod (b / 2 ^ 52) (2 ^ 11) ltac:(lia)) as E2.
  set (q := b / 2 ^ 52) in *. set (r := b mod 2 ^ 52) in *.
  set (q2 := q / 2 ^ 11) in *. set (r2 := q mod 2 ^ 11) in *. clearbody q r q2 r2.
  destruct (Z.leb_spec (2 ^ 63) b); lia.
Qed.

(** What a pattern that is not a NaN denotes, by its magnitude. *)
Inductive denotes (s : bool) (mag : Z) : spec_float -> Prop :=
  | den_zero : mag = 0 -> denotes s mag (S754_zero s)
  | den_inf : mag = 2047 * 2 ^ 52 -> denotes s mag (S754_infinity s)
  | den_sub p : Zpos p < 2 ^ 52 -> mag = Zpos p -> denotes s mag (S754_finite s p (-1074))
  | den_norm p e : 2 ^ 52 <= Zpos p < 2 ^ 53 -> -1074 <= e < 972 ->
      mag = (e + 1075) * 2 ^ 52 + (Zpos p - 2 ^ 52) -> denotes s mag (S754_finite s p e).

Lemma decode_denotes b : in_u64 b -> isNaN b = false -> denotes (is_neg b) (magnitude b) (decode b).
Proof.
  intros Hb. destruct (magnitude_parts b Hb) as (E&He&Hm). rewrite E. clear E.
  unfold isNaN, decode. destruct (Z.eqb_spec (exponent b) 2047) as [->|He1].
  { destruct (Z.eqb_spec (mantissa b) 0) as [->|]; [|done]. intros _. by apply den_inf. }
  destruct (Z.eqb_spec (exponent b) 0) as [->|He2].
  - destruct (mantissa b) as [|p|p]; intros _; [by apply den_zero|apply den_sub; lia|lia].
  - destruct (mantissa b + 2 ^ 52) as [|p|p] eqn:Ep; intros _; [lia| |lia]. apply den_norm; lia.
Qed.

Lemma compare_case x y c :
  (c = Lt /\ x < y) \/ (c = Gt /\ y < x) \/ (c = Eq /\ x = y) -> (x ?= y) = c.
Proof.
  intros [[-> ?]|[[-> ?]|[-> ->]]];
    [by apply Z.compare_lt_iff|by apply Z.compare_gt_iff|apply Z.compare_refl].
Qed.

#[local] Ltac compare_lia :=
  apply compare_case;
  first [left; split; [done|lia] | right; left; split; [done|lia] | right; right; split; [done|lia]].

(** Two finite numbers compare as their magnitudes. *)
Lemma finite_compare p p' e e' mag mag' s s' :
  denotes s mag (S754_finite s p e) -> denotes s' mag' (S754_finite s' p' e') ->
  match e ?= e' with Eq => Zpos p ?= Zpos p' | c => c end = (mag ?= mag').
Proof.
  assert (forall s p e mag, denotes s mag (S754_finite s p e) ->
    (e = -1074 /\ Zpos p < 2 ^ 52 /\ mag = Zpos p) \/
    (-1074 <= e /\ 2 ^ 52 <= Zpos p < 2 ^ 53 /\ mag = (e + 1075) * 2 ^ 52 + (Zpos p - 2 ^ 52))) as Hd.
  { intros s0 p0 e0 m0 H0. inversion H0; subst; [left|right]; lia. }
  intros H1%Hd H2%Hd. symmetry.
  destruct (Z.compare_spec e e'), (Z.compare_spec (Zpos p) (Zpos p')); cbv iota; compare_lia.
Qed.

Lemma denotes_inv s mag f : denotes s mag f ->
  match f with
  | S754_zero s0 => s0 = s /\ mag = 0
  | S754_infinity s0 => s0 = s /\ mag = 2047 * 2 ^ 52
  | S754_nan => False
  | S754_finite s0 p e => s0 = s /\ 0 < mag < 2047 * 2 ^ 52
  end.
Proof. inversion 1; subst; split; first [done | lia]. Qed.

(** Two numbers compare as their signed magnitudes; the two zeroes are equal. *)
Lemma fcompare_magnitude a b : in_u64 a -> in_u64 b -> isNaN a = false -> isNaN b = false ->
  fcompare a b =
  Some (match is_neg a, is_neg b with
        | false, false => magnitude a ?= magnitude b
        | true, true => magnitude b ?= magnitude a
        | true, false => if (magnitude a =? 0) && (magnitude b =? 0) then Eq else Lt
        | false, true => if (magnitude a =? 0) && (magnitude b =? 0) then Eq else Gt
        end).
Proof.
  intros Ha Hb Na Nb. pose proof (decode_denotes a Ha Na) as Da. pose proof (decode_denotes b Hb Nb) as Db.
  unfold fcompare. set (x := decode a) in *. set (y := decode b) in *. clearbody x y.
  set (s := is_neg a) in *. set (s' := is_neg b) in *. clearbody s s'.
  set (m := magnitude a) in *. set (m' := magnitude b) in *. clearbody m m'.
  pose proof (denotes_inv _ _ _ Da) as Ia. pose proof (denotes_inv _ _ _ Db) as Ib.
  destruct x as [s1|s1| |s1 p e], y as [s2|s2| |s2 p' e']; try done;
    destruct Ia as [-> Ia], Ib as [-> Ib]; unfold SFcompare; f_equal;
    destruct (Z.eqb_spec m 0), (Z.eqb_spec m' 0); try lia; destruct s, s'; cbn [andb];
    try done; try (symmetry; compare_lia).
  - rewrite (Z.compare_antisym m m'), <- (finite_compare _ _ _ _ _ _ _ _ Da Db).
    change (Pos.compare_cont Eq p p') with (Zpos p ?= Zpos p'). by destruct (e ?= e').
  - by rewrite <- (finite_compare _ _ _ _ _ _ _ _ Da Db).
Qed.

(** Scores are stored in an order-preserving way: two floating-point numbers that
    differ are ordered like their encodings, whatever follows them in the key; equal
    ones have the same encoding, except that -0 is stored before 0. *)
Theorem EncodeFloat_order a b k k' :
  in_u64 a -> in_u64 b -> isNaN a = false -> isNaN b = false ->
  match fcompare a b with
  | Some Eq => EncodeFloat a = EncodeFloat b \/ (magnitude a = 0 /\ magnitude b = 0)
  | Some c => bytes_compare (EncodeFloat a ++ k) (EncodeFloat b ++ k') = c
  | None => False
  end.
Proof.
  intros Ha Hb Na Nb. rewrite fcompare_magnitude by done.
  assert (forall c, (EncodeFloatUint a ?= EncodeFloatUint b) = c -> c <> Eq ->
    bytes_compare (EncodeFloat a ++ k) (EncodeFloat b ++ k') = c) as Hc.
  { intros c E Hc. apply bytes_compare_fst; [by rewrite !length_EncodeFloat| |done].
    unfold EncodeFloat. rewrite bytes_compare_be_put; [done|by apply EncodeFloatUint_range..]. }
  rewrite !EncodeFloatUint_eq in Hc by done. unfold magnitude, is_neg, in_u64 in *.
  destruct (Z.leb_spec (2 ^ 63) a), (Z.leb_spec (2 ^ 63) b).
  - destruct (Z.compare_spec (b - 2 ^ 63) (a - 2 ^ 63)); [left; f_equal; lia|apply Hc; [compare_lia|done]..].
  - destruct (_ && _) eqn:E; [right; lia|apply Hc; [compare_lia|done]].
  - destruct (_ && _) eqn:E; [right; lia|apply Hc; [compare_lia|done]].
  - destruct (Z.compare_spec a b); [left; by f_equal|apply Hc; [compare_lia|done]..].
Qed.

(** *** Sums are 64-bit patterns *)

(** A number that is an IEEE double. *)
Definition is_double (f : spec_float) : Prop :=
  match f with S754_finite _ m e => Zpos m < 2 ^ 53 /\ -1074 <= e <= 971 | _ => True end.

Lemma decode_double b : is_double (decode b).
Proof.
  unfold decode, is_double, mantissa, exponent. pose proof (Z.mod_pos_bound b (2 ^ 52) ltac:(lia)).
  pose proof (Z.mod_pos_bound (b / 2 ^ 52) (2 ^ 11) ltac:(lia)).
  set (e := (b / 2 ^ 52) mod 2 ^ 11) in *. set (m := b mod 2 ^ 52) in *. clearbody e m.
  destruct (Z.eqb_spec e 2047); [by destruct (m =? 0)|]. destruct (Z.eqb_spec e 0); [by destruct m; lia|].
  destruct (m + 2 ^ 52) eqn:Em; lia.
Qed.

Lemma encode_range f : is_double f -> in_u64 (encode f).
Proof.
  unfold is_double, encode, in_u64, sign_bit. destruct f as [[]|[]| |s m e]; try lia.
  intros [Hm He]. destruct (Z.ltb_spec (Zpos m) (2 ^ 52)), s; lia.
Qed.

Lemma shr_1_m r : 0 <= shr_m r -> shr_m (shr_1 r) = shr_m r / 2.
Proof.
  destruct r as [m a b]. cbn [shr_m shr_1]. destruct m as [|p|p]; [done| |lia]. intros _.
  rewrite <- Zdiv2_div. by destruct p.
Qed.

Lemma iter_shr p r : 0 <= shr_m r -> shr_m (iter_pos shr_1 p r) = shr_m r / 2 ^ Zpos p.
Proof.
  assert (forall n r, 0 <= shr_m r -> 0 <= shr_m (Nat.iter n shr_1 r) /\
    shr_m (Nat.iter n shr_1 r) = shr_m r / 2 ^ Z.of_nat n) as Hn.
  { clear. induction n as [|n IH]; intros r Hr; [by rewrite Z.div_1_r|].
    destruct (IH r Hr) as [H1 H2]. change (Nat.iter (S n) shr_1 r) with (shr_1 (Nat.iter n shr_1 r)). rewrite shr_1_m, H2 by done.
    rewrite Zdiv_Zdiv by lia. replace (2 ^ Z.of_nat n * 2) with (2 ^ Z.of_nat (S n)) by (rewrite Nat2Z.inj_succ, Z.pow_succ_r; lia).
    split; [apply Z.div_pos; lia|done]. }
  intros Hr.
  assert (forall p r, iter_pos shr_1 p r = Pos.iter shr_1 r p) as Hi.
  { clear. induction p as [p IH|p IH|]; intros r; cbn [iter_pos]; [|rewrite !IH; by rewrite <- Pos.iter_add, Pos.add_diag|done].
    rewrite !IH, <- Pos.iter_add, Pos.add_diag, <- Pos.iter_succ_r. done. }
  rewrite Hi, Pos2Nat.inj_iter. transitivity (shr_m (Nat.iter (Pos.to_nat p) shr_1 r)); [done|].
  destruct (Hn (Pos.to_nat p) r Hr) as [_ ->]. by rewrite positive_nat_Z.
Qed.

Lemma digits_bound m : 0 <= m -> m < 2 ^ Zdigits2 m.
Proof.
  destruct m as [|p|p]; [done| |lia]. intros _. cbn [Zdigits2].
  assert (Zpos p < 2 ^ Zpos (digits2_pos p)) as H; [|done].
  induction p as [p IH|p IH|]; cbn [digits2_pos]; [| |done]; rewrite Pos2Z.inj_succ, Z.pow_succ_r; lia.
Qed.

(** Aligning to the exponent a double may have leaves at most 53 bits. *)
Lemma shr_fexp_double m e l r e' : 0 <= m -> shr_fexp 53 1024 m e l = (r, e') ->
  0 <= shr_m r < 2 ^ 53 /\ -1074 <= e'.
Proof.
  intros Hm. unfold shr_fexp, shr.
  assert (shr_m (shr_record_of_loc m l) = m) as Er by by destruct l as [|[]].
  pose proof (digits_bound m Hm) as Hd. change (fexp 53 1024 (Zdigits2 m + e)) with (Z.max (Zdigits2 m + e - 53) (-1074)).
  set (d := Zdigits2 m) in *. set (n := Z.max (d + e - 53) (-1074) - e).
  assert (0 <= n -> 0 <= m / 2 ^ n < 2 ^ 53) as Hn.
  { intros H0. split; [apply Z.div_pos; lia|]. apply Z.div_lt_upper_bound; [lia|].
    rewrite <- Z.pow_add_r by lia. eapply Z.lt_le_trans; [exact Hd|]. apply Z.pow_le_mono_r; lia. }
  destruct n as [|p|p] eqn:En; intros [= <- <-].
  - rewrite Er. specialize (Hn ltac:(lia)). rewrite Z.div_1_r in Hn. lia.
  - rewrite iter_shr by lia. rewrite Er. specialize (Hn ltac:(lia)). lia.
  - rewrite Er. split; [|lia]. split; [done|]. eapply Z.lt_le_trans; [exact Hd|]. apply Z.pow_le_mono_r; lia.
Qed.

Lemma round_nearest_even_nonneg m l : 0 <= m -> 0 <= round_nearest_even m l.
Proof. intros Hm. destruct l as [|[]]; cbn; try destruct (Z.even m); lia. Qed.

Lemma round_double s m e l : 0 <= m -> is_double (binary_round_aux 53 1024 s m e l).
Proof.
  intros Hm. unfold binary_round_aux. destruct (shr_fexp 53 1024 m e l) as [r1 e1] eqn:E1.
  destruct (shr_fexp_double _ _ _ _ _ Hm E1) as [H1 _].
  destruct (shr_fexp 53 1024 _ e1 loc_Exact) as [r2 e2] eqn:E2.
  apply shr_fexp_double in E2 as [H2 H3]; [|apply round_nearest_even_nonneg; lia].
  destruct (shr_m r2) as [|p|p]; [done| |done]. destruct (Z.leb_spec e2 (1024 - 53)); [|done].
  unfold is_double. lia.
Qed.

Lemma normalize_double m e s : is_double (binary_normalize 53 1024 m e s).
Proof.
  destruct m as [|p|p]; [done|..]; unfold binary_normalize, binary_round;
    destruct (shl_align p e _) as [q f]; by apply round_double.
Qed.

(** What Go adds is again a 64-bit pattern. *)
Lemma fadd_range a b : in_u64 (fadd a b).
Proof.
  apply encode_range. pose proof (decode_double a) as Ha. pose proof (decode_double b) as Hb.
  unfold SFadd. destruct (decode a) as [s1|s1| |s1 m1 e1], (decode b) as [s2|s2| |s2 m2 e2]; try done.
  all: first [apply normalize_double | by destruct s1, s2].
Qed.

(** The midpoint of adjacent numbers, and of a number with itself, is refused. *)
Example MiddleFloat_half : MiddleFloat fone ftwo = inr (1023 * 2 ^ 52 + 2 ^ 51).
Proof. vm_compute. reflexivity. Qed.
Example MiddleFloat_same : MiddleFloat fone fone = inl ErrPrecision.
Proof. vm_compute. reflexivity. Qed.
