(* ===== verification/Strconv.v ===== *)
(** [strconv.ParseFloat(s, 64)] and [strconv.FormatFloat(f, 'f', -1, 64)]: decimal and
    hexadecimal literals rounded to nearest even, and the shortest decimal that rounds
    back, both computed with exact integers. *)

From S2P Require Import Prelude GoStd Float.
From Stdlib Require Import Init.Byte Floats.SpecFloat.

#[local] Open Scope Z_scope.

(** ** ParseFloat *)

(** The number [m * num / den], [den] positive, rounded to nearest even. The quotient keeps
    at least 66 bits, and its last bit is set when it is not exact, so that rounding it
    rounds the number. *)
Definition round_ratio (neg : bool) (num den : Z) : spec_float :=
  let shift := Z.max 0 (67 + Z.log2 den - Z.log2 num) in
  let n := Z.shiftl num shift in
  let q := n / den in
  let sticky := if n mod den =? 0 then 0 else 1 in
  let r := binary_normalize 53 1024 (2 * q + sticky) (- shift - 1) neg in
  if neg then SFopp r else r.

Definition float_inf (neg : bool) : float64 := encode (S754_infinity neg).
Definition float_nan : float64 := encode S754_nan.

(** [mant * 10 ^ exp]; numbers beyond 10 ^ 310 overflow and those below 10 ^ -330 are 0,
    as decimals of [digits] digits. *)
Definition float_of_decimal (neg : bool) (mant digits exp : Z) : float64 :=
  if mant =? 0 then sign_bit neg
  else if digits + exp >? 310 then float_inf neg
  else if digits + exp <? -330 then sign_bit neg
  else if exp >=? 0 then encode (round_ratio neg (mant * 10 ^ exp) 1)
  else encode (round_ratio neg mant (10 ^ (- exp))).

(** [mant * 2 ^ exp]. *)
Definition float_of_hex (neg : bool) (mant digits exp : Z) : float64 :=
  if mant =? 0 then sign_bit neg
  else if digits + exp >? 1100 then float_inf neg
  else if digits + exp <? -1200 then sign_bit neg
  else if exp >=? 0 then encode (round_ratio neg (mant * 2 ^ exp) 1)
  else encode (round_ratio neg mant (2 ^ (- exp))).

(** A letter of either case as its lower case. *)
Definition lower_z (b : Init.Byte.byte) : Z := Z.lor (b2z b) 32.
Definition is_hex_letter (b : Init.Byte.byte) : bool := (97 <=? lower_z b) && (lower_z b <=? 102).

(** Infinities and NaN: the whole text. *)
Definition special (s : bytes) : option float64 :=
  let '(neg, sign, r) := match s with
    | x2d :: r => (true, true, r) | x2b :: r => (false, true, r) | r => (false, false, r) end in
  let l := lower <$> r in
  if bool_decide (l = bs "inf") || bool_decide (l = bs "infinity") then Some (float_inf neg)
  else if negb sign && bool_decide (l = bs "nan") then Some float_nan
  else None.

(** The mantissa: its value, the number of its digits after leading zeros, the position
    of its point ([nd] when there is none), whether there was a digit, and the rest. *)
Record mant := { mt_value : Z; mt_nd : Z; mt_dp : option Z; mt_digits : bool; mt_zeros : Z }.
Definition mant0 : mant := {| mt_value := 0; mt_nd := 0; mt_dp := None; mt_digits := false; mt_zeros := 0 |}.

(** A digit: leading zeros only move the point. *)
Definition add_digit (base v : Z) (m : mant) : mant :=
  if (v =? 0) && (mt_nd m =? 0) then
    {| mt_value := 0; mt_nd := 0; mt_dp := mt_dp m; mt_digits := true; mt_zeros := mt_zeros m + 1 |}
  else
    {| mt_value := mt_value m * base + v; mt_nd := mt_nd m + 1; mt_dp := mt_dp m; mt_digits := true;
       mt_zeros := mt_zeros m |}.

Fixpoint read_mant (hex : bool) (s : bytes) (m : mant) : mant * bytes :=
  match s with
  | [] => (m, [])
  | c :: r =>
      if bool_decide (c = x5f) then read_mant hex r m
      else if bool_decide (c = x2e) then
        match mt_dp m with
        | Some _ => (m, s)
        | None =>
            read_mant hex r
              {| mt_value := mt_value m; mt_nd := mt_nd m; mt_dp := Some (mt_nd m + mt_zeros m);
                 mt_digits := mt_digits m; mt_zeros := mt_zeros m |}
        end
      else if is_digit c then read_mant hex r (add_digit (if hex then 16 else 10) (b2z c - 48) m)
      else if hex && is_hex_letter c then read_mant hex r (add_digit 16 (lower_z c - 87) m)
      else (m, s)
  end.

(** The digits of an exponent, capped as the code caps them; underscores are skipped. *)
Fixpoint read_exp (s : bytes) (e : Z) : Z * bytes :=
  match s with
  | c :: r =>
      if bool_decide (c = x5f) then read_exp r e
      else if is_digit c then read_exp r (if e <? 10000 then e * 10 + (b2z c - 48) else e)
      else (e, s)
  | [] => (e, s)
  end.

(** Underscores separate digits; a base prefix counts as a digit. *)
Inductive saw := SawStart | SawDigit | SawUnderscore | SawOther.
Fixpoint underscore_scan (hex : bool) (s : bytes) (w : saw) : bool :=
  match s with
  | [] => match w with SawUnderscore => false | _ => true end
  | c :: r =>
      if is_digit c || (hex && is_hex_letter c) then underscore_scan hex r SawDigit
      else if bool_decide (c = x5f) then
        match w with SawDigit => underscore_scan hex r SawUnderscore | _ => false end
      else match w with SawUnderscore => false | _ => underscore_scan hex r SawOther end
  end.
Definition underscoreOK (s : bytes) : bool :=
  let s := match s with x2d :: r | x2b :: r => r | _ => s end in
  match s with
  | x30 :: c :: r =>
      if (lower_z c =? 98) || (lower_z c =? 111) || (lower_z c =? 120)
      then underscore_scan (lower_z c =? 120) r SawDigit
      else underscore_scan false s SawStart
  | _ => underscore_scan false s SawStart
  end.

(** The exponent after the mantissa: its value, or none where the text is malformed. The
    whole text has to be consumed. *)
Definition read_exponent (hex : bool) (s : bytes) : option Z :=
  match s with
  | [] => if hex then None else Some 0
  | c :: r =>
      if lower_z c =? (if hex then 112 else 101) then
        let '(sign, r) := match r with x2b :: r => (1, r) | x2d :: r => (-1, r) | _ => (1, r) end in
        match r with
        | d :: _ =>
            if is_digit d then
              match read_exp r 0 with (e, []) => Some (sign * e) | _ => None end
            else None
        | [] => None
        end
      else None
  end.

(** A number in decimal or hexadecimal; none is a syntax error. *)
Definition readFloat (s : bytes) : option float64 :=
  let '(neg, r) := match s with x2d :: r => (true, r) | x2b :: r => (false, r) | _ => (false, s) end in
  let '(hex, body) := match r with
    | x30 :: c :: d :: r' => if lower_z c =? 120 then (true, d :: r') else (false, r)
    | _ => (false, r) end in
  let '(m, rest) := read_mant hex body mant0 in
  if negb (mt_digits m) then None
  else
    match read_exponent hex rest with
    | None => None
    | Some e =>
        if bool_decide (x5f ∈ s) && negb (underscoreOK s) then None
        else
          let dp := default (mt_nd m + mt_zeros m) (mt_dp m) - mt_zeros m in
          if hex then Some (float_of_hex neg (mt_value m) (4 * mt_nd m) (4 * dp + e - 4 * mt_nd m))
          else Some (float_of_decimal neg (mt_value m) (mt_nd m) (dp + e - mt_nd m))
    end.

(** [None] is any error: syntax, or a number that overflows. *)
Definition ParseFloat (s : bytes) : option float64 :=
  match special s with
  | Some f => Some f
  | None =>
      match readFloat s with
      | Some f => if f mod 2 ^ 63 =? 2047 * 2 ^ 52 then None else Some f
      | None => None
      end
  end.

(** A parsed number is a 64-bit pattern. *)
Lemma round_ratio_double neg num den : is_double (round_ratio neg num den).
Proof.
  unfold round_ratio. set (r := binary_normalize _ _ _ _ _).
  assert (is_double r) as Hr by apply normalize_double. destruct neg; [|done]. by destruct r.
Qed.

Lemma sign_bit_range neg : in_u64 (sign_bit neg).
Proof. destruct neg; unfold in_u64; simpl; lia. Qed.
Lemma float_inf_range neg : in_u64 (float_inf neg).
Proof. by apply encode_range. Qed.

Lemma readFloat_range s f : readFloat s = Some f -> in_u64 f.
Proof.
  unfold readFloat. destruct (match s with x2d :: r => _ | _ => _ end) as [neg r].
  destruct (match r with x30 :: _ => _ | _ => _ end) as [hex body].
  destruct (read_mant hex body mant0) as [m rest].
  destruct (negb _); [done|]. destruct (read_exponent hex rest); [|done]. destruct (_ && _); [done|].
  destruct hex; intros [= <-]; unfold float_of_hex, float_of_decimal;
    repeat match goal with |- context [if ?b then _ else _] => destruct b end;
    first [apply sign_bit_range | apply float_inf_range | apply encode_range, round_ratio_double].
Qed.

Lemma ParseFloat_range s f : ParseFloat s = Some f -> in_u64 f.
Proof.
  unfold ParseFloat. destruct (special s) as [g|] eqn:Es.
  - intros [= <-]. unfold special in Es.
    destruct (match s with x2d :: r => _ | _ => _ end) as [[neg sign] r].
    destruct (_ || _); [injection Es as <-; apply float_inf_range|].
    destruct (_ && _); [|done]. injection Es as <-. by apply encode_range.
  - destruct (readFloat s) as [g|] eqn:Er; [|done]. destruct (_ =? _); [done|]. intros [= <-].
    by apply readFloat_range in Er.
Qed.

Example parse_tenth : ParseFloat (bs "0.1") = Some 4591870180066957722.
Proof. vm_compute. reflexivity. Qed.
Example parse_big : ParseFloat (bs "1e308") = Some 9214871658872686752 /\ ParseFloat (bs "1e309") = None.
Proof. vm_compute. auto. Qed.
Example parse_max : ParseFloat (bs "1.7976931348623157e308") = Some MaxFloat64.
Proof. vm_compute. reflexivity. Qed.
Example parse_small : ParseFloat (bs "-4.9E-324") = Some (2 ^ 63 + 1).
Proof. vm_compute. reflexivity. Qed.
Example parse_zeros : ParseFloat (bs "000.00250") = ParseFloat (bs "25e-4").
Proof. vm_compute. reflexivity. Qed.
Example parse_hex : ParseFloat (bs "0x1.8p1") = ParseFloat (bs "+3").
Proof. vm_compute. reflexivity. Qed.
Example parse_underscores : ParseFloat (bs "1_23.50_0_0e+1_2") = ParseFloat (bs "1.235e+14") /\ ParseFloat (bs "1__2") = None.
Proof. vm_compute. auto. Qed.
Example parse_words : ParseFloat (bs "-Infinity") = Some (float_inf true) /\ ParseFloat (bs "+nan") = None /\
  ParseFloat (bs "") = None /\ ParseFloat (bs ".") = None /\ ParseFloat (bs "1e") = None.
Proof. vm_compute. auto. Qed.

(** ** FormatFloat *)

(** [num / den < 10 ^ k], and the least such [k]. *)
Definition below_pow10 (num den k : Z) : bool :=
  if k >=? 0 then num <? den * 10 ^ k else num * 10 ^ (- k) <? den.
Definition decimal_point (num den : Z) : Z :=
  let k0 := (Z.log2 num - Z.log2 den) * 30103 / 100000 - 1 in
  if below_pow10 num den k0 then k0
  else if below_pow10 num den (k0 + 1) then k0 + 1
  else if below_pow10 num den (k0 + 2) then k0 + 2 else k0 + 3.

(** The fewest digits that round back: with [n] digits, the number is cut or rounded up
    where the result lies between [low] and [high] (over [den]; inclusive when the
    mantissa is even), to the nearer one when both do. The result is an integer and the power of ten it
    is multiplied with. *)
Fixpoint shortest (fuel : nat) (n : Z) (k x low high den : Z) (inclusive : bool) : Z * Z :=
  let p := n - k in
  let up := if p >=? 0 then 10 ^ p else 1 in
  let d := if p >=? 0 then den else den * 10 ^ (- p) in
  let q := (x * up) / d in
  match fuel with
  | O => (q, - p)
  | S fuel =>
      let okdown := (q * d >? low * up) || (inclusive && (q * d =? low * up)) in
      let okup := ((q + 1) * d <? high * up) || (inclusive && ((q + 1) * d =? high * up)) in
      let rest := 2 * (x * up - q * d) in
      let nearer_up := (rest >? d) || ((rest =? d) && Z.odd q) in
      if okdown && okup then (if nearer_up then q + 1 else q, - p)
      else if okdown then (q, - p)
      else if okup then (q + 1, - p)
      else shortest fuel (n + 1) k x low high den inclusive
  end.

(** The digits of [m * 2 ^ e]: 17 are always enough. *)
Definition shortest_digits (m e : Z) : Z * Z :=
  let up := 2 ^ Z.max e 0 in
  let x := 4 * m * up in
  let low := (if (m =? 2 ^ 52) && (e >? -1074) then 4 * m - 1 else 4 * m - 2) * up in
  let high := (4 * m + 2) * up in
  let den := 4 * 2 ^ Z.max (- e) 0 in
  shortest 17 1 (decimal_point x den) x low high den (Z.even m).

Definition zeros (n : Z) : bytes := replicate (Z.to_nat n) x30.

Fixpoint drop_zeros (l : bytes) : bytes :=
  match l with x30 :: l => drop_zeros l | l => l end.

(** [%f] with as many digits as are needed. *)
Definition fmtF (neg : bool) (q p : Z) : bytes :=
  let ds := FormatUint q in
  let dp := len ds + p in
  let int := if dp >? 0 then take (Z.to_nat dp) ds ++ zeros (dp - len ds) else bs "0" in
  let frac := zeros (- dp) ++ drop (Z.to_nat dp) ds in
  let trimmed := rev (drop_zeros (rev frac)) in
  (if neg then [x2d] else []) ++ int ++ match trimmed with [] => [] | _ => x2e :: trimmed end.

Definition FormatFloat (f : float64) : bytes :=
  match decode f with
  | S754_nan => bs "NaN"
  | S754_infinity s => if s then bs "-Inf" else bs "+Inf"
  | S754_zero s => fmtF s 0 0
  | S754_finite s m e => let '(q, p) := shortest_digits (Zpos m) e in fmtF s q p
  end.

(** What the wire shows of a number. *)
Definition shows (a b : string) : bool :=
  match ParseFloat (bs a) with Some f => bool_decide (FormatFloat f = bs b) | None => false end.

Example format_examples : forallb (fun '(a, b) => shows a b)
  [("0", "0"); ("-0", "-0"); ("0.1", "0.1"); ("3.0", "3"); ("1e21", "1000000000000000000000");
   ("123456789.125", "123456789.125"); ("1e-7", "0.0000001"); ("0.30000000000000004", "0.30000000000000004");
   ("9007199254740993", "9007199254740992"); ("-inf", "-Inf"); ("100", "100"); ("2e3", "2000");
   ("0.000123", "0.000123"); ("2251799813685248.5", "2251799813685248.5")]%string = true.
Proof. vm_compute. reflexivity. Qed.
