(* ===== verification/Glob.v ===== *)
(** Glob patterns (utils/glob/glob.go): the matcher as the code runs it, with Go's UTF-8
    decoding, and its equivalence with a backtracking reference. *)

From S2P Require Import Prelude Xerror GoStd.
From Stdlib Require Import Init.Byte.

#[local] Open Scope Z_scope.

(** ** UTF-8 *)

Definition RuneError : Z := 65533.

(** The second byte after the lead byte [b]: its range, and the number of bytes. *)
Definition utf8_lead (b : Z) : option (Z * Z * nat) :=
  if (194 <=? b) && (b <=? 223) then Some (128, 191, 2%nat)
  else if b =? 224 then Some (160, 191, 3%nat)
  else if b =? 237 then Some (128, 159, 3%nat)
  else if (225 <=? b) && (b <=? 239) then Some (128, 191, 3%nat)
  else if b =? 240 then Some (144, 191, 4%nat)
  else if (241 <=? b) && (b <=? 243) then Some (128, 191, 4%nat)
  else if b =? 244 then Some (128, 143, 4%nat)
  else None.

Definition continuation (b : Z) : bool := (128 <=? b) && (b <=? 191).

(** [utf8.DecodeRuneInString]: the rune and its width; an invalid byte has width 1. *)
Definition DecodeRune (s : bytes) : Z * nat :=
  match b2z <$> s with
  | [] => (RuneError, 0%nat)
  | b0 :: r =>
      if b0 <? 128 then (b0, 1%nat)
      else
        match utf8_lead b0, r with
        | Some (lo, hi, 2%nat), b1 :: _ =>
            if (lo <=? b1) && (b1 <=? hi) then ((b0 - 192) * 64 + (b1 - 128), 2%nat) else (RuneError, 1%nat)
        | Some (lo, hi, 3%nat), b1 :: b2 :: _ =>
            if (lo <=? b1) && (b1 <=? hi) && continuation b2
            then ((b0 - 224) * 4096 + (b1 - 128) * 64 + (b2 - 128), 3%nat) else (RuneError, 1%nat)
        | Some (lo, hi, 4%nat), b1 :: b2 :: b3 :: _ =>
            if (lo <=? b1) && (b1 <=? hi) && continuation b2 && continuation b3
            then ((b0 - 240) * 262144 + (b1 - 128) * 4096 + (b2 - 128) * 64 + (b3 - 128), 4%nat)
            else (RuneError, 1%nat)
        | _, _ => (RuneError, 1%nat)
        end
  end.

Example decode_euro : DecodeRune [xe2; x82; xac; x41] = (8364, 3%nat).
Proof. reflexivity. Qed.
Example decode_broken : DecodeRune [xe2; x82] = (RuneError, 1%nat) /\ DecodeRune [xed; xa0; x80] = (RuneError, 1%nat).
Proof. split; reflexivity. Qed.

(** ** The matcher *)

(** The characters with a meaning. *)
Definition eqc (c d : Init.Byte.byte) : bool := Byte.eqb c d.
Definition star := x2a.
Definition any := x3f.
Definition open := x5b.
Definition close := x5d.
Definition dash := x2d.
Definition caret := x5e.
Definition backslash := x5c.

(** [Prefix]: the text before the first special character; none when there is none. *)
Fixpoint Prefix_loop (pattern acc : bytes) : bytes :=
  match pattern with
  | [] => []
  | c :: r => if eqc c star || eqc c any || eqc c open || eqc c close then acc else Prefix_loop r (acc ++ [c])
  end.
Definition Prefix (pattern : bytes) : bytes := Prefix_loop pattern [].

(** The leading stars. *)
Fixpoint strip_stars (pattern : bytes) : bool * bytes :=
  match pattern with
  | c :: r => if eqc c star then (true, snd (strip_stars r)) else (false, pattern)
  | [] => (false, [])
  end.

(** Up to the next star outside brackets. *)
Fixpoint split_chunk (inrange : bool) (pattern : bytes) : bytes * bytes :=
  let add (l : bytes) (p : bytes * bytes) : bytes * bytes := (l ++ fst p, snd p) in
  match pattern with
  | [] => ([], [])
  | c :: r =>
      if eqc c backslash then
        match r with d :: r => add [c; d] (split_chunk inrange r) | [] => ([c], []) end
      else if eqc c open then add [c] (split_chunk true r)
      else if eqc c close then add [c] (split_chunk false r)
      else if eqc c star && negb inrange then ([], pattern)
      else add [c] (split_chunk inrange r)
  end.

Definition scanChunk (pattern : bytes) : bool * bytes * bytes :=
  let '(stars, pattern) := strip_stars pattern in
  let '(chunk, rest) := split_chunk false pattern in
  (stars, chunk, rest).

(** A character of a class and what follows it; [None] is [ErrBadPattern]. *)
Definition getRune (chunk : bytes) : option (Z * bytes) :=
  let '(r, n) := DecodeRune chunk in
  match drop n chunk with
  | [] => None
  | nchunk => if (r =? RuneError) && (n =? 1)%nat then None else Some (r, nchunk)
  end.
Definition getEsc (chunk : bytes) : option (Z * bytes) :=
  match chunk with
  | [] => None
  | c :: r =>
      if eqc c dash || eqc c close then None
      else if eqc c backslash then match r with [] => None | _ => getRune r end
      else getRune chunk
  end.

(** The upper end of a range. *)
Definition range_end (lo : Z) (chunk : bytes) : option (Z * bytes) :=
  match chunk with
  | c :: r => if eqc c dash then getEsc r else Some (lo, chunk)
  | [] => Some (lo, chunk)
  end.

Definition closes (chunk : bytes) (nrange : nat) : bool :=
  match chunk, nrange with c :: _, S _ => eqc c close | _, _ => false end.

(** The ranges of a class; [None] is out of fuel. *)
Fixpoint class_ranges (fuel : nat) (chunk : bytes) (r : Z) (matched : bool) (nrange : nat) :
    option (error + bool * bytes) :=
  match fuel with
  | O => None
  | S fuel =>
      if closes chunk nrange then Some (inr (matched, drop 1 chunk))
      else
        match getEsc chunk with
        | None => Some (inl ErrBadPattern)
        | Some (lo, chunk) =>
            match range_end lo chunk with
            | None => Some (inl ErrBadPattern)
            | Some (hi, chunk) =>
                class_ranges fuel chunk r (matched || ((lo <=? r) && (r <=? hi))) (S nrange)
            end
        end
  end.

(** Whether a class is negated. *)
Definition negation (chunk : bytes) : bool * bytes :=
  match chunk with
  | c :: r => if eqc c caret then (true, r) else (false, chunk)
  | [] => (false, chunk)
  end.

(** The text behind a match of the whole chunk, if it matches; after a mismatch the
    chunk is still checked for errors. *)
Fixpoint matchChunk (fuel : nat) (chunk s : bytes) (failed : bool) : option (error + option bytes) :=
  match fuel with
  | O => None
  | S fuel =>
      match chunk with
      | [] => Some (inr (if failed then None else Some s))
      | c :: chunk =>
          let failed := failed || bool_decide (s = []) in
          let literal (c : Init.Byte.byte) (chunk : bytes) :=
            if failed then matchChunk fuel chunk s failed
            else matchChunk fuel chunk (drop 1 s) (negb (bool_decide (head s = Some c))) in
          if eqc c open then
            let '(r, n) := if failed then (0, 0%nat) else DecodeRune s in
            let '(negated, chunk) := negation chunk in
            match class_ranges fuel chunk r false 0 with
            | None => None
            | Some (inl e) => Some (inl e)
            | Some (inr (matched, chunk)) =>
                matchChunk fuel chunk (drop n s) (failed || Bool.eqb matched negated)
            end
          else if eqc c any then
            matchChunk fuel chunk (if failed then s else drop (snd (DecodeRune s)) s) failed
          else if eqc c backslash then
            match chunk with [] => Some (inl ErrBadPattern) | d :: chunk => literal d chunk end
          else literal c chunk
      end
  end.

(** The match of a chunk behind a star: from the next bytes on, to the end when it is
    the last chunk. *)
Fixpoint skip (fuel : nat) (chunk name : bytes) (last : bool) : option (error + option bytes) :=
  match name with
  | [] => Some (inr None)
  | _ :: name =>
      match matchChunk fuel chunk name false with
      | None => None
      | Some (inl e) => Some (inl e)
      | Some (inr (Some t)) =>
          if last && negb (bool_decide (t = [])) then skip fuel chunk name last else Some (inr (Some t))
      | Some (inr None) => skip fuel chunk name last
      end
  end.

Fixpoint Match_loop (fuel : nat) (pattern name : bytes) : option (error + bool) :=
  match pattern with
  | [] => Some (inr (bool_decide (name = [])))
  | _ =>
      match fuel with
      | O => None
      | S fuel' =>
          let '(stars, chunk, pattern) := scanChunk pattern in
          if stars && bool_decide (chunk = []) then Some (inr true)
          else
            let last := bool_decide (pattern = []) in
            let chunk_fuel := S (length chunk) in
            let behind_star :=
              if stars : bool then
                match skip chunk_fuel chunk name last with
                | None => None
                | Some (inl e) => Some (inl e)
                | Some (inr (Some t)) => Match_loop fuel' pattern t
                | Some (inr None) => Some (inr false)
                end
              else Some (inr false) in
            match matchChunk chunk_fuel chunk name false with
            | None => None
            | Some (inl e) => Some (inl e)
            | Some (inr (Some t)) =>
                if bool_decide (t = []) || negb last then Match_loop fuel' pattern t else behind_star
            | Some (inr None) => behind_star
            end
      end
  end.

Definition Match (pattern name : bytes) : option (error + bool) := Match_loop (S (length pattern)) pattern name.

Example match_class : Match (bs "h[a-el]*o") (bs "hello") = Some (inr true).
Proof. vm_compute. reflexivity. Qed.
Example match_negated : Match (bs "h[^a-dl]*\*") (bs "hello*") = Some (inr true) /\
  Match (bs "h[^e]llo") (bs "hello") = Some (inr false).
Proof. vm_compute. auto. Qed.
Example match_bad : Match (bs "h[a") (bs "hello") = Some (inl ErrBadPattern) /\
  Match (bs "x*[a") (bs "hello") = Some (inr false).
Proof. vm_compute. auto. Qed.
Example match_last : Match (bs "*ab") (bs "abcab") = Some (inr true) /\ Match (bs "a*b?") (bs "aabab") = Some (inr false).
Proof. vm_compute. auto. Qed.

(** ** The reference *)

(** The elements of a chunk, and what one matches: one character of the text. *)
Inductive elem := Any | Lit (c : Init.Byte.byte) | Class (negated : bool) (ranges : list (Z * Z)).

Definition in_ranges (r : Z) (rs : list (Z * Z)) : bool := existsb (fun p => (fst p <=? r) && (r <=? snd p)) rs.

Definition step (e : elem) (s : bytes) : option bytes :=
  if bool_decide (s = []) then None
  else
    let '(r, n) := DecodeRune s in
    match e with
    | Any => Some (drop n s)
    | Lit c => if bool_decide (head s = Some c) then Some (drop 1 s) else None
    | Class negated rs => if Bool.eqb (in_ranges r rs) negated then None else Some (drop n s)
    end.

Fixpoint consume (es : list elem) (s : bytes) : option bytes :=
  match es with
  | [] => Some s
  | e :: es => match step e s with Some s => consume es s | None => None end
  end.

(** The grammar of classes, chunks and patterns. *)
Inductive ranges_of : bytes -> nat -> list (Z * Z) -> bytes -> Prop :=
  | ro_close chunk n : closes chunk n = true -> ranges_of chunk n [] (drop 1 chunk)
  | ro_range chunk n lo c1 hi c2 rs rest :
      closes chunk n = false -> getEsc chunk = Some (lo, c1) -> range_end lo c1 = Some (hi, c2) ->
      ranges_of c2 (S n) rs rest -> ranges_of chunk n ((lo, hi) :: rs) rest.

Inductive elems_of : bytes -> list elem -> Prop :=
  | eo_nil : elems_of [] []
  | eo_class chunk negated c1 rs rest es :
      negation chunk = (negated, c1) -> ranges_of c1 0 rs rest -> elems_of rest es ->
      elems_of (open :: chunk) (Class negated rs :: es)
  | eo_any chunk es : elems_of chunk es -> elems_of (any :: chunk) (Any :: es)
  | eo_escape c chunk es : elems_of chunk es -> elems_of (backslash :: c :: chunk) (Lit c :: es)
  | eo_lit c chunk es : c <> open -> c <> any -> c <> backslash -> elems_of chunk es ->
      elems_of (c :: chunk) (Lit c :: es).

Inductive segments_of : bytes -> list (bool * list elem) -> Prop :=
  | so_nil : segments_of [] []
  | so_cons pattern stars chunk rest es segs :
      pattern <> [] -> scanChunk pattern = (stars, chunk, rest) -> elems_of chunk es ->
      segments_of rest segs -> segments_of pattern ((stars, es) :: segs).

(** A text matches when stars stand for some text and elements for one character each. *)
Fixpoint matches (segs : list (bool * list elem)) (s : bytes) : Prop :=
  match segs with
  | [] => s = []
  | (stars, es) :: segs =>
      exists a b t, s = a ++ b /\ (stars = false -> a = []) /\ consume es b = Some t /\ matches segs t
  end.

(** ** Properties *)

Lemma eqc_spec c d : reflect (c = d) (eqc c d).
Proof.
  unfold eqc. destruct (Byte.eqb c d) eqn:E; constructor.
  - by apply Byte.byte_dec_bl.
  - intros ->. by rewrite Byte.byte_dec_lb in E.
Qed.
Lemma eqc_refl c : eqc c c = true.
Proof. by destruct (eqc_spec c c). Qed.
Lemma eqc_ne c d : c <> d -> eqc c d = false.
Proof. by destruct (eqc_spec c d). Qed.

(** *** Termination *)

Lemma getRune_shorter chunk r c : getRune chunk = Some (r, c) -> (length c < length chunk)%nat.
Proof.
  unfold getRune. destruct (DecodeRune chunk) as [r' n] eqn:E. destruct (drop n chunk) as [|x l] eqn:Ed; [done|].
  destruct (_ && _); [done|]. intros [= _ <-]. rewrite <- Ed, length_drop.
  assert (length (drop n chunk) <> 0%nat) as Hl by by rewrite Ed. rewrite length_drop in Hl.
  assert (n <> 0%nat); [|lia]. intros ->. unfold DecodeRune in E.
  destruct (b2z <$> chunk) as [|b0 l'] eqn:Eb; [destruct chunk; [simpl in Hl; lia|done]|].
  destruct (b0 <? 128); [done|].
  repeat match type of E with
  | context [match ?x with _ => _ end] => destruct x; try done
  end.
Qed.

Lemma getEsc_shorter chunk r c : getEsc chunk = Some (r, c) -> (length c < length chunk)%nat.
Proof.
  unfold getEsc. destruct chunk as [|x l]; [done|]. destruct (_ || _); [done|]. destruct (eqc x backslash).
  - destruct l; [done|]. intros E%getRune_shorter. simpl in *. lia.
  - apply getRune_shorter.
Qed.

Lemma range_end_shorter lo chunk r c : range_end lo chunk = Some (r, c) -> (length c <= length chunk)%nat.
Proof.
  unfold range_end. destruct chunk as [|x l]; [by intros [= _ <-]|]. destruct (eqc x dash); [|by intros [= _ <-]].
  intros E%getEsc_shorter. simpl. lia.
Qed.

Lemma class_ranges_total fuel chunk r m n : (length chunk < fuel)%nat ->
  exists res, class_ranges fuel chunk r m n = Some res /\
    forall m' c, res = inr (m', c) -> (length c <= length chunk)%nat.
Proof.
  revert chunk m n. induction fuel as [|fuel IH]; intros chunk m n Hf; [lia|]. cbn [class_ranges].
  destruct (closes chunk n). { eexists. split; [done|]. intros m' c [= _ <-]. rewrite length_drop. lia. }
  destruct (getEsc chunk) as [[lo c1]|] eqn:E1; [|by eexists]. apply getEsc_shorter in E1.
  destruct (range_end lo c1) as [[hi c2]|] eqn:E2; [|by eexists]. apply range_end_shorter in E2.
  destruct (IH c2 (m || ((lo <=? r) && (r <=? hi))) (S n)) as (res&->&Hres); [lia|].
  exists res. split; [done|]. intros m' c E. specialize (Hres _ _ E). lia.
Qed.

Lemma negation_shorter chunk : (length (snd (negation chunk)) <= length chunk)%nat.
Proof. unfold negation. destruct chunk as [|x l]; [done|]. destruct (eqc x caret); simpl; lia. Qed.

Lemma matchChunk_total fuel chunk s failed : (length chunk < fuel)%nat -> is_Some (matchChunk fuel chunk s failed).
Proof.
  revert chunk s failed. induction fuel as [|fuel IH]; intros chunk s failed Hf; [lia|]. cbn [matchChunk].
  destruct chunk as [|c chunk]; [done|]. simpl in Hf.
  destruct (eqc c open).
  - destruct (if failed || _ then _ else _) as [r n].
    pose proof (negation_shorter chunk) as Hn. destruct (negation chunk) as [negated c1]. cbn [snd] in Hn.
    destruct (class_ranges_total fuel c1 r false 0) as ([e|[m c2]]&->&Hres); [lia|done|].
    apply IH. specialize (Hres _ _ eq_refl). lia.
  - destruct (eqc c any); [apply IH; lia|]. destruct (eqc c backslash).
    + destruct chunk as [|d chunk]; [done|]. simpl in Hf. destruct (failed || _); apply IH; lia.
    + destruct (failed || _); apply IH; lia.
Qed.

Lemma skip_total chunk name last : is_Some (skip (S (length chunk)) chunk name last).
Proof.
  induction name as [|x name IH]; [done|]. cbn [skip].
  destruct (matchChunk_total (S (length chunk)) chunk name false) as [[e|[t|]] ->]; [lia|done| |done].
  by destruct (last && _).
Qed.

Lemma strip_stars_length p : (length (snd (strip_stars p)) <= length p)%nat /\
  (fst (strip_stars p) = true -> length (snd (strip_stars p)) < length p)%nat.
Proof.
  induction p as [|c p [IH1 IH2]]; [done|]. cbn [strip_stars]. destruct (eqc c star); [|done].
  cbn [fst snd length]. lia.
Qed.

Lemma split_chunk_app b p : fst (split_chunk b p) ++ snd (split_chunk b p) = p /\
  (snd (split_chunk b p) = [] \/ head (snd (split_chunk b p)) = Some star) /\
  (fst (split_chunk b p) = [] -> p = [] \/ head p = Some star).
Proof.
  assert (forall n b p, (length p <= n)%nat -> fst (split_chunk b p) ++ snd (split_chunk b p) = p /\
    (snd (split_chunk b p) = [] \/ head (snd (split_chunk b p)) = Some star) /\
    (fst (split_chunk b p) = [] -> p = [] \/ head p = Some star)) as Hn; [|by apply (Hn (length p))].
  clear. induction n as [|n IH]; intros b [|c p] Hl; simpl in Hl; try lia; [by auto..|]. cbn [split_chunk].
  assert (forall b', (c :: fst (split_chunk b' p)) ++ snd (split_chunk b' p) = c :: p /\
    (snd (split_chunk b' p) = [] \/ head (snd (split_chunk b' p)) = Some star)) as Hp.
  { intros b'. destruct (IH b' p ltac:(lia)) as (E&H1&_). cbn [app]. by rewrite E. }
  destruct (eqc c backslash).
  { destruct p as [|d p]; [by auto|]. cbn [fst snd app length] in *. destruct (IH b p ltac:(lia)) as (E&H1&_). by rewrite E. }
  destruct (eqc c open); [cbn [fst snd]; by destruct (Hp true)|].
  destruct (eqc c close); [cbn [fst snd]; by destruct (Hp false)|].
  destruct (eqc_spec c star) as [->|]; cbn [andb]; [|cbn [fst snd]; by destruct (Hp b)].
  destruct b; cbn [negb]; [cbn [fst snd]; by destruct (Hp true)|]. cbn [fst snd head]. auto.
Qed.

(** A scan consumes some of the pattern; what is left starts with a star. *)
Lemma scanChunk_rest p stars chunk rest : p <> [] -> scanChunk p = (stars, chunk, rest) ->
  (length rest < length p)%nat /\ (rest = [] \/ head rest = Some star) /\ (chunk = [] -> rest = []).
Proof.
  unfold scanChunk. intros Hne. pose proof (strip_stars_length p) as [H1 H2].
  assert (forall l, head (snd (strip_stars l)) <> Some star) as Hh.
  { clear. induction l as [|c l IH]; [done|]. cbn [strip_stars]. destruct (eqc_spec c star) as [->|]; [done|].
    cbn [snd head]. congruence. }
  specialize (Hh p). destruct (strip_stars p) as [st q]. cbn [fst snd] in *.
  pose proof (split_chunk_app false q) as (E&H3&H4). destruct (split_chunk false q) as [ch re]. cbn [fst snd] in *.
  intros [= <- <- <-]. split_and!; [|done|].
  - apply (f_equal length) in E. rewrite length_app in E. destruct st; [specialize (H2 eq_refl); lia|].
    destruct ch; [|simpl in E; lia]. destruct (H4 eq_refl) as [->|]; [|done]. destruct p; [done|simpl in *; lia].
  - intros ->. destruct (H4 eq_refl) as [->|]; [by destruct re|done].
Qed.

(** Matching a pattern terminates: the fuel, one more than the length of the pattern
    (and of a chunk), is always enough. *)
Lemma Match_total pattern name : is_Some (Match pattern name).
Proof.
  unfold Match. assert (forall fuel p s, (length p < fuel)%nat -> is_Some (Match_loop fuel p s)) as Hf; [|apply Hf; lia].
  clear. induction fuel as [|fuel IH]; intros p s Hl; [lia|]. destruct p as [|c p]; [done|]. cbn [Match_loop].
  destruct (scanChunk (c :: p)) as [[stars chunk] rest] eqn:E.
  apply scanChunk_rest in E as (Hrest&_&_); [|done].
  destruct (stars && _); [done|].
  destruct (skip_total chunk s (bool_decide (rest = []))) as [rs Hrs].
  assert (is_Some (if stars then match skip (S (length chunk)) chunk s (bool_decide (rest = [])) with
    | None => None | Some (inl e) => Some (inl e) | Some (inr (Some t)) => Match_loop fuel rest t
    | Some (inr None) => Some (inr false) end else Some (inr false))) as Hb.
  { destruct stars; [|done]. rewrite Hrs. destruct rs as [e|[t|]]; [done| |done]. apply IH. lia. }
  destruct (matchChunk_total (S (length chunk)) chunk s false) as [[e|[t|]] ->]; [lia|done| |done].
  destruct (_ || _); [|done]. apply IH. lia.
Qed.

(** *** Chunks *)

Lemma class_ranges_correct chunk n rs rest : ranges_of chunk n rs rest -> forall fuel r m,
  (length chunk < fuel)%nat -> class_ranges fuel chunk r m n = Some (inr (m || in_ranges r rs, rest)).
Proof.
  induction 1 as [chunk n Hc|chunk n lo c1 hi c2 rs rest Hc He Hr _ IH]; intros [|fuel] r m Hf; try lia;
    cbn [class_ranges]; rewrite Hc.
  - by rewrite orb_false_r.
  - rewrite He, Hr. apply getEsc_shorter in He. apply range_end_shorter in Hr. rewrite IH by lia.
    cbn [in_ranges existsb fst snd]. by rewrite orb_assoc.
Qed.

Lemma ranges_of_shorter chunk n rs rest : ranges_of chunk n rs rest -> (length rest <= length chunk)%nat.
Proof.
  induction 1 as [chunk n Hc|chunk n lo c1 hi c2 rs rest Hc He Hr _ IH]; [rewrite length_drop; lia|].
  apply getEsc_shorter in He. apply range_end_shorter in Hr. lia.
Qed.

Lemma matchChunk_literal (fuel : nat) c chunk es s (failed : bool) :
  (forall s failed, matchChunk fuel chunk s failed = Some (inr (if failed then None else consume es s))) ->
  (if failed || bool_decide (s = []) then matchChunk fuel chunk s (failed || bool_decide (s = []))
   else matchChunk fuel chunk (drop 1 s) (negb (bool_decide (head s = Some c)))) =
  Some (inr (if failed then None else consume (Lit c :: es) s)).
Proof.
  intros IH. cbn [consume]. unfold step. destruct failed; cbn [orb]; [by rewrite IH|].
  case_bool_decide as Es; [by rewrite IH|]. rewrite IH. destruct (DecodeRune s). by case_bool_decide.
Qed.

Lemma matchChunk_correct chunk es : elems_of chunk es -> forall fuel s failed, (length chunk < fuel)%nat ->
  matchChunk fuel chunk s failed = Some (inr (if failed then None else consume es s)).
Proof.
  induction 1 as [|chunk negated c1 rs rest es Hn Hr _ IH|chunk es _ IH|c chunk es _ IH|c chunk es H1 H2 H3 _ IH];
    intros [|fuel] s failed Hf; simpl in Hf; try lia; cbn [matchChunk].
  - done.
  - change (eqc open open) with true. cbv iota.
    pose proof (negation_shorter chunk) as Hneg. rewrite Hn in Hneg |- *. cbn [snd] in Hneg.
    pose proof (ranges_of_shorter _ _ _ _ Hr) as Hrest. cbn [consume]. unfold step.
    destruct failed; cbn [orb].
    { rewrite (class_ranges_correct _ _ _ _ Hr) by lia. by rewrite IH by lia. }
    case_bool_decide as Es; [rewrite (class_ranges_correct _ _ _ _ Hr) by lia; by rewrite IH by lia|].
    destruct (DecodeRune s) as [r n]. rewrite (class_ranges_correct _ _ _ _ Hr) by lia. rewrite IH by lia.
    cbn [orb]. by destruct (Bool.eqb _ _).
  - change (eqc any open) with false. change (eqc any any) with true. cbv iota.
    rewrite IH by lia. cbn [consume]. unfold step.
    destruct failed; [done|]. cbn [orb]. case_bool_decide; [done|]. by destruct (DecodeRune s).
  - change (eqc backslash open) with false. change (eqc backslash any) with false.
    change (eqc backslash backslash) with true. cbv iota zeta. apply matchChunk_literal. intros. apply IH. lia.
  - rewrite !eqc_ne by done. cbv iota zeta. apply matchChunk_literal. intros. apply IH. lia.
Qed.

(** *** Whole patterns *)

Definition ascii (s : bytes) : Prop := Forall (fun c => b2z c < 128) s.

Lemma step_ascii e s t : ascii s -> step e s = Some t -> t = drop 1 s /\ s <> [].
Proof.
  unfold step. case_bool_decide as Es; [done|]. destruct s as [|c s]; [done|]. intros [Hc _]%Forall_cons.
  assert (DecodeRune (c :: s) = (b2z c, 1%nat)) as ->.
  { unfold DecodeRune. cbn [fmap list_fmap]. destruct (Z.ltb_spec (b2z c) 128); [done|lia]. }
  destruct e; [by intros [= <-]|case_bool_decide; by intros [= <-]|].
  destruct (Bool.eqb _ _); [done|by intros [= <-]].
Qed.

(** In ASCII text a chunk takes as many bytes as it has elements. *)
Lemma consume_ascii es s t : ascii s -> consume es s = Some t ->
  t = drop (length es) s /\ (length es <= length s)%nat.
Proof.
  revert s. induction es as [|e es IH]; intros s Ha; cbn [consume]; [by intros [= <-]; split; [|simpl; lia]|].
  destruct (step e s) as [u|] eqn:E; [|done]. apply step_ascii in E as [-> Hs]; [|done].
  intros [-> Hl]%IH; [|by apply Forall_drop]. rewrite drop_drop.
  rewrite length_drop in Hl. destruct s as [|c s]; [done|]. cbn [length] in *. split; [done|lia].
Qed.

(** A pattern that starts with a star matches a text when it matches some end of it. *)
Lemma matches_star segs a b : (segs = [] \/ exists es segs', segs = (true, es) :: segs') ->
  (segs = [] -> a = []) -> matches segs b -> matches segs (a ++ b).
Proof.
  intros [->|(es&segs'&->)] Ha; [by rewrite Ha|]. cbn [matches]. intros (x&y&t&->&_&Hc&Hm).
  exists (a ++ x), y, t. by rewrite app_assoc.
Qed.

Lemma segments_star p segs : segments_of p segs -> p = [] \/ head p = Some star ->
  segs = [] \/ exists es segs', segs = (true, es) :: segs'.
Proof.
  intros [|pattern stars chunk rest es segs' Hne Hs He Hr] Hp; [by left|right].
  destruct Hp as [->|Hp]; [done|]. destruct pattern as [|c q]; [done|]. injection Hp as ->.
  unfold scanChunk in Hs. cbn [strip_stars] in Hs. change (eqc star star) with true in Hs. cbv iota in Hs.
  destruct (split_chunk _ _). injection Hs as <- _ _. eauto.
Qed.

Definition end_ok (segs : list (bool * list elem)) (t : bytes) : Prop := segs = [] -> t = [].

(** Whether the chunk fits at the start of [b], and to its end when it is the last. *)
Definition fits (es : list elem) (last : bool) (b t : bytes) : Prop :=
  consume es b = Some t /\ (last = true -> t = []).

(** What the search behind a star finds is the leftmost place where the chunk fits. *)
Lemma skip_correct chunk es last name : elems_of chunk es ->
  match skip (S (length chunk)) chunk name last with
  | Some (inr (Some t)) => exists a b, name = a ++ b /\ a <> [] /\ fits es last b t /\
      forall a' b' t', name = a' ++ b' -> a' <> [] -> fits es last b' t' -> (length b' <= length b)%nat
  | Some (inr None) => forall a b t, name = a ++ b -> a <> [] -> ~ fits es last b t
  | _ => False
  end.
Proof.
  intros He. induction name as [|x name IH]; cbn [skip]; [by intros a b t E Ha; destruct a|].
  rewrite (matchChunk_correct _ _ He) by lia.
  assert (forall a b, x :: name = a ++ b -> a <> [] -> b = name \/ exists a', a' <> [] /\ name = a' ++ b) as Hcons.
  { intros a b E Ha. destruct a as [|y [|z a]]; [done| |]; cbn [app] in E; injection E as <- E; [by left|right].
    by exists (z :: a). }
  assert ((forall t, ~ fits es last name t) ->
    match skip (S (length chunk)) chunk name last with
    | Some (inr (Some t)) => exists a b, x :: name = a ++ b /\ a <> [] /\ fits es last b t /\
        forall a' b' t', x :: name = a' ++ b' -> a' <> [] -> fits es last b' t' -> (length b' <= length b)%nat
    | Some (inr None) => forall a b t, x :: name = a ++ b -> a <> [] -> ~ fits es last b t
    | _ => False
    end) as Hgo.
  { intros Hno. destruct (skip _ _ _ _) as [[e|[t|]]|]; try done.
    - destruct IH as (a&b&->&Ha&Hf&Hmax). exists (x :: a), b. split_and!; [done|done|done|].
      intros a' b' t' E Ha' Hf'. destruct (Hcons _ _ E Ha') as [->|(a2&Ha2&E2)]; [by apply Hno in Hf'|by eapply Hmax].
    - intros a b t E Ha Hf. destruct (Hcons _ _ E Ha) as [->|(a2&Ha2&E2)]; [by apply Hno in Hf|by eapply IH]. }
  destruct (consume es name) as [t|] eqn:Ec; [|by apply Hgo; intros t [Hc _]; rewrite Ec in Hc].
  destruct (last && negb (bool_decide (t = []))) eqn:El.
  - apply Hgo. intros t' [Hc Hl]. rewrite Ec in Hc. injection Hc as <-.
    apply andb_true_iff in El as [-> El]. rewrite Hl in El by done. done.
  - exists [x], name. split_and!; [done|done| |].
    + split; [done|]. intros ->. by case_bool_decide.
    + intros a' b' t' E Ha' _. destruct (Hcons _ _ E Ha') as [->|(a2&_&->)]; [done|rewrite length_app; lia].
Qed.

(** C36. On ASCII text the matcher, which tries only the leftmost place of each chunk,
    decides the reference, in which a star stands for any text: the pattern matches if
    and only if the text can be cut so that every element matches. *)
Theorem Match_matches pattern segs name : segments_of pattern segs -> ascii name ->
  exists b, Match pattern name = Some (inr b) /\ (b = true <-> matches segs name).
Proof.
  intros Hs. unfold Match. assert (length pattern < S (length pattern))%nat as Hf by lia. revert Hf.
  generalize (S (length pattern)) as fuel. intros fuel. revert fuel name.
  induction Hs as [|pattern stars chunk rest es segs Hne Hscan He Hrest IH]; intros fuel name Hf Ha.
  { exists (bool_decide (name = [])). split; [by destruct fuel|]. by rewrite bool_decide_eq_true. }
  destruct fuel as [|fuel]; [lia|]. destruct pattern as [|c pattern]; [done|]. cbn [Match_loop]. rewrite Hscan.
  destruct (scanChunk_rest _ _ _ _ Hne Hscan) as (Hshort&Hhead&Hempty).
  pose proof (segments_star _ _ Hrest Hhead) as Hstar. set (last := bool_decide (rest = [])).
  assert (last = true <-> segs = []) as Hlast.
  { unfold last. rewrite bool_decide_eq_true. split; [intros ->; by inversion Hrest|intros ->; by inversion Hrest]. }
  destruct (stars && bool_decide (chunk = [])) eqn:Eend.
  { exists true. split; [done|]. split; [intros _|done]. apply andb_true_iff in Eend as [-> Ec].
    apply bool_decide_eq_true in Ec as ->. inversion He; subst. specialize (Hempty eq_refl). subst rest.
    inversion Hrest; subst; [|done]. exists name, [], []. by rewrite app_nil_r. }
  (* continuing behind the leftmost place decides the rest *)
  assert (forall a b t, name = a ++ b -> (stars = false -> a = []) -> fits es last b t ->
    (forall a' b' t', name = a' ++ b' -> (stars = false -> a' = []) -> fits es last b' t' -> (length b' <= length b)%nat) ->
    exists r, Match_loop fuel rest t = Some (inr r) /\ (r = true <-> matches ((stars, es) :: segs) name)) as Hgo.
  { intros a b t -> Hst [Hc Hl] Hmax. apply Forall_app in Ha as [Ha1 Ha2].
    destruct (consume_ascii _ _ _ Ha2 Hc) as [-> Hlen].
    destruct (IH fuel (drop (length es) b)) as (r&->&Hr); [simpl in *; lia|by apply Forall_drop|].
    exists r. split; [done|]. rewrite Hr. cbn [matches]. split.
    - intros Hm. by exists a, b, (drop (length es) b).
    - intros (a'&b'&t'&E&Hst'&Hc'&Hm). 
      assert (fits es last b' t') as Hf'.
      { split; [done|]. intros Hl'. apply Hlast in Hl'. by rewrite Hl' in Hm. }
      specialize (Hmax _ _ _ E Hst' Hf').
      assert (b' = drop (length b - length b') b) as Eb.
      { assert (drop (length a' - length a) (drop (length a) (a' ++ b')) = b') as Ed.
        { rewrite drop_drop. apply (f_equal length) in E. rewrite !length_app in E.
          replace (length a + (length a' - length a))%nat with (length a') by lia. apply drop_app_length. }
        rewrite <- E, drop_app_length in Ed. apply (f_equal length) in E. rewrite !length_app in E.
        by replace (length b - length b')%nat with (length a' - length a)%nat by lia. }
      assert (ascii b') as Hb' by (rewrite Eb; by apply Forall_drop).
      destruct (consume_ascii _ _ _ Hb' Hc') as [-> Hlen'].
      rewrite <- (take_drop (length b - length b') (drop (length es) b)). apply matches_star; [done| |].
      + intros Es. rewrite Hl by by apply Hlast. by rewrite take_nil.
      + rewrite drop_drop, Nat.add_comm, <- drop_drop, <- Eb. done. }
  rewrite (matchChunk_correct _ _ He) by lia.
  (* the place at the start *)
  assert ((forall t, ~ fits es last name t) ->
    exists r, (if stars then match skip (S (length chunk)) chunk name last with
      | None => None | Some (inl e) => Some (inl e) | Some (inr (Some t)) => Match_loop fuel rest t
      | Some (inr None) => Some (inr false) end else Some (inr false)) = Some (inr r) /\
      (r = true <-> matches ((stars, es) :: segs) name)) as Hbehind.
  { intros Hno.
    assert (forall a b t, name = a ++ b -> fits es last b t -> a <> []) as Hnon.
    { intros [|x a] b t -> Hfit; [by apply Hno in Hfit|done]. }
    assert (forall a b t, name = a ++ b -> consume es b = Some t -> matches segs t -> fits es last b t) as Hfits.
    { intros a b t _ Hc Hm. split; [done|]. intros Hl%Hlast. by rewrite Hl in Hm. }
    destruct stars.
    - pose proof (skip_correct chunk es last name He) as Hsk.
      destruct (skip _ _ _ _) as [[e|[t|]]|]; try done.
      + destruct Hsk as (a&b&E&Hne'&Hfit&Hmax). apply (Hgo a b t E); [done|done|].
        intros a' b' t' E' _ Hfit'. eapply Hmax; [exact E'|by eapply Hnon|exact Hfit'].
      + exists false. split; [done|]. split; [done|]. intros (a&b&t&E&_&Hc&Hm).
        exfalso. eapply Hsk; [exact E| |by eapply Hfits]. eapply Hnon; [exact E|by eapply Hfits].
    - exists false. split; [done|]. split; [done|]. intros (a&b&t&E&Ha'&Hc&Hm).
      rewrite Ha' in E by done. subst name. exfalso. eapply Hno, (Hfits [] b t); done. }
  destruct (consume es name) as [t|] eqn:Ec; [|apply Hbehind; intros t [Hc _]; by rewrite Ec in Hc].
  destruct (bool_decide (t = []) || negb last) eqn:Et.
  - apply (Hgo [] name t); [done|done| |intros a' b' t' -> _ _; rewrite length_app; lia].
    split; [done|]. intros Hl. rewrite Hl, orb_false_r in Et. by apply bool_decide_eq_true in Et.
  - apply Hbehind. intros t' [Hc Hl]. rewrite Ec in Hc. injection Hc as <-.
    apply orb_false_iff in Et as [Et El]. apply bool_decide_eq_false in Et. apply negb_false_iff in El. by apply Et, Hl.
Qed.

Definition hello : bytes := Eval vm_compute in bs "h[a-el]*o".
Definition hello_segs : list (bool * list elem) :=
  [(false, [Lit x68; Class false [(97, 101); (108, 108)]]); (true, [Lit x6f])].

Lemma hello_segments : segments_of hello hello_segs.
Proof.
  apply (so_cons _ false [x68; x5b; x61; x2d; x65; x6c; x5d] [x2a; x6f]); [done|vm_compute; reflexivity| |].
  - apply eo_lit; [done..|]. apply (eo_class _ false [x61; x2d; x65; x6c; x5d] _ []); [vm_compute; reflexivity| |constructor].
    apply (ro_range _ _ 97 [x2d; x65; x6c; x5d] 101 [x6c; x5d]); [vm_compute; reflexivity..|].
    apply (ro_range _ _ 108 [x5d] 108 [x5d]); [vm_compute; reflexivity..|].
    apply (ro_close [x5d] 2). vm_compute. reflexivity.
  - apply (so_cons _ true [x6f] []); [done|vm_compute; reflexivity|apply eo_lit; [done..|constructor]|constructor].
Qed.

Lemma Match_matches_witness :
  segments_of hello hello_segs /\ Match hello (bs "hello") = Some (inr true) /\ matches hello_segs (bs "hello").
Proof.
  split; [exact hello_segments|].
  assert (Match hello (bs "hello") = Some (inr true)) as E by (vm_compute; reflexivity). split; [exact E|].
  destruct (Match_matches hello hello_segs (bs "hello") hello_segments) as (b&E'&Hb); [repeat constructor|].
  apply Hb. rewrite E in E'. by injection E' as <-.
Defined.

(** Outside ASCII a later place can need fewer bytes, and the leftmost is not enough. *)
Lemma leftmost_not_enough :
  Match [star; any; star; xad] [xe4; xb8; xad] = Some (inr false) /\
  matches [(true, [Any]); (true, [Lit xad])] [xe4; xb8; xad].
Proof.
  split; [vm_compute; reflexivity|].
  exists [xe4], [xb8; xad], [xad]. split_and!; [done|done|reflexivity|].
  exists [], [xad], []. split_and!; [done|done|reflexivity|done].
Qed.

(** The prefix of a pattern keeps the backslash of an escape. *)
Lemma Prefix_escape : Prefix (bs "\*a") = bs "\" /\ Match (bs "\*a") (bs "*a") = Some (inr true) /\
  has_prefix (Prefix (bs "\*a")) (bs "*a") = false.
Proof. vm_compute. auto. Qed.
