(* ===== verification/Bitmap.v ===== *)
(** The bitmap of the commands a user may call (utils/bitmap/bitmap.go): 64-bit words
    and the number of bits. [None] is a panic, for an index the words do not have. *)

From S2P Require Import Prelude GoStd.

#[local] Open Scope Z_scope.

Record Bitmap := mkBitmap { segments : list Z; bm_length : Z }.

Definition full_segment : Z := 2 ^ 64 - 1.
Definition bit_of (index : Z) : Z := Z.shiftl 1 (go_rem index 64).
Definition segment (b : Bitmap) (index : Z) : option Z := segments b !! Z.to_nat (go_div index 64).

Definition New (length : Z) : option Bitmap :=
  if makeslice_ok (go_div length 64) 8 then Some (mkBitmap (replicate (Z.to_nat (go_div length 64)) 0) length)
  else None.

Definition GetSegments (b : Bitmap) : list Z := segments b.
Definition SetSegments (l : list Z) : Bitmap := mkBitmap l (len l * 64).

Definition outside (b : Bitmap) (index : Z) : bool := (index <? 0) || (index >=? bm_length b).

(** [b.segments[index/64] = f(b.segments[index/64])] *)
Definition update (b : Bitmap) (index : Z) (f : Z -> Z) : option Bitmap :=
  s ← segment b index;
  Some (mkBitmap (<[Z.to_nat (go_div index 64) := f s]> (segments b)) (bm_length b)).

Definition Add (b : Bitmap) (index : Z) : option Bitmap :=
  if outside b index then Some b else update b index (fun s => Z.lor s (bit_of index)).

Definition IsSet (b : Bitmap) (index : Z) : option bool :=
  if outside b index then Some false
  else s ← segment b index; Some (negb (Z.land s (bit_of index) =? 0)).

Definition Remove (b : Bitmap) (index : Z) : option Bitmap :=
  if outside b index then Some b else update b index (fun s => Z.ldiff s (bit_of index)).

Definition SetFull (b : Bitmap) : Bitmap := mkBitmap ((fun _ => full_segment) <$> segments b) (bm_length b).
Definition IsFull (b : Bitmap) : bool := forallb (fun v => v =? full_segment) (segments b).
Definition SetEmpty (b : Bitmap) : Bitmap := mkBitmap ((fun _ => 0) <$> segments b) (bm_length b).
Definition IsEmpty (b : Bitmap) : bool := forallb (fun v => v =? 0) (segments b).

(** The indices from [i] on whose bit is set, or is not. *)
Fixpoint collect (b : Bitmap) (set : bool) (n : nat) (i : Z) : option (list Z) :=
  match n with
  | O => Some []
  | S n =>
      s ← segment b i;
      l ← collect b set n (i + 1);
      Some (if Bool.eqb (negb (Z.land s (bit_of i) =? 0)) set then i :: l else l)
  end.
Definition Values (b : Bitmap) : option (list Z) := collect b true (Z.to_nat (bm_length b)) 0.
Definition EmptyValues (b : Bitmap) : option (list Z) := collect b false (Z.to_nat (bm_length b)) 0.

(** ** A bitmap is a set of indices *)

Definition wf (b : Bitmap) : Prop :=
  bm_length b = 64 * len (segments b) /\ Forall (fun s => 0 <= s < 2 ^ 64) (segments b).

Definition holds (b : Bitmap) (i : Z) : bool :=
  negb (outside b i) && Z.testbit (default 0 (segments b !! Z.to_nat (i / 64))) (i mod 64).

(** The set. *)
Definition bits (b : Bitmap) : gset Z :=
  list_to_set (filter (fun i => holds b i = true) (seqZ 0 (bm_length b))).

Lemma outside_false b i : outside b i = false <-> 0 <= i < bm_length b.
Proof. unfold outside. rewrite orb_false_iff. rewrite Z.geb_leb. destruct (Z.ltb_spec i 0), (Z.leb_spec (bm_length b) i); lia. Qed.

Lemma outside_true b i : outside b i = true <-> ~ 0 <= i < bm_length b.
Proof. rewrite <- outside_false. destruct (outside b i); split; congruence. Qed.

Lemma elem_of_bits b i : i ∈ bits b <-> holds b i = true.
Proof.
  unfold bits. rewrite elem_of_list_to_set, list_elem_of_filter, elem_of_seqZ.
  split; [tauto|]. intros Hi. split; [done|]. unfold holds in Hi. apply andb_prop in Hi as [Hi _].
  apply negb_true_iff, outside_false in Hi. lia.
Qed.

Lemma go_div_64 i : 0 <= i -> go_div i 64 = i / 64.
Proof. intros. unfold go_div. by rewrite Z.quot_div_nonneg by lia. Qed.
Lemma bit_of_eq i : 0 <= i -> bit_of i = 2 ^ (i mod 64).
Proof. intros. unfold bit_of, go_rem. by rewrite Z.rem_mod_nonneg, Z.shiftl_1_l by lia. Qed.

Lemma land_bit s n : 0 <= n -> negb (Z.land s (2 ^ n) =? 0) = Z.testbit s n.
Proof.
  intros Hn. destruct (Z.testbit s n) eqn:Hs.
  - destruct (Z.eqb_spec (Z.land s (2 ^ n)) 0) as [E|]; [|done].
    apply (f_equal (fun z => Z.testbit z n)) in E.
    rewrite Z.land_spec, Hs, Z.pow2_bits_true, Z.bits_0 in E by lia. done.
  - replace (Z.land s (2 ^ n)) with 0; [done|]. symmetry. apply Z.bits_inj_0. intros i.
    rewrite Z.land_spec, Z.pow2_bits_eqb by lia. destruct (Z.eqb_spec n i) as [<-|]; [by rewrite Hs|by rewrite andb_false_r].
Qed.

Lemma word_bits s : 0 <= s -> s < 2 ^ 64 <-> forall n, 64 <= n -> Z.testbit s n = false.
Proof. intros. by apply Z.bounded_iff_bits_nonneg. Qed.

Section wf.
Context (b : Bitmap) (Hb : wf b).

Lemma segment_wf i : 0 <= i < bm_length b ->
  exists s, segment b i = Some s /\ segments b !! Z.to_nat (i / 64) = Some s /\ 0 <= s < 2 ^ 64.
Proof.
  intros Hi. destruct Hb as [Hl Hf]. unfold segment. rewrite go_div_64 by lia.
  unfold len in Hl.
  destruct (lookup_lt_is_Some_2 (segments b) (Z.to_nat (i / 64))) as [s Hs].
  { Z.to_euclidean_division_equations; lia. }
  exists s. split; [done|]. split; [done|]. exact (Forall_lookup_1 _ _ _ _ Hf Hs).
Qed.

Lemma segment_bit i s : 0 <= i -> segments b !! Z.to_nat (i / 64) = Some s -> 0 <= i < bm_length b ->
  negb (Z.land s (bit_of i) =? 0) = holds b i.
Proof.
  intros H0 Hs Hi. rewrite bit_of_eq, land_bit by (try apply Z.mod_pos_bound; lia).
  unfold holds. rewrite (proj2 (outside_false b i)), Hs by lia. done.
Qed.

(** One word changes: the bits outside it stay. *)
Lemma update_wf i f :
  0 <= i < bm_length b -> (forall s, 0 <= s < 2 ^ 64 -> 0 <= f s < 2 ^ 64) ->
  (forall s n, 0 <= n -> n <> i mod 64 -> Z.testbit (f s) n = Z.testbit s n) ->
  exists b' s, update b i f = Some b' /\ wf b' /\ bm_length b' = bm_length b /\
    (forall j, j <> i -> holds b' j = holds b j) /\ holds b' i = Z.testbit (f s) (i mod 64).
Proof.
  intros Hi Hf Hbit. destruct (segment_wf i Hi) as (s&Hs&Hs'&Hr).
  assert (Hlt := lookup_lt_Some _ _ _ Hs').
  unfold update. rewrite Hs. cbn [mbind option_bind]. rewrite go_div_64 by lia.
  eexists _, s. split; [done|]. destruct Hb as [Hl Hall]. split_and!; cbn [bm_length segments].
  - split; cbn [bm_length segments]; [by unfold len; rewrite length_insert|].
    apply Forall_insert; [done|]. split; by apply Hf.
  - done.
  - intros j Hj. unfold holds. change (outside _ j) with (outside b j).
    destruct (outside b j) eqn:Ho; [done|]. apply outside_false in Ho. cbn [negb andb segments].
    destruct (decide (i / 64 = j / 64)) as [E|E].
    + rewrite <- E, list_lookup_insert_eq, Hs' by done. cbn [default].
      apply Hbit; [apply Z.mod_pos_bound; lia|]. intros E'. apply Hj.
      pose proof (Z.div_mod i 64). pose proof (Z.div_mod j 64). lia.
    + rewrite list_lookup_insert_ne; [done|]. intros E'. apply E.
      pose proof (Z.div_pos i 64). pose proof (Z.div_pos j 64). lia.
  - unfold holds. change (outside _ i) with (outside b i).
    rewrite (proj2 (outside_false b i)) by lia. cbn [negb andb segments].
    by rewrite list_lookup_insert_eq by done.
Qed.

Lemma IsSet_bits i : IsSet b i = Some (bool_decide (i ∈ bits b)).
Proof.
  unfold IsSet. rewrite (bool_decide_ext _ (holds b i = true)) by apply elem_of_bits.
  destruct (outside b i) eqn:Ho.
  - rewrite bool_decide_false; [done|]. unfold holds. by rewrite Ho.
  - apply outside_false in Ho as Hi. destruct (segment_wf i Hi) as (s&->&Hs&_). cbn [mbind option_bind].
    rewrite (segment_bit i s) by (done || lia). by destruct (holds b i).
Qed.

Lemma Add_bits i : exists b', Add b i = Some b' /\ wf b' /\ bm_length b' = bm_length b /\
  bits b' = (if outside b i then ∅ else {[i]}) ∪ bits b.
Proof.
  unfold Add. destruct (outside b i) eqn:Ho; [exists b; split_and!; [done..|set_solver]|].
  apply outside_false in Ho.
  destruct (update_wf i (fun s => Z.lor s (bit_of i))) as (b'&s&E&W&L&Hj&Hi); [done| | |].
  - intros s Hs. assert (0 <= Z.lor s (bit_of i)) by (apply Z.lor_nonneg; rewrite bit_of_eq; lia).
    split; [done|]. apply word_bits; [done|]. intros n Hn.
    pose proof (Z.mod_pos_bound i 64 eq_refl).
    rewrite bit_of_eq, Z.lor_spec, Z.pow2_bits_false, (proj1 (word_bits s ltac:(lia)) ltac:(lia)) by lia. done.
  - intros s n Hn Hne. rewrite bit_of_eq, Z.lor_spec, Z.pow2_bits_false by lia. apply orb_false_r.
  - exists b'. split_and!; [done..|]. apply set_eq. intros j.
    rewrite elem_of_union, elem_of_singleton, !elem_of_bits. destruct (decide (j = i)) as [->|Hne].
    + rewrite Hi, bit_of_eq, Z.lor_spec, Z.pow2_bits_true by (try apply Z.mod_pos_bound; lia).
      rewrite orb_true_r. tauto.
    + rewrite Hj by done. tauto.
Qed.

Lemma Remove_bits i : exists b', Remove b i = Some b' /\ wf b' /\ bm_length b' = bm_length b /\
  bits b' = bits b ∖ {[i]}.
Proof.
  unfold Remove. destruct (outside b i) eqn:Ho.
  { exists b. split_and!; [done..|]. apply set_eq. intros j.
    rewrite elem_of_difference, elem_of_singleton, elem_of_bits.
    split; [|tauto]. intros Hj. split; [done|]. intros ->. unfold holds in Hj. by rewrite Ho in Hj. }
  apply outside_false in Ho.
  destruct (update_wf i (fun s => Z.ldiff s (bit_of i))) as (b'&s&E&W&L&Hj&Hi); [done| | |].
  - intros s Hs. split; [apply Z.ldiff_nonneg; lia|]. apply word_bits; [apply Z.ldiff_nonneg; lia|].
    intros n Hn. by rewrite Z.ldiff_spec, (proj1 (word_bits s ltac:(lia)) ltac:(lia)).
  - intros s n Hn Hne. rewrite bit_of_eq, Z.ldiff_spec, Z.pow2_bits_false by lia. apply andb_true_r.
  - exists b'. split_and!; [done..|]. apply set_eq. intros j.
    rewrite elem_of_difference, elem_of_singleton, !elem_of_bits. destruct (decide (j = i)) as [->|Hne].
    + rewrite Hi, bit_of_eq, Z.ldiff_spec, Z.pow2_bits_true by (try apply Z.mod_pos_bound; lia).
      rewrite andb_false_r. split; [discriminate|tauto].
    + rewrite Hj by done. tauto.
Qed.

Lemma collect_bits set n i : 0 <= i -> i + Z.of_nat n <= bm_length b ->
  collect b set n i = Some (filter (fun j => holds b j = set) (seqZ i (Z.of_nat n))).
Proof.
  revert i. induction n as [|n IH]; intros i H0 Hn; [done|].
  cbn [collect]. destruct (segment_wf i) as (s&->&Hs&_); [lia|]. cbn [mbind option_bind].
  rewrite (IH (i + 1)) by lia. cbn [mbind option_bind].
  rewrite (segment_bit i s) by (done || lia).
  rewrite Nat2Z.inj_succ, (seqZ_cons i) by lia. rewrite Z.pred_succ, filter_cons.
  replace (Z.succ i) with (i + 1) by lia.
  destruct (decide (holds b i = set)) as [<-|Hne]; [by rewrite Bool.eqb_reflx|].
  destruct (Bool.eqb_spec (holds b i) set); [congruence|done].
Qed.

Lemma SetFull_bits : wf (SetFull b) /\ bits (SetFull b) = list_to_set (seqZ 0 (bm_length b)).
Proof.
  destruct Hb as [Hl Hf]. split.
  - split; cbn [bm_length segments SetFull]; [by unfold len; rewrite length_fmap|].
    apply Forall_fmap, Forall_true. intros s. unfold compose, full_segment. lia.
  - apply set_eq. intros i. rewrite elem_of_bits, elem_of_list_to_set, elem_of_seqZ. unfold holds.
    change (outside (SetFull b) i) with (outside b i). cbn [segments SetFull]. rewrite list_lookup_fmap.
    destruct (outside b i) eqn:Ho; [apply outside_true in Ho; cbn; split; [done|lia]|].
    apply outside_false in Ho. destruct (segment_wf i Ho) as (s&_&->&_). cbn [fmap option_fmap option_map from_option id negb andb].
    unfold full_segment. rewrite Z.sub_1_r, <- Z.ones_equiv, Z.ones_spec_low by (pose proof (Z.mod_pos_bound i 64); lia).
    split; [lia|done].
Qed.

Lemma SetEmpty_bits : wf (SetEmpty b) /\ bits (SetEmpty b) = ∅.
Proof.
  destruct Hb as [Hl Hf]. split.
  - split; cbn [bm_length segments SetEmpty]; [by unfold len; rewrite length_fmap|].
    apply Forall_fmap, Forall_true. intros s. unfold compose. lia.
  - apply set_eq. intros i. rewrite elem_of_bits. split; [|set_solver]. unfold holds. cbn [segments SetEmpty].
    rewrite list_lookup_fmap. destruct (segments b !! _); cbn [fmap option_fmap option_map from_option id negb andb];
      rewrite Z.bits_0, andb_false_r; done.
Qed.

End wf.

Lemma new_wf n : 0 <= n -> 64 * n <= 8 * maxAlloc -> exists b, New (64 * n) = Some b /\ wf b /\ bits b = ∅.
Proof.
  intros H0 Hn. unfold New. replace (go_div (64 * n) 64) with n.
  2: { unfold go_div. rewrite Z.mul_comm, Z.quot_mul; lia. }
  unfold makeslice_ok. replace ((0 <=? n) && (n * 8 <=? maxAlloc)) with true by lia.
  eexists. split; [done|]. split.
  - split; cbn [bm_length segments]; [unfold len; rewrite length_replicate; lia|].
    apply Forall_replicate. lia.
  - apply set_eq. intros j. rewrite elem_of_bits. split; [|set_solver]. unfold holds. cbn [segments].
    intros Hj. apply andb_prop in Hj as [_ Hj]. destruct (replicate (Z.to_nat n) 0 !! _) as [x|] eqn:E.
    { apply lookup_replicate in E as [-> _]. by rewrite Z.bits_0 in Hj. }
    by rewrite Z.bits_0 in Hj.
Qed.

(** The bitmap of permissions is a set of numbers: on a bitmap whose words fit its
    length ([New] and [SetSegments] make such bitmaps), adding, removing and testing an
    index never panic; they insert, delete and look up the index, an index out of range
    being ignored and never found; [SetFull] and [SetEmpty] give the full and the empty
    set; [Values] lists the set and [EmptyValues] its complement
    in ascending order. *)
Lemma bitmap_set b i : wf b ->
  (exists b', Add b i = Some b' /\ wf b' /\ bm_length b' = bm_length b /\
     bits b' = (if bool_decide (0 <= i < bm_length b) then {[i]} else ∅) ∪ bits b) /\
  (exists b', Remove b i = Some b' /\ wf b' /\ bm_length b' = bm_length b /\ bits b' = bits b ∖ {[i]}) /\
  IsSet b i = Some (bool_decide (i ∈ bits b)) /\
  (wf (SetFull b) /\ bits (SetFull b) = list_to_set (seqZ 0 (bm_length b))) /\
  (wf (SetEmpty b) /\ bits (SetEmpty b) = ∅) /\
  Values b = Some (filter (fun j => j ∈ bits b) (seqZ 0 (bm_length b))) /\
  EmptyValues b = Some (filter (fun j => j ∉ bits b) (seqZ 0 (bm_length b))).
Proof.
  intros Hb. assert (0 <= bm_length b) as H0 by (destruct Hb as [-> _]; pose proof (len_nonneg (segments b)); lia).
  split_and!.
  - destruct (Add_bits b Hb i) as (b'&E&W&L&B). exists b'. split_and!; [done..|]. rewrite B. f_equal.
    case_bool_decide as Hi; [apply outside_false in Hi as ->|apply outside_true in Hi as ->]; done.
  - exact (Remove_bits b Hb i).
  - exact (IsSet_bits b Hb i).
  - apply (SetFull_bits b Hb).
  - apply (SetFull_bits b Hb).
  - apply (SetEmpty_bits b Hb).
  - apply (SetEmpty_bits b Hb).
  - unfold Values. rewrite collect_bits by (done || lia). rewrite Z2Nat.id by lia. f_equal.
    apply list_filter_iff. intros j. by rewrite elem_of_bits.
  - unfold EmptyValues. rewrite collect_bits by (done || lia). rewrite Z2Nat.id by lia. f_equal.
    apply list_filter_iff. intros j. rewrite elem_of_bits. by destruct (holds b j).
Qed.

Definition sample : Bitmap := mkBitmap [5; 2 ^ 63] 128.

Lemma bitmap_set_witness :
  wf sample /\ IsSet sample 127 = Some true /\ exists b', Add sample 64 = Some b' /\ Values b' = Some [0; 2; 64; 127].
Proof.
  assert (wf sample) as W by (split; [done|]; repeat constructor; lia).
  split; [exact W|]. destruct (bitmap_set sample 127 W) as (_&_&H&_). split.
  - rewrite H. vm_compute. reflexivity.
  - eexists. split; vm_compute; reflexivity.
Defined.
