(* ===== verification/Sha.v ===== *)
(** The digests of utils/sha.go, with crypto/sha1 and crypto/sha256 of Go's standard
    library written out (FIPS 180-4), on 32-bit words. *)

From S2P Require Import Prelude GoStd Utils.
From Stdlib Require Import Init.Byte.

#[local] Open Scope Z_scope.

Definition w32 (x : Z) : Z := x mod 2 ^ 32.
Definition rotl (n x : Z) : Z := Z.lor (w32 (Z.shiftl x n)) (Z.shiftr x (32 - n)).
Definition rotr (n x : Z) : Z := rotl (32 - n) x.
Definition not32 (x : Z) : Z := 2 ^ 32 - 1 - x.

(** ** Padding and words *)

Definition padding (n : Z) : bytes :=
  x80 :: replicate (Z.to_nat ((55 - n) mod 64)) x00 ++ be_put 8 (n * 8).

Fixpoint words (fuel : nat) (l : bytes) : list Z :=
  match fuel, l with
  | S fuel, a :: b :: c :: d :: l => be_get [a; b; c; d] :: words fuel l
  | _, _ => []
  end.

Fixpoint blocks (fuel : nat) (l : list Z) : list (list Z) :=
  match fuel, l with
  | S fuel, _ :: _ => take 16 l :: blocks fuel (drop 16 l)
  | _, _ => []
  end.

Definition message (s : bytes) : list (list Z) :=
  let l := s ++ padding (len s) in blocks (length l) (words (length l) l).

(** The schedule is kept newest first: [w !! 2] is the word three before the next. *)
Fixpoint extend (n : nat) (f : list Z -> Z) (w : list Z) : list Z :=
  match n with O => rev w | S n => extend n f (f w :: w) end.
Definition at_ (w : list Z) (i : nat) : Z := nth (i - 1) w 0.

Definition to_bytes (ws : list Z) : bytes := concat (be_put 4 <$> ws).

(** ** SHA-256 *)

(** The constants are the first 32 bits of the fractional parts of roots of primes. *)
Definition is_prime (n : Z) : bool :=
  (1 <? n) && forallb (fun d => negb (n mod Z.of_nat d =? 0)) (seq 2 (Z.to_nat (n - 2))).
Definition primes : list Z := List.filter is_prime (Z.of_nat <$> seq 0 312).

(** The cube root, rounded down, of a number below [2 ^ (3 n)], from its high bit on. *)
Fixpoint cbrt (n : nat) (x root : Z) : Z :=
  match n with
  | O => root
  | S n =>
      let next := root + 2 ^ Z.of_nat n in
      cbrt n x (if next * next * next <=? x then next else root)
  end.

Definition k256 : list Z := Eval vm_compute in (fun q => w32 (cbrt 40 (Z.shiftl q 96) 0)) <$> primes.
Definition h256 : list Z := Eval vm_compute in (fun q => w32 (Z.sqrt (Z.shiftl q 64))) <$> take 8 primes.

Definition schedule256 (block : list Z) : list Z :=
  extend 48 (fun w =>
    let a := at_ w 15 in let b := at_ w 2 in
    let s0 := Z.lxor (Z.lxor (rotr 7 a) (rotr 18 a)) (Z.shiftr a 3) in
    let s1 := Z.lxor (Z.lxor (rotr 17 b) (rotr 19 b)) (Z.shiftr b 10) in
    w32 (at_ w 16 + s0 + at_ w 7 + s1)) (rev block).

Definition round256 (h : list Z) (kw : Z * Z) : list Z :=
  match h with
  | [a; b; c; d; e; f; g; hh] =>
      let s1 := Z.lxor (Z.lxor (rotr 6 e) (rotr 11 e)) (rotr 25 e) in
      let ch := Z.lxor (Z.land e f) (Z.land (not32 e) g) in
      let t1 := hh + s1 + ch + fst kw + snd kw in
      let s0 := Z.lxor (Z.lxor (rotr 2 a) (rotr 13 a)) (rotr 22 a) in
      let maj := Z.lxor (Z.lxor (Z.land a b) (Z.land a c)) (Z.land b c) in
      [w32 (t1 + s0 + maj); a; b; c; w32 (d + t1); e; f; g]
  | _ => h
  end.

Definition block256 (h block : list Z) : list Z :=
  zip_with (fun x y => w32 (x + y)) h (fold_left round256 (combine k256 (schedule256 block)) h).

Definition sha256 (s : bytes) : bytes := to_bytes (fold_left block256 (message s) h256).

(** ** SHA-1 *)

Definition h160 : list Z := [0x67452301; 0xefcdab89; 0x98badcfe; 0x10325476; 0xc3d2e1f0].

Definition schedule160 (block : list Z) : list Z :=
  extend 64 (fun w => rotl 1 (Z.lxor (Z.lxor (at_ w 3) (at_ w 8)) (Z.lxor (at_ w 14) (at_ w 16)))) (rev block).

(** The function and the constant of a round. *)
Definition f160 (i : nat) (b c d : Z) : Z * Z :=
  if (i <? 20)%nat then (Z.lor (Z.land b c) (Z.land (not32 b) d), 0x5a827999)
  else if (i <? 40)%nat then (Z.lxor (Z.lxor b c) d, 0x6ed9eba1)
  else if (i <? 60)%nat then (Z.lor (Z.lor (Z.land b c) (Z.land b d)) (Z.land c d), 0x8f1bbcdc)
  else (Z.lxor (Z.lxor b c) d, 0xca62c1d6).

Definition round160 (h : list Z) (iw : nat * Z) : list Z :=
  match h with
  | [a; b; c; d; e] =>
      let '(f, k) := f160 (fst iw) b c d in
      [w32 (rotl 5 a + f + e + k + snd iw); a; rotl 30 b; c; d]
  | _ => h
  end.

Definition block160 (h block : list Z) : list Z :=
  zip_with (fun x y => w32 (x + y)) h (fold_left round160 (combine (seq 0 80) (schedule160 block)) h).

Definition sha1 (s : bytes) : bytes := to_bytes (fold_left block160 (message s) h160).

(** ** utils/sha.go *)

Definition Sha1Sum (s : bytes) : bytes := Bytes.HexEncode (sha1 s).
Definition Sha256Sum (s : bytes) : bytes := Bytes.HexEncode (sha256 s).

(** The vectors of the standard, and one of two blocks. *)
Lemma sha_vectors :
  Sha256Sum (bs "abc") = bs "ba7816bf8f01cfea414140de5dae2223b00361a396177a9cb410ff61f20015ad" /\
  Sha256Sum [] = bs "e3b0c44298fc1c149afbf4c8996fb92427ae41e4649b934ca495991b7852b855" /\
  Sha256Sum (bs "abcdbcdecdefdefgefghfghighijhijkijkljklmklmnlmnomnopnopq")
  = bs "248d6a61d20638b8e5c026930c3e6039a33ce45964ff2167f6ecedd419db06c1" /\
  Sha1Sum (bs "abc") = bs "a9993e364706816aba3e25717850c26c9cd0d89d" /\
  Sha1Sum (bs "abcdbcdecdefdefgefghfghighijhijkijkljklmklmnlmnomnopnopq")
  = bs "84983e441c3bd26ebaae4aa1f95129e5e54670f1".
Proof. vm_compute. auto. Qed.

(** ** Lengths *)

Lemma length_round256 h kw : length h = 8%nat -> length (round256 h kw) = 8%nat.
Proof. intros Hh. do 9 (destruct h as [|? h]; try done). Qed.

Lemma length_fold {A B} (f : list A -> B -> list A) n l : (forall h x, length h = n -> length (f h x) = n) ->
  forall h, length h = n -> length (fold_left f l h) = n.
Proof. intros Hf. induction l as [|x l IH]; intros h Hh; [done|]. by apply IH, Hf. Qed.

Lemma length_block256 h b : length h = 8%nat -> length (block256 h b) = 8%nat.
Proof.
  intros Hh. unfold block256. rewrite length_zip_with.
  rewrite (length_fold round256 8) by (done || apply length_round256). lia.
Qed.

Lemma length_sha256 s : length (sha256 s) = 32%nat.
Proof.
  unfold sha256, to_bytes. set (ws := fold_left _ _ _).
  assert (length ws = 8%nat) as Hw by (by apply length_fold; [apply length_block256|]).
  do 9 (destruct ws as [|? ws]; try done).
Qed.

Lemma length_HexEncode s : length (Bytes.HexEncode s) = (2 * length s)%nat.
Proof. induction s as [|b s IH]; cbn [Bytes.HexEncode length]; lia. Qed.

Lemma length_Sha256Sum s : length (Sha256Sum s) = 64%nat.
Proof. unfold Sha256Sum. by rewrite length_HexEncode, length_sha256. Qed.
