(* ===== verification/Store.v ===== *)
(** The package [store]: the transaction [store.Txn] over a TiKV transaction
    (txn.go), range deletion (client.go), and the interface the development assumes
    of TiKV.

    TiKV's client is not part of the repository: it is the class [Platform] of the
    operations lancelot calls and the class [PlatformSpec] of what it relies on,
    which the instance [mem_platform] (an ordered map in memory) satisfies. *)

From S2P Require Import Prelude Xerror GoStd Utils.
From stdpp Require Import sorting.

#[local] Open Scope Z_scope.

(** ** Configuration: the fields of [config.Redis] and [config.Store] that are read *)

Record Config := {
  ScanMaxCount : Z;
  SetOperation : string;
  DbSizeHash : Z;
  DisableCount : bool;
  ObjectHash : Z;
  ListType : string;
  TTLSensitivity : Z;
  SkipConflict : bool;
  StoreIsPessimistic : bool;
  BatchLimit : Z;
  AclPermission : bool;
  MaxUsers : Z;
  MaxPasswordsPerUser : Z;
  MaxDBPerUser : Z
}.

Definition SETOP_SCAN : string := "scan".
Definition SETOP_GET : string := "get".
Definition ALIST : string := "a".
Definition BLIST : string := "b".

(** The initial value of the package variable [cfg] of config.go. *)
Definition initial_config : Config := {|
  ScanMaxCount := 10000;
  SetOperation := SETOP_SCAN;
  DbSizeHash := 0;
  DisableCount := true;
  ObjectHash := Z.shiftl 1 4 - 1;
  ListType := ALIST;
  TTLSensitivity := 1;
  SkipConflict := false;
  StoreIsPessimistic := false;
  BatchLimit := 200;
  AclPermission := false;
  MaxUsers := 1000;
  MaxPasswordsPerUser := 10;
  MaxDBPerUser := 64
|}.

(** ** The platform: TiKV, UUIDs, random numbers *)

(** The operations of a TiKV transaction, iterator and cluster that are called, the
    generator of UUIDs and the random numbers (each draw is numbered, so that a
    generator is a function), and the configuration the process was started with.
    [it_size] bounds the number of entries an iterator still yields; it is not a
    call of the program, only the fuel of the loops over iterators. *)
Class Platform := {
  KV : Type;
  Iter : Type;
  Cluster : Type;
  GetDefaultConfig : Config;
  NewUUID : Z -> string + bytes;
  Int63n : Z -> Z -> Z;
  ExtractPhysical : Z -> Z;
  kv_Get : KV -> bytes -> tikv_error + bytes;
  kv_Set : KV -> bytes -> bytes -> option tikv_error * KV;
  kv_Delete : KV -> bytes -> option tikv_error * KV;
  kv_LockKeysWithWaitTime : KV -> Z -> bytes -> option tikv_error * KV;
  kv_LockKeys : KV -> list bytes -> option tikv_error * KV;
  kv_Iter : KV -> bytes -> bytes -> tikv_error + Iter;
  kv_IterReverse : KV -> bytes -> tikv_error + Iter;
  it_Valid : Iter -> bool;
  it_Key : Iter -> bytes;
  it_Value : Iter -> bytes;
  it_Next : Iter -> option tikv_error * Iter;
  it_size : Iter -> nat;
  cl_Begin : Cluster -> tikv_error + KV;
  kv_SetPessimistic : KV -> bool -> KV;
  kv_StartTS : KV -> Z;
  kv_Commit : Cluster -> KV -> Cluster * option tikv_error
}.

(** The entries of a map with [start <= key < end] in the order of their keys; an
    empty [end] is no bound. *)
Definition entry_le (x y : bytes * bytes) : Prop := ble (fst x) (fst y).
#[export] Instance entry_le_dec : RelDecision entry_le := fun x y => ble_dec _ _.

Definition below (k end_ : bytes) : bool :=
  match end_ with [] => true | _ => bytes_ltb k end_ end.

Definition range_entries (start end_ : bytes) (v : gmap bytes bytes) : list (bytes * bytes) :=
  merge_sort entry_le
    (base.filter (fun e => bytes_leb start (fst e) && below (fst e) end_ = true) (map_to_list v)).

(** What lancelot relies on. [kv_view] is what the transaction reads (its snapshot
    with its own writes on top), and [kv_up] says that TiKV answers and holds no
    conflicting lock. A TiKV transaction refuses an empty value. An iterator yields
    the entries its range had when it was created. *)
Class PlatformSpec `{Platform} := {
  kv_view : KV -> gmap bytes bytes;
  kv_up : KV -> Prop;
  it_up : Iter -> Prop;
  it_list : Iter -> list (bytes * bytes);
  NewUUID_length n u : NewUUID n = inr u -> length u = 16%nat;
  Int63n_range n m : 0 < m -> 0 <= Int63n n m < m;
  kv_Get_ok kv k v : kv_Get kv k = inr v -> kv_view kv !! k = Some v;
  kv_Get_absent kv k e : kv_Get kv k = inl e -> te_notfound e = true -> kv_view kv !! k = None;
  kv_Get_up kv k : kv_up kv ->
    match kv_view kv !! k with
    | Some v => kv_Get kv k = inr v
    | None => exists e, kv_Get kv k = inl e /\ te_notfound e = true
    end;
  kv_Set_start kv k v e kv' : kv_Set kv k v = (e, kv') -> kv_StartTS kv' = kv_StartTS kv;
  kv_Delete_start kv k e kv' : kv_Delete kv k = (e, kv') -> kv_StartTS kv' = kv_StartTS kv;
  kv_LockWait_start kv w k e kv' :
    kv_LockKeysWithWaitTime kv w k = (e, kv') -> kv_StartTS kv' = kv_StartTS kv;
  kv_Set_ok kv k v kv' : kv_Set kv k v = (None, kv') -> kv_view kv' = <[k := v]> (kv_view kv);
  kv_Set_up kv k v : kv_up kv -> v <> [] -> exists kv', kv_Set kv k v = (None, kv') /\ kv_up kv';
  kv_Delete_ok kv k kv' : kv_Delete kv k = (None, kv') -> kv_view kv' = delete k (kv_view kv);
  kv_Delete_up kv k : kv_up kv -> exists kv', kv_Delete kv k = (None, kv') /\ kv_up kv';
  kv_LockWait_ok kv w k e kv' : kv_LockKeysWithWaitTime kv w k = (e, kv') -> kv_view kv' = kv_view kv;
  kv_LockWait_up kv w k : kv_up kv ->
    exists kv', kv_LockKeysWithWaitTime kv w k = (None, kv') /\ kv_up kv';
  kv_Iter_up kv s e : kv_up kv ->
    exists it, kv_Iter kv s e = inr it /\ it_up it /\ it_list it = range_entries s e (kv_view kv);
  kv_IterReverse_up kv e : kv_up kv ->
    exists it, kv_IterReverse kv e = inr it /\ it_up it /\
      it_list it = rev (range_entries [] e (kv_view kv));
  it_Valid_list it : it_Valid it = negb (bool_decide (it_list it = []));
  it_Key_list it k v l : it_list it = (k, v) :: l -> it_Key it = k /\ it_Value it = v;
  it_Next_up it : it_up it ->
    exists it', it_Next it = (None, it') /\ it_up it' /\ it_list it' = tail (it_list it);
  it_size_list it : (length (it_list it) <= it_size it)%nat
}.

(** ** The transaction and the monad of the handlers *)

(** [store.Txn], with the user and database of its connection. [t_draws] counts the
    UUIDs and random numbers drawn so far. The tracing span, the client and the
    connection's I/O are left out. *)
Record Txn `{Platform} := mkTxn {
  t_txn : option KV;
  t_Multi : bool;
  t_Watch : bool;
  t_Exec : bool;
  t_Err : option error;
  t_PendingErr : bool;
  t_Timestamp : Z;
  t_Now : Z;
  t_ListLID : Z;
  t_ListRID : Z;
  t_Config : option Config;
  t_UserId : Z;
  t_DBId : Z;
  t_PendingReq : list (list bytes);
  t_draws : Z
}.

(** A run of a handler returns a value and the transaction, or ends in a Go panic, or
    (for the loops written with fuel) does not end. *)
Inductive Out `{Platform} (A : Type) :=
  | Ret (a : A) (t : Txn)
  | Panic
  | Diverge.
Arguments Ret {_ _} _ _.
Arguments Panic {_ _}.
Arguments Diverge {_ _}.

Definition M `{Platform} (A : Type) : Type := Txn -> Out A.

Section monad.
Context `{Platform}.

Definition ret {A} (a : A) : M A := fun t => Ret a t.
Definition bind {A B} (m : M A) (k : A -> M B) : M B :=
  fun t => match m t with
           | Ret a t => k a t
           | Panic => Panic
           | Diverge => Diverge
           end.
Definition panic {A} : M A := fun _ => Panic.
Definition diverge {A} : M A := fun _ => Diverge.
Definition get_txn : M Txn := fun t => Ret t t.
Definition modify (f : Txn -> Txn) : M unit := fun t => Ret tt (f t).

Definition with_txn (kv : option KV) (t : Txn) : Txn :=
  {| t_txn := kv; t_Multi := t_Multi t; t_Watch := t_Watch t; t_Exec := t_Exec t;
     t_Err := t_Err t; t_PendingErr := t_PendingErr t; t_Timestamp := t_Timestamp t;
     t_Now := t_Now t; t_ListLID := t_ListLID t; t_ListRID := t_ListRID t;
     t_Config := t_Config t; t_UserId := t_UserId t; t_DBId := t_DBId t;
     t_PendingReq := t_PendingReq t; t_draws := t_draws t |}.
Definition with_Err (e : option error) (t : Txn) : Txn :=
  {| t_txn := t_txn t; t_Multi := t_Multi t; t_Watch := t_Watch t; t_Exec := t_Exec t;
     t_Err := e; t_PendingErr := t_PendingErr t; t_Timestamp := t_Timestamp t;
     t_Now := t_Now t; t_ListLID := t_ListLID t; t_ListRID := t_ListRID t;
     t_Config := t_Config t; t_UserId := t_UserId t; t_DBId := t_DBId t;
     t_PendingReq := t_PendingReq t; t_draws := t_draws t |}.
Definition with_draws (n : Z) (t : Txn) : Txn :=
  {| t_txn := t_txn t; t_Multi := t_Multi t; t_Watch := t_Watch t; t_Exec := t_Exec t;
     t_Err := t_Err t; t_PendingErr := t_PendingErr t; t_Timestamp := t_Timestamp t;
     t_Now := t_Now t; t_ListLID := t_ListLID t; t_ListRID := t_ListRID t;
     t_Config := t_Config t; t_UserId := t_UserId t; t_DBId := t_DBId t;
     t_PendingReq := t_PendingReq t; t_draws := n |}.

(** [uuid.NewUUID()] and [rand.Int63n(m)], which panics for [m <= 0]. *)
Definition uuid_NewUUID : M (error + bytes) :=
  fun t => Ret (match NewUUID (t_draws t) with inl e => inl (UuidError e) | inr u => inr u end)
               (with_draws (t_draws t + 1) t).
Definition rand_Int63n (m : Z) : M Z :=
  fun t => if m <=? 0 then Panic
           else Ret (Int63n (t_draws t) m) (with_draws (t_draws t + 1) t).

End monad.

Declare Scope go_scope.
Delimit Scope go_scope with go.
Notation "'let!' x := m 'in' k" := (bind m (fun x => k))
  (at level 10, x pattern, m at level 100, k at level 200,
   format "'[v' 'let!'  x  :=  m  'in' '/' k ']'") : go_scope.
(** [x, err := m; if err != nil { h(err) }], and the same without a result. *)
Definition on_value `{Platform} {A B} (m : M (error + A)) (h : error -> M B) (k : A -> M B) : M B :=
  bind m (fun r => match r with inl e => h e | inr a => k a end).
Definition on_done `{Platform} {B} (m : M (option error)) (h : error -> M B) (k : M B) : M B :=
  bind m (fun r => match r with Some e => h e | None => k end).
Notation "'val!' x := m 'else' h 'in' k" := (on_value m h (fun x => k))
  (at level 10, x pattern, m at level 100, h at level 100, k at level 200,
   format "'[v' 'val!'  x  :=  m  'else'  h  'in' '/' k ']'") : go_scope.
Notation "'do!' m 'else' h 'in' k" := (on_done m h k)
  (at level 10, m at level 100, h at level 100, k at level 200,
   format "'[v' 'do!'  m  'else'  h  'in' '/' k ']'") : go_scope.
#[global] Open Scope go_scope.

(** ** txn.go *)

Module TxnOps.
Section ops.
Context `{Platform}.

Definition DefaultLockWait : Z := 100.

Definition NowTime (t : Txn) : Z :=
  time_Unix (go_div (t_Now t) 1000) (go_rem (t_Now t) 1000 * 1000000).

(** [txn.Config] as the two predicates read it: without a configuration they use the
    process default. *)
Definition config_or_default (t : Txn) : Config := default GetDefaultConfig (t_Config t).
Definition IsSkipConflict (t : Txn) : bool := SkipConflict (config_or_default t).
Definition IsPessimistic (t : Txn) : bool :=
  let cfg := config_or_default t in
  if SkipConflict cfg then true else StoreIsPessimistic cfg.

(** [txn.Config.Redis], a nil dereference when there is no configuration. *)
Definition get_config : M Config :=
  fun t => match t_Config t with Some c => Ret c t | None => Panic end.

(** [ErrorEqual(err, X)] for the two lock errors is the observation [te_locknowait]
    or [te_lockwait]; [strings.HasPrefix] is on the text. *)
Definition returnErr (e : tikv_error) : error :=
  if te_conflict e then ErrKeyIsLocked
  else if te_locknowait e || te_lockwait e then ErrKeyIsLocked
  else if String.prefix "2PC prewrite lockedKeys" (te_msg e) then ErrKeyIsLocked
  else Tikv e.

(** A call on [t.txn], a nil pointer when no transaction is open. *)
Definition on_kv {A} (f : KV -> A * KV) : M A :=
  fun t => match t_txn t with
           | Some kv => let '(a, kv') := f kv in Ret a (with_txn (Some kv') t)
           | None => Panic
           end.

Definition SetError (e : error) : M error := let! _ := modify (with_Err (Some e)) in ret e.
Definition SetWrongArgs (command : string) : M error := SetError (WrongArgsError command).
Definition SetWrongSubArgs (command help : string) : M error :=
  SetError (WrongSubArgsError command help).

Definition HasTransaction (t : Txn) : bool := bool_decide (t_txn t <> None).

Definition Get (key : bytes) : M (error + bytes) :=
  if len key >=? MAX_KEY_SIZE then ret (inl (ErrExceedMaxSize : error))
  else on_kv (fun kv =>
    (match kv_Get kv key with
     | inr v => inr v
     | inl e => inl (if te_notfound e then KeyNotFound else Tikv e)
     end, kv)).

(** The pessimistic lock that [Put] and [Del] take first. *)
Definition lock_if_pessimistic (key : bytes) : M (option error) :=
  let! t := get_txn in
  if IsPessimistic t then
    let! e := on_kv (fun kv => kv_LockKeysWithWaitTime kv DefaultLockWait key) in
    ret (returnErr <$> e)
  else ret None.

Definition Put (key val : bytes) : M (option error) :=
  if len key >=? MAX_KEY_SIZE then ret (Some (ErrExceedMaxSize : error))
  else if len val >=? MAX_VALUE_SIZE then ret (Some (ErrExceedMaxSize : error))
  else
    do! lock_if_pessimistic key else (fun e => ret (Some e)) in
    let! e := on_kv (fun kv => kv_Set kv key val) in
    ret (returnErr <$> e).

Definition Del (key : bytes) : M (option error) :=
  if len key >=? MAX_KEY_SIZE then ret (Some (ErrExceedMaxSize : error))
  else
    do! lock_if_pessimistic key else (fun e => ret (Some e)) in
    let! e := on_kv (fun kv => kv_Delete kv key) in
    ret (returnErr <$> e).

Definition LockKeys (keys : list bytes) : M (option error) :=
  if existsb (fun k => len k >=? MAX_KEY_SIZE) keys then ret (Some (ErrExceedMaxSize : error))
  else
    let! e := on_kv (fun kv => kv_LockKeys kv keys) in
    ret (returnErr <$> e).

(** [Txn.Iter] (the scan batch size only affects how entries are fetched). *)
Definition IterOf (start end_ : bytes) (reversed : bool) : M (error + Iter) :=
  on_kv (fun kv =>
    (match (if negb reversed then kv_Iter kv start end_ else kv_IterReverse kv end_) with
     | inr it => inr it
     | inl e => inl (Tikv e)
     end, kv)).

(** A callback of [List] closes over mutable variables: it takes and returns their
    state [S] beside its boolean. *)
Definition Callback (S : Type) : Type := S -> bytes -> bytes -> M (S * bool).

Fixpoint List_loop {S} (fuel : nat) (start end_ : bytes) (limit : Z) (cb : Callback S)
    (it : Iter) (count : Z) (s : S) : M (S * option error) :=
  match fuel with
  | O => diverge
  | Datatypes.S fuel =>
      if negb (it_Valid it) then ret (s, None)
      else
        let key := it_Key it in
        if bytes_ltb key start || bytes_leb end_ key then ret (s, None)
        else
          let! (s, ok) := cb s key (it_Value it) in
          if negb ok then ret (s, None)
          else
            let count := count + 1 in
            if (limit >? 0) && (count >=? limit) then ret (s, Some ReachLimit)
            else match it_Next it with
                 | (Some e, _) => ret (s, Some (Tikv e))
                 | (None, it) => List_loop fuel start end_ limit cb it count s
                 end
  end.

(** [Txn.List]: bounds given in descending order ask for the entries in descending
    order. *)
Definition List {S} (start end_ : bytes) (limit : Z) (cb : Callback S) (s : S) :
    M (S * option error) :=
  let reversed := bytes_ltb end_ start in
  let '(start, end_) := if reversed then (end_, start) else (start, end_) in
  let! r := IterOf start end_ reversed in
  match r with
  | inl e => ret (s, Some e)
  | inr it => List_loop (Datatypes.S (it_size it)) start end_ limit cb it 0 s
  end.

(** [Iterator.DeleteUntil]: [key] is the last key looked at, [nil] if there is none. *)
Fixpoint DeleteUntil_loop {S} (fuel : nat) (start end_ : bytes) (limit : Z) (cb : Callback S)
    (it : Iter) (key : bytes) (count : Z) (s : S) : M (S * (bytes * Z * option error)) :=
  match fuel with
  | O => diverge
  | Datatypes.S fuel =>
      if negb (it_Valid it) then ret (s, (key, count, None))
      else
        let key := it_Key it in
        if bytes_ltb key start || bytes_leb end_ key then ret (s, (key, count, None))
        else
          let! (s, ok) := cb s key (it_Value it) in
          if negb ok then ret (s, (key, count, None))
          else
            let! e := Del key in
            match e with
            | Some e => ret (s, (key, count, Some e))
            | None =>
                let count := count + 1 in
                if (limit >? 0) && (count >=? limit) then ret (s, (key, count, None))
                else match it_Next it with
                     | (Some e, _) => ret (s, (key, count, Some (Tikv e)))
                     | (None, it) => DeleteUntil_loop fuel start end_ limit cb it key count s
                     end
            end
  end.

Definition DeleteUntil {S} (it : Iter) (start end_ : bytes) (limit : Z) (cb : Callback S) (s : S) :
    M (S * (bytes * Z * option error)) :=
  DeleteUntil_loop (Datatypes.S (it_size it)) start end_ limit cb it [] 0 s.

(** *** Begin, Commit, Rollback *)

Definition with_begin (kv : KV) (t : Txn) : Txn :=
  {| t_txn := Some kv; t_Multi := t_Multi t; t_Watch := t_Watch t; t_Exec := t_Exec t;
     t_Err := t_Err t; t_PendingErr := t_PendingErr t; t_Timestamp := kv_StartTS kv;
     t_Now := ExtractPhysical (kv_StartTS kv); t_ListLID := 0; t_ListRID := 0;
     t_Config := t_Config t; t_UserId := t_UserId t; t_DBId := t_DBId t;
     t_PendingReq := t_PendingReq t; t_draws := t_draws t |}.

Definition Begin (c : Cluster) (t : Txn) : Txn * option error :=
  match cl_Begin c with
  | inl e => (t, Some (Tikv e))
  | inr tx =>
      let tx := if IsPessimistic t then kv_SetPessimistic tx true else tx in
      (with_begin tx t, None)
  end.

Definition Rollback (t : Txn) : Txn := with_txn None t.

Definition Commit (c : Cluster) (t : Txn) : Cluster * Txn * option error :=
  match t_txn t with
  | None => (c, t, None)
  | Some kv =>
      let '(c, e) := kv_Commit c kv in
      match e with
      | Some e => (c, Rollback t, Some (returnErr e))
      | None => (c, with_txn None t, None)
      end
  end.

End ops.
End TxnOps.
Export TxnOps.

(** ** Reasoning about runs *)

(** [wp m t Q]: the run of [m] from [t] returns (it neither panics nor diverges), and
    its result and final transaction satisfy [Q]. *)
Section wp.
Context `{Platform}.

Definition wp {A} (m : M A) (t : Txn) (Q : A -> Txn -> Prop) : Prop :=
  match m t with Ret a t' => Q a t' | _ => False end.

Lemma wp_ret {A} (a : A) t (Q : A -> Txn -> Prop) : Q a t -> wp (ret a) t Q.
Proof. done. Qed.

Lemma wp_bind {A B} (m : M A) (k : A -> M B) t Q :
  wp m t (fun a t' => wp (k a) t' Q) -> wp (bind m k) t Q.
Proof. unfold wp, bind. by destruct (m t). Qed.

Lemma wp_mono {A} (m : M A) t (Q Q' : A -> Txn -> Prop) :
  wp m t Q -> (forall a t', Q a t' -> Q' a t') -> wp m t Q'.
Proof. unfold wp. destruct (m t); eauto. Qed.

Lemma wp_get_txn t (Q : Txn -> Txn -> Prop) : Q t t -> wp get_txn t Q.
Proof. done. Qed.

Lemma wp_modify f t (Q : unit -> Txn -> Prop) : Q tt (f t) -> wp (modify f) t Q.
Proof. done. Qed.

Lemma wp_on_value {A B} (m : M (error + A)) h (k : A -> M B) t Q :
  wp m t (fun r t' => match r with inl e => wp (h e) t' Q | inr a => wp (k a) t' Q end) ->
  wp (on_value m h k) t Q.
Proof. intros Hm. apply wp_bind. eapply wp_mono; [done|]. by intros [e|a]. Qed.

Lemma wp_on_done {B} (m : M (option error)) h (k : M B) t Q :
  wp m t (fun r t' => match r with Some e => wp (h e) t' Q | None => wp k t' Q end) ->
  wp (on_done m h k) t Q.
Proof. intros Hm. apply wp_bind. eapply wp_mono; [done|]. by intros [e|]. Qed.

(** A run that satisfies a [wp] returns. *)
Lemma wp_returns {A} (m : M A) t Q : wp m t Q -> exists a t', m t = Ret a t' /\ Q a t'.
Proof. unfold wp. destruct (m t) as [a t'| |]; [eauto|done|done]. Qed.

Lemma returns_wp {A} (m : M A) t a t' (Q : A -> Txn -> Prop) : m t = Ret a t' -> Q a t' -> wp m t Q.
Proof. unfold wp. by intros ->. Qed.

Lemma wp_SetError e t (Q : error -> Txn -> Prop) :
  Q e (with_Err (Some e) t) -> wp (SetError e) t Q.
Proof. done. Qed.

End wp.

(** Two transactions that differ only in the TiKV transaction and the draws. *)
Record same_env `{Platform} (t t' : Txn) : Prop := {
  se_Multi : t_Multi t' = t_Multi t;
  se_Watch : t_Watch t' = t_Watch t;
  se_Exec : t_Exec t' = t_Exec t;
  se_Err : t_Err t' = t_Err t;
  se_PendingErr : t_PendingErr t' = t_PendingErr t;
  se_Timestamp : t_Timestamp t' = t_Timestamp t;
  se_Now : t_Now t' = t_Now t;
  se_ListLID : t_ListLID t' = t_ListLID t;
  se_ListRID : t_ListRID t' = t_ListRID t;
  se_Config : t_Config t' = t_Config t;
  se_UserId : t_UserId t' = t_UserId t;
  se_DBId : t_DBId t' = t_DBId t;
  se_PendingReq : t_PendingReq t' = t_PendingReq t;
  se_start : kv_StartTS <$> t_txn t' = kv_StartTS <$> t_txn t
}.

Lemma same_env_with_txn `{Platform} t kv kv' :
  t_txn t = Some kv -> kv_StartTS kv' = kv_StartTS kv -> same_env t (with_txn (Some kv') t).
Proof. intros E Es. split; try done. rewrite E. cbn. by rewrite Es. Qed.

#[export] Instance same_env_preorder `{Platform} : PreOrder same_env.
Proof.
  split; [by intros t; split|].
  intros t1 t2 t3 [] []. split; congruence.
Qed.

Section up.
Context `{PlatformSpec}.

(** What the transaction reads, and that TiKV is up. *)
Definition t_view (t : Txn) : gmap bytes bytes :=
  match t_txn t with Some kv => kv_view kv | None => ∅ end.
Definition t_up (t : Txn) : Prop :=
  match t_txn t with Some kv => kv_up kv | None => False end.

(** [t'] is [t] after writes that lead to the view [v]. *)
Record wrote (t t' : Txn) (v : gmap bytes bytes) : Prop := {
  wr_env : same_env t t';
  wr_up : t_up t';
  wr_view : t_view t' = v
}.

Lemma wrote_refl t : t_up t -> wrote t t (t_view t).
Proof. intros. by split. Qed.

Lemma wrote_trans t1 t2 t3 v2 v3 : wrote t1 t2 v2 -> wrote t2 t3 v3 -> wrote t1 t3 v3.
Proof. intros [] []. split; [by etrans|done|done]. Qed.

Lemma with_txn_id t kv : t_txn t = Some kv -> with_txn (Some kv) t = t.
Proof. destruct t; simpl. by intros ->. Qed.

Lemma wp_Get key t (Q : error + bytes -> Txn -> Prop) :
  t_up t -> len key < MAX_KEY_SIZE ->
  Q (match t_view t !! key with Some v => inr v | None => inl KeyNotFound end) t ->
  wp (Get key) t Q.
Proof.
  intros Hup Hk HQ. unfold Get. destruct (Z.geb_spec (len key) MAX_KEY_SIZE); [lia|].
  unfold wp, on_kv, t_up, t_view in *. destruct (t_txn t) as [kv|] eqn:E; [|done].
  pose proof (kv_Get_up kv key Hup) as Hg.
  rewrite (with_txn_id _ _ E). destruct (kv_view kv !! key).
  - by rewrite Hg.
  - destruct Hg as (e&->&->). done.
Qed.

Lemma wp_lock key t (Q : option error -> Txn -> Prop) :
  t_up t -> (forall t', wrote t t' (t_view t) -> Q None t') -> wp (lock_if_pessimistic key) t Q.
Proof.
  intros Hup HQ. unfold lock_if_pessimistic. apply wp_bind, wp_get_txn.
  destruct (IsPessimistic t); [|by apply wp_ret, HQ, wrote_refl].
  apply wp_bind. unfold wp, on_kv, t_up, t_view in *.
  destruct (t_txn t) as [kv|] eqn:E; [|done].
  destruct (kv_LockWait_up kv DefaultLockWait key Hup) as (kv'&Hl&Hu). rewrite Hl. simpl.
  apply HQ. split; [by eapply same_env_with_txn, kv_LockWait_start|done|].
  unfold t_view; simpl. by eapply kv_LockWait_ok.
Qed.

Lemma wp_Put key val t (Q : option error -> Txn -> Prop) :
  t_up t -> len key < MAX_KEY_SIZE -> 0 < len val < MAX_VALUE_SIZE ->
  (forall t', wrote t t' (<[key := val]> (t_view t)) -> Q None t') -> wp (Put key val) t Q.
Proof.
  intros Hup Hk Hv HQ. unfold Put.
  destruct (Z.geb_spec (len key) MAX_KEY_SIZE); [lia|].
  destruct (Z.geb_spec (len val) MAX_VALUE_SIZE); [lia|].
  apply wp_on_done, wp_lock; [done|]. intros t1 [He Hu Hw].
  unfold wp, bind, on_kv, t_up in *. destruct (t_txn t1) as [kv|] eqn:E; [|done].
  destruct (kv_Set_up kv key val Hu) as (kv'&Hs&Hu'); [intros ->; unfold len in Hv; simpl in Hv; lia|]. rewrite Hs.
  apply HQ. split; [etrans; [done|by eapply same_env_with_txn, kv_Set_start]|done|].
  unfold t_view in Hw at 1. rewrite E in Hw. unfold t_view at 1; simpl.
  rewrite <- Hw. by apply kv_Set_ok.
Qed.

Lemma wp_Del key t (Q : option error -> Txn -> Prop) :
  t_up t -> len key < MAX_KEY_SIZE ->
  (forall t', wrote t t' (delete key (t_view t)) -> Q None t') -> wp (Del key) t Q.
Proof.
  intros Hup Hk HQ. unfold Del.
  destruct (Z.geb_spec (len key) MAX_KEY_SIZE); [lia|].
  apply wp_on_done, wp_lock; [done|]. intros t1 [He Hu Hw].
  unfold wp, bind, on_kv, t_up in *. destruct (t_txn t1) as [kv|] eqn:E; [|done].
  destruct (kv_Delete_up kv key Hu) as (kv'&Hs&Hu'). rewrite Hs.
  apply HQ. split; [etrans; [done|by eapply same_env_with_txn, kv_Delete_start]|done|].
  unfold t_view in Hw at 1. rewrite E in Hw. unfold t_view at 1; simpl.
  rewrite <- Hw. by apply kv_Delete_ok.
Qed.

Lemma wp_get_config c t (Q : Config -> Txn -> Prop) :
  t_Config t = Some c -> Q c t -> wp get_config t Q.
Proof. unfold wp, get_config. by intros ->. Qed.

(** Keys and values past the limits are refused before TiKV is called. *)
Lemma Put_too_large key val t :
  MAX_KEY_SIZE <= len key \/ MAX_VALUE_SIZE <= len val ->
  Put key val t = Ret (Some (ErrExceedMaxSize : error)) t.
Proof.
  intros Hs. unfold Put. destruct (Z.geb_spec (len key) MAX_KEY_SIZE); [done|].
  destruct (Z.geb_spec (len val) MAX_VALUE_SIZE); [done|lia].
Qed.

(** *** Listing as a traversal of the entries *)

(** The loop of [List] on the entries themselves, without the iterator. *)
Fixpoint List_on {S} (start end_ : bytes) (limit : Z) (cb : Callback S)
    (l : list (bytes * bytes)) (count : Z) (s : S) : M (S * option error) :=
  match l with
  | [] => ret (s, None)
  | (key, v) :: l =>
      if bytes_ltb key start || bytes_leb end_ key then ret (s, None)
      else
        let! (s, ok) := cb s key v in
        if negb ok then ret (s, None)
        else
          let count := count + 1 in
          if (limit >? 0) && (count >=? limit) then ret (s, Some ReachLimit)
          else List_on start end_ limit cb l count s
  end.

Lemma bind_ext {A B} (m : M A) (k1 k2 : A -> M B) t :
  (forall a t', k1 a t' = k2 a t') -> bind m k1 t = bind m k2 t.
Proof. intros Hk. unfold bind. by destruct (m t). Qed.

Lemma List_loop_on {S} fuel start end_ limit (cb : Callback S) it count s t :
  it_up it -> (length (it_list it) < fuel)%nat ->
  List_loop fuel start end_ limit cb it count s t =
  List_on start end_ limit cb (it_list it) count s t.
Proof.
  revert it count s t. induction fuel as [|fuel IH]; intros it count s t Hup Hf; [lia|].
  cbn [List_loop]. rewrite it_Valid_list.
  destruct (it_list it) as [|[k v] l] eqn:E; [done|]. cbn [negb List_on].
  destruct (it_Key_list _ _ _ _ E) as [-> ->].
  destruct (bytes_ltb k start || bytes_leb end_ k); [done|].
  apply bind_ext. intros [s' ok] t'. destruct ok; [|done]. cbn [negb].
  destruct ((limit >? 0) && (count + 1 >=? limit)); [done|].
  destruct (it_Next_up it Hup) as (it'&->&Hup'&E'). rewrite E in E'. simpl in E'.
  rewrite <- E'. apply IH; [done|]. rewrite E'. simpl in Hf. lia.
Qed.

Lemma IterOf_up start end_ (reversed : bool) t :
  t_up t -> exists it, IterOf start end_ reversed t = Ret (inr it) t /\ it_up it /\
    it_list it = if reversed then rev (range_entries [] end_ (t_view t))
                 else range_entries start end_ (t_view t).
Proof.
  intros Hup. unfold IterOf, on_kv, t_view, t_up in *.
  destruct (t_txn t) as [kv|] eqn:E; [|done].
  destruct reversed; simpl.
  - destruct (kv_IterReverse_up kv end_ Hup) as (it&->&?&?). exists it.
    by rewrite (with_txn_id _ _ E).
  - destruct (kv_Iter_up kv start end_ Hup) as (it&->&?&?). exists it.
    by rewrite (with_txn_id _ _ E).
Qed.

Lemma List_forward {S} start end_ limit (cb : Callback S) s t :
  t_up t -> bytes_ltb end_ start = false ->
  List start end_ limit cb s t = List_on start end_ limit cb (range_entries start end_ (t_view t)) 0 s t.
Proof.
  intros Hup E. unfold List. rewrite E. destruct (IterOf_up start end_ false t Hup) as (it&Hi&Hu&Hl).
  unfold bind. rewrite Hi. rewrite <- Hl. apply List_loop_on; [done|].
  pose proof (it_size_list it). lia.
Qed.

Lemma List_backward {S} start end_ limit (cb : Callback S) s t :
  t_up t -> bytes_ltb end_ start = true ->
  List start end_ limit cb s t = List_on end_ start limit cb (rev (range_entries [] start (t_view t))) 0 s t.
Proof.
  intros Hup E. unfold List. rewrite E. destruct (IterOf_up end_ start true t Hup) as (it&Hi&Hu&Hl).
  unfold bind. rewrite Hi. rewrite <- Hl. apply List_loop_on; [done|].
  pose proof (it_size_list it). lia.
Qed.

(** C37. While TiKV is up, [Txn.List] terminates and is the traversal of the entries of
    the transaction's view between its bounds, in ascending key order, or in
    descending order when the bounds are given in descending order. *)
Theorem List_traverses {S} start end_ limit (cb : Callback S) s t :
  t_up t ->
  List start end_ limit cb s t =
  if bytes_ltb end_ start
  then List_on end_ start limit cb (rev (range_entries [] start (t_view t))) 0 s t
  else List_on start end_ limit cb (range_entries start end_ (t_view t)) 0 s t.
Proof. intros Hup. destruct (bytes_ltb end_ start) eqn:E; [by apply List_backward|by apply List_forward]. Qed.

End up.
