(* ===== verification/Ranges.v ===== *)
(** Ranges of keys: the entries of a range in key order, ranges of a prefix, and
    listings whose callback only accumulates. *)

From S2P Require Import Prelude Xerror GoStd Utils Store.
From stdpp Require Import sorting.
From Stdlib Require Import Init.Byte.

#[local] Open Scope Z_scope.

(** ** The entries of a range *)

#[export] Instance entry_le_trans : Transitive entry_le.
Proof. intros x y z. apply ble_trans. Qed.

#[export] Instance entry_le_total : Total entry_le.
Proof.
  intros x y. unfold entry_le. destruct (decide (ble (fst x) (fst y))) as [|Hn]; [by left|].
  right. apply blt_ble, blt_not_ble. done.
Qed.

Lemma below_spec k e : below k e = true <-> e = [] \/ blt k e.
Proof.
  destruct e as [|b e]; simpl; [intuition|]. rewrite bytes_ltb_spec. intuition congruence.
Qed.

Lemma elem_of_range_entries s e m k v :
  (k, v) ∈ range_entries s e m <-> m !! k = Some v /\ ble s k /\ below k e = true.
Proof.
  unfold range_entries. rewrite merge_sort_Permutation, list_elem_of_filter, elem_of_map_to_list.
  simpl. rewrite andb_true_iff, bytes_leb_spec. intuition.
Qed.

Definition entry_lt (x y : bytes * bytes) : Prop := blt (fst x) (fst y).

Lemma range_entries_NoDup s e m : NoDup (fst <$> range_entries s e m).
Proof.
  unfold range_entries. rewrite merge_sort_Permutation.
  apply NoDup_fmap_fst.
  - intros k v1 v2. rewrite !list_elem_of_filter, !elem_of_map_to_list.
    intros [_ H1] [_ H2]. congruence.
  - apply NoDup_filter, NoDup_map_to_list.
Qed.

Lemma StronglySorted_sublist {A} (R : relation A) (P : A -> Prop) `{!forall x, Decision (P x)} l :
  StronglySorted R l -> StronglySorted R (base.filter P l).
Proof.
  induction 1 as [|x l Hl IH Hx]; [constructor|]. rewrite filter_cons. destruct (decide (P x)); [|done].
  constructor; [done|]. rewrite Forall_forall in *. intros y [_ Hy]%list_elem_of_filter. by apply Hx.
Qed.

Lemma filter_none {A} (P : A -> Prop) `{!forall x, Decision (P x)} l :
  Forall (fun x => ~ P x) l -> base.filter P l = [].
Proof. induction 1; [done|]. by rewrite filter_cons_False. Qed.

Lemma filter_all {A} (P : A -> Prop) `{!forall x, Decision (P x)} (l : list A) :
  (forall x, x ∈ l -> P x) -> base.filter P l = l.
Proof.
  induction l as [|x l IH]; intros Hl; [done|]. rewrite filter_cons_True by (apply Hl; by left).
  f_equal. apply IH. intros y Hy. apply Hl. by right.
Qed.

(** The entries come in strictly ascending key order. *)
Lemma range_entries_sorted s e m : StronglySorted entry_lt (range_entries s e m).
Proof.
  assert (Hs : StronglySorted entry_le (range_entries s e m))
    by (unfold range_entries; apply StronglySorted_merge_sort; apply _).
  pose proof (range_entries_NoDup s e m) as Hn. revert Hs Hn.
  generalize (range_entries s e m). intros l. induction l as [|x l IH]; [constructor|].
  intros Hs Hn. apply StronglySorted_inv in Hs as [Hs Hf].
  cbn [fmap list_fmap] in Hn. apply NoDup_cons in Hn as [Hni Hn].
  constructor; [by apply IH|].
  rewrite Forall_forall in Hf |- *. intros y Hy. specialize (Hf y Hy).
  unfold entry_le, entry_lt in *. apply ble_lt_eq in Hf as [|Heq]; [done|].
  exfalso. apply Hni. rewrite Heq. by apply list_elem_of_fmap_2.
Qed.


Lemma elem_in_range s e m k v : (k, v) ∈ range_entries s e m -> ble s k /\ below k e = true.
Proof. rewrite elem_of_range_entries. tauto. Qed.

(** *** Ranges under updates *)

Definition in_range (s e k : bytes) : bool := bytes_leb s k && below k e.

Lemma in_range_spec s e k : in_range s e k = true <-> ble s k /\ below k e = true.
Proof. unfold in_range. by rewrite andb_true_iff, bytes_leb_spec. Qed.

Lemma range_entries_insert s e m k v : m !! k = None ->
  range_entries s e (<[k := v]> m) ≡ₚ
  (if in_range s e k then [(k, v)] else []) ++ range_entries s e m.
Proof.
  intros Hk. unfold range_entries. rewrite !merge_sort_Permutation, map_to_list_insert by done.
  rewrite filter_cons. cbn [fst]. fold (in_range s e k).
  by destruct (in_range s e k); [rewrite decide_True|rewrite decide_False].
Qed.

Lemma range_entries_delete s e m k v : m !! k = Some v ->
  range_entries s e m ≡ₚ
  (if in_range s e k then [(k, v)] else []) ++ range_entries s e (delete k m).
Proof.
  intros Hk. rewrite <- range_entries_insert by apply lookup_delete_eq.
  by rewrite insert_delete_id.
Qed.

(** An update outside the range does not show. *)
Lemma range_entries_eq s e m m' :
  (forall k, in_range s e k = true -> m !! k = m' !! k) -> range_entries s e m = range_entries s e m'.
Proof.
  intros Hm. apply (StronglySorted_unique_strong entry_le).
  - intros [k1 v1] [k2 v2] H1 H2 L1 L2. apply elem_of_range_entries in H1, H2.
    assert (k1 = k2) as ->.
    { apply bytes_compare_eq. unfold entry_le, ble in *. cbn [fst] in *.
      rewrite (bytes_compare_antisym k2) in L2. by destruct (bytes_compare k1 k2). }
    destruct H1 as (E1&Hr), H2 as (E2&_). rewrite Hm in E1 by by apply in_range_spec. congruence.
  - apply StronglySorted_merge_sort; apply _.
  - apply StronglySorted_merge_sort; apply _.
  - apply NoDup_Permutation.
    + eapply NoDup_fmap_1, range_entries_NoDup.
    + eapply NoDup_fmap_1, range_entries_NoDup.
    + intros [k v]. rewrite !elem_of_range_entries, <- in_range_spec.
      split; intros [E Hr]; split; try done; [rewrite <- Hm|rewrite Hm]; done.
Qed.

(** ** Ranges of a prefix *)

Lemma PrefixNext_app a b :
  ~ Forall (fun x => x = xff) b -> Bytes.PrefixNext (a ++ b) = a ++ Bytes.PrefixNext b.
Proof.
  intros Hb. unfold Bytes.PrefixNext. rewrite rev_app_distr.
  assert (forall l r, ~ Forall (fun x => x = xff) l ->
    Bytes.incr_rev (l ++ r) = (fst (Bytes.incr_rev l) ++ r, true) /\ snd (Bytes.incr_rev l) = true) as Hg.
  { clear. induction l as [|x l IH]; intros r Hl; [by destruct Hl|]. cbn [app Bytes.incr_rev].
    destruct (negb (b2z (z2b (b2z x + 1)) =? 0)) eqn:E; [done|].
    destruct (IH r) as [-> Hs].
    - intros Hf. apply Hl. constructor; [|done]. apply (inj b2z). change (b2z xff) with 255.
      rewrite b2z_z2b in E. apply negb_false_iff, Z.eqb_eq in E. pose proof (b2z_range x).
      destruct (Z.eq_dec (b2z x) 255); [done|]. rewrite Z.mod_small in E; lia.
    - destruct (Bytes.incr_rev l). cbn [fst snd] in *. by subst. }
  destruct (Hg (rev b) (rev a)) as [-> Hs].
  { intros Hf. apply Hb. rewrite <- (rev_involutive b), (rev_is_reverse (rev b)). by apply Forall_reverse. }
  destruct (Bytes.incr_rev (rev b)). cbn [fst snd] in *. subst.
  by rewrite rev_app_distr, rev_involutive.
Qed.

(** What lies between two slices with a common head has that head. *)
Lemma between_prefix a b c k : ble (a ++ b) k -> blt k (a ++ c) -> has_prefix a k = true.
Proof.
  rewrite has_prefix_spec. revert k. induction a as [|x a IH]; intros k H1 H2; [by exists k|].
  destruct k as [|y k]; [done|]. unfold ble, blt in *. cbn [app bytes_compare] in *.
  rewrite (Z.compare_antisym (b2z x)) in H2.
  destruct (Z.compare_spec (b2z x) (b2z y)) as [E|E|E]; [|done|done].
  apply (inj b2z) in E as ->. destruct (IH k H1 H2) as [d ->]. by exists d.
Qed.

Lemma PrefixNext_nonempty p : Bytes.PrefixNext p <> [].
Proof.
  unfold Bytes.PrefixNext. destruct (Bytes.incr_rev (rev p)) as [l brk] eqn:E.
  destruct brk; [|by destruct p].
  intros Hn. apply (f_equal (@length _)) in Hn. rewrite length_rev in Hn. destruct l; [|done].
  destruct (rev p) as [|b r]; [done|]. simpl in E.
  destruct (negb _); [done|]. by destruct (Bytes.incr_rev r).
Qed.

Lemma below_PrefixNext k p : below k (Bytes.PrefixNext p) = bytes_ltb k (Bytes.PrefixNext p).
Proof. pose proof (PrefixNext_nonempty p). by destruct (Bytes.PrefixNext p). Qed.

(** The key [p] is in its own range. *)
Lemma PrefixNext_gt p : ~ Forall (fun x => x = xff) p -> blt p (Bytes.PrefixNext p).
Proof.
  intros Hp. apply Bytes.has_prefix_in_range; [done|]. apply has_prefix_spec. exists [].
  by rewrite app_nil_r.
Qed.

(** ** Listings that only accumulate *)

Section pure.
Context `{PlatformSpec}.

Lemma List_on_pure {S} start end_ limit (cb : Callback S) f l count s t :
  0 < limit -> 0 <= count < limit -> end_ <> [] ->
  (forall k v, (k, v) ∈ l -> ble start k /\ below k end_ = true /\
     forall s, cb s k v t = Ret (f s k v, true) t) ->
  List_on start end_ limit cb l count s t =
  Ret (foldl (fun s e => f s (fst e) (snd e)) s (take (Z.to_nat (limit - count)) l),
       if limit - count <=? len l then Some ReachLimit else None) t.
Proof.
  intros Hlim. revert count s. induction l as [|[k v] l IH]; intros count s Hc He Hl.
  - rewrite take_nil. destruct (Z.leb_spec (limit - count) (len (@nil (bytes * bytes)))) as [Hx|]; [|done].
    unfold len in Hx; simpl in Hx. lia.
  - cbn [List_on]. destruct (Hl k v) as (Hs&Hb&Hcb); [by left|].
    apply bytes_leb_spec in Hs.
    assert (bytes_ltb k start || bytes_leb end_ k = false) as ->.
    { unfold below in Hb. destruct end_ as [|b e]; [done|]. apply bytes_ltb_spec, blt_not_ble in Hb.
      apply orb_false_iff; split; apply not_true_iff_false; rewrite ?bytes_leb_spec, ?bytes_ltb_spec; [|done].
      rewrite blt_not_ble. intros Hn. by apply Hn, bytes_leb_spec. }
    unfold bind. rewrite Hcb. cbn [negb].
    destruct (Z.gtb_spec limit 0); [|lia]. cbn [andb].
    destruct (Z.to_nat (limit - count)) as [|n] eqn:En; [lia|]. cbn [take foldl fst snd].
    rewrite len_cons.
    destruct (Z.geb_spec (count + 1) limit).
    + assert (n = 0%nat) as -> by lia. rewrite take_0. pose proof (len_nonneg l).
      destruct (Z.leb_spec (limit - count) (1 + len l)); [done|lia].
    + rewrite IH by (first [done|lia|intros; apply Hl; by right]).
      replace (Z.to_nat (limit - (count + 1))) with n by lia.
      by replace (limit - (count + 1) <=? len l) with (limit - count <=? 1 + len l) by lia.
Qed.

(** A listing in ascending order with an accumulating callback folds over the entries
    of its range, up to the limit. *)
Lemma List_pure {S} start end_ limit (cb : Callback S) f s t :
  t_up t -> 0 < limit -> end_ <> [] -> ble start end_ ->
  (forall k v, t_view t !! k = Some v -> ble start k -> below k end_ = true ->
     forall s, cb s k v t = Ret (f s k v, true) t) ->
  List start end_ limit cb s t =
  Ret (foldl (fun s e => f s (fst e) (snd e)) s
         (take (Z.to_nat limit) (range_entries start end_ (t_view t))),
       if limit <=? len (range_entries start end_ (t_view t)) then Some ReachLimit else None) t.
Proof.
  intros Hup Hl He Hse Hcb. unfold List.
  assert (bytes_ltb end_ start = false) as ->.
  { apply not_true_iff_false. rewrite bytes_ltb_spec, blt_not_ble. tauto. }
  destruct (IterOf_up start end_ false t Hup) as (it&Hi&Hu&Hil).
  unfold bind. rewrite Hi. rewrite List_loop_on by (first [done | pose proof (it_size_list it); lia]).
  rewrite Hil. rewrite (List_on_pure start end_ limit cb f) by
    (first [done | lia | intros k v [Hm [H1 H2]]%elem_of_range_entries; eauto]).
  by rewrite Z.sub_0_r.
Qed.

End pure.
