(* ===== verification/Mem.v ===== *)
(** An ordered map in memory as a [Platform]: it satisfies [PlatformSpec], so the
    assumptions on TiKV are consistent, and the witnesses run the handlers on it. *)

From S2P Require Import Prelude Xerror GoStd Utils Store Ranges.
From stdpp Require Import sorting.

#[local] Open Scope Z_scope.

(** ** The platform *)

Record memkv := { mk_view : gmap bytes bytes; mk_ts : Z; mk_down : option tikv_error }.
Record memcluster := { mc_data : gmap bytes bytes; mc_ts : Z; mc_down : option tikv_error }.

Definition not_found : tikv_error :=
  {| te_notfound := true; te_conflict := false; te_locknowait := false; te_lockwait := false;
     te_msg := "not exist" |}.
Definition nil_value : tikv_error :=
  {| te_notfound := false; te_conflict := false; te_locknowait := false; te_lockwait := false;
     te_msg := "can not set nil value" |}.
Definition write_conflict : tikv_error :=
  {| te_notfound := false; te_conflict := true; te_locknowait := false; te_lockwait := false;
     te_msg := "write conflict" |}.

Definition with_view (kv : memkv) (v : gmap bytes bytes) : memkv :=
  {| mk_view := v; mk_ts := mk_ts kv; mk_down := mk_down kv |}.

(** A call fails when the store is down. *)
Definition if_up {A} (kv : memkv) (r : A) (down : tikv_error -> A) : A :=
  match mk_down kv with Some e => down e | None => r end.

(** Timestamps have 64 bits and lie after 1970. *)
Definition clamp_ts (ts : Z) : Z := Z.max (2 ^ 18) (Z.min ts (2 ^ 64 - 1)).

(** Whether a commit finds that another one came after its start; [mc_ts] is the time
    of the last commit. *)
Definition stale (c : memcluster) (kv : memkv) : bool := clamp_ts (mk_ts kv) <? clamp_ts (mc_ts c).

#[export] Instance mem_platform : Platform := {|
  KV := memkv;
  Iter := list (bytes * bytes);
  Cluster := memcluster;
  GetDefaultConfig := initial_config;
  NewUUID n := inr (be_put 16 (n + 1));
  Int63n n m := n mod m;
  ExtractPhysical ts := Z.shiftr ts 18;
  kv_Get kv k :=
    match mk_down kv, mk_view kv !! k with
    | Some e, _ => inl {| te_notfound := false; te_conflict := te_conflict e;
                          te_locknowait := te_locknowait e; te_lockwait := te_lockwait e;
                          te_msg := te_msg e |}
    | None, Some v => inr v
    | None, None => inl not_found
    end;
  kv_Set kv k v :=
    match mk_down kv, v with
    | Some e, _ => (Some e, kv)
    | None, [] => (Some nil_value, kv)
    | None, _ => (None, with_view kv (<[k := v]> (mk_view kv)))
    end;
  kv_Delete kv k := if_up kv (None, with_view kv (delete k (mk_view kv))) (fun e => (Some e, kv));
  kv_LockKeysWithWaitTime kv w k := if_up kv (None, kv) (fun e => (Some e, kv));
  kv_LockKeys kv ks := if_up kv (None, kv) (fun e => (Some e, kv));
  kv_Iter kv s e := if_up kv (inr (range_entries s e (mk_view kv))) inl;
  kv_IterReverse kv e := if_up kv (inr (rev (range_entries [] e (mk_view kv)))) inl;
  it_Valid it := negb (bool_decide (it = []));
  it_Key it := match it with [] => [] | (k, _) :: _ => k end;
  it_Value it := match it with [] => [] | (_, v) :: _ => v end;
  it_Next it := (None, tail it);
  it_size it := length it;
  cl_Begin c :=
    match mc_down c with
    | Some e => inl e
    | None => inr {| mk_view := mc_data c; mk_ts := mc_ts c; mk_down := None |}
    end;
  kv_SetPessimistic kv b := kv;
  kv_StartTS kv := clamp_ts (mk_ts kv);
  kv_Commit c kv :=
    match mc_down c with
    | Some e => (c, Some e)
    | None =>
        if stale c kv then (c, Some write_conflict)
        else ({| mc_data := mk_view kv; mc_ts := mc_ts c + 1; mc_down := None |}, None)
    end
|}.

#[export] Program Instance mem_spec : PlatformSpec := {|
  kv_view := mk_view;
  kv_up kv := mk_down kv = None;
  it_up it := True;
  it_list it := it
|}.
Next Obligation. by intros n u [= <-]. Qed.
Next Obligation. intros n m Hm. by apply Z.mod_pos_bound. Qed.
Next Obligation.
  intros kv k v. simpl. destruct (mk_down kv); [done|].
  destruct (mk_view kv !! k); congruence.
Qed.
Next Obligation.
  intros kv k e. simpl. destruct (mk_down kv); [by intros [= <-]|].
  by destruct (mk_view kv !! k).
Qed.
Next Obligation.
  intros kv k Hup. simpl. rewrite Hup. destruct (mk_view kv !! k); eauto.
Qed.
Next Obligation.
  intros kv k v e kv'. simpl. destruct (mk_down kv); [by intros [= _ <-]|].
  by destruct v; intros [= _ <-].
Qed.
Next Obligation.
  intros kv k e kv'. simpl. unfold if_up. by destruct (mk_down kv); intros [= _ <-].
Qed.
Next Obligation.
  intros kv w k e kv'. simpl. unfold if_up. by destruct (mk_down kv); intros [= _ <-].
Qed.
Next Obligation.
  intros kv k v kv'. simpl. destruct (mk_down kv); [done|]. destruct v; [done|].
  by intros [= <-].
Qed.
Next Obligation. intros kv k v Hup Hv. simpl. rewrite Hup. destruct v; [done|]. eauto. Qed.
Next Obligation.
  intros kv k kv'. simpl. unfold if_up. destruct (mk_down kv); [done|]. by intros [= <-].
Qed.
Next Obligation. intros kv k Hup. simpl. unfold if_up. rewrite Hup. eauto. Qed.
Next Obligation.
  intros kv w k e kv'. simpl. unfold if_up. by destruct (mk_down kv); intros [= _ <-].
Qed.
Next Obligation. intros kv w k Hup. simpl. unfold if_up. rewrite Hup. eauto. Qed.
Next Obligation. intros kv s e Hup. simpl. unfold if_up. rewrite Hup. eauto. Qed.
Next Obligation. intros kv e Hup. simpl. unfold if_up. rewrite Hup. eauto. Qed.
Next Obligation. done. Qed.
Next Obligation. intros it k v l ->. done. Qed.
Next Obligation. intros it _. simpl. eauto. Qed.
Next Obligation. intros it. simpl. lia. Qed.

(** A transaction of user 1, database 0, at 1000 seconds, on the entries [l]. *)
Definition mem_config : Config := {|
  ScanMaxCount := 10000; SetOperation := SETOP_SCAN; DbSizeHash := 0; DisableCount := false;
  ObjectHash := 15; ListType := ALIST; TTLSensitivity := -1; SkipConflict := false;
  StoreIsPessimistic := false; BatchLimit := 2; AclPermission := true; MaxUsers := 1000;
  MaxPasswordsPerUser := 2; MaxDBPerUser := 64
|}.

Definition mem_txn (l : list (bytes * bytes)) : Txn := {|
  t_txn := Some {| mk_view := list_to_map l; mk_ts := Z.shiftl 1000000 18; mk_down := None |};
  t_Multi := false; t_Watch := false; t_Exec := false; t_Err := None; t_PendingErr := false;
  t_Timestamp := Z.shiftl 1000000 18; t_Now := 1000000; t_ListLID := 0; t_ListRID := 0;
  t_Config := Some mem_config; t_UserId := 1; t_DBId := 0; t_PendingReq := []; t_draws := 0
|}.

Lemma mem_txn_up l : t_up (mem_txn l).
Proof. done. Qed.

(** The value and the view a run ends with. *)
Definition out_value {A} (o : Out A) : option A := match o with Ret a _ => Some a | _ => None end.
Definition out_view {A} (o : Out A) : option (list (bytes * bytes)) :=
  match o with Ret _ t => Some (range_entries [] [] (t_view t)) | _ => None end.

Definition abc_txn : Txn := mem_txn [(bs "a", bs "1"); (bs "b", bs "2"); (bs "c", bs "3")].

Lemma List_traverses_witness :
  t_up abc_txn /\
  out_value (List (bs "c") (bs "a") 0 (fun s k _ => ret (s ++ [k], true)) [] abc_txn)
  = Some ([bs "b"; bs "a"], None).
Proof.
  split; [apply mem_txn_up|].
  rewrite (List_traverses (bs "c") (bs "a") 0 _ [] abc_txn (mem_txn_up _)).
  vm_compute. reflexivity.
Defined.
