(* ===== verification/Client.v ===== *)
(** store/client.go: the functions of the client that run transactions of their own,
    and the batched deletion of a range with which large values are collected. *)

From S2P Require Import Prelude Xerror GoStd Utils Store Ranges.
From stdpp Require Import sorting.

#[local] Open Scope Z_scope.

(** What the clients of other connections and nodes commit to the store between two
    accesses: the n-th access finds the store after [Others n]; and
    [Command.GetConfig], the configuration of a user. *)
Class Clients `{Platform} := {
  Others : Z -> Cluster -> Cluster;
  GetConfig : Z -> Config
}.

(** The store, and the number of the next access. *)
Definition Store `{Platform} : Type := Cluster * Z.

Section client.
Context `{Clients}.

Definition access (s : Store) : Store := (Others (snd s) (fst s), snd s + 1).

(** [Client.NewTxn]. *)
Definition NewTxn : Txn :=
  {| t_txn := None; t_Multi := false; t_Watch := false; t_Exec := false; t_Err := None;
     t_PendingErr := false; t_Timestamp := 0; t_Now := 0; t_ListLID := 0; t_ListRID := 0;
     t_Config := None; t_UserId := 0; t_DBId := 0; t_PendingReq := []; t_draws := 0 |}.

Definition with_Config (c : Config) (t : Txn) : Txn :=
  {| t_txn := t_txn t; t_Multi := t_Multi t; t_Watch := t_Watch t; t_Exec := t_Exec t;
     t_Err := t_Err t; t_PendingErr := t_PendingErr t; t_Timestamp := t_Timestamp t;
     t_Now := t_Now t; t_ListLID := t_ListLID t; t_ListRID := t_ListRID t;
     t_Config := Some c; t_UserId := t_UserId t; t_DBId := t_DBId t;
     t_PendingReq := t_PendingReq t; t_draws := t_draws t |}.

(** The end of a function of the client. *)
Inductive Run (A : Type) :=
  | Finished (a : A) (s : Store)
  | RunPanicked
  | RunDiverged.
Arguments Finished {_} _ _.
Arguments RunPanicked {_}.
Arguments RunDiverged {_}.

Definition run_bind {A B} (r : Run A) (k : A -> Store -> Run B) : Run B :=
  match r with
  | Finished a s => k a s
  | RunPanicked => RunPanicked
  | RunDiverged => RunDiverged
  end.

(** A body between [Begin] and [Commit] or the deferred [Rollback]: it returns its
    result and whether to commit; [failed] and [done] make the function's result from
    the error of Begin and from that of Commit. *)
Definition transaction {A B} (failed : error -> B) (body : M (B + A)) (done : A -> option error -> B)
    (s : Store) : Run B :=
  let s := access s in
  match Begin (fst s) NewTxn with
  | (_, Some e) => Finished (failed e) s
  | (t, None) =>
      match body t with
      | Ret (inl b) _ => Finished b s
      | Ret (inr a) t =>
          let s := access s in
          let '(c, _, e) := Commit (fst s) t in
          Finished (done a e) (c, snd s)
      | Panic => RunPanicked
      | Diverge => RunDiverged
      end
  end.

(** [Client.List]: it never commits. *)
Definition client_List {S} (start end_ : bytes) (limit : Z) (cb : Callback S) (s : S) (st : Store) :
    Run (S * option error) :=
  transaction (A := Empty_set) (fun e => (s, Some e))
    (let! r := List start end_ limit cb s in ret (inl r)) (fun e _ => match e with end) st.

Definition client_DeleteUntil {S} (start end_ : bytes) (limit : Z) (callback : option (Callback S)) (s : S)
    (st : Store) : Run (S * (bytes * Z * option error)) :=
  transaction (fun e => (s, (start, 0, Some e)))
    (let! it := IterOf start end_ false in
     match it with
     | inl e => ret (inl (s, (start, 0, Some e)))
     | inr it =>
         let! (s, (cur, count, e)) :=
           DeleteUntil it start end_ limit (default (fun s _ _ => ret (s, true)) callback) s in
         match e with
         | Some e => ret (inl (s, (cur, count, Some e)))
         | None => ret (inr (s, (cur, count)))
         end
     end)
    (fun r e => (fst r, (snd r, e))) st.

Definition client_Delete (key : bytes) (st : Store) : Run (option error) :=
  transaction (A := unit) (fun e => Some e)
    (let! e := Del key in
     match e with Some e => ret (inl (Some e)) | None => ret (inr tt) end)
    (fun _ e => e) st.

(** The loop of [DelteRange] and [DeleteRangeUntil]; [n] is fuel for the rounds. *)
Fixpoint DelteRange_loop {S} (n : nat) (conf : Config) (cur start end_ : bytes)
    (callback : option (Callback S)) (s : S) (st : Store) : Run (S * option error) :=
  match n with
  | O => RunDiverged
  | Datatypes.S n =>
      if bytes_leb start cur && bytes_ltb cur end_ then
        run_bind (client_DeleteUntil cur end_ (BatchLimit conf) callback s st)
          (fun '(s, (cur, count, err)) st =>
             match err with
             | Some e => Finished (s, Some e) st
             | None =>
                 if count <? BatchLimit conf then Finished (s, None) st
                 else DelteRange_loop n conf cur start end_ callback s st
             end)
      else Finished (s, None) st
  end.

(** [Client.DelteRange]: the callback runs when no round failed. *)
Definition DelteRange (n : nat) (conf : Config) (start end_ : bytes) (callback : Store -> Run unit)
    (st : Store) : Run (option error) :=
  run_bind (DelteRange_loop (S := unit) n conf start start end_ None tt st)
    (fun '(_, err) st =>
       match err with
       | Some e => Finished (Some e) st
       | None => run_bind (callback st) (fun _ st => Finished None st)
       end).

Definition DeleteRangeUntil {S} (n : nat) (conf : Config) (start end_ : bytes) (callback : Callback S) (s : S)
    (st : Store) : Run (S * option error) :=
  DelteRange_loop n conf start start end_ (Some callback) s st.

End client.
Arguments Finished {_ _} _ _.
Arguments RunPanicked {_ _}.
Arguments RunDiverged {_ _}.

(** ** The store while no other client interferes *)

(** TiKV commits a transaction that started after the last commit, and the data is
    then what the transaction saw. Timestamps are 64-bit and lie after 1970. *)
Class ClusterSpec `{PlatformSpec} := {
  cl_data : Cluster -> gmap bytes bytes;
  cl_up : Cluster -> Prop;
  cl_last : Cluster -> Z;
  cl_Begin_up c : cl_up c ->
    exists kv, cl_Begin c = inr kv /\ kv_up kv /\ kv_view kv = cl_data c /\ cl_last c <= kv_StartTS kv;
  cl_Begin_time c kv : cl_Begin c = inr kv ->
    in_u64 (kv_StartTS kv) /\ 0 < ExtractPhysical (kv_StartTS kv) <= MaxInt64;
  kv_SetPessimistic_up kv b : kv_up kv -> kv_up (kv_SetPessimistic kv b);
  kv_SetPessimistic_view kv b : kv_view (kv_SetPessimistic kv b) = kv_view kv;
  kv_SetPessimistic_start kv b : kv_StartTS (kv_SetPessimistic kv b) = kv_StartTS kv;
  kv_Commit_up c kv : cl_up c -> kv_up kv -> cl_last c <= kv_StartTS kv ->
    exists c', kv_Commit c kv = (c', None) /\ cl_up c' /\ cl_data c' = kv_view kv
}.

(** [ends r Q]: the function returns, with a result and a store that satisfy [Q]. *)
Definition ends `{Platform} {A} (r : Run A) (Q : A -> Store -> Prop) : Prop :=
  match r with Finished a s => Q a s | RunPanicked | RunDiverged => False end.

Lemma ends_bind `{Platform} {A B} (r : Run A) (k : A -> Store -> Run B) Q :
  ends r (fun a s => ends (k a s) Q) -> ends (run_bind r k) Q.
Proof. by destruct r. Qed.

Lemma ends_mono `{Platform} {A} (r : Run A) (Q Q' : A -> Store -> Prop) :
  ends r Q -> (forall a s, Q a s -> Q' a s) -> ends r Q'.
Proof. destruct r; cbn; eauto. Qed.

Section alone.
Context `{Clients} `{!PlatformSpec} `{!ClusterSpec}.

(** No other client commits. *)
Definition alone : Prop := forall n c, Others n c = c.

(** A transaction that [NewTxn] and [Begin] made. *)
Record begun (t : Txn) : Prop := {
  bg_ts : in_u64 (t_Timestamp t);
  bg_now : 0 < t_Now t <= MaxInt64;
  bg_user : t_UserId t = 0;
  bg_db : t_DBId t = 0
}.

Lemma transaction_up {A B} failed (body : M (B + A)) done s (Q : B -> Store -> Prop) :
  alone -> cl_up (fst s) ->
  (forall t, t_up t -> t_view t = cl_data (fst s) -> begun t ->
     wp body t (fun r t' =>
       match r with
       | inl b => forall n, Q b (fst s, n)
       | inr a => kv_StartTS <$> t_txn t' = kv_StartTS <$> t_txn t /\ t_up t' /\
           forall c n, cl_up c -> cl_data c = t_view t' -> Q (done a None) (c, n)
       end)) ->
  ends (transaction failed body done s) Q.
Proof.
  intros Ha Hs Hb. unfold transaction, access. rewrite (Ha _ (fst s)). cbn [fst snd].
  destruct (cl_Begin_up _ Hs) as (kv & Eb & Hu & Hv & Hl). unfold Begin. rewrite Eb.
  set (tx := if IsPessimistic NewTxn then kv_SetPessimistic kv true else kv).
  assert (kv_up tx /\ kv_view tx = cl_data (fst s) /\ cl_last (fst s) <= kv_StartTS tx) as (Hu'&Hv'&Hl').
  { unfold tx. destruct (IsPessimistic NewTxn); [|done].
    rewrite kv_SetPessimistic_view, kv_SetPessimistic_start. split; [by apply kv_SetPessimistic_up|done]. }
  assert (begun (with_begin tx NewTxn)) as Hbg.
  { destruct (cl_Begin_time _ _ Eb) as [Ht Hn].
    assert (kv_StartTS tx = kv_StartTS kv) as Et.
    { unfold tx. destruct (IsPessimistic NewTxn); [apply kv_SetPessimistic_start|done]. }
    split; cbn [with_begin t_Timestamp t_Now]; by rewrite ?Et. }
  specialize (Hb (with_begin tx NewTxn) Hu' Hv' Hbg). unfold wp in Hb.
  destruct (body (with_begin tx NewTxn)) as [[b|a] t'| |]; [by apply Hb| |done..].
  destruct Hb as (Es & Hup & HQ). rewrite (Ha _ (fst s)). unfold Commit. unfold t_up in Hup. cbn [with_begin t_txn] in Es.
  destruct (t_txn t') as [kv'|] eqn:Et; [|done]. cbn in Es. injection Es as Es.
  destruct (kv_Commit_up (fst s) kv' Hs Hup ltac:(by rewrite Es)) as (c'&Ec&Hc&Hd). rewrite Ec.
  apply HQ; [done|]. unfold t_view. by rewrite Et.
Qed.

(** *** Deleting a range in batches *)

Definition delete_all (ks : list bytes) (m : gmap bytes bytes) : gmap bytes bytes := foldr delete m ks.

Lemma delete_all_lookup ks m k : delete_all ks m !! k = if decide (k ∈ ks) then None else m !! k.
Proof.
  unfold delete_all. induction ks as [|k' ks IH]; cbn [foldr].
  - by rewrite decide_False by apply not_elem_of_nil.
  - destruct (decide (k = k')) as [->|Hn].
    + rewrite lookup_delete_eq. by rewrite decide_True by by left.
    + rewrite lookup_delete_ne, IH by done. apply decide_ext. rewrite elem_of_cons. tauto.
Qed.

(** The last key of a list of entries, [key] if it is empty. *)
Definition last_key (key : bytes) (l : list (bytes * bytes)) : bytes := default key (fst <$> last l).

Lemma last_key_cons key x l : last_key key (x :: l) = last_key (fst x) l.
Proof. unfold last_key. rewrite last_cons. by destruct (last l). Qed.

Definition yes {S} : Callback S := fun s _ _ => ret (s, true).

Lemma wp_DeleteUntil_loop {S} fuel start end_ limit it key count (s : S) t Q :
  t_up t -> it_up it -> (length (it_list it) < fuel)%nat ->
  Forall (fun e => bytes_leb start (fst e) && bytes_ltb (fst e) end_ = true /\ len (fst e) < MAX_KEY_SIZE)
    (it_list it) ->
  0 <= count < limit ->
  (let l := take (Z.to_nat (limit - count)) (it_list it) in
   forall t', wrote t t' (delete_all (rev (fst <$> l)) (t_view t)) ->
   Q (s, (last_key key l, count + len l, None)) t') ->
  wp (DeleteUntil_loop fuel start end_ limit yes it key count s) t Q.
Proof.
  revert it key count t Q. induction fuel as [|fuel IH]; intros it key count t Q Hup Hi Hf Hl Hc HQ; [lia|].
  cbn [DeleteUntil_loop]. rewrite it_Valid_list.
  destruct (it_list it) as [|[k v] l] eqn:El.
  { rewrite bool_decide_eq_true_2 by done. cbn [negb]. apply wp_ret. cbv zeta in HQ. rewrite take_nil in HQ.
    replace count with (count + len (@nil (bytes * bytes))) at 1 by (unfold len; simpl; lia).
    apply (HQ t). by apply wrote_refl. }
  rewrite bool_decide_eq_false_2 by done. cbn [negb].
  destruct (it_Key_list _ _ _ _ El) as [-> ->]. apply Forall_cons in Hl as [[Hr Hk] Hl]. cbn [fst] in Hr, Hk.
  apply andb_true_iff in Hr as [Hr1 Hr2].
  assert (bytes_ltb k start || bytes_leb end_ k = false) as ->.
  { apply orb_false_iff. split; apply not_true_iff_false.
    - rewrite bytes_ltb_spec, blt_not_ble. apply bytes_leb_spec in Hr1. tauto.
    - rewrite bytes_leb_spec. apply bytes_ltb_spec, blt_not_ble in Hr2. tauto. }
  apply wp_bind, wp_ret. cbn [negb]. apply wp_bind, wp_Del; [done|done|]. intros t1 Hw1.
  cbn [length] in Hf. destruct (Z.gtb_spec limit 0) as [_|]; [|lia]. cbn [andb].
  replace (Z.to_nat (limit - count)) with (Datatypes.S (Z.to_nat (limit - (count + 1)))) in HQ by lia.
  cbn [take] in HQ. cbv zeta in HQ. rewrite last_key_cons, len_cons in HQ. cbn [fst fmap list_fmap rev] in HQ.
  unfold delete_all in HQ. setoid_rewrite foldr_app in HQ. cbn [foldr] in HQ. fold delete_all in HQ.
  rewrite <- (wr_view _ _ _ Hw1) in HQ.
  destruct (Z.geb_spec (count + 1) limit) as [Hge|Hlt].
  - apply wp_ret. replace (Z.to_nat (limit - (count + 1))) with 0%nat in HQ by lia.
    rewrite take_0 in HQ. apply (HQ t1). by rewrite <- (wr_view _ _ _ Hw1) in Hw1.
  - destruct (it_Next_up it Hi) as (it'&->&Hi'&El'). rewrite El in El'. cbn [tail] in El'.
    apply IH; [apply Hw1|done|rewrite El'; lia|by rewrite El'|lia|].
    rewrite El'. cbv zeta. intros t' Hw. rewrite <- Z.add_assoc. apply HQ.
    by eapply wrote_trans.
Qed.

(** The entries outside a range. *)
Definition cleared (start end_ : bytes) (m : gmap bytes bytes) : gmap bytes bytes :=
  base.filter (fun e => bytes_leb start (fst e) && bytes_ltb (fst e) end_ = false) m.

Lemma cleared_lookup start end_ m k :
  cleared start end_ m !! k = if bytes_leb start k && bytes_ltb k end_ then None else m !! k.
Proof.
  unfold cleared. destruct (bytes_leb start k && bytes_ltb k end_) eqn:E.
  - apply map_lookup_filter_None. right. intros v _. cbn [fst]. congruence.
  - destruct (m !! k) as [v|] eqn:Ek; [by apply map_lookup_filter_Some|].
    apply map_lookup_filter_None. by left.
Qed.

Lemma below_ltb k e : e <> [] -> below k e = bytes_ltb k e.
Proof. by destruct e. Qed.

Lemma elem_of_range s e m k : e <> [] ->
  k ∈ fst <$> range_entries s e m <-> is_Some (m !! k) /\ bytes_leb s k && bytes_ltb k e = true.
Proof.
  intros He. rewrite list_elem_of_fmap. setoid_rewrite andb_true_iff. rewrite bytes_leb_spec, <- (below_ltb k e He).
  split.
  - intros ([k' v] & -> & Hk%elem_of_range_entries). cbn [fst]. destruct Hk as (?&?&?). eauto.
  - intros ([v Hv] & Hk). exists (k, v). split; [done|]. apply elem_of_range_entries. tauto.
Qed.

(** Deleting distinct keys of a range shortens it by their number. *)
Lemma length_range_delete_all s e m ks :
  NoDup ks -> (forall k, k ∈ ks -> is_Some (m !! k) /\ in_range s e k = true) ->
  length (range_entries s e m) = (length ks + length (range_entries s e (delete_all ks m)))%nat.
Proof.
  induction ks as [|k ks IH]; [done|]. intros [Hk Hd]%NoDup_cons Hks.
  rewrite IH by (done || (intros; apply Hks; by right)). unfold delete_all. cbn [foldr length].
  destruct (Hks k ltac:(by left)) as [[v Hv] Hr].
  assert (delete_all ks m !! k = Some v) as Hv'.
  { rewrite delete_all_lookup, decide_False; done. }
  rewrite (range_entries_delete s e _ _ _ Hv'), Hr. unfold delete_all. simpl. lia.
Qed.

Lemma elem_of_rev {A} (x : A) l : x ∈ rev l <-> x ∈ l.
Proof. rewrite rev_is_reverse. apply elem_of_reverse. Qed.

(** One batch: the first [n] keys of the range. *)
Section batch.
Context (s0 s e : bytes) (m : gmap bytes bytes) (n : nat).
Hypothesis (He : e <> []) (Hn : (0 < n)%nat) (Hs : ble s0 s).
Let l := take n (range_entries s e m).
Let m' := delete_all (rev (fst <$> l)) m.

Lemma batch_keys k : k ∈ fst <$> l -> is_Some (m !! k) /\ bytes_leb s k && bytes_ltb k e = true.
Proof using He.
  intros Hk. apply (elem_of_range s e m k He).
  rewrite <- (take_drop n (range_entries s e m)), fmap_app. apply elem_of_app. by left.
Qed.

Lemma batch_lookup k : m' !! k = if decide (k ∈ fst <$> l) then None else m !! k.
Proof. unfold m'. rewrite delete_all_lookup. apply decide_ext, elem_of_rev. Qed.

Lemma batch_rest k : ble s k -> blt k e -> is_Some (m' !! k) ->
  length l = n /\ blt (last_key [] l) k.
Proof using He Hn.
  intros Hsk Hke Hk. rewrite batch_lookup in Hk. destruct (decide (k ∈ fst <$> l)) as [|Hni]; [by destruct Hk|].
  assert (k ∈ fst <$> drop n (range_entries s e m)) as Hd.
  { assert (k ∈ fst <$> range_entries s e m) as Hl.
    { apply elem_of_range; [done|]. by rewrite andb_true_iff, bytes_leb_spec, bytes_ltb_spec. }
    rewrite <- (take_drop n (range_entries s e m)), fmap_app, elem_of_app in Hl. by destruct Hl. }
  apply list_elem_of_fmap in Hd as (y&->&Hy).
  assert (length l = n) as Hlen.
  { unfold l. rewrite length_take. assert (drop n (range_entries s e m) <> []) as Hne by (by intros E; rewrite E in Hy; apply elem_of_nil in Hy).
    destruct (decide (n <= length (range_entries s e m))%nat); [lia|].
    exfalso. apply Hne, drop_ge. lia. }
  split; [done|]. unfold last_key. destruct (last l) as [x|] eqn:El.
  2: { apply last_None in El. rewrite El in Hlen. simpl in Hlen. lia. }
  cbn. apply last_Some in El as [l1 El].
  pose proof (range_entries_sorted s e m) as Hso. rewrite <- (take_drop n (range_entries s e m)) in Hso. fold l in Hso.
  rewrite El, <- app_assoc in Hso.
  assert (StronglySorted entry_lt (x :: drop n (range_entries s e m))) as Hx.
  { clear - Hso. induction l1 as [|a l1 IH]; [done|]. apply IH. by apply StronglySorted_inv in Hso as [? _]. }
  apply StronglySorted_inv in Hx as [_ Hx]. rewrite Forall_forall in Hx. by apply Hx.
Qed.

Lemma batch_last : l <> [] -> ble s (last_key [] l).
Proof using He.
  intros Hne. unfold last_key. destruct (last l) as [x|] eqn:El; [|by apply last_None in El]. cbn.
  apply last_Some in El as [l1 El].
  destruct (batch_keys (fst x)) as [_ Hr]; [rewrite El, fmap_app; apply elem_of_app; right; by left|].
  apply andb_true_iff in Hr as [Hr _]. by apply bytes_leb_spec.
Qed.

Lemma batch_cleared : cleared s0 e m' = cleared s0 e m.
Proof using He Hs.
  apply map_eq. intros k. rewrite !cleared_lookup, batch_lookup.
  destruct (bytes_leb s0 k && bytes_ltb k e) eqn:Ek; [done|].
  rewrite decide_False; [done|]. intros Hk. apply batch_keys in Hk as [_ Hk].
  apply andb_true_iff in Hk as [Hk1 Hk2]. apply bytes_leb_spec in Hk1.
  rewrite Hk2, (proj2 (bytes_leb_spec s0 k)) in Ek; [done|by eapply ble_trans].
Qed.

Lemma batch_length : length (range_entries s0 e m) = (length l + length (range_entries s0 e m'))%nat.
Proof using He Hs.
  unfold m'. rewrite (length_range_delete_all s0 e m (rev (fst <$> l))).
  - by rewrite length_rev, length_fmap.
  - rewrite rev_is_reverse, reverse_Permutation.
    pose proof (range_entries_NoDup s e m) as Hd. rewrite <- (take_drop n (range_entries s e m)), fmap_app in Hd.
    by apply NoDup_app in Hd as [? _].
  - intros k. rewrite elem_of_rev. intros Hk. apply batch_keys in Hk as [Hk Hr]. split; [done|].
    apply andb_true_iff in Hr as [Hr1 Hr2]. apply bytes_leb_spec in Hr1.
    apply in_range_spec. rewrite below_ltb by done. split; [by eapply ble_trans|done].
Qed.

End batch.

Lemma client_DeleteUntil_up cur end_ limit st Q :
  alone -> cl_up (fst st) -> end_ <> [] -> 0 < limit ->
  (forall k, is_Some (cl_data (fst st) !! k) -> len k < MAX_KEY_SIZE) ->
  (let l := take (Z.to_nat limit) (range_entries cur end_ (cl_data (fst st))) in
   forall c n, cl_up c -> cl_data c = delete_all (rev (fst <$> l)) (cl_data (fst st)) ->
   Q (tt, (last_key [] l, len l, None)) (c, n)) ->
  ends (client_DeleteUntil cur end_ limit None tt st) Q.
Proof.
  intros Ha Hs He Hl Hk HQ. apply transaction_up; [done|done|]. intros t Hup Hv _.
  destruct (IterOf_up cur end_ false t Hup) as (it&Ei&Hi&El). rewrite Hv in El.
  apply wp_bind. eapply returns_wp; [exact Ei|]. apply wp_bind.
  apply wp_DeleteUntil_loop; [done|done|pose proof (it_size_list it); lia| |lia|].
  { rewrite El. apply Forall_forall. intros [k v] Hx. cbn [fst].
    apply elem_of_range_entries in Hx as (Hx&Hx1&Hx2). rewrite below_ltb in Hx2 by done.
    split; [|by eapply Hk, mk_is_Some]. apply andb_true_iff. by rewrite bytes_leb_spec. }
  rewrite El, Z.sub_0_r, Hv. cbv zeta. intros t' Hw. apply wp_ret.
  split; [apply (se_start _ _ (wr_env _ _ _ Hw))|]. split; [apply Hw|]. intros c n Hc Hd.
  apply HQ; [done|]. by rewrite Hd, (wr_view _ _ _ Hw).
Qed.

Lemma DelteRange_loop_up n conf cur start end_ st (Q : unit * option error -> Store -> Prop) :
  alone -> cl_up (fst st) -> end_ <> [] -> 0 < BatchLimit conf ->
  (forall k, is_Some (cl_data (fst st) !! k) -> len k < MAX_KEY_SIZE) ->
  ble start cur ->
  (forall k, is_Some (cl_data (fst st) !! k) -> ble start k -> blt k end_ -> ble cur k) ->
  (length (range_entries start end_ (cl_data (fst st))) < n)%nat ->
  (forall c m, cl_up c -> cl_data c = cleared start end_ (cl_data (fst st)) -> Q (tt, None) (c, m)) ->
  ends (DelteRange_loop n conf cur start end_ None tt st) Q.
Proof.
  intros Ha. revert cur st. induction n as [|n IH]; intros cur st Hs He Hl Hk Hsc Hgone Hn HQ; [lia|].
  cbn [DelteRange_loop]. rewrite (proj2 (bytes_leb_spec start cur) Hsc). cbn [andb].
  assert (forall c m, cl_up c -> cleared start end_ (cl_data c) = cleared start end_ (cl_data (fst st)) ->
    (forall k, is_Some (cl_data c !! k) -> ble start k -> ~ blt k end_) -> Q (tt, None) (c, m)) as Hfin.
  { intros c m Hc Ec Hx. apply HQ; [done|]. rewrite <- Ec. apply map_eq. intros k. rewrite cleared_lookup.
    destruct (bytes_leb start k && bytes_ltb k end_) eqn:Ek; [|done].
    apply andb_true_iff in Ek as [E1 E2]. apply bytes_leb_spec in E1. apply bytes_ltb_spec in E2.
    destruct (cl_data c !! k) eqn:E; [|done]. by destruct (Hx k). }
  destruct (bytes_ltb cur end_) eqn:Ec.
  2: { destruct st as [c t]. apply Hfin; [done|done|]. intros k Hsk Hk1 Hk2.
       apply not_true_iff_false in Ec. apply Ec, bytes_ltb_spec. eapply ble_blt_trans; [by apply Hgone|done]. }
  apply ends_bind, client_DeleteUntil_up; [done..|]. cbv zeta.
  set (b := Z.to_nat (BatchLimit conf)). set (m := cl_data (fst st)) in *.
  set (l := take b (range_entries cur end_ m)). intros c t Hc Hd.
  assert (0 < b)%nat as Hb by (unfold b; lia).
  assert (forall k, is_Some (cl_data c !! k) -> ble start k -> blt k end_ ->
    length l = b /\ blt (last_key [] l) k) as Hrest.
  { intros k Hsk Hk1 Hk2. rewrite Hd in Hsk. apply (batch_rest cur end_ m b He Hb k); [|done|done].
    apply Hgone; [|done|done]. unfold l in Hsk. rewrite (batch_lookup cur end_ m b) in Hsk.
    by destruct (decide _) in Hsk; [destruct Hsk|]. }
  pose proof (batch_cleared start cur end_ m b He Hsc) as Hcl. fold l in Hcl. rewrite <- Hd in Hcl.
  pose proof (batch_length start cur end_ m b He Hsc) as Hlen. fold l in Hlen. rewrite <- Hd in Hlen.
  destruct (Z.ltb_spec (len l) (BatchLimit conf)) as [Hsmall|Hfull].
  - apply Hfin; [done|done|]. intros k Hsk Hk1 Hk2. destruct (Hrest k Hsk Hk1 Hk2) as [E _].
    unfold len, b in *. lia.
  - apply IH; cbn [fst]; try done.
    + intros k Hsk. apply Hk. rewrite Hd in Hsk. unfold l in Hsk. rewrite (batch_lookup cur end_ m b) in Hsk.
      by destruct (decide _) in Hsk; [destruct Hsk|].
    + eapply ble_trans; [done|]. apply (batch_last cur end_ m b He). fold l. intros E. rewrite E in Hfull.
      unfold len in Hfull. simpl in Hfull. lia.
    + intros k Hsk Hk1 Hk2. by apply blt_ble, Hrest.
    + unfold len, b in *. lia.
    + by rewrite Hcl.
Qed.

Lemma DelteRange_ends n conf start end_ callback st :
  alone -> cl_up (fst st) -> 0 < BatchLimit conf ->
  (forall k, is_Some (cl_data (fst st) !! k) -> len k < MAX_KEY_SIZE) ->
  (length (range_entries start end_ (cl_data (fst st))) < n)%nat ->
  exists st', cl_up (fst st') /\ cl_data (fst st') = cleared start end_ (cl_data (fst st)) /\
    DelteRange n conf start end_ callback st
    = run_bind (callback st') (fun _ st => Finished None st).
Proof.
  intros Ha Hs Hl Hk Hn. unfold DelteRange.
  assert (ends (DelteRange_loop (S := unit) n conf start start end_ None tt st)
    (fun r st' => r = (tt, None) /\ cl_up (fst st') /\
       cl_data (fst st') = cleared start end_ (cl_data (fst st)))) as He.
  - destruct (decide (end_ = [])) as [->|He].
    + destruct n as [|n]; [lia|]. cbn [DelteRange_loop].
      assert (bytes_ltb start [] = false) as -> by by destruct start. rewrite andb_false_r.
      split; [done|]. split; [done|]. apply map_eq. intros k. rewrite cleared_lookup.
      assert (bytes_ltb k [] = false) as -> by by destruct k. by rewrite andb_false_r.
    + apply DelteRange_loop_up; try done. apply ble_refl.
  - destruct (DelteRange_loop n conf start start end_ None tt st) as [r st'| |]; [|done..].
    destruct He as (->&?&?). by exists st'.
Qed.

(** C2. [DelteRange] terminates and removes exactly the entries of the range, batch by
    batch, each in a transaction of its own, however many there are: with more rounds
    of fuel than entries it returns, and its callback then runs on a store that has
    everything but the range (while no other client writes to it). *)
Theorem DelteRange_clears n conf start end_ callback st :
  alone -> cl_up (fst st) -> 0 < BatchLimit conf ->
  (forall k, is_Some (cl_data (fst st) !! k) -> len k < MAX_KEY_SIZE) ->
  (length (range_entries start end_ (cl_data (fst st))) < n)%nat ->
  exists st', cl_up (fst st') /\ cl_data (fst st') = cleared start end_ (cl_data (fst st)) /\
    DelteRange n conf start end_ callback st
    = run_bind (callback st') (fun _ st => Finished None st).
Proof. apply DelteRange_ends. Qed.

End alone.
