(* ===== verification/Object.v ===== *)
(** The object layer: the layout of keys and of object headers (command/object.go),
    the sharded counters (command/count.go), the value encoding (command/listb.go) and
    the operations every command goes through: [getTxnObject], [setTxnObject],
    [PutOrDeleteKV], [CleanKey] and [DeleteKey] (the last two from
    command/generic.go). *)

From S2P Require Import Prelude Xerror GoStd Utils Store.
From Stdlib Require Import Init.Byte.

#[local] Open Scope Z_scope.

(** ** Types and constants *)

(** [PrefixType], [ObjectType] and [ChangeType] are Go bytes. *)
Definition DataPrefix := x64.     (* 'd' *)
Definition UserPrefix := x75.     (* 'u' *)
Definition CountPrefix := x63.    (* 'c' *)
Definition CountGeneral := x43.   (* 'C' *)
Definition TTLPrefix := x74.      (* 't' *)
Definition KeyPrefix := x6b.      (* 'k' *)
Definition ValuePrefix := x76.    (* 'v' *)
Definition KEYSIZE : bytes := bs "size".

Definition UnknownType := x3f.    (* '?' *)
Definition AListType := x61.      (* 'a' *)
Definition BListType := x62.      (* 'b' *)
Definition HLLType := x66.        (* 'f' *)
Definition GroupType := x67.      (* 'g' *)
Definition HashType := x68.       (* 'h' *)
Definition JsonType := x6a.       (* 'j' *)
Definition StringType := x6b.     (* 'k' *)
Definition LListType := x6c.      (* 'l' *)
Definition GeoType := x6f.        (* 'o' *)
Definition StreamType := x70.     (* 'p' *)
Definition SetType := x73.        (* 's' *)
Definition ZsetType := x7a.       (* 'z' *)
Definition GeneralType := x2a.    (* '*' *)

Definition MinusCount : Z := 1.
Definition PlusCount : Z := 2.
Definition GCChange : Z := 4.
Definition DeleteKeyType : Z := 8.
Definition DefaultHashMark : Z := Z.shiftl 1 10 - 1.
Definition MaxInt16 : Z := 2 ^ 15 - 1.

Definition beq (x y : Init.Byte.byte) : bool := bool_decide (x = y).

Definition UseZset (o : Init.Byte.byte) : bool := beq o ZsetType || beq o GeoType.

Definition TypeName (o : Init.Byte.byte) : string :=
  if beq o StringType then "string"
  else if beq o JsonType then "json"
  else if beq o AListType then "list"
  else if beq o BListType then "list"
  else if beq o HashType then "hash"
  else if beq o ZsetType then "zset"
  else if beq o SetType then "set"
  else if beq o GeoType then "geo"
  else if beq o HLLType then "hll"
  else "unknown".

(** [Object]. A slice field that the code compares with [nil] is an option. *)
Record Object := mkObject {
  o_UserId : Z;
  o_Db : Z;
  o_Key : bytes;
  o_Type : Init.Byte.byte;
  o_TTL : Z;
  o_Timestamp : Z;
  o_Value : option bytes;
  o_Hash : Z;
  o_Extra : option bytes
}.

(** The bytes of a slice that may be nil. *)
Definition sl (v : option bytes) : bytes := default [] v.

Definition set_o_TTL (ttl : Z) (o : Object) : Object :=
  {| o_UserId := o_UserId o; o_Db := o_Db o; o_Key := o_Key o; o_Type := o_Type o;
     o_TTL := ttl; o_Timestamp := o_Timestamp o; o_Value := o_Value o; o_Hash := o_Hash o;
     o_Extra := o_Extra o |}.
Definition set_o_Timestamp (ts : Z) (o : Object) : Object :=
  {| o_UserId := o_UserId o; o_Db := o_Db o; o_Key := o_Key o; o_Type := o_Type o;
     o_TTL := o_TTL o; o_Timestamp := ts; o_Value := o_Value o; o_Hash := o_Hash o;
     o_Extra := o_Extra o |}.
Definition set_o_Value (v : option bytes) (o : Object) : Object :=
  {| o_UserId := o_UserId o; o_Db := o_Db o; o_Key := o_Key o; o_Type := o_Type o;
     o_TTL := o_TTL o; o_Timestamp := o_Timestamp o; o_Value := v; o_Hash := o_Hash o;
     o_Extra := o_Extra o |}.
Definition set_o_Key (k : bytes) (o : Object) : Object :=
  {| o_UserId := o_UserId o; o_Db := o_Db o; o_Key := k; o_Type := o_Type o;
     o_TTL := o_TTL o; o_Timestamp := o_Timestamp o; o_Value := o_Value o; o_Hash := o_Hash o;
     o_Extra := o_Extra o |}.

Definition IsGeo (o : Object) : bool := beq (o_Type o) GeoType.
Definition IsSimple (o : Object) : bool := beq (o_Type o) StringType || beq (o_Type o) JsonType.
(** [(o *Object) DisableCount()]. *)
Definition ObjectDisableCount (o : Object) : bool :=
  beq (o_Type o) HashType || beq (o_Type o) AListType ||
  beq (o_Type o) ZsetType || beq (o_Type o) SetType || beq (o_Type o) GeoType.
Definition IsCountable (o : Object) : bool :=
  negb (beq (o_Type o) StringType) && negb (beq (o_Type o) JsonType) &&
  negb (beq (o_Type o) HLLType) && negb (beq (o_Type o) BListType).

(** ** Keys *)

Definition GetUserPrefix (typo : Init.Byte.byte) (user : Z) : bytes := typo :: be_put 2 user.

Definition GetUserDBPrefix (typo : Init.Byte.byte) (user db : Z) : bytes :=
  typo :: be_put 2 user ++ [z2b db].

Definition GetGeneralBytes (typo keyPrefix : Init.Byte.byte) : bytes := [typo; keyPrefix].

(** Skipping a nil piece and copying an empty one are the same. *)
Definition GetKeyBytes (typo : Init.Byte.byte) (user db : Z) (keyPrefix : Init.Byte.byte)
    (data : list bytes) : bytes :=
  typo :: be_put 2 user ++ z2b db :: keyPrefix :: concat data.

Definition ObjectKeyBytes (o : Object) : bytes :=
  GetKeyBytes DataPrefix (o_UserId o) (o_Db o) KeyPrefix [o_Key o].

Definition GetValueBytes (o : Object) (data : bytes) : bytes :=
  GetKeyBytes DataPrefix (o_UserId o) (o_Db o) ValuePrefix [sl (o_Value o); data].

Definition GetTTLPrefix (expire : Z) : bytes := TTLPrefix :: be_put 8 (u64 expire).

(** An empty result stands for [nil]. *)
Definition getTTLBytes (o : Object) (typo : Init.Byte.byte) (data : bytes) : bytes :=
  if o_TTL o <=? 0 then []
  else GetKeyBytes TTLPrefix (o_UserId o) (o_Db o) typo [be_put 8 (u64 (o_TTL o)); data].

Definition GetTTLKeyBytes (o : Object) : bytes := getTTLBytes o KeyPrefix (o_Key o).
Definition GetTTLValueBytes (o : Object) : bytes := getTTLBytes o ValuePrefix (sl (o_Value o)).

Definition EncodeTTLValue (typo : Init.Byte.byte) (value : bytes) : bytes := typo :: value.

(** Indexing an empty slice panics. *)
Definition DecodeTTLValue (value : bytes) : option (Init.Byte.byte * bytes) :=
  match value with [] => None | b :: l => Some (b, l) end.

(** The object named by an entry of the expiry index. *)
Definition GetObjectFromTTL (k v : bytes) : error + Object :=
  if len k <? 13 then inl (ErrValueTooShort : error)
  else
    if negb (beq (nth 0 k x00) TTLPrefix) then inl (ErrNotTTL : error)
    else
      let o := {| o_UserId := be_get (slice 1 3 k); o_Db := b2z (nth 3 k x00); o_Key := [];
                  o_Type := x00; o_TTL := i64 (be_get (slice 5 13 k)); o_Timestamp := 0;
                  o_Value := None; o_Hash := 0; o_Extra := None |} in
      if beq (nth 4 k x00) KeyPrefix then
        let o := set_o_Key (drop 13 k) o in
        if len v >=? 17 then
          match DecodeTTLValue v with
          | Some (typ, value) =>
              inr {| o_UserId := o_UserId o; o_Db := o_Db o; o_Key := o_Key o; o_Type := typ;
                     o_TTL := o_TTL o; o_Timestamp := 0; o_Value := Some value; o_Hash := 0;
                     o_Extra := None |}
          | None => inr o
          end
        else inr o
      else if beq (nth 4 k x00) ValuePrefix then inr (set_o_Value (Some (drop 13 k)) o)
      else inl (ErrNotTTL : error).

(** ** Object headers *)

Definition ObjectEncode (o : Object) : bytes :=
  o_Type o :: be_put 8 (u64 (o_TTL o)) ++ be_put 8 (o_Timestamp o) ++ be_put 2 (o_Hash o)
    ++ sl (o_Value o) ++ sl (o_Extra o).

Definition CleanValue (hash : Z) (typo : Init.Byte.byte) (o : Object) : Object :=
  {| o_UserId := o_UserId o; o_Db := o_Db o; o_Key := o_Key o; o_Type := typo; o_TTL := 0;
     o_Timestamp := 0; o_Value := None;
     o_Hash := if hash =? 0 then DefaultHashMark else hash; o_Extra := None |}.

(** The fields are assigned in order, so that a header whose value is too short leaves
    the type, expiry, timestamp and hash behind. *)
Definition ObjectDecode (b : bytes) (o : Object) : Object * option error :=
  if len b <? 1 + 8 + 8 + 2 then (o, Some (ErrValueTooShort : error))
  else
    let o := {| o_UserId := o_UserId o; o_Db := o_Db o; o_Key := o_Key o;
                o_Type := nth 0 b x00; o_TTL := i64 (be_get (slice 1 9 b));
                o_Timestamp := be_get (slice 9 17 b); o_Value := o_Value o;
                o_Hash := be_get (slice 17 19 b); o_Extra := o_Extra o |} in
    if IsSimple o then (set_o_Value (Some (drop 19 b)) o, None)
    else if len b <? 19 + 16 then (o, Some (ErrValueTooShort : error))
    else
      ({| o_UserId := o_UserId o; o_Db := o_Db o; o_Key := o_Key o; o_Type := o_Type o;
          o_TTL := o_TTL o; o_Timestamp := o_Timestamp o; o_Value := Some (slice 19 35 b);
          o_Hash := o_Hash o; o_Extra := Some (drop 35 b) |}, None).

Definition zero_object : Object := {|
  o_UserId := 0; o_Db := 0; o_Key := []; o_Type := x00; o_TTL := 0; o_Timestamp := 0;
  o_Value := None; o_Hash := 0; o_Extra := None |}.

(** [&Object{}] with the user, database and key of a key of the data range. *)
Definition GetObjectFromKV (key value : bytes) : error + Object :=
  if (len key <? 5) || (len value <? 1) then inl (ErrValueTooShort : error)
  else
    let o := {| o_UserId := be_get (slice 1 3 key); o_Db := b2z (nth 3 key x00);
                o_Key := drop 5 key; o_Type := x00; o_TTL := 0; o_Timestamp := 0;
                o_Value := None; o_Hash := 0; o_Extra := None |} in
    match ObjectDecode value o with
    | (_, Some e) => inl e
    | (o, None) => inr o
    end.

(** ** Values of collections (listb.go) *)

Record Value := { v_Timestamp : Z; v_Value : bytes }.

Definition EncodeValue (v : Value) : bytes := be_put 8 (v_Timestamp v) ++ v_Value v.
Definition DecodeValue (b : bytes) : error + Value :=
  if len b <? 8 then inl (ErrValueTooShort : error)
  else inr {| v_Timestamp := be_get (take 8 b); v_Value := drop 8 b |}.

(** ** Counters *)

Record Count := {
  c_Timestamp : Z;
  c_Value : Z;
  c_Key : bytes;
  c_Shard : Z;
  c_UserValue : bytes
}.

(** Sign and magnitude; the magnitude of the least [int64] wraps to itself. *)
Definition EncodeCount (c : Count) : bytes :=
  be_put 8 (c_Timestamp c)
    ++ (if c_Value c >=? 0 then x01 else x00)
    :: be_put 8 (if c_Value c >=? 0 then u64 (c_Value c) else u64 (i64 (- c_Value c)))
    ++ c_UserValue c.

(** A counter shorter than 17 bytes makes [Uint64] panic. *)
Definition DecodeCount (c : Count) (v : bytes) : option Count :=
  if len v <? 17 then None
  else Some {|
    c_Timestamp := be_get (take 8 v);
    c_Value := if beq (nth 8 v x00) x01 then i64 (be_get (slice 9 17 v))
               else i64 (- i64 (be_get (slice 9 17 v)));
    c_Key := c_Key c; c_Shard := c_Shard c; c_UserValue := drop 17 v |}.

Section count.
Context `{Platform}.

Definition set_c (ts value : Z) (c : Count) : Count :=
  {| c_Timestamp := ts; c_Value := value; c_Key := c_Key c; c_Shard := c_Shard c;
     c_UserValue := c_UserValue c |}.

Definition SetCount (count : Count) : M (option error) :=
  let! t := get_txn in
  let count := set_c (t_Timestamp t) (c_Value count) count in
  Put (c_Key count) (EncodeCount count).

Definition count_key (userID dbID hash : Z) (prefix : Init.Byte.byte) (key : bytes)
    (hashValue : option bytes) : Z * bytes :=
  if hash >? 0 then
    let shard := match hashValue with
                 | Some v => Hash.GetShard v hash
                 | None => wrap_u 16 hash
                 end in
    (shard, GetKeyBytes CountPrefix userID dbID prefix [key; be_put 2 shard])
  else (0, GetKeyBytes CountPrefix userID dbID prefix [key]).

Definition GetCount (userID dbID hash : Z) (prefix : Init.Byte.byte) (key : bytes)
    (hashValue : option bytes) : M (Count * option error) :=
  let! t := get_txn in
  let '(shard, k) := count_key userID dbID hash prefix key hashValue in
  let count := {| c_Timestamp := t_Timestamp t; c_Value := 0; c_Key := k; c_Shard := shard;
                  c_UserValue := [] |} in
  let! b := Get k in
  match b with
  | inl e => ret (count, Some e)
  | inr b => match DecodeCount count b with
             | Some count => ret (count, None)
             | None => panic
             end
  end.

Definition count_of_entry (k : bytes) : Count :=
  {| c_Timestamp := 0; c_Value := 0; c_Key := k; c_Shard := 0; c_UserValue := [] |}.

Definition ListCount (userID dbID : Z) (prefix : Init.Byte.byte) (key : bytes) :
    M (error + list Count) :=
  let start := GetKeyBytes CountPrefix userID dbID prefix [key] in
  let end_ := Bytes.PrefixNext start in
  let! (counts, err) :=
    List start end_ MaxInt16
      (fun counts k v =>
         match DecodeCount (count_of_entry k) v with
         | Some count => ret (counts ++ [count], true)
         | None => panic
         end) [] in
  match err with
  | Some ReachLimit => ret (inr counts)
  | Some e => ret (inl e)
  | None => ret (inr counts)
  end.

Definition DeleteCount (userID dbID : Z) (prefix : Init.Byte.byte) (key : bytes) (expire : Z) :
    M (option error) :=
  let start := GetKeyBytes CountPrefix userID dbID prefix [key] in
  let end_ := Bytes.PrefixNext start in
  let! it := IterOf start end_ false in
  match it with
  | inl e => ret (Some e)
  | inr it =>
      let! (notExpire, (_, _, err)) :=
        DeleteUntil it start end_ MaxInt16
          (fun notExpire k v =>
             match DecodeCount (count_of_entry k) v with
             | None => panic
             | Some count =>
                 if time_IsZero expire then ret (notExpire, true)
                 else
                   let timestamp := ExtractPhysical (c_Timestamp count) in
                   let exist := time_Unix (go_div timestamp 1000) (go_rem timestamp 1000 * 1000000) in
                   if expire - exist >? 0 then ret (notExpire, true)
                   else ret (true, false)
             end) false in
      if (notExpire : bool) then ret (Some (ErrNotExpire : error))
      else match err with
           | Some ReachLimit => ret None
           | e => ret e
           end
  end.

End count.

(** ** Objects in a transaction *)

Definition MemberPrefix := x6d.   (* 'm' *)
Definition ScorePrefix := x73.    (* 's' *)
Definition EncodeMemberKey (member : bytes) : bytes := MemberPrefix :: member.

Definition GetHashKey (o : Object) (field : bytes) : bytes := GetValueBytes o field.
Definition GetZsetKey (o : Object) (field : bytes) : bytes := GetValueBytes o (EncodeMemberKey field).

(** The map [GetKeyFuncs]. *)
Definition GetKeyFuncs (typo : Init.Byte.byte) : option (Object -> bytes -> bytes) :=
  if beq typo HashType then Some GetHashKey
  else if beq typo SetType then Some GetHashKey
  else if beq typo AListType then Some GetHashKey
  else if beq typo ZsetType then Some GetZsetKey
  else None.

Section object.
Context `{Platform}.

Definition new_object (c : Config) (userId db : Z) (typo : Init.Byte.byte) (key : bytes) : Object :=
  {| o_UserId := userId; o_Db := db; o_Key := key; o_Type := typo; o_TTL := 0; o_Timestamp := 0;
     o_Value := None;
     o_Hash := if ObjectHash c =? 0 then DefaultHashMark else ObjectHash c; o_Extra := None |}.

Definition NewObject (typo : Init.Byte.byte) (key : bytes) : M Object :=
  let! c := get_config in
  let! t := get_txn in
  ret (new_object c (t_UserId t) (t_DBId t) typo key).

(** The bits of a [ChangeType]. *)
Definition has (change bit : Z) : bool := negb (Z.land change bit =? 0).

Definition fail : error -> M (option error) := fun e => ret (Some e).

(** The number of keys of a database, kept in sharded counters under [KEYSIZE]. *)
Definition count_delta (o : Object) (delta change : Z) : M (option error) :=
  let! c := get_config in
  if (DbSizeHash c =? 0) || (delta =? 0) then ret None
  else
    let! (count, err) :=
      if negb (has change GCChange)
      then GetCount (o_UserId o) (o_Db o) (DbSizeHash c - 1) CountGeneral KEYSIZE (Some (o_Key o))
      else GetCount (o_UserId o) (o_Db o) (DbSizeHash c) CountGeneral KEYSIZE None in
    match err with
    | None | Some KeyNotFound => SetCount (set_c (c_Timestamp count) (i64 (c_Value count + delta)) count)
    | Some e => ret (Some e)
    end.

Definition setTxnObject (key : bytes) (o : Object) (change : Z) : M (option error) :=
  if has change DeleteKeyType then
    do! Del key else fail in
    count_delta o (if has change MinusCount then -1 else 0) change
  else
    do! Put key (ObjectEncode o) else fail in
    count_delta o (if has change PlusCount then 1 else 0) change.

(** [CleanKey] also leaves [valueTTL] in the object's TTL when it is positive; no
    caller reads the object's TTL after it. *)
Definition CleanKey (key ttlKey : bytes) (o : Object) (valueTTL change : Z) : M (option error) :=
  do! (if len key >? 0 then setTxnObject key o (Z.lor change DeleteKeyType) else ret None)
  else fail in
  do! (if len ttlKey >? 0 then Del ttlKey else ret None) else fail in
  if negb (IsSimple o) && (len (sl (o_Value o)) >? 0) then
    if valueTTL >? 0 then
      Put (GetTTLValueBytes (set_o_TTL valueTTL o)) [x01]
    else if IsCountable o then
      let! c := get_config in
      if DisableCount c && ObjectDisableCount o then ret None
      else
        let! t := get_txn in
        DeleteCount (o_UserId o) (o_Db o) KeyPrefix (sl (o_Value o)) (NowTime t)
    else ret None
  else ret None.

Definition DeleteKey (key : bytes) (o : Object) (now change : Z) : M (option error) :=
  CleanKey key (GetTTLKeyBytes o) o now change.

(** [getTxnObject]: the object is assigned in place, so it is returned beside the
    error. *)
Definition getTxnObject (key : bytes) (object : Object) (clear : bool) : M (Object * option error) :=
  let getType := o_Type object in
  let! r := Get key in
  match r with
  | inl e => ret (object, Some e)
  | inr value =>
      match ObjectDecode value object with
      | (object, Some _) => ret (object, Some KeyNotFound)
      | (object, None) =>
          let! t := get_txn in
          if (o_TTL object >? 0) && (o_TTL object <=? t_Now t) then
            let! c := get_config in
            let object := CleanValue (ObjectHash c) getType object in
            if clear then
              do! DeleteKey key object (o_TTL object) MinusCount
              else (fun e => ret (object, Some e)) in
              ret (object, Some KeyNotFound)
            else ret (object, Some KeyNotFound)
          else if negb (beq getType UnknownType) && negb (beq getType (o_Type object))
          then ret (object, Some (WrongTypeErr : error))
          else ret (object, None)
      end
  end.

(** [PutOrDeleteKV(txn, object, k, v, delta)]; a nil [v] deletes. *)
Definition PutOrDeleteKV (object : Object) (k : bytes) (v : option bytes) (delta : Z) :
    M (Z * option error) :=
  do! match v with None => Del k | Some v => Put k v end else (fun e => ret (0, Some e)) in
  if delta =? 0 then ret (0, None)
  else
    let! c := get_config in
    if ObjectDisableCount object && DisableCount c then ret (0, None)
    else
      let! t := get_txn in
      let! (count, err) :=
        GetCount (t_UserId t) (t_DBId t) (o_Hash object) KeyPrefix (sl (o_Value object)) v in
      match err with
      | None | Some KeyNotFound =>
          let count := set_c (c_Timestamp count) (i64 (c_Value count + delta)) count in
          let! err := SetCount count in
          ret (c_Value count, err)
      | Some e => ret (0, Some e)
      end.

(** hash.go: the number of entries, by listing them. *)
Definition ScanCount (object : Object) : M (error + Z) :=
  match GetKeyFuncs (o_Type object) with
  | None => ret (inl (ErrNotSupport : error))
  | Some getKeyFunc =>
      let start := getKeyFunc object [] in
      let end_ := Bytes.PrefixNext start in
      let! c := get_config in
      let! (count, err) :=
        List start end_ (100 * ScanMaxCount c)
          (fun count key _ =>
             if len key <? len start then ret (count, true) else ret (i64 (count + 1), true)) 0 in
      match err with
      | Some e => ret (inl e)
      | None => ret (inr count)
      end
  end.

Definition GetCountByObject (object : Object) : M (error + Z) :=
  let! c := get_config in
  if DisableCount c && ObjectDisableCount object then ScanCount object
  else
    let! t := get_txn in
    val! counts := ListCount (t_UserId t) (t_DBId t) KeyPrefix (sl (o_Value object))
    else (fun e => ret (inl e)) in
    ret (inr (foldl (fun sum count => i64 (sum + c_Value count)) 0 counts)).

Definition GetCountByKey (arg : bytes) (typo : Init.Byte.byte) : M (error + Z) :=
  let! object := NewObject typo arg in
  let! (object, err) := getTxnObject (ObjectKeyBytes object) object false in
  match err with
  | Some KeyNotFound => ret (inr 0)
  | Some e => ret (inl e)
  | None => GetCountByObject object
  end.

(** hash.go: the two ways a command obtains the object of a collection. *)
Definition DeleteThenCreateUUIDObject (typo : Init.Byte.byte) (arg : bytes) (create : bool) :
    M (Object * option error) :=
  let! object := NewObject typo arg in
  let key := ObjectKeyBytes object in
  let! (object, err) := getTxnObject key object true in
  let create_it (object : Object) : M (Object * option error) :=
    if negb create then ret (object, None)
    else
      val! id := uuid_NewUUID else (fun e => ret (object, Some e)) in
      let! t := get_txn in
      let object := set_o_Timestamp (t_Timestamp t) (set_o_Value (Some id) object) in
      let! err := setTxnObject key object PlusCount in
      ret (object, err) in
  match err with
  | Some KeyNotFound => create_it object
  | Some e => ret (object, Some e)
  | None =>
      let! t := get_txn in
      do! DeleteKey key object (t_Now t) MinusCount else (fun e => ret (object, Some e)) in
      let! c := get_config in
      create_it (CleanValue (ObjectHash c) typo object)
  end.

Definition GetOrCreateUUIDObject (typo : Init.Byte.byte) (arg : bytes) : M (Object * option error) :=
  let! object := NewObject typo arg in
  let key := ObjectKeyBytes object in
  let! (object, err) := getTxnObject key object true in
  match err with
  | Some KeyNotFound =>
      val! id := uuid_NewUUID else (fun e => ret (object, Some e)) in
      let! t := get_txn in
      let object := set_o_Timestamp (t_Timestamp t) (set_o_Value (Some id) object) in
      let! err := setTxnObject key object PlusCount in
      ret (object, err)
  | e => ret (object, e)
  end.

End object.

(** ** The layout of keys and headers *)

Definition wf_ns (user db : Z) : Prop := 0 <= user < 2 ^ 16 /\ 0 <= db < 2 ^ 8.

Lemma z2b_inj x y : 0 <= x < 256 -> 0 <= y < 256 -> z2b x = z2b y -> x = y.
Proof. intros Hx Hy E. apply (f_equal b2z) in E. rewrite !b2z_z2b, !Z.mod_small in E; lia. Qed.

Lemma GetKeyBytes_app typo user db p data :
  GetKeyBytes typo user db p data = (typo :: be_put 2 user ++ [z2b db; p]) ++ concat data.
Proof. unfold GetKeyBytes. cbn [app]. by rewrite <- app_assoc. Qed.

Lemma len_GetKeyBytes typo user db p data :
  len (GetKeyBytes typo user db p data) = 5 + len (concat data).
Proof. rewrite GetKeyBytes_app, len_app. unfold len at 1. simpl. lia. Qed.

(** Keys are laid out injectively: two keys are equal only when they belong to the
    same index, user, database and kind and carry the same data, so that users,
    databases, headers, values, counters and the expiry index never overlap. *)
Lemma GetKeyBytes_inj typo typo' user user' db db' p p' data data' :
  wf_ns user db -> wf_ns user' db' ->
  GetKeyBytes typo user db p data = GetKeyBytes typo' user' db' p' data' ->
  typo = typo' /\ user = user' /\ db = db' /\ p = p' /\ concat data = concat data'.
Proof.
  intros [Hu Hd] [Hu' Hd']. unfold GetKeyBytes. intros E0.
  pose proof (f_equal (hd x00) E0) as Et. apply (f_equal tail) in E0. cbn [hd tail] in Et, E0.
  apply app_inj_1 in E0 as [E1 E2]; [|by rewrite !length_be_put].
  apply be_put_inj in E1; [|simpl; lia..]. injection E2 as E2 E3 E4.
  apply z2b_inj in E2; [|lia..]. done.
Qed.

Lemma GetKeyBytes_inj_witness :
  GetKeyBytes DataPrefix 1 2 KeyPrefix [bs "a"; bs "b"] = GetKeyBytes DataPrefix 1 2 KeyPrefix [bs "ab"]
  /\ concat [bs "a"; bs "b"] = concat [bs "ab"].
Proof.
  split; [reflexivity|].
  refine (proj2 (proj2 (proj2 (proj2 (GetKeyBytes_inj DataPrefix DataPrefix 1 1 2 2 KeyPrefix KeyPrefix
    [bs "a"; bs "b"] [bs "ab"] _ _ _))))); [done|done|reflexivity].
Defined.

Lemma slice_app {A} (a b c : list A) : slice (length a) (length a + length b) (a ++ b ++ c) = b.
Proof.
  unfold slice. rewrite drop_app_length. replace (_ + _ - _)%nat with (length b) by lia.
  apply take_app_length.
Qed.

(** A field of [n] bytes behind [i] others. *)
Lemma slice_field {A} i j (a b c : list A) :
  i = length a -> j = (i + length b)%nat -> slice i j (a ++ b ++ c) = b.
Proof. intros -> ->. apply slice_app. Qed.

Lemma drop_field {A} i (a c : list A) : i = length a -> drop i (a ++ c) = c.
Proof. intros ->. apply drop_app_length. Qed.

Definition wf_object (o : Object) : Prop :=
  wf_ns (o_UserId o) (o_Db o) /\ in_i64 (o_TTL o) /\ in_u64 (o_Timestamp o) /\
  0 <= o_Hash o < 2 ^ 16 /\
  if IsSimple o then (exists v, o_Value o = Some v) /\ o_Extra o = None
  else (exists v, o_Value o = Some v /\ length v = 16%nat) /\ exists x, o_Extra o = Some x.

Lemma ObjectEncode_length o : len (ObjectEncode o) = 19 + len (sl (o_Value o)) + len (sl (o_Extra o)).
Proof. unfold ObjectEncode, len. cbn [length]. autorewrite with golen. lia. Qed.

(** The fields of an encoded header. *)
Lemma ObjectEncode_fields o :
  nth 0 (ObjectEncode o) x00 = o_Type o /\
  slice 1 9 (ObjectEncode o) = be_put 8 (u64 (o_TTL o)) /\
  slice 9 17 (ObjectEncode o) = be_put 8 (o_Timestamp o) /\
  slice 17 19 (ObjectEncode o) = be_put 2 (o_Hash o) /\
  drop 19 (ObjectEncode o) = sl (o_Value o) ++ sl (o_Extra o).
Proof.
  by repeat split.
Qed.

Lemma ObjectDecode_encoded o b :
  wf_object o -> o_UserId b = o_UserId o -> o_Db b = o_Db o -> o_Key b = o_Key o ->
  (IsSimple o = true -> o_Extra b = None) ->
  ObjectDecode (ObjectEncode o) b = (o, None).
Proof.
  intros (_&Httl&Hts&Hh&Hv) Eu Ed Ek Ex. unfold ObjectDecode.
  destruct (ObjectEncode_fields o) as (E0&E1&E2&E3&E4).
  destruct (Z.ltb_spec (len (ObjectEncode o)) (1 + 8 + 8 + 2)) as [Hl|_].
  { rewrite ObjectEncode_length in Hl.
    pose proof (len_nonneg (sl (o_Value o))). pose proof (len_nonneg (sl (o_Extra o))). lia. }
  rewrite E0, E1, E2, E3, !be_get_put, (Z.mod_small (o_Timestamp o)), (Z.mod_small (o_Hash o)),
    (Z.mod_small (u64 _)), i64_u64
    by (first [done | apply u64_range | unfold in_u64 in *; simpl; lia]).
  change (IsSimple _) with (IsSimple o) at 1.
  destruct o as [u d k ty ttl ts v h x]; cbn [o_UserId o_Db o_Key o_Type o_TTL o_Timestamp o_Value
    o_Hash o_Extra] in *.
  destruct (IsSimple _) eqn:Hs.
  - destruct Hv as [[w ->] ->]. cbn [sl default] in E4. rewrite app_nil_r in E4. rewrite E4.
    unfold set_o_Value; simpl. by rewrite Eu, Ed, Ek, Ex.
  - destruct Hv as [(w&->&Hw) [e ->]].
    destruct (Z.ltb_spec (len (ObjectEncode (mkObject u d k ty ttl ts (Some w) h (Some e)))) (19 + 16)) as [Hl|_].
    { rewrite ObjectEncode_length in Hl. cbn [o_Value o_Extra sl default] in Hl.
      pose proof (len_nonneg e). unfold len in *. cbn in Hl. lia. }
    cbn [sl default o_Value o_Extra] in E4. rewrite Eu, Ed, Ek. f_equal. f_equal; f_equal.
    + change (slice 19 35 ?x) with (take 16 (drop 19 x)). rewrite E4. by apply take_app_length'.
    + change 35%nat with (19 + 16)%nat. rewrite <- drop_drop, E4. by apply drop_app_length'.
Qed.

(** C38. A header decodes to the object it encodes, when the object decoded into names the
    same key and, for a string or a JSON document, has no extra bytes: nothing else of what
    it held before matters. *)
Theorem ObjectDecode_ObjectEncode o b :
  wf_object o -> o_UserId b = o_UserId o -> o_Db b = o_Db o -> o_Key b = o_Key o ->
  (IsSimple o = true -> o_Extra b = None) ->
  ObjectDecode (ObjectEncode o) b = (o, None).
Proof. apply ObjectDecode_encoded. Qed.

Definition sample_object : Object := {|
  o_UserId := 1; o_Db := 2; o_Key := bs "k"; o_Type := HashType; o_TTL := 5; o_Timestamp := 7;
  o_Value := Some (be_put 16 9); o_Hash := 15; o_Extra := Some [] |}.

Lemma ObjectDecode_ObjectEncode_witness :
  wf_object sample_object /\
  ObjectDecode (ObjectEncode sample_object) sample_object = (sample_object, None).
Proof.
  assert (wf_object sample_object) as Hwf.
  { repeat split; try (vm_compute; congruence); eexists; repeat split; reflexivity. }
  split; [exact Hwf|].
  apply (ObjectDecode_ObjectEncode sample_object sample_object Hwf); try reflexivity.
  intros Hs. vm_compute in Hs. discriminate Hs.
Defined.

(** *** The expiry index *)

Lemma getTTLBytes_pos o typo data :
  0 < o_TTL o ->
  getTTLBytes o typo data =
  (TTLPrefix :: be_put 2 (o_UserId o) ++ [z2b (o_Db o); typo]) ++ be_put 8 (u64 (o_TTL o)) ++ data.
Proof.
  intros Ht. unfold getTTLBytes. destruct (Z.leb_spec (o_TTL o) 0); [lia|].
  rewrite GetKeyBytes_app. cbn [concat]. by rewrite app_nil_r.
Qed.

Lemma len_getTTLBytes o typo data : 0 < o_TTL o -> len (getTTLBytes o typo data) = 13 + len data.
Proof. intros Ht. rewrite getTTLBytes_pos, !len_app by done. unfold len. simpl. lia. Qed.

(** An entry of the expiry index names the object it was written for: its user,
    database, expiry and key, and, when the entry's value carries them, its type and
    identifier. *)
Lemma GetObjectFromTTL_GetTTLKeyBytes o v :
  wf_ns (o_UserId o) (o_Db o) -> 0 < o_TTL o <= MaxInt64 ->
  GetObjectFromTTL (GetTTLKeyBytes o) v =
  inr {| o_UserId := o_UserId o; o_Db := o_Db o; o_Key := o_Key o;
         o_Type := if len v >=? 17 then hd x00 v else x00; o_TTL := o_TTL o; o_Timestamp := 0;
         o_Value := if len v >=? 17 then Some (tail v) else None; o_Hash := 0; o_Extra := None |}.
Proof.
  intros [Hu Hd] Ht. unfold GetObjectFromTTL, GetTTLKeyBytes.
  rewrite len_getTTLBytes, getTTLBytes_pos by lia.
  pose proof (len_nonneg (o_Key o)). destruct (Z.ltb_spec (13 + len (o_Key o)) 13); [lia|].
  set (k := _ ++ _).
  change (nth 0 k x00) with TTLPrefix. change (nth 3 k x00) with (z2b (o_Db o)).
  change (nth 4 k x00) with KeyPrefix. change (slice 1 3 k) with (be_put 2 (o_UserId o)).
  change (slice 5 13 k) with (be_put 8 (u64 (o_TTL o))). change (drop 13 k) with (o_Key o).
  change (beq TTLPrefix TTLPrefix) with true. change (beq KeyPrefix KeyPrefix) with true.
  cbn [negb]. rewrite !be_get_put, b2z_z2b, !Z.mod_small
    by (simpl; first [lia | pose proof (u64_range (o_TTL o)) as Hr; unfold in_u64 in Hr; lia]).
  rewrite i64_u64 by (unfold in_i64, MinInt64; lia).
  destruct (Z.geb_spec (len v) 17); [|done].
  destruct v as [|b v]; [unfold len in *; simpl in *; lia|done].
Qed.

Lemma GetObjectFromTTL_GetTTLKeyBytes_witness :
  GetObjectFromTTL (GetTTLKeyBytes sample_object) (EncodeTTLValue HashType (be_put 16 9)) =
  inr {| o_UserId := 1; o_Db := 2; o_Key := bs "k"; o_Type := HashType; o_TTL := 5;
         o_Timestamp := 0; o_Value := Some (be_put 16 9); o_Hash := 0; o_Extra := None |}.
Proof.
  etransitivity;
    [apply (GetObjectFromTTL_GetTTLKeyBytes sample_object); vm_compute; intuition congruence
    |reflexivity].
Defined.

(** Within one user, database and kind, the expiry index is ordered by expiry
    time: a scan meets the entries that expired first before all others. *)
Lemma getTTLBytes_order o o' typo k k' :
  o_UserId o = o_UserId o' -> o_Db o = o_Db o' ->
  0 < o_TTL o <= MaxInt64 -> 0 < o_TTL o' <= MaxInt64 ->
  bytes_compare (getTTLBytes o typo k) (getTTLBytes o' typo k') =
  match o_TTL o ?= o_TTL o' with Eq => bytes_compare k k' | c => c end.
Proof.
  unfold MaxInt64. intros Eu Ed Ht Ht'. rewrite !getTTLBytes_pos, Eu, Ed, bytes_compare_app by lia.
  rewrite !u64_small by (unfold in_u64; lia).
  pose proof (bytes_compare_be_put 8 (o_TTL o) (o_TTL o') ltac:(simpl; lia) ltac:(simpl; lia)) as Hc.
  destruct (Z.compare_spec (o_TTL o) (o_TTL o')) as [E|E|E].
  - by rewrite E, bytes_compare_app.
  - by apply bytes_compare_fst.
  - by apply bytes_compare_fst.
Qed.

Lemma getTTLBytes_order_witness :
  bytes_compare (getTTLBytes sample_object KeyPrefix (bs "z"))
    (getTTLBytes (set_o_TTL 256 sample_object) KeyPrefix (bs "a")) = Lt.
Proof.
  rewrite (getTTLBytes_order sample_object (set_o_TTL 256 sample_object) KeyPrefix (bs "z") (bs "a"))
    by (vm_compute; intuition congruence).
  reflexivity.
Defined.

(** *** Counters and values *)

(** A counter decodes to what it was encoded from: its timestamp, its value (even
    the least one, whose magnitude does not fit, comes back), and its trailing bytes. *)
Lemma DecodeCount_EncodeCount c b :
  in_u64 (c_Timestamp c) -> in_i64 (c_Value c) -> c_Key b = c_Key c -> c_Shard b = c_Shard c ->
  DecodeCount b (EncodeCount c) = Some c.
Proof.
  intros Ht Hv Ek Es. unfold DecodeCount.
  assert (len (EncodeCount c) = 17 + len (c_UserValue c)) as ->.
  { unfold EncodeCount, len. autorewrite with golen. cbn [length]. autorewrite with golen. lia. }
  pose proof (len_nonneg (c_UserValue c)).
  destruct (Z.ltb_spec (17 + len (c_UserValue c)) 17); [lia|].
  set (s := if c_Value c >=? 0 then x01 else x00).
  set (m := if c_Value c >=? 0 then u64 (c_Value c) else u64 (i64 (- c_Value c))).
  change (take 8 (EncodeCount c)) with (be_put 8 (c_Timestamp c)).
  change (nth 8 (EncodeCount c) x00) with s.
  change (slice 9 17 (EncodeCount c)) with (be_put 8 m).
  change (drop 17 (EncodeCount c)) with (c_UserValue c).
  assert (in_u64 m) as Hm by (unfold m; destruct (c_Value c >=? 0); apply u64_range).
  rewrite !be_get_put, !Z.mod_small by (unfold in_u64 in *; simpl; lia).
  rewrite Ek, Es. destruct c as [ts v k sh u]; cbn [c_Timestamp c_Value c_Key c_Shard c_UserValue] in *.
  f_equal. f_equal. unfold s, m. destruct (Z.geb_spec v 0).
  - change (beq x01 x01) with true. by apply i64_u64.
  - change (beq x00 x01) with false. rewrite i64_u64 by apply i64_range.
    unfold in_i64, MinInt64, MaxInt64 in Hv. destruct (decide (v = - 2 ^ 63)) as [->|]; [done|].
    rewrite (i64_small (- v)), Z.opp_involutive by (unfold in_i64, MinInt64, MaxInt64; lia).
    apply i64_small. unfold in_i64, MinInt64, MaxInt64. lia.
Qed.

Definition sample_count (v : Z) : Count :=
  {| c_Timestamp := 3; c_Value := v; c_Key := bs "k"; c_Shard := 1; c_UserValue := [] |}.

Lemma DecodeCount_EncodeCount_witness :
  DecodeCount (sample_count 0) (EncodeCount (sample_count (-4))) = Some (sample_count (-4)).
Proof.
  apply (DecodeCount_EncodeCount (sample_count (-4)) (sample_count 0)); vm_compute; intuition congruence.
Defined.

Lemma DecodeValue_EncodeValue v : in_u64 (v_Timestamp v) -> DecodeValue (EncodeValue v) = inr v.
Proof.
  intros Ht. unfold DecodeValue.
  assert (len (EncodeValue v) = 8 + len (v_Value v)) as ->
    by (unfold EncodeValue, len; autorewrite with golen; lia).
  pose proof (len_nonneg (v_Value v)). destruct (Z.ltb_spec (8 + len (v_Value v)) 8); [lia|].
  change (take 8 (EncodeValue v)) with (be_put 8 (v_Timestamp v)).
  change (drop 8 (EncodeValue v)) with (v_Value v).
  rewrite be_get_put, Z.mod_small by (unfold in_u64 in *; simpl; lia). by destruct v.
Qed.
