(* ===== verification/Reply.v ===== *)
(** Replies: the values a handler returns to [conn.WriteAny], and the ways handlers
    report errors. *)

From S2P Require Import Prelude Xerror GoStd Utils Float Store Object.

#[local] Open Scope Z_scope.

(** The dynamic types of the [interface{}] values the modelled handlers return. *)
Inductive reply :=
  | RNil
  | RErr (e : error)
  | RInt (n : Z)            (* redcon.SimpleInt *)
  | RStatus (s : string)    (* redcon.SimpleString *)
  | RBulk (b : bytes)       (* []byte, string *)
  | RGoInt (n : Z)          (* int, int64: written as a bulk string *)
  | RGoUint (n : Z)         (* uint64: likewise *)
  | RFloat (f : float64)    (* float64: likewise *)
  | RArr (l : list reply).  (* slices *)

Definition OK : reply := RStatus "OK".
Definition EmptyString_reply : reply := RStatus "".
Definition EmptySlice : reply := RArr [].
Definition EmptyBytes : reply := RArr [].
Definition EmptyCursor : reply := RArr [RGoInt 0; RArr []].
Definition bulk_or_nil (v : option bytes) : reply :=
  match v with Some v => RBulk v | None => RNil end.

(** A [utils.Number]. *)
Definition number_reply (n : Number) : reply :=
  if IsInt n then RGoUint (Uint64 n) else RFloat (Float64 n).

(** [utils.B2S] of an argument. *)
Definition B2S (b : bytes) : string := String.string_of_list_byte b.

(** [args[i]] where the length has been tested. *)
Definition arg (i : nat) (args : list bytes) : bytes := nth i args [].

Section reply.
Context `{Platform}.

Definition TxnHandle : Type := list bytes -> M reply.

(** [return txn.SetError(err)] and [return txn.SetWrongArgs(cmd)]. *)
Definition reply_err (e : error) : M reply := let! e := SetError e in ret (RErr e).
Definition wrong_args (command : string) : M reply :=
  let! e := SetWrongArgs command in ret (RErr e).

(** [err] after [ret, err := f()] in a handler that replies with an integer. *)
Definition reply_int (m : M (error + Z)) : M reply :=
  val! n := m else reply_err in ret (RInt n).

End reply.
