(* ===== verification/ObjectSpec.v ===== *)
(** What the object layer does while TiKV answers: weakest preconditions for
    [setTxnObject], [getTxnObject], [DeleteKey] and [PutOrDeleteKV] in terms of the
    data view, that is, of the transaction's view without the sharded counters. *)

From S2P Require Import Prelude Xerror GoStd Utils Store Mem Object.
From Stdlib Require Import Init.Byte.

#[local] Open Scope Z_scope.

(** ** The data view *)

Definition is_count (k : bytes) : Prop := head k = Some CountPrefix.
#[export] Instance is_count_dec k : Decision (is_count k).
Proof. unfold is_count. apply _. Defined.

Definition dview (m : gmap bytes bytes) : gmap bytes bytes :=
  base.filter (fun kv => ~ is_count (fst kv)) m.

(** What [Put] maintains of the store: no value reaches the size limit, and every
    counter is long enough to be decoded. *)
Definition wf_store (m : gmap bytes bytes) : Prop :=
  forall k b, m !! k = Some b -> len b < MAX_VALUE_SIZE /\ (is_count k -> 17 <= len b).

Lemma dview_lookup m k : ~ is_count k -> dview m !! k = m !! k.
Proof.
  intros Hk. unfold dview. destruct (m !! k) as [v|] eqn:E.
  - by apply map_lookup_filter_Some.
  - apply map_lookup_filter_None. by left.
Qed.

Lemma dview_lookup_count m k : is_count k -> dview m !! k = None.
Proof. intros Hk. apply map_lookup_filter_None. right. intros v _ Hn. by apply Hn. Qed.

Lemma dview_insert m k v : ~ is_count k -> dview (<[k := v]> m) = <[k := v]> (dview m).
Proof. intros Hk. by apply map_filter_insert_True. Qed.

Lemma dview_delete m k : dview (delete k m) = delete k (dview m).
Proof. apply map_filter_delete. Qed.

Lemma dview_insert_count m k v : is_count k -> dview (<[k := v]> m) = dview m.
Proof.
  intros Hk. apply map_eq. intros i. destruct (decide (is_count i)) as [Hi|Hi].
  - by rewrite !dview_lookup_count.
  - rewrite !dview_lookup, lookup_insert_ne; [done|by intros ->|done..].
Qed.

Lemma wf_store_insert m k v :
  wf_store m -> len v < MAX_VALUE_SIZE -> (is_count k -> 17 <= len v) -> wf_store (<[k := v]> m).
Proof.
  intros Hm Hl Hk k' b. destruct (decide (k = k')) as [->|Hn].
  - rewrite lookup_insert_eq. by intros [= <-].
  - rewrite lookup_insert_ne by done. apply Hm.
Qed.

Lemma wf_store_delete m k : wf_store m -> wf_store (delete k m).
Proof. intros Hm k' b [_ H]%lookup_delete_Some. by apply Hm. Qed.

Lemma GetKeyBytes_count typo user db p data :
  is_count (GetKeyBytes typo user db p data) <-> typo = CountPrefix.
Proof. unfold is_count, GetKeyBytes. simpl. naive_solver. Qed.

Lemma ObjectKeyBytes_data o : ~ is_count (ObjectKeyBytes o).
Proof. by unfold ObjectKeyBytes; rewrite GetKeyBytes_count. Qed.
Lemma GetValueBytes_data o f : ~ is_count (GetValueBytes o f).
Proof. by unfold GetValueBytes; rewrite GetKeyBytes_count. Qed.
Lemma getTTLBytes_data o typo d : ~ is_count (getTTLBytes o typo d).
Proof.
  unfold getTTLBytes. destruct (o_TTL o <=? 0); [by unfold is_count|]. by rewrite GetKeyBytes_count.
Qed.
#[export] Hint Resolve ObjectKeyBytes_data GetValueBytes_data getTTLBytes_data : go.

Lemma len_ObjectKeyBytes o : len (ObjectKeyBytes o) = 5 + len (o_Key o).
Proof. unfold ObjectKeyBytes. rewrite len_GetKeyBytes. simpl. by rewrite app_nil_r. Qed.
Lemma len_GetValueBytes o f : len (GetValueBytes o f) = 5 + len (sl (o_Value o)) + len f.
Proof. unfold GetValueBytes. rewrite len_GetKeyBytes. simpl. rewrite app_nil_r, len_app. lia. Qed.

(** ** Running the object layer *)

Section spec.
Context `{PlatformSpec}.

(** A transaction of a live connection with configuration [c], on a store that is up. *)
Record ready (c : Config) (t : Txn) : Prop := {
  rd_up : t_up t;
  rd_store : wf_store (t_view t);
  rd_config : t_Config t = Some c;
  rd_now : 0 < t_Now t <= MaxInt64;
  rd_ts : in_u64 (t_Timestamp t);
  rd_ns : wf_ns (t_UserId t) (t_DBId t);
  rd_hash : 0 <= ObjectHash c < 2 ^ 16;
  rd_dbsize : 0 <= DbSizeHash c
}.

Definition dv (t : Txn) : gmap bytes bytes := dview (t_view t).

(** [t'] is [t] after writes that lead to the data view [d]; counters may have changed. *)
Record dwrote (c : Config) (t t' : Txn) (d : gmap bytes bytes) : Prop := {
  dw_env : same_env t t';
  dw_ready : ready c t';
  dw_view : dv t' = d
}.

Lemma dwrote_refl c t : ready c t -> dwrote c t t (dv t).
Proof. intros. by split. Qed.

Lemma dwrote_trans c t1 t2 t3 d2 d3 : dwrote c t1 t2 d2 -> dwrote c t2 t3 d3 -> dwrote c t1 t3 d3.
Proof. intros [] []. split; [by etrans|done|done]. Qed.

(** Two rounds of writes compose. *)
Lemma dwrote_then c t1 t2 t3 d2 f :
  dwrote c t1 t2 d2 -> dwrote c t2 t3 (f (dv t2)) -> dwrote c t1 t3 (f d2).
Proof. intros Hw. destruct (Hw) as [_ _ <-]. by apply dwrote_trans with (1 := Hw). Qed.

Lemma ready_env c t t' :
  ready c t -> same_env t t' -> t_up t' -> wf_store (t_view t') -> ready c t'.
Proof. intros [] [] ? ?. split; first [done | congruence | by rewrite ?se_Now0, ?se_Timestamp0, ?se_UserId0, ?se_DBId0]. Qed.

Lemma dwrote_wrote c t t' v :
  ready c t -> wrote t t' v -> wf_store v -> dwrote c t t' (dview v).
Proof.
  intros Hr [He Hu Hv] Hw. split; [done| |by unfold dv; rewrite Hv].
  eapply ready_env; [done..|by rewrite Hv].
Qed.

Lemma wp_data_Get c key t (Q : error + bytes -> Txn -> Prop) :
  ready c t -> ~ is_count key -> len key < MAX_KEY_SIZE ->
  Q (match dv t !! key with Some v => inr v | None => inl KeyNotFound end) t ->
  wp (Get key) t Q.
Proof.
  intros Hr Hd Hk HQ. apply wp_Get; [by apply (rd_up c)|done|]. unfold dv in HQ.
  by rewrite dview_lookup in HQ.
Qed.

Lemma wp_data_Put c key val t (Q : option error -> Txn -> Prop) :
  ready c t -> ~ is_count key -> len key < MAX_KEY_SIZE -> 0 < len val < MAX_VALUE_SIZE ->
  (forall t', dwrote c t t' (<[key := val]> (dv t)) -> Q None t') -> wp (Put key val) t Q.
Proof.
  intros Hr Hd Hk Hv HQ. apply wp_Put; [by apply (rd_up c)|done..|]. intros t' Hw. apply HQ.
  unfold dv. rewrite <- dview_insert by done. apply dwrote_wrote; [done..|].
  apply wf_store_insert; [by apply (rd_store c)|lia|done || lia].
Qed.

Lemma wp_count_Put c key val t (Q : option error -> Txn -> Prop) :
  ready c t -> is_count key -> len key < MAX_KEY_SIZE -> 17 <= len val < MAX_VALUE_SIZE ->
  (forall t', dwrote c t t' (dv t) -> t_view t' = <[key := val]> (t_view t) -> Q None t') ->
  wp (Put key val) t Q.
Proof.
  intros Hr Hd Hk Hv HQ. apply wp_Put; [by apply (rd_up c)|done|lia|]. intros t' Hw. apply HQ.
  - unfold dv. rewrite <- (dview_insert_count _ key val) by done. apply dwrote_wrote; [done..|].
    apply wf_store_insert; [by apply (rd_store c)|lia|done || lia].
  - by destruct Hw.
Qed.

Lemma wp_data_Del c key t (Q : option error -> Txn -> Prop) :
  ready c t -> len key < MAX_KEY_SIZE ->
  (forall t', dwrote c t t' (delete key (dv t)) -> Q None t') -> wp (Del key) t Q.
Proof.
  intros Hr Hk HQ. apply wp_Del; [by apply (rd_up c)|done|]. intros t' Hw. apply HQ.
  unfold dv. rewrite <- dview_delete. apply dwrote_wrote; [done..|].
  apply wf_store_delete, Hr.
Qed.

Lemma wp_config c t (Q : Config -> Txn -> Prop) : ready c t -> Q c t -> wp get_config t Q.
Proof. intros Hr. by apply wp_get_config, Hr. Qed.

Lemma get_config_run c t : ready c t -> get_config t = Ret c t.
Proof. intros Hr. unfold get_config. by rewrite (rd_config _ _ Hr). Qed.

Lemma wp_NewObject c typo key t (Q : Object -> Txn -> Prop) :
  ready c t -> Q (new_object c (t_UserId t) (t_DBId t) typo key) t -> wp (NewObject typo key) t Q.
Proof. intros Hr HQ. apply wp_bind, (wp_config c); [done|]. by apply wp_bind, wp_get_txn. Qed.

(** *** Counters *)

Definition fresh_count (ts shard : Z) (k : bytes) : Count :=
  {| c_Timestamp := ts; c_Value := 0; c_Key := k; c_Shard := shard; c_UserValue := [] |}.

(** The counter as [GetCount] returns it. *)
Definition read_count (t : Txn) (sk : Z * bytes) : Count :=
  let c0 := fresh_count (t_Timestamp t) (fst sk) (snd sk) in
  match t_view t !! snd sk with Some b => default c0 (DecodeCount c0 b) | None => c0 end.

Lemma count_key_count user db hash p key hv : is_count (snd (count_key user db hash p key hv)).
Proof. unfold count_key. by destruct (hash >? 0). Qed.

Lemma len_count_key user db hash p key hv :
  len (snd (count_key user db hash p key hv)) <= 7 + len key.
Proof.
  unfold count_key. destruct (hash >? 0); cbn [snd]; rewrite len_GetKeyBytes; cbn [concat];
    rewrite ?len_app, ?app_nil_r; unfold len; cbn [length]; autorewrite with golen; lia.
Qed.

Lemma DecodeCount_some c b : 17 <= len b ->
  exists r, DecodeCount c b = Some r /\ c_Key r = c_Key c /\ len (c_UserValue r) = len b - 17 /\
            in_i64 (c_Value r).
Proof.
  intros Hb. unfold DecodeCount. destruct (Z.ltb_spec (len b) 17); [lia|]. eexists. split; [done|].
  cbn [c_Key c_UserValue c_Value]. repeat split; try (destruct (beq _ _); apply i64_range).
  unfold len in *. rewrite length_drop. lia.
Qed.

Lemma wp_GetCount c user db hash p key hv t (Q : Count * option error -> Txn -> Prop) :
  ready c t -> len key < MAX_KEY_SIZE - 7 ->
  (let sk := count_key user db hash p key hv in
   Q (read_count t sk, match t_view t !! snd sk with Some _ => None | None => Some KeyNotFound end) t) ->
  wp (GetCount user db hash p key hv) t Q.
Proof.
  intros Hr Hk HQ. unfold GetCount. apply wp_bind, wp_get_txn.
  pose proof (count_key_count user db hash p key hv) as Hc.
  pose proof (len_count_key user db hash p key hv) as Hl.
  unfold read_count in HQ. destruct (count_key user db hash p key hv) as [shard k].
  cbn [fst snd] in *. apply wp_bind, wp_Get; [by apply (rd_up c)|lia|].
  destruct (t_view t !! k) as [b|] eqn:E; [|done].
  destruct (DecodeCount_some (fresh_count (t_Timestamp t) shard k) b) as (r&Hd&_).
  { by eapply (rd_store c t). }
  change (DecodeCount _ b) with (DecodeCount (fresh_count (t_Timestamp t) shard k) b).
  rewrite Hd in HQ |- *. done.
Qed.

Lemma read_count_ok c t sk : ready c t -> is_count (snd sk) ->
  c_Key (read_count t sk) = snd sk /\ 17 + len (c_UserValue (read_count t sk)) < MAX_VALUE_SIZE /\
  in_i64 (c_Value (read_count t sk)).
Proof.
  intros Hr Hc. unfold read_count. destruct (t_view t !! snd sk) as [b|] eqn:E.
  - destruct (rd_store c t Hr _ _ E) as [Hb1 Hb]. specialize (Hb Hc).
    destruct (DecodeCount_some (fresh_count (t_Timestamp t) (fst sk) (snd sk)) b) as (r&->&Hk&Hu&Hv); [lia|].
    cbn [default]. unfold default; cbn. repeat split; [done|lia|apply Hv..].
  - by split; [|split].
Qed.

Lemma len_EncodeCount c : len (EncodeCount c) = 17 + len (c_UserValue c).
Proof. unfold EncodeCount, len. autorewrite with golen. cbn [length]. autorewrite with golen. lia. Qed.

(** Reading a counter, adding to it and writing it back. *)
Definition bumped (t : Txn) (sk : Z * bytes) (delta : Z) : bytes :=
  let cnt := read_count t sk in
  EncodeCount (set_c (t_Timestamp t) (i64 (c_Value cnt + delta)) cnt).

Lemma wp_bump c sk delta t (Q : option error -> Txn -> Prop) :
  ready c t -> is_count (snd sk) -> len (snd sk) < MAX_KEY_SIZE ->
  (forall t', dwrote c t t' (dv t) -> t_view t' = <[snd sk := bumped t sk delta]> (t_view t) -> Q None t') ->
  let cnt := read_count t sk in
  wp (SetCount (set_c (c_Timestamp cnt) (i64 (c_Value cnt + delta)) cnt)) t Q.
Proof.
  intros Hr Hc Hk HQ cnt. unfold SetCount. apply wp_bind, wp_get_txn.
  destruct (read_count_ok c t sk Hr Hc) as (Ek&Hu&_).
  cbn [c_Key c_Value c_UserValue set_c]. fold cnt in Ek. rewrite Ek.
  apply (wp_count_Put c); [done..| |done].
  rewrite len_EncodeCount. cbn [c_UserValue set_c]. fold cnt in Hu. pose proof (len_nonneg (c_UserValue cnt)). lia.
Qed.

Lemma wp_count_delta c o delta change t (Q : option error -> Txn -> Prop) :
  ready c t -> (forall t', dwrote c t t' (dv t) -> Q None t') -> wp (count_delta o delta change) t Q.
Proof.
  intros Hr HQ. unfold count_delta. apply wp_bind, (wp_config c); [done|].
  destruct ((DbSizeHash c =? 0) || (delta =? 0)); [by apply HQ, dwrote_refl|].
  apply wp_bind.
  assert (forall hash hv, wp (GetCount (o_UserId o) (o_Db o) hash CountGeneral KEYSIZE hv) t
    (fun a t' => wp (let '(count, err) := a in
      match err with
      | None | Some KeyNotFound => SetCount (set_c (c_Timestamp count) (i64 (c_Value count + delta)) count)
      | Some e => ret (Some e)
      end) t' Q)) as Hg.
  { intros hash hv. apply (wp_GetCount c); [done|done|].
    pose proof (count_key_count (o_UserId o) (o_Db o) hash CountGeneral KEYSIZE hv) as Hc.
    pose proof (len_count_key (o_UserId o) (o_Db o) hash CountGeneral KEYSIZE hv) as Hl.
    cbv zeta. destruct (t_view t !! _); (apply (wp_bump c); [done..| |eauto]);
      change (len KEYSIZE) with 4 in Hl; unfold MAX_KEY_SIZE; lia. }
  destruct (has change GCChange); apply Hg.
Qed.

(** *** Headers *)

Lemma wp_setTxnObject_put c key o change t (Q : option error -> Txn -> Prop) :
  ready c t -> has change DeleteKeyType = false -> ~ is_count key -> len key < MAX_KEY_SIZE ->
  len (ObjectEncode o) < MAX_VALUE_SIZE ->
  (forall t', dwrote c t t' (<[key := ObjectEncode o]> (dv t)) -> Q None t') ->
  wp (setTxnObject key o change) t Q.
Proof.
  intros Hr Hc Hd Hk Hv HQ. unfold setTxnObject. rewrite Hc.
  apply wp_on_done, (wp_data_Put c); [done..| |].
  { rewrite ObjectEncode_length in *. pose proof (len_nonneg (sl (o_Value o))).
    pose proof (len_nonneg (sl (o_Extra o))). lia. }
  intros t1 Hw. apply (wp_count_delta c); [by destruct Hw|]. intros t2 Hw2. apply HQ.
  destruct Hw as [? ? <-]. by eapply dwrote_trans.
Qed.

Lemma wp_setTxnObject_del c key o change t (Q : option error -> Txn -> Prop) :
  ready c t -> has change DeleteKeyType = true -> len key < MAX_KEY_SIZE ->
  (forall t', dwrote c t t' (delete key (dv t)) -> Q None t') ->
  wp (setTxnObject key o change) t Q.
Proof.
  intros Hr Hc Hk HQ. unfold setTxnObject. rewrite Hc. apply wp_on_done, (wp_data_Del c); [done..|].
  intros t1 Hw. apply (wp_count_delta c); [by destruct Hw|]. intros t2 Hw2. apply HQ.
  destruct Hw as [? ? <-]. by eapply dwrote_trans.
Qed.

(** *** Reading and deleting objects *)

Definition expired (now : Z) (o : Object) : bool := (o_TTL o >? 0) && (o_TTL o <=? now).

Definition wrong_type (getType : Init.Byte.byte) (o : Object) : bool :=
  negb (beq getType UnknownType) && negb (beq getType (o_Type o)).

(** What [getTxnObject] returns, as a function of the data view. *)
Definition read_object (c : Config) (d : gmap bytes bytes) (now : Z) (o : Object) :
    Object * option error :=
  match d !! ObjectKeyBytes o with
  | None => (o, Some KeyNotFound)
  | Some v =>
      match ObjectDecode v o with
      | (o', Some _) => (o', Some KeyNotFound)
      | (o', None) =>
          if expired now o' then (CleanValue (ObjectHash c) (o_Type o) o', Some KeyNotFound)
          else if wrong_type (o_Type o) o' then (o', Some (WrongTypeErr : error))
          else (o', None)
      end
  end.

(** The data view after [getTxnObject] with [clear]: an expired header is removed, but
    not its entry in the expiry index. *)
Definition swept (d : gmap bytes bytes) (now : Z) (o : Object) : gmap bytes bytes :=
  match d !! ObjectKeyBytes o with
  | None => d
  | Some v =>
      match ObjectDecode v o with
      | (o', None) => if expired now o' then delete (ObjectKeyBytes o) d else d
      | _ => d
      end
  end.

(** Whether the header is there and expired. *)
Definition sweeps (d : gmap bytes bytes) (now : Z) (o : Object) : bool :=
  match d !! ObjectKeyBytes o with
  | None => false
  | Some v => match ObjectDecode v o with (o', None) => expired now o' | _ => false end
  end.

(** The data view after [DeleteKey] of an object, at a positive time. *)
Definition deleted (d : gmap bytes bytes) (o : Object) (now : Z) : gmap bytes bytes :=
  let d := delete (ObjectKeyBytes o) d in
  let d := if 0 <? o_TTL o then delete (GetTTLKeyBytes o) d else d in
  if negb (IsSimple o) && (len (sl (o_Value o)) >? 0)
  then <[GetTTLValueBytes (set_o_TTL now o) := [x01]]> d else d.

Lemma wp_clean c key o t (Q : option error -> Txn -> Prop) :
  ready c t -> 0 < len key < MAX_KEY_SIZE -> o_TTL o = 0 -> o_Value o = None ->
  (forall t', dwrote c t t' (delete key (dv t)) -> Q None t') ->
  wp (DeleteKey key o 0 MinusCount) t Q.
Proof.
  intros Hr Hk Ht Hv HQ. unfold DeleteKey, CleanKey, GetTTLKeyBytes, getTTLBytes.
  rewrite Ht, Hv. destruct (Z.gtb_spec (len key) 0); [|lia].
  apply wp_on_done, (wp_setTxnObject_del c); [done|done|lia|]. intros t' Hw.
  apply wp_on_done. cbn. rewrite andb_false_r. by apply HQ.
Qed.

Lemma wp_getTxnObject c o clear t (Q : Object * option error -> Txn -> Prop) :
  ready c t -> len (ObjectKeyBytes o) < MAX_KEY_SIZE ->
  (forall t', dwrote c t t' (if (clear : bool) then swept (dv t) (t_Now t) o else dv t) ->
     (clear && sweeps (dv t) (t_Now t) o = false -> t' = t) ->
     Q (read_object c (dv t) (t_Now t) o) t') ->
  wp (getTxnObject (ObjectKeyBytes o) o clear) t Q.
Proof.
  intros Hr Hk HQ. unfold getTxnObject. apply wp_bind, (wp_data_Get c); [done|apply ObjectKeyBytes_data|done|].
  unfold read_object, swept, sweeps in HQ.
  destruct (dv t !! ObjectKeyBytes o) as [v|]; [|by destruct clear; apply HQ; [apply dwrote_refl| |apply dwrote_refl|]].
  destruct (ObjectDecode v o) as [o' [e|]]; [by destruct clear; apply HQ; [apply dwrote_refl| |apply dwrote_refl|]|].
  apply wp_bind, wp_get_txn. fold (expired (t_Now t) o').
  destruct (expired (t_Now t) o').
  - apply wp_bind, (wp_config c); [done|]. destruct clear; [|by apply HQ; [apply dwrote_refl|]].
    apply wp_on_done, (wp_clean c); [done| |done|done|intros t' Hw; by apply HQ].
    rewrite len_ObjectKeyBytes in *. pose proof (len_nonneg (o_Key o)). lia.
  - fold (wrong_type (o_Type o) o').
    destruct (wrong_type (o_Type o) o'); destruct clear; by apply HQ; [apply dwrote_refl|].
Qed.

Lemma wp_DeleteKey c o now t (Q : option error -> Txn -> Prop) :
  ready c t -> len (ObjectKeyBytes o) < MAX_KEY_SIZE - 8 ->
  (IsSimple o = false -> len (sl (o_Value o)) <= 16) -> 0 < now ->
  (forall t', dwrote c t t' (deleted (dv t) o now) -> Q None t') ->
  wp (DeleteKey (ObjectKeyBytes o) o now MinusCount) t Q.
Proof.
  intros Hr Hk Hv Hn HQ. unfold DeleteKey, CleanKey, deleted in *.
  rewrite len_ObjectKeyBytes in Hk. pose proof (len_nonneg (o_Key o)) as Hk0.
  pose proof (len_nonneg (sl (o_Value o))) as Hv0.
  destruct (Z.gtb_spec (len (ObjectKeyBytes o)) 0) as [_|Hx]; [|rewrite len_ObjectKeyBytes in Hx; lia].
  apply wp_on_done, (wp_setTxnObject_del c); [done|done|rewrite len_ObjectKeyBytes; lia|].
  intros t1 H1. apply wp_on_done.
  set (d2 := if 0 <? o_TTL o then _ else _) in HQ.
  assert (wp (if len (GetTTLKeyBytes o) >? 0 then Del (GetTTLKeyBytes o) else ret None) t1
    (fun r t' => r = None /\ dwrote c t t' d2)) as H2.
  { unfold d2, GetTTLKeyBytes. destruct (Z.ltb_spec 0 (o_TTL o)) as [Ht|Ht].
    - rewrite len_getTTLBytes by done. destruct (Z.gtb_spec (13 + len (o_Key o)) 0) as [_|]; [|lia].
      apply (wp_data_Del c); [by destruct H1|rewrite len_getTTLBytes by done; lia|].
      intros t2 H2. split; [done|]. destruct H1 as [? ? <-]. by eapply dwrote_trans.
    - unfold getTTLBytes. destruct (Z.leb_spec (o_TTL o) 0) as [_|]; [|lia]. done. }
  eapply wp_mono; [exact H2|]. clear H2. intros r t2 [-> H2].
  destruct (negb (IsSimple o) && (len (sl (o_Value o)) >? 0)) eqn:Es; [|by apply HQ].
  apply andb_true_iff in Es as [Es%negb_true_iff _]. specialize (Hv Es).
  destruct (Z.gtb_spec now 0) as [_|]; [|lia].
  apply (wp_data_Put c); [by destruct H2|apply getTTLBytes_data| |done|].
  - unfold GetTTLValueBytes. rewrite len_getTTLBytes by done. cbn [o_Value set_o_TTL]. unfold MAX_KEY_SIZE. lia.
  - intros t3 Hw3. apply HQ. by eapply (dwrote_then c t t2 t3 d2 (<[_:=_]>)).
Qed.

(** *** Decoded objects *)

(** The key an object names. *)
Definition same_key (o b : Object) : Prop :=
  o_UserId o = o_UserId b /\ o_Db o = o_Db b /\ o_Key o = o_Key b.

Lemma same_key_bytes o b : same_key o b -> ObjectKeyBytes o = ObjectKeyBytes b.
Proof. unfold ObjectKeyBytes. by intros (-> & -> & ->). Qed.

Lemma ObjectDecode_same_key v b : same_key (fst (ObjectDecode v b)) b.
Proof.
  unfold ObjectDecode. destruct (len v <? _); [done|]. destruct (IsSimple _); [done|].
  by destruct (len v <? _).
Qed.

(** An object that was read from the store. *)
Definition decoded (o : Object) : Prop :=
  in_i64 (o_TTL o) /\ (exists v, o_Value o = Some v) /\
  (IsSimple o = false -> len (sl (o_Value o)) = 16).

Lemma ObjectDecode_decoded v b o : ObjectDecode v b = (o, None) -> decoded o.
Proof.
  unfold ObjectDecode. destruct (len v <? _); [done|]. destruct (IsSimple _) eqn:Es.
  - intros [= <-]. split; [apply i64_range|]. split; [by eexists|]. intros Hn.
    change (IsSimple _) with (IsSimple (set_o_Value (Some (drop 19 v)) (mkObject (o_UserId b) (o_Db b) (o_Key b) (nth 0 v x00)
      (i64 (be_get (slice 1 9 v))) (be_get (slice 9 17 v)) (o_Value b) (be_get (slice 17 19 v)) (o_Extra b)))) in Es.
    cbn in *. congruence.
  - destruct (Z.ltb_spec (len v) (19 + 16)); [done|]. intros [= <-]. split; [apply i64_range|].
    split; [by eexists|]. intros _. cbn [o_Value sl default]. unfold id, slice, len in *.
    rewrite length_take, length_drop. lia.
Qed.

Lemma be_get_bound n l : (length l <= n)%nat -> 0 <= be_get l < 256 ^ Z.of_nat n.
Proof.
  intros Hl. pose proof (be_get_range l). split; [lia|]. eapply Z.lt_le_trans; [apply be_get_range|].
  apply Z.pow_le_mono_r; lia.
Qed.

Lemma slice_length {A} i j (l : list A) : (length (slice i j l) <= j - i)%nat.
Proof. unfold slice. rewrite length_take. lia. Qed.

(** A header decodes to a well-formed object of the same size. *)
Lemma ObjectDecode_wf v b o :
  wf_ns (o_UserId b) (o_Db b) -> o_Extra b = None -> ObjectDecode v b = (o, None) ->
  wf_object o /\ len (ObjectEncode o) = len v.
Proof.
  intros Hns Hx. unfold ObjectDecode. destruct (Z.ltb_spec (len v) (1 + 8 + 8 + 2)); [done|].
  pose proof (be_get_bound 8 _ (slice_length 9 17 v)) as Hts.
  pose proof (be_get_bound 2 _ (slice_length 17 19 v)) as Hh.
  destruct (IsSimple _) eqn:Es.
  - intros [= <-]. split.
    + repeat split; try apply Hns; try apply i64_range; cbn [o_Timestamp o_Hash set_o_Value];
        try (simpl in Hts, Hh; lia).
      change (IsSimple (set_o_Value (Some (drop 19 v)) ?x)) with (IsSimple x). rewrite Es.
      split; [by eexists|done].
    + rewrite ObjectEncode_length. cbn [o_Value o_Extra set_o_Value]. rewrite Hx. cbn [sl default].
      unfold id, len in *. rewrite length_drop. simpl. lia.
  - destruct (Z.ltb_spec (len v) (19 + 16)); [done|]. intros [= <-]. split.
    + repeat split; try apply Hns; try apply i64_range; cbn [o_Timestamp o_Hash];
        try (simpl in Hts, Hh; lia).
      unfold IsSimple in *. cbn [o_Type] in *. rewrite Es.
      split; eexists; [|done]. split; [done|]. unfold slice, len in *. rewrite length_take, length_drop. lia.
    + rewrite ObjectEncode_length. cbn [o_Value o_Extra sl default]. unfold id, slice, len in *.
      rewrite length_take, !length_drop. lia.
Qed.

Lemma read_object_same_key c d now o : same_key (fst (read_object c d now o)) o.
Proof.
  unfold read_object. destruct (d !! _) as [v|]; [|done].
  pose proof (ObjectDecode_same_key v o) as Hk. destruct (ObjectDecode v o) as [o' [e|]]; [done|].
  destruct (expired now o'); [done|]. by destruct (wrong_type _ _).
Qed.

Lemma read_object_decoded c d now o o' :
  read_object c d now o = (o', None) -> decoded o' /\ expired now o' = false.
Proof.
  unfold read_object. destruct (d !! _) as [v|]; [|done].
  destruct (ObjectDecode v o) as [o1 [e|]] eqn:E; [done|].
  destruct (expired now o1) eqn:Ee; [done|].
  destruct (wrong_type _ _); [done|]. intros [= <-]. split; [by eapply ObjectDecode_decoded|done].
Qed.

Lemma read_object_wf c d now o o' :
  wf_ns (o_UserId o) (o_Db o) -> o_Extra o = None -> read_object c d now o = (o', None) ->
  wf_object o' /\ exists v, d !! ObjectKeyBytes o = Some v /\ len (ObjectEncode o') = len v.
Proof.
  intros Hns Hx. unfold read_object. destruct (d !! _) as [v|]; [|done].
  destruct (ObjectDecode v o) as [o1 [e|]] eqn:E; [done|].
  destruct (expired now o1); [done|]. destruct (wrong_type _ _); [done|]. intros [= <-].
  destruct (ObjectDecode_wf v o o1 Hns Hx E). eauto.
Qed.

(** Decoding reads the object decoded into only for its key, and for the trailing
    bytes it keeps. *)
Lemma ObjectDecode_indep v b b' :
  same_key b b' -> o_Extra b = o_Extra b' -> snd (ObjectDecode v b) = None ->
  ObjectDecode v b = ObjectDecode v b'.
Proof.
  intros (Eu&Ed&Ek) Ex. unfold ObjectDecode. rewrite Eu, Ed, Ek. destruct (len v <? _); [done|].
  unfold IsSimple, set_o_Value. cbn [o_Type o_UserId o_Db o_Key o_TTL o_Timestamp o_Hash o_Extra].
  rewrite Ex. destruct (_ || _); [done|]. by destruct (len v <? _).
Qed.

(** [getTxnObject] fails only because the key is absent or has another type. *)
Lemma read_object_err c d now o o' e :
  read_object c d now o = (o', Some e) -> e = KeyNotFound \/ e = (WrongTypeErr : error).
Proof.
  unfold read_object. destruct (d !! _) as [v|]; [|intros; simplify_eq; by left].
  destruct (ObjectDecode v o) as [o1 [e1|]]; [intros; simplify_eq; by left|].
  destruct (expired now o1); [intros; simplify_eq; by left|].
  destruct (wrong_type _ _); intros; simplify_eq; by right.
Qed.

(** A type mismatch needs a type to be asked for. *)
Lemma read_object_any c d now o o' e :
  o_Type o = UnknownType -> read_object c d now o = (o', Some e) -> e = KeyNotFound.
Proof.
  intros Ht. unfold read_object, wrong_type. rewrite Ht. destruct (d !! _) as [v|]; [|by intros [= _ <-]].
  destruct (ObjectDecode v o) as [o1 [e1|]]; [by intros [= _ <-]|].
  by destruct (expired now o1); intros [= _ <-].
Qed.

End spec.
