(* ===== verification/Counters.v ===== *)
(** Sharded counters in step with the data: the sum of the counters of a collection
    under [PutOrDeleteKV], and the two ways [GetCountByObject] obtains a cardinality. *)

From S2P Require Import Prelude Xerror GoStd Utils Store Ranges Mem Object ObjectSpec.
From Stdlib Require Import Init.Byte.

#[local] Open Scope Z_scope.

Definition zsum (l : list Z) : Z := foldr Z.add 0 l.

#[export] Instance zsum_perm : Proper ((≡ₚ) ==> eq) zsum.
Proof. intros l k Hp. induction Hp; unfold zsum in *; simpl in *; lia. Qed.

Lemma zsum_app l k : zsum (l ++ k) = zsum l + zsum k.
Proof. unfold zsum. induction l; simpl in *; lia. Qed.

(** The value a counter holds. *)
Definition cval (b : bytes) : Z := from_option c_Value 0 (DecodeCount (count_of_entry []) b).

(** The sum of the counters whose keys extend [p]. *)
Definition counted (m : gmap bytes bytes) (p : bytes) : Z :=
  zsum ((fun e => cval (snd e)) <$> range_entries p (Bytes.PrefixNext p) m).

Lemma counted_insert m p k b :
  counted (<[k := b]> m) p =
  counted m p + if in_range p (Bytes.PrefixNext p) k
                then cval b - from_option cval 0 (m !! k) else 0.
Proof.
  unfold counted. destruct (m !! k) as [b0|] eqn:E; cbn [from_option].
  - rewrite <- insert_delete_eq, range_entries_insert by apply lookup_delete_eq.
    rewrite (range_entries_delete _ _ m k b0) by done.
    rewrite !fmap_app, !zsum_app. destruct (in_range _ _ k); unfold zsum; simpl; lia.
  - rewrite range_entries_insert, fmap_app, zsum_app by done.
    destruct (in_range _ _ k); unfold zsum; simpl; lia.
Qed.

Lemma counted_delete m p k :
  in_range p (Bytes.PrefixNext p) k = false -> counted (delete k m) p = counted m p.
Proof.
  intros Hk. unfold counted. f_equal. f_equal. apply range_entries_eq. intros k' Hk'.
  apply lookup_delete_ne. intros <-. congruence.
Qed.

(** The counters of a collection. *)
Definition count_prefix (user db : Z) (value : bytes) : bytes :=
  GetKeyBytes CountPrefix user db KeyPrefix [value].

Lemma not_ff b l : b <> xff -> ~ Forall (fun x => x = xff) (b :: l).
Proof. intros Hb Hf. by inversion Hf. Qed.

Lemma data_not_counted user db value k :
  ~ is_count k ->
  in_range (count_prefix user db value) (Bytes.PrefixNext (count_prefix user db value)) k = false.
Proof.
  intros Hk. apply not_true_iff_false. rewrite in_range_spec, below_PrefixNext, bytes_ltb_spec.
  change (count_prefix user db value)
    with ([CountPrefix] ++ (be_put 2 user ++ z2b db :: KeyPrefix :: concat [value])).
  intros [H1 H2].
  rewrite PrefixNext_app in H2.
  - pose proof (between_prefix _ _ _ _ H1 H2) as Hp.
    by apply has_prefix_spec in Hp as [d ->].
  - rewrite Forall_app, Forall_cons, Forall_cons. intros (_&_&Hf&_). done.
Qed.

Section counters.
Context `{PlatformSpec}.

Lemma cval_decode c b : cval b = from_option c_Value 0 (DecodeCount c b).
Proof. unfold cval, DecodeCount. by destruct (len b <? 17). Qed.

Lemma read_count_value t sk : c_Value (read_count t sk) = from_option cval 0 (t_view t !! snd sk).
Proof.
  unfold read_count. destruct (t_view t !! snd sk) as [b|]; [|done]. cbn [from_option].
  rewrite (cval_decode (fresh_count (t_Timestamp t) (fst sk) (snd sk))).
  by destruct (DecodeCount _ b).
Qed.

Lemma cval_bumped c t sk delta :
  ready c t -> is_count (snd sk) ->
  cval (bumped t sk delta) = i64 (from_option cval 0 (t_view t !! snd sk) + delta).
Proof.
  intros Hr Hc. unfold bumped. rewrite (cval_decode (fresh_count 0 (c_Shard (read_count t sk)) (c_Key (read_count t sk)))).
  rewrite DecodeCount_EncodeCount; [cbn; by rewrite read_count_value|apply Hr|apply i64_range|done..].
Qed.

(** Adding to a counter of the collection adds to the sum. *)
Lemma counted_bump c t sk delta p :
  ready c t -> is_count (snd sk) ->
  i64 (counted (<[snd sk := bumped t sk delta]> (t_view t)) p) =
  i64 (counted (t_view t) p + if in_range p (Bytes.PrefixNext p) (snd sk) then delta else 0).
Proof.
  intros Hr Hc. rewrite counted_insert. destruct (in_range _ _ _); [|done].
  rewrite (cval_bumped c) by done.
  set (x := from_option _ _ _).
  replace (_ + (i64 (x + delta) - x)) with (counted (t_view t) p - x + i64 (x + delta)) by lia.
  rewrite i64_add_r. f_equal. lia.
Qed.

Lemma count_key_in_range user db hash value hv :
  in_range (count_prefix user db value) (Bytes.PrefixNext (count_prefix user db value))
    (snd (count_key user db hash KeyPrefix value hv)) = true.
Proof.
  rewrite in_range_spec, below_PrefixNext, bytes_ltb_spec. apply Bytes.has_prefix_in_range.
  - by apply not_ff.
  - apply has_prefix_spec. unfold count_key, count_prefix.
    destruct (hash >? 0); cbn [snd]; rewrite !GetKeyBytes_app; cbn [concat]; rewrite ?app_nil_r.
    + eexists. by rewrite <- (app_assoc _ value).
    + exists []. by rewrite app_nil_r.
Qed.

(** The data view after [PutOrDeleteKV]. *)
Definition put_or_delete (d : gmap bytes bytes) (k : bytes) (v : option bytes) : gmap bytes bytes :=
  match v with None => delete k d | Some v => <[k := v]> d end.

(** [t'] is [t] after a [PutOrDeleteKV] of a data key with change [delta] to the
    cardinality of the object: the sum of its counters moves by [delta] (in 64 bits). *)
Record stepped (c : Config) (o : Object) (t t' : Txn) (d : gmap bytes bytes) (delta : Z) : Prop := {
  sp_wrote : dwrote c t t' d;
  sp_count : DisableCount c && ObjectDisableCount o = false ->
    let p := count_prefix (t_UserId t) (t_DBId t) (sl (o_Value o)) in
    i64 (counted (t_view t') p) = i64 (counted (t_view t) p + delta)
}.

(** The step of a counter by [delta], as the writers of a collection end with it. *)
Definition counter_moved (c : Config) (o : Object) (t t' : Txn) (delta : Z) : Prop :=
  DisableCount c && ObjectDisableCount o = false ->
  let p := count_prefix (t_UserId t) (t_DBId t) (sl (o_Value o)) in
  i64 (counted (t_view t') p) = i64 (counted (t_view t) p + delta).

Lemma wp_count_step c o hv delta t (Q : Z * option error -> Txn -> Prop) :
  ready c t -> len (sl (o_Value o)) <= 16 ->
  (forall t' n, dwrote c t t' (dv t) -> counter_moved c o t t' delta -> Q (n, None) t') ->
  wp (let! (count, err) :=
        GetCount (t_UserId t) (t_DBId t) (o_Hash o) KeyPrefix (sl (o_Value o)) hv in
      match err with
      | None | Some KeyNotFound =>
          let count := set_c (c_Timestamp count) (i64 (c_Value count + delta)) count in
          let! err := SetCount count in
          ret (c_Value count, err)
      | Some e => ret (0, Some e)
      end) t Q.
Proof.
  intros Hr Ho HQ. apply wp_bind, (wp_GetCount c); [done|unfold MAX_KEY_SIZE; lia|].
  set (sk := count_key _ _ _ _ _ _). cbv zeta.
  assert (is_count (snd sk)) as Hsk by apply count_key_count.
  assert (len (snd sk) < MAX_KEY_SIZE) as Hlen.
  { unfold sk. pose proof (len_count_key (t_UserId t) (t_DBId t) (o_Hash o) KeyPrefix (sl (o_Value o)) hv).
    unfold MAX_KEY_SIZE. lia. }
  assert (wp (bind (SetCount (set_c (c_Timestamp (read_count t sk)) (i64 (c_Value (read_count t sk) + delta))
      (read_count t sk))) (fun err => ret (i64 (c_Value (read_count t sk) + delta), err))) t Q) as Hfin.
  { apply wp_bind, (wp_bump c); [done..|]. intros t2 Hw2 Hv2. apply HQ; [done|]. intros _. cbv zeta.
    rewrite Hv2, (counted_bump c) by done. unfold sk. by rewrite count_key_in_range. }
  by destruct (t_view t !! snd sk).
Qed.

Lemma counter_unmoved c o t delta :
  ObjectDisableCount o && DisableCount c = true -> counter_moved c o t t delta.
Proof. intros Edc Hn. by rewrite andb_comm, Edc in Hn. Qed.

(** A write or a deletion of a data key leaves the counters of the collection alone. *)
Lemma wp_put_data c o k v t (Q : option error -> Txn -> Prop) :
  ready c t -> ~ is_count k -> len k < MAX_KEY_SIZE ->
  (forall v', v = Some v' -> 0 < len v' < MAX_VALUE_SIZE) ->
  (forall t', dwrote c t t' (put_or_delete (dv t) k v) -> counter_moved c o t t' 0 -> Q None t') ->
  wp (match v with None => Del k | Some v => Put k v end) t Q.
Proof.
  intros Hr Hd Hk Hv HQ.
  pose proof (data_not_counted (t_UserId t) (t_DBId t) (sl (o_Value o)) k Hd) as Hnc.
  destruct v as [v|]; cbn [put_or_delete] in HQ.
  - apply wp_Put; [by apply (rd_up c)|done|by apply Hv|]. intros t1 Hw. apply HQ.
    + unfold dv. rewrite <- dview_insert by done. apply dwrote_wrote; [done..|].
      apply wf_store_insert; [apply Hr|by apply Hv|done].
    + intros _. cbv zeta. rewrite (wr_view _ _ _ Hw), counted_insert, Hnc. f_equal; lia.
  - apply wp_Del; [by apply (rd_up c)|done|]. intros t1 Hw. apply HQ.
    + unfold dv. rewrite <- dview_delete. apply dwrote_wrote; [done..|]. apply wf_store_delete, Hr.
    + intros _. cbv zeta. rewrite (wr_view _ _ _ Hw), counted_delete by done. f_equal; lia.
Qed.

Lemma counter_moved_trans c o t1 t2 t3 d2 d3 :
  same_env t1 t2 -> counter_moved c o t1 t2 d2 -> counter_moved c o t2 t3 d3 ->
  counter_moved c o t1 t3 (d2 + d3).
Proof.
  intros He H1 H2 Hc. specialize (H1 Hc). specialize (H2 Hc). cbv zeta in *.
  rewrite (se_UserId _ _ He), (se_DBId _ _ He) in H2. rewrite H2, <- i64_add_l, H1, i64_add_l. f_equal. lia.
Qed.

Lemma wp_PutOrDeleteKV c o k v delta t (Q : Z * option error -> Txn -> Prop) :
  ready c t -> ~ is_count k -> len k < MAX_KEY_SIZE ->
  (forall v', v = Some v' -> 0 < len v' < MAX_VALUE_SIZE) -> len (sl (o_Value o)) <= 16 ->
  (forall t' n, stepped c o t t' (put_or_delete (dv t) k v) delta -> Q (n, None) t') ->
  wp (PutOrDeleteKV o k v delta) t Q.
Proof.
  intros Hr Hd Hk Hv Ho HQ. unfold PutOrDeleteKV.
  apply wp_on_done, (wp_put_data c o); [done..|]. intros t1 Hw Hc1.
  destruct (Z.eqb_spec delta 0) as [->|Hdelta]; [by apply HQ|].
  assert (ready c t1) as Hr1 by by destruct Hw. apply wp_bind, (wp_config c); [done|].
  destruct (ObjectDisableCount o && DisableCount c) eqn:Edc.
  { apply HQ. split; [done|]. intros Hn. by rewrite andb_comm, Edc in Hn. }
  apply wp_bind, wp_get_txn, (wp_count_step c o v delta t1); [done..|]. intros t2 n Hw2 Hc2. apply HQ.
  pose proof (dw_env _ _ _ _ Hw) as He. split.
  - destruct Hw as [? ? <-]. by eapply dwrote_trans.
  - by apply (counter_moved_trans c o t t1 t2 0 delta).
Qed.

(** *** Cardinalities *)

Lemma in_range_is_count user db value k :
  in_range (count_prefix user db value) (Bytes.PrefixNext (count_prefix user db value)) k = true ->
  is_count k.
Proof.
  intros Hk. destruct (decide (is_count k)) as [|Hn]; [done|].
  by rewrite data_not_counted in Hk.
Qed.

Lemma foldl_i64 {A} (f : A -> Z) l z :
  foldl (fun sum x => i64 (sum + f x)) (i64 z) l = i64 (z + zsum (f <$> l)).
Proof.
  revert z. induction l as [|x l IH]; intros z; [unfold zsum; simpl; by rewrite Z.add_0_r|].
  cbn [foldl fmap list_fmap]. rewrite i64_add_l, IH. f_equal. unfold zsum. simpl. lia.
Qed.

Lemma foldl_snoc {A B} (f : A -> B) l acc : foldl (fun s x => s ++ [f x]) acc l = acc ++ (f <$> l).
Proof.
  revert acc. induction l as [|x l IH]; intros acc; simpl; [by rewrite app_nil_r|].
  by rewrite IH, <- app_assoc.
Qed.

Lemma count_prefix_ok user db value :
  let p := count_prefix user db value in
  Bytes.PrefixNext p <> [] /\ ble p (Bytes.PrefixNext p).
Proof. split; [apply PrefixNext_nonempty|]. apply blt_ble, PrefixNext_gt. by apply not_ff. Qed.

(** The number of counters of a collection. *)
Definition shards (m : gmap bytes bytes) (p : bytes) : Z := len (range_entries p (Bytes.PrefixNext p) m).

(** Summing the counters of a collection. *)
Lemma GetCountByObject_sum c o t :
  ready c t -> DisableCount c && ObjectDisableCount o = false ->
  let p := count_prefix (t_UserId t) (t_DBId t) (sl (o_Value o)) in
  shards (t_view t) p <= MaxInt16 ->
  GetCountByObject o t = Ret (inr (i64 (counted (t_view t) p))) t.
Proof.
  intros Hr Hdc p Hs. unfold GetCountByObject, bind at 1.
  rewrite (get_config_run c) by done.
  rewrite Hdc. unfold on_value, ListCount, bind, get_txn. fold (count_prefix (t_UserId t) (t_DBId t) (sl (o_Value o))).
  fold p. destruct (count_prefix_ok (t_UserId t) (t_DBId t) (sl (o_Value o))) as [Hn Hb].
  rewrite (List_pure _ _ _ _ (fun l k v => l ++ [default (count_of_entry k) (DecodeCount (count_of_entry k) v)])).
  - cbn [snd fst]. unfold shards in Hs.
    rewrite take_ge by (unfold len in Hs; lia).
    rewrite foldl_snoc. cbn [app].
    assert (forall l, foldl (fun sum count => i64 (sum + c_Value count)) 0
      ((fun e => default (count_of_entry (fst e)) (DecodeCount (count_of_entry (fst e)) (snd e))) <$> l)
      = i64 (zsum ((fun e => cval (snd e)) <$> l))) as Hfold.
    { intros l. change 0 with (i64 0) at 1. rewrite foldl_i64, Z.add_0_l.
      rewrite <- list_fmap_compose. do 2 f_equal. apply list_fmap_ext. intros _ [k v] _. cbn [compose fst snd].
      rewrite (cval_decode (count_of_entry k)). unfold compose; cbn.
      unfold DecodeCount. by destruct (len v <? 17). }
    destruct (MaxInt16 <=? _); cbn; by rewrite Hfold.
  - by apply (rd_up c).
  - done.
  - done.
  - done.
  - intros k v E H1 H2 s.
    destruct (DecodeCount_some (count_of_entry k) v) as (r&->&_); [|done].
    eapply (rd_store c t Hr); [done|]. apply (in_range_is_count (t_UserId t) (t_DBId t) (sl (o_Value o))).
    by apply in_range_spec.
Qed.

End counters.

(** ** The entries of a collection *)

Section fields.
Context `{PlatformSpec}.

Definition value_prefix (o : Object) : bytes := GetValueBytes o [].

(** The entries of a collection in key order, as the listings find them: the keys of
    the range that are no shorter than the prefix. *)
Definition entries (m : gmap bytes bytes) (o : Object) : list (bytes * bytes) :=
  base.filter (fun e => (len (value_prefix o) <=? len (fst e)) = true)
    (range_entries (value_prefix o) (Bytes.PrefixNext (value_prefix o)) m).

Definition cardinality (m : gmap bytes bytes) (o : Object) : Z := len (entries m o).

Lemma value_prefix_ok o :
  Bytes.PrefixNext (value_prefix o) <> [] /\ ble (value_prefix o) (Bytes.PrefixNext (value_prefix o))
  /\ ~ Forall (fun x => x = xff) (value_prefix o).
Proof.
  assert (~ Forall (fun x => x = xff) (value_prefix o)) by by apply not_ff.
  split; [apply PrefixNext_nonempty|]. split; [by apply blt_ble, PrefixNext_gt|done].
Qed.

Lemma GetValueBytes_app o f : GetValueBytes o f = value_prefix o ++ f.
Proof. unfold value_prefix, GetValueBytes. rewrite !GetKeyBytes_app. cbn [concat]. by rewrite !app_nil_r, !app_assoc. Qed.

(** The entries are the keys that extend the prefix. *)
Lemma elem_of_entries m o k v :
  (k, v) ∈ entries m o <-> m !! k = Some v /\ exists f, k = GetValueBytes o f.
Proof.
  unfold entries. rewrite list_elem_of_filter, elem_of_range_entries, below_PrefixNext, bytes_ltb_spec. cbn [fst].
  destruct (value_prefix_ok o) as (_&_&Hff).
  assert ((exists f, k = GetValueBytes o f) <-> has_prefix (value_prefix o) k = true) as ->.
  { rewrite has_prefix_spec. by split; intros [f Hf]; exists f; rewrite GetValueBytes_app in *. }
  split.
  - intros (Hl&Hm&Hr). split; [done|]. apply Bytes.PrefixNext_range_prefix; [done|unfold len in Hl; lia|apply Hr..].
  - intros (Hm&Hp). pose proof (Bytes.has_prefix_in_range _ _ Hff Hp).
    split; [|done]. apply has_prefix_spec in Hp as [d ->]. rewrite len_app.
    pose proof (len_nonneg d). lia.
Qed.

Lemma field_in_entries_range o f :
  in_range (value_prefix o) (Bytes.PrefixNext (value_prefix o)) (GetValueBytes o f) = true /\
  (len (value_prefix o) <=? len (GetValueBytes o f)) = true.
Proof.
  destruct (value_prefix_ok o) as (_&_&Hff). rewrite GetValueBytes_app. split.
  - rewrite in_range_spec, below_PrefixNext, bytes_ltb_spec. apply Bytes.has_prefix_in_range; [done|].
    apply has_prefix_spec. eauto.
  - rewrite len_app. pose proof (len_nonneg f). lia.
Qed.

(** Writing or deleting a field moves the cardinality as it should. *)
Lemma cardinality_put m o f v :
  cardinality (<[GetValueBytes o f := v]> m) o =
  cardinality m o + match m !! GetValueBytes o f with None => 1 | Some _ => 0 end.
Proof.
  destruct (field_in_entries_range o f) as [H1 H2]. unfold cardinality, entries.
  destruct (m !! GetValueBytes o f) as [v0|] eqn:E.
  - rewrite <- insert_delete_eq, range_entries_insert by apply lookup_delete_eq.
    rewrite (range_entries_delete _ _ m _ v0) by done. rewrite H1. cbn [app].
    rewrite !filter_cons_True by done. rewrite !len_cons. lia.
  - rewrite range_entries_insert by done. rewrite H1. cbn [app].
    rewrite filter_cons_True by done. rewrite len_cons. lia.
Qed.

Lemma cardinality_delete m o f :
  cardinality (delete (GetValueBytes o f) m) o =
  cardinality m o - match m !! GetValueBytes o f with None => 0 | Some _ => 1 end.
Proof.
  destruct (field_in_entries_range o f) as [H1 H2].
  destruct (m !! GetValueBytes o f) as [v0|] eqn:E; [|rewrite delete_id by done; lia].
  unfold cardinality, entries.
  rewrite (range_entries_delete _ _ m _ v0) by done. rewrite H1. cbn [app].
  rewrite filter_cons_True by done. rewrite len_cons. lia.
Qed.

(** The counters are in step with the entries. *)
Definition in_step (c : Config) (o : Object) (t : Txn) : Prop :=
  DisableCount c && ObjectDisableCount o = false ->
  i64 (counted (t_view t) (count_prefix (t_UserId t) (t_DBId t) (sl (o_Value o)))) =
  cardinality (dv t) o.

Lemma stepped_in_step c o t t' d delta :
  stepped c o t t' d delta -> in_step c o t ->
  cardinality d o = cardinality (dv t) o + delta -> in_i64 (cardinality d o) -> in_step c o t'.
Proof.
  intros [[He Hr Hv] Hc] Hi Hd Hb Hdc. rewrite (se_UserId _ _ He), (se_DBId _ _ He), (Hc Hdc), Hv, Hd.
  rewrite <- i64_add_l, (Hi Hdc). rewrite <- Hd. by apply i64_small.
Qed.

(** Between the bounds of a collection there are only data keys. *)
Lemma data_range o k :
  ble (value_prefix o) k -> blt k (Bytes.PrefixNext (value_prefix o)) -> ~ is_count k.
Proof.
  intros H1 H2.
  change (value_prefix o) with ([DataPrefix] ++ (be_put 2 (o_UserId o) ++ z2b (o_Db o) :: ValuePrefix :: concat [sl (o_Value o); []])) in H1, H2.
  rewrite PrefixNext_app in H2.
  - pose proof (between_prefix _ _ _ _ H1 H2) as Hp. by apply has_prefix_spec in Hp as [d ->].
  - rewrite Forall_app, Forall_cons, Forall_cons. intros (_&_&Hf&_). done.
Qed.

Lemma range_entries_dv t o :
  range_entries (value_prefix o) (Bytes.PrefixNext (value_prefix o)) (dv t) =
  range_entries (value_prefix o) (Bytes.PrefixNext (value_prefix o)) (t_view t).
Proof.
  apply range_entries_eq. intros k [H1 H2]%in_range_spec. rewrite below_PrefixNext, bytes_ltb_spec in H2.
  unfold dv. by apply dview_lookup, (data_range o).
Qed.

Lemma entries_dv t o : entries (dv t) o = entries (t_view t) o.
Proof. unfold entries. by rewrite range_entries_dv. Qed.

Lemma foldl_count l p (n : Z) :
  foldl (fun count e => if len (fst e) <? p then count else i64 (count + 1)) (i64 n) l =
  i64 (n + len (base.filter (fun e : bytes * bytes => (p <=? len (fst e)) = true) l)).
Proof.
  revert n. induction l as [|[k v] l IH]; intros n; cbn [foldl fst]; [by rewrite Z.add_0_r|].
  destruct (Z.ltb_spec (len k) p).
  - rewrite filter_cons_False by (cbn [fst]; lia). apply IH.
  - rewrite filter_cons_True by (cbn [fst]; lia). rewrite i64_add_l, IH, len_cons. f_equal. lia.
Qed.

(** How many keys a listing of the collection meets. *)
Definition listed (m : gmap bytes bytes) (o : Object) : Z :=
  len (range_entries (value_prefix o) (Bytes.PrefixNext (value_prefix o)) m).

Lemma ScanCount_cardinality c o t :
  ready c t -> o_Type o = HashType \/ o_Type o = SetType ->
  0 < ScanMaxCount c -> listed (t_view t) o < 100 * ScanMaxCount c ->
  ScanCount o t = Ret (inr (i64 (cardinality (dv t) o))) t.
Proof.
  intros Hr Ht Hm Hl. unfold ScanCount.
  assert (GetKeyFuncs (o_Type o) = Some GetHashKey) as -> by by destruct Ht as [-> | ->].
  unfold bind at 1. rewrite (get_config_run c) by done. unfold GetHashKey. fold (value_prefix o).
  destruct (value_prefix_ok o) as (Hn&Hb&_). unfold bind.
  rewrite (List_pure _ _ _ _ (fun count k _ => if len k <? len (value_prefix o) then count else i64 (count + 1))).
  - unfold listed in Hl. rewrite take_ge by (unfold len in *; lia).
    destruct (Z.leb_spec (100 * ScanMaxCount c)
      (len (range_entries (value_prefix o) (Bytes.PrefixNext (value_prefix o)) (t_view t)))); [lia|].
    change 0 with (i64 0). rewrite foldl_count. unfold cardinality. by rewrite entries_dv.
  - by apply (rd_up c).
  - lia.
  - done.
  - done.
  - intros k v _ _ _ s. by destruct (len k <? _).
Qed.

(** [GetCountByObject] (HLEN, SCARD) returns the number of entries of a hash or a
    set, whether it lists them or adds up the sharded counters, provided the counters
    are in step with the entries (which every modelled write preserves) and the
    listing does not reach its limit. *)
Lemma GetCountByObject_cardinality c o t :
  ready c t -> o_Type o = HashType \/ o_Type o = SetType -> in_step c o t ->
  0 < ScanMaxCount c -> listed (t_view t) o < 100 * ScanMaxCount c ->
  shards (t_view t) (count_prefix (t_UserId t) (t_DBId t) (sl (o_Value o))) <= MaxInt16 ->
  in_i64 (cardinality (dv t) o) ->
  GetCountByObject o t = Ret (inr (cardinality (dv t) o)) t.
Proof.
  intros Hr Ht Hi Hm Hl Hs Hb. destruct (DisableCount c && ObjectDisableCount o) eqn:Edc.
  - unfold GetCountByObject, bind. rewrite (get_config_run c), Edc by done.
    rewrite (ScanCount_cardinality c) by done. by rewrite i64_small.
  - rewrite (GetCountByObject_sum c) by done. by rewrite (Hi Edc).
Qed.

End fields.
