(* ===== verification/Generic.v ===== *)
(** The commands on keys of any type (command/generic.go): expiry, deletion, renaming
    and inspection. *)

From S2P Require Import Prelude Xerror GoStd Utils Store Ranges Mem Object ObjectSpec Reply.
From Stdlib Require Import Init.Byte.

#[local] Open Scope Z_scope.

(** ** Options: [CheckType] and [getCheckOption] (zset.go) *)

Definition NoCheck : Z := 0.
Definition CheckNotExist : Z := 1.
Definition CheckExist : Z := 2.
Definition CheckLT : Z := 4.
Definition CheckGT : Z := 8.

Record checkOption := { co_Check : Z; co_Changed : bool; co_Incr : bool }.
Definition no_option : checkOption := {| co_Check := NoCheck; co_Changed := false; co_Incr := false |}.
Definition add_check (bit : Z) (o : checkOption) : checkOption :=
  {| co_Check := Z.lor (co_Check o) bit; co_Changed := co_Changed o; co_Incr := co_Incr o |}.

(** The options in front of [args], and how many arguments they are. *)
Fixpoint getCheckOption (args : list bytes) (opt : checkOption) (i : Z) : error + (checkOption * Z) :=
  match args with
  | [] => inr (opt, i)
  | a :: args =>
      if lower_is a "nx" then
        if has (co_Check opt) (Z.lor (Z.lor CheckLT CheckGT) CheckExist)
        then inl (ErrGTLTNXCompat : error)
        else getCheckOption args (add_check CheckNotExist opt) (i + 1)
      else if lower_is a "xx" then
        if has (co_Check opt) CheckNotExist then inl (ErrGTLTNXCompat : error)
        else getCheckOption args (add_check CheckExist opt) (i + 1)
      else if lower_is a "gt" then
        if has (co_Check opt) CheckNotExist then inl (ErrGTLTNXCompat : error)
        else if has (co_Check opt) CheckLT then inl (ErrGTLTCompat : error)
        else getCheckOption args (add_check CheckGT opt) (i + 1)
      else if lower_is a "lt" then
        if has (co_Check opt) CheckNotExist then inl (ErrGTLTNXCompat : error)
        else if has (co_Check opt) CheckGT then inl (ErrGTLTCompat : error)
        else getCheckOption args (add_check CheckLT opt) (i + 1)
      else if lower_is a "ch" then
        getCheckOption args {| co_Check := co_Check opt; co_Changed := true; co_Incr := co_Incr opt |} (i + 1)
      else if lower_is a "incr" then
        getCheckOption args {| co_Check := co_Check opt; co_Changed := co_Changed opt; co_Incr := true |} (i + 1)
      else inr (opt, i)
  end.

Section generic.
Context `{Platform}.

(** ** Expiry *)

Definition IsExpired (t : Txn) (o : Object) : Z * bool :=
  if o_TTL o =? 0 then (0, false)
  else if o_TTL o >? t_Now t then (go_div (i64 (o_TTL o - t_Now t)) 1000, false)
  else (0, true).

Definition TTLSensitive (newTTL oldTTL sensitive : Z) : M bool :=
  if sensitive <? 0 then ret true
  else if (newTTL <=? 0) || (oldTTL <=? 0) then ret true
  else
    let '(delta, s) :=
      if newTTL <? oldTTL then (oldTTL - newTTL, go_div (go_div newTTL 1000) 100)
      else (newTTL - oldTTL, go_div (go_div oldTTL 1000) 100) in
    let sensitive := if sensitive =? 0 then s else sensitive in
    if sensitive =? 0 then ret true
    else
      let ttlSensitive := i64 (sensitive * 1000) in
      let! r := rand_Int63n ttlSensitive in
      ret (i64 (ttlSensitive + r) <=? delta).

(** Reading the object that a command names, as nearly every handler starts. *)
Definition lookup (typo : Init.Byte.byte) (key : bytes) (clear : bool) : M (Object * option error) :=
  let! object := NewObject typo key in
  getTxnObject (ObjectKeyBytes object) object clear.

Definition expire (args : list bytes) (newTTL : Z) (clearTTL : bool) : M (error + Z) :=
  let opts :=
    if len args >? 2 then
      match getCheckOption (drop 2 args) no_option 0 with
      | inl e => inl e
      | inr (opt, i) =>
          if len (drop 2 args) >? i
          then inl (UnsupportedOptionError (B2S (arg (2 + Z.to_nat i) args)))
          else inr opt
      end
    else inr no_option in
  match opts with
  | inl e => ret (inl e)
  | inr opt =>
      let! (object, err) := lookup UnknownType (arg 0 args) true in
      let key := ObjectKeyBytes object in
      match err with
      | Some KeyNotFound => ret (inr 0)
      | Some e => ret (inl e)
      | None =>
          let! t := get_txn in
          if clearTTL then
            if o_TTL object =? 0 then ret (inr 0)
            else
              do! Del (GetTTLKeyBytes object) else (fun e => ret (inl e)) in
              let object := set_o_Timestamp (t_Timestamp t) (set_o_TTL 0 object) in
              do! setTxnObject key object 0 else (fun e => ret (inl e)) in
              ret (inr 1)
          else if newTTL <=? t_Now t then
            do! DeleteKey key object (t_Now t) MinusCount else (fun e => ret (inl e)) in
            ret (inr 1)
          else
            let install : M (error + Z) :=
              let object := set_o_Timestamp (t_Timestamp t) (set_o_TTL newTTL object) in
              let ttlKey := GetTTLKeyBytes object in
              do! Put ttlKey (if IsSimple object then [x01]
                              else EncodeTTLValue (o_Type object) (sl (o_Value object)))
              else (fun e => ret (inl e)) in
              do! setTxnObject key object 0 else (fun e => ret (inl e)) in
              ret (inr 1) in
            if o_TTL object >? 0 then
              if has (co_Check opt) CheckNotExist then ret (inr 0)
              else if (newTTL >=? o_TTL object) && has (co_Check opt) CheckLT then ret (inr 0)
              else if (newTTL <=? o_TTL object) && has (co_Check opt) CheckGT then ret (inr 0)
              else
                let! c := get_config in
                let! sensitive :=
                  TTLSensitive (i64 (newTTL - t_Now t)) (i64 (o_TTL object - t_Now t)) (TTLSensitivity c) in
                if negb sensitive then ret (inr 1)
                else
                  do! Del (GetTTLKeyBytes object) else (fun e => ret (inl e)) in
                  install
            else
              if has (co_Check opt) CheckExist then ret (inr 0)
              else if has (co_Check opt) CheckGT then ret (inr 0)
              else install
      end
  end.

Definition is_locked (e : error) : bool :=
  match e with Sentinel ErrKeyIsLocked => true | _ => false end.

Definition expireHandle (args : list bytes) (newTTL : Z) (clearTTL : bool) : M reply :=
  let! r := expire args newTTL clearTTL in
  let! t := get_txn in
  match r with
  | inl e => if IsSkipConflict t && is_locked e then ret (RInt 0) else reply_err e
  | inr n => ret (RInt n)
  end.

Definition PersistHandle : TxnHandle := fun args =>
  if negb (len args =? 1) then wrong_args "persist" else expireHandle args 0 true.

Definition expire_time (command : string) (show : Z -> Z) : TxnHandle := fun args =>
  if negb (len args =? 1) then wrong_args command
  else
    let! (object, err) := lookup UnknownType (arg 0 args) false in
    match err with
    | Some KeyNotFound => ret (RInt (-2))
    | Some e => reply_err e
    | None => if o_TTL object =? 0 then ret (RInt (-1)) else ret (RInt (show (o_TTL object)))
    end.
Definition ExpireTimeHandle : TxnHandle := expire_time "expiretime" (fun ttl => go_div ttl 1000).
Definition PExpireTimeHandle : TxnHandle := expire_time "pexpiretime" (fun ttl => ttl).

Definition ExpireAtHandle : TxnHandle := fun args =>
  if len args <? 2 then wrong_args "expireat"
  else match ParseInt (arg 1 args) with
       | None => reply_err ErrNotInteger
       | Some timestamp =>
           if (go_div MaxInt64 1000 <=? timestamp) || (timestamp <=? go_div MinInt64 1000)
           then reply_err (InvalidExpireError "expireat")
           else expireHandle args (i64 (timestamp * 1000)) false
       end.

Definition PExpireAtHandle : TxnHandle := fun args =>
  if len args <? 2 then wrong_args "pexpireat"
  else match ParseInt (arg 1 args) with
       | None => reply_err ErrNotInteger
       | Some timestamp => expireHandle args timestamp false
       end.

Definition PExpireHandle : TxnHandle := fun args =>
  if len args <? 2 then wrong_args "pexpire"
  else match ParseInt (arg 1 args) with
       | None => reply_err ErrNotInteger
       | Some milliseconds =>
           let! t := get_txn in
           if i64 (MaxInt64 - t_Now t) <=? milliseconds then reply_err (InvalidExpireError "pexpire")
           else expireHandle args (i64 (t_Now t + milliseconds)) false
       end.

Definition ExpireHandle : TxnHandle := fun args =>
  if len args <? 2 then wrong_args "expire"
  else match ParseInt (arg 1 args) with
       | None => reply_err ErrNotInteger
       | Some seconds =>
           if (go_div MaxInt64 1000 <=? seconds) || (seconds <=? go_div MinInt64 1000)
           then reply_err (InvalidExpireError "expire")
           else
             let! t := get_txn in
             expireHandle args (i64 (t_Now t + i64 (seconds * 1000))) false
       end.

(** ** TTL, PTTL *)

Definition ttl (args : list bytes) : M (error + Z) :=
  let! (object, err) := lookup UnknownType (arg 0 args) false in
  match err with
  | Some KeyNotFound => ret (inr (-2))
  | Some e => ret (inl e)
  | None => if o_TTL object =? 0 then ret (inr (-1)) else ret (inr (o_TTL object))
  end.

Definition TTLHandle : TxnHandle := fun args =>
  if negb (len args =? 1) then wrong_args "ttl"
  else
    val! ttl := ttl args else reply_err in
    if ttl <? 0 then ret (RInt ttl)
    else
      let! t := get_txn in
      let val := i64 (ttl - t_Now t) in
      if go_rem val 1000 <? 500 then ret (RInt (go_div val 1000))
      else ret (RInt (go_div val 1000 + 1)).

Definition PTTLHandle : TxnHandle := fun args =>
  if negb (len args =? 1) then wrong_args "pttl"
  else
    val! ttl := ttl args else reply_err in
    if ttl <? 0 then ret (RInt ttl)
    else let! t := get_txn in ret (RInt (i64 (ttl - t_Now t))).

(** ** EXISTS, TOUCH, DEL, UNLINK *)

Fixpoint exists_loop (args : list bytes) (count : Z) : M reply :=
  match args with
  | [] => ret (RInt count)
  | a :: args =>
      let! (_, err) := lookup UnknownType a false in
      match err with
      | Some KeyNotFound => exists_loop args count
      | Some e => reply_err e
      | None => exists_loop args (count + 1)
      end
  end.

Definition ExistsHandle : TxnHandle := fun args =>
  if len args <? 1 then wrong_args "exists" else exists_loop args 0.

Definition DeleteKeyReturn (key : bytes) (object : Object) (now change : Z) : M reply :=
  do! DeleteKey key object now change else reply_err in ret (RInt 1).

Fixpoint touchORDelete_loop (delete : bool) (args : list bytes) (count : Z) : M reply :=
  match args with
  | [] => ret (RInt count)
  | a :: args =>
      let! (object, err) := lookup UnknownType a false in
      match err with
      | Some KeyNotFound => touchORDelete_loop delete args count
      | Some e => reply_err e
      | None =>
          let count := count + 1 in
          if delete then
            let! t := get_txn in
            do! DeleteKey (ObjectKeyBytes object) object (t_Now t) MinusCount else reply_err in
            touchORDelete_loop delete args count
          else touchORDelete_loop delete args count
      end
  end.

Definition touchORDelete (args : list bytes) (delete : bool) : M reply :=
  touchORDelete_loop delete args 0.

Definition TouchHandle : TxnHandle := fun args =>
  if len args =? 0 then wrong_args "touch" else touchORDelete args false.
Definition DELHandle : TxnHandle := fun args =>
  if len args =? 0 then wrong_args "del" else touchORDelete args true.
Definition UnlinkHandle : TxnHandle := fun args =>
  if len args =? 0 then wrong_args "unlink" else touchORDelete args true.

(** ** RENAME, RENAMENX *)

Definition rename (args : list bytes) (checkExist : bool) : M (error + Z) :=
  let! (fromObject, err) := lookup UnknownType (arg 0 args) false in
  let fromKey := ObjectKeyBytes fromObject in
  match err with
  | Some KeyNotFound => ret (inl (ErrNoSuchKey : error))
  | Some e => ret (inl e)
  | None =>
      if bool_decide (arg 0 args = arg 1 args) then ret (inr 0)
      else
        let! (toObject, err) := lookup UnknownType (arg 1 args) false in
        let toKey := ObjectKeyBytes toObject in
        let move : M (error + Z) :=
          do! setTxnObject fromKey fromObject DeleteKeyType else (fun e => ret (inl e)) in
          let! moved :=
            if o_TTL fromObject >? 0 then
              do! Del (GetTTLKeyBytes fromObject) else (fun e => ret (inl e)) in
              let fromObject := set_o_Key (o_Key toObject) fromObject in
              do! Put (GetTTLKeyBytes fromObject) [x01] else (fun e => ret (inl e)) in
              ret (inr fromObject)
            else ret (inr fromObject) in
          match moved with
          | inl e => ret (inl e)
          | inr fromObject =>
              do! setTxnObject toKey fromObject 0 else (fun e => ret (inl e)) in
              ret (inr 1)
          end in
        match err with
        | Some KeyNotFound => move
        | Some e => ret (inl e)
        | None =>
            if checkExist then ret (inr 0)
            else if negb (beq (o_Type fromObject) (o_Type toObject)) then ret (inl (WrongTypeErr : error))
            else
              do! setTxnObject toKey toObject (Z.lor DeleteKeyType MinusCount)
              else (fun e => ret (inl e)) in
              move
        end
  end.

Definition RenameNXHandle : TxnHandle := fun args =>
  if negb (len args =? 2) then wrong_args "renamenx" else reply_int (rename args true).
Definition RenameHandle : TxnHandle := fun args =>
  if negb (len args =? 2) then wrong_args "rename"
  else val! _ := rename args false else reply_err in ret OK.

(** ** TYPE *)

Definition TypeHandle : TxnHandle := fun args =>
  if negb (len args =? 1) then wrong_args "type"
  else
    let! (object, err) := lookup UnknownType (arg 0 args) false in
    match err with
    | Some e => reply_err e
    | None => ret (RStatus (TypeName (o_Type object)))
    end.

Definition getObjectType (typo : Init.Byte.byte) : M Init.Byte.byte :=
  if beq typo LListType then
    let! c := get_config in
    ret (if String.eqb (ListType c) BLIST then BListType else AListType)
  else ret typo.

Definition getType (typo : bytes) : M Init.Byte.byte :=
  if lower_is typo "string" then ret StringType
  else if lower_is typo "json" then ret JsonType
  else if lower_is typo "hash" then ret HashType
  else if lower_is typo "list" then
    let! c := get_config in
    ret (if String.eqb (ListType c) BLIST then BListType else AListType)
  else if lower_is typo "set" then ret SetType
  else if lower_is typo "zset" then ret ZsetType
  else if lower_is typo "stream" then ret StreamType
  else ret UnknownType.

End generic.
