(* ===== verification/GenericSpec.v ===== *)
(** What the commands on keys promise: the database of a connection as a finite
    function from keys to objects, and DEL, EXPIRE and PERSIST as operations on it. *)

From S2P Require Import Prelude Xerror GoStd Utils Store Ranges Mem Object Reply ObjectSpec.
From S2P Require Import Generic.
From Stdlib Require Import Init.Byte.

#[local] Open Scope Z_scope.

(** ** Header keys *)

Definition header_key (user db : Z) (k : bytes) : bytes := GetKeyBytes DataPrefix user db KeyPrefix [k].

Lemma header_key_inj user db k k' : header_key user db k = header_key user db k' -> k = k'.
Proof.
  unfold header_key. rewrite !GetKeyBytes_app. intros E%app_inv_head. cbn [concat] in E.
  by rewrite !app_nil_r in E.
Qed.

Lemma header_key_value user db k o f : GetValueBytes o f <> header_key user db k.
Proof. intros E%(f_equal (fun l => nth 4 l x00)). done. Qed.

Lemma header_key_ttl user db k o typo d : getTTLBytes o typo d <> header_key user db k.
Proof.
  unfold getTTLBytes. destruct (o_TTL o <=? 0); [done|].
  intros E%(f_equal (fun l => nth 0 l x00)). done.
Qed.
#[export] Hint Resolve header_key_value header_key_ttl : go.

Section spec.
Context `{PlatformSpec}.

Definition hkey (t : Txn) (k : bytes) : bytes := header_key (t_UserId t) (t_DBId t) k.

Definition the_object (c : Config) (t : Txn) (typo : Init.Byte.byte) (k : bytes) : Object :=
  new_object c (t_UserId t) (t_DBId t) typo k.

(** The live object a key names: the database of the connection, as a function. *)
Definition find (c : Config) (t : Txn) (d : gmap bytes bytes) (k : bytes) : option Object :=
  match read_object c d (t_Now t) (the_object c t UnknownType k) with
  | (o, None) => Some o
  | _ => None
  end.

Lemma find_env c t t' d k : same_env t t' -> find c t' d k = find c t d k.
Proof. intros He. unfold find, the_object. by rewrite (se_Now _ _ He), (se_UserId _ _ He), (se_DBId _ _ He). Qed.

Lemma hkey_env t t' k : same_env t t' -> hkey t' k = hkey t k.
Proof. intros He. unfold hkey. by rewrite (se_UserId _ _ He), (se_DBId _ _ He). Qed.

Lemma find_ext c t d d' k : d' !! hkey t k = d !! hkey t k -> find c t d' k = find c t d k.
Proof.
  intros E. unfold find, read_object.
  change (ObjectKeyBytes (the_object c t UnknownType k)) with (hkey t k).
  by rewrite E.
Qed.

(** Writes to other keys, to values and to the expiry index do not show. *)
Lemma find_insert_ne c t d k x v : x <> hkey t k -> find c t (<[x := v]> d) k = find c t d k.
Proof. intros Hx. apply find_ext. by apply lookup_insert_ne. Qed.
Lemma find_delete_ne c t d k x : x <> hkey t k -> find c t (delete x d) k = find c t d k.
Proof. intros Hx. apply find_ext. by apply lookup_delete_ne. Qed.

Lemma find_delete c t d k : find c t (delete (hkey t k) d) k = None.
Proof.
  unfold find, read_object.
  change (ObjectKeyBytes (the_object c t UnknownType k)) with (hkey t k).
  by rewrite lookup_delete_eq.
Qed.

Lemma find_insert c t d k o :
  wf_object o -> o_UserId o = t_UserId t -> o_Db o = t_DBId t -> o_Key o = k ->
  find c t (<[hkey t k := ObjectEncode o]> d) k = if expired (t_Now t) o then None else Some o.
Proof.
  intros Hw Eu Ed Ek. unfold find, read_object.
  change (ObjectKeyBytes (the_object c t UnknownType k)) with (hkey t k).
  rewrite lookup_insert_eq, ObjectDecode_encoded by done.
  by destruct (expired (t_Now t) o).
Qed.

Lemma find_key c t d k o : find c t d k = Some o ->
  ObjectKeyBytes o = hkey t k /\ o_UserId o = t_UserId t /\ o_Db o = t_DBId t /\ o_Key o = k /\
  decoded o /\ expired (t_Now t) o = false.
Proof.
  unfold find. destruct (read_object _ _ _ _) as [o' [e|]] eqn:E; [done|]. intros [= ->].
  pose proof (read_object_same_key c d (t_Now t) (the_object c t UnknownType k)) as Hk.
  rewrite E in Hk. cbn [fst] in Hk. destruct (read_object_decoded _ _ _ _ _ E) as [Hd He].
  rewrite (same_key_bytes _ _ Hk). by destruct Hk as (?&?&?).
Qed.

(** Reading an object of any type, which every generic command starts with. *)
Lemma wp_lookup_any c k clear t (Q : Object * option error -> Txn -> Prop) :
  ready c t -> len k < MAX_KEY_SIZE - 5 ->
  (forall t', dwrote c t t' (if (clear : bool) then swept (dv t) (t_Now t) (the_object c t UnknownType k) else dv t) ->
     match find c t (dv t) k with
     | Some o => Q (o, None) t'
     | None => forall o, same_key o (the_object c t UnknownType k) -> Q (o, Some KeyNotFound) t'
     end) ->
  wp (lookup UnknownType k clear) t Q.
Proof.
  intros Hr Hk HQ. unfold lookup. apply wp_bind, (wp_NewObject c); [done|].
  apply (wp_getTxnObject c); [done|rewrite len_ObjectKeyBytes; cbn [o_Key new_object]; lia|].
  intros t' Hw _. specialize (HQ t' Hw). unfold find in HQ. fold (the_object c t UnknownType k).
  pose proof (read_object_same_key c (dv t) (t_Now t) (the_object c t UnknownType k)) as Hs.
  destruct (read_object c (dv t) (t_Now t) _) as [o [e|]] eqn:E.
  - apply read_object_any in E as ->; [|done]. by apply HQ.
  - done.
Qed.

(** Removing an expired header does not show. *)
Lemma find_swept c t d typo k k' :
  find c t (swept d (t_Now t) (the_object c t typo k)) k' = find c t d k'.
Proof.
  unfold swept. change (ObjectKeyBytes (the_object c t typo k)) with (hkey t k).
  destruct (d !! hkey t k) as [v|] eqn:Ev; [|done].
  destruct (ObjectDecode v _) as [o' [e|]] eqn:Eo; [done|]. destruct (expired (t_Now t) o') eqn:Ex; [|done].
  destruct (decide (k' = k)) as [->|Hn].
  - rewrite find_delete. unfold find, read_object.
    change (ObjectKeyBytes (the_object c t UnknownType k)) with (hkey t k).
    rewrite Ev, <- (ObjectDecode_indep v (the_object c t typo k)), Eo, Ex by (rewrite ?Eo; done). done.
  - apply find_delete_ne. intros E%header_key_inj. by subst.
Qed.

(** The header of a key, if there is one, decodes (every header that is written does). *)
Definition good_header (c : Config) (t : Txn) (k : bytes) : Prop :=
  match dv t !! hkey t k with
  | Some v => snd (ObjectDecode v (the_object c t UnknownType k)) = None
  | None => True
  end.

(** Reading an object of a given type. *)
Lemma read_object_typed c t typo k :
  good_header c t k -> typo <> UnknownType ->
  read_object c (dv t) (t_Now t) (the_object c t typo k) =
  match find c t (dv t) k with
  | Some o => if beq typo (o_Type o) then (o, None) else (o, Some (WrongTypeErr : error))
  | None => (the_object c t typo k, Some KeyNotFound)
  end.
Proof.
  intros Hg Ht. unfold find, read_object, good_header in *.
  change (ObjectKeyBytes (the_object c t _ k)) with (hkey t k).
  destruct (dv t !! hkey t k) as [v|]; [|done].
  rewrite (ObjectDecode_indep v (the_object c t typo k) (the_object c t UnknownType k)) by
    (first [done | rewrite (ObjectDecode_indep v _ (the_object c t typo k)) in Hg; done]).
  destruct (ObjectDecode v (the_object c t UnknownType k)) as [o [e|]] eqn:E; [done|].
  pose proof (ObjectDecode_same_key v (the_object c t UnknownType k)) as Hk. rewrite E in Hk.
  destruct Hk as (Eu&Ed&Ek). destruct (expired (t_Now t) o).
  - unfold CleanValue, the_object, new_object in *. cbn [fst o_UserId o_Db o_Key o_Type] in *.
    by rewrite Eu, Ed, Ek.
  - unfold wrong_type, the_object, new_object. cbn [o_Type]. change (beq UnknownType UnknownType) with true.
    cbn [negb andb]. unfold beq at 1. rewrite bool_decide_eq_false_2 by done. cbn [negb andb].
    by destruct (beq typo (o_Type o)).
Qed.

Lemma wp_lookup_typed c typo k clear t (Q : Object * option error -> Txn -> Prop) :
  ready c t -> len k < MAX_KEY_SIZE - 5 -> good_header c t k -> typo <> UnknownType ->
  (forall t' d, dwrote c t t' d -> (forall k', find c t d k' = find c t (dv t) k') ->
     (clear = false -> d = dv t) ->
     (forall x, ~ (exists k, x = hkey t k) -> d !! x = dv t !! x) ->
     Q match find c t (dv t) k with
       | Some o => if beq typo (o_Type o) then (o, None) else (o, Some (WrongTypeErr : error))
       | None => (the_object c t typo k, Some KeyNotFound)
       end t') ->
  wp (lookup typo k clear) t Q.
Proof.
  intros Hr Hk Hg Ht HQ. unfold lookup. apply wp_bind, (wp_NewObject c); [done|].
  apply (wp_getTxnObject c); [done|rewrite len_ObjectKeyBytes; cbn [o_Key new_object]; lia|].
  intros t' Hw _. fold (the_object c t typo k) in *. rewrite read_object_typed by done.
  eapply HQ; [exact Hw| |by intros ->|].
  - intros k'. destruct clear; [|done]. apply find_swept.
  - intros x Hx. destruct clear; [|done]. unfold swept. destruct (dv t !! ObjectKeyBytes _); [|done].
    destruct (ObjectDecode _ _) as [o' [e|]]; [done|]. destruct (expired _ _); [|done].
    apply lookup_delete_ne. intros <-. apply Hx. by exists k.
Qed.

(** The keys a command may name. *)
Definition key_ok (k : bytes) : Prop := len k < MAX_KEY_SIZE - 13.

(** *** DEL *)

Definition without (k : bytes) (f : bytes -> option Object) (x : bytes) : option Object :=
  if decide (x = k) then None else f x.

(** Removing a key from the database, and its objects from the store. *)
Lemma find_deleted c t d k o k' :
  ObjectKeyBytes o = hkey t k ->
  find c t (deleted d o (t_Now t)) k' = without k (find c t d) k'.
Proof.
  intros Ek. unfold deleted, without. rewrite Ek.
  assert (forall d', find c t (if 0 <? o_TTL o then delete (GetTTLKeyBytes o) d' else d') k' = find c t d' k') as Ht.
  { intros d'. destruct (0 <? o_TTL o); [|done]. apply find_delete_ne, header_key_ttl. }
  transitivity (find c t (delete (hkey t k) d) k').
  - destruct (_ && _); [rewrite find_insert_ne by apply header_key_ttl|]; apply Ht.
  - destruct (decide (k' = k)) as [->|Hn]; [apply find_delete|].
    apply find_delete_ne. intros E%header_key_inj. by subst.
Qed.

(** Deleting keys one after the other: how many of them were there, and what is left. *)
Fixpoint del_spec (ks : list bytes) (f : bytes -> option Object) : Z * (bytes -> option Object) :=
  match ks with
  | [] => (0, f)
  | k :: ks =>
      let '(n, g) := del_spec ks (without k f) in
      (match f k with Some _ => 1 | None => 0 end + n, g)
  end.

Lemma del_spec_ext ks f g :
  (forall x, f x = g x) ->
  fst (del_spec ks f) = fst (del_spec ks g) /\ forall x, snd (del_spec ks f) x = snd (del_spec ks g) x.
Proof.
  revert f g. induction ks as [|k ks IH]; intros f g E; [done|]. cbn [del_spec].
  destruct (IH (without k f) (without k g)) as [E1 E2].
  { intros x. unfold without. by destruct (decide (x = k)). }
  destruct (del_spec ks (without k f)), (del_spec ks (without k g)).
  cbn [fst snd] in *. by rewrite E, E1.
Qed.

Lemma del_spec_absent k ks f : f k = None ->
  fst (del_spec (k :: ks) f) = fst (del_spec ks f) /\
  forall x, snd (del_spec (k :: ks) f) x = snd (del_spec ks f) x.
Proof.
  intros Ek. cbn [del_spec]. destruct (del_spec_ext ks (without k f) f) as [E1 E2].
  { intros x. unfold without. by destruct (decide (x = k)) as [->|]. }
  destruct (del_spec ks (without k f)). cbn [fst snd] in *.
  by rewrite Ek, <- E1.
Qed.

Lemma wp_del_loop c ks n t :
  ready c t -> Forall key_ok ks ->
  wp (touchORDelete_loop true ks n) t (fun r t' =>
    r = RInt (n + fst (del_spec ks (find c t (dv t)))) /\ same_env t t' /\ ready c t' /\
    forall k, find c t (dv t') k = snd (del_spec ks (find c t (dv t))) k).
Proof.
  revert n t. induction ks as [|k ks IH]; intros n t Hr Hks.
  { apply wp_ret. split; [by rewrite Z.add_0_r|done]. }
  apply Forall_cons in Hks as [Hk Hks]. unfold key_ok in Hk. cbn [touchORDelete_loop].
  apply wp_bind, (wp_lookup_any c); [done|lia|]. intros t1 [He1 Hr1 Hv1].
  pose proof (find_env c t t1 (dv t1) k He1) as Hfe.
  destruct (find c t (dv t) k) as [o|] eqn:Ef.
  - apply wp_bind, wp_get_txn. destruct (find_key _ _ _ _ _ Ef) as (Ek&_&_&Eo&(_&_&Hd)&_).
    apply wp_on_done, (wp_DeleteKey c); [done|rewrite len_ObjectKeyBytes, Eo; lia| |apply Hr1|].
    { intros Hs. by rewrite (Hd Hs). }
    intros t2 [He2 Hr2 Hv2]. assert (same_env t t2) as He by by etrans.
    eapply wp_mono; [by apply IH|]. intros r t3 (->&He3&Hr3&Hf). split; [|split; [by etrans|split; [done|]]].
    + f_equal. cbn [del_spec].
      destruct (del_spec_ext ks (find c t2 (dv t2)) (without k (find c t (dv t)))) as [-> _].
      { intros x. rewrite (find_env c t t2) by done. rewrite Hv2, Hv1, (se_Now _ _ He1).
        by apply find_deleted. }
      rewrite Ef. destruct (del_spec ks (without k _)) as [m g]. cbn [fst]. lia.
    + intros x. rewrite <- (find_env c t t2 (dv t3) x He), Hf. cbn [del_spec].
      destruct (del_spec_ext ks (find c t2 (dv t2)) (without k (find c t (dv t)))) as [_ E2].
      { intros y. rewrite (find_env c t t2) by done. rewrite Hv2, Hv1, (se_Now _ _ He1).
        by apply find_deleted. }
      rewrite E2. by destruct (del_spec ks (without k _)).
  - intros o _. destruct (del_spec_absent k ks _ Ef) as [E1 E2].
    eapply wp_mono; [by apply IH|]. intros r t3 (->&He3&Hr3&Hf).
    assert (forall x, find c t1 (dv t1) x = find c t (dv t) x) as Hx
      by (intros x; by rewrite (find_env c t t1), Hv1).
    destruct (del_spec_ext ks _ _ Hx) as [E3 E4].
    split; [by rewrite E3, E1|]. split; [by etrans|]. split; [done|].
    intros x. by rewrite <- (find_env c t t1 (dv t3) x He1), Hf, E2.
Qed.

(** C11. DEL and UNLINK implement deletion on the database: the reply is the number of
    distinct keys that were there, none of the keys is left, and every other key of
    the connection's database keeps its object. *)
Theorem DELHandle_refines c ks t h :
  ready c t -> ks <> [] -> Forall key_ok ks -> In h [DELHandle; UnlinkHandle] ->
  wp (h ks) t (fun r t' =>
    r = RInt (fst (del_spec ks (find c t (dv t)))) /\ ready c t' /\
    forall k, find c t (dv t') k = snd (del_spec ks (find c t (dv t))) k).
Proof.
  intros Hr Hne Hks Hh. assert (h ks = touchORDelete ks true) as ->.
  { destruct Hh as [<-|[<-|[]]]; unfold DELHandle, UnlinkHandle;
      (destruct (Z.eqb_spec (len ks) 0) as [E|_]; [by apply len_nil_iff in E|done]). }
  eapply wp_mono; [by apply (wp_del_loop c)|]. intros r t' (->&_&Hr'&Hf). by rewrite Z.add_0_l.
Qed.

(** *** EXPIRE and PERSIST *)

Lemma find_wf c t k o : ready c t -> find c t (dv t) k = Some o ->
  wf_object o /\ len (ObjectEncode o) < MAX_VALUE_SIZE.
Proof.
  intros Hr. unfold find. destruct (read_object _ _ _ _) as [o' [e|]] eqn:E; [done|]. intros [= ->].
  apply read_object_wf in E as (Hw&v&Hv&->); [|apply Hr|done]. split; [done|].
  unfold dv in Hv. rewrite dview_lookup in Hv by apply ObjectKeyBytes_data.
  by apply (rd_store _ _ Hr _ _ Hv).
Qed.

(** The object with a new expiry, as EXPIRE writes it. *)
Definition with_ttl (ttl ts : Z) (o : Object) : Object := set_o_Timestamp ts (set_o_TTL ttl o).

Lemma with_ttl_wf ttl ts o : wf_object o -> in_i64 ttl -> in_u64 ts -> wf_object (with_ttl ttl ts o).
Proof. intros (Hn&_&_&Hh&Hv) Ht Hts. exact (conj Hn (conj Ht (conj Hts (conj Hh Hv)))). Qed.

Lemma len_with_ttl ttl ts o : len (ObjectEncode (with_ttl ttl ts o)) = len (ObjectEncode o).
Proof. by rewrite !ObjectEncode_length. Qed.

(** The entry of the expiry index for an object. *)
Definition ttl_entry (o : Object) : bytes :=
  if IsSimple o then [x01] else EncodeTTLValue (o_Type o) (sl (o_Value o)).

Lemma find_put_ttl c t d k o ttl :
  wf_object o -> o_UserId o = t_UserId t -> o_Db o = t_DBId t -> o_Key o = k ->
  in_i64 ttl -> in_u64 (t_Timestamp t) ->
  forall k', find c t (<[hkey t k := ObjectEncode (with_ttl ttl (t_Timestamp t) o)]> d) k' =
  if decide (k' = k)
  then if expired (t_Now t) (with_ttl ttl (t_Timestamp t) o) then None
       else Some (with_ttl ttl (t_Timestamp t) o)
  else find c t d k'.
Proof.
  intros Hw Eu Ed Ek Ht Hts k'. destruct (decide (k' = k)) as [->|Hn].
  - apply find_insert; [by apply with_ttl_wf|done..].
  - apply find_insert_ne. intros E%header_key_inj. by subst.
Qed.

Lemma ttl_key_ne user db k ttl ttl' typo data data' :
  0 < ttl <= MaxInt64 -> 0 < ttl' <= MaxInt64 -> ttl <> ttl' ->
  getTTLBytes (mkObject user db k x00 ttl 0 None 0 None) typo data <>
  getTTLBytes (mkObject user db k x00 ttl' 0 None 0 None) typo data'.
Proof.
  unfold MaxInt64. intros H1 H2 Hn E. rewrite !getTTLBytes_pos in E by (cbn; lia).
  apply app_inv_head in E. apply app_inj_1 in E as [E _]; [|by rewrite !length_be_put].
  cbn [o_TTL] in E. rewrite !u64_small in E by (unfold in_u64; lia).
  apply Hn. eapply be_put_inj; [| |exact E]; simpl; lia.
Qed.

(** A transaction in which the expiry of [o], known as [k], became [ttl]. *)
Definition expiry_set (c : Config) (t : Txn) (k : bytes) (o : Object) (ttl : Z) (t' : Txn) : Prop :=
  (forall k', find c t (dv t') k' =
     if decide (k' = k) then Some (with_ttl ttl (t_Timestamp t) o) else find c t (dv t) k') /\
  (0 < ttl -> dv t' !! GetTTLKeyBytes (with_ttl ttl (t_Timestamp t) o) = Some (ttl_entry o)) /\
  (0 < o_TTL o -> o_TTL o <> ttl -> dv t' !! GetTTLKeyBytes o = None).

Lemma wp_expire_install c k o d t t1 ttl (Q : error + Z -> Txn -> Prop) :
  ready c t -> dwrote c t t1 d -> key_ok k -> find c t (dv t) k = Some o ->
  (forall k', find c t d k' = find c t (dv t) k') ->
  (0 < o_TTL o -> o_TTL o <> ttl -> d !! GetTTLKeyBytes o = None) ->
  t_Now t < ttl <= MaxInt64 ->
  (forall t', ready c t' -> expiry_set c t k o ttl t' -> Q (inr 1) t') ->
  wp (do! Put (GetTTLKeyBytes (with_ttl ttl (t_Timestamp t) o)) (ttl_entry o) else (fun e => ret (inl e)) in
      do! setTxnObject (ObjectKeyBytes o) (with_ttl ttl (t_Timestamp t) o) 0 else (fun e => ret (inl e)) in
      ret (inr 1)) t1 Q.
Proof.
  intros Hr [He1 Hr1 Hv1] Hk Ef Hd Hold Httl HQ.
  destruct (find_key _ _ _ _ _ Ef) as (Ek&Eu&Edb&Eo&(_&_&Hval)&_).
  destruct (find_wf _ _ _ _ Hr Ef) as [Hwf Hsz]. pose proof (rd_now _ _ Hr) as Hnow.
  assert (wf_object (with_ttl ttl (t_Timestamp t) o)) as Hwf'.
  { apply with_ttl_wf; [done|unfold in_i64, MinInt64, MaxInt64 in *; lia|apply Hr]. }
  apply wp_on_done, (wp_data_Put c); [done|apply getTTLBytes_data| | |].
  { unfold GetTTLKeyBytes, key_ok in *. rewrite len_getTTLBytes by (cbn; lia). cbn [o_Key with_ttl set_o_TTL set_o_Timestamp]. rewrite Eo. lia. }
  { unfold ttl_entry. destruct (IsSimple o) eqn:Es; [done|]. unfold EncodeTTLValue.
    rewrite len_cons, (Hval eq_refl). done. }
  intros t2 [He2 Hr2 Hv2]. apply wp_on_done, (wp_setTxnObject_put c); [done|done|apply ObjectKeyBytes_data| |by rewrite len_with_ttl|].
  { rewrite len_ObjectKeyBytes, Eo. unfold key_ok in Hk. lia. }
  intros t3 [He3 Hr3 Hv3]. apply HQ; [done|].
  rewrite Ek, Hv2, Hv1 in Hv3. split; [|split].
  - intros k'. rewrite Hv3, find_put_ttl by (first [done | apply Hwf' | apply Hr]).
    rewrite find_insert_ne by apply header_key_ttl. rewrite Hd.
    destruct (decide (k' = k)); [|done]. unfold expired. cbn [o_TTL with_ttl set_o_TTL set_o_Timestamp].
    destruct (Z.leb_spec ttl (t_Now t)); [lia|]. by rewrite andb_false_r.
  - intros _. rewrite Hv3, lookup_insert_ne by (apply not_eq_sym, header_key_ttl).
    by rewrite lookup_insert_eq.
  - intros Hp Hn. rewrite Hv3, lookup_insert_ne by (apply not_eq_sym, header_key_ttl).
    rewrite lookup_insert_ne; [by apply Hold|].
    pose proof Hwf as (_&Ht64&_). unfold in_i64 in Ht64.
    apply (ttl_key_ne (o_UserId o) (o_Db o) (o_Key o) ttl (o_TTL o) KeyPrefix (o_Key o) (o_Key o)); lia.
Qed.

(** Whether the sensitivity setting lets every change of expiry through. *)
Definition always_sensitive (c : Config) : Prop := TTLSensitivity c < 0.

(** EXPIRE (its body [expire], without options) on a key that is not there
    changes nothing and replies 0. On a live key it replies 1: with a time in the past
    the key is gone; with a time in the future the key carries the new expiry, the
    expiry index has an entry for it and the entry of its former expiry is gone; no
    other key of the database changes. *)
Lemma expire_sets c k s newTTL t :
  ready c t -> key_ok k -> always_sensitive c -> in_i64 newTTL ->
  wp (expire [k; s] newTTL false) t (fun r t' => ready c t' /\
    match find c t (dv t) k with
    | None => r = inr 0 /\ forall k', find c t (dv t') k' = find c t (dv t) k'
    | Some o =>
        r = inr 1 /\
        if newTTL <=? t_Now t
        then forall k', find c t (dv t') k' = without k (find c t (dv t)) k'
        else expiry_set c t k o newTTL t'
    end).
Proof.
  intros Hr Hk Hsens Ht. pose proof (rd_now _ _ Hr) as Hnow. unfold expire. cbn [len length].
  change (len [k; s] >? 2) with false. cbv iota.
  apply wp_bind, (wp_lookup_any c); [done|unfold key_ok in Hk; cbn; lia|]. intros t1 Hw1.
  cbn [arg nth] in Hw1 |- *. set (d1 := swept _ _ _) in Hw1.
  assert (forall k', find c t d1 k' = find c t (dv t) k') as Hd1.
  { intros k'. apply find_swept. }
  destruct (find c t (dv t) k) as [o|] eqn:Ef.
  2: { intros o _. split; [apply Hw1|]. split; [done|]. intros k'. by rewrite (dw_view _ _ _ _ Hw1). }
  destruct (find_key _ _ _ _ _ Ef) as (Ek&Eu&Edb&Eo&(_&_&Hval)&_).
  apply wp_bind, wp_get_txn. rewrite (se_Now _ _ (dw_env _ _ _ _ Hw1)), (se_Timestamp _ _ (dw_env _ _ _ _ Hw1)).
  destruct (Z.leb_spec newTTL (t_Now t)).
  - apply wp_on_done, (wp_DeleteKey c); [apply Hw1|rewrite len_ObjectKeyBytes, Eo; unfold key_ok in Hk; lia| |lia|].
    { intros Es. by rewrite (Hval Es). }
    intros t2 [He2 Hr2 Hv2]. split; [done|]. split; [done|]. intros k'.
    rewrite Hv2, (find_deleted c t _ k) by done. unfold without. destruct (decide (k' = k)); [done|].
    by rewrite (dw_view _ _ _ _ Hw1).
  - destruct (Z.gtb_spec (o_TTL o) 0).
    + change (has (co_Check no_option) CheckNotExist) with false. change (has (co_Check no_option) CheckLT) with false.
      change (has (co_Check no_option) CheckGT) with false. rewrite !andb_false_r. cbv iota.
      apply wp_bind, (wp_config c); [apply Hw1|]. apply wp_bind. unfold TTLSensitive.
      destruct (Z.ltb_spec (TTLSensitivity c) 0); [|unfold always_sensitive in Hsens; lia].
      apply wp_ret. cbn [negb]. apply wp_on_done, (wp_data_Del c); [apply Hw1| |].
      { unfold GetTTLKeyBytes, key_ok in *. rewrite len_getTTLBytes, Eo by done. lia. }
      intros t2 Hw2. pose proof (dwrote_then c t t1 t2 d1 (delete (GetTTLKeyBytes o)) Hw1 Hw2) as Hw.
      apply (wp_expire_install c k o (delete (GetTTLKeyBytes o) d1) t t2); try done.
      * intros k'. rewrite find_delete_ne by apply header_key_ttl. apply Hd1.
      * intros _ _. by rewrite lookup_delete_eq.
      * unfold in_i64 in Ht. lia.
    + change (has (co_Check no_option) CheckExist) with false. change (has (co_Check no_option) CheckGT) with false.
      cbv iota. apply (wp_expire_install c k o d1 t t1 _ _ Hr Hw1); try done; try lia.
      unfold in_i64 in Ht. lia.
Qed.

End spec.
