(* ===== verification/Strings.v ===== *)
(** The string commands (command/string.go). *)

From S2P Require Import Prelude Xerror GoStd Utils Float Strconv Store Ranges Mem Object Reply ObjectSpec.
From S2P Require Import Generic.
From Stdlib Require Import Init.Byte.

#[local] Open Scope Z_scope.

(** ** Options of SET and GETEX *)

Record ExpireOption := {
  eo_KeepTTL : bool;
  eo_Get : bool;
  eo_Expire : Z;
  eo_Check : Z;
  eo_Persist : bool
}.

Definition no_expire : ExpireOption :=
  {| eo_KeepTTL := false; eo_Get := false; eo_Expire := 0; eo_Check := NoCheck; eo_Persist := false |}.
Definition with_Expire (e : Z) (o : ExpireOption) : ExpireOption :=
  {| eo_KeepTTL := eo_KeepTTL o; eo_Get := eo_Get o; eo_Expire := e; eo_Check := eo_Check o;
     eo_Persist := eo_Persist o |}.
Definition with_KeepTTL (b : bool) (o : ExpireOption) : ExpireOption :=
  {| eo_KeepTTL := b; eo_Get := eo_Get o; eo_Expire := eo_Expire o; eo_Check := eo_Check o;
     eo_Persist := eo_Persist o |}.
Definition with_Check (check : Z) (o : ExpireOption) : ExpireOption :=
  {| eo_KeepTTL := eo_KeepTTL o; eo_Get := eo_Get o; eo_Expire := eo_Expire o; eo_Check := check;
     eo_Persist := eo_Persist o |}.
Definition with_Get (o : ExpireOption) : ExpireOption :=
  {| eo_KeepTTL := eo_KeepTTL o; eo_Get := true; eo_Expire := eo_Expire o; eo_Check := eo_Check o;
     eo_Persist := eo_Persist o |}.
Definition with_Persist (o : ExpireOption) : ExpireOption :=
  {| eo_KeepTTL := eo_KeepTTL o; eo_Get := eo_Get o; eo_Expire := eo_Expire o; eo_Check := eo_Check o;
     eo_Persist := true |}.

(** The four units: [inl] a duration added to the current time, [inr] a factor of an
    absolute time. *)
Definition expire_unit (str : bytes) : option (Z + Z) :=
  if lower_is str "ex" then Some (inl Second)
  else if lower_is str "px" then Some (inl Millisecond)
  else if lower_is str "exat" then Some (inr 1000)
  else if lower_is str "pxat" then Some (inr 1)
  else None.

(** The argument behind a unit. *)
Definition expire_value (cmd : string) (unit : Z + Z) (a : bytes) (nowTime : Z) : error + Z :=
  match ParseInt a with
  | None => inl (ErrNotInteger : error)
  | Some intArg =>
      if intArg <=? 0 then inl (InvalidExpireError cmd)
      else
        match unit with
        | inl d =>
            if go_div MaxInt64 d <=? intArg then inl (InvalidExpireError cmd)
            else inr (go_div (UnixNano (nowTime + i64 (intArg * d))) Millisecond)
        | inr u =>
            if go_div (go_div MaxInt64 u) 1000 <=? intArg then inl (InvalidExpireError cmd)
            else inr (i64 (intArg * u))
        end
  end.

(** The unit variables are declared inside the loop, so they are zero whenever an
    option tests them: only [KEEPTTL] and [PERSIST] exclude later options. *)
Fixpoint checkExpireOption (cmd : string) (args : list bytes) (isSet : bool) (nowTime : Z)
    (opt : ExpireOption) : error + ExpireOption :=
  match args with
  | [] => inr opt
  | str :: args =>
      match expire_unit str with
      | Some unit =>
          if eo_KeepTTL opt || eo_Persist opt then inl (ErrSyntax : error)
          else
            match args with
            | [] => inl (WrongArgsError cmd)
            | a :: args =>
                match expire_value cmd unit a nowTime with
                | inl e => inl e
                | inr expire => checkExpireOption cmd args isSet nowTime (with_Expire expire opt)
                end
            end
      | None =>
          if lower_is str "keepttl" then
            if negb isSet then inl (ErrSyntax : error)
            else checkExpireOption cmd args isSet nowTime (with_KeepTTL true opt)
          else if lower_is str "persist" then
            if isSet then inl (ErrSyntax : error)
            else checkExpireOption cmd args isSet nowTime (with_Persist opt)
          else if lower_is str "nx" then
            if negb isSet then inl (ErrSyntax : error)
            else checkExpireOption cmd args isSet nowTime (with_Check CheckNotExist opt)
          else if lower_is str "xx" then
            if negb isSet then inl (ErrSyntax : error)
            else checkExpireOption cmd args isSet nowTime (with_Check CheckExist opt)
          else if lower_is str "get" then
            if negb isSet then inl (ErrSyntax : error)
            else checkExpireOption cmd args isSet nowTime (with_Get opt)
          else inl (ErrSyntax : error)
      end
  end.

(** ** Ranges *)

(** [value[i:j]]; [None] is the panic of bounds out of range. (Go tests [j] against the
    capacity, which is taken to be the length.) *)
Definition go_slice (i j : Z) (l : bytes) : option bytes :=
  if (0 <=? i) && (i <=? j) && (j <=? len l) then Some (slice (Z.to_nat i) (Z.to_nat j) l) else None.

Definition getRange (value : bytes) (start end_ : Z) : option (bytes * Z * Z) :=
  let start := if start <? 0 then i64 (len value + start) else start in
  let end_ := if end_ <? 0 then i64 (len value + end_) else end_ in
  let end_ := if end_ >? len value - 1 then len value - 1 else end_ in
  if start >? len value then Some ([], start, end_)
  else if end_ <? start then Some ([], start, end_)
  else
    let start := if start <? 0 then 0 else start in
    let end_ := if end_ <? 0 then 0 else end_ in
    match go_slice start (end_ + 1) value with
    | Some v => Some (v, start, end_)
    | None => None
    end.

(** [copy(value[offset:], a)] where [a] fits. *)
Definition splice (value : bytes) (offset : nat) (a : bytes) : bytes :=
  take offset value ++ a ++ drop (offset + length a) value.

(** ** Handlers *)

Section strings.
Context `{Platform}.

Definition getString (k : bytes) : M (error + option bytes) :=
  let! (object, err) := lookup StringType k false in
  match err with
  | Some KeyNotFound => ret (inr None)
  | Some e => ret (inl e)
  | None => ret (inr (o_Value object))
  end.

Definition GetHandle : TxnHandle := fun args =>
  if negb (len args =? 1) then wrong_args "get"
  else val! value := getString (arg 0 args) else reply_err in ret (bulk_or_nil value).

(** A key of another type reads as nil. *)
Fixpoint mget_loop (args : list bytes) (acc : list reply) : M reply :=
  match args with
  | [] => ret (RArr acc)
  | a :: args =>
      let! r := getString a in
      match r with
      | inl (Sentinel WrongTypeErr) => mget_loop args (acc ++ [RNil])
      | inl e => reply_err e
      | inr value => mget_loop args (acc ++ [bulk_or_nil value])
      end
  end.
Definition MGetHandle : TxnHandle := fun args =>
  if len args <? 1 then wrong_args "mget" else mget_loop args [].

Definition GetDelHandle : TxnHandle := fun args =>
  if negb (len args =? 1) then wrong_args "getdel"
  else
    let! (object, err) := lookup StringType (arg 0 args) false in
    match err with
    | Some KeyNotFound => ret RNil
    | Some e => reply_err e
    | None =>
        let! t := get_txn in
        do! DeleteKey (ObjectKeyBytes object) object (t_Now t) MinusCount else reply_err in
        ret (bulk_or_nil (o_Value object))
    end.

Definition StrLenHandle : TxnHandle := fun args =>
  if negb (len args =? 1) then wrong_args "strlen"
  else val! value := getString (arg 0 args) else reply_err in ret (RInt (len (sl value))).

Definition AppendHandle : TxnHandle := fun args =>
  if negb (len args =? 2) then wrong_args "append"
  else
    let! (object, err) := lookup StringType (arg 0 args) true in
    let! t := get_txn in
    let finish (object : Object) (create : Z) : M reply :=
      do! setTxnObject (ObjectKeyBytes object) (set_o_Timestamp (t_Timestamp t) object) create
      else reply_err in
      ret (RInt (len (sl (o_Value object)))) in
    match err with
    | Some KeyNotFound => finish (set_o_Value (Some (arg 1 args)) object) PlusCount
    | Some e => reply_err e
    | None => finish (set_o_Value (Some (sl (o_Value object) ++ arg 1 args)) object) 0
    end.

(** [c.checkExist]: the type of the command's entry in the table of handlers comes as
    an argument ([None] when there is no entry). *)
Definition checkExist (handler : option Init.Byte.byte) (cmd : string) (key : bytes) (check : Z) :
    M (option Object * option error) :=
  match handler with
  | None => ret (None, Some (UnknownCommandError cmd))
  | Some typo =>
      let! typo := getObjectType typo in
      let! (oldObject, err) := lookup typo key false in
      match err with
      | Some KeyNotFound =>
          if check =? CheckExist then ret (Some oldObject, Some (ErrCheckFailed : error))
          else ret (Some oldObject, err)
      | Some e => ret (Some oldObject, Some e)
      | None =>
          if check =? CheckNotExist then ret (Some oldObject, Some (ErrCheckFailed : error))
          else ret (Some oldObject, None)
      end
  end.

(** [c.checkSetOption] for SET, whose entry in the table has [StringType]. *)
Definition checkSetOption (cmd : string) (key : bytes) (args : list bytes) :
    M (option Object * option ExpireOption * option error) :=
  let! t := get_txn in
  match checkExpireOption cmd args true (NowTime t) no_expire with
  | inl e => ret (None, None, Some e)
  | inr opt =>
      let! (oldObject, err) := checkExist (Some StringType) cmd key (eo_Check opt) in
      match err, oldObject with
      | Some KeyNotFound, _ => ret (None, Some opt, None)
      | Some e, _ => ret (oldObject, Some opt, Some e)
      | None, None => panic
      | None, Some old =>
          let oldExpire := o_TTL old in
          let opt := if eo_KeepTTL opt && (oldExpire >? 0) then with_Expire oldExpire opt else opt in
          let opt := with_KeepTTL (eo_Expire opt =? oldExpire) opt in
          if (oldExpire >? 0) && negb (eo_KeepTTL opt) then
            do! Del (GetTTLKeyBytes old) else (fun e => ret (oldObject, Some opt, Some e)) in
            ret (oldObject, Some opt, None)
          else ret (oldObject, Some opt, None)
      end
  end.

Definition GetSetHandle : TxnHandle := fun args =>
  if negb (len args =? 2) then wrong_args "getset"
  else
    let! (object, err) := lookup StringType (arg 0 args) true in
    let! t := get_txn in
    let finish (r : reply) (create : Z) : M reply :=
      let object := set_o_Timestamp (t_Timestamp t) (set_o_Value (Some (arg 1 args)) object) in
      do! setTxnObject (ObjectKeyBytes object) object create else reply_err in
      ret r in
    match err with
    | Some KeyNotFound => finish RNil PlusCount
    | Some e => reply_err e
    | None =>
        let r := bulk_or_nil (o_Value object) in
        if o_TTL object >? 0 then
          do! Del (GetTTLKeyBytes object) else reply_err in
          finish r 0
        else finish r 0
    end.

(** A [StringFunc] returns the reply, whether the object changed, and the object. *)
Definition StringFunc : Type := Object -> list bytes -> error + (reply * bool * Object).

Definition intFunc (o : Object) (delta : Z) : error + (reply * bool * Object) :=
  let store (value : Z) :=
    inr (RInt value, true, set_o_Value (Some (FormatInt value)) o) in
  match o_Value o with
  | None => store delta
  | Some v =>
      match ParseInt v with
      | None => inl (ErrNotInteger : error)
      | Some intValue =>
          if delta =? 0 then inr (RGoInt intValue, false, o)
          else if negb (Int.ValidIncrementInt intValue delta) then inl (ErrOverflow : error)
          else store (i64 (intValue + delta))
      end
  end.

Definition decr : StringFunc := fun o _ => intFunc o (-1).
Definition incr : StringFunc := fun o _ => intFunc o 1.
Definition decrBy : StringFunc := fun o args =>
  match ParseInt (arg 1 args) with
  | None => inl (ErrNotInteger : error)
  | Some intValue => intFunc o (i64 (- intValue))
  end.
Definition incrBy : StringFunc := fun o args =>
  match ParseInt (arg 1 args) with
  | None => inl (ErrNotInteger : error)
  | Some intValue => intFunc o intValue
  end.

(** Only the infinities written with a sign are refused; [inf] and [nan] pass. *)
Definition incrByFloat : StringFunc := fun o args =>
  let str := ToLower (arg 1 args) in
  if bool_decide (str = bs "+inf") || bool_decide (str = bs "-inf") then inl (ErrFloatInfinity : error)
  else
    match ParseFloat str with
    | None => inl (ErrNotFloat : error)
    | Some delta =>
        let store (value : float64) := inr (RFloat value, true, set_o_Value (Some (FormatFloat value)) o) in
        match o_Value o with
        | None => store delta
        | Some v =>
            match ParseFloat v with
            | None => inl (ErrNotFloat : error)
            | Some floatValue =>
                if feq delta fzero then inr (RFloat floatValue, false, o)
                else if negb (ValidIncrementFloat floatValue delta) then inl (ErrOverflow : error)
                else store (fadd floatValue delta)
            end
        end
    end.

Definition stringHandle (args : list bytes) (stringFunc : StringFunc) : M reply :=
  let! (object, err) := lookup StringType (arg 0 args) true in
  let! t := get_txn in
  let run (create : Z) (conflict : bool) : M reply :=
    match stringFunc object args with
    | inl e => reply_err e
    | inr (value, changed, object) =>
        if negb changed || conflict then ret value
        else
          let! err := setTxnObject (ObjectKeyBytes object) (set_o_Timestamp (t_Timestamp t) object) create in
          match err with
          | None => ret value
          | Some e => if IsSkipConflict t && is_locked e then ret value else reply_err e
          end
    end in
  match err with
  | Some KeyNotFound => run PlusCount false
  | Some e => if IsSkipConflict t && is_locked e then run 0 true else reply_err e
  | None => run 0 false
  end.

Definition DecrByHandle : TxnHandle := fun args =>
  if negb (len args =? 2) then wrong_args "decrby" else stringHandle args decrBy.
Definition DecrHandle : TxnHandle := fun args =>
  if negb (len args =? 1) then wrong_args "decr" else stringHandle args decr.
Definition IncrHandle : TxnHandle := fun args =>
  if negb (len args =? 1) then wrong_args "incr" else stringHandle args incr.
Definition IncrByHandle : TxnHandle := fun args =>
  if negb (len args =? 2) then wrong_args "incrby" else stringHandle args incrBy.

Definition IncrByFloatHandle : TxnHandle := fun args =>
  if negb (len args =? 2) then wrong_args "incrbyfloat" else stringHandle args incrByFloat.

Definition setString (argKey argValue : bytes) (expire check : Z) : M (option error) :=
  let! (object, err) := lookup StringType argKey true in
  let key := ObjectKeyBytes object in
  let! t := get_txn in
  let write (create : Z) : M (option error) :=
    let! sensitive :=
      if (expire =? 0) || (o_TTL object =? 0) then ret true
      else
        let! c := get_config in
        TTLSensitive (i64 (o_TTL object - t_Now t)) (i64 (expire - t_Now t)) (TTLSensitivity c) in
    do! (if (o_TTL object >? 0) && (sensitive : bool) then Del (GetTTLKeyBytes object) else ret None)
    else fail in
    let object := set_o_Timestamp (t_Timestamp t) (set_o_Value (Some argValue) object) in
    let object' := if (expire >? 0) && sensitive then set_o_TTL expire object else object in
    do! (if (expire >? 0) && sensitive then Put (GetTTLKeyBytes object') [x01] else ret None)
    else fail in
    setTxnObject key object' create in
  match err with
  | Some KeyNotFound =>
      if check =? CheckExist then ret (Some (ErrCheckFailed : error)) else write PlusCount
  | Some e => ret (Some e)
  | None =>
      if check =? CheckNotExist then ret (Some (ErrCheckFailed : error)) else write 0
  end.

Definition is_check_failed (e : error) : bool :=
  match e with Sentinel ErrCheckFailed => true | _ => false end.

Definition SetNXHandle : TxnHandle := fun args =>
  if negb (len args =? 2) then wrong_args "setnx"
  else
    let! err := setString (arg 0 args) (arg 1 args) 0 CheckNotExist in
    match err with
    | None => ret (RInt 1)
    | Some e => if is_check_failed e then ret (RInt 0) else reply_err e
    end.

(** The pairs of MSETNX from the last to the first, without the keys already seen. *)
Fixpoint msetnx_loop (pairs : list (bytes * bytes)) (exists_ : gset bytes) : M reply :=
  match pairs with
  | [] => ret (RInt 1)
  | (k, v) :: pairs =>
      if bool_decide (k ∈ exists_) then msetnx_loop pairs exists_
      else
        let! err := setString k v 0 CheckNotExist in
        match err with
        | None => msetnx_loop pairs ({[k]} ∪ exists_)
        | Some e =>
            if is_check_failed e then let! _ := modify (with_Err (Some e)) in ret (RInt 0)
            else reply_err e
        end
  end.

Fixpoint pairs_of (args : list bytes) : list (bytes * bytes) :=
  match args with k :: v :: args => (k, v) :: pairs_of args | _ => [] end.

Definition MSetNXHandle : TxnHandle := fun args =>
  if (len args <? 2) || negb (go_rem (len args) 2 =? 0) then wrong_args "msetnx"
  else msetnx_loop (rev (pairs_of args)) ∅.

Fixpoint mset_loop (pairs : list (bytes * bytes)) : M reply :=
  match pairs with
  | [] => ret OK
  | (k, v) :: pairs =>
      do! setString k v 0 NoCheck else reply_err in
      mset_loop pairs
  end.
Definition MSetHandle : TxnHandle := fun args =>
  if (len args <? 2) || negb (go_rem (len args) 2 =? 0) then wrong_args "mset"
  else mset_loop (pairs_of args).

(** [make([]byte, n)]; [None] is its panic. *)
Definition make_bytes (n : Z) : option bytes :=
  if makeslice_ok n 1 then Some (replicate (Z.to_nat n) x00) else None.

Definition SetRangeHandle : TxnHandle := fun args =>
  if negb (len args =? 3) then wrong_args "setrange"
  else
    match Atoi (arg 1 args) with
    | None => reply_err ErrNotInteger
    | Some offset =>
        if offset <? 0 then reply_err ErrOffset
        else
          let a := arg 2 args in
          let n := i64 (offset + len a) in
          let! (object, err) := lookup StringType (arg 0 args) true in
          let! t := get_txn in
          let finish (value : bytes) (create : Z) : M reply :=
            let object := set_o_Timestamp (t_Timestamp t) (set_o_Value (Some value) object) in
            do! setTxnObject (ObjectKeyBytes object) object create else reply_err in
            ret (RInt (len value)) in
          match err with
          | Some KeyNotFound =>
              if n =? 0 then ret (RInt 0)
              else match make_bytes n with
                   | None => panic
                   | Some value => finish (splice value (Z.to_nat offset) a) PlusCount
                   end
          | Some e => reply_err e
          | None =>
              let old := sl (o_Value object) in
              if n =? 0 then ret (RInt (len old))
              else if n >? len old then
                match make_bytes n with
                | None => panic
                | Some value =>
                    let head := if offset >? len old then old else take (Z.to_nat offset) old in
                    finish (splice (splice value 0 head) (Z.to_nat offset) a) 0
                end
              else if offset >? len old then panic
              else finish (splice old (Z.to_nat offset) a) 0
          end
    end.

Definition setExpireHandle (args : list bytes) (unit : Z) : M reply :=
  match ParseInt (arg 1 args) with
  | None => reply_err ErrNotInteger
  | Some intArg =>
      if intArg <=? 0 then reply_err (InvalidExpireError "setex")
      else
        let! t := get_txn in
        do! setString (arg 0 args) (arg 2 args) (i64 (t_Now t + i64 (intArg * unit))) NoCheck
        else reply_err in
        ret OK
  end.
Definition PSetExHandle : TxnHandle := fun args =>
  if negb (len args =? 3) then wrong_args "psetex" else setExpireHandle args 1.
Definition SetExHandle : TxnHandle := fun args =>
  if negb (len args =? 3) then wrong_args "setex" else setExpireHandle args 1000.

(** The reply of SET with the option GET. *)
Definition old_value (old : option Object) : reply :=
  match old with Some o => bulk_or_nil (o_Value o) | None => RNil end.

Definition SetHandle : TxnHandle := fun args =>
  if len args <? 2 then wrong_args "set"
  else
    let! r := checkSetOption "set" (arg 0 args) (drop 2 args) in
    match r with
    | (oldObject, Some setOption, None) =>
        let! object := NewObject StringType (arg 0 args) in
        let! t := get_txn in
        let object := set_o_Timestamp (t_Timestamp t)
          (set_o_TTL (eo_Expire setOption) (set_o_Value (Some (arg 1 args)) object)) in
        do! (if negb (eo_KeepTTL setOption) && (eo_Expire setOption >? 0)
             then Put (GetTTLKeyBytes object) [x01] else ret None)
        else reply_err in
        do! setTxnObject (ObjectKeyBytes object) object
              (match oldObject with None => PlusCount | Some _ => 0 end)
        else reply_err in
        if eo_Get setOption then ret (old_value oldObject) else ret OK
    | (oldObject, setOption, Some e) =>
        if is_check_failed e then
          match setOption with
          | None => panic
          | Some opt => if eo_Get opt then ret (old_value oldObject) else ret RNil
          end
        else reply_err e
    | (_, None, None) => panic
    end.

Definition GetExHandle : TxnHandle := fun args =>
  if len args <? 1 then wrong_args "getex"
  else
    let! (object, err) := lookup StringType (arg 0 args) true in
    match err with
    | Some KeyNotFound => ret RNil
    | Some e => reply_err e
    | None =>
        let! t := get_txn in
        match checkExpireOption "getex" (drop 1 args) false (NowTime t) no_expire with
        | inl e => reply_err e
        | inr opt =>
            let finish (object : Object) : M reply :=
              do! setTxnObject (ObjectKeyBytes object) (set_o_Timestamp (t_Timestamp t) object) 0
              else reply_err in
              ret (bulk_or_nil (o_Value object)) in
            if eo_Persist opt then
              if o_TTL object =? 0 then ret (bulk_or_nil (o_Value object))
              else finish (set_o_TTL 0 object)
            else if eo_Expire opt >? 0 then
              if eo_Expire opt =? o_TTL object then ret (bulk_or_nil (o_Value object))
              else finish (set_o_TTL (eo_Expire opt) object)
            else finish object
        end
    end.

Definition getRangeOf (k : bytes) (start end_ : Z) : M (error + (option bytes * Z * Z)) :=
  let! (object, err) := lookup StringType k false in
  match err with
  | Some KeyNotFound => ret (inr (None, start, end_))
  | Some e => ret (inl e)
  | None =>
      match getRange (sl (o_Value object)) start end_ with
      | Some (v, start, end_) => ret (inr (Some v, start, end_))
      | None => panic
      end
  end.

Definition checkAndGetRange (k : bytes) (args : list bytes) : M (error + (option bytes * Z * Z)) :=
  match (if len args >? 0 then Atoi (arg 0 args) else Some 0) with
  | None => ret (inl (ErrNotInteger : error))
  | Some start =>
      match (if len args >? 1 then Atoi (arg 1 args) else Some (-1)) with
      | None => ret (inl (ErrNotInteger : error))
      | Some end_ => getRangeOf k start end_
      end
  end.

Definition GetRangeHandle : TxnHandle := fun args =>
  if negb (len args =? 3) then wrong_args "getrange"
  else
    val! (v, _, _) := checkAndGetRange (arg 0 args) (drop 1 args) else reply_err in
    if len (sl v) =? 0 then ret EmptyString_reply else ret (RBulk (sl v)).

End strings.
