(* ===== verification/StringsSpec.v ===== *)
(** What the string commands promise: SET, GET, APPEND, SETRANGE and the INCR family
    as operations on the database of the connection, and GETRANGE against the clamped
    substring. *)

From S2P Require Import Prelude Xerror GoStd Utils Store Ranges Mem Object Reply ObjectSpec.
From S2P Require Import Generic GenericSpec Strings.
From Stdlib Require Import Init.Byte.

#[local] Open Scope Z_scope.

Section spec.
Context `{PlatformSpec}.

(** ** Writing a header *)

Definition upd (k : bytes) (o : Object) (f : bytes -> option Object) (x : bytes) : option Object :=
  if decide (x = k) then Some o else f x.

(** The header of a live object is written back under its key. *)
Lemma wp_put_object c k o change t t1 d (Q : option error -> Txn -> Prop) :
  ready c t -> dwrote c t t1 d -> (forall k', find c t d k' = find c t (dv t) k') ->
  has change DeleteKeyType = false -> len k < MAX_KEY_SIZE - 5 ->
  wf_object o -> o_UserId o = t_UserId t -> o_Db o = t_DBId t -> o_Key o = k ->
  expired (t_Now t) o = false -> len (ObjectEncode o) < MAX_VALUE_SIZE ->
  (forall t', dwrote c t t' (<[hkey t k := ObjectEncode o]> d) ->
     (forall x, find c t (dv t') x = upd k o (find c t (dv t)) x) -> Q None t') ->
  wp (setTxnObject (ObjectKeyBytes o) o change) t1 Q.
Proof.
  intros Hr Hw Hf Hc Hk Hwf Eu Ed Ek Hx Hs HQ.
  apply (wp_setTxnObject_put c); [apply Hw|done|apply ObjectKeyBytes_data| |done|].
  { rewrite len_ObjectKeyBytes, Ek. lia. }
  intros t' Hw'. assert (ObjectKeyBytes o = hkey t k) as Eh.
  { unfold ObjectKeyBytes, hkey, header_key. by rewrite Eu, Ed, Ek. }
  rewrite Eh in Hw'. pose proof (dwrote_then c t t1 t' d _ Hw Hw') as Hw2. apply HQ; [done|].
  intros x. rewrite (dw_view _ _ _ _ Hw2). unfold upd. destruct (decide (x = k)) as [->|Hn].
  - rewrite find_insert by done. by rewrite Hx.
  - rewrite find_insert_ne; [apply Hf|]. intros E%header_key_inj. by subst.
Qed.

(** A string as SET writes it. *)
Definition string_object (c : Config) (t : Txn) (k v : bytes) (ttl : Z) : Object :=
  set_o_Timestamp (t_Timestamp t) (set_o_TTL ttl (set_o_Value (Some v) (the_object c t StringType k))).

Lemma string_object_wf c t k v ttl : ready c t -> in_i64 ttl -> wf_object (string_object c t k v ttl).
Proof.
  intros Hr Ht. split; [apply Hr|]. split; [done|]. split; [apply Hr|]. split; [|split; [by eexists|done]].
  cbn. destruct (Z.eqb_spec (ObjectHash c) 0); [done|apply Hr].
Qed.

Lemma len_string_object c t k v ttl : len (ObjectEncode (string_object c t k v ttl)) = 19 + len v.
Proof. rewrite ObjectEncode_length. cbn. unfold len at 2. simpl. unfold id. lia. Qed.

Lemma ready_with_Err c t e : ready c t -> ready c (with_Err e t).
Proof. intros []. by split. Qed.

Lemma find_with_Err c t e d k : find c (with_Err e t) d k = find c t d k.
Proof. done. Qed.

(** The replies of handlers that fail leave the database alone. *)
Definition failed (c : Config) (t : Txn) (e : error) (r : reply) (t' : Txn) : Prop :=
  r = RErr e /\ ready c t' /\ forall k, find c t (dv t') k = find c t (dv t) k.

Lemma wp_reply_err c t t1 d e (Q : reply -> Txn -> Prop) :
  dwrote c t t1 d -> (forall k, find c t d k = find c t (dv t) k) ->
  (forall r t', failed c t e r t' -> Q r t') -> wp (reply_err e) t1 Q.
Proof.
  intros Hw Hf HQ. apply HQ. split; [done|]. split; [apply ready_with_Err, Hw|].
  intros k. change (dv (with_Err (Some e) t1)) with (dv t1). by rewrite (dw_view _ _ _ _ Hw).
Qed.

(** ** SET and GET *)

(** What SET may replace: nothing, or a string. *)
Definition settable (f : bytes -> option Object) (k : bytes) : bool :=
  match f k with Some o => beq StringType (o_Type o) | None => true end.

(** C3. SET without options refines insertion into the database: on a missing key or
    a string it replies OK, the key then holds exactly the new value without expiry,
    every other key is unchanged, and the replaced value's entry of the expiry index
    is gone. On a key of another type it fails with WRONGTYPE and nothing changes, where
    the command's documentation says that SET overwrites a value of any type. *)
Theorem SetHandle_refines c k v t :
  ready c t -> key_ok k -> good_header c t k -> len v < MAX_VALUE_SIZE - 19 ->
  wp (SetHandle [k; v]) t (fun r t' =>
    if settable (find c t (dv t)) k then
      r = OK /\ ready c t' /\ same_env t t' /\
      (forall x, find c t (dv t') x = upd k (string_object c t k v 0) (find c t (dv t)) x) /\
      (forall o, find c t (dv t) k = Some o -> 0 < o_TTL o -> dv t' !! GetTTLKeyBytes o = None)
    else failed c t WrongTypeErr r t').
Proof.
  intros Hr Hk Hg Hv. unfold SetHandle. change (len [k; v] <? 2) with false. cbv iota.
  cbn [arg nth drop]. unfold checkSetOption. apply wp_bind, wp_bind, wp_get_txn.
  cbn [checkExpireOption]. unfold checkExist. apply wp_bind, wp_bind.
  unfold getObjectType. change (beq StringType LListType) with false. cbv iota. apply wp_ret.
  apply wp_bind, (wp_lookup_typed c); [done|unfold key_ok in Hk; lia|done|done|].
  intros t1 d1 Hw1 Hf1 Ed1 _. specialize (Ed1 eq_refl) as ->. unfold settable.
  assert (forall t2 d2 opt create, dwrote c t t2 d2 -> (forall x, find c t d2 x = find c t (dv t) x) ->
    has create DeleteKeyType = false -> eo_Expire opt = 0 -> eo_Get opt = false ->
    (forall o, find c t (dv t) k = Some o -> 0 < o_TTL o -> d2 !! GetTTLKeyBytes o = None) ->
    wp (let! object := NewObject StringType k in
        let! t := get_txn in
        let object := set_o_Timestamp (t_Timestamp t)
          (set_o_TTL (eo_Expire opt) (set_o_Value (Some v) object)) in
        do! (if negb (eo_KeepTTL opt) && (eo_Expire opt >? 0)
             then Put (GetTTLKeyBytes object) [x01] else ret None)
        else reply_err in
        do! setTxnObject (ObjectKeyBytes object) object create else reply_err in
        if eo_Get opt then ret RNil else ret OK) t2
      (fun r t' => r = OK /\ ready c t' /\ same_env t t' /\
        (forall x, find c t (dv t') x = upd k (string_object c t k v 0) (find c t (dv t)) x) /\
        (forall o, find c t (dv t) k = Some o -> 0 < o_TTL o -> dv t' !! GetTTLKeyBytes o = None))) as Hput.
  { intros t2 d2 opt create Hw2 Hf2 Hcr He Hget Hold. apply wp_bind, (wp_NewObject c); [apply Hw2|].
    apply wp_bind, wp_get_txn. destruct (dw_env _ _ _ _ Hw2) as []. rewrite He, Hget. 
    rewrite andb_false_r. apply wp_on_done, wp_ret.
    rewrite se_Timestamp, se_UserId, se_DBId. fold (the_object c t StringType k). fold (string_object c t k v 0).
    apply wp_on_done, (wp_put_object c k _ _ t t2 d2); try done.
    - unfold key_ok in Hk. lia.
    - by apply string_object_wf.
    - rewrite len_string_object. lia.
    - intros t3 Hw3 Hf3. split; [done|]. split; [apply Hw3|]. split; [apply Hw3|]. split; [done|].
      intros o Ho Hp. rewrite (dw_view _ _ _ _ Hw3), lookup_insert_ne by (apply not_eq_sym, header_key_ttl).
      by apply Hold. }
  destruct (find c t (dv t) k) as [o|] eqn:Ef.
  - destruct (beq StringType (o_Type o)).
    + change (eo_Check no_expire =? CheckNotExist) with false. cbv iota. apply wp_ret.
      cbn [eo_KeepTTL no_expire andb]. cbv zeta. cbn [eo_Expire with_KeepTTL eo_KeepTTL no_expire].
      destruct (find_key _ _ _ _ _ Ef) as (Ek&Eu&Edb&Eo&_).
      destruct (Z.gtb_spec (o_TTL o) 0) as [Hp|Hp].
      * destruct (Z.eqb_spec 0 (o_TTL o)); [lia|]. cbn [negb andb].
        apply wp_on_done, (wp_data_Del c); [apply Hw1| |].
        { unfold GetTTLKeyBytes. rewrite len_getTTLBytes, Eo by lia. unfold key_ok in Hk. lia. }
        intros t2 Hw2. pose proof (dwrote_then c t t1 t2 (dv t) (delete _) Hw1 Hw2) as Hw.
        apply wp_ret. apply (Hput t2 (delete (GetTTLKeyBytes o) (dv t))); try done.
        -- intros x. apply find_delete_ne, header_key_ttl.
        -- intros o' [= <-] _. apply lookup_delete_eq.
      * cbn [andb]. apply wp_ret. apply (Hput t1 (dv t)); try done. intros o' [= <-]. lia.
    + apply wp_ret. apply wp_ret. by apply (wp_reply_err c t t1 (dv t)).
  - change (eo_Check no_expire =? CheckExist) with false. cbv iota. apply wp_ret, wp_ret.
    by apply (Hput t1 (dv t)).
Qed.

(** GET returns the bytes of a live string, nil for a missing or expired key and
    WRONGTYPE for any other type, and writes nothing. *)
Lemma GetHandle_refines c k t :
  ready c t -> key_ok k -> good_header c t k ->
  wp (GetHandle [k]) t (fun r t' =>
    match find c t (dv t) k with
    | Some o => if beq StringType (o_Type o) then r = bulk_or_nil (o_Value o) /\ dwrote c t t' (dv t)
                else failed c t WrongTypeErr r t'
    | None => r = RNil /\ dwrote c t t' (dv t)
    end).
Proof.
  intros Hr Hk Hg. unfold GetHandle. change (negb (len [k] =? 1)) with false. cbv iota. cbn [arg nth].
  apply wp_on_value. unfold getString. apply wp_bind.
  apply (wp_lookup_typed c); [done|unfold key_ok in Hk; lia|done|done|].
  intros t1 d1 Hw1 Hf1 Ed1 _. specialize (Ed1 eq_refl) as ->.
  destruct (find c t (dv t) k) as [o|]; [|done].
  destruct (beq StringType (o_Type o)); [done|]. by apply (wp_reply_err c t t1 (dv t)).
Qed.

(** ** The INCR family *)

(** The string with a new value, as the INCR family and APPEND write it. *)
Definition with_value (ts : Z) (v : bytes) (o : Object) : Object :=
  set_o_Timestamp ts (set_o_Value (Some v) o).

Lemma with_value_wf ts v o :
  wf_object o -> IsSimple o = true -> in_u64 ts -> wf_object (with_value ts v o).
Proof.
  intros (Hn&Ht&_&Hh&Hv) Hs Hts. split; [done|]. split; [done|]. split; [done|]. split; [done|].
  rewrite Hs in Hv. change (IsSimple (with_value ts v o)) with (IsSimple o). rewrite Hs.
  split; [by eexists|apply Hv].
Qed.

Lemma len_with_value ts v o :
  wf_object o -> IsSimple o = true -> len (ObjectEncode (with_value ts v o)) = 19 + len v.
Proof.
  intros (_&_&_&_&Hv) Hs. rewrite Hs in Hv. rewrite ObjectEncode_length. destruct Hv as [_ Hx].
  change (o_Extra (with_value ts v o)) with (o_Extra o). rewrite Hx. cbn. unfold id, len. simpl. lia.
Qed.

Lemma string_simple o : beq StringType (o_Type o) = true -> IsSimple o = true.
Proof. unfold beq, IsSimple. rewrite bool_decide_eq_true. by intros <-. Qed.

(** The object INCR and APPEND start from: the string, or a fresh one. *)
Definition string_or_new (c : Config) (t : Txn) (k : bytes) : Object :=
  match find c t (dv t) k with Some o => o | None => the_object c t StringType k end.

Definition old_string (c : Config) (t : Txn) (k : bytes) : option bytes :=
  match find c t (dv t) k with Some o => o_Value o | None => None end.

(** A transaction in which the value of the string [k] became [v]. *)
Definition value_set (c : Config) (t : Txn) (k v : bytes) (t' : Txn) : Prop :=
  ready c t' /\ same_env t t' /\
  forall x, find c t (dv t') x =
    upd k (with_value (t_Timestamp t) v (string_or_new c t k)) (find c t (dv t)) x.

(** Writing a new value into the string, or into a fresh object. *)
Lemma wp_put_string c k v ts create t t1 d (Q : option error -> Txn -> Prop) :
  ready c t -> key_ok k -> len v < MAX_VALUE_SIZE - 19 -> settable (find c t (dv t)) k = true ->
  in_u64 ts -> dwrote c t t1 d -> (forall k', find c t d k' = find c t (dv t) k') ->
  has create DeleteKeyType = false ->
  (forall t', ready c t' -> same_env t t' ->
     (forall x, find c t (dv t') x = upd k (with_value ts v (string_or_new c t k)) (find c t (dv t)) x) ->
     (forall x, x <> hkey t k -> dv t' !! x = d !! x) -> Q None t') ->
  wp (setTxnObject (ObjectKeyBytes (string_or_new c t k)) (with_value ts v (string_or_new c t k)) create) t1 Q.
Proof.
  intros Hr Hk Hv Hs Hts Hw Hf Hc HQ. unfold settable in Hs.
  assert (wf_object (with_value ts v (string_or_new c t k)) /\
    o_UserId (string_or_new c t k) = t_UserId t /\ o_Db (string_or_new c t k) = t_DBId t /\
    o_Key (string_or_new c t k) = k /\ expired (t_Now t) (string_or_new c t k) = false /\
    len (ObjectEncode (with_value ts v (string_or_new c t k))) = 19 + len v)
    as (Hwf&Eu&Ed&Ek&Hx&Hl).
  { unfold string_or_new. destruct (find c t (dv t) k) as [o|] eqn:Ef.
    - destruct (find_key _ _ _ _ _ Ef) as (_&?&?&?&_&?). destruct (find_wf _ _ _ _ Hr Ef) as [Hwf _].
      apply string_simple in Hs. split; [|repeat split; try done; by apply len_with_value].
      by apply with_value_wf.
    - split; [|repeat split; try done; by apply (len_string_object c t k v 0)].
      change (wf_object (with_value ts v (string_object c t k v 0))).
      apply with_value_wf; [by apply (string_object_wf c t k v 0)|done..]. }
  change (ObjectKeyBytes (string_or_new c t k)) with (ObjectKeyBytes (with_value ts v (string_or_new c t k))).
  apply (wp_put_object c k _ _ t t1 d); try done; [unfold key_ok in Hk; lia|lia|].
  intros t' Hw' Hf'. apply HQ; [apply Hw'|apply Hw'|done|].
  intros x Hne. rewrite (dw_view _ _ _ _ Hw'). by apply lookup_insert_ne.
Qed.

(** With the time of the transaction. *)
Lemma wp_put_value c k v create t t1 d (Q : option error -> Txn -> Prop) :
  ready c t -> key_ok k -> len v < MAX_VALUE_SIZE - 19 -> settable (find c t (dv t)) k = true ->
  dwrote c t t1 d -> (forall k', find c t d k' = find c t (dv t) k') ->
  has create DeleteKeyType = false ->
  (forall t', value_set c t k v t' -> (forall x, x <> hkey t k -> dv t' !! x = d !! x) -> Q None t') ->
  wp (setTxnObject (ObjectKeyBytes (string_or_new c t k))
        (with_value (t_Timestamp t) v (string_or_new c t k)) create) t1 Q.
Proof.
  intros Hr Hk Hv Hs Hw Hf Hc HQ. apply (wp_put_string c k v _ create t t1 d); try done; [apply Hr|].
  intros t' Hr' He Hf' Hx. by apply HQ.
Qed.

(** What INCRBY by [n] does to a value: the reply and the new value, or an error. *)
Definition incr_spec (old : option bytes) (n : Z) : error + (reply * option bytes) :=
  match old with
  | None => inr (RInt n, Some (FormatInt n))
  | Some v =>
      match ParseInt v with
      | None => inl (ErrNotInteger : error)
      | Some m =>
          if n =? 0 then inr (RGoInt m, None)
          else if (MinInt64 <=? m + n) && (m + n <=? MaxInt64)
          then inr (RInt (m + n), Some (FormatInt (m + n)))
          else inl (ErrOverflow : error)
      end
  end.

Lemma len_FormatInt n : in_i64 n -> len (FormatInt n) <= 21.
Proof.
  intros _. unfold FormatInt, FormatUint.
  assert (forall fuel m acc, len (format_digits fuel m acc) <= Z.of_nat fuel + len acc) as Hf.
  { clear. induction fuel as [|f IH]; intros m acc; cbn [format_digits]; [lia|].
    destruct (m <? 10); [rewrite len_cons; lia|]. etrans; [apply IH|]. rewrite len_cons. lia. }
  destruct (n <? 0).
  - rewrite len_cons. specialize (Hf 20%nat (- n) []). change (len (@nil Init.Byte.byte)) with 0 in Hf. lia.
  - specialize (Hf 20%nat n []). change (len (@nil Init.Byte.byte)) with 0 in Hf. lia.
Qed.

Lemma intFunc_spec o n : in_i64 n ->
  intFunc o n =
  match incr_spec (o_Value o) n with
  | inl e => inl e
  | inr (r, Some v) => inr (r, true, set_o_Value (Some v) o)
  | inr (r, None) => inr (r, false, o)
  end.
Proof.
  intros Hn. unfold intFunc, incr_spec. destruct (o_Value o) as [v|]; [|done].
  destruct (ParseInt v) as [m|] eqn:Em; [|done]. apply ParseInt_range in Em.
  destruct (n =? 0); [done|]. pose proof (Int.ValidIncrementInt_iff m n Em Hn) as Hv.
  unfold in_i64 in Hv. destruct (Int.ValidIncrementInt m n).
  - destruct Hv as [Hv _]. specialize (Hv eq_refl). cbn [negb].
    destruct (Z.leb_spec MinInt64 (m + n)), (Z.leb_spec (m + n) MaxInt64); try lia. cbn [andb].
    by rewrite i64_small.
  - cbn [negb]. destruct (Z.leb_spec MinInt64 (m + n)), (Z.leb_spec (m + n) MaxInt64); try done.
    destruct Hv as [_ Hv]. by discriminate Hv.
Qed.

(** INCRBY (and DECRBY, INCR, DECR through the same body) on every branch: a
    missing key counts from zero, a value that is not a 64-bit integer and a sum that
    overflows are refused and nothing changes, an increment of zero writes nothing,
    and otherwise the key holds the decimal sum with its expiry untouched, which is
    also the reply. *)
Lemma stringHandle_incr c k n args t f :
  ready c t -> key_ok k -> good_header c t k -> in_i64 n -> arg 0 args = k ->
  (forall o, f o args = intFunc o n) ->
  wp (stringHandle args f) t (fun r t' =>
    if settable (find c t (dv t)) k then
      match incr_spec (old_string c t k) n with
      | inl e => failed c t e r t'
      | inr (r', Some v) => r = r' /\ value_set c t k v t'
      | inr (r', None) => r = r' /\ ready c t' /\ forall x, find c t (dv t') x = find c t (dv t) x
      end
    else failed c t WrongTypeErr r t').
Proof.
  intros Hr Hk Hg Hn Ea Hfun. unfold stringHandle. rewrite Ea. apply wp_bind.
  apply (wp_lookup_typed c); [done|unfold key_ok in Hk; lia|done|done|].
  intros t1 d1 Hw1 Hf1 _ _.
  assert (forall create, has create DeleteKeyType = false -> settable (find c t (dv t)) k = true ->
    wp (match f (string_or_new c t k) args with
        | inl e => reply_err e
        | inr (value, changed, object) =>
            if negb changed || false then ret value
            else
              let! err := setTxnObject (ObjectKeyBytes object) (set_o_Timestamp (t_Timestamp t1) object) create in
              match err with
              | None => ret value
              | Some e => if IsSkipConflict t1 && is_locked e then ret value else reply_err e
              end
        end) t1 (fun r t' =>
      match incr_spec (old_string c t k) n with
      | inl e => failed c t e r t'
      | inr (r', Some v) => r = r' /\ value_set c t k v t'
      | inr (r', None) => r = r' /\ ready c t' /\ forall x, find c t (dv t') x = find c t (dv t) x
      end)) as Hrun.
  { intros create Hc Hs. rewrite Hfun, intFunc_spec by done.
    assert (o_Value (string_or_new c t k) = old_string c t k) as ->.
    { unfold string_or_new, old_string. by destruct (find c t (dv t) k). }
    destruct (incr_spec (old_string c t k) n) as [e|[r [v|]]] eqn:Ei.
    - by apply (wp_reply_err c t t1 d1).
    - cbn [negb orb]. rewrite (se_Timestamp _ _ (dw_env _ _ _ _ Hw1)). apply wp_bind.
      apply (wp_put_value c k v create t t1 d1); try done.
      assert (len v <= 21) as Hl.
      { unfold incr_spec in Ei. destruct (old_string c t k) as [w|]; [|simplify_eq; by apply len_FormatInt].
        destruct (ParseInt w) as [m|]; [|done]. destruct (n =? 0); [done|].
        destruct ((MinInt64 <=? m + n) && (m + n <=? MaxInt64)) eqn:Eb; [|done]. simplify_eq.
        apply len_FormatInt. unfold in_i64. lia. }
      unfold MAX_VALUE_SIZE. lia.
    - cbn [negb orb]. split; [done|]. split; [apply Hw1|]. intros x. by rewrite (dw_view _ _ _ _ Hw1). }
  unfold settable, string_or_new in *. destruct (find c t (dv t) k) as [o|].
  - destruct (beq StringType (o_Type o)); apply wp_bind, wp_get_txn.
    + by apply Hrun.
    + cbn [is_locked]. rewrite andb_false_r. by apply (wp_reply_err c t t1 d1).
  - apply wp_bind, wp_get_txn. by apply Hrun.
Qed.

(** ** SETRANGE *)

(** [old] with [a] written at [o], padded with zeros when it is too short. *)
Definition overlay (old : bytes) (o : nat) (a : bytes) : bytes :=
  take o (old ++ replicate (o - length old) x00) ++ a ++ drop (o + length a) old.

Lemma splice_fresh old a o n :
  n = (o + length a)%nat -> (length old < n)%nat ->
  splice (splice (replicate n x00) 0 (if bool_decide (length old < o)%nat then old else take o old)) o a
  = overlay old o a.
Proof.
  intros -> Hl. unfold splice, overlay. cbn [Nat.add].
  set (h := if bool_decide _ then _ else _). set (z := drop (length h) (replicate (o + length a) x00)).
  assert (length (h ++ z) = (o + length a)%nat) as Hlen.
  { unfold z, h. rewrite length_app, length_drop, length_replicate.
    case_bool_decide; rewrite ?length_take; lia. }
  rewrite (drop_ge (h ++ z)), (drop_ge old) by lia. f_equal.
  clear Hlen. subst z h. rewrite drop_replicate, take_0. cbn [app]. case_bool_decide as Hc.
  - rewrite take_app_ge by lia. rewrite (take_ge (old ++ _)) by (rewrite length_app, length_replicate; lia).
    f_equal. rewrite take_replicate. f_equal. lia.
  - rewrite take_app_le by (rewrite length_take; lia). rewrite take_take.
    rewrite (take_app_le old) by lia. f_equal. lia.
Qed.

Lemma splice_inside old a o :
  (o + length a <= length old)%nat -> splice old o a = overlay old o a.
Proof. intros Hl. unfold splice, overlay. by rewrite take_app_le by lia. Qed.

Lemma len_overlay old o a :
  (0 < o + length a)%nat -> len (overlay old o a) = Z.max (len old) (Z.of_nat o + len a).
Proof.
  intros _. unfold overlay, len. autorewrite with golen.
  rewrite length_take, length_drop, length_app, length_replicate. lia.
Qed.

Lemma make_bytes_ok n : 0 <= n < MAX_VALUE_SIZE -> make_bytes n = Some (replicate (Z.to_nat n) x00).
Proof.
  unfold make_bytes, makeslice_ok, maxAlloc, MAX_VALUE_SIZE. intros Hn.
  destruct (Z.leb_spec 0 n); [|lia]. by destruct (Z.leb_spec (n * 1) (2 ^ 48)); [|lia].
Qed.

(** SETRANGE at a non-negative offset: the string (or the empty string of a
    missing key) is overlaid with the argument, padded with zeros up to the offset,
    and its new length is the reply; an empty argument at offset zero writes nothing. *)
Lemma SetRangeHandle_overlay c k off a o t :
  ready c t -> key_ok k -> good_header c t k -> ParseInt off = Some o -> 0 <= o ->
  o + len a < MAX_VALUE_SIZE - 19 ->
  len (sl (old_string c t k)) < MAX_VALUE_SIZE - 19 ->
  wp (SetRangeHandle [k; off; a]) t (fun r t' =>
    let old := sl (old_string c t k) in
    let new := overlay old (Z.to_nat o) a in
    if negb (settable (find c t (dv t)) k) then failed c t WrongTypeErr r t'
    else if o + len a =? 0 then
      r = RInt (len old) /\ ready c t' /\ forall x, find c t (dv t') x = find c t (dv t) x
    else r = RInt (Z.max (len old) (o + len a)) /\ value_set c t k new t').
Proof.
  intros Hr Hk Hg Ho Hpos Hsz Hold. unfold SetRangeHandle.
  change (negb (len [k; off; a] =? 3)) with false. cbv iota. cbn [arg nth].
  unfold Atoi. rewrite Ho. destruct (Z.ltb_spec o 0); [lia|]. cbv zeta.
  pose proof (len_nonneg a) as Ha.
  rewrite i64_small by (unfold in_i64, MinInt64, MaxInt64, MAX_VALUE_SIZE in *; lia).
  apply wp_bind, (wp_lookup_typed c); [done|unfold key_ok in Hk; lia|done|done|].
  intros t1 d1 Hw1 Hf1 _ _.
  assert (forall create v, has create DeleteKeyType = false -> settable (find c t (dv t)) k = true ->
    v = overlay (sl (old_string c t k)) (Z.to_nat o) a -> o + len a <> 0 ->
    wp (do! setTxnObject (ObjectKeyBytes (string_or_new c t k)) (with_value (t_Timestamp t1) v (string_or_new c t k)) create
        else reply_err in ret (RInt (len v))) t1 (fun r t' =>
      r = RInt (Z.max (len (sl (old_string c t k))) (o + len a)) /\
      value_set c t k (overlay (sl (old_string c t k)) (Z.to_nat o) a) t')) as Hfin.
  { intros create v Hc Hs -> Hn. rewrite (se_Timestamp _ _ (dw_env _ _ _ _ Hw1)).
    assert (len (overlay (sl (old_string c t k)) (Z.to_nat o) a) = Z.max (len (sl (old_string c t k))) (o + len a)) as Hlen.
    { rewrite len_overlay by (unfold len in *; lia). lia. }
    apply wp_on_done, (wp_put_value c k _ create t t1 d1); try done; [lia|].
    intros t' Hvs _. by rewrite Hlen. }
  unfold settable, string_or_new, old_string in *. destruct (find c t (dv t) k) as [ob|].
  - destruct (beq StringType (o_Type ob)) eqn:Et; cbn [negb]; apply wp_bind, wp_get_txn.
    2: by apply (wp_reply_err c t t1 d1).
    destruct (Z.eqb_spec (o + len a) 0).
    + split; [done|]. split; [apply Hw1|]. intros x. by rewrite (dw_view _ _ _ _ Hw1).
    + destruct (Z.gtb_spec (o + len a) (len (sl (o_Value ob)))).
      * rewrite make_bytes_ok by (unfold MAX_VALUE_SIZE in *; lia). apply Hfin; try done.
        rewrite <- (splice_fresh _ _ _ (Z.to_nat (o + len a))) by (unfold len in *; lia).
        f_equal. f_equal. unfold len in *. case_bool_decide; destruct (Z.gtb_spec o (Z.of_nat (length (sl (o_Value ob))))); try done; lia.
      * destruct (Z.gtb_spec o (len (sl (o_Value ob)))); [lia|]. apply Hfin; try done.
        apply splice_inside. unfold len in *. lia.
  - cbn [negb]. apply wp_bind, wp_get_txn. destruct (Z.eqb_spec (o + len a) 0).
    + split; [done|]. split; [apply Hw1|]. intros x. by rewrite (dw_view _ _ _ _ Hw1).
    + rewrite make_bytes_ok by (unfold MAX_VALUE_SIZE in *; lia). apply Hfin; try done.
      unfold splice, overlay. cbn [sl default]. unfold id. rewrite drop_nil, (drop_ge (replicate _ _)) by
        (rewrite length_replicate; unfold len in *; lia).
      cbn [app length]. rewrite !take_replicate. do 2 f_equal. unfold len in *. lia.
Qed.

(** ** MSET, SETNX *)

(** The body of MSET, MSETNX and SETNX (no expiry): a condition that does not hold
    is reported and nothing changes; otherwise the key gets the new value. An old
    string's expiry is not cleared, although its entry of the expiry index is deleted:
    the key still expires, and nothing will collect it. *)
Lemma setString_value c k v check t :
  ready c t -> key_ok k -> good_header c t k -> len v < MAX_VALUE_SIZE - 19 ->
  wp (setString k v 0 check) t (fun r t' =>
    if negb (settable (find c t (dv t)) k) then
      r = Some (WrongTypeErr : error) /\ forall x, find c t (dv t') x = find c t (dv t) x
    else if (match find c t (dv t) k with
             | Some _ => check =? CheckNotExist
             | None => check =? CheckExist
             end)
    then r = Some (ErrCheckFailed : error) /\ forall x, find c t (dv t') x = find c t (dv t) x
    else r = None /\ value_set c t k v t' /\
      (forall o, find c t (dv t) k = Some o -> 0 < o_TTL o ->
         o_TTL (with_value (t_Timestamp t) v (string_or_new c t k)) = o_TTL o /\
         dv t' !! GetTTLKeyBytes o = None)).
Proof.
  intros Hr Hk Hg Hv. unfold setString. apply wp_bind.
  apply (wp_lookup_typed c); [done|unfold key_ok in Hk; lia|done|done|].
  intros t1 d1 Hw1 Hf1 _ _.
  assert (forall create t2 d2, dwrote c t t2 d2 -> (forall x, find c t d2 x = find c t (dv t) x) ->
    has create DeleteKeyType = false -> settable (find c t (dv t)) k = true ->
    wp (setTxnObject (ObjectKeyBytes (string_or_new c t k))
      (with_value (t_Timestamp t) v (string_or_new c t k)) create) t2 (fun r t' => r = None /\ value_set c t k v t' /\
        (forall x, x <> hkey t k -> dv t' !! x = d2 !! x))) as Hput.
  { intros create t2 d2 Hw2 Hf2 Hc Hs. by apply (wp_put_value c k v create t t2 d2). }
  unfold settable, string_or_new in *. destruct (find c t (dv t) k) as [o|] eqn:Ef.
  - destruct (beq StringType (o_Type o)) eqn:Et; cbn [negb]; apply wp_bind, wp_get_txn.
    2: { split; [done|]. intros x. by rewrite (dw_view _ _ _ _ Hw1). }
    destruct (check =? CheckNotExist). { split; [done|]. intros x. by rewrite (dw_view _ _ _ _ Hw1). }
    destruct (find_key _ _ _ _ _ Ef) as (Ek&Eu&Edb&Eo&_).
    change (0 =? 0) with true. cbn [orb]. apply wp_bind, wp_ret. cbv zeta.
    change (0 >? 0) with false. cbn [andb]. rewrite andb_true_r. apply wp_on_done.
    rewrite (se_Timestamp _ _ (dw_env _ _ _ _ Hw1)).
    destruct (Z.gtb_spec (o_TTL o) 0) as [Hp|Hp].
    + apply (wp_data_Del c); [apply Hw1| |].
      { unfold GetTTLKeyBytes. rewrite len_getTTLBytes, Eo by lia. unfold key_ok in Hk. lia. }
      intros t2 Hw2. pose proof (dwrote_then c t t1 t2 d1 (delete _) Hw1 Hw2) as Hw.
      apply wp_on_done, wp_ret. eapply wp_mono; [apply (Hput 0 t2 (delete (GetTTLKeyBytes o) d1)); try done|].
      * intros x. rewrite find_delete_ne by apply header_key_ttl. apply Hf1.
      * intros r t' (->&Hvs&Hx). split; [done|]. split; [done|]. intros o' [= <-] _. split; [done|].
        rewrite Hx by apply header_key_ttl. apply lookup_delete_eq.
    + apply wp_ret, wp_on_done, wp_ret. eapply wp_mono; [by apply (Hput 0 t1 d1)|].
      intros r t' (->&Hvs&_). split; [done|]. split; [done|]. intros o' [= <-]. lia.
  - cbn [negb]. apply wp_bind, wp_get_txn. destruct (check =? CheckExist).
    { split; [done|]. intros x. by rewrite (dw_view _ _ _ _ Hw1). }
    change (0 =? 0) with true. cbn [orb]. apply wp_bind, wp_ret. cbv zeta.
    change (0 >? 0) with false. cbn [andb]. rewrite andb_true_r. apply wp_on_done.
    rewrite (se_Timestamp _ _ (dw_env _ _ _ _ Hw1)). change (o_TTL (the_object c t StringType k) >? 0) with false.
    apply wp_ret, wp_on_done, wp_ret. eapply wp_mono; [by apply (Hput PlusCount t1 d1)|].
    intros r t' (->&Hvs&_). done.
Qed.

End spec.

(** ** GETRANGE *)

(** A negative index counts from the end. *)
Definition from_end (l i : Z) : Z := if i <? 0 then l + i else i.

(** [getRange] returns the bytes between the two indices, both included and
    clamped to the value. The exception is a range that ends before the value starts:
    it gives the first byte, and on an empty value, which every range with a negative
    start does, the slice expression panics. *)
Lemma getRange_spec v s e :
  in_i64 s -> in_i64 e -> len v < MAX_VALUE_SIZE ->
  let s' := from_end (len v) s in
  let e' := from_end (len v) e in
  let last := Z.min e' (len v - 1) in
  (fun r => fst (fst r)) <$> getRange v s e =
  if (s' <=? last) && (last <? 0)
  then match v with [] => None | b :: _ => Some [b] end
  else Some (take (Z.to_nat (e' + 1 - Z.max 0 s')) (drop (Z.to_nat (Z.max 0 s')) v)).
Proof.
  intros Hs He Hv s' e' last. pose proof (len_nonneg v) as H0.
  assert (forall i, in_i64 i -> (if i <? 0 then i64 (len v + i) else i) = from_end (len v) i) as Hn.
  { intros i Hi. unfold from_end. destruct (Z.ltb_spec i 0); [|done]. apply i64_small.
    unfold in_i64, MinInt64, MaxInt64, MAX_VALUE_SIZE in *. lia. }
  unfold getRange. rewrite !Hn by done. fold s' e'. cbv zeta.
  replace (if e' >? len v - 1 then len v - 1 else e') with last
    by (unfold last; destruct (Z.gtb_spec e' (len v - 1)); lia).
  assert (Hl : last <= e' /\ last <= len v - 1 /\ (last = e' \/ last = len v - 1)) by (unfold last; lia).
  clearbody last. destruct (Z.gtb_spec s' (len v)).
  { destruct (Z.leb_spec s' last); [lia|]. cbn [andb fmap option_fmap option_map fst].
    by rewrite drop_ge, take_nil by (unfold len in *; lia). }
  destruct (Z.ltb_spec last s').
  { destruct (Z.leb_spec s' last); [lia|]. cbn [andb fmap option_fmap option_map fst].
    destruct Hl as (?&?&[->| ->]).
    - by replace (Z.to_nat (e' + 1 - Z.max 0 s')) with 0%nat by lia.
    - by rewrite drop_ge, take_nil by (unfold len in *; lia). }
  destruct (Z.leb_spec s' last); [|lia]. cbn [andb]. unfold go_slice.
  destruct (Z.ltb_spec last 0) as [Hneg|Hneg].
  - destruct (Z.ltb_spec s' 0); [|lia]. destruct v as [|b v]; [done|].
    rewrite len_cons in *. pose proof (len_nonneg v).
    destruct (Z.leb_spec (0 + 1) (1 + len v)); [done|lia].
  - replace (if s' <? 0 then 0 else s') with (Z.max 0 s') by (destruct (Z.ltb_spec s' 0); lia).
    destruct (Z.leb_spec 0 (Z.max 0 s')); [|lia]. destruct (Z.leb_spec (Z.max 0 s') (last + 1)); [|lia].
    destruct (Z.leb_spec (last + 1) (len v)); [|lia]. cbn [andb fmap option_fmap option_map fst].
    unfold slice. f_equal. destruct Hl as (?&?&[->| ->]).
    + f_equal. lia.
    + rewrite !take_ge by (rewrite length_drop; unfold len in *; lia). done.
Qed.

Lemma getRange_spec_witness :
  (fun r => fst (fst r)) <$> getRange (bs "value") (-3) (-2) = Some (bs "lu") /\
  (fun r => fst (fst r)) <$> getRange [] (-1) 0 = None.
Proof.
  split.
  - rewrite (getRange_spec (bs "value") (-3) (-2)); [reflexivity|vm_compute; split; congruence..|reflexivity].
  - rewrite (getRange_spec [] (-1) 0); [reflexivity|vm_compute; split; congruence..|reflexivity].
Defined.
