(* ===== verification/BitCmd.v ===== *)
(** The bit commands on strings (command/bit.go). *)

From S2P Require Import Prelude Xerror GoStd Utils Store Object Reply Generic Strings.
From Stdlib Require Import Init.Byte.

#[local] Open Scope Z_scope.

(** ** Bits of a byte *)

(** [bits.OnesCount8] *)
Definition OnesCount8 (b : Init.Byte.byte) : Z :=
  len (filter (fun i => Z.testbit (b2z b) i = true) (seqZ 0 8)).

Fixpoint OneCount (v : bytes) : Z := match v with [] => 0 | b :: v => OnesCount8 b + OneCount v end.

(** The loop over the bits of a byte, from the highest, with the loop's test. *)
Fixpoint find_bit (bit : Z) (vv : Init.Byte.byte) (n : nat) (i : Z) : option Z :=
  match n with
  | O => None
  | S n =>
      let isZero := Z.land (b2z vv) (Z.shiftl 1 (7 - i)) =? 0 in
      if ((bit =? 0) && isZero) || ((bit =? 1) && negb isZero) then Some i else find_bit bit vv n (i + 1)
  end.

(** The loop over the bytes: the index of the byte and of the bit in it. *)
Fixpoint bitpos_loop (bit skipValue : Z) (v : bytes) (ik : Z) : option (Z * Z) :=
  match v with
  | [] => None
  | iv :: v =>
      if b2z iv =? skipValue then bitpos_loop bit skipValue v (ik + 1)
      else match find_bit bit iv 8 0 with
           | Some i => Some (ik, i)
           | None => bitpos_loop bit skipValue v (ik + 1)
           end
  end.

Definition AND (a b : Init.Byte.byte) : Init.Byte.byte := z2b (Z.land (b2z a) (b2z b)).
Definition OR (a b : Init.Byte.byte) : Init.Byte.byte := z2b (Z.lor (b2z a) (b2z b)).
Definition XOR (a b : Init.Byte.byte) : Init.Byte.byte := z2b (Z.lxor (b2z a) (b2z b)).
Definition NOT (a b : Init.Byte.byte) : Init.Byte.byte := z2b (Z.lnot (b2z a)).

(** [mapBitOp] *)
Definition mapBitOp (str : bytes) : option (Init.Byte.byte -> Init.Byte.byte -> Init.Byte.byte) :=
  if bool_decide (str = bs "and") then Some AND
  else if bool_decide (str = bs "or") then Some OR
  else if bool_decide (str = bs "xor") then Some XOR
  else if bool_decide (str = bs "not") then Some NOT
  else None.

(** Both slices are copied into slices of the longer length. *)
Definition sliceBinOp (f : Init.Byte.byte -> Init.Byte.byte -> Init.Byte.byte) (a b : bytes) : bytes :=
  let maxl := Nat.max (length a) (length b) in
  zip_with f (resize maxl x00 a) (resize maxl x00 b).

(** ** Handlers *)

Section bit.
Context `{Platform}.

(** The test of the number of arguments never holds, so none at all panics. *)
Definition BitCountHandle : TxnHandle := fun args =>
  if len args =? 2 then reply_err ErrSyntax
  else if len args =? 0 then panic
  else
    val! (v, _, _) := checkAndGetRange (arg 0 args) (drop 1 args) else reply_err in
    if len (sl v) =? 0 then ret (RInt 0) else ret (RInt (OneCount (sl v))).

Definition BitPosHandle : TxnHandle := fun args =>
  if (len args <? 2) || (len args >? 4) then wrong_args "bitpos"
  else
    match Int.GetNonnegativeInt64 (arg 1 args) with
    | (_, Some _) => reply_err ErrNotInteger
    | (bit, None) =>
        if negb (bit =? 0) && negb (bit =? 1) then reply_err ErrNotInteger
        else
          let skipValue := if bit =? 0 then 255 else 0 in
          val! (v, start, end_) := checkAndGetRange (arg 0 args) (drop 2 args) else reply_err in
          match v with
          | None => ret (RInt (if bit =? 1 then -1 else 0))
          | Some v =>
              match bitpos_loop bit skipValue v 0 with
              | Some (ik, i) => ret (RInt (i64 ((start + ik) * 8 + i)))
              | None =>
                  if (bit =? 0) && (len args <? 4) then ret (RInt (i64 (i64 (end_ + 1) * 8)))
                  else ret (RInt (-1))
              end
          end
    end.

Definition GetBitHandle : TxnHandle := fun args =>
  if negb (len args =? 2) then wrong_args "getbit"
  else
    match Int.GetNonnegativeInt64 (arg 1 args) with
    | (_, Some _) => reply_err ErrNotInteger
    | (offset, None) =>
        let o := Z.shiftr offset 3 in
        val! (v, _, _) := getRangeOf (arg 0 args) o o else reply_err in
        match sl v with
        | [] => ret (RInt 0)
        | v0 :: _ =>
            let bit := 7 - Z.land offset 7 in
            ret (RInt (Z.land (Z.shiftr (b2z v0) bit) 1))
        end
    end.

(** The sources of BITOP from the one with index [i] on. A missing one is passed over, and
    only the one right behind the destination starts the result. *)
Fixpoint bitop_loop (f : Init.Byte.byte -> Init.Byte.byte -> Init.Byte.byte) (i : Z) (keys : list bytes)
    (acc : bytes) : M (error + bytes) :=
  match keys with
  | [] => ret (inr acc)
  | k :: keys =>
      let! (object, err) := lookup StringType k false in
      match err with
      | Some KeyNotFound => bitop_loop f (i + 1) keys acc
      | Some e => ret (inl e)
      | None =>
          bitop_loop f (i + 1) keys
            (if i =? 2 then sl (o_Value object) else sliceBinOp f acc (sl (o_Value object)))
      end
  end.

Definition BitOpHandle : TxnHandle := fun args =>
  if len args <? 3 then wrong_args "bitop"
  else
    let str := ToLower (arg 0 args) in
    match mapBitOp str with
    | None => reply_err ErrSyntax
    | Some f =>
        let! (destObject, err) := lookup StringType (arg 1 args) true in
        let finish (value : bytes) (create : Z) : M reply :=
          do! setTxnObject (ObjectKeyBytes destObject) (set_o_Value (Some value) destObject) create
          else reply_err in
          ret (RInt (len value)) in
        let run (create : Z) : M reply :=
          if bool_decide (str = bs "not") then
            let! (object, err) := lookup StringType (arg 2 args) false in
            match err with
            | Some KeyNotFound => ret (RInt 0)
            | Some e => reply_err e
            | None => finish ((fun b => z2b (Z.lnot (b2z b))) <$> sl (o_Value object)) create
            end
          else
            val! value := bitop_loop f 2 (drop 2 args) [] else reply_err in
            if len value =? 0 then ret (RInt 0) else finish value create in
        match err with
        | Some KeyNotFound => run PlusCount
        | Some e => reply_err e
        | None => run 0
        end
    end.

Definition SetBitHandle : TxnHandle := fun args =>
  if negb (len args =? 3) then wrong_args "setbit"
  else
    match Int.GetNonnegativeInt64 (arg 1 args) with
    | (_, Some _) => reply_err ErrNotInteger
    | (offset, None) =>
        if offset >=? MAX_VALUE_SIZE then reply_err ErrNotInteger
        else
          match Int.GetNonnegativeInt64 (arg 2 args) with
          | (_, Some _) => reply_err ErrNotInteger
          | (bitChange, None) =>
              if negb (bitChange =? 0) && negb (bitChange =? 1) then reply_err ErrNotInteger
              else
                let o := Z.shiftr offset 3 in
                let bit := 7 - Z.land offset 7 in
                let! (object, err) := lookup StringType (arg 0 args) true in
                let write (value : bytes) (v : Z) (origin create : Z) : M reply :=
                  let byte := Z.lor (Z.ldiff v (Z.shiftl 1 bit)) (Z.shiftl bitChange bit) in
                  let object := set_o_Value (Some (<[Z.to_nat o := z2b byte]> value)) object in
                  do! setTxnObject (ObjectKeyBytes object) object create else reply_err in
                  ret (RInt origin) in
                match err with
                | Some KeyNotFound => write (replicate (Z.to_nat (o + 1)) x00) 0 0 PlusCount
                | Some e => reply_err e
                | None =>
                    let value := sl (o_Value object) in
                    if o >=? len value then
                      write (value ++ replicate (Z.to_nat (o - len value + 1)) x00) 0 0 0
                    else
                      let v := b2z (nth (Z.to_nat o) value x00) in
                      let origin := Z.land (Z.shiftr v bit) 1 in
                      if origin =? bitChange then ret (RInt origin) else write value v origin 0
                end
          end
    end.

End bit.

(** ** BITFIELD, of which only the parser is written *)

Record BitInt := mkBitInt { Signed : bool; Length : Z }.

Definition getBitInt (a : bytes) : error + BitInt :=
  if len a <=? 1 then inl (ErrSyntax : error)
  else
    match Int.GetPositiveInt (drop 1 a) with
    | (_, Some _) => inl (ErrBitFieldType : error)
    | (n, None) =>
        if bool_decide (take 1 a = bs "i") then
          if n >? 64 then inl (ErrBitFieldType : error) else inr (mkBitInt true n)
        else if bool_decide (take 1 a = bs "u") then
          if n >=? 64 then inl (ErrBitFieldType : error) else inr (mkBitInt false n)
        else inl (ErrBitFieldType : error)
    end.

Definition BitGetMethod : Init.Byte.byte := x67.
Definition BitSetMethod : Init.Byte.byte := x73.
Definition BitIncrbyMethod : Init.Byte.byte := x69.

Definition WRAP : bytes := bs "warp".
Definition SAT : bytes := bs "sat".
Definition FAIL : bytes := bs "fail".

Record BitField := mkBitField {
  bf_Method : option Init.Byte.byte; bf_Type : BitInt; bf_Offset : Z; bf_Value : Z; bf_Overflow : bytes
}.

Section bitfield.
Context `{Platform}.

(** One turn: the word [args[i]] makes a field, without its type and offset. *)
Definition bitfield_word (args : list bytes) (overflow : bytes) :
    error + (bytes * (BitInt -> Z -> BitField)) :=
  let str := ToLower (arg 0 args) in
  let field (m : option Init.Byte.byte) (v : Z) (ov : bytes) := fun t o => mkBitField m t o v ov in
  if bool_decide (str = bs "get") then
    if len args <? 3 then inl (ErrSyntax : error) else inr (overflow, field (Some BitGetMethod) 0 [])
  else if bool_decide (str = bs "set") then
    if len args <? 4 then inl (ErrSyntax : error)
    else match ParseInt (arg 3 args) with
         | None => inl (ErrNotInteger : error)
         | Some v => inr (overflow, field (Some BitSetMethod) v [])
         end
  else if bool_decide (str = bs "incrby") then
    if len args <? 4 then inl (ErrSyntax : error)
    else match ParseInt (arg 3 args) with
         | None => inl (ErrNotInteger : error)
         | Some v => inr (overflow, field (Some BitIncrbyMethod) v overflow)
         end
  else if bool_decide (str = bs "overflow") then
    if len args <? 2 then inl (ErrSyntax : error)
    else
      let str := ToLower (arg 1 args) in
      if bool_decide (str = WRAP) || bool_decide (str = SAT) || bool_decide (str = FAIL)
      then inr (str, field None 0 [])
      else inl (ErrSyntax : error)
  else inl (ErrSyntax : error).

(** The loop advances by one argument per turn. *)
Fixpoint bitfield_loop (args : list bytes) (overflow : bytes) (bfs : list BitField) : M (error + list BitField) :=
  match args with
  | [] => ret (inr bfs)
  | _ :: args' =>
      match bitfield_word args overflow with
      | inl e => ret (inl e)
      | inr (overflow, bf) =>
          match getBitInt (arg 1 args) with
          | inl e => ret (inl e)
          | inr t =>
              match args with
              | _ :: _ :: o :: _ =>
                  match Int.GetNonnegativeInt64 o with
                  | (_, Some _) => ret (inl (ErrNotInteger : error))
                  | (offset, None) => bitfield_loop args' overflow (bfs ++ [bf t offset])
                  end
              | _ => panic
              end
          end
      end
  end.

Definition BitFieldHandle : TxnHandle := fun args =>
  if len args <? 1 then wrong_args "bitfield"
  else
    val! bfs := bitfield_loop (drop 1 args) WRAP [] else reply_err in
    if len bfs =? 0 then ret (RArr []) else ret RNil.

End bitfield.
