(* ===== verification/HashCmd.v ===== *)
(** The hash commands (command/hash.go), but for HSCAN, which is in Scan.v. *)

From S2P Require Import Prelude Xerror GoStd Utils Float Strconv Store Ranges Mem Object Reply ObjectSpec.
From S2P Require Import Generic.
From Stdlib Require Import Init.Byte.

#[local] Open Scope Z_scope.

Definition OnlyKey : Z := 1.
Definition OnlyValue : Z := 2.
Definition BothKV : Z := Z.lor OnlyKey OnlyValue.

(** [hvalue.Value] after a [DecodeValue] whose error is ignored. *)
Definition decoded_value (value : bytes) : bytes :=
  match DecodeValue value with inr v => v_Value v | inl _ => [] end.

Section hash.
Context `{Platform}.

Definition hgetall (args : list bytes) (getType limit : Z) : M (error + list bytes) :=
  let! (object, err) := lookup HashType (arg 0 args) false in
  match err with
  | Some KeyNotFound => ret (inr [])
  | Some e => ret (inl e)
  | None =>
      let! c := get_config in
      let limit := if (limit <=? 0) || (limit >? ScanMaxCount c) then ScanMaxCount c else limit in
      let start := GetValueBytes object [] in
      let end_ := Bytes.PrefixNext start in
      let! (l, err) :=
        List start end_ limit
          (fun l key value =>
             if len key <? len start then ret (l, true)
             else
               let l := if has getType OnlyKey then l ++ [drop (length start) key] else l in
               let l := if has getType OnlyValue then l ++ [decoded_value value] else l in
               ret (l, true)) [] in
      match err with
      | None | Some ReachLimit => ret (inr l)
      | Some e => ret (inl e)
      end
  end.

Definition bulks (l : list bytes) : reply := RArr (RBulk <$> l).
Definition reply_bulks (m : M (error + list bytes)) : M reply :=
  val! l := m else reply_err in ret (bulks l).

Definition HGetAllHandle : TxnHandle := fun args =>
  if negb (len args =? 1) then wrong_args "hgetall" else reply_bulks (hgetall args BothKV 0).
Definition HKeysHandle : TxnHandle := fun args =>
  if negb (len args =? 1) then wrong_args "hkeys" else reply_bulks (hgetall args OnlyKey 0).
Definition HValsHandle : TxnHandle := fun args =>
  if negb (len args =? 1) then wrong_args "hvals" else reply_bulks (hgetall args OnlyValue 0).

(** The fields repeated at random to reach a negative count. *)
Fixpoint hrand_loop (n : nat) (both : bool) (cur : Z) (l : list bytes) : M (list bytes) :=
  match n with
  | O => ret l
  | S n =>
      let! c := rand_Int63n cur in
      let c := Z.to_nat c in
      hrand_loop n both cur
        (if both then l ++ [nth (2 * c) l []; nth (2 * c + 1) l []] else l ++ [nth c l []])
  end.

Definition HRandFieldHandle : TxnHandle := fun args =>
  if (len args <? 1) || (len args >? 3) then wrong_args "hrandfield"
  else
    let single := len args =? 1 in
    match (if len args >? 1 then Atoi (arg 1 args) else Some 0) with
    | None => reply_err ErrNotInteger
    | Some count =>
        if negb single && (count =? 0) then ret (RArr [])
        else
          let ucount := if count >? 0 then count else i64 (- count) in
          if (len args >? 2) && negb (lower_is (arg 2 args) "withvalues") then reply_err ErrSyntax
          else
            let getType := if len args >? 2 then BothKV else OnlyKey in
            val! l := hgetall args getType ucount else reply_err in
            if single then ret (match l with [] => RNil | x :: _ => RBulk x end)
            else if count <? 0 then
              let both := getType =? BothKV in
              let cur := if both then go_div (len l) 2 else len l in
              let! l := hrand_loop (Z.to_nat (ucount - cur)) both cur l in
              ret (bulks l)
            else ret (bulks l)
    end.

Definition HLenHandle : TxnHandle := fun args =>
  if negb (len args =? 1) then wrong_args "hlen" else reply_int (GetCountByKey (arg 0 args) HashType).

Fixpoint hmget_loop (object : Object) (fields : list bytes) (acc : list reply) : M reply :=
  match fields with
  | [] => ret (RArr acc)
  | f :: fields =>
      let! value := Get (GetValueBytes object f) in
      match value with
      | inl KeyNotFound => hmget_loop object fields (acc ++ [RNil])
      | inl e => reply_err e
      | inr value =>
          match DecodeValue value with
          | inl _ => hmget_loop object fields (acc ++ [RNil])
          | inr hvalue => hmget_loop object fields (acc ++ [RBulk (v_Value hvalue)])
          end
      end
  end.

Definition HMGetHandle : TxnHandle := fun args =>
  if len args <? 2 then wrong_args "hmget"
  else
    let! (object, err) := lookup HashType (arg 0 args) false in
    match err with
    | Some KeyNotFound => ret (RArr (replicate (length args - 1) RNil))
    | Some e => reply_err e
    | None => hmget_loop object (drop 1 args) []
    end.

Definition hget (args : list bytes) : M (error + option bytes) :=
  let! (object, err) := lookup HashType (arg 0 args) false in
  match err with
  | Some KeyNotFound => ret (inr None)
  | Some e => ret (inl e)
  | None =>
      let! value := Get (GetValueBytes object (arg 1 args)) in
      match value with
      | inl KeyNotFound => ret (inr None)
      | inl e => ret (inl e)
      | inr value =>
          match DecodeValue value with
          | inl _ => ret (inr None)
          | inr hvalue => ret (inr (Some (v_Value hvalue)))
          end
      end
  end.

Definition HExistsHandle : TxnHandle := fun args =>
  if negb (len args =? 2) then wrong_args "hexists"
  else val! value := hget args else reply_err in
       ret (RInt (match value with None => 0 | Some _ => 1 end)).
Definition HStrLenHandle : TxnHandle := fun args =>
  if negb (len args =? 2) then wrong_args "hstrlen"
  else val! value := hget args else reply_err in ret (RGoInt (len (sl value))).
Definition HGetHandle : TxnHandle := fun args =>
  if negb (len args =? 2) then wrong_args "hget"
  else val! value := hget args else reply_err in ret (bulk_or_nil value).

Fixpoint hdel_loop (object : Object) (fields : list bytes) (n : Z) : M (error + Z) :=
  match fields with
  | [] => ret (inr n)
  | f :: fields =>
      let hkey := GetValueBytes object f in
      let! value := Get hkey in
      match value with
      | inl KeyNotFound => hdel_loop object fields n
      | inl e => ret (inl e)
      | inr _ =>
          let! (_, err) := PutOrDeleteKV object hkey None (-1) in
          match err with
          | Some e => ret (inl e)
          | None => hdel_loop object fields (n + 1)
          end
      end
  end.

Definition HDelHandle : TxnHandle := fun args =>
  if len args <? 2 then wrong_args "hdel"
  else
    let! (object, err) := lookup HashType (arg 0 args) false in
    match err with
    | Some KeyNotFound => ret (RInt 0)
    | Some e => reply_err e
    | None => reply_int (hdel_loop object (drop 1 args) 0)
    end.

Definition HIncrByHandle : TxnHandle := fun args =>
  if negb (len args =? 3) then wrong_args "hincrby"
  else
    match ParseInt (arg 2 args) with
    | None => reply_err ErrNotInteger
    | Some increment =>
        let! (object, err) := GetOrCreateUUIDObject HashType (arg 0 args) in
        match err with
        | Some e => reply_err e
        | None =>
            let hkey := GetValueBytes object (arg 1 args) in
            let! value := Get hkey in
            let add (intValue delta : Z) : M reply :=
              if negb (Int.ValidIncrementInt intValue increment) then reply_err ErrOverflow
              else
                let intValue := i64 (intValue + increment) in
                let! t := get_txn in
                let hvalue := {| v_Timestamp := t_Timestamp t; v_Value := FormatInt intValue |} in
                let! (_, err) := PutOrDeleteKV object hkey (Some (EncodeValue hvalue)) delta in
                match err with
                | Some e => reply_err e
                | None => ret (RInt intValue)
                end in
            match value with
            | inl KeyNotFound => add 0 1
            | inl e => reply_err e
            | inr value =>
                match DecodeValue value with
                | inl _ => add 0 0
                | inr hvalue =>
                    match ParseInt (v_Value hvalue) with
                    | None => reply_err ErrNotInteger
                    | Some intValue =>
                        if increment =? 0 then ret (RInt intValue) else add intValue 0
                    end
                end
            end
        end
    end.

Definition HIncrByFloatHandle : TxnHandle := fun args =>
  if negb (len args =? 3) then wrong_args "hincrbyfloat"
  else
    match ParseFloat (arg 2 args) with
    | None => reply_err ErrInvalidFloat
    | Some increment =>
        let! (object, err) := GetOrCreateUUIDObject HashType (arg 0 args) in
        match err with
        | Some e => reply_err e
        | None =>
            let hkey := GetValueBytes object (arg 1 args) in
            let! value := Get hkey in
            let add (floatValue : float64) (delta : Z) : M reply :=
              if negb (ValidIncrementFloat floatValue increment) then reply_err ErrOverflow
              else
                let floatValue := fadd floatValue increment in
                let! t := get_txn in
                let hvalue := {| v_Timestamp := t_Timestamp t; v_Value := FormatFloat floatValue |} in
                let! (_, err) := PutOrDeleteKV object hkey (Some (EncodeValue hvalue)) delta in
                match err with
                | Some e => reply_err e
                | None => ret (RFloat floatValue)
                end in
            match value with
            | inl KeyNotFound => add fzero 1
            | inl e => reply_err e
            | inr value =>
                match DecodeValue value with
                | inl _ => add fzero 0
                | inr hvalue =>
                    match ParseFloat (v_Value hvalue) with
                    | None => reply_err ErrInvalidFloat
                    | Some floatValue =>
                        if feq increment fzero then ret (RFloat floatValue) else add floatValue 0
                    end
                end
            end
        end
    end.

(** The loop of [hset] over fields and values; [n] counts the new fields. *)
Fixpoint hset_loop (object : Object) (checkExist : bool) (kvs : list bytes) (n : Z) : M (error + Z) :=
  match kvs with
  | f :: v :: kvs =>
      let hkey := GetValueBytes object f in
      let! t := get_txn in
      let put (delta : Z) (n : Z) : M (error + Z) :=
        let hvalue := {| v_Timestamp := t_Timestamp t; v_Value := v |} in
        let! (_, err) := PutOrDeleteKV object hkey (Some (EncodeValue hvalue)) delta in
        match err with
        | Some e => ret (inl e)
        | None => hset_loop object checkExist kvs n
        end in
      let! value := Get hkey in
      match value with
      | inl KeyNotFound => put 1 (n + 1)
      | inl e => ret (inl e)
      | inr _ => if checkExist then hset_loop object checkExist kvs n else put 0 n
      end
  | _ => ret (inr n)
  end.

(** A field without a value cannot come up: every caller tests the number of
    arguments. *)
Definition hset (args : list bytes) (checkExist : bool) : M (error + Z) :=
  let! (object, err) := GetOrCreateUUIDObject HashType (arg 0 args) in
  match err with
  | Some e => ret (inl e)
  | None => hset_loop object checkExist (drop 1 args) 0
  end.

Definition HMSetHandle : TxnHandle := fun args =>
  if (len args <? 3) || negb (go_rem (len args) 2 =? 1) then wrong_args "hmset"
  else val! _ := hset args false else reply_err in ret OK.
Definition HSetNXHandle : TxnHandle := fun args =>
  if negb (len args =? 3) then wrong_args "hsetnx" else reply_int (hset args true).
Definition HSetHandle : TxnHandle := fun args =>
  if (len args <? 3) || negb (go_rem (len args) 2 =? 1) then wrong_args "hset"
  else reply_int (hset args false).

End hash.
