(* ===== verification/Rank.v ===== *)
(** Ranges by rank (command/lista.go, [rangeRank], which lists and sorted sets share):
    two iterators that walk towards each other ([LeftRight] of store/iter.go). *)

From S2P Require Import Prelude Xerror GoStd Utils Float Store Ranges Mem Object Reply.
From S2P Require Import ObjectSpec HashCmd.
From Stdlib Require Import Init.Byte.

#[local] Open Scope Z_scope.

(** ** Two iterators over one range *)

(** An entry the iterators yield: key and value. *)
Abbreviation entry := (bytes * bytes)%type.

Section rank.
Context `{Platform}.

Record LeftRight := { lr_Prefix : bytes; lr_Left : option Iter; lr_Right : option Iter }.

(** One side of [LeftRight.Next]. *)
Definition lr_side (prefix : bytes) (side : option Iter) : error + (option entry * option Iter) :=
  match side with
  | None => inr (None, None)
  | Some it =>
      if negb (it_Valid it) then inr (None, Some it)
      else
        let key := it_Key it in
        if (len key <=? len prefix) || negb (has_prefix prefix key) then inr (None, None)
        else match it_Next it with
             | (Some e, _) => inl (Tikv e)
             | (None, it') => inr (Some (key, it_Value it), Some it')
             end
  end.

Definition lr_Next (i : LeftRight) : error + (option entry * option entry * LeftRight) :=
  match lr_side (lr_Prefix i) (lr_Left i) with
  | inl e => inl e
  | inr (le, l) =>
      match lr_side (lr_Prefix i) (lr_Right i) with
      | inl e => inl e
      | inr (re, r) => inr (le, re, {| lr_Prefix := lr_Prefix i; lr_Left := l; lr_Right := r |})
      end
  end.

(** The number of entries the iterators still yield, plus one. *)
Definition lr_fuel (i : LeftRight) : nat :=
  S (match lr_Left i with Some it => it_size it | None => 0 end +
     match lr_Right i with Some it => it_size it | None => 0 end).

(** What [rangeRank] collects: members, and the scores of sorted sets. *)
Inductive item := IMember (b : bytes) | IScore (n : Number).

Definition item_reply (i : item) : reply :=
  match i with IMember b => RBulk b | IScore n => number_reply n end.

(** Out-of-range slice bounds panic. *)
Definition slice_to {A} (r : Z) (l : list A) : M (list A) :=
  if (0 <=? r) && (r <=? len l) then ret (take (Z.to_nat r) l) else panic.
Definition slice_from {A} (r : Z) (l : list A) : M (list A) :=
  if (0 <=? r) && (r <=? len l) then ret (drop (Z.to_nat r) l) else panic.

(** sort.go: [ReversePair(s, pair)], on slices of even length when [pair]. *)
Fixpoint reverse_pairs {A} (l : list A) : list A :=
  match l with
  | x :: y :: l => reverse_pairs l ++ [x; y]
  | l => l
  end.
Definition ReversePair {A} (l : list A) (pair : bool) : list A :=
  if negb pair then rev l else reverse_pairs l.

Record rank := {
  rk_leftC : Z; rk_rightC : Z;
  rk_leftCount : Z; rk_rightCount : Z;
  rk_leftList : list item; rk_rightList : list item;
  rk_lastLeft : bytes; rk_lastRight : option bytes;
  rk_meet : bool
}.

Definition rank0 : rank := {|
  rk_leftC := -1; rk_rightC := -1; rk_leftCount := 0; rk_rightCount := 0;
  rk_leftList := []; rk_rightList := []; rk_lastLeft := []; rk_lastRight := None;
  rk_meet := false |}.

(** The bounds of both walks. *)
Record bounds := { bd_leftStart : Z; bd_leftEnd : Z; bd_rightStart : Z; bd_rightEnd : Z }.

Definition within (c lo hi : Z) : bool := (c >=? lo) && (c <=? hi).

(** The items of an entry of the object. *)
Definition entry_items (object : Object) (prefix : bytes) (onlyKey : bool) (e : entry) : M (list item) :=
  if beq (o_Type object) AListType then ret [IMember (decoded_value (snd e))]
  else if UseZset (o_Type object) then
    let k := drop (length prefix) (fst e) in
    match Number_Decode (mkNumber (IsGeo object) 0 0) k with
    | None => panic
    | Some score => ret (IMember (drop 8 k) :: if onlyKey then [] else [IScore score])
    end
  else ret [].

(** The entry of the left iterator, and of the right one; the flag says whether the
    side is done. *)
Definition rank_left (object : Object) (prefix : bytes) (onlyKey : bool) (b : bounds) (e : entry)
    (s : rank) : M (rank * bool) :=
  let c := rk_leftC s + 1 in
  let! (n, l) :=
    if within c (bd_leftStart b) (bd_leftEnd b)
    then let! l := entry_items object prefix onlyKey e in ret (1, l)
    else ret (0, []) in
  ret ({| rk_leftC := c; rk_rightC := rk_rightC s; rk_leftCount := rk_leftCount s + n;
          rk_rightCount := rk_rightCount s; rk_leftList := rk_leftList s ++ l;
          rk_rightList := rk_rightList s; rk_lastLeft := fst e; rk_lastRight := rk_lastRight s;
          rk_meet := rk_meet s |}, c >=? bd_leftEnd b).

Definition rank_right (object : Object) (prefix : bytes) (onlyKey : bool) (b : bounds) (e : entry)
    (s : rank) : M (rank * bool) :=
  let c := rk_rightC s + 1 in
  let! (n, l) :=
    if within c (bd_rightStart b) (bd_rightEnd b)
    then let! l := entry_items object prefix onlyKey e in ret (1, l)
    else ret (0, []) in
  ret ({| rk_leftC := rk_leftC s; rk_rightC := c; rk_leftCount := rk_leftCount s;
          rk_rightCount := rk_rightCount s + n; rk_leftList := rk_leftList s;
          rk_rightList := rk_rightList s ++ l; rk_lastLeft := rk_lastLeft s;
          rk_lastRight := Some (fst e); rk_meet := rk_meet s |}, c >=? bd_rightEnd b).

Definition set_meet (s : rank) : rank := {|
  rk_leftC := rk_leftC s; rk_rightC := rk_rightC s; rk_leftCount := rk_leftCount s;
  rk_rightCount := rk_rightCount s; rk_leftList := rk_leftList s; rk_rightList := rk_rightList s;
  rk_lastLeft := rk_lastLeft s; rk_lastRight := rk_lastRight s; rk_meet := true |}.

(** [left[0]] or the last key of that side. *)
Definition check_left (e : option entry) (lastLeft : bytes) : bytes :=
  match e with Some e => fst e | None => lastLeft end.
Definition check_right (e : option entry) (lastRight : option bytes) : option bytes :=
  match e with Some e => Some (fst e) | None => lastRight end.

Definition with_sides (l r : option Iter) (i : LeftRight) : LeftRight :=
  {| lr_Prefix := lr_Prefix i; lr_Left := l; lr_Right := r |}.

(** The body of the loop once the sides have not crossed; equal keys end it after
    this round. *)
Definition rank_step (object : Object) (onlyKey : bool) (b : bounds) (l r : option entry)
    (equal : bool) (lr : LeftRight) (s : rank) : M (rank * LeftRight) :=
  let r := if equal then None else r in
  let lr := if equal then with_sides None None lr else lr in
  let s := if equal then set_meet s else s in
  let! (s, doneL) :=
    match l with
    | Some e => rank_left object (lr_Prefix lr) onlyKey b e s
    | None => ret (s, false)
    end in
  let! (s, doneR) :=
    match r with
    | Some e => rank_right object (lr_Prefix lr) onlyKey b e s
    | None => ret (s, false)
    end in
  ret (s, with_sides (if doneL then None else lr_Left lr) (if doneR then None else lr_Right lr) lr).

Definition crossed (cl : bytes) (cr : option bytes) : bool :=
  match cr with Some k => bytes_ltb k cl | None => false end.

Fixpoint rank_loop (fuel : nat) (object : Object) (onlyKey : bool) (b : bounds) (lr : LeftRight)
    (s : rank) : M (error + rank) :=
  match fuel with
  | O => diverge
  | S fuel =>
      match lr_Next lr with
      | inl e => ret (inl e)
      | inr (None, None, _) => ret (inr s)
      | inr (l, r, lr) =>
          let cl := check_left l (rk_lastLeft s) in
          let cr := check_right r (rk_lastRight s) in
          if crossed cl cr then ret (inr (set_meet s))
          else
            let! (s, lr) := rank_step object onlyKey b l r (bool_decide (cr = Some cl)) lr s in
            rank_loop fuel object onlyKey b lr s
      end
  end.

(** A negative index counts from the end; the last element is 0 from there. *)
Definition from_end (i : Z) : Z := i64 (i64 (- i) - 1).

Definition rank_bounds (startRevered endRevered : bool) (startIndex endIndex : Z) : bounds := {|
  bd_leftStart := if startRevered then 0 else startIndex;
  bd_rightEnd := if startRevered then startIndex else MaxInt64;
  bd_leftEnd := if endRevered then MaxInt64 else endIndex;
  bd_rightStart := if endRevered then endIndex else 0 |}.

(** Where the object's ordered entries begin. *)
Definition rank_prefix (object : Object) : option bytes :=
  if beq (o_Type object) AListType then Some (GetValueBytes object [])
  else if UseZset (o_Type object) then Some (GetValueBytes object [ScorePrefix])
  else None.

(** Both indexes counted from different ends: what the two walks collected, joined. *)
Definition rank_join (onlyKey startRevered : bool) (b : bounds) (s : rank) : M (list item) :=
  let k := if onlyKey then 1 else 2 in
  if negb startRevered then
    if (rk_rightC s <? bd_rightStart b) && (rk_leftC s <? bd_leftStart b) then ret []
    else if rk_rightC s <? bd_rightStart b then
      if i64 (bd_rightStart b - rk_rightC s) >? rk_leftCount s then ret []
      else slice_to (i64 (k * i64 (i64 (rk_leftCount s - i64 (bd_rightStart b - rk_rightC s)) + 1)))
             (rk_leftList s)
    else if rk_leftC s <? bd_leftStart b then
      if i64 (bd_leftStart b - rk_leftC s) >? rk_rightCount s then ret []
      else
        let! l := slice_from (i64 (k * i64 (i64 (bd_leftStart b - rk_leftC s) - 1))) (rk_rightList s) in
        ret (ReversePair l (negb onlyKey))
    else ret (rk_leftList s ++ ReversePair (rk_rightList s) (negb onlyKey))
  else
    if (rk_rightC s =? bd_rightEnd b) && (rk_leftC s =? bd_leftEnd b) then
      if rk_meet s && (rk_leftCount s >? 0)
      then slice_from (i64 (k * (rk_leftCount s - 1))) (rk_leftList s)
      else ret []
    else
      let! retRight :=
        if i64 (bd_leftEnd b - rk_leftC s) >? rk_rightCount s then ret (rk_rightList s)
        else slice_from (i64 (k * i64 (rk_rightCount s - i64 (bd_leftEnd b - rk_leftC s)))) (rk_rightList s) in
      let! retLeft :=
        if i64 (bd_rightEnd b - rk_rightC s) >? rk_leftCount s then ret (rk_leftList s)
        else slice_from (i64 (k * i64 (rk_leftCount s - i64 (bd_rightEnd b - rk_rightC s)))) (rk_leftList s) in
      ret (retLeft ++ ReversePair retRight (negb onlyKey)).

Definition iter_if (b : bool) (start end_ : bytes) (reversed : bool) : M (error + option Iter) :=
  if b then
    let! r := IterOf start end_ reversed in
    ret (match r with inl e => inl e | inr it => inr (Some it) end)
  else ret (inr None).

Definition rangeRank (object : Object) (startIndex endIndex : Z) (onlyKey : bool) :
    M (error + list item) :=
  let startRevered := startIndex <? 0 in
  let startIndex := if startRevered then from_end startIndex else startIndex in
  let endRevered := endIndex <? 0 in
  let endIndex := if endRevered then from_end endIndex else endIndex in
  if negb startRevered && negb endRevered && (startIndex >? endIndex) then ret (inr [])
  else if startRevered && endRevered && (startIndex <? endIndex) then ret (inr [])
  else
    match rank_prefix object with
    | None => ret (inl (ErrNotSupport : error))
    | Some prefix =>
        let end_ := Bytes.PrefixNext prefix in
        let b := rank_bounds startRevered endRevered startIndex endIndex in
        val! l := iter_if (negb startRevered || negb endRevered) prefix end_ false
        else (fun e => ret (inl e)) in
        val! r := iter_if (startRevered || endRevered) prefix end_ true
        else (fun e => ret (inl e)) in
        let lr := {| lr_Prefix := prefix; lr_Left := l; lr_Right := r |} in
        val! s := rank_loop (lr_fuel lr) object onlyKey b lr rank0 else (fun e => ret (inl e)) in
        if negb startRevered && negb endRevered then ret (inr (rk_leftList s))
        else if startRevered && endRevered then
          ret (inr (ReversePair (rk_rightList s) (negb onlyKey)))
        else let! l := rank_join onlyKey startRevered b s in ret (inr l)
    end.

End rank.
