(* ===== verification/ListA.v ===== *)
(** Lists kept as ordered entries (command/lista.go), with the options and list
    headers of command/listb.go. An element is an entry of the object whose key is
    made of the timestamp of the transaction that pushed it and a counter, negated
    for elements pushed on the left. *)

From S2P Require Import Prelude Xerror GoStd Utils Float Store Ranges Mem Object Reply.
From S2P Require Import ObjectSpec HashCmd Rank.
From Stdlib Require Import Init.Byte.

#[local] Open Scope Z_scope.

(** ** Options and headers (listb.go) *)

Record ListObject := mkListObject {
  lo_LIndex : float64;
  lo_RIndex : float64;
  lo_Length : Z;
  lo_Complex : bool
}.

(** [lOpt]; functions change it through the pointer they are given, so they return it. *)
Record lOpt := mkOpt {
  op_index : list Z;
  op_max : Z;
  op_count : Z;
  op_before : bool;
  op_after : bool;
  op_exist : bool;
  op_readonly : bool;
  op_l : option ListObject
}.

(** [&lOpt{}] and assignments to its fields. *)
Definition opt0 : lOpt := mkOpt [] 0 0 false false false false None.
Definition set_index (l : list Z) (o : lOpt) : lOpt :=
  mkOpt l (op_max o) (op_count o) (op_before o) (op_after o) (op_exist o) (op_readonly o) (op_l o).
Definition set_max (m : Z) (o : lOpt) : lOpt :=
  mkOpt (op_index o) m (op_count o) (op_before o) (op_after o) (op_exist o) (op_readonly o) (op_l o).
Definition set_count (n : Z) (o : lOpt) : lOpt :=
  mkOpt (op_index o) (op_max o) n (op_before o) (op_after o) (op_exist o) (op_readonly o) (op_l o).
Definition set_before (o : lOpt) : lOpt :=
  mkOpt (op_index o) (op_max o) (op_count o) true (op_after o) (op_exist o) (op_readonly o) (op_l o).
Definition set_after (o : lOpt) : lOpt :=
  mkOpt (op_index o) (op_max o) (op_count o) (op_before o) true (op_exist o) (op_readonly o) (op_l o).
Definition set_exist (o : lOpt) : lOpt :=
  mkOpt (op_index o) (op_max o) (op_count o) (op_before o) (op_after o) true (op_readonly o) (op_l o).
Definition set_readonly (o : lOpt) : lOpt :=
  mkOpt (op_index o) (op_max o) (op_count o) (op_before o) (op_after o) (op_exist o) true (op_l o).
Definition set_l (l : ListObject) (o : lOpt) : lOpt :=
  mkOpt (op_index o) (op_max o) (op_count o) (op_before o) (op_after o) (op_exist o) (op_readonly o) (Some l).

(** [opt.index[i]] of an option whose handler has set it. *)
Definition opt_index (i : nat) (o : lOpt) : Z := nth i (op_index o) 0.

Section alist.
Context `{Platform}.

Definition ListFunc : Type := Object -> list bytes -> lOpt -> M (lOpt * (error + reply)).

(** A function that leaves the options alone. *)
Definition keeps_opt (f : Object -> list bytes -> lOpt -> M (error + reply)) : ListFunc :=
  fun object args opt => let! r := f object args opt in ret (opt, r).

(** ** Keys *)

Definition with_list_ids (lid rid : Z) (t : Txn) : Txn :=
  {| t_txn := t_txn t; t_Multi := t_Multi t; t_Watch := t_Watch t; t_Exec := t_Exec t;
     t_Err := t_Err t; t_PendingErr := t_PendingErr t; t_Timestamp := t_Timestamp t;
     t_Now := t_Now t; t_ListLID := lid; t_ListRID := rid;
     t_Config := t_Config t; t_UserId := t_UserId t; t_DBId := t_DBId t;
     t_PendingReq := t_PendingReq t; t_draws := t_draws t |}.

(** The ten bytes of a key: both numbers are truncated to their width. *)
Definition list_key (ts id : Z) : bytes :=
  be_put 8 (Int.EncodeInt64ToCmpUint ts) ++ be_put 2 (Int.EncodeInt16ToCmpUint id).

Definition left_key (ts lid : Z) : bytes := list_key (i64 (- i64 ts)) (wrap_s 16 (- wrap_s 16 lid)).
Definition right_key (ts rid : Z) : bytes := list_key (i64 ts) (wrap_s 16 rid).

(** [txn.ListLID] and [txn.ListRID] are [uint32]. *)
Definition nextLeftKey (object : Object) : M bytes :=
  let! t := get_txn in
  let key := left_key (t_Timestamp t) (t_ListLID t) in
  let! _ := modify (with_list_ids (wrap_u 32 (t_ListLID t + 1)) (t_ListRID t)) in
  ret (GetValueBytes object key).

Definition nextRightKey (object : Object) : M bytes :=
  let! t := get_txn in
  let key := right_key (t_Timestamp t) (t_ListRID t) in
  let! _ := modify (with_list_ids (t_ListLID t) (wrap_u 32 (t_ListRID t + 1))) in
  ret (GetValueBytes object key).

(** The range of the elements of a list: its bounds in the order of the traversal. *)
Definition list_start (object : Object) (reversed : bool) : bytes :=
  if reversed then Bytes.PrefixNext (GetValueBytes object []) else GetValueBytes object [].
Definition list_end (object : Object) (reversed : bool) : bytes :=
  if reversed then GetValueBytes object [] else Bytes.PrefixNext (GetValueBytes object []).

(** ** Length and ranges *)

Definition alLen (object : Object) (args : list bytes) (opt : lOpt) : M (error + reply) :=
  val! count := GetCountByObject object else (fun e => ret (inl e)) in
  ret (inr (RInt count)).

Definition alRange (object : Object) (args : list bytes) (opt : lOpt) : M (error + reply) :=
  val! l := rangeRank object (opt_index 0 opt) (opt_index 1 opt) true else (fun e => ret (inl e)) in
  ret (inr (RArr (item_reply <$> l))).

(** ** LTRIM *)

Record trim := { tr_leftC : Z; tr_rightC : Z; tr_lastLeft : bytes; tr_lastRight : option bytes }.
Definition trim0 : trim :=
  {| tr_leftC := -1; tr_rightC := -1; tr_lastLeft := []; tr_lastRight := None |}.

Definition trim_bounds (startRevered endRevered : bool) (startIndex endIndex : Z) : bounds :=
  if negb startRevered then
    if negb endRevered then
      {| bd_leftStart := startIndex; bd_leftEnd := endIndex; bd_rightStart := 0; bd_rightEnd := 0 |}
    else
      {| bd_leftStart := startIndex; bd_leftEnd := MaxInt64; bd_rightStart := endIndex;
         bd_rightEnd := MaxInt64 |}
  else
    if negb endRevered then
      {| bd_leftStart := 0; bd_leftEnd := endIndex; bd_rightStart := 0; bd_rightEnd := startIndex |}
    else
      {| bd_leftStart := 0; bd_leftEnd := 0; bd_rightStart := endIndex; bd_rightEnd := startIndex |}.

(** An entry outside its walk's bounds is deleted; a walk without an upper bound ends
    at its first entry inside. *)
Definition trim_entry (object : Object) (key : bytes) (c lo hi : Z) : M (error + bool) :=
  if (c <? lo) || (c >? hi) then
    let! (_, err) := PutOrDeleteKV object key None (-1) in
    ret (match err with Some e => inl e | None => inr false end)
  else ret (inr ((c >=? lo) && (hi =? MaxInt64))).

Definition trim_step (object : Object) (b : bounds) (l r : option entry) (equal : bool)
    (lr : LeftRight) (s : trim) : M (error + (trim * LeftRight)) :=
  let lr := if equal then with_sides None None lr else lr in
  val! (s, doneL) :=
    match l with
    | None => ret (inr (s, false))
    | Some e =>
        let c := tr_leftC s + 1 in
        val! d := trim_entry object (fst e) c (bd_leftStart b) (bd_leftEnd b)
        else (fun e => ret (inl e)) in
        ret (inr ({| tr_leftC := c; tr_rightC := tr_rightC s; tr_lastLeft := fst e;
                     tr_lastRight := tr_lastRight s |}, d))
    end
  else (fun e => ret (inl e)) in
  val! (s, doneR) :=
    match r with
    | None => ret (inr (s, false))
    | Some e =>
        let c := tr_rightC s + 1 in
        val! d := trim_entry object (fst e) c (bd_rightStart b) (bd_rightEnd b)
        else (fun e => ret (inl e)) in
        ret (inr ({| tr_leftC := tr_leftC s; tr_rightC := c; tr_lastLeft := tr_lastLeft s;
                     tr_lastRight := Some (fst e) |}, d))
    end
  else (fun e => ret (inl e)) in
  ret (inr (s, with_sides (if doneL then None else lr_Left lr) (if doneR then None else lr_Right lr) lr)).

Fixpoint trim_loop (fuel : nat) (object : Object) (b : bounds) (lr : LeftRight) (s : trim) :
    M (option error) :=
  match fuel with
  | O => diverge
  | S fuel =>
      match lr_Next lr with
      | inl e => ret (Some e)
      | inr (None, None, _) => ret None
      | inr (l, r, lr) =>
          let cl := check_left l (tr_lastLeft s) in
          let cr := check_right r (tr_lastRight s) in
          if crossed cl cr then ret None
          else
            val! (s, lr) := trim_step object b l r (bool_decide (cr = Some cl)) lr s
            else fail in
            trim_loop fuel object b lr s
      end
  end.

Definition alTrim (object : Object) (args : list bytes) (opt : lOpt) : M (error + reply) :=
  let startRevered := opt_index 0 opt <? 0 in
  let startIndex := if startRevered then from_end (opt_index 0 opt) else opt_index 0 opt in
  let endRevered := opt_index 1 opt <? 0 in
  let endIndex := if endRevered then from_end (opt_index 1 opt) else opt_index 1 opt in
  if (negb startRevered && negb endRevered && (startIndex >? endIndex))
     || (startRevered && endRevered && (startIndex <? endIndex)) then
    let! t := get_txn in
    do! DeleteKey (ObjectKeyBytes object) object (t_Now t) MinusCount
    else (fun e => ret (inl e)) in
    ret (inr OK)
  else
    let prefix := GetValueBytes object [] in
    let end_ := Bytes.PrefixNext prefix in
    let b := trim_bounds startRevered endRevered startIndex endIndex in
    val! l := iter_if (negb startRevered || negb endRevered) prefix end_ false
    else (fun e => ret (inl e)) in
    val! r := iter_if (startRevered || endRevered) prefix end_ true
    else (fun e => ret (inl e)) in
    let lr := {| lr_Prefix := prefix; lr_Left := l; lr_Right := r |} in
    do! trim_loop (lr_fuel lr) object b lr trim0 else (fun e => ret (inl e)) in
    ret (inr OK).

(** ** Pushing and popping *)

Fixpoint aPush_loop (object : Object) (is_left : bool) (msgs : list bytes) : M (option error) :=
  match msgs with
  | [] => ret None
  | msg :: msgs =>
      let! lkey := if is_left then nextLeftKey object else nextRightKey object in
      let! t := get_txn in
      let lvalue := {| v_Timestamp := t_Timestamp t; v_Value := msg |} in
      let! (_, err) := PutOrDeleteKV object lkey (Some (EncodeValue lvalue)) 1 in
      match err with
      | Some e => ret (Some e)
      | None => aPush_loop object is_left msgs
      end
  end.

(** The reply is the number of elements pushed, not the length of the list. *)
Definition aPush (is_left : bool) (object : Object) (args : list bytes) (opt : lOpt) :
    M (error + reply) :=
  do! aPush_loop object is_left args else (fun e => ret (inl e)) in
  ret (inr (RInt (len args))).

Definition pop_callback (object : Object) (prefix : bytes) (count : Z) :
    Callback (list bytes * option error) :=
  fun s key value =>
    let '(l, _) := s in
    if len key <? len prefix then ret (l, None, true)
    else
      let! (_, delErr) := PutOrDeleteKV object key None (-1) in
      match delErr with
      | Some e => ret (l, Some e, false)
      | None =>
          let l := l ++ [decoded_value value] in
          ret (l, None, len l <? count)
      end.

Definition aPop (is_left : bool) (object : Object) (args : list bytes) (opt : lOpt) :
    M (error + reply) :=
  let count := if op_count opt =? 0 then 1 else op_count opt in
  let prefix := GetValueBytes object [] in
  let! ((l, delErr), err) :=
    List (list_start object (negb is_left)) (list_end object (negb is_left)) (i64 (count + 1))
      (pop_callback object prefix count) ([], None) in
  match delErr, err with
  | Some e, _ => ret (inl e)
  | None, Some e => ret (inl e)
  | None, None =>
      if op_count opt =? 0 then
        match l with
        | [x] => ret (inr (RBulk x))
        | _ => ret (inr RNil)
        end
      else ret (inr (bulks l))
  end.

(** ** LREM *)

Definition rem_callback (object : Object) (prefix elem : bytes) (count : Z) :
    Callback (Z * option error) :=
  fun s key value =>
    let '(c, _) := s in
    if negb (has_prefix prefix key) then ret (c, None, false)
    else if negb (bool_decide (elem = decoded_value value)) then ret (c, None, true)
    else
      let c := c + 1 in
      let! (_, delErr) := PutOrDeleteKV object key None (-1) in
      match delErr with
      | Some e => ret (c, Some e, false)
      | None => ret (c, None, negb ((count >? 0) && (c >=? count)))
      end.

(** No match leaves the options read-only and replies with a Go [int]. *)
Definition alRem : ListFunc := fun object args opt =>
  let prefix := GetValueBytes object [] in
  let reversed := op_count opt <? 0 in
  let count := if op_count opt >=? 0 then op_count opt else i64 (- op_count opt) in
  let! ((c, delErr), err) :=
    List (list_start object reversed) (list_end object reversed) (op_max opt)
      (rem_callback object prefix (arg 1 args) count) (0, None) in
  match err, delErr with
  | Some e, _ => ret (opt, inl e)
  | None, Some e => ret (opt, inl e)
  | None, None =>
      if c =? 0 then ret (set_readonly opt, inr (RGoInt 0)) else ret (opt, inr (RInt c))
  end.

(** ** LPOS *)

Record pos := { ps_idxs : list Z; ps_temp : list Z; ps_count : Z; ps_idx : Z; ps_begin : bool }.

Definition pos_callback (prefix v : bytes) (index uindex length optcount : Z) : Callback pos :=
  fun s key value =>
    if negb (has_prefix prefix key) then ret (s, false)
    else
      let idx := ps_idx s + 1 in
      if negb (bool_decide (v = decoded_value value)) then
        ret ({| ps_idxs := ps_idxs s; ps_temp := ps_temp s; ps_count := ps_count s; ps_idx := idx;
                ps_begin := ps_begin s |}, true)
      else
        let count := ps_count s + 1 in
        let begin := ps_begin s || (count >=? uindex) in
        if negb begin then
          ret ({| ps_idxs := ps_idxs s; ps_temp := ps_temp s; ps_count := count; ps_idx := idx;
                  ps_begin := false |}, true)
        else
          let '(idxs, temp) :=
            if index >=? 0 then (ps_idxs s ++ [idx - 1], ps_temp s)
            else if uindex >=? 0 then (ps_idxs s ++ [i64 (length - idx)], ps_temp s)
            else (ps_idxs s, ps_temp s ++ [idx - 1]) in
          ret ({| ps_idxs := idxs; ps_temp := temp; ps_count := count; ps_idx := idx;
                  ps_begin := true |}, len idxs <? optcount).

(** The matches from the end, when the traversal could not start there: [temp] is in
    reverse, [i] counts from 0. *)
Fixpoint pos_from_end (rtemp : list Z) (i uindex idx maxlen optcount : Z) (idxs : list Z) : list Z :=
  match rtemp with
  | [] => idxs
  | x :: rtemp =>
      if i + 1 <? i64 (- uindex) then pos_from_end rtemp (i + 1) uindex idx maxlen optcount idxs
      else if idx - x >? maxlen then idxs
      else
        let idxs := idxs ++ [x] in
        if len idxs >=? optcount then idxs
        else pos_from_end rtemp (i + 1) uindex idx maxlen optcount idxs
  end.

Definition alPos (object : Object) (args : list bytes) (opt : lOpt) : M (error + reply) :=
  let prefix := GetValueBytes object [] in
  let! c := get_config in
  let index := opt_index 0 opt in
  let counted_back := (index <? 0) && negb (DisableCount c) in
  let uindex := if counted_back then i64 (- index) else index in
  let limit := if (index <? 0) && DisableCount c then ScanMaxCount c else op_max opt in
  val! length := (if counted_back then GetCountByObject object else ret (inr 0))
  else (fun e => ret (inl e)) in
  let optcount := if op_count opt <=? 0 then 1 else op_count opt in
  let! (s, err) :=
    List (list_start object counted_back) (list_end object counted_back) limit
      (pos_callback prefix (arg 0 args) index uindex length optcount)
      {| ps_idxs := []; ps_temp := []; ps_count := 0; ps_idx := 0; ps_begin := false |} in
  match err with
  | None | Some ReachLimit =>
      let idxs :=
        if negb (len (ps_temp s) =? 0) && (i64 (- uindex) <=? len (ps_temp s))
        then pos_from_end (rev (ps_temp s)) 0 uindex (ps_idx s) (op_max opt) optcount (ps_idxs s)
        else ps_idxs s in
      if op_count opt =? 0 then
        ret (inr (match idxs with [] => RNil | i :: _ => RInt i end))
      else ret (inr (RArr (RInt <$> idxs)))
  | Some e => ret (inl e)
  end.

(** ** LINDEX, LSET *)

Definition aindex_callback (prefix : bytes) (index : Z) : Callback (option entry * Z) :=
  fun s key value =>
    let '(found, count) := s in
    if len key <? len prefix then ret (found, count, true)
    else if count =? index then ret (Some (key, value), count, false)
    else ret (found, count + 1, true).

(** The key and value at the index of the options. *)
Definition aindex (object : Object) (opt : lOpt) : M (error + entry) :=
  let i := opt_index 0 opt in
  let reversed := i <? 0 in
  let index := u64 (if reversed then from_end i else i) in
  if index >=? u64 (op_max opt) then ret (inl (ErrOutOfRange : error))
  else
    let prefix := GetValueBytes object [] in
    let! ((found, _), err) :=
      List (list_start object reversed) (list_end object reversed) (op_max opt)
        (aindex_callback prefix index) (None, 0) in
    match err, found with
    | Some e, _ => ret (inl e)
    | None, None => ret (inl (ErrOutOfRange : error))
    | None, Some e => ret (inr e)
    end.

Definition alIndex (object : Object) (args : list bytes) (opt : lOpt) : M (error + reply) :=
  let! r := aindex object opt in
  match r with
  | inl (Sentinel ErrOutOfRange) => ret (inr RNil)
  | inl e => ret (inl e)
  | inr (_, value) => ret (inr (RBulk (decoded_value value)))
  end.

(** Replacing an element also adds one to the list's counter. *)
Definition alSet (object : Object) (args : list bytes) (opt : lOpt) : M (error + reply) :=
  val! (lkey, _) := aindex object opt else (fun e => ret (inl e)) in
  let! t := get_txn in
  let lvalue := {| v_Timestamp := t_Timestamp t; v_Value := arg 1 args |} in
  let! (_, err) := PutOrDeleteKV object lkey (Some (EncodeValue lvalue)) 1 in
  ret (match err with Some e => inl e | None => inr OK end).

(** ** LINSERT *)

Record around := { ar_prev : bytes; ar_cur : bytes; ar_next : bytes; ar_found : bool }.

Definition aindexValue_callback (prefix v : bytes) (after : bool) : Callback around :=
  fun s key value =>
    if len key <? len prefix then ret (s, true)
    else if ar_found s then
      ret ({| ar_prev := ar_prev s; ar_cur := ar_cur s; ar_next := key; ar_found := true |}, false)
    else if bool_decide (v = decoded_value value) then
      ret ({| ar_prev := ar_cur s; ar_cur := key; ar_next := ar_next s; ar_found := true |}, after)
    else ret ({| ar_prev := ar_cur s; ar_cur := key; ar_next := ar_next s; ar_found := false |}, true).

(** The keys around the first element equal to [v]; an absent one is empty. *)
Definition aindexValue (object : Object) (v : bytes) (opt : lOpt) : M (error + (bytes * bytes * bytes)) :=
  let! (s, err) :=
    List (list_start object false) (list_end object false) (op_max opt)
      (aindexValue_callback (GetValueBytes object []) v (op_after opt))
      {| ar_prev := []; ar_cur := []; ar_next := []; ar_found := false |} in
  match err with
  | Some e => ret (inl e)
  | None => if ar_found s then ret (inr (ar_prev s, ar_cur s, ar_next s))
            else ret (inl (ErrNotFound : error))
  end.

(** The key between two others: both are read as floating-point numbers. *)
Definition middle_key (object : Object) (lo hi : bytes) : M (error + bytes) :=
  let n := length (GetValueBytes object []) in
  match DecodeFloat (drop n lo), DecodeFloat (drop n hi) with
  | Some x, Some y =>
      match MiddleFloat x y with
      | inl e => ret (inl e)
      | inr m => ret (inr (GetValueBytes object (EncodeFloat m)))
      end
  | _, _ => panic
  end.

Definition alInsert (object : Object) (args : list bytes) (opt : lOpt) : M (error + reply) :=
  let! r := aindexValue object (arg 1 args) opt in
  match r with
  | inl (Sentinel ErrNotFound) => ret (inr (RInt (-1)))
  | inl e => ret (inl e)
  | inr (prev, cur, next) =>
      val! lkey :=
        (if op_before opt then
           if len prev =? 0 then let! k := nextLeftKey object in ret (inr k)
           else middle_key object prev cur
         else
           if len next =? 0 then let! k := nextRightKey object in ret (inr k)
           else middle_key object cur next)
      else (fun e => ret (inl e)) in
      let! t := get_txn in
      let lvalue := {| v_Timestamp := t_Timestamp t; v_Value := arg 2 args |} in
      let! (_, err) := PutOrDeleteKV object lkey (Some (EncodeValue lvalue)) 1 in
      ret (match err with Some e => inl e | None => inr (RInt 1) end)
  end.

(** ** The list of a key *)

Definition AListFuncs : list (string * ListFunc) := [
  ("lindex", keeps_opt alIndex);
  ("linsert", keeps_opt alInsert);
  ("lpop", keeps_opt (aPop true));
  ("lpush", keeps_opt (aPush true));
  ("rpop", keeps_opt (aPop false));
  ("rpush", keeps_opt (aPush false));
  ("lrange", keeps_opt alRange);
  ("llen", keeps_opt alLen);
  ("ltrim", keeps_opt alTrim);
  ("lrem", alRem);
  ("lset", keeps_opt alSet);
  ("lpos", keeps_opt alPos)
].

(** A read-only command on an absent key would call its function on a nil object; all
    of them set [exist]. *)
Definition AListHandle (args : list bytes) (lFunc : ListFunc) (opt : lOpt) : M (error + reply) :=
  let msgs := drop 1 args in
  let! object := NewObject AListType (arg 0 args) in
  let key := ObjectKeyBytes object in
  let! (object, err) := getTxnObject key object true in
  match err with
  | Some KeyNotFound =>
      if op_exist opt then ret (inl KeyNotFound)
      else if op_readonly opt then panic
      else
        val! id := uuid_NewUUID else (fun e => ret (inl e)) in
        let! t := get_txn in
        let object := set_o_Value (Some id) (set_o_Timestamp (t_Timestamp t) object) in
        let! (opt, r) := lFunc object msgs opt in
        match r with
        | inl e => ret (inl e)
        | inr r =>
            if op_readonly opt then ret (inr r)
            else
              do! setTxnObject key object PlusCount else (fun e => ret (inl e)) in
              ret (inr r)
        end
  | Some e => ret (inl e)
  | None =>
      let! (_, r) := lFunc object msgs opt in
      ret r
  end.

End alist.
