(* ===== verification/ListB.v ===== *)
(** Lists indexed by floating-point numbers (command/listb.go), which the
    configuration can choose instead of those of [ListA]: the header keeps the first
    and last index and the length; [Complex] says that the indexes are no longer
    consecutive. *)

From S2P Require Import Prelude Xerror GoStd Utils Float Store Ranges Mem Object Reply.
From S2P Require Import ObjectSpec HashCmd Rank ListA.
From Stdlib Require Import Init.Byte.

#[local] Open Scope Z_scope.

(** ** Headers *)

Definition EncodeListObjectExtra (l : ListObject) : bytes :=
  be_put 8 (lo_LIndex l) ++ be_put 8 (lo_RIndex l) ++ be_put 8 (lo_Length l)
    ++ [if lo_Complex l then x01 else x00].

Definition DecodeListObjectExtra (k : bytes) : error + ListObject :=
  if negb (len k =? 25) then inl (ErrValueTooShort : error)
  else inr (mkListObject (be_get (slice 0 8 k)) (be_get (slice 8 16 k)) (be_get (slice 16 24 k))
              (beq (nth 24 k x00) x01)).

Definition set_LIndex (i : float64) (l : ListObject) : ListObject :=
  mkListObject i (lo_RIndex l) (lo_Length l) (lo_Complex l).
Definition set_RIndex (i : float64) (l : ListObject) : ListObject :=
  mkListObject (lo_LIndex l) i (lo_Length l) (lo_Complex l).
Definition set_Length (n : Z) (l : ListObject) : ListObject :=
  mkListObject (lo_LIndex l) (lo_RIndex l) n (lo_Complex l).
Definition set_Complex (l : ListObject) : ListObject :=
  mkListObject (lo_LIndex l) (lo_RIndex l) (lo_Length l) true.

(** Indexes as the positions they name, or the error that says they name none. *)
Definition getStartEnd (l : ListObject) (opt : lOpt) : error + (Z * Z) :=
  let length := i64 (lo_Length l) in
  let startIndex := opt_index 0 opt in
  let startIndex := if startIndex <? 0 then i64 (startIndex + length) else startIndex in
  let startIndex := if startIndex <? 0 then 0 else startIndex in
  if startIndex >=? length then inl (ErrOutOfRange : error)
  else
    let endIndex := opt_index 1 opt in
    let endIndex := if endIndex <? 0 then i64 (endIndex + length) else endIndex in
    if endIndex <? 0 then inl (ErrStartGreaterThanEnd : error)
    else
      let endIndex := if endIndex >=? length then i64 (length - 1) else endIndex in
      if startIndex >? endIndex then inl (ErrStartGreaterThanEnd : error)
      else inr (startIndex, endIndex).

Section blist.
Context `{Platform}.

(** [opt.l], which [BListHandle] has set. *)
Definition opt_l (opt : lOpt) : ListObject := default (mkListObject 0 0 0 false) (op_l opt).

Definition index_key (object : Object) (i : float64) : bytes := GetValueBytes object (EncodeFloat i).

(** [utils.DecodeFloat(key[len(prefix):])]. *)
Definition key_index (prefix key : bytes) : option float64 := DecodeFloat (drop (length prefix) key).

Definition with_index {A} (prefix key : bytes) (f : float64 -> M A) : M A :=
  match key_index prefix key with Some i => f i | None => panic end.

(** ** LTRIM *)

(** State: the list, the entries deleted, the error of a deletion. *)
Definition trim_state : Type := ListObject * Z * option error.

Definition del_entry {A} (key : bytes) (k : option error -> M A) : M A := let! e := Del key in k e.

Definition trim_start_callback (prefix : bytes) (startIndex : Z) : Callback trim_state :=
  fun s key _ =>
    let '(l, count, _) := s in
    if negb (has_prefix prefix key) then ret (s, false)
    else if count >=? startIndex then
      with_index prefix key (fun i => ret ((set_LIndex i l, count, None), false))
    else
      del_entry key (fun e => match e with
        | Some e => ret ((l, count, Some e), false)
        | None => ret ((l, count + 1, None), true)
        end).

Definition trim_tail_callback (prefix : bytes) : Callback (option error) :=
  fun s key _ =>
    if negb (has_prefix prefix key) then ret (s, false)
    else del_entry key (fun e => ret (e, match e with None => true | Some _ => false end)).

Definition trim_end_callback (prefix : bytes) (keep : Z) : Callback trim_state :=
  fun s key _ =>
    let '(l, count, _) := s in
    if negb (has_prefix prefix key) then ret (s, false)
    else if count >=? keep then
      with_index prefix key (fun i => ret ((set_RIndex i l, count, None), false))
    else
      del_entry key (fun e => match e with
        | Some e => ret ((l, count, Some e), false)
        | None => ret ((l, count + 1, None), true)
        end).

(** The end of LTRIM once the front is cut: [l] is the list after that. *)
Definition trim_end (object : Object) (opt : lOpt) (l : ListObject) (end_ : bytes)
    (startIndex endIndex : Z) : M (lOpt * (error + reply)) :=
  let prefix := GetValueBytes object [] in
  let length := lo_Length l in
  if startIndex =? i64 length then ret (set_l (set_Length 0 l) opt, inr OK)
  else if endIndex >=? i64 (i64 length - 1) then
    ret (set_l (set_Length (u64 (length - startIndex)) l) opt, inr OK)
  else
    let! (l, delErr, err) :=
      if negb (lo_Complex l) then
        let start := index_key object (fadd (fadd (lo_LIndex l) (of_int endIndex)) fone) in
        let! (delErr, err) := List start end_ (op_max opt) (trim_tail_callback prefix) None in
        ret (set_RIndex (fsub (lo_RIndex l) (fsub (fsub (of_int length) (of_int endIndex)) fone)) l,
             delErr, err)
      else
        let start := index_key object (opt_l opt).(lo_LIndex) in
        let! ((l, _, delErr), err) :=
          List end_ start (op_max opt) (trim_end_callback prefix (i64 (i64 (i64 length - endIndex) - 1)))
            (l, 0, None) in
        ret (l, delErr, err) in
    match err, delErr with
    | Some e, _ => ret (set_l l opt, inl e)
    | None, Some e => ret (set_l l opt, inl e)
    | None, None =>
        ret (set_l (set_Length (u64 (endIndex - startIndex + 1)) l) opt, inr OK)
    end.

(** An empty range is cut as one that starts behind the last element. *)
Definition blTrim : ListFunc := fun object args opt =>
  let l := opt_l opt in
  match (match getStartEnd l opt with
         | inl (Sentinel ErrStartGreaterThanEnd) => inr (i64 (lo_Length l), i64 (lo_Length l))
         | r => r
         end) with
  | inl _ => ret (opt, inr OK)
  | inr (startIndex, endIndex) =>
      let prefix := GetValueBytes object [] in
      let start := index_key object (lo_LIndex l) in
      let end_ := index_key object (fadd (lo_RIndex l) fone) in
      let! ((l, _, delErr), err) :=
        if startIndex >? 0
        then List start end_ (op_max opt) (trim_start_callback prefix startIndex) (l, 0, None)
        else ret (l, 0, None, None) in
      match err, delErr with
      | Some e, _ => ret (set_l l opt, inl e)
      | None, Some e => ret (set_l l opt, inl e)
      | None, None => trim_end object opt l end_ startIndex endIndex
      end
  end.

(** ** LRANGE *)

Definition range_callback (prefix : bytes) (complex : bool) (startIndex endIndex : Z) :
    Callback (list bytes * Z) :=
  fun s key value =>
    let '(l, count) := s in
    if negb (has_prefix prefix key) then ret (s, true)
    else if negb complex then ret (l ++ [decoded_value value], count, true)
    else
      let l := if count >=? startIndex then l ++ [decoded_value value] else l in
      ret (l, count + 1, count + 1 <=? endIndex).

Definition blRange (object : Object) (args : list bytes) (opt : lOpt) : M (error + reply) :=
  let l := opt_l opt in
  match getStartEnd l opt with
  | inl _ => ret (inr (bulks []))
  | inr (startIndex, endIndex) =>
      let s := if negb (lo_Complex l) then fadd (lo_LIndex l) (of_int startIndex) else lo_LIndex l in
      let e := if negb (lo_Complex l) then fadd (lo_LIndex l) (of_int (i64 (endIndex + 1)))
               else fadd (lo_RIndex l) fone in
      let! ((r, _), err) :=
        List (index_key object s) (index_key object e) (op_max opt)
          (range_callback (GetValueBytes object []) (lo_Complex l) startIndex endIndex) ([], 0) in
      ret (match err with Some e => inl e | None => inr (bulks r) end)
  end.

(** ** Positions *)

Definition index_callback (prefix : bytes) (idx : Z) : Callback (float64 * Z) :=
  fun s key _ =>
    let '(r, count) := s in
    if negb (has_prefix prefix key) then ret (s, true)
    else if count =? idx then with_index prefix key (fun i => ret (i, count, false))
    else ret (r, count + 1, true).

Definition index (object : Object) (l : ListObject) (opt : lOpt) : M (error + float64) :=
  let length := i64 (lo_Length l) in
  let i := opt_index 0 opt in
  if i >=? length then ret (inl (ErrOutOfRange : error))
  else
    let i := if i <? 0 then i64 (i + length) else i in
    if i <? 0 then ret (inl (ErrOutOfRange : error))
    else if negb (lo_Complex l) then ret (inr (fadd (lo_LIndex l) (of_int i)))
    else if i =? 0 then ret (inr (lo_LIndex l))
    else if i =? u64 (lo_Length l - 1) then ret (inr (lo_RIndex l))
    else if i >=? u64 (op_max opt) then ret (inl (ErrOutOfRange : error))
    else
      let! ((idx, _), err) :=
        List (index_key object (lo_LIndex l)) (index_key object (fadd (lo_RIndex l) fone)) (op_max opt)
          (index_callback (GetValueBytes object []) i) (MaxFloat64, 0) in
      ret (match err with Some e => inl e | None => inr idx end).

Definition posValue_callback (v : bytes) (idx uindex length optcount : Z) : Callback pos :=
  fun s key value =>
    let i := ps_idx s + 1 in
    if negb (bool_decide (v = decoded_value value)) then
      ret ({| ps_idxs := ps_idxs s; ps_temp := []; ps_count := ps_count s; ps_idx := i;
              ps_begin := ps_begin s |}, true)
    else
      let count := ps_count s + 1 in
      if negb (ps_begin s || (count >=? uindex)) then
        ret ({| ps_idxs := ps_idxs s; ps_temp := []; ps_count := count; ps_idx := i;
                ps_begin := false |}, true)
      else
        let idxs := ps_idxs s ++ [if idx >=? 0 then i - 1 else i64 (length - i)] in
        ret ({| ps_idxs := idxs; ps_temp := []; ps_count := count; ps_idx := i; ps_begin := true |},
             len idxs <? optcount).

(** The count of the options is cut to the length. *)
Definition posValue (object : Object) (l : ListObject) (v : bytes) (opt : lOpt) :
    M (lOpt * (error + list Z)) :=
  let length := i64 (lo_Length l) in
  let idx := opt_index 0 opt in
  if (idx >=? length) || (idx <=? i64 (- length)) then ret (opt, inr [])
  else
    let opt := if op_count opt >? length then set_count length opt else opt in
    let start := index_key object (lo_LIndex l) in
    let end_ := index_key object (fadd (lo_RIndex l) fone) in
    let uindex := if idx >=? 0 then idx else i64 (- idx) in
    let! (s, err) :=
      List (if idx >=? 0 then start else end_) (if idx >=? 0 then end_ else start) (op_max opt)
        (posValue_callback v idx uindex length (op_count opt))
        {| ps_idxs := []; ps_temp := []; ps_count := 0; ps_idx := 0; ps_begin := false |} in
    match err with
    | None | Some ReachLimit => ret (opt, inr (ps_idxs s))
    | Some e => ret (opt, inl e)
    end.

Record indexes := { ix_prev : float64; ix_cur : float64; ix_next : float64; ix_found : bool }.

Definition indexValue_callback (prefix v : bytes) (last : float64) (after : bool) : Callback indexes :=
  fun s key value =>
    if negb (has_prefix prefix key) then ret (s, true)
    else with_index prefix key (fun i =>
      if ix_found s then
        ret ({| ix_prev := ix_prev s; ix_cur := ix_cur s; ix_next := i; ix_found := true |}, false)
      else if bool_decide (v = decoded_value value) then
        ret ({| ix_prev := ix_cur s; ix_cur := i; ix_next := ix_next s; ix_found := true |},
             if feq i last then false else after)
      else ret ({| ix_prev := ix_cur s; ix_cur := i; ix_next := ix_next s; ix_found := false |}, true)).

Definition indexValue (object : Object) (l : ListObject) (v : bytes) (opt : lOpt) :
    M (error + indexes) :=
  let! (s, err) :=
    List (index_key object (lo_LIndex l)) (index_key object (fadd (lo_RIndex l) fone)) (op_max opt)
      (indexValue_callback (GetValueBytes object []) v (lo_RIndex l) (op_after opt))
      {| ix_prev := MaxFloat64; ix_cur := MaxFloat64; ix_next := MaxFloat64; ix_found := false |} in
  match err with
  | Some e => ret (inl e)
  | None => if ix_found s then ret (inr s) else ret (inl (ErrNotFound : error))
  end.

Definition blPos : ListFunc := fun object args opt =>
  let! (opt, r) := posValue object (opt_l opt) (arg 0 args) opt in
  match r with
  | inl e => ret (opt, inl e)
  | inr ids =>
      if op_count opt =? 0 then
        ret (opt, inr (match ids with [] => RNil | i :: _ => RInt i end))
      else ret (opt, inr (RArr (RInt <$> ids)))
  end.

Definition blIndex (object : Object) (args : list bytes) (opt : lOpt) : M (error + reply) :=
  let! r := index object (opt_l opt) opt in
  match r with
  | inl (Sentinel ErrOutOfRange) => ret (inr RNil)
  | inl e => ret (inl e)
  | inr i =>
      val! v := Get (index_key object i) else (fun e => ret (inl e)) in
      ret (inr (RBulk (decoded_value v)))
  end.

Definition blLen (object : Object) (args : list bytes) (opt : lOpt) : M (error + reply) :=
  ret (inr (RInt (i64 (lo_Length (opt_l opt))))).

(** ** LREM *)

Record rem := { rm_l : ListObject; rm_c : Z; rm_first : bool; rm_pre : float64; rm_err : option error }.

(** The first element that stays becomes the end the traversal started from. *)
Definition rem_bound (forward : bool) (cur : float64) (l : ListObject) : ListObject :=
  if forward then set_LIndex cur l else set_RIndex cur l.

Definition blRem_callback (prefix elem : bytes) (forward : bool) (count : Z) : Callback rem :=
  fun s key value =>
    if len key <? len prefix then ret (s, true)
    else with_index prefix key (fun cur =>
      let l := rm_l s in
      if rm_c s >=? count then
        ret ({| rm_l := rem_bound forward cur l; rm_c := rm_c s; rm_first := rm_first s;
                rm_pre := rm_pre s; rm_err := None |}, false)
      else if negb (bool_decide (elem = decoded_value value)) then
        ret ({| rm_l := if rm_first s then l else rem_bound forward cur l; rm_c := rm_c s;
                rm_first := true; rm_pre := cur; rm_err := None |}, true)
      else
        del_entry key (fun e => match e with
          | Some e => ret ({| rm_l := l; rm_c := rm_c s; rm_first := rm_first s; rm_pre := rm_pre s;
                              rm_err := Some e |}, false)
          | None =>
              let c := rm_c s + 1 in
              let keep l := {| rm_l := l; rm_c := c; rm_first := rm_first s; rm_pre := rm_pre s;
                               rm_err := None |} in
              if forward && feq cur (lo_RIndex l) then ret (keep (set_RIndex (rm_pre s) l), false)
              else if negb forward && feq cur (lo_LIndex l) then
                ret (keep (set_LIndex (rm_pre s) l), false)
              else ret (keep l, if c >=? count then negb (rm_first s) else true)
          end)).

Definition blRem : ListFunc := fun object args opt =>
  let l := opt_l opt in
  let forward := op_count opt >=? 0 in
  let count := if op_count opt =? 0 then i64 (lo_Length l)
               else if forward then op_count opt else i64 (- op_count opt) in
  let start := index_key object (lo_LIndex l) in
  let end_ := index_key object (fadd (lo_RIndex l) fone) in
  let! (s, err) :=
    List (if forward then start else end_) (if forward then end_ else start) (op_max opt)
      (blRem_callback (GetValueBytes object []) (arg 1 args) forward count)
      {| rm_l := l; rm_c := 0; rm_first := false; rm_pre := 0; rm_err := None |} in
  let opt := set_l (rm_l s) opt in
  match err, rm_err s with
  | Some e, _ => ret (opt, inl e)
  | None, Some e => ret (opt, inl e)
  | None, None =>
      if rm_c s =? 0 then ret (set_readonly opt, inr (RGoInt 0))
      else
        let l := rm_l s in
        ret (set_l (set_Complex (set_Length (u64 (lo_Length l - rm_c s)) l)) opt, inr (RInt (rm_c s)))
  end.

(** ** Pushing *)

Fixpoint bpush_loop (is_left : bool) (object : Object) (msgs : list bytes) (l : ListObject) :
    M (ListObject * option error) :=
  match msgs with
  | [] => ret (l, None)
  | msg :: msgs =>
      let l := if lo_Length l >? 0 then
                 if is_left then set_LIndex (fsub (lo_LIndex l) fone) l
                 else set_RIndex (fadd (lo_RIndex l) fone) l
               else l in
      let lkey := index_key object (if is_left then lo_LIndex l else lo_RIndex l) in
      let! t := get_txn in
      let lvalue := {| v_Timestamp := t_Timestamp t; v_Value := msg |} in
      let! err := Put lkey (EncodeValue lvalue) in
      match err with
      | Some e => ret (l, Some e)
      | None => bpush_loop is_left object msgs (set_Length (u64 (lo_Length l + 1)) l)
      end
  end.

Definition bpush (is_left : bool) : ListFunc := fun object args opt =>
  let! (l, err) := bpush_loop is_left object args (opt_l opt) in
  ret (set_l l opt, match err with Some e => inl e | None => inr (RInt (i64 (lo_Length l))) end).
Definition blPush : ListFunc := bpush true.
Definition brPush : ListFunc := bpush false.

(** ** LINSERT, LSET *)

Definition blInsert : ListFunc := fun object args opt =>
  let l := opt_l opt in
  let! r := indexValue object l (arg 1 args) opt in
  match r with
  | inl (Sentinel ErrNotFound) => ret (opt, inr (RInt (-1)))
  | inl e => ret (opt, inl e)
  | inr ids =>
      let insert (m : error + float64) : M (lOpt * (error + reply)) :=
        match m with
        | inl e => ret (opt, inl e)
        | inr i =>
            let! t := get_txn in
            let lvalue := {| v_Timestamp := t_Timestamp t; v_Value := arg 2 args |} in
            let! err := Put (index_key object i) (EncodeValue lvalue) in
            match err with
            | Some e => ret (opt, inl e)
            | None =>
                let l := set_Length (u64 (lo_Length l + 1)) (set_Complex l) in
                ret (set_l l opt, inr (RInt (i64 (lo_Length l))))
            end
        end in
      if op_before opt then
        if feq (ix_cur ids) (lo_LIndex l) then blPush object (drop 2 args) opt
        else insert (MiddleFloat (ix_prev ids) (ix_cur ids))
      else
        if feq (ix_cur ids) (lo_RIndex l) then brPush object (drop 2 args) opt
        else insert (MiddleFloat (ix_cur ids) (ix_next ids))
  end.

Definition blSet (object : Object) (args : list bytes) (opt : lOpt) : M (error + reply) :=
  val! i := index object (opt_l opt) opt else (fun e => ret (inl e)) in
  let! t := get_txn in
  let lvalue := {| v_Timestamp := t_Timestamp t; v_Value := arg 1 args |} in
  let! err := Put (index_key object i) (EncodeValue lvalue) in
  ret (match err with Some e => inl e | None => inr OK end).

(** ** Popping *)

Definition bpop_callback (is_left : bool) (prefix : bytes) (count : Z) :
    Callback (ListObject * list bytes * option error) :=
  fun s key value =>
    let '(l, r, _) := s in
    if len key <? len prefix then ret (s, true)
    else if len r >=? count then
      with_index prefix key (fun i => ret ((rem_bound is_left i l, r, None), false))
    else
      del_entry key (fun e => match e with
        | Some e => ret ((l, r, Some e), false)
        | None =>
            let r := r ++ [decoded_value value] in
            if (len r >=? count) && negb (lo_Complex l) then
              let l := if is_left then set_LIndex (fadd (lo_LIndex l) (of_int count)) l
                       else set_RIndex (fsub (lo_RIndex l) (of_int count)) l in
              ret ((l, r, None), false)
            else ret ((l, r, None), true)
        end).

(** Without a count, LPOP replies nil and RPOP the empty slice when nothing is found. *)
Definition bpop (is_left : bool) : ListFunc := fun object args opt =>
  let l := opt_l opt in
  if lo_Length l =? 0 then ret (set_readonly opt, inr RNil)
  else
    let count := if op_count opt =? 0 then 1 else op_count opt in
    let count := if count >? i64 (lo_Length l) then i64 (lo_Length l) else count in
    let start := index_key object (lo_LIndex l) in
    let end_ := index_key object (fadd (lo_RIndex l) fone) in
    let! ((l, r, delErr), err) :=
      List (if is_left then start else end_) (if is_left then end_ else start) (i64 (count + 1))
        (bpop_callback is_left (GetValueBytes object []) count) (l, [], None) in
    match delErr, err with
    | Some e, _ => ret (set_l l opt, inl e)
    | None, Some e => ret (set_l l opt, inl e)
    | None, None =>
        let opt' := set_l (set_Length (u64 (lo_Length l - len r)) l) opt in
        ret (opt', inr (if op_count opt =? 0 then
                          match r with
                          | [x] => RBulk x
                          | _ => if is_left then RNil else bulks r
                          end
                        else bulks r))
    end.
Definition blPop : ListFunc := bpop true.
Definition brPop : ListFunc := bpop false.

(** ** The list of a key *)

(** LINFO is left out. *)
Definition BListFuncs : list (string * ListFunc) := [
  ("lindex", keeps_opt blIndex);
  ("linsert", blInsert);
  ("lpop", blPop);
  ("lpush", blPush);
  ("rpop", brPop);
  ("rpush", brPush);
  ("lrange", keeps_opt blRange);
  ("llen", keeps_opt blLen);
  ("ltrim", blTrim);
  ("lrem", blRem);
  ("lset", keeps_opt blSet);
  ("lpos", blPos)
].

Definition set_o_Extra (x : option bytes) (o : Object) : Object :=
  {| o_UserId := o_UserId o; o_Db := o_Db o; o_Key := o_Key o; o_Type := o_Type o;
     o_TTL := o_TTL o; o_Timestamp := o_Timestamp o; o_Value := o_Value o; o_Hash := o_Hash o;
     o_Extra := x |}.

(** A list that has become empty is written back with the header it had. *)
Definition BList_run (key : bytes) (object : Object) (msgs : list bytes) (lFunc : ListFunc)
    (opt : lOpt) (change : Z) : M (error + reply) :=
  let! (opt, r) := lFunc object msgs opt in
  match r with
  | inl e => ret (inl e)
  | inr r =>
      if op_readonly opt then ret (inr r)
      else
        let! t := get_txn in
        do! (if lo_Length (opt_l opt) =? 0 then setTxnObject key object MinusCount
             else setTxnObject key
                    (set_o_Extra (Some (EncodeListObjectExtra (opt_l opt)))
                      (set_o_Timestamp (t_Timestamp t) object)) change)
        else (fun e => ret (inl e)) in
        ret (inr r)
  end.

Definition BListHandle (args : list bytes) (lFunc : ListFunc) (opt : lOpt) : M (error + reply) :=
  let msgs := drop 1 args in
  let! object := NewObject BListType (arg 0 args) in
  let key := ObjectKeyBytes object in
  let! (object, err) := getTxnObject key object true in
  match err with
  | Some KeyNotFound =>
      if op_exist opt then ret (inl KeyNotFound)
      else
        val! id := uuid_NewUUID else (fun e => ret (inl e)) in
        BList_run key (set_o_Value (Some id) object) msgs lFunc
          (set_l (mkListObject 0 0 0 false) opt) PlusCount
  | Some e => ret (inl e)
  | None =>
      match DecodeListObjectExtra (sl (o_Extra object)) with
      | inl e => ret (inl e)
      | inr l =>
          if (lo_Length l =? 0) && op_exist opt then
            do! DeleteKey key object 0 MinusCount else (fun e => ret (inl e)) in
            ret (inl KeyNotFound)
          else BList_run key object msgs lFunc (set_l l opt) 0
      end
  end.

End blist.

(** A header round-trips. *)
Lemma DecodeListObjectExtra_Encode l :
  in_u64 (lo_LIndex l) -> in_u64 (lo_RIndex l) -> in_u64 (lo_Length l) ->
  DecodeListObjectExtra (EncodeListObjectExtra l) = inr l.
Proof.
  destruct l as [i j n c]. cbn [lo_LIndex lo_RIndex lo_Length]. unfold in_u64. intros Hi Hj Hn.
  unfold DecodeListObjectExtra, EncodeListObjectExtra. cbn [lo_LIndex lo_RIndex lo_Length lo_Complex].
  set (k := _ ++ _). change (len k =? 25) with true. cbn [negb].
  change (slice 0 8 k) with (be_put 8 i). change (slice 8 16 k) with (be_put 8 j).
  change (slice 16 24 k) with (be_put 8 n). rewrite !be_get_put, !Z.mod_small by (simpl; lia).
  change (nth 24 k x00) with (if c then x01 else x00). by destruct c.
Qed.
