(* ===== verification/ListCmd.v ===== *)
(** The list commands (command/list.go), but for LINFO and the blocking ones. The
    configuration chooses between the lists of [ListA] and those of [ListB]. *)

From S2P Require Import Prelude Xerror GoStd Utils Float Store Ranges Mem Object Reply.
From S2P Require Import ObjectSpec HashCmd Rank ListA ListB.
From Stdlib Require Import Init.Byte.

#[local] Open Scope Z_scope.

Section list.
Context `{Platform}.

(** A lookup in the map of functions. *)
Definition find_func (cmd : string) (funcs : list (string * ListFunc)) : option ListFunc :=
  snd <$> List.find (fun e => String.eqb (fst e) cmd) funcs.

Definition ListHandle (args : list bytes) (cmd : string) (opt : lOpt) : M (error + reply) :=
  let! c := get_config in
  if String.eqb (ListType c) BLIST then
    match find_func cmd BListFuncs with
    | None => ret (inl (UnknownCommandError cmd))
    | Some lFunc => BListHandle args lFunc opt
    end
  else
    match find_func cmd AListFuncs with
    | None => ret (inl (UnknownCommandError cmd))
    | Some lFunc => AListHandle args lFunc opt
    end.

(** [KeyNotFound] becomes [absent]; other errors are replied. *)
Definition list_reply (absent : M reply) (m : M (error + reply)) : M reply :=
  let! r := m in
  match r with
  | inl KeyNotFound => absent
  | inl e => reply_err e
  | inr v => ret v
  end.

(** The option is read at the positions it has in the whole command, though [args] is
    what follows the mandatory arguments; an index out of range panics. *)
Definition checkMaxLen (args : list bytes) : M (error + Z) :=
  if len args >? 0 then
    match args !! 4%nat with
    | None => panic
    | Some str =>
        if negb (lower_is str "maxlen") || negb (len args =? 2) then ret (inl (ErrSyntax : error))
        else match args !! 5%nat with
             | None => panic
             | Some a => match Int.GetPositiveInt a with
                         | (_, Some e) => ret (inl e)
                         | (max, None) => ret (inr max)
                         end
             end
    end
  else let! c := get_config in ret (inr (ScanMaxCount c)).

(** [(c *Command) getStartEnd]. *)
Definition getStartEnd (args : list bytes) : M (error + lOpt) :=
  match ParseInt (arg 0 args), ParseInt (arg 1 args) with
  | Some start, Some end_ =>
      val! max := checkMaxLen (drop 2 args) else (fun e => ret (inl e)) in
      ret (inr (set_max max (set_index [start; end_] opt0)))
  | _, _ => ret (inl (ErrNotInteger : error))
  end.

Definition side (a : bytes) : option bool :=
  if lower_is a "left" then Some true else if lower_is a "right" then Some false else None.
Definition pop_command (is_left : bool) : string := if is_left then "lpop" else "rpop".
Definition push_command (is_left : bool) : string := if is_left then "lpush" else "rpush".

(** LMOVE and RPOPLPUSH once their arguments are read. *)
Definition move (src dst : bytes) (from to : bool) : M reply :=
  let! r := ListHandle [src] (pop_command from) (set_exist opt0) in
  match r with
  | inl KeyNotFound => ret RNil
  | inl e => reply_err e
  | inr (RBulk msg) =>
      val! _ := ListHandle [dst; msg] (push_command to) opt0 else reply_err in
      ret (RBulk msg)
  | inr _ => ret RNil
  end.

Definition LMoveHandle : TxnHandle := fun args =>
  if negb (len args =? 4) then wrong_args "lmove"
  else match side (arg 2 args), side (arg 3 args) with
       | Some from, Some to => move (arg 0 args) (arg 1 args) from to
       | _, _ => reply_err ErrSyntax
       end.

Definition RPopLPopHandle : TxnHandle := fun args =>
  if negb (len args =? 2) then wrong_args "rpoplpush"
  else move (arg 0 args) (arg 1 args) false true.

Definition LRangeHandle : TxnHandle := fun args =>
  if len args <? 3 then wrong_args "lrange"
  else
    val! opt := getStartEnd (drop 1 args) else reply_err in
    list_reply (ret (RArr [])) (ListHandle args "lrange" (set_readonly (set_exist opt))).

Definition LLenHandle : TxnHandle := fun args =>
  if negb (len args =? 1) then wrong_args "llen"
  else list_reply (ret (RInt 0)) (ListHandle args "llen" (set_readonly (set_exist opt0))).

Definition LTrimHandle : TxnHandle := fun args =>
  if len args <? 3 then wrong_args "ltrim"
  else
    val! opt := getStartEnd (drop 1 args) else reply_err in
    val! r := ListHandle args "ltrim" opt else reply_err in
    ret r.

(** The options of LPOS. *)
Fixpoint lpos_options (args : list bytes) (opt : lOpt) : error + lOpt :=
  match args with
  | a :: v :: args =>
      if lower_is a "rank" then
        match ParseInt v with
        | None => inl (ErrNotInteger : error)
        | Some i => if i =? 0 then inl (ErrRankZero : error)
                    else lpos_options args (set_index [i] opt)
        end
      else if lower_is a "count" then
        match Atoi v with
        | None => inl (ErrNotInteger : error)
        | Some n => if n <? 0 then inl (ErrCountNegative : error)
                    else lpos_options args (set_count (if n =? 0 then MaxInt64 else n) opt)
        end
      else if lower_is a "maxlen" then
        match Int.GetPositiveInt v with
        | (_, Some _) => inl (ErrNotInteger : error)
        | (m, None) => lpos_options args (set_max m opt)
        end
      else inl (WrongArgsError "lpos")
  | _ => inr opt
  end.

Definition LPosHandle : TxnHandle := fun args =>
  if (len args <? 2) || negb (go_rem (len args) 2 =? 0) then wrong_args "lpos"
  else
    let! c := get_config in
    let opt := set_readonly (set_exist (set_index [0] (set_max (ScanMaxCount c) opt0))) in
    match lpos_options (drop 2 args) opt with
    | inl e => reply_err e
    | inr opt =>
        let! r := ListHandle args "lpos" opt in
        match r with
        | inl KeyNotFound | inl ReachLimit =>
            ret (if op_count opt >? 0 then RArr [] else RNil)
        | inl e => reply_err e
        | inr v => ret v
        end
    end.

Definition LRemHandle : TxnHandle := fun args =>
  if len args <? 3 then wrong_args "lrem"
  else match Atoi (arg 1 args) with
       | None => reply_err ErrNotInteger
       | Some n =>
           val! max := checkMaxLen (drop 3 args) else reply_err in
           list_reply (ret (RInt 0)) (ListHandle args "lrem" (set_max max (set_count n opt0)))
       end.

Definition LInsertHandle : TxnHandle := fun args =>
  if len args <? 4 then wrong_args "linsert"
  else
    let insert (opt : lOpt) : M reply :=
      val! max := checkMaxLen (drop 4 args) else reply_err in
      list_reply (ret (RInt 0)) (ListHandle args "linsert" (set_max max opt)) in
    if lower_is (arg 1 args) "before" then insert (set_before (set_exist opt0))
    else if lower_is (arg 1 args) "after" then insert (set_after (set_exist opt0))
    else reply_err ErrSyntax.

Definition LIndexHandle : TxnHandle := fun args =>
  if len args <? 2 then wrong_args "lindex"
  else match ParseInt (arg 1 args) with
       | None => reply_err ErrNotInteger
       | Some i =>
           val! max := checkMaxLen (drop 2 args) else reply_err in
           list_reply (ret RNil)
             (ListHandle args "lindex" (set_max max (set_index [i] (set_readonly (set_exist opt0)))))
       end.

Definition LSetHandle : TxnHandle := fun args =>
  if len args <? 3 then wrong_args "lset"
  else match ParseInt (arg 1 args) with
       | None => reply_err ErrNotInteger
       | Some i =>
           val! max := checkMaxLen (drop 3 args) else reply_err in
           list_reply (reply_err ErrNoSuchKey)
             (ListHandle args "lset" (set_max max (set_index [i] (set_exist opt0))))
       end.

(** LPUSH and RPUSH, and LPUSHX and RPUSHX. *)
Definition push (is_left : bool) : TxnHandle := fun args =>
  if len args <? 2 then wrong_args (push_command is_left)
  else val! r := ListHandle args (push_command is_left) opt0 else reply_err in ret r.
Definition pushx (is_left : bool) : TxnHandle := fun args =>
  if len args <? 2 then wrong_args (if is_left then "lpushx" else "rpushx")
  else list_reply (ret (RInt 0)) (ListHandle args (push_command is_left) (set_exist opt0)).

Definition RPushXHandle : TxnHandle := pushx false.
Definition RPushHandle : TxnHandle := push false.
Definition LPushXHandle : TxnHandle := pushx true.
Definition LPushHandle : TxnHandle := push true.

Definition pophandle (args : list bytes) (cmd : string) : M reply :=
  let pop (opt : lOpt) : M reply := list_reply (ret RNil) (ListHandle args cmd opt) in
  if len args =? 2 then
    match Int.GetPositiveInt (arg 1 args) with
    | (count, Some ErrInvalidInt) =>
        if count =? 0 then ret RNil else reply_err ErrNotPositiveInteger
    | (_, Some _) => reply_err ErrNotPositiveInteger
    | (count, None) => pop (set_count count (set_exist opt0))
    end
  else pop (set_exist opt0).

Definition RPopHandle : TxnHandle := fun args =>
  if negb (len args =? 1) && negb (len args =? 2) then wrong_args "rpop" else pophandle args "rpop".
Definition LPopHandle : TxnHandle := fun args =>
  if negb (len args =? 1) && negb (len args =? 2) then wrong_args "lpop" else pophandle args "lpop".

(** What the blocking commands try at each attempt: the first of several lists that
    has an element. The attempts share one option record; a pop that finds nothing
    leaves the fields it reads as they were. *)
Fixpoint listMany (args : list bytes) (cmd : string) : M (error + option (bytes * bytes)) :=
  match args with
  | [] => ret (inr None)
  | a :: args =>
      let! r := ListHandle [a] cmd (set_exist opt0) in
      match r with
      | inl KeyNotFound | inl (Sentinel ErrKeyIsLocked) => listMany args cmd
      | inl e => ret (inl e)
      | inr (RBulk msg) => ret (inr (Some (a, msg)))
      | inr _ => listMany args cmd
      end
  end.

End list.
