(* ===== verification/ZSet.v ===== *)
(** Sorted sets (command/zset.go), but for the algebra, ZSCAN and the blocking pops. A
    member has two entries: its score under the member, and an empty value under score
    and member, which the ranges walk. *)

From S2P Require Import Prelude Xerror GoStd Utils Float Strconv Store Ranges Mem Object Reply.
From S2P Require Import ObjectSpec Generic HashCmd Rank.
From Stdlib Require Import Init.Byte.

#[local] Open Scope Z_scope.

(** ** Options of ZADD *)

Definition CheckLT : Z := 4.
Definition CheckGT : Z := 8.

Record checkOption := mkCheck { co_Check : Z; co_Changed : bool; co_Incr : bool }.
Definition no_check : checkOption := mkCheck 0 false false.
Definition has_check (opt : checkOption) (flags : Z) : bool := negb (Z.land (co_Check opt) flags =? 0).
Definition add_check (flag : Z) (opt : checkOption) : checkOption :=
  mkCheck (Z.lor (co_Check opt) flag) (co_Changed opt) (co_Incr opt).

(** One word: the options with it, an error, or none when it is no option. *)
Definition check_word (str : bytes) (opt : checkOption) : option (error + checkOption) :=
  if lower_is str "nx" then
    Some (if has_check opt (CheckLT + CheckGT + CheckExist) then inl (ErrGTLTNXCompat : error)
          else inr (add_check CheckNotExist opt))
  else if lower_is str "xx" then
    Some (if has_check opt CheckNotExist then inl (ErrGTLTNXCompat : error)
          else inr (add_check CheckExist opt))
  else if lower_is str "gt" then
    Some (if has_check opt CheckNotExist then inl (ErrGTLTNXCompat : error)
          else if has_check opt CheckLT then inl (ErrGTLTCompat : error)
          else inr (add_check CheckGT opt))
  else if lower_is str "lt" then
    Some (if has_check opt CheckNotExist then inl (ErrGTLTNXCompat : error)
          else if has_check opt CheckGT then inl (ErrGTLTCompat : error)
          else inr (add_check CheckLT opt))
  else if lower_is str "ch" then Some (inr (mkCheck (co_Check opt) true (co_Incr opt)))
  else if lower_is str "incr" then Some (inr (mkCheck (co_Check opt) (co_Changed opt) true))
  else None.

(** The options and the arguments behind them. *)
Fixpoint getCheckOption (args : list bytes) (opt : checkOption) : error + (checkOption * list bytes) :=
  match args with
  | [] => inr (opt, [])
  | str :: rest =>
      match check_word str opt with
      | None => inr (opt, args)
      | Some (inl e) => inl e
      | Some (inr opt) => getCheckOption rest opt
      end
  end.

(** ** Keys *)

Definition EncodeScoreKey (score : Number) (member : bytes) : bytes :=
  ScorePrefix :: Number_Encode score ++ member.
Definition EncodeScoreNext (score : Number) : bytes :=
  Bytes.PrefixNext (ScorePrefix :: Number_Encode score).

Definition float_number (f : float64) : Number := mkNumber false 0 f.
Definition zero_number : Number := mkNumber false 0 0.
Definition neg_inf : Number := float_number (float_inf true).
Definition pos_inf : Number := float_number (float_inf false).

Section zset.
Context `{Platform}.

(** [score.Decode(v)]: a slice that is too short panics. *)
Definition decode_number (n : Number) (v : bytes) : M Number :=
  match Number_Decode n v with Some n => ret n | None => panic end.

(** ** Writing members *)

(** Adding (1), changing (0) or removing (-1) a member: both entries and the counter. *)
Definition PutZset (object : Object) (zkey member : bytes) (score oldScore : Number) (delta : Z) :
    M (Z * option error) :=
  let! t := get_txn in
  do! (if delta >=? 0
       then Put zkey (EncodeValue {| v_Timestamp := t_Timestamp t; v_Value := Number_Encode score |})
       else Del zkey)
  else (fun e => ret (0, Some e)) in
  let skey := GetValueBytes object (EncodeScoreKey score member) in
  do! (if delta >=? 0
       then Put skey (EncodeValue {| v_Timestamp := t_Timestamp t; v_Value := [] |})
       else Del skey)
  else (fun e => ret (0, Some e)) in
  if delta =? 0 then
    let! err := Del (GetValueBytes object (EncodeScoreKey oldScore member)) in ret (0, err)
  else
    let! c := get_config in
    if ObjectDisableCount object && DisableCount c then ret (0, None)
    else
      let! (count, err) :=
        GetCount (t_UserId t) (t_DBId t) (o_Hash object) KeyPrefix (sl (o_Value object)) (Some member) in
      match err with
      | None | Some KeyNotFound =>
          let count := set_c (c_Timestamp count) (i64 (c_Value count + delta)) count in
          let! err := SetCount count in
          ret (c_Value count, err)
      | Some e => ret (0, Some e)
      end.

Definition zadd (object : Object) (member : bytes) (score : Number) (opt : checkOption) :
    M (error + (Number * Z)) :=
  if Number_IsNan score then ret (inl (ErrResultNan : error))
  else
    let oldScore := mkNumber (IsGeo object) 0 0 in
    let zkey := GetValueBytes object (EncodeMemberKey member) in
    let put (score oldScore : Number) (count delta : Z) : M (error + (Number * Z)) :=
      let! (_, err) := PutZset object zkey member score oldScore delta in
      ret (match err with Some e => inl e | None => inr (score, count) end) in
    let! r := Get zkey in
    match r with
    | inl KeyNotFound =>
        if has_check opt CheckExist then ret (inr (oldScore, 0)) else put score oldScore 1 1
    | inl e => ret (inl e)
    | inr v =>
        if has_check opt CheckNotExist then ret (inr (oldScore, 0))
        else
          match DecodeValue v with
          | inl e => ret (inl e)
          | inr zvalue =>
              let! oldScore := decode_number oldScore (v_Value zvalue) in
              let score := if co_Incr opt then Number_Add score oldScore else score in
              if Number_IsNan score then ret (inl (ErrResultNan : error))
              else if has_check opt CheckGT && (Number_Compare score oldScore <=? 0)
              then ret (inr (oldScore, 0))
              else if has_check opt CheckLT && (Number_Compare score oldScore >=? 0)
              then ret (inr (oldScore, 0))
              else if Number_Compare score oldScore =? 0 then ret (inr (score, 0))
              else put score oldScore (if co_Changed opt then 1 else 0) 0
          end
    end.

Definition zrem (object : Object) (member : bytes) : M (error + bool) :=
  let zkey := GetValueBytes object (EncodeMemberKey member) in
  let! r := Get zkey in
  match r with
  | inl KeyNotFound => ret (inr false)
  | inl e => ret (inl e)
  | inr v =>
      match DecodeValue v with
      | inl e => ret (inl e)
      | inr zvalue =>
          let! score := decode_number zero_number (v_Value zvalue) in
          let! (_, err) := PutZset object zkey member score zero_number (-1) in
          ret (match err with Some e => inl e | None => inr true end)
      end
  end.

(** [strconv.ParseFloat] of a score. *)
Definition parse_score (a : bytes) : option float64 :=
  match ParseFloat a with
  | Some f => if isNaN f then None else Some f
  | None => None
  end.

Definition ZIncrByHandle : TxnHandle := fun args =>
  if negb (len args =? 3) then wrong_args "zincrby"
  else
    match parse_score (arg 1 args) with
    | None => reply_err ErrInvalidFloat
    | Some score =>
        let! (object, err) := GetOrCreateUUIDObject ZsetType (arg 0 args) in
        match err with
        | Some e => reply_err e
        | None =>
            val! (s, _) := zadd object (arg 2 args) (float_number score) (mkCheck 0 false true)
            else reply_err in
            ret (RFloat (Float64 s))
        end
    end.

Fixpoint zrem_loop (object : Object) (members : list bytes) (count : Z) : M reply :=
  match members with
  | [] => ret (RInt count)
  | m :: members =>
      val! ok := zrem object m else reply_err in
      zrem_loop object members (if ok : bool then count + 1 else count)
  end.

Definition ZRemHandle : TxnHandle := fun args =>
  if len args <? 2 then wrong_args "zrem"
  else
    let! (object, err) := lookup ZsetType (arg 0 args) false in
    match err with
    | Some KeyNotFound => ret (RInt 0)
    | Some e => reply_err e
    | None => zrem_loop object (drop 1 args) 0
    end.

(** The map of members and scores: a member that is given twice keeps its last score. Go
    visits the map in an arbitrary order; members do not affect each other. *)
Fixpoint set_member {A} (m : bytes) (s : A) (l : list (bytes * A)) : list (bytes * A) :=
  match l with
  | [] => [(m, s)]
  | (m', s') :: l => if bool_decide (m = m') then (m, s) :: l else (m', s') :: set_member m s l
  end.

Fixpoint zadd_members (args : list bytes) (l : list (bytes * float64)) : option (list (bytes * float64)) :=
  match args with
  | a :: m :: args =>
      match parse_score a with
      | Some s => zadd_members args (set_member m s l)
      | None => None
      end
  | _ => Some l
  end.

Fixpoint zaddMembers_loop (object : Object) (members : list (bytes * Number)) (opt : checkOption)
    (count : Z) (s : Number) : M (error + (Z * Number)) :=
  match members with
  | [] => ret (inr (count, s))
  | (m, score) :: members =>
      val! (s, c) := zadd object m score opt else (fun e => ret (inl e)) in
      zaddMembers_loop object members opt (count + c) s
  end.

Definition zaddMembers (object : Object) (members : list (bytes * Number)) (opt : checkOption) : M reply :=
  val! (count, s) := zaddMembers_loop object members opt 0 zero_number else reply_err in
  ret (if negb (co_Incr opt) then RInt count
       else if count =? 0 then RNil
       else number_reply s).

Definition ZAddHandle : TxnHandle := fun args =>
  if len args <? 3 then wrong_args "zadd"
  else
    match getCheckOption (drop 1 args) no_check with
    | inl e => reply_err e
    | inr (opt, rest) =>
        if (len rest <? 2) || negb (go_rem (len rest - 2) 2 =? 0) then reply_err ErrSyntax
        else if co_Incr opt && (len rest >? 2) then reply_err ErrSyntax
        else
          let opt := if co_Incr opt then mkCheck (co_Check opt) true true else opt in
          match zadd_members rest [] with
          | None => reply_err ErrInvalidFloat
          | Some members =>
              let! (object, err) := GetOrCreateUUIDObject ZsetType (arg 0 args) in
              match err with
              | Some e => reply_err e
              | None => zaddMembers object (prod_map id float_number <$> members) opt
              end
          end
    end.

(** ** Reading scores *)

Definition zgetMember (object : Object) (m : bytes) : M (error + option Value) :=
  let! r := Get (GetValueBytes object (EncodeMemberKey m)) in
  match r with
  | inl KeyNotFound => ret (inr None)
  | inl e => ret (inl e)
  | inr v =>
      match DecodeValue v with
      | inl e => ret (inl e)
      | inr zvalue => ret (inr (Some zvalue))
      end
  end.

(** What GEOPOS and its family read a member with. *)
Definition zget (typo : Init.Byte.byte) (k m : bytes) : M (error + option (Object * option Value)) :=
  let! (object, err) := lookup typo k false in
  match err with
  | Some KeyNotFound => ret (inr None)
  | Some e => ret (inl e)
  | None =>
      val! zvalue := zgetMember object m else (fun e => ret (inl e)) in
      ret (inr (Some (object, zvalue)))
  end.

(** Missing members give nil. *)
Fixpoint zscore_loop (object : Object) (members : list bytes) (acc : list reply) : M (error + list reply) :=
  match members with
  | [] => ret (inr acc)
  | m :: members =>
      let! r := Get (GetValueBytes object (EncodeMemberKey m)) in
      match r with
      | inl KeyNotFound => zscore_loop object members (acc ++ [RNil])
      | inl e => ret (inl e)
      | inr v =>
          match DecodeValue v with
          | inl e => ret (inl e)
          | inr zvalue =>
              let! score := decode_number zero_number (v_Value zvalue) in
              zscore_loop object members (acc ++ [RFloat (Float64 score)])
          end
      end
  end.

(** [None] when the key is missing. *)
Definition zscore (args : list bytes) : M (error + option (list reply)) :=
  let! (object, err) := lookup ZsetType (arg 0 args) false in
  match err with
  | Some KeyNotFound => ret (inr None)
  | Some e => ret (inl e)
  | None =>
      val! l := zscore_loop object (drop 1 args) [] else (fun e => ret (inl e)) in
      ret (inr (Some l))
  end.

Definition ZMScoreHandle : TxnHandle := fun args =>
  if len args <? 2 then wrong_args "zmscore"
  else
    val! r := zscore args else reply_err in
    ret (RArr (default (replicate (length args - 1) RNil) r)).

Definition ZScoreHandle : TxnHandle := fun args =>
  if negb (len args =? 2) then wrong_args "zscore"
  else
    val! r := zscore args else reply_err in
    ret (match default [] r with x :: _ => x | [] => RNil end).

Definition ZCardHandle : TxnHandle := fun args =>
  if negb (len args =? 1) then wrong_args "zcard" else reply_int (GetCountByKey (arg 0 args) ZsetType).

(** ** Bounds of ranges *)

Record interval (A : Type) := mkInterval {
  iv_min : A; iv_max : A; iv_includeMin : bool; iv_includeMax : bool
}.
#[global] Arguments mkInterval {_}.
#[global] Arguments iv_min {_}.
#[global] Arguments iv_max {_}.
#[global] Arguments iv_includeMin {_}.
#[global] Arguments iv_includeMax {_}.

(** [str[0] == '('], which panics on the empty string. *)
Definition open_bound (str : bytes) : bool * bytes :=
  match str with x28 :: s => (false, s) | s => (true, s) end.

(** Only the lower bound is tested for being empty. *)
Definition checkMinMaxScore (argMin argMax : bytes) : M (error + interval float64) :=
  let str := ToLower argMin in
  let min :=
    if bool_decide (str = bs "inf") || bool_decide (str = bs "+inf") then inl (ErrEmpty : error)
    else if bool_decide (str = bs "-inf") then inr (float_inf true, true)
    else match str with
         | [] => inl (ErrInvalidFloat : error)
         | _ => let '(incl, s) := open_bound str in
                match parse_score s with
                | Some f => inr (f, incl)
                | None => inl (ErrInvalidFloat : error)
                end
         end in
  match min with
  | inl e => ret (inl e)
  | inr (min, includeMin) =>
      let str := ToLower argMax in
      if bool_decide (str = bs "-inf") then ret (inl (ErrEmpty : error))
      else if bool_decide (str = bs "inf") || bool_decide (str = bs "+inf")
      then ret (inr (mkInterval min (float_inf false) includeMin true))
      else match str with
           | [] => panic
           | _ => let '(incl, s) := open_bound str in
                  match parse_score s with
                  | Some f => ret (inr (mkInterval min f includeMin incl))
                  | None => ret (inl (ErrInvalidFloat : error))
                  end
           end
  end.

Definition number_interval (iv : interval float64) : interval Number :=
  mkInterval (float_number (iv_min iv)) (float_number (iv_max iv)) (iv_includeMin iv) (iv_includeMax iv).
Definition all_scores : interval Number := mkInterval neg_inf pos_inf true true.

(** Score and member of an entry: [inl] whether to go on when it is not in the interval. *)
Definition getScoreMember (k prefix : bytes) (iv : interval Number) (reversed : bool) :
    M (bool + (Number * bytes)) :=
  if len k <? len prefix + 8 + 1 then ret (inl true)
  else
    let! score := decode_number (mkNumber (IsInt (iv_min iv)) 0 0) (drop (length prefix + 1) k) in
    let memb := drop (length prefix + 8 + 1) k in
    ret (if (Number_Compare score (iv_min iv) <? 0) || (Number_Compare score (iv_max iv) >? 0) then inl false
         else if negb (iv_includeMin iv) && (Number_Compare score (iv_min iv) =? 0) then inl (negb reversed)
         else if negb (iv_includeMax iv) && (Number_Compare score (iv_max iv) =? 0) then inl reversed
         else inr (score, memb)).

Definition ListByScore {S} (object : Object) (iv : interval Number) (cb : Callback S) (reversed : bool) (s : S) :
    M (S * option error) :=
  let start := GetValueBytes object (EncodeScoreKey (iv_min iv) []) in
  let end_ := GetValueBytes object (EncodeScoreNext (iv_max iv)) in
  let! c := get_config in
  List (if reversed then end_ else start) (if reversed then start else end_) (ScanMaxCount c) cb s.

(** An empty maximum is no bound. *)
Definition ListByMember {S} (object : Object) (iv : interval bytes) (cb : Callback S) (reversed : bool) (s : S) :
    M (S * option error) :=
  let min := if iv_includeMin iv then iv_min iv else Bytes.NextKey (iv_min iv) in
  let start := GetValueBytes object (EncodeMemberKey min) in
  let end_ :=
    match iv_max iv with
    | [] => GetValueBytes object [x6e]
    | max => GetValueBytes object (EncodeMemberKey (if iv_includeMax iv then Bytes.NextKey max else max))
    end in
  let! c := get_config in
  List (if reversed then end_ else start) (if reversed then start else end_) (ScanMaxCount c) cb s.

(** ** Ranks and counts *)

Definition zrank_callback (prefix member : bytes) (limit : Z) : Callback Z :=
  fun count k _ =>
    if len k <? len prefix + 8 + 1 then ret (count, true)
    else if bool_decide (drop (length prefix + 8 + 1) k = member) then ret (count, false)
    else ret (count + 1, count + 1 <? limit).

(** [None] is a missing member. *)
Definition zrank (args : list bytes) (reversed : bool) : M (error + option Z) :=
  let! (object, err) := lookup ZsetType (arg 0 args) false in
  match err with
  | Some KeyNotFound => ret (inr None)
  | Some e => ret (inl e)
  | None =>
      let! r := Get (GetValueBytes object (EncodeMemberKey (arg 1 args))) in
      match r with
      | inl KeyNotFound => ret (inr None)
      | inl e => ret (inl e)
      | inr _ =>
          let! c := get_config in
          let! (count, err) :=
            ListByScore object all_scores
              (zrank_callback (GetValueBytes object []) (arg 1 args) (ScanMaxCount c)) reversed 0 in
          ret (match err with Some e => inl e | None => inr (Some count) end)
      end
  end.

Definition zrank_reply (cmd : string) (reversed : bool) : TxnHandle := fun args =>
  if negb (len args =? 2) then wrong_args cmd
  else
    val! r := zrank args reversed else reply_err in
    ret (match r with Some n => RInt n | None => RNil end).
Definition ZRankHandle : TxnHandle := zrank_reply "zrank" false.
Definition ZRevRankHandle : TxnHandle := zrank_reply "zrevrank" true.

Definition zcount_callback (prefix : bytes) (iv : interval Number) : Callback Z :=
  fun count k _ =>
    let! r := getScoreMember k prefix iv false in
    ret (match r with inl ok => (count, ok) | inr _ => (count + 1, true) end).

Definition ZCountHandle : TxnHandle := fun args =>
  if negb (len args =? 3) then wrong_args "zcount"
  else
    let! r := checkMinMaxScore (arg 1 args) (arg 2 args) in
    match r with
    | inl (Sentinel ErrEmpty) => ret (RInt 0)
    | inl e => reply_err e
    | inr iv =>
        let! (object, err) := lookup ZsetType (arg 0 args) false in
        match err with
        | Some KeyNotFound => ret (RInt 0)
        | Some e => reply_err e
        | None =>
            let iv := number_interval iv in
            let! (count, err) :=
              ListByScore object iv (zcount_callback (GetValueBytes object []) iv) false 0 in
            match err with Some e => reply_err e | None => ret (RInt count) end
        end
    end.

(** ** Ranges *)

Definition BYSCORE : Z := 1.
Definition BYLEX : Z := 2.
Definition BYRANK : Z := 4.

Record zRangeOption := mkRange {
  zo_offset : Z; zo_limit : Z; zo_withScores : bool; zo_reversed : bool; zo_by : Z
}.
Definition set_reversed (r : bool) (o : zRangeOption) : zRangeOption :=
  mkRange (zo_offset o) (zo_limit o) (zo_withScores o) r (zo_by o).
Definition with_scores (o : zRangeOption) : zRangeOption :=
  mkRange (zo_offset o) (zo_limit o) true (zo_reversed o) (zo_by o).

(** [LIMIT offset count]; [args] starts with the word. *)
Definition checkLimit (args : list bytes) : M (error + (Z * Z)) :=
  if (len args <? 2) || (len args >? 3) then ret (inl (ErrSyntax : error))
  else
    match Int.GetNonnegativeInt64 (arg 1 args) with
    | (_, Some _) => ret (inl (ErrOffset : error))
    | (offset, None) =>
        let! c := get_config in
        if len args =? 3 then
          match Int.GetNonnegativeInt64 (arg 2 args) with
          | (_, Some _) => ret (inl (ErrCountNegative : error))
          | (limit, None) => ret (inr (offset, limit))
          end
        else ret (inr (offset, ScanMaxCount c))
    end.

Fixpoint zrange_options (args : list bytes) (opt : zRangeOption) : M (error + zRangeOption) :=
  match args with
  | [] => ret (inr opt)
  | str :: rest =>
      if lower_is str "withscores" then zrange_options rest (with_scores opt)
      else if lower_is str "limit" then
        match rest with
        | a :: b :: rest =>
            val! (offset, limit) := checkLimit [str; a; b] else (fun e => ret (inl e)) in
            zrange_options rest (mkRange offset limit (zo_withScores opt) (zo_reversed opt) (zo_by opt))
        | _ => ret (inl (ErrSyntax : error))
        end
      else if lower_is str "rev" then zrange_options rest (set_reversed true opt)
      else if lower_is str "byscore" then
        if negb (Z.land (zo_by opt) (Z.lnot BYSCORE) =? 0) then ret (inl (ErrSyntax : error))
        else zrange_options rest
               (mkRange (zo_offset opt) (zo_limit opt) (zo_withScores opt) (zo_reversed opt) BYSCORE)
      else if lower_is str "bylex" then
        if negb (Z.land (zo_by opt) (Z.lnot BYLEX) =? 0) then ret (inl (ErrSyntax : error))
        else zrange_options rest
               (mkRange (zo_offset opt) (zo_limit opt) (zo_withScores opt) (zo_reversed opt) BYLEX)
      else ret (inl (ErrSyntax : error))
  end.

Definition checkZRangeOption (args : list bytes) : M (error + zRangeOption) :=
  let! c := get_config in
  val! opt := zrange_options args (mkRange 0 (ScanMaxCount c) false false 0) else (fun e => ret (inl e)) in
  ret (inr (if zo_by opt =? 0
            then mkRange (zo_offset opt) (zo_limit opt) (zo_withScores opt) (zo_reversed opt) BYRANK
            else opt)).

(** What a range collects: the items, the entries seen and those kept. *)
Record collected := { cl_items : list item; cl_count : Z; cl_cnt : Z }.
Definition collected0 : collected := {| cl_items := []; cl_count := 0; cl_cnt := 0 |}.

Definition score_callback (prefix : bytes) (iv : interval Number) (opt : zRangeOption) : Callback collected :=
  fun s k _ =>
    let! r := getScoreMember k prefix iv (zo_reversed opt) in
    match r with
    | inl ok => ret (s, ok)
    | inr (score, memb) =>
        let count := cl_count s + 1 in
        if count <? i64 (zo_offset opt + 1) then
          ret ({| cl_items := cl_items s; cl_count := count; cl_cnt := cl_cnt s |}, true)
        else
          let items := cl_items s ++ IMember memb :: if zo_withScores opt then [IScore score] else [] in
          ret ({| cl_items := items; cl_count := count; cl_cnt := cl_cnt s + 1 |},
               cl_cnt s + 1 <? zo_limit opt)
    end.

Definition objectZRangeByScore (object : Object) (iv : interval Number) (opt : zRangeOption) :
    M (error + list item) :=
  let! (s, err) :=
    ListByScore object iv (score_callback (GetValueBytes object []) iv opt) (zo_reversed opt) collected0 in
  ret (match err with Some e => inl e | None => inr (cl_items s) end).

Definition zrangeByScore (a : bytes) (iv : interval Number) (opt : zRangeOption) : M (error + list item) :=
  let! (object, err) := lookup ZsetType a false in
  match err with
  | Some KeyNotFound => ret (inr [])
  | Some e => ret (inl e)
  | None => objectZRangeByScore object iv opt
  end.

(** [checkStr]: the text behind the bracket, the argument, and whether the bound is
    included. *)
Definition checkStr (a : bytes) : error + (bytes * bytes * bool) :=
  match a with
  | [] => inl (ErrSyntax : error)
  | x28 :: s => inr (s, a, false)
  | x5b :: s => inr (s, a, true)
  | _ => if bool_decide (a = bs "-") || bool_decide (a = bs "+") then inr ([], a, false)
         else inl (ErrMinMaxString : error)
  end.

Definition checkMinMaxLex (argMin argMax : bytes) : error + interval bytes :=
  match checkStr argMin with
  | inl e => inl e
  | inr (min, minOrigin, includeMin) =>
      match checkStr argMax with
      | inl e => inl e
      | inr (max, maxOrigin, includeMax) =>
          let empty (s : bytes) : bool := bool_decide (s = []) in
          if bool_decide (minOrigin = bs "+") || bool_decide (maxOrigin = bs "-") then inl (ErrEmpty : error)
          else if negb (bool_decide (maxOrigin = bs "+")) && empty max then inl (ErrEmpty : error)
          else if negb (empty min) && negb (empty max) &&
                  (bytes_ltb max min || (bool_decide (min = max) && (negb includeMax || negb includeMin)))
          then inl (ErrEmpty : error)
          else inr (mkInterval min max includeMin includeMax)
      end
  end.

Definition lex_callback (object : Object) (prefix : bytes) (opt : zRangeOption) : Callback collected :=
  fun s k v =>
    if len k <? len prefix + 1 then ret (s, true)
    else
      let count := cl_count s + 1 in
      if count <? i64 (zo_offset opt + 1) then
        ret ({| cl_items := cl_items s; cl_count := count; cl_cnt := cl_cnt s |}, true)
      else
        let key := drop (length prefix + 1) k in
        let! scores :=
          if zo_withScores opt then
            let! score := decode_number (mkNumber (IsGeo object) 0 0) (decoded_value v) in
            ret [IScore score]
          else ret [] in
        ret ({| cl_items := cl_items s ++ IMember key :: scores; cl_count := count; cl_cnt := cl_cnt s + 1 |},
             cl_cnt s + 1 <? zo_limit opt).

Definition objectZrangeByLex (object : Object) (iv : interval bytes) (opt : zRangeOption) :
    M (error + list item) :=
  let! (s, err) :=
    ListByMember object iv (lex_callback object (GetValueBytes object []) opt) (zo_reversed opt) collected0 in
  ret (match err with Some e => inl e | None => inr (cl_items s) end).

Definition zrangeByLex (a : bytes) (iv : interval bytes) (opt : zRangeOption) : M (error + list item) :=
  let! (object, err) := lookup ZsetType a false in
  match err with
  | Some KeyNotFound => ret (inr [])
  | Some e => ret (inl e)
  | None => objectZrangeByLex object iv opt
  end.

Definition checkMinMaxRank (args : list bytes) : error + (Z * Z) :=
  match ParseInt (arg 1 args), ParseInt (arg 2 args) with
  | Some start, Some end_ => inr (start, end_)
  | _, _ => inl (ErrNotInteger : error)
  end.

Definition objectZrangeByRank (object : Object) (start end_ : Z) (opt : zRangeOption) :
    M (error + list item) :=
  let '(start, end_) := if zo_reversed opt then (from_end end_, from_end start) else (start, end_) in
  val! l := rangeRank object start end_ (negb (zo_withScores opt)) else (fun e => ret (inl e)) in
  ret (inr (if zo_reversed opt then ReversePair l (zo_withScores opt) else l)).

Definition zrange (args : list bytes) (opt : zRangeOption) : M (error + list item) :=
  let a := if zo_reversed opt then arg 2 args else arg 1 args in
  let b := if zo_reversed opt then arg 1 args else arg 2 args in
  if zo_by opt =? BYSCORE then
    let! r := checkMinMaxScore a b in
    match r with
    | inl (Sentinel ErrEmpty) => ret (inr [])
    | inl e => ret (inl e)
    | inr iv => zrangeByScore (arg 0 args) (number_interval iv) opt
    end
  else if zo_by opt =? BYLEX then
    match checkMinMaxLex a b with
    | inl (Sentinel ErrEmpty) => ret (inr [])
    | inl e => ret (inl e)
    | inr iv => zrangeByLex (arg 0 args) iv opt
    end
  else
    match checkMinMaxRank args with
    | inl e => ret (inl e)
    | inr (start, end_) =>
        let! (object, err) := lookup UnknownType (arg 0 args) false in
        match err with
        | Some KeyNotFound => ret (inr [])
        | Some e => ret (inl e)
        | None =>
            if negb (beq (o_Type object) ZsetType) && negb (beq (o_Type object) GeoType)
            then ret (inl (WrongTypeErr : error))
            else objectZrangeByRank object start end_ opt
        end
    end.

Definition reply_items (m : M (error + list item)) : M reply :=
  val! l := m else reply_err in ret (RArr (item_reply <$> l)).

Definition ZRangeHandle : TxnHandle := fun args =>
  if len args <? 3 then wrong_args "zrange"
  else
    val! opt := checkZRangeOption (drop 3 args) else reply_err in
    if zo_limit opt =? 0 then ret (RArr []) else reply_items (zrange args opt).

Definition ZRevRangeHandle : TxnHandle := fun args =>
  if negb (len args =? 3) && negb (len args =? 4) then wrong_args "zrevrange"
  else if (len args =? 4) && negb (lower_is (arg 3 args) "withscores") then wrong_args "zrevrange"
  else
    let withScores := len args =? 4 in
    match checkMinMaxRank args with
    | inl e => reply_err e
    | inr (start, end_) =>
        let! (object, err) := lookup ZsetType (arg 0 args) false in
        match err with
        | Some KeyNotFound => ret (RArr [])
        | Some e => reply_err e
        | None =>
            let! c := get_config in
            reply_items (objectZrangeByRank object start end_ (mkRange 0 (ScanMaxCount c) withScores true 0))
        end
    end.

(** The options of these commands do not decide the direction. *)
Definition zrangeByScoreHandle (args : list bytes) (iv : interval Number) (reversed : bool) :
    M (error + list item) :=
  val! opt := checkZRangeOption (drop 3 args) else (fun e => ret (inl e)) in
  if zo_limit opt =? 0 then ret (inr []) else zrangeByScore (arg 0 args) iv (set_reversed reversed opt).

Definition by_score_handle (cmd : string) (reversed : bool) : TxnHandle := fun args =>
  if len args <? 3 then wrong_args cmd
  else
    let! r := checkMinMaxScore (arg (if reversed then 2 else 1) args) (arg (if reversed then 1 else 2) args) in
    match r with
    | inl (Sentinel ErrEmpty) => ret (RArr [])
    | inl e => reply_err e
    | inr iv => reply_items (zrangeByScoreHandle args (number_interval iv) reversed)
    end.
Definition ZRangeByScoreHandle : TxnHandle := by_score_handle "zrangebyscore" false.
Definition ZRevRangeByScoreHandle : TxnHandle := by_score_handle "zrevrangebyscore" true.

Definition zrangeByLexHandle (args : list bytes) (iv : interval bytes) (reversed : bool) :
    M (error + list item) :=
  let! c := get_config in
  val! (offset, limit) := (if len args >? 3 then checkLimit (drop 3 args) else ret (inr (0, ScanMaxCount c)))
  else (fun e => ret (inl e)) in
  if (len args >? 3) && (limit =? 0) then ret (inr [])
  else zrangeByLex (arg 0 args) iv (mkRange offset limit false reversed 0).

Definition by_lex_handle (cmd : string) (reversed : bool) : TxnHandle := fun args =>
  if len args <? 3 then wrong_args cmd
  else
    match checkMinMaxLex (arg (if reversed then 2 else 1) args) (arg (if reversed then 1 else 2) args) with
    | inl (Sentinel ErrEmpty) => ret EmptySlice
    | inl e => reply_err e
    | inr iv => reply_items (zrangeByLexHandle args iv reversed)
    end.
Definition ZRangeByLexHandle : TxnHandle := by_lex_handle "zrangebylex" false.
Definition ZRevRangeByLexHandle : TxnHandle := by_lex_handle "zrevrangebylex" true.

(** No bounds at all count the whole set. *)
Definition ZLexCountHandle : TxnHandle := fun args =>
  if negb (len args =? 3) then wrong_args "zlexcount"
  else
    match checkMinMaxLex (arg 1 args) (arg 2 args) with
    | inl (Sentinel ErrEmpty) => ret (RInt 0)
    | inl e => reply_err e
    | inr iv =>
        if bool_decide (iv_max iv = []) && bool_decide (iv_min iv = [])
        then reply_int (GetCountByKey (arg 0 args) ZsetType)
        else
          val! l := zrangeByLexHandle args iv false else reply_err in
          ret (RInt (len l))
    end.

(** ** Removing ranges *)

(** Members and scores in turn; anything else fails a type assertion or an index. *)
Fixpoint ZremValues (object : Object) (l : list item) : M (option error) :=
  match l with
  | [] => ret None
  | IMember member :: IScore score :: l =>
      let zkey := GetValueBytes object (EncodeMemberKey member) in
      let! (_, err) := PutZset object zkey member score zero_number (-1) in
      match err with Some e => ret (Some e) | None => ZremValues object l end
  | _ => panic
  end.

Fixpoint ZaddValues (object : Object) (l : list item) (count : Z) : M (error + Z) :=
  match l with
  | [] => ret (inr count)
  | IMember member :: IScore score :: l =>
      val! (_, c) := zadd object member score no_check else (fun e => ret (inl e)) in
      ZaddValues object l (count + c)
  | _ => panic
  end.

(** What a removal by range returns: the number of members, half the items. *)
Definition removed (object : Object) (m : M (error + list item)) : M (error + Z) :=
  val! l := m else (fun e => ret (inl e)) in
  let! err := ZremValues object l in
  ret (match err with Some e => inl e | None => inr (go_div (len l) 2) end).

Definition objectZpop (object : Object) (limit : Z) (reversed : bool) : M (error + list item) :=
  val! l := objectZRangeByScore object all_scores (mkRange 0 limit true reversed 0)
  else (fun e => ret (inl e)) in
  let! err := ZremValues object l in
  ret (match err with Some e => inl e | None => inr l end).

Definition zpop (a : bytes) (limit : Z) (reversed : bool) : M (error + list item) :=
  let! (object, err) := lookup ZsetType a false in
  match err with
  | Some KeyNotFound => ret (inr [])
  | Some e => ret (inl e)
  | None => objectZpop object limit reversed
  end.

Definition zpop_handle (cmd : string) (reversed : bool) : TxnHandle := fun args =>
  if (len args <? 1) || (len args >? 2) then wrong_args cmd
  else if len args =? 2 then
    match Int.GetNonnegativeInt64 (arg 1 args) with
    | (_, Some _) => reply_err ErrCountNegative
    | (limit, None) => if limit =? 0 then ret (RArr []) else reply_items (zpop (arg 0 args) limit reversed)
    end
  else reply_items (zpop (arg 0 args) 1 reversed).
Definition ZPopMinHandle : TxnHandle := zpop_handle "zpopmin" false.
Definition ZPopMaxHandle : TxnHandle := zpop_handle "zpopmax" true.

(** What the blocking pops try first: one member of the first key that has one. *)
Fixpoint zpopMany (args : list bytes) (reversed : bool) : M (error + option (list reply)) :=
  match args with
  | [] => ret (inr None)
  | a :: args =>
      let! (object, err) := lookup ZsetType a false in
      match err with
      | Some KeyNotFound => zpopMany args reversed
      | Some e => ret (inl e)
      | None =>
          val! l := objectZpop object 1 reversed else (fun e => ret (inl e)) in
          match l with
          | [] => zpopMany args reversed
          | [_] => panic
          | m :: s :: _ => ret (inr (Some [RBulk a; item_reply m; item_reply s]))
          end
      end
  end.

Definition objectZremRangeByRank (object : Object) (start end_ : Z) : M (error + Z) :=
  removed object (objectZrangeByRank object start end_ (mkRange 0 0 true false 0)).

Definition ZRemRangeByRankHandle : TxnHandle := fun args =>
  if negb (len args =? 3) then wrong_args "zremrangebyrank"
  else
    match checkMinMaxRank args with
    | inl e => reply_err e
    | inr (start, end_) =>
        let! (object, err) := lookup ZsetType (arg 0 args) false in
        match err with
        | Some KeyNotFound => ret (RInt 0)
        | Some e => reply_err e
        | None => reply_int (objectZremRangeByRank object start end_)
        end
    end.

Definition ZRemRangeByScoreHandle : TxnHandle := fun args =>
  if negb (len args =? 3) then wrong_args "zremrangebyscore"
  else
    let! r := checkMinMaxScore (arg 1 args) (arg 2 args) in
    match r with
    | inl (Sentinel ErrEmpty) => ret (RInt 0)
    | inl e => reply_err e
    | inr iv =>
        let! (object, err) := lookup ZsetType (arg 0 args) false in
        match err with
        | Some KeyNotFound => ret (RInt 0)
        | Some e => reply_err e
        | None =>
            let! c := get_config in
            reply_int (removed object
              (objectZRangeByScore object (number_interval iv) (mkRange 0 (ScanMaxCount c) true false 0)))
        end
    end.

Definition ZRemRangeByLexHandle : TxnHandle := fun args =>
  if negb (len args =? 3) then wrong_args "zremrangebylex"
  else
    match checkMinMaxLex (arg 1 args) (arg 2 args) with
    | inl (Sentinel ErrEmpty) => ret (RInt 0)
    | inl e => reply_err e
    | inr iv =>
        let! (object, err) := lookup ZsetType (arg 0 args) false in
        match err with
        | Some KeyNotFound => ret (RInt 0)
        | Some e => reply_err e
        | None =>
            let! c := get_config in
            reply_int (removed object (objectZrangeByLex object iv (mkRange 0 (ScanMaxCount c) true false 0)))
        end
    end.

(** The members a destination gets are those read before it is deleted. *)
Definition ZRangeStoreHandle : TxnHandle := fun args =>
  if len args <? 4 then wrong_args "zrangestore"
  else
    val! opt := checkZRangeOption (drop 4 args) else reply_err in
    val! l := zrange (drop 1 args) (with_scores opt) else reply_err in
    let create := len l >? 0 in
    let! (object, err) := DeleteThenCreateUUIDObject ZsetType (arg 0 args) create in
    match err with
    | Some e => reply_err e
    | None => if negb create then ret (RInt 0) else reply_int (ZaddValues object l 0)
    end.

(** Items repeated at random to reach a negative count. *)
Fixpoint zrand_loop (n : nat) (cur : Z) (withScores : bool) (l : list item) : M (list item) :=
  match n with
  | O => ret l
  | S n =>
      let! r := rand_Int63n cur in
      let item (i : Z) := nth (Z.to_nat i) l (IMember []) in
      zrand_loop n cur withScores (l ++ if withScores then [item (2 * r); item (2 * r + 1)] else [item r])
  end.

Definition ZRandMemberHandle : TxnHandle := fun args =>
  if (len args <? 1) || (len args >? 3) then wrong_args "zrandmember"
  else
    let single := len args =? 1 in
    match (if len args >=? 2 then Atoi (arg 1 args) else Some 0) with
    | None => reply_err ErrNotInteger
    | Some count =>
        if (len args >=? 2) && (count =? 0) then ret (RArr [])
        else if (len args =? 3) && negb (lower_is (arg 2 args) "withscores") then wrong_args "zrandmember"
        else
          let ucount := if single then 1 else if count >? 0 then count else i64 (- count) in
          let withScores := len args =? 3 in
          val! l := zrangeByScore (arg 0 args) all_scores (mkRange 0 ucount withScores false 0)
          else reply_err in
          if single then ret (match l with [] => RNil | x :: _ => item_reply x end)
          else
            let cur := if withScores then go_div (len l) 2 else len l in
            let! l :=
              if (count <? 0) && (cur <? ucount) then zrand_loop (Z.to_nat (ucount - cur)) cur withScores l
              else ret l in
            ret (RArr (item_reply <$> l))
    end.

End zset.
