(* ===== verification/Scan.v ===== *)
(** KEYS, SCAN and ALL (command/generic.go) and HSCAN, SSCAN and ZSCAN (command/hash.go,
    [TypeScan]). The cache that keeps the server-side cursors is the code of a library;
    a command reads it through [cache_Get] and returns what it writes to it. *)

From S2P Require Import Prelude Xerror GoStd Utils Float Strconv Glob Store Mem Object Reply.
From S2P Require Import ObjectSpec Generic HashCmd ZSet.
From Stdlib Require Import Init.Byte.

#[local] Open Scope Z_scope.

(** ** [base64.StdEncoding] *)

Definition base64_alphabet : bytes := bs "ABCDEFGHIJKLMNOPQRSTUVWXYZabcdefghijklmnopqrstuvwxyz0123456789+/".
Definition base64_char (n : Z) : Init.Byte.byte := nth (Z.to_nat n) base64_alphabet x00.
Definition pad : Init.Byte.byte := x3d.

Fixpoint EncodeToString (l : bytes) : bytes :=
  match l with
  | [] => []
  | [a] => [base64_char (b2z a / 4); base64_char (b2z a mod 4 * 16); pad; pad]
  | [a; b] =>
      [base64_char (b2z a / 4); base64_char (b2z a mod 4 * 16 + b2z b / 16);
       base64_char (b2z b mod 16 * 4); pad]
  | a :: b :: c :: l =>
      base64_char (b2z a / 4) :: base64_char (b2z a mod 4 * 16 + b2z b / 16) ::
      base64_char (b2z b mod 16 * 4 + b2z c / 64) :: base64_char (b2z c mod 64) :: EncodeToString l
  end.

Fixpoint index_in (c : Init.Byte.byte) (l : bytes) (n : Z) : option Z :=
  match l with
  | [] => None
  | x :: l => if Byte.eqb c x then Some n else index_in c l (n + 1)
  end.
Definition base64_value (c : Init.Byte.byte) : option Z := index_in c base64_alphabet 0.

(** Groups of four characters; padding ends the text. *)
Fixpoint decode_groups (l : bytes) : option bytes :=
  match l with
  | [] => Some []
  | a :: b :: c :: d :: l =>
      a ← base64_value a; b ← base64_value b;
      let first := z2b (a * 4 + b / 16) in
      if Byte.eqb c pad then
        if Byte.eqb d pad && bool_decide (l = []) then Some [first] else None
      else
        c ← base64_value c;
        let second := z2b (b mod 16 * 16 + c / 4) in
        if Byte.eqb d pad then if bool_decide (l = []) then Some [first; second] else None
        else
          d ← base64_value d;
          l ← decode_groups l;
          Some (first :: second :: z2b (c mod 4 * 64 + d) :: l)
  | _ => None
  end.
(** Line breaks are skipped; [None] is an error. *)
Definition DecodeString (l : bytes) : option bytes :=
  decode_groups (base.filter (fun c => Byte.eqb c x0a || Byte.eqb c x0d = false) l).

Example base64_ex : EncodeToString (bs "ab") = bs "YWI=" /\ EncodeToString (bs "abcd") = bs "YWJjZA==" /\
  DecodeString (bs "YWJjZA==") = Some (bs "abcd") /\ DecodeString (bs "YWJ") = None.
Proof. vm_compute. auto. Qed.

(** ** Options *)

Inductive CursorType := ClusterCursor | ServerCursor.

Record scanOptions := mkScan {
  so_count : Z; so_match : bytes; so_withValue : bool; so_start : bytes; so_end : bytes;
  so_typo : Init.Byte.byte; so_cursor : CursorType
}.

Definition scan_defaults : scanOptions := mkScan 10 [x2a] false [] [] GeneralType ServerCursor.

(** What the code uses of the cache and of TiKV's timestamps. *)
Class Cursors := {
  cache_Get : bytes -> option bytes;
  ExtractPhysical : Z -> Z;
  ExtractLogical : Z -> Z;
  ComposeTS : Z -> Z -> Z
}.

Section scan.
Context `{Platform}.

Fixpoint getScanOptions_loop (opts : list bytes) (o : scanOptions) : M (error + scanOptions) :=
  match opts with
  | [] => ret (inr o)
  | a :: opts =>
      if lower_is a "withvalue" then
        getScanOptions_loop opts
          (mkScan (so_count o) (so_match o) true (so_start o) (so_end o) (so_typo o) (so_cursor o))
      else
        match opts with
        | [] => ret (inl (WrongArgsError "scan"))
        | v :: opts =>
            if lower_is a "start" then
              getScanOptions_loop opts
                (mkScan (so_count o) (so_match o) (so_withValue o) v (so_end o) (so_typo o) (so_cursor o))
            else if lower_is a "end" then
              getScanOptions_loop opts
                (mkScan (so_count o) (so_match o) (so_withValue o) (so_start o) v (so_typo o) (so_cursor o))
            else if lower_is a "match" then
              getScanOptions_loop opts
                (mkScan (so_count o) v (so_withValue o) (so_start o) (so_end o) (so_typo o) (so_cursor o))
            else if lower_is a "count" then
              match Atoi v with
              | None => ret (inl (ErrSyntax : error))
              | Some count =>
                  if count <=? 0 then ret (inl (ErrCountNegative : error))
                  else
                    let! c := get_config in
                    getScanOptions_loop opts
                      (mkScan (Z.min count (ScanMaxCount c)) (so_match o) (so_withValue o) (so_start o) (so_end o)
                         (so_typo o) (so_cursor o))
              end
            else if lower_is a "type" then
              let! typo := getType v in
              getScanOptions_loop opts
                (mkScan (so_count o) (so_match o) (so_withValue o) (so_start o) (so_end o) typo (so_cursor o))
            else if lower_is a "cursor" then
              if lower_is v "cluster" then
                getScanOptions_loop opts
                  (mkScan (so_count o) (so_match o) (so_withValue o) (so_start o) (so_end o) (so_typo o) ClusterCursor)
              else if lower_is v "server" then
                getScanOptions_loop opts
                  (mkScan (so_count o) (so_match o) (so_withValue o) (so_start o) (so_end o) (so_typo o) ServerCursor)
              else ret (inl (ErrSyntax : error))
            else ret (inl (ErrSyntax : error))
        end
  end.
Definition getScanOptions (opts : list bytes) : M (error + scanOptions) := getScanOptions_loop opts scan_defaults.

(** [glob.Match]; it terminates. *)
Definition glob_Match (pattern name : bytes) : M (error + bool) :=
  match Match pattern name with Some r => ret r | None => diverge end.

Section cursors.
Context `{Cursors}.

Definition GetCursor (key : bytes) : option bytes := cache_Get key.

(** The number of a server-side cursor, with what is stored under it. *)
Definition SetCursorByTimestamp (typo : Init.Byte.byte) (key mtch : bytes) (timestamp : Z) (data : bytes) :
    Z * (bytes * bytes) :=
  let physical := Z.land (ExtractPhysical timestamp) 4095 in
  let o := ComposeTS physical (ExtractLogical timestamp) in
  (o, (typo :: bs ":" ++ key ++ bs ":" ++ mtch ++ bs ":" ++ FormatUint o, data)).

(** Where a scan starts: behind the last key of the cursor. *)
Definition checkCursor (o : scanOptions) (cursor cursorPrefix start : bytes) : M (error + bytes) :=
  let r :=
    match so_cursor o with
    | ServerCursor =>
        match ParseInt cursor with
        | None => inl (InvalidCursor : error)
        | Some n =>
            if n <? 0 then inl (InvalidCursor : error)
            else if n >? 0 then
              match GetCursor (cursorPrefix ++ bs ":" ++ FormatInt n) with
              | Some cur => inr (start ++ Bytes.NextKey cur)
              | None => inl (NotFoundCursor : error)
              end
            else inr start
        end
    | ClusterCursor =>
        if bool_decide (cursor = bs "0") then inr start
        else match DecodeString cursor with
             | None => inl (InvalidCursor : error)
             | Some cur => inr (start ++ Bytes.NextKey cur)
             end
    end in
  match r with
  | inl e => ret (inl e)
  | inr start =>
      val! _ := glob_Match (so_match o) start else (fun e => ret (inl e)) in
      ret (inr start)
  end.

(** ** Scanning keys *)

Record scanned := {
  sd_ret : list bytes; sd_last : option bytes; sd_err : option error; sd_count : Z
}.
Definition scanned0 : scanned := {| sd_ret := []; sd_last := None; sd_err := None; sd_count := 0 |}.

Definition scan_callback (o : scanOptions) : Callback scanned :=
  fun s key value =>
    let s := {| sd_ret := sd_ret s; sd_last := Some key; sd_err := sd_err s; sd_count := sd_count s |} in
    match GetObjectFromKV key value with
    | inl _ => ret (s, true)
    | inr object =>
        let! r := glob_Match (so_match o) (o_Key object) in
        match r with
        | inl e => ret ({| sd_ret := sd_ret s; sd_last := Some key; sd_err := Some e; sd_count := sd_count s |}, false)
        | inr matched =>
            let s := {| sd_ret := sd_ret s; sd_last := Some key; sd_err := None; sd_count := sd_count s |} in
            let! t := get_txn in
            if negb matched then ret (s, true)
            else if negb (beq (so_typo o) GeneralType) && negb (beq (o_Type object) (so_typo o)) then ret (s, true)
            else if (o_TTL object >? 0) && snd (IsExpired t object) then ret (s, true)
            else
              let count := sd_count s + 1 in
              let l := sd_ret s ++ o_Key object :: if so_withValue o then [sl (o_Value object)] else [] in
              ret ({| sd_ret := l; sd_last := Some key; sd_err := None; sd_count := count |},
                   count <? so_count o)
        end
    end.

(** The keys, and the last entry visited when there may be more. *)
Definition scan (start end_ : bytes) (o : scanOptions) : M (error + (list bytes * option bytes)) :=
  let! c := get_config in
  let! (s, err) := List start end_ (ScanMaxCount c) (scan_callback o) scanned0 in
  match sd_err s with
  | Some e => ret (inl e)
  | None =>
      match err with
      | None => ret (inr (sd_ret s, if len (sd_ret s) <? so_count o then None else sd_last s))
      | Some ReachLimit => ret (inr (sd_ret s, sd_last s))
      | Some e => ret (inl e)
      end
  end.

Definition KeysHandle : TxnHandle := fun args =>
  if negb (len args =? 1) then wrong_args "keys"
  else
    let mtch := arg 0 args in
    let! t := get_txn in
    let! c := get_config in
    let start := GetKeyBytes DataPrefix (t_UserId t) (t_DBId t) KeyPrefix [Prefix mtch] in
    let end_ := Bytes.PrefixNext start in
    val! (l, _) := scan start end_ (mkScan (ScanMaxCount c) mtch false [] [] GeneralType ServerCursor) else reply_err in
    ret (bulks l).

(** A reply with what the command writes to the cache. *)
Definition CursorHandle : Type := list bytes -> M (reply * list (bytes * bytes)).
Definition no_cursor (m : M reply) : M (reply * list (bytes * bytes)) := let! r := m in ret (r, []).

(** The cursor and the results; cursor 0 when the scan is over. *)
Definition page (o : scanOptions) (typo : Init.Byte.byte) (key : bytes) (prefixLen : nat) (last : option bytes)
    (results : reply) : M (reply * list (bytes * bytes)) :=
  if len (sl last) <=? Z.of_nat prefixLen then ret (RArr [RGoInt 0; results], [])
  else
    let cur := drop prefixLen (sl last) in
    match so_cursor o with
    | ServerCursor =>
        let! t := get_txn in
        let '(n, set) := SetCursorByTimestamp typo key (so_match o) (t_Timestamp t) cur in
        ret (RArr [RGoUint n; results], [set])
    | ClusterCursor => ret (RArr [RBulk (EncodeToString cur); results], [])
    end.

Definition ScanHandle : CursorHandle := fun args =>
  if len args <? 1 then no_cursor (wrong_args "scan")
  else
    val! o := getScanOptions (drop 1 args) else (fun e => no_cursor (reply_err e)) in
    if beq (so_typo o) UnknownType then ret (EmptyCursor, [])
    else
      let! t := get_txn in
      let prefix := Prefix (so_match o) in
      let key_of (k : bytes) := GetKeyBytes DataPrefix (t_UserId t) (t_DBId t) KeyPrefix [k] in
      let p := key_of prefix in
      if negb (bool_decide (so_start o = [])) && negb (has_prefix prefix (so_start o))
      then no_cursor (reply_err ErrStartConflictsWithPrefix)
      else if negb (bool_decide (so_end o = [])) && negb (has_prefix prefix (so_end o))
      then no_cursor (reply_err ErrEndConflictsWithPrefix)
      else
        let start := if bool_decide (so_start o = []) then p else key_of (so_start o) in
        let end_ := if bool_decide (so_end o = []) then Bytes.PrefixNext p else key_of (so_end o) in
        let! r := checkCursor o (arg 0 args) (GeneralType :: bs ":" ++ so_typo o :: bs ":" ++ so_match o) start in
        match r with
        | inl (Sentinel NotFoundCursor) => ret (RArr [RGoInt 0; EmptySlice], [])
        | inl e => no_cursor (reply_err e)
        | inr start =>
            val! (l, last) := scan start end_ o else (fun e => no_cursor (reply_err e)) in
            page o GeneralType [so_typo o] (length p) last (bulks l)
        end.

(** ALL lists the raw store. *)
Definition AllHandle : TxnHandle := fun args =>
  if len args >? 1 then wrong_args "all"
  else
    let start := if len args =? 1 then arg 0 args else [x00] in
    let! (l, err) :=
      List start [xff] 10000 (fun l key value => ret (l ++ [RArr [RBulk key; RBulk value]], true)) [] in
    match err with Some e => reply_err e | None => ret (RArr l) end.

(** ** Scanning a collection *)

Record type_scanned := {
  ts_ret : list reply; ts_last : option bytes; ts_err : option error; ts_count : Z
}.

(** The test for an error of the pattern looks at another variable: the listing goes on,
    and the last error remains. *)
Definition type_scan_callback (o : scanOptions) (typo : Init.Byte.byte) (getType : Z) (originPrefix prefix : bytes) :
    Callback type_scanned :=
  fun s key value =>
    let s := {| ts_ret := ts_ret s; ts_last := Some key; ts_err := ts_err s; ts_count := ts_count s |} in
    if len key <? len prefix then ret (s, true)
    else
      let hkey := drop (length originPrefix) key in
      let! r := glob_Match (so_match o) hkey in
      match r with
      | inl e => ret ({| ts_ret := ts_ret s; ts_last := Some key; ts_err := Some e; ts_count := ts_count s |}, true)
      | inr false => ret ({| ts_ret := ts_ret s; ts_last := Some key; ts_err := None; ts_count := ts_count s |}, true)
      | inr true =>
          let l := if has getType OnlyKey then ts_ret s ++ [RBulk hkey] else ts_ret s in
          let! l :=
            if negb (has getType OnlyValue) then ret l
            else if negb (beq typo ZsetType) then ret (l ++ [RBulk (decoded_value value)])
            else
              let! score := decode_number zero_number (decoded_value value) in
              ret (l ++ [RFloat (Float64 score)]) in
          let count := ts_count s + 1 in
          ret ({| ts_ret := l; ts_last := Some key; ts_err := None; ts_count := count |}, count <? so_count o)
      end.

Definition TypeScan (typo : Init.Byte.byte) (getType : Z) : CursorHandle := fun args =>
  match GetKeyFuncs typo with
  | None => no_cursor (reply_err ErrNotSupport)
  | Some getKeyFunc =>
      val! o := getScanOptions (drop 2 args) else (fun e => no_cursor (reply_err e)) in
      let! (object, err) := lookup typo (arg 0 args) false in
      match err with
      | Some KeyNotFound => ret (EmptyCursor, [])
      | Some e => no_cursor (reply_err e)
      | None =>
          let originPrefix := getKeyFunc object [] in
          let prefix := getKeyFunc object (Prefix (so_match o)) in
          let end_ := Bytes.PrefixNext prefix in
          let! r := checkCursor o (arg 1 args) (typo :: bs ":" ++ arg 0 args ++ bs ":" ++ so_match o) prefix in
          match r with
          | inl (Sentinel NotFoundCursor) => ret (RArr [RGoInt 0; EmptySlice], [])
          | inl e => no_cursor (reply_err e)
          | inr start =>
              let! c := get_config in
              let! (s, err) :=
                List start end_ (ScanMaxCount c) (type_scan_callback o typo getType originPrefix prefix)
                  {| ts_ret := []; ts_last := None; ts_err := None; ts_count := 0 |} in
              match ts_err s, err with
              | Some e, _ => no_cursor (reply_err e)
              | None, None =>
                  page o typo (arg 0 args) (length prefix)
                    (if ts_count s <? so_count o then None else ts_last s) (RArr (ts_ret s))
              | None, Some ReachLimit => page o typo (arg 0 args) (length prefix) (ts_last s) (RArr (ts_ret s))
              | None, Some e => no_cursor (reply_err e)
              end
          end
      end
  end.

Definition HScanHandle : CursorHandle := fun args =>
  if len args <? 2 then no_cursor (wrong_args "hscan") else TypeScan HashType BothKV args.
Definition SScanHandle : CursorHandle := fun args =>
  if len args <? 2 then no_cursor (wrong_args "sscan") else TypeScan SetType OnlyKey args.
Definition ZScanHandle : CursorHandle := fun args =>
  if len args <? 2 then no_cursor (wrong_args "zscan") else TypeScan ZsetType BothKV args.

End cursors.
End scan.

(** ** Properties *)

Lemma base64_value_char n : 0 <= n < 64 -> base64_value (base64_char n) = Some n.
Proof.
  intros Hn. replace n with (Z.of_nat (Z.to_nat n)) by lia.
  assert (Z.to_nat n < 64)%nat as Hm by lia. revert Hm. generalize (Z.to_nat n) as m. clear n Hn. intros m Hm.
  do 64 (destruct m as [|m]; [vm_compute; reflexivity|]). lia.
Qed.

Lemma base64_char_pad n : 0 <= n < 64 -> Byte.eqb (base64_char n) pad = false.
Proof.
  intros Hn. destruct (Byte.eqb (base64_char n) pad) eqn:E; [|done].
  apply Byte.byte_dec_bl in E. pose proof (base64_value_char n Hn) as Hv. rewrite E in Hv. by vm_compute in Hv.
Qed.

Lemma base64_char_plain n : 0 <= n < 64 ->
  Byte.eqb (base64_char n) x0a || Byte.eqb (base64_char n) x0d = false.
Proof.
  intros Hn. apply orb_false_iff. split.
  - destruct (Byte.eqb _ _) eqn:E; [|done]. apply Byte.byte_dec_bl in E.
    pose proof (base64_value_char n Hn) as Hv. rewrite E in Hv. by vm_compute in Hv.
  - destruct (Byte.eqb _ _) eqn:E; [|done]. apply Byte.byte_dec_bl in E.
    pose proof (base64_value_char n Hn) as Hv. rewrite E in Hv. by vm_compute in Hv.
Qed.

Lemma z2b_is n b : n = b2z b -> z2b n = b.
Proof. intros ->. apply b2z_inj. rewrite b2z_z2b. apply Z.mod_small, b2z_range. Qed.

Lemma bytes3_ind (P : bytes -> Prop) :
  P [] -> (forall a, P [a]) -> (forall a b, P [a; b]) -> (forall a b c l, P l -> P (a :: b :: c :: l)) -> forall l, P l.
Proof.
  intros H0 H1 H2 H3 l. assert (forall n l, (length l <= n)%nat -> P l) as Hn; [|by eapply Hn].
  clear l. induction n as [|n IH]; intros [|a [|b [|c l]]] Hl; simpl in Hl; auto; try lia. apply H3, IH. lia.
Qed.

(** The parts of the bytes of a group. *)
Lemma byte_parts (b : Init.Byte.byte) :
  0 <= b2z b / 4 < 64 /\ 0 <= b2z b mod 4 < 4 /\ 0 <= b2z b / 16 < 16 /\ 0 <= b2z b mod 16 < 16 /\
  0 <= b2z b / 64 < 4 /\ 0 <= b2z b mod 64 < 64 /\
  b2z b = 4 * (b2z b / 4) + b2z b mod 4 /\ b2z b = 16 * (b2z b / 16) + b2z b mod 16 /\
  b2z b = 64 * (b2z b / 64) + b2z b mod 64.
Proof.
  pose proof (b2z_range b) as Hb. set (x := b2z b) in *. clearbody x.
  split_and!; Z.to_euclidean_division_equations; lia.
Qed.

Lemma encoded_plain l : base.filter (fun c => Byte.eqb c x0a || Byte.eqb c x0d = false) (EncodeToString l) = EncodeToString l.
Proof.
  apply Ranges.filter_all. intros c Hc. revert Hc. induction l as [|a|a b|a b c' l IH] using bytes3_ind; cbn [EncodeToString].
  - by intros Hc%elem_of_nil.
  - pose proof (byte_parts a). rewrite !elem_of_cons. intros [->|[->|[->|[->|Hc%elem_of_nil]]]]; try done;
      apply base64_char_plain; lia.
  - pose proof (byte_parts a). pose proof (byte_parts b). rewrite !elem_of_cons.
    intros [->|[->|[->|[->|Hc%elem_of_nil]]]]; try done; apply base64_char_plain; lia.
  - pose proof (byte_parts a). pose proof (byte_parts b). pose proof (byte_parts c'). rewrite !elem_of_cons.
    intros [->|[->|[->|[->|Hc]]]]; [apply base64_char_plain; lia..|by apply IH].
Qed.

(** Equations between the parts of bytes. *)
#[local] Ltac byte_arith :=
  clear; repeat match goal with
    | |- context [b2z ?b] => let H := fresh in pose proof (b2z_range b) as H; revert H; generalize (b2z b)
    end;
  intros; Z.to_euclidean_division_equations; lia.

Lemma DecodeString_EncodeToString l : DecodeString (EncodeToString l) = Some l.
Proof.
  unfold DecodeString. rewrite encoded_plain.
  induction l as [|a|a b|a b c l IH] using bytes3_ind; cbn [EncodeToString decode_groups]; [done|..].
  - pose proof (byte_parts a). rewrite !base64_value_char by lia. cbn [mbind option_bind].
    change (Byte.eqb pad pad) with true. cbv iota. cbn [andb]. rewrite bool_decide_true by done.
    do 2 f_equal. apply z2b_is. byte_arith.
  - pose proof (byte_parts a). pose proof (byte_parts b). rewrite !base64_value_char by lia. cbn [mbind option_bind].
    rewrite base64_char_pad by lia. rewrite ?base64_value_char by lia. cbn [mbind option_bind].
    change (Byte.eqb pad pad) with true. cbv iota. rewrite bool_decide_true by done.
    do 2 f_equal; [|f_equal]; apply z2b_is; byte_arith.
  - pose proof (byte_parts a). pose proof (byte_parts b). pose proof (byte_parts c).
    rewrite !base64_value_char by lia. cbn [mbind option_bind].
    rewrite !base64_char_pad by lia. rewrite ?base64_value_char by lia. cbn [mbind option_bind].
    rewrite IH. cbn [mbind option_bind]. do 2 f_equal; [|f_equal; [|f_equal]]; apply z2b_is; byte_arith.
Qed.

Section resume.
Context `{Platform} `{Cursors}.

(** The cursor of a reply, as the client sends it back. *)
Definition cursor_of (r : reply) : option bytes :=
  match r with
  | RArr (RGoInt n :: _) => Some (FormatInt n)
  | RArr (RGoUint n :: _) => Some (FormatUint n)
  | RArr (RBulk b :: _) => Some b
  | _ => None
  end.

Lemma EncodeToString_not_0 l : l <> [] -> EncodeToString l <> bs "0".
Proof. destruct l as [|a [|b [|c l]]]; [done|..]; intros _ E; cbn [EncodeToString] in E; discriminate E. Qed.

(** C35. Pages follow each other when the keys a page walks begin with the prefix that the
    next call puts before the cursor, as they do for HSCAN, SSCAN, ZSCAN and for SCAN
    without START (with START the two differ and SCAN does not resume): the cursor that a
    page replies then leads the next call to start with the first key behind the last one
    the page has seen, for cursors that the
    client carries and for those that the server stores, as long as the cache still holds
    the entry and the number it was given is positive. *)
Theorem page_resumes o typo key prefix cur results b t :
  cur <> [] -> Match (so_match o) (prefix ++ Bytes.NextKey cur) = Some (inr b) ->
  (so_cursor o = ServerCursor ->
     0 < fst (SetCursorByTimestamp typo key (so_match o) (t_Timestamp t) cur) <= MaxInt64) ->
  exists r sets n, page o typo key (length prefix) (Some (prefix ++ cur)) results t = Ret (r, sets) t /\
    cursor_of r = Some n /\
    ((forall k v, (k, v) ∈ sets -> cache_Get k = Some v) ->
     checkCursor o n (typo :: bs ":" ++ key ++ bs ":" ++ so_match o) prefix t =
     Ret (inr (Bytes.NextKey (prefix ++ cur))) t).
Proof.
  intros Hcur Hb Hpos. unfold page. change (sl (Some (prefix ++ cur))) with (prefix ++ cur). rewrite len_app.
  assert ((len prefix + len cur <=? Z.of_nat (length prefix)) = false) as ->.
  { apply Z.leb_gt. pose proof (len_nonneg cur). destruct cur as [|x cur]; [done|]. rewrite len_cons.
    pose proof (len_nonneg cur). unfold len in *. lia. }
  rewrite drop_app_length.
  assert (Bytes.NextKey (prefix ++ cur) = prefix ++ Bytes.NextKey cur) as -> by (unfold Bytes.NextKey; by rewrite app_assoc).
  assert (forall start, start = prefix ++ Bytes.NextKey cur ->
    (let! _ := ret tt in val! _ := glob_Match (so_match o) start else (fun e => ret (inl e)) in ret (inr start)) t =
    Ret (inr (prefix ++ Bytes.NextKey cur) : error + bytes) t) as Hend.
  { intros start ->. unfold bind, on_value, glob_Match, ret at 1, bind. by rewrite Hb. }
  destruct (so_cursor o) eqn:Eo.
  - exists (RArr [RBulk (EncodeToString cur); results]), [], (EncodeToString cur). split; [done|]. split; [done|].
    intros _. unfold checkCursor. rewrite Eo, bool_decide_false by by apply EncodeToString_not_0.
    rewrite DecodeString_EncodeToString. by apply Hend.
  - destruct (SetCursorByTimestamp typo key (so_match o) (t_Timestamp t) cur) as [n [k v]] eqn:Es.
    specialize (Hpos eq_refl). cbn [fst] in Hpos.
    exists (RArr [RGoUint n; results]), [(k, v)], (FormatUint n).
    split; [unfold bind, get_txn; cbv beta iota; by rewrite Es|]. split; [done|]. intros Hcache.
    unfold checkCursor. rewrite Eo.
    assert (FormatUint n = FormatInt n) as -> by (unfold FormatInt; destruct (Z.ltb_spec n 0); [lia|done]).
    rewrite ParseInt_FormatInt by (unfold in_i64, MinInt64; lia).
    destruct (Z.ltb_spec n 0); [lia|]. destruct (Z.gtb_spec n 0); [|lia].
    unfold SetCursorByTimestamp in Es. injection Es as En Ek Ev. subst v.
    assert (GetCursor ((typo :: bs ":" ++ key ++ bs ":" ++ so_match o) ++ bs ":" ++ FormatInt n) = Some cur) as ->.
    { apply Hcache. rewrite elem_of_cons. left. f_equal. rewrite <- Ek, En. unfold FormatInt.
      destruct (Z.ltb_spec n 0); [lia|]. cbn [app]. by rewrite <- !app_assoc. }
    by apply Hend.
Qed.

End resume.
