(* ===== verification/Stream.v ===== *)
(** command/stream.go: streams. A stream is cut into partitions; each has a counter with
    its number of messages, and beside it the largest offset a client has named. A
    message lies under its partition and its number. *)

From S2P Require Import Prelude Xerror GoStd Utils Glob Store Client Object Reply Generic Scan.
From Stdlib Require Import Init.Byte.

#[local] Open Scope Z_scope.

(** The arguments of a message are stored as a MessagePack array of byte strings
    (github.com/vmihailenco/msgpack). *)
Class Msgpack := {
  Marshal : list bytes -> error + bytes;
  Unmarshal : bytes -> error + list bytes
}.

Definition DefaultEXACT : Z := 0.
Definition ALLMOSTEXACT : Z := 1.
Definition EXACT : Z := 2.
Definition NotFound : Z := -1.
Definition Auto : Z := -2.
Definition StartIndex : Z := -3.
Definition EndIndex : Z := -4.
Definition NoLimit : Z := -1.
Definition NoOffset : Z := -1.
Definition ALLPartition : Z := -1.
Definition DefaultLIMIT : Z := 100.
Definition MaxLimit : Z := 1000.

(** ** Keys and values of messages *)

Definition encodeMessageKeyPrefix (hash : Z) : bytes := be_put 2 hash.
Definition encodeMessageKeyOffset (partition offset : Z) : bytes := be_put 2 partition ++ be_put 8 (u64 offset).

Definition encodeMessageKey (hash count : Z) (value : bytes) : Z * bytes :=
  let shard := Hash.GetShard value hash in (shard, be_put 2 shard ++ be_put 8 count).

Definition decodeMessageKey (v : bytes) : error + (Z * Z) :=
  if len v <? 10 then inl (ErrValueTooShort : error)
  else inr (be_get (take 2 v), i64 (be_get (slice 2 10 v))).

Definition encodeMessageValue (timestamp count : Z) (value : bytes) : bytes :=
  be_put 8 (u64 timestamp) ++ be_put 8 (u64 count) ++ value.

Definition decodeMessageValue (v : bytes) : error + (Z * Z * bytes) :=
  if len v <=? 16 then inl (ErrValueTooShort : error)
  else inr (i64 (be_get (take 8 v)), i64 (be_get (slice 8 16 v)), drop 16 v).

(** ** Identifiers *)

(** [strings.Split] at a byte. *)
Fixpoint Split (sep : Init.Byte.byte) (s : bytes) : list bytes :=
  match s with
  | [] => [[]]
  | c :: s =>
      if Byte.eqb c sep then [] :: Split sep s
      else match Split sep s with
           | [] => [[c]]
           | w :: ws => (c :: w) :: ws
           end
  end.

Definition parse_id (s : bytes) : error + Z :=
  match ParseInt s with
  | Some n => if n <? 0 then inl (InvalidStreamID : error) else inr n
  | None => inl (InvalidStreamID : error)
  end.

Definition checkID (a : bytes) : error + (Z * Z) :=
  let id := ToLower a in
  if bool_decide (id = bs "*") then inr (Auto, NotFound)
  else if bool_decide (id = bs "-") then inr (StartIndex, NotFound)
  else if bool_decide (id = bs "+") then inr (EndIndex, NotFound)
  else
    match Split x2d id with
    | [s] => match parse_id s with inl e => inl e | inr first => inr (first, NotFound) end
    | [s; s'] =>
        match parse_id s with
        | inl e => inl e
        | inr first => match parse_id s' with inl e => inl e | inr second => inr (first, second) end
        end
    | _ => inl (InvalidStreamID : error)
    end.

Definition getThreshold (args : list bytes) : error + (Z * Z) :=
  match args with
  | [] => inl (ErrSyntax : error)
  | a :: rest =>
      let '(exact, args) :=
        if bool_decide (a = bs "~") then (ALLMOSTEXACT, rest)
        else if bool_decide (a = bs "=") then (EXACT, rest)
        else (DefaultEXACT, args) in
      match args with
      | [] => inl (ErrSyntax : error)
      | v :: _ => match Int.GetNonnegativeInt64 v with
                  | (_, Some _) => inl (ErrNotInteger : error)
                  | (threshold, None) => inr (exact, threshold)
                  end
      end
  end.

Definition getPartition (a : bytes) : option Z :=
  match ParseInt a with
  | None => None
  | Some partition => Some (if partition <? 0 then ALLPartition else partition)
  end.

(** ** Groups *)

Record Group := mkGroup { g_Timestamp : Z; g_Consumers : Z }.
Definition EncodeGroup (g : Group) : bytes := be_put 4 (wrap_u 32 (g_Timestamp g)) ++ be_put 2 (g_Consumers g).

(** [None]: a slice that is too short makes the code panic. *)
Definition DecodeGroup (k : bytes) : option Group :=
  if len k <? 6 then None else Some (mkGroup (be_get (take 4 k)) (be_get (slice 4 6 k))).

Section stream.
Context `{Platform, Msgpack}.

(** [args[i]] where nothing has tested the length. *)
Definition index (args : list bytes) (i : nat) : M bytes :=
  match args !! i with Some a => ret a | None => panic end.

Definition CreateStream (key : bytes) (object : Object) : M (Object * option error) :=
  let! id := uuid_NewUUID in
  match id with
  | inl e => let! e := SetError e in ret (object, Some e)
  | inr id =>
      let object := set_o_Value (Some id) object in
      let! err := Put key (ObjectEncode object) in
      ret (object, err)
  end.

(** ** XADD *)

Record xaddOpt := mkXadd {
  xo_checkExist : bool; xo_maxLen : Z; xo_minId : option bytes; xo_minPartition : Z; xo_minOffset : Z;
  xo_exact : Z; xo_limit : Z
}.
Definition xadd_defaults : xaddOpt := mkXadd false NoLimit None ALLPartition NoOffset DefaultEXACT DefaultLIMIT.

Definition trims (o : xaddOpt) : bool := negb (xo_maxLen o =? NoLimit) || bool_decide (xo_minId o <> None).

(** The loop over the options: it looks at [args[1]] in every round, whatever [i] is. The
    result is where it stops. *)
Fixpoint xadd_options (fuel : nat) (args : list bytes) (i : nat) (o : xaddOpt) : M (error + (nat * xaddOpt)) :=
  match fuel with
  | O => diverge
  | S fuel =>
      if (length args <=? i)%nat then ret (inr (i, o))
      else
        let! a := index args 1 in
        if lower_is a "nomkstream" then
          xadd_options fuel args (S i)
            (mkXadd true (xo_maxLen o) (xo_minId o) (xo_minPartition o) (xo_minOffset o) (xo_exact o) (xo_limit o))
        else if lower_is a "minid" then
          let i := S i in
          if trims o then ret (inl (ErrSyntax : error))
          else
            let! minId := index args i in
            match checkID minId with
            | inl e => ret (inl e)
            | inr (first, second) =>
                if first <? 0 then ret (inl (InvalidStreamID : error))
                else
                  let '(p, off) := if second =? NotFound then (xo_minPartition o, first) else (first, second) in
                  xadd_options fuel args (S i)
                    (mkXadd (xo_checkExist o) (xo_maxLen o) (Some minId) p off (xo_exact o) (xo_limit o))
            end
        else if lower_is a "maxlen" then
          let i := S i in
          if trims o then ret (inl (ErrSyntax : error))
          else
            match getThreshold (drop i args) with
            | inl e => ret (inl e)
            | inr (exact, maxLen) =>
                let i := if exact =? DefaultEXACT then i else S i in
                xadd_options fuel args (S i)
                  (mkXadd (xo_checkExist o) maxLen (xo_minId o) (xo_minPartition o) (xo_minOffset o) exact (xo_limit o))
            end
        else if lower_is a "limit" then
          let i := S i in
          let! v := index args i in
          match Int.GetNonnegativeInt64 v with
          | (_, Some _) => ret (inl (ErrNotInteger : error))
          | (limit, None) =>
              xadd_options fuel args (S i)
                (mkXadd (xo_checkExist o) (xo_maxLen o) (xo_minId o) (xo_minPartition o) (xo_minOffset o) (xo_exact o)
                   (if limit >? MaxLimit then MaxLimit else limit))
          end
        else ret (inr (i, o))
  end.

(** What the goroutine that XADD starts deletes. *)
Record Trim := mkTrim { tr_start : bytes; tr_end : bytes; tr_max : Z; tr_limit : Z }.

(** The counter of the message's partition, advanced: its number of messages and the
    largest offset. A client that names the partition gets the counter under that
    number; without a name the message picks the partition. *)
Definition next_count (object : Object) (partition offset minPartition : Z) (value : bytes) : M (error + Count) :=
  let! t := get_txn in
  let! (count, err) :=
    if partition =? ALLPartition
    then GetCount (t_UserId t) (t_DBId t) (o_Hash object) KeyPrefix (sl (o_Value object)) (Some value)
    else GetCount (t_UserId t) (t_DBId t) partition KeyPrefix (sl (o_Value object)) None in
  let advance (uv : bytes) : M (error + Count) :=
    if (minPartition >=? 0) && negb (minPartition =? c_Shard count) then ret (inl (InvalidPartition : error))
    else
      let value := i64 (c_Value count + 1) in
      if (len uv >? 0) && (len uv <? 8) then panic
      else
        let cur := u64 ((if len uv >? 0 then be_get (take 8 uv) else 0) + 1) in
        if negb (offset =? NoOffset) && (u64 offset <? cur) then ret (inl (ErrXADDID : error))
        else if len uv <? 8 then panic
        else
          let off := if offset =? NoOffset then cur else u64 offset in
          ret (inr {| c_Timestamp := c_Timestamp count; c_Value := value; c_Key := c_Key count;
                      c_Shard := c_Shard count; c_UserValue := be_put 8 off ++ drop 8 uv |}) in
  match err with
  | Some KeyNotFound => advance (replicate 8 x00)
  | Some e => ret (inl e)
  | None => advance (c_UserValue count)
  end.

Definition message_id (shard value : Z) : bytes := FormatUint shard ++ bs "-" ++ FormatInt value.

(** Which messages to delete: those below an offset, or all but the last [maxLen]. *)
Definition trim_of (object : Object) (count : Count) (o : xaddOpt) : option Trim :=
  let start := GetValueBytes object (encodeMessageKeyPrefix (c_Shard count)) in
  if xo_minOffset o >=? 0 then
    Some (mkTrim start (GetValueBytes object (encodeMessageKeyOffset (c_Shard count) (xo_minOffset o))) 0 (xo_limit o))
  else if xo_maxLen o >=? 0 then
    if c_Value count <=? xo_maxLen o then None
    else Some (mkTrim start (Bytes.PrefixNext start) (i64 (c_Value count - xo_maxLen o)) (xo_limit o))
  else None.

(** The whole handler: the reply, and what is deleted behind its back. *)
Definition xadd (args : list bytes) : M (reply * option Trim) :=
  let fails (m : M reply) : M (reply * option Trim) := let! r := m in ret (r, None) in
  let fail (e : error) := fails (reply_err e) in
  if len args <? 4 then fails (wrong_args "xadd")
  else
    let! r := xadd_options (length args) args 1 xadd_defaults in
    match r with
    | inl e => fail e
    | inr (i, o) =>
        let! a := index args i in
        match checkID a with
        | inl e => fail e
        | inr (first, second) =>
            let partition := if first >=? 0 then first else ALLPartition in
            let offset := if second >=? 0 then second else NoOffset in
            match Marshal (drop (S i) args) with
            | inl e => fail e
            | inr value =>
                let! (object, err) := lookup StreamType (arg 0 args) true in
                let add (object : Object) : M (reply * option Trim) :=
                  if partition >? o_Hash object then fail InvalidPartition
                  else
                    let! r := next_count object partition offset (xo_minPartition o) value in
                    match r with
                    | inl e => fail e
                    | inr count =>
                        do! SetCount count else fail in
                        let! t := get_txn in
                        do! Put (GetValueBytes object (encodeMessageKeyOffset (c_Shard count) (c_Value count)))
                              (encodeMessageValue (t_Now t) (c_Value count) value) else fail in
                        ret (RBulk (message_id (c_Shard count) (c_Value count)), trim_of object count o)
                    end in
                match err with
                | Some KeyNotFound =>
                    if xo_checkExist o then ret (RNil, None)
                    else
                      let! (object, err) := CreateStream (ObjectKeyBytes object) object in
                      match err with Some e => fail e | None => add object end
                | Some e => fail e
                | None => add object
                end
            end
        end
    end.

Definition XADDHandle : TxnHandle := fun args => let! (r, _) := xadd args in ret r.

(** ** XRANGE *)

(** The partition and the offsets of a range, [inr None] where it is empty. *)
Definition xrange_bounds (from to : bytes) : error + option (Z * Z * Z) :=
  match checkID from with
  | inl e => inl e
  | inr (first, second) =>
      if (first <? 0) && negb (first =? StartIndex) then inl (InvalidStreamID : error)
      else
        let partition := if first >=? 0 then first else ALLPartition in
        let startOffset := if second >=? 0 then second else 0 in
        match checkID to with
        | inl e => inl e
        | inr (first, second) =>
            if (first <? 0) && negb (first =? EndIndex) then inl (InvalidStreamID : error)
            else if (first >=? 0) && (partition >=? 0) && negb (partition =? first) then inl (InvalidStreamID : error)
            else
              let partition := if first >=? 0 then first else partition in
              let endOffset := if second >=? 0 then second else NoOffset in
              if (endOffset >=? 0) && (endOffset <? startOffset) then inr None
              else inr (Some (partition, startOffset, endOffset))
        end
  end.

(** [[COUNT count]]. *)
Definition xrange_count (args : list bytes) : error + Z :=
  match args with
  | [] => inr DefaultLIMIT
  | a :: args =>
      if negb (lower_is a "count") then inl (ErrSyntax : error)
      else match args with
           | [] => inl (WrongArgsError "xadd")
           | v :: _ => match Int.GetNonnegativeInt64 v with
                       | (_, Some _) => inl (ErrNotInteger : error)
                       | (count, None) => inr (if count >? MaxLimit then MaxLimit else count)
                       end
           end
  end.

(** An entry of the listing as it is returned, if it is a message; a key shorter than
    the prefix would make the handler panic. *)
Definition xrange_entry (prefix : nat) (k v : bytes) : option reply :=
  match decodeMessageKey (drop prefix k), decodeMessageValue v with
  | inr (pt, off), inr (_, _, value) =>
      match Unmarshal value with
      | inr vv => Some (RArr [RBulk (message_id pt off); RArr (RBulk <$> vv)])
      | inl _ => None
      end
  | _, _ => None
  end.

Definition xrange_range (object : Object) (partition startOffset endOffset : Z) : bytes * bytes :=
  if partition <? 0 then
    let prefix := GetValueBytes object [] in (prefix, Bytes.PrefixNext prefix)
  else
    let p := wrap_u 16 partition in
    (GetValueBytes object (encodeMessageKeyOffset p startOffset),
     if endOffset <? 0 then Bytes.PrefixNext (GetValueBytes object (encodeMessageKeyPrefix p))
     else GetValueBytes object (encodeMessageKeyOffset p (i64 (endOffset + 1)))).

Definition XRangeHandle : TxnHandle := fun args =>
  if len args <? 3 then wrong_args "xrange"
  else
    match xrange_bounds (arg 1 args) (arg 2 args) with
    | inl e => reply_err e
    | inr None => ret EmptySlice
    | inr (Some (partition, startOffset, endOffset)) =>
        match xrange_count (drop 3 args) with
        | inl e => reply_err e
        | inr count =>
            if count =? 0 then ret EmptySlice
            else
              let! (object, err) := lookup StreamType (arg 0 args) false in
              match err with
              | Some KeyNotFound => ret EmptySlice
              | Some e => reply_err e
              | None =>
                  if partition >? o_Hash object then reply_err InvalidPartition
                  else
                    let '(start, end_) := xrange_range object partition startOffset endOffset in
                    let prefix := length (GetValueBytes object []) in
                    let! (result, err) :=
                      List start end_ count
                        (fun result k v =>
                           if (length k <? prefix)%nat then panic
                           else ret (match xrange_entry prefix k v with
                                     | Some r => result ++ [r]
                                     | None => result
                                     end, true)) [] in
                    match err with Some e => reply_err e | None => ret (RArr result) end
              end
        end
    end.

(** ** XGROUP, which no table of commands names *)

Definition XgroupHandle : TxnHandle := fun args =>
  if len args <? 1 then wrong_args "xgroup"
  else
    let a := arg 0 args in
    if lower_is a "create" || lower_is a "destroy" || lower_is a "setid" || lower_is a "createconsumer"
       || lower_is a "delconsumer"
    then ret RNil
    else let! e := SetWrongSubArgs "xgroup" "XGROUP HELP" in ret (RErr e).

(** The group is read from the key of the stream. *)
Definition XCreateHandle : TxnHandle := fun args =>
  if len args <? 3 then reply_err (WrongSubArgsError "create" "XGROUP HELP")
  else if (len args >? 3) && negb (lower_is (arg 3 args) "mkstream") then reply_err ErrSyntax
  else
    let create := len args >? 3 in
    let! (object, err) := lookup StreamType (arg 0 args) create in
    let group (object : Object) : M reply :=
      let! gobject := NewObject GroupType (arg 1 args) in
      let! (_, err) := getTxnObject (ObjectKeyBytes object) gobject true in
      match err with
      | None => reply_err XgroupAlreadyExist
      | Some KeyNotFound => ret RNil
      | Some e => reply_err e
      end in
    match err with
    | Some KeyNotFound =>
        if negb create then reply_err XgroupRequireExist
        else
          let! (object, err) := CreateStream (ObjectKeyBytes object) object in
          match err with Some e => reply_err e | None => group object end
    | Some e => reply_err e
    | None => group object
    end.

(** ** FSUBSCRIBE, which no table of commands names *)

Record FSubOpt := mkFSub { fs_offset : Z; fs_limit : Z }.

(** The options follow in pairs; others than these are skipped. *)
Fixpoint checkFSub (args : list bytes) (opt : FSubOpt) : error + FSubOpt :=
  match args with
  | a :: v :: args =>
      if lower_is a "offset" then
        match Int.GetNonnegativeInt64 v with
        | (_, Some _) => inl (InvalidOffset : error)
        | (offset, None) => checkFSub args (mkFSub offset (fs_limit opt))
        end
      else if lower_is a "limit" then
        match Int.GetPositiveInt v with
        | (_, Some _) => inl (InvalidLimit : error)
        | (limit, None) => checkFSub args (mkFSub (fs_offset opt) limit)
        end
      else checkFSub args opt
  | _ => inr opt
  end.

Definition fsub_entry (p prefix : nat) (key value : bytes) : option reply :=
  match decodeMessageValue value with
  | inl _ => None
  | inr (timestamp, _, message) =>
      if len key <=? Z.of_nat prefix then None
      else match decodeMessageKey (drop p key) with
           | inl _ => None
           | inr (_, newOffset) => Some (RArr [RBulk message; RGoInt timestamp; RGoInt newOffset])
           end
  end.

(** A failed lookup is returned without being recorded in the transaction. *)
Definition FSubscribeHandle : TxnHandle := fun args =>
  if (len args <? 2) || negb (len args mod 2 =? 0) then wrong_args "fsubscribe"
  else
    match Int.GetNonnegativeInt64 (arg 1 args) with
    | (_, Some _) => reply_err InvalidPartition
    | (pt, None) =>
        let partition := wrap_u 16 pt in
        match checkFSub (drop 2 args) (mkFSub NoOffset 100) with
        | inl e => reply_err e
        | inr opt =>
            let! (object, err) := lookup StreamType (arg 0 args) true in
            match err with
            | Some KeyNotFound => ret RNil
            | Some e => ret (RErr e)
            | None =>
                if partition >? o_Hash object then reply_err InvalidPartition
                else
                  let p := GetValueBytes object [] in
                  let prefix := GetValueBytes object (encodeMessageKeyPrefix partition) in
                  let start := if fs_offset opt =? NoOffset then prefix
                               else GetValueBytes object (encodeMessageKeyOffset partition (fs_offset opt)) in
                  let! (messages, err) :=
                    List start (Bytes.PrefixNext prefix) (fs_limit opt)
                      (fun messages key value =>
                         ret (match fsub_entry (length p) (length prefix) key value with
                              | Some r => messages ++ [r]
                              | None => messages
                              end, true)) [] in
                  match err with
                  | Some e => reply_err e
                  | None => ret (match messages with [] => RNil | _ => RArr messages end)
                  end
            end
        end
    end.

(** ** PUBSUB CHANNELS over streams *)

Fixpoint fpubsub_options (args : list bytes) (count : Z) (cursor : option bytes) : M (error + (Z * option bytes)) :=
  match args with
  | [] => ret (inr (count, cursor))
  | a :: args =>
      if lower_is a "count" then
        match args with
        | [] => panic
        | v :: args =>
            match Int.GetPositiveInt v with
            | (_, Some _) => ret (inl (ErrSyntax : error))
            | (count, None) =>
                let! c := get_config in
                fpubsub_options args (if count >? ScanMaxCount c then ScanMaxCount c else count) cursor
            end
        end
      else if lower_is a "cursor" then
        match args with
        | [] => panic
        | v :: args => fpubsub_options args count (Some v)
        end
      else ret (inl (ErrSyntax : error))
  end.

(** The names of the streams that match. An error of the pattern does not end the listing;
    the last match decides whether one is reported. *)
Definition channels_callback (pattern : bytes) : Callback (list reply * option error) :=
  fun s k v =>
    match GetObjectFromKV k v with
    | inl _ => ret (s, true)
    | inr object =>
        if negb (beq (o_Type object) StreamType) then ret (s, true)
        else
          let! r := if bool_decide (pattern = []) then ret (inr true) else glob_Match pattern (o_Key object) in
          match r with
          | inl e => ret ((fst s, Some e), true)
          | inr ok =>
              let err := if bool_decide (pattern = []) then snd s else None in
              ret ((if (ok : bool) then fst s ++ [RBulk (o_Key object)] else fst s, err), true)
          end
    end.

Definition fpubSubChannels : TxnHandle := fun args =>
  let! c := get_config in
  let '(pattern, args) :=
    match args with
    | a :: args' => if len args mod 2 =? 0 then ([], args) else (a, args')
    | [] => ([], args)
    end in
  let! r := fpubsub_options args (ScanMaxCount c) None in
  match r with
  | inl e => reply_err e
  | inr (count, cursor) =>
      let! t := get_txn in
      let key_of (data : list bytes) := GetKeyBytes DataPrefix (t_UserId t) (t_DBId t) KeyPrefix data in
      let prefix := key_of [] in
      let start :=
        match cursor with
        | Some cur => key_of [cur]
        | None => if bool_decide (pattern = []) then prefix else key_of [Prefix pattern]
        end in
      let! ((channels, matchError), err) :=
        List start (Bytes.PrefixNext prefix) count (channels_callback pattern) ([], None) in
      match err, matchError with
      | Some e, _ => reply_err e
      | None, Some e => reply_err e
      | None, None => ret (RArr channels)
      end
  end.

End stream.

(** The goroutine: a deletion in a transaction of its own. *)
Definition trim_callback `{Platform} (max : Z) : Callback unit := fun s _ v =>
  ret (s, match decodeMessageValue v with
          | inl _ => true
          | inr (_, msgCount, _) => negb ((max >? 0) && (max <=? msgCount))
          end).

Definition run_trim `{Clients} (tr : Trim) (st : Store) : Run unit :=
  run_bind (client_DeleteUntil (tr_start tr) (tr_end tr) (tr_limit tr) (Some (trim_callback (tr_max tr))) tt st)
    (fun _ st => Finished tt st).
