(* ===== verification/Hll.v ===== *)
(** HyperLogLog: hll/hll.go and hll/dense.go, the registers as command/hll.go keeps them
    in the store, sixteen to an entry, and PFADD, PFCOUNT and PFMERGE. *)

From S2P Require Import Prelude Xerror GoStd Utils Float Strconv Store Object Reply Generic.
From Stdlib Require Import Init.Byte.
From Stdlib Require Import Floats.SpecFloat.

#[local] Open Scope Z_scope.

(** The hash github.com/cespare/xxhash, and the functions of package math that the
    estimate uses. *)
Class HllMath := {
  Sum64 : bytes -> Z;
  math_Log : float64 -> float64;
  math_Pow : float64 -> float64 -> float64
}.

(** ** hll/hll.go *)

Definition DefaultPrecision : Z := 16.

(** A constant of the source, rounded to the nearest double. *)
Definition decimal (s : string) : float64 := default 0 (ParseFloat (bs s)).

(** The conversion of a [float64] to [uint64], as amd64 does it outside the range. *)
Definition to_uint64 (f : float64) : Z :=
  match decode f with
  | S754_zero _ => 0
  | S754_finite s m e =>
      let n := Z.shiftl (Z.pos m) e in
      let v := if s then - n else n in
      if (-1 <? v) && (v <? 2 ^ 64) then v else 2 ^ 63
  | _ => 2 ^ 63
  end.

(** The number of leading zeros of a 64-bit word. *)
Definition LeadingZeros64 (w : Z) : Z := if w =? 0 then 64 else 63 - Z.log2 w.

Definition bextr (v start length : Z) : Z := Z.land (Z.shiftr v start) (Z.shiftl 1 length - 1).

Section plus.
Context `{Platform, HllMath}.

Definition beta_constants : list float64 := Eval vm_compute in
  decimal <$> ["-0.37331876643753059"; "-1.41704077448122989"; "0.40729184796612533"; "1.56152033906584164";
               "-0.99242233534286128"; "0.26064681399483092"; "-0.03053811369682807"; "0.00155770210179105"]%string.

Definition beta (ez : float64) : float64 :=
  let zl := math_Log (fadd ez fone) in
  let c (i : nat) := nth i beta_constants 0 in
  let pow (n : Z) := math_Pow zl (of_int n) in
  fadd (fadd (fadd (fadd (fadd (fadd (fadd (fmul (c 0%nat) ez) (fmul (c 1%nat) zl))
    (fmul (c 2%nat) (pow 2))) (fmul (c 3%nat) (pow 3))) (fmul (c 4%nat) (pow 4)))
    (fmul (c 5%nat) (pow 5))) (fmul (c 6%nat) (pow 6))) (fmul (c 7%nat) (pow 7)).

(** The interface [Dense]: registers of one byte. An operation returns the registers after
    it beside its result, since they are changed in place. *)
Class Dense (D : Type) := {
  CheckAndSet : D -> Z -> Z -> M ((error + (Z * bool)) * D);
  DenseGet : D -> Z -> M (error + Z);
  DenseList : D -> M ((error + bytes) * D)
}.

Record Plus (D : Type) := mkPlus { pl_p : Z; pl_m : Z; pl_alpha : float64; pl_dense : D }.
#[global] Arguments mkPlus {_} _ _ _ _.
#[global] Arguments pl_p {_} _.
#[global] Arguments pl_m {_} _.
#[global] Arguments pl_alpha {_} _.
#[global] Arguments pl_dense {_} _.
Definition with_dense {D} (h : Plus D) (d : D) : Plus D := mkPlus (pl_p h) (pl_m h) (pl_alpha h) d.

Definition c_7213 : float64 := Eval vm_compute in decimal "0.7213".
Definition c_1079 : float64 := Eval vm_compute in decimal "1.079".
Definition alpha_of (m : Z) : float64 :=
  if m =? 16 then decimal "0.673" else if m =? 32 then decimal "0.697" else if m =? 64 then decimal "0.709"
  else fdiv c_7213 (fadd fone (fdiv c_1079 (of_int m))).

Definition NewPlus {D} (p : Z) (dense : D) : error + Plus D :=
  if (p >? 18) || (p <? 4) then inl (FmtError "precision must be between 4 and 18")
  else let m := Z.shiftl 1 p in inr (mkPlus p m (alpha_of m) dense).

(** The register of a value and the number it is set to. *)
Definition index_of (p : Z) (v : bytes) : Z := bextr (Sum64 v) (64 - p) p.
Definition rho_of (p : Z) (v : bytes) : Z :=
  wrap_u 8 (LeadingZeros64 (Z.lor (u64 (Z.shiftl (Sum64 v) p)) (Z.shiftl 1 (p - 1))) + 1).

Section methods.
Context `{Dense D}.

Definition Add (h : Plus D) (v : bytes) : M ((error + bool) * Plus D) :=
  let! (r, d) := CheckAndSet (pl_dense h) (index_of (pl_p h) v) (rho_of (pl_p h) v) in
  ret (match r with inl e => inl e | inr (_, ok) => inr ok end, with_dense h d).

(** The sum of the inverse powers of two, where a power beyond [2 ^ 31] is 0 in 32 bits,
    and the number of registers that are zero. *)
Definition count_step (s : float64 * float64) (val : Init.Byte.byte) : float64 * float64 :=
  let sum := fadd (fst s) (fdiv fone (of_int (wrap_u 32 (Z.shiftl 1 (b2z val))))) in
  (sum, if b2z val =? 0 then fadd (snd s) fone else snd s).

Definition estimate (alpha : float64) (m : Z) (l : bytes) : Z :=
  let '(sum, count) := foldl count_step (0, 0) l in
  to_uint64 (fadd (fdiv (fmul (fmul alpha (of_int m)) (fsub (of_int m) count)) (fadd (beta count) sum))
               (decimal "0.5")).

Definition Count (h : Plus D) : M ((error + Z) * Plus D) :=
  let! (r, d) := DenseList (pl_dense h) in
  ret (match r with inl e => inl e | inr l => inr (estimate (pl_alpha h) (pl_m h) l) end, with_dense h d).

(** The loop of [Merge] over the registers of the other. *)
Fixpoint merge_loop (d : D) (i : Z) (l : bytes) : M (option error * D) :=
  match l with
  | [] => ret (None, d)
  | v :: l =>
      let! (r, d) := CheckAndSet d i (b2z v) in
      match r with inl e => ret (Some e, d) | inr _ => merge_loop d (i + 1) l end
  end.

End methods.

Definition Merge `{Dense D, Dense D'} (h : Plus D) (other : Plus D') : M (option error * Plus D) :=
  if negb (pl_p h =? pl_p other) then ret (Some (FmtError "precisions must be equal"), h)
  else
    let! (r, _) := DenseList (pl_dense other) in
    match r with
    | inl e => ret (Some e, h)
    | inr otherL =>
        let! (r, d) := DenseList (pl_dense h) in
        match r with
        | inl e => ret (Some e, with_dense h d)
        | inr _ => let! (err, d) := merge_loop d 0 otherL in ret (err, with_dense h d)
        end
    end.

(** ** hll/dense.go: registers in memory *)

Definition DefaultDense : Type := bytes.
Definition NewDefaultDense (m : Z) : DefaultDense := replicate (Z.to_nat m) x00.

Definition mem_CheckAndSet (d : DefaultDense) (i rho : Z) : M ((error + (Z * bool)) * DefaultDense) :=
  match d !! Z.to_nat i with
  | None => panic
  | Some o =>
      let origin := b2z o in
      let set := rho >? origin in
      ret (inr (origin, set), if set then <[Z.to_nat i := z2b rho]> d else d)
  end.
Definition mem_Get (d : DefaultDense) (i : Z) : M (error + Z) :=
  match d !! Z.to_nat i with None => panic | Some o => ret (inr (b2z o)) end.
Definition mem_List (d : DefaultDense) : M ((error + bytes) * DefaultDense) := ret (inr d, d).

#[global] Instance default_dense : Dense DefaultDense :=
  {| CheckAndSet := mem_CheckAndSet; DenseGet := mem_Get; DenseList := mem_List |}.

(** ** command/hll.go: registers in the store *)

Definition DenseSize : Z := 4096.

Record TxnDense := mkDense { d_m : Z; d_object : Object; d_tmp : option bytes }.

(** The registers of an entry; an entry that does not decode has none. *)
Definition entry_value (value : bytes) : bytes :=
  match DecodeValue value with inr v => v_Value v | inl _ => [] end.

Definition bucket_key (o : Object) (i delta : Z) : bytes := GetValueBytes o (be_put 2 (wrap_u 16 (i / delta))).

(** [tmp[start : start+delta]]. *)
Definition window (tmp : bytes) (start delta : Z) : option bytes :=
  if len tmp <? start + delta then None else Some (take (Z.to_nat delta) (drop (Z.to_nat start) tmp)).
Definition splice (tmp : bytes) (start : Z) (v : bytes) : bytes :=
  take (Z.to_nat start) tmp ++ v ++ drop (Z.to_nat start + length v) tmp.

(** Raising one of the registers of an entry, which is written back whole. *)
Definition set_in (d : TxnDense) (bkey : bytes) (start : Z) (index : nat) (rho : Z) (bvalue : bytes) :
    M ((error + (Z * bool)) * TxnDense) :=
  let origin := b2z (nth index bvalue x00) in
  if rho >? origin then
    let bvalue := <[index := z2b rho]> bvalue in
    let d := mkDense (d_m d) (d_object d) ((fun tmp => splice tmp start bvalue) <$> d_tmp d) in
    let! t := get_txn in
    do! Put bkey (EncodeValue {| v_Timestamp := t_Timestamp t; v_Value := bvalue |})
    else (fun e => ret (inl e, d)) in
    ret (inr (origin, true), d)
  else ret (inr (origin, false), d).

(** [make([]uint8, delta)] in place of a value of another length. *)
Definition fill (delta : Z) (bvalue : bytes) : bytes :=
  if negb (len bvalue =? delta) then replicate (Z.to_nat delta) x00 else bvalue.

Definition txn_CheckAndSet (d : TxnDense) (i rho : Z) : M ((error + (Z * bool)) * TxnDense) :=
  let delta := d_m d / DenseSize in
  if delta =? 0 then panic
  else
    let index := Z.to_nat (i mod delta) in
    let bkey := bucket_key (d_object d) i delta in
    let start := i / delta * delta in
    match d_tmp d with
    | Some tmp =>
        match window tmp start delta with
        | Some bvalue => set_in d bkey start index rho bvalue
        | None => panic
        end
    | None =>
        let! r := Get bkey in
        match r with
        | inl KeyNotFound => set_in d bkey start index rho (fill delta [])
        | inl e => ret (inl e, d)
        | inr value => set_in d bkey start index rho (fill delta (entry_value value))
        end
    end.

Definition txn_Get (d : TxnDense) (i : Z) : M (error + Z) :=
  let delta := d_m d / DenseSize in
  if delta =? 0 then panic
  else
    let index := Z.to_nat (i mod delta) in
    match d_tmp d with
    | Some tmp =>
        match window tmp (i / delta * delta) delta with
        | Some bvalue => ret (inr (b2z (nth index bvalue x00)))
        | None => panic
        end
    | None =>
        let! r := Get (bucket_key (d_object d) i delta) in
        match r with
        | inl KeyNotFound => ret (inr 0)
        | inl e => ret (inl e)
        | inr value =>
            let bvalue := entry_value value in
            ret (inr (if len bvalue =? delta then b2z (nth index bvalue x00) else 0))
        end
    end.

(** The callback of [List]: it stops at a key shorter than the prefix. *)
Definition list_registers (start : nat) (delta : Z) : Callback bytes := fun regs key value =>
  if (length key <? start)%nat then ret (regs, false)
  else
    let k := drop start key in
    if len k <? 2 then panic
    else
      let i := be_get (take 2 k) in
      let bvalue := entry_value value in
      if negb (len bvalue =? delta) then ret (regs, true)
      else if len regs <? i * delta + delta then panic
      else ret (splice regs (i * delta) bvalue, true).

Definition txn_List (d : TxnDense) : M ((error + bytes) * TxnDense) :=
  match d_tmp d with
  | Some tmp => ret (inr tmp, d)
  | None =>
      let start := GetValueBytes (d_object d) [] in
      let! c := get_config in
      let! (regs, err) :=
        List start (Bytes.PrefixNext start) (ScanMaxCount c) (list_registers (length start) (d_m d / DenseSize))
          (replicate (Z.to_nat (d_m d)) x00) in
      match err with
      | Some e => ret (inl e, d)
      | None => ret (inr regs, mkDense (d_m d) (d_object d) (Some regs))
      end
  end.

#[global] Instance txn_dense : Dense TxnDense :=
  {| CheckAndSet := txn_CheckAndSet; DenseGet := txn_Get; DenseList := txn_List |}.

Definition getHll (object : Object) : error + Plus TxnDense :=
  NewPlus DefaultPrecision (mkDense (Z.shiftl 1 DefaultPrecision) object None).

(** ** Commands *)

Fixpoint pfadd_loop (plus : Plus TxnDense) (args : list bytes) (n : Z) : M (error + Z) :=
  match args with
  | [] => ret (inr n)
  | a :: args =>
      let! (r, plus) := Add plus a in
      match r with
      | inl e => ret (inl e)
      | inr ok => pfadd_loop plus args (if (ok : bool) then 1 else n)
      end
  end.

Definition PfAddHandle : TxnHandle := fun args =>
  if len args <? 1 then wrong_args "pfadd"
  else
    let! (object, err) := GetOrCreateUUIDObject HLLType (arg 0 args) in
    match err with
    | Some e => reply_err e
    | None =>
        match getHll object with
        | inl e => reply_err e
        | inr plus => reply_int (pfadd_loop plus (drop 1 args) 0)
        end
    end.

(** The estimates of the keys are added up. *)
Fixpoint pfcount_loop (args : list bytes) (exists_ : gset bytes) (count : Z) : M (error + Z) :=
  match args with
  | [] => ret (inr count)
  | a :: args =>
      if decide (a ∈ exists_) then pfcount_loop args exists_ count
      else
        let exists_ := {[ a ]} ∪ exists_ in
        let! (object, err) := lookup HLLType a true in
        match err with
        | Some KeyNotFound => pfcount_loop args exists_ count
        | Some e => ret (inl e)
        | None =>
            match getHll object with
            | inl e => ret (inl e)
            | inr plus =>
                let! (r, _) := Count plus in
                match r with
                | inl e => ret (inl e)
                | inr l => pfcount_loop args exists_ (u64 (count + l))
                end
            end
        end
  end.

Definition PfCountHandle : TxnHandle := fun args =>
  if len args <? 1 then wrong_args "pfcount"
  else
    let! r := pfcount_loop args ∅ 0 in
    match r with inl e => reply_err e | inr count => ret (RInt (i64 count)) end.

Fixpoint pfmerge_loop (dest : Plus TxnDense) (args : list bytes) (exists_ : gset bytes) : M (option error) :=
  match args with
  | [] => ret None
  | k :: args =>
      if decide (k ∈ exists_) then pfmerge_loop dest args exists_
      else
        let! (object, err) := GetOrCreateUUIDObject HLLType k in
        match err with
        | Some e => ret (Some e)
        | None =>
            match getHll object with
            | inl e => ret (Some e)
            | inr plus =>
                let! (err, dest) := Merge dest plus in
                match err with
                | Some e => ret (Some e)
                | None => pfmerge_loop dest args ({[ k ]} ∪ exists_)
                end
            end
        end
  end.

Definition PfMergeHandle : TxnHandle := fun args =>
  if len args <? 2 then wrong_args "pfmerge"
  else
    let! (object, err) := GetOrCreateUUIDObject HLLType (arg 0 args) in
    match err with
    | Some e => reply_err e
    | None =>
        match getHll object with
        | inl e => reply_err e
        | inr dest =>
            let! err := pfmerge_loop dest (drop 1 args) ∅ in
            match err with Some e => reply_err e | None => ret OK end
        end
    end.

End plus.
