(* ===== verification/Block.v ===== *)
(** BlockHandle of command/object.go, and the commands that wait: BLPOP, BRPOP, BLMOVE and
    BRPOPLPUSH of command/list.go, BZPOPMIN and BZPOPMAX of command/zset.go. *)

From S2P Require Import Prelude Xerror GoStd Utils Float Strconv Store Object Reply.
From S2P Require Import ListA ListCmd ZSet.
From Stdlib Require Import Init.Byte.
From Stdlib Require Import Floats.SpecFloat.

#[local] Open Scope Z_scope.

(** [redcon.TimeoutTrigger] and [redcon.ErrorTrigger]. *)
Inductive Trigger := TimeoutTrigger | ErrorTrigger.

(** What a waiting command selects on, in the order in which it happens. At a tick of the
    timer: whether the connection was closed, what [utils.ConnCheck] finds on its socket,
    the store as it is then, and the clock once the attempt is over. On the channel of
    CLIENT UNBLOCK: what was sent, nothing when Close has closed it. *)
Inductive event `{Platform} :=
  | Tick (closed : bool) (check : option error) (store : Cluster) (now : Z)
  | Triggered (trigger : option Trigger).

(** ** Durations *)

Definition PullInternal : Z := 100 * Millisecond.

(** The conversion of a [float64] to [int64], as amd64 does it outside the range. *)
Definition to_int64 (f : float64) : Z :=
  match decode f with
  | S754_zero _ => 0
  | S754_finite s m e =>
      let n := Z.shiftl (Z.pos m) e in
      let v := if s then - n else n in
      if (MinInt64 <=? v) && (v <=? MaxInt64) then v else MinInt64
  | _ => MinInt64
  end.

(** [Time.Sub] saturates. *)
Definition time_Sub (t u : Z) : Z := Z.max MinInt64 (Z.min MaxInt64 (t - u)).

(** [now.Add(PullInternal).Sub(start) >= timeout], for a timeout at all. *)
Definition over (timeout start now : Z) : bool :=
  (timeout >? 0) && (time_Sub (now + PullInternal) start >=? timeout).

(** The period of the ticker. *)
Definition pull_interval (timeout : Z) : Z :=
  if (timeout =? 0) || (timeout >? 50 * PullInternal) then 5 * PullInternal else PullInternal.

(** [time.Duration(second * float64(time.Second))] *)
Definition duration (second : float64) : Z := to_int64 (fmul second (of_int Second)).

Section block.
Context `{Platform}.

(** *** BlockHandle *)

Section handle.
Context {A : Type}.

(** [BFunc]: what it returns when it finds something is not nil. *)
Definition BFunc : Type := list bytes -> M (error + option A).

(** What an attempt means: an error or a value to return, or nothing yet. *)
Definition attempt (bfunc : BFunc) (args : list bytes) : M (option (error + A)) :=
  let! r := bfunc args in
  ret match r with
      | inl (Sentinel ErrKeyIsLocked) | inr None => None
      | inl e => Some (inl e)
      | inr (Some v) => Some (inr v)
      end.

Definition found (r : error + A) : error + option A :=
  match r with inl e => inl e | inr v => inr (Some v) end.

Definition begin (c : Cluster) : M (option error) := fun t => let '(t, e) := Begin c t in Ret e t.

(** The loop, which goes on as long as there are events. [txn.Blocked] and the number of
    blocked clients, which are reset in the end, are left out. *)
Fixpoint wait (events : list event) (start timeout : Z) (bfunc : BFunc) (args : list bytes) :
    M (error + option A) :=
  match events with
  | [] => diverge
  | Tick closed check store now :: events =>
      if closed : bool then ret (inl (ErrClientClosed : error))
      else match check with
           | Some e => ret (inl e)
           | None =>
               do! begin store else (fun e => ret (inl e)) in
               let! r := attempt bfunc args in
               match r with
               | Some r => ret (found r)
               | None =>
                   let! _ := modify Rollback in
                   if over timeout start now then ret (inr None)
                   else wait events start timeout bfunc args
               end
           end
  | Triggered None :: _ => ret (inr None)
  | Triggered (Some ErrorTrigger) :: _ => ret (inl (ErrUnBlocked : error))
  | Triggered (Some TimeoutTrigger) :: _ => ret (inr None)
  end.

(** [now] is the clock after the first attempt. *)
Definition BlockHandle (events : list event) (now : Z) (args : list bytes) (bfunc : BFunc) :
    M (error + option A) :=
  let! t0 := get_txn in
  let start := NowTime t0 in
  match ParseFloat (arg (Z.to_nat (len args - 1)) args) with
  | None => ret (inl (ErrNotFloat : error))
  | Some second =>
      if flt second 0 then ret (inl (ErrTimeoutNegative : error))
      else
        let timeout := duration second in
        let args := take (Z.to_nat (len args - 1)) args in
        let! r := attempt bfunc args in
        match r with
        | Some r => ret (found r)
        | None =>
            let! t := get_txn in
            if t_Multi t then ret (inr None)
            else if over timeout (NowTime t) now then ret (inr None)
            else let! _ := modify Rollback in wait events start timeout bfunc args
        end
  end.

End handle.

(** *** The commands *)

Definition listMany_func (cmd : string) : BFunc := fun args => listMany args cmd.
Definition zpop_func (reversed : bool) : BFunc := fun args => zpopMany args reversed.

Definition reply_block {A} (m : M (error + option A)) (f : A -> reply) : M reply :=
  let! r := m in
  match r with
  | inl e => reply_err e
  | inr v => ret (from_option f RNil v)
  end.

Definition pair_reply (p : bytes * bytes) : reply := RArr [RBulk (fst p); RBulk (snd p)].

Definition block_pop (name cmd : string) (events : list event) (now : Z) : TxnHandle := fun args =>
  if len args <? 2 then wrong_args name
  else reply_block (BlockHandle events now args (listMany_func cmd)) pair_reply.

Definition BlPopHandle : list event -> Z -> TxnHandle := block_pop "blpop" "lpop".
Definition BrPopHandle : list event -> Z -> TxnHandle := block_pop "brpop" "rpop".

(** The element that was popped goes to another list, in the transaction of the pop. *)
Definition block_push (m : M (error + option (bytes * bytes))) (dst : bytes) (to : bool) : M reply :=
  val! value := m else reply_err in
  match value with
  | None => ret RNil
  | Some (_, msg) =>
      val! _ := ListHandle [dst; msg] (push_command to) opt0 else reply_err in
      ret (RBulk msg)
  end.

(** What BLMOVE passes to BlockHandle does not look at its argument, which is without the
    timeout, but takes the variable [sargs]: the timeout is tried as a key, after the source. *)
Definition BlMoveHandle (events : list event) (now : Z) : TxnHandle := fun args =>
  if len args <? 5 then wrong_args "blmove"
  else match side (arg 2 args), side (arg 3 args) with
       | Some from, Some to =>
           let sargs := [arg 0 args; arg 4 args] in
           block_push (BlockHandle events now sargs (fun _ => listMany_func (pop_command from) sargs))
             (arg 1 args) to
       | _, _ => reply_err ErrSyntax
       end.

Definition BRPopLPushHandle (events : list event) (now : Z) : TxnHandle := fun args =>
  if negb (len args =? 3) then wrong_args "brpoplpush"
  else block_push (BlockHandle events now [arg 0 args; arg 2 args] (listMany_func "rpop")) (arg 1 args) true.

Definition block_zpop (name : string) (reversed : bool) (events : list event) (now : Z) : TxnHandle :=
  fun args =>
  if len args <? 2 then wrong_args name
  else reply_block (BlockHandle events now args (zpop_func reversed)) RArr.

Definition BZPopMinHandle : list event -> Z -> TxnHandle := block_zpop "bzpopmin" false.
Definition BZPopMaxHandle : list event -> Z -> TxnHandle := block_zpop "bzpopmax" true.

End block.
