(* ===== verification/SetCmd.v ===== *)
(** The set commands (command/set.go) on one set: SADD, SREM, SMOVE, SPOP and the
    queries; the algebra of sets is in [SetAlgebra]. *)

From S2P Require Import Prelude Xerror GoStd Utils Store Ranges Mem Object Reply ObjectSpec.
From S2P Require Import Generic HashCmd.
From Stdlib Require Import Init.Byte.

#[local] Open Scope Z_scope.

Section set.
Context `{Platform}.

Fixpoint smismember_loop (object : Object) (members : list bytes) (acc : list reply) : M reply :=
  match members with
  | [] => ret (RArr acc)
  | m :: members =>
      let! r := Get (GetValueBytes object m) in
      match r with
      | inl KeyNotFound => smismember_loop object members (acc ++ [RInt 0])
      | inl e => reply_err e
      | inr _ => smismember_loop object members (acc ++ [RInt 1])
      end
  end.

Definition SMIsMemberHandle : TxnHandle := fun args =>
  if len args <? 2 then wrong_args "smismember"
  else
    let! (object, err) := lookup SetType (arg 0 args) false in
    match err with
    | Some KeyNotFound => ret (RArr (replicate (length args - 1) (RInt 0)))
    | Some e => reply_err e
    | None => smismember_loop object (drop 1 args) []
    end.

Definition SIsMemberHandle : TxnHandle := fun args =>
  if negb (len args =? 2) then wrong_args "sismember"
  else
    let! (object, err) := lookup SetType (arg 0 args) false in
    match err with
    | Some KeyNotFound => ret (RInt 0)
    | Some e => reply_err e
    | None =>
        let! r := Get (GetValueBytes object (arg 1 args)) in
        match r with
        | inl KeyNotFound => ret (RInt 0)
        | inl e => reply_err e
        | inr _ => ret (RInt 1)
        end
    end.

Fixpoint sadd_loop (object : Object) (members : list bytes) (count : Z) : M (error + Z) :=
  match members with
  | [] => ret (inr count)
  | m :: members =>
      let skey := GetValueBytes object m in
      let! t := get_txn in
      let! r := Get skey in
      match r with
      | inl KeyNotFound =>
          let svalue := {| v_Timestamp := t_Timestamp t; v_Value := [] |} in
          let! (_, err) := PutOrDeleteKV object skey (Some (EncodeValue svalue)) 1 in
          match err with
          | Some e => ret (inl e)
          | None => sadd_loop object members (count + 1)
          end
      | inl e => ret (inl e)
      | inr _ => sadd_loop object members count
      end
  end.

Definition sadd (a : bytes) (args : list bytes) (check : bool) : M (error + Z) :=
  let! (object, err) := GetOrCreateUUIDObject SetType a in
  match err with
  | Some e => ret (inl e)
  | None => if check then ret (inr 0) else sadd_loop object args 0
  end.

Definition SAddHandle : TxnHandle := fun args =>
  if len args <? 2 then wrong_args "sadd" else reply_int (sadd (arg 0 args) (drop 1 args) false).

Fixpoint srem_loop (object : Object) (members : list bytes) (count : Z) : M (error + Z) :=
  match members with
  | [] => ret (inr count)
  | m :: members =>
      let skey := GetValueBytes object m in
      let! r := Get skey in
      match r with
      | inl KeyNotFound => srem_loop object members count
      | inl e => ret (inl e)
      | inr _ =>
          let! (_, err) := PutOrDeleteKV object skey None (-1) in
          match err with
          | Some e => ret (inl e)
          | None => srem_loop object members (count + 1)
          end
      end
  end.

Definition srem (a : bytes) (args : list bytes) : M (error + Z) :=
  let! (object, err) := lookup SetType a false in
  match err with
  | Some KeyNotFound => ret (inr 0)
  | Some e => ret (inl e)
  | None => srem_loop object args 0
  end.

Definition SRemHandle : TxnHandle := fun args =>
  if len args <? 2 then wrong_args "srem" else reply_int (srem (arg 0 args) (drop 1 args)).

Definition SMoveHandle : TxnHandle := fun args =>
  if negb (len args =? 3) then wrong_args "smove"
  else
    val! count := srem (arg 0 args) (drop 2 args) else reply_err in
    reply_int (sadd (arg 1 args) (drop 2 args) (count =? 0)).

Definition SCardHandle : TxnHandle := fun args =>
  if negb (len args =? 1) then wrong_args "scard" else reply_int (GetCountByKey (arg 0 args) SetType).

Definition smembers (args : list bytes) (limit : Z) : M (error + list bytes) :=
  let! (object, err) := lookup SetType (arg 0 args) false in
  match err with
  | Some KeyNotFound => ret (inr [])
  | Some e => ret (inl e)
  | None =>
      let start := GetValueBytes object [] in
      let end_ := Bytes.PrefixNext start in
      let! (l, err) :=
        List start end_ limit
          (fun l key _ =>
             if len key <? len start then ret (l, true)
             else ret (l ++ [drop (length start) key], true)) [] in
      match err with
      | None | Some ReachLimit => ret (inr l)
      | Some e => ret (inl e)
      end
  end.

Definition SMembersHandle : TxnHandle := fun args =>
  if negb (len args =? 1) then wrong_args "smembers"
  else let! c := get_config in reply_bulks (smembers args (ScanMaxCount c)).

(** SPOP deletes while it lists; the capacity of its result is the given count. *)
Definition SPopHandle : TxnHandle := fun args =>
  if negb (len args =? 1) && negb (len args =? 2) then wrong_args "spop"
  else
    let simple := negb (len args =? 2) in
    let '(count, err) := if len args =? 2 then Int.GetPositiveInt (arg 1 args) else (1, None) in
    match err with
    | Some ErrInvalidInt => if count =? 0 then ret EmptyBytes else reply_err ErrNotPositiveInteger
    | Some _ => reply_err ErrNotPositiveInteger
    | None =>
        let! (object, err) := lookup SetType (arg 0 args) false in
        match err with
        | Some KeyNotFound => ret EmptyBytes
        | Some e => reply_err e
        | None =>
            let start := GetValueBytes object [] in
            let end_ := Bytes.PrefixNext start in
            let! _ := if makeslice_ok count 24 then ret tt else panic in
            let! ((l, cbErr), err) :=
              List start end_ count
                (fun s key _ =>
                   let '(l, _) := s : list bytes * option error in
                   if len key <? len start then ret (l, None, true)
                   else
                     let! (_, cbErr) := PutOrDeleteKV object key None (-1) in
                     match cbErr with
                     | Some e => ret (l, Some e, false)
                     | None => ret (l ++ [drop (length start) key], None, true)
                     end) ([], None) in
            match cbErr, err with
            | Some e, _ => reply_err e
            | None, None | None, Some ReachLimit =>
                match l with
                | x :: _ => if simple then ret (RBulk x) else ret (bulks l)
                | [] => ret (bulks l)
                end
            | None, Some e => reply_err e
            end
        end
    end.

(** The members repeated at random to reach a negative count. *)
Fixpoint srand_loop (n : nat) (l : list bytes) : M (list bytes) :=
  match n with
  | O => ret l
  | S n =>
      let! c := rand_Int63n (len l) in
      srand_loop n (l ++ [nth (Z.to_nat c) l []])
  end.

Definition SRandMemberHandle : TxnHandle := fun args =>
  if negb (len args =? 1) && negb (len args =? 2) then wrong_args "srandmember"
  else
    let single := len args =? 1 in
    match (if len args =? 2 then Atoi (arg 1 args) else Some 1) with
    | None => reply_err ErrNotInteger
    | Some count =>
        if count =? 0 then ret (RArr [])
        else
          let ucount := if count >? 0 then count else i64 (- count) in
          val! l := smembers args ucount else reply_err in
          if single then ret (match l with [] => RNil | x :: _ => RBulk x end)
          else if (count <? 0) && (len l <? ucount) then
            let! l := srand_loop (Z.to_nat (ucount - len l)) l in ret (bulks l)
          else ret (bulks l)
    end.

(** [checkValidObjectArgs]: every remaining key is absent or of the type. *)
Fixpoint checkValidObjectArgs (args : list bytes) (typo : Init.Byte.byte) : M (option error) :=
  match args with
  | [] => ret None
  | a :: args =>
      let! (_, err) := lookup typo a false in
      match err with
      | None | Some KeyNotFound => checkValidObjectArgs args typo
      | Some e => ret (Some e)
      end
  end.

End set.
