(* ===== verification/Heap.v ===== *)
(** utils/heap.go: the priority queue that merges iterators, [utils.BytesHeap] as
    container/heap of the standard library drives it. *)

From S2P Require Import Prelude.
From Stdlib Require Import Init.Byte.

#[local] Open Scope Z_scope.

Module Heap.

(** [utils.KV]; the key of the zero value is nil, which no element of a heap is. *)
Record KV := { kv_Idx : nat; kv_Key : bytes; kv_Value : bytes }.

Abbreviation BytesHeap := (list KV).

(** [BytesHeap.Less] and [Swap], on indices that exist. *)
Definition Less (h : BytesHeap) (i j : nat) : bool :=
  match h !! i, h !! j with Some x, Some y => bytes_ltb (kv_Key x) (kv_Key y) | _, _ => false end.

Definition Swap (i j : nat) (h : BytesHeap) : BytesHeap :=
  match h !! i, h !! j with Some x, Some y => <[i := y]> (<[j := x]> h) | _, _ => h end.

(** container/heap: [up], [down], [Push] and [Pop]. *)
Fixpoint up (fuel : nat) (h : BytesHeap) (j : nat) : BytesHeap :=
  match fuel with
  | O => h
  | S fuel =>
      let i := ((j - 1) / 2)%nat in
      if (i =? j)%nat || negb (Less h j i) then h else up fuel (Swap i j h) i
  end.

Fixpoint down (fuel : nat) (h : BytesHeap) (i n : nat) : BytesHeap :=
  match fuel with
  | O => h
  | S fuel =>
      let j1 := (2 * i + 1)%nat in
      if (n <=? j1)%nat then h
      else
        let j2 := (j1 + 1)%nat in
        let j := if (j2 <? n)%nat && Less h j2 j1 then j2 else j1 in
        if negb (Less h j i) then h else down fuel (Swap i j h) j n
  end.

Definition Push (x : KV) (h : BytesHeap) : BytesHeap := up (S (length h)) (h ++ [x]) (length h).

Definition Pop (h : BytesHeap) : option (KV * BytesHeap) :=
  let n := (length h - 1)%nat in
  let h := down (S n) (Swap 0 n h) 0 n in
  match last h with Some x => Some (x, removelast h) | None => None end.

(** ** The heap order *)

Definition parent (j : nat) : nat := ((j - 1) / 2)%nat.

Lemma parent_lt j : (0 < j)%nat -> (parent j < j)%nat.
Proof. intros Hj. unfold parent. apply Nat.Div0.div_lt_upper_bound. lia. Qed.

Lemma parent_children i c : (0 < c)%nat -> parent c = i -> c = (2 * i + 1)%nat \/ c = (2 * i + 2)%nat.
Proof.
  unfold parent. intros Hc <-. pose proof (Nat.div_mod_eq (c - 1) 2).
  pose proof (Nat.mod_upper_bound (c - 1) 2). lia.
Qed.

(** The key at [i] is no greater than the key at [j], where both exist. *)
Definition le_at (h : BytesHeap) (i j : nat) : Prop :=
  forall x y, h !! i = Some x -> h !! j = Some y -> ble (kv_Key x) (kv_Key y).

(** Every element below [n] but [d] is no less than its parent. *)
Definition ordered_but (d : nat) (n : nat) (h : BytesHeap) : Prop :=
  forall c, (0 < c < n)%nat -> c <> d -> le_at h (parent c) c.
Definition ordered (h : BytesHeap) : Prop := forall c, (0 < c)%nat -> le_at h (parent c) c.

Lemma le_at_trans h i j k : (j < length h)%nat -> le_at h i j -> le_at h j k -> le_at h i k.
Proof.
  intros [y Hy]%lookup_lt_is_Some_2 Hij Hjk x z Hx Hz. eapply ble_trans; [by apply Hij|by apply Hjk].
Qed.

Lemma Less_spec h i j : (i < length h)%nat -> (j < length h)%nat ->
  if Less h i j then le_at h i j else le_at h j i.
Proof.
  intros Hi Hj. destruct (lookup_lt_is_Some_2 h i Hi) as [x Hx], (lookup_lt_is_Some_2 h j Hj) as [y Hy].
  assert (Less h i j = bytes_ltb (kv_Key x) (kv_Key y)) as -> by (unfold Less; by rewrite Hx, Hy).
  destruct (bytes_ltb (kv_Key x) (kv_Key y)) eqn:E.
  - intros ? ? [= <-]%(eq_trans (eq_sym Hx)) [= <-]%(eq_trans (eq_sym Hy)). by apply blt_ble, bytes_ltb_spec.
  - intros ? ? [= <-]%(eq_trans (eq_sym Hy)) [= <-]%(eq_trans (eq_sym Hx)).
    destruct (decide (ble (kv_Key y) (kv_Key x))) as [|Hn]; [done|].
    apply blt_not_ble, bytes_ltb_spec in Hn. congruence.
Qed.

(** Swapping renames the indices. *)
Definition transpose (i j k : nat) : nat :=
  if decide (k = i) then j else if decide (k = j) then i else k.

Lemma lookup_Swap i j h k : (i < length h)%nat -> (j < length h)%nat ->
  Swap i j h !! k = h !! transpose i j k.
Proof.
  intros Hi Hj. destruct (lookup_lt_is_Some_2 h i Hi) as [x Hx], (lookup_lt_is_Some_2 h j Hj) as [y Hy].
  assert (Swap i j h = <[i := y]> (<[j := x]> h)) as -> by (unfold Swap; by rewrite Hx, Hy).
  unfold transpose. destruct (decide (k = i)) as [->|Hki].
  { rewrite list_lookup_insert_eq; [done|]. by rewrite length_insert. }
  rewrite list_lookup_insert_ne by done. destruct (decide (k = j)) as [->|Hkj].
  - by rewrite list_lookup_insert_eq.
  - by rewrite list_lookup_insert_ne.
Qed.

Lemma length_Swap i j h : length (Swap i j h) = length h.
Proof. unfold Swap. repeat case_match; by rewrite ?length_insert. Qed.

Lemma Swap_perm i j h : (i < length h)%nat -> (j < length h)%nat -> Swap i j h ≡ₚ h.
Proof.
  intros Hi Hj. symmetry. apply Permutation_inj. split; [by rewrite length_Swap|].
  exists (transpose i j). split.
  - intros a b. unfold transpose. repeat case_decide; congruence.
  - intros k. rewrite lookup_Swap by (by rewrite ?length_Swap).
    f_equal. unfold transpose. repeat case_decide; congruence.
Qed.

Lemma le_at_Swap i j h a b : (i < length h)%nat -> (j < length h)%nat ->
  le_at (Swap i j h) a b <-> le_at h (transpose i j a) (transpose i j b).
Proof. intros Hi Hj. unfold le_at. by rewrite !lookup_Swap. Qed.

Lemma length_up fuel h j : length (up fuel h j) = length h.
Proof.
  revert h j. induction fuel as [|fuel IH]; intros h j; [done|]. cbn [up].
  destruct (_ || _); [done|]. by rewrite IH, length_Swap.
Qed.

(** [up] repairs the order of a heap in which only [j] may be less than its parent. *)
Lemma up_ordered fuel h j :
  (j < fuel)%nat -> (j < length h)%nat -> ordered_but j (length h) h ->
  ((0 < j)%nat -> forall c, (0 < c)%nat -> parent c = j -> le_at h (parent j) c) ->
  ordered_but 0 (length h) (up fuel h j) /\ up fuel h j ≡ₚ h.
Proof.
  revert h j. induction fuel as [|fuel IH]; intros h j Hf Hj Ho Hc; [lia|]. cbn [up].
  fold (parent j). destruct (Nat.eqb_spec (parent j) j) as [E|Hne]; cbn [orb].
  { split; [|done]. intros c Hcn _. apply Ho; [done|]. intros ->. pose proof (parent_lt j). lia. }
  assert (0 < j)%nat as Hj0 by (destruct j; [done|lia]).
  pose proof (parent_lt j Hj0) as Hp. set (i := parent j) in *.
  pose proof (Less_spec h j i Hj ltac:(lia)) as Hl. destruct (Less h j i); cbn [negb].
  2: { split; [|done]. intros c Hcn _. destruct (decide (c = j)) as [->|]; [done|by apply Ho]. }
  destruct (IH (Swap i j h) i) as [Ho' Hp']; [lia|rewrite length_Swap; lia| | |].
  - rewrite length_Swap. intros c Hcn Hci. rewrite le_at_Swap by lia.
    pose proof (parent_lt c ltac:(lia)). unfold transpose at 2. rewrite decide_False by done.
    destruct (decide (c = j)) as [->|Hcj].
    + unfold transpose. by rewrite decide_True by done.
    + unfold transpose. destruct (decide (parent c = i)) as [Hpi|].
      { apply (le_at_trans h j i c); [lia|done|]. rewrite <- Hpi. by apply Ho. }
      destruct (decide (parent c = j)) as [Hpj|]; [by apply Hc; [|lia|]|by apply Ho].
  - intros Hi0 c Hc0 Hpc. pose proof (parent_lt i Hi0). pose proof (parent_lt c Hc0).
    destruct (decide (c < length h)%nat) as [Hcl|Hcl].
    2: { intros x y _ Hy. apply lookup_lt_Some in Hy. rewrite length_Swap in Hy. lia. }
    assert (le_at h (parent i) i) as Hpi by (apply Ho; lia).
    rewrite le_at_Swap by lia. unfold transpose at 1. rewrite !decide_False by lia.
    unfold transpose. rewrite decide_False by lia. destruct (decide (c = j)) as [->|Hcj]; [done|].
    apply (le_at_trans h _ i); [lia|done|]. rewrite <- Hpc. apply Ho; [lia|done].
  - rewrite length_Swap in Ho'. split; [done|]. rewrite Hp'. apply Swap_perm; lia.
Qed.

(** [down] repairs the order below [n] of a heap in which only [i] may be greater than
    its children, and leaves the rest alone. *)
Lemma down_ordered fuel h i n :
  (n - i < fuel)%nat -> (i < n)%nat -> (n <= length h)%nat ->
  (forall c, (0 < c < n)%nat -> parent c <> i -> le_at h (parent c) c) ->
  ((0 < i)%nat -> forall c, (0 < c < n)%nat -> parent c = i -> le_at h (parent i) c) ->
  ordered_but 0 n (down fuel h i n) /\ down fuel h i n ≡ₚ h /\
  (forall k, (n <= k)%nat -> down fuel h i n !! k = h !! k).
Proof.
  revert h i. induction fuel as [|fuel IH]; intros h i Hf Hi Hn Ho Hc; [lia|]. cbn [down].
  destruct (Nat.leb_spec n (2 * i + 1)) as [Hend|Hj1].
  { split; [|done]. intros c Hcn _. apply Ho; [done|].
    intros E. apply parent_children in E; lia. }
  set (j := if _ && _ then _ else _).
  assert ((j = 2 * i + 1 \/ j = 2 * i + 2)%nat /\ (j < n)%nat /\
    forall c, (0 < c < n)%nat -> parent c = i -> le_at h j c) as (Hji&Hjn&Hmin).
  { subst j. pose proof (Less_spec h (2 * i + 1 + 1) (2 * i + 1)) as Hl.
    assert (forall k, le_at h k k) as Hrefl by (intros k x y Hx Hy; simplify_eq; apply ble_refl).
    destruct (Nat.ltb_spec (2 * i + 1 + 1) n) as [Hj2|Hj2]; cbn [andb].
    - specialize (Hl ltac:(lia) ltac:(lia)). destruct (Less _ _ _); (split; [lia|split; [lia|]]);
        intros c Hcn Hpc; apply parent_children in Hpc as [->| ->]; try lia; try done;
        by replace (2 * i + 2)%nat with (2 * i + 1 + 1)%nat by lia.
    - split; [lia|split; [lia|]]. intros c Hcn Hpc. apply parent_children in Hpc as [->| ->]; [done|lia|lia]. }
  clearbody j. assert (parent j = i) as Hpj.
  { unfold parent. destruct Hji as [->| ->].
    - replace (2 * i + 1 - 1)%nat with (i * 2)%nat by lia. by apply Nat.div_mul.
    - replace (2 * i + 2 - 1)%nat with (1 + i * 2)%nat by lia. by rewrite Nat.div_add. }
  pose proof (Less_spec h j i ltac:(lia) ltac:(lia)) as Hl. destruct (Less h j i); cbn [negb].
  2: { split; [|done]. intros c Hcn _. destruct (decide (parent c = i)) as [E|E]; [|by apply Ho].
       rewrite E. apply (le_at_trans h i j c); [lia|done|by apply Hmin]. }
  destruct (IH (Swap i j h) j) as (Ho'&Hp'&Hk'); [lia|lia|rewrite length_Swap; lia| | |].
  - intros c Hcn Hpc. rewrite le_at_Swap by lia. pose proof (parent_lt c ltac:(lia)).
    unfold transpose. destruct (decide (c = i)) as [->|Hci].
    { rewrite !decide_False by lia. by apply Hc; [lia|lia|]. }
    destruct (decide (c = j)) as [->|Hcj].
    { by rewrite decide_True by done. }
    destruct (decide (parent c = i)) as [E|E]; [by apply Hmin|].
    rewrite decide_False by done. by apply Ho.
  - intros _ c Hcn Hpc. rewrite le_at_Swap by lia. rewrite Hpj. pose proof (parent_lt c ltac:(lia)).
    unfold transpose. rewrite decide_True by done. rewrite !decide_False by lia.
    rewrite <- Hpc. apply Ho; [lia|lia].
  - split; [done|]. split; [rewrite Hp'; apply Swap_perm; lia|].
    intros k Hk. rewrite Hk', lookup_Swap by lia. unfold transpose. by rewrite !decide_False by lia.
Qed.

(** A heap: the order holds throughout. *)
Definition is_heap (h : BytesHeap) : Prop := ordered_but 0 (length h) h.

Lemma is_heap_nil : is_heap [].
Proof. intros c Hc. cbn [length] in Hc. lia. Qed.

(** The root is the least key. *)
Lemma heap_min h x y : is_heap h -> h !! 0%nat = Some x -> y ∈ h -> ble (kv_Key x) (kv_Key y).
Proof.
  intros Hh Hx [i Hy]%list_elem_of_lookup.
  assert (forall k, (k < length h)%nat -> le_at h 0 k) as Hk.
  { intros k. induction k as [k IH] using lt_wf_ind. intros Hk.
    destruct (decide (k = 0)%nat) as [->|Hk0]; [intros a b Ha Hb; simplify_eq; apply ble_refl|].
    pose proof (parent_lt k ltac:(lia)). apply (le_at_trans h 0 (parent k) k); [lia|apply IH; lia|].
    apply Hh; lia. }
  by apply (Hk i (lookup_lt_Some _ _ _ Hy)).
Qed.

Lemma Push_heap x h : is_heap h -> is_heap (Push x h) /\ Push x h ≡ₚ x :: h.
Proof.
  intros Hh. unfold Push, is_heap. rewrite length_up.
  destruct (up_ordered (S (length h)) (h ++ [x]) (length h)) as [Ho Hp].
  - lia.
  - rewrite length_app. simpl. lia.
  - rewrite length_app. intros c Hc Hne a b. pose proof (parent_lt c ltac:(lia)). cbn [length] in Hc.
    rewrite !lookup_app_l by lia. apply Hh; lia.
  - intros Hj c Hc Hpc a b _ Hb. apply lookup_lt_Some in Hb. rewrite length_app in Hb.
    pose proof (parent_lt c Hc). cbn [length] in Hb. lia.
  - split; [done|]. rewrite Hp. symmetry. apply Permutation_cons_append.
Qed.

(** [Pop] takes a least element off. *)
Lemma Pop_heap h : is_heap h ->
  match Pop h with
  | None => h = []
  | Some (x, h') => is_heap h' /\ h ≡ₚ x :: h' /\ forall y, y ∈ h -> ble (kv_Key x) (kv_Key y)
  end.
Proof.
  intros Hh. unfold Pop. destruct (decide (h = [])) as [->|Hne]; [done|].
  assert (0 < length h)%nat as Hl by (destruct h; [done|simpl; lia]).
  set (n := (length h - 1)%nat). destruct (lookup_lt_is_Some_2 h 0 Hl) as [x Hx].
  assert (forall k, k <> 0%nat -> k <> n -> Swap 0 n h !! k = h !! k) as Hk.
  { intros k Hk0 Hkn. rewrite lookup_Swap by lia. unfold transpose. by rewrite !decide_False by done. }
  assert (Swap 0 n h !! n = Some x) as Hn.
  { rewrite lookup_Swap by lia. unfold transpose. destruct (decide (n = 0)%nat) as [->|]; [done|].
    by rewrite decide_True by done. }
  assert (ordered_but 0 n (down (S n) (Swap 0 n h) 0 n) /\ down (S n) (Swap 0 n h) 0 n ≡ₚ h /\
    down (S n) (Swap 0 n h) 0 n !! n = Some x) as (Ho&Hp&Hd).
  { destruct (decide (n = 0)%nat) as [->|Hn0].
    { cbn [down Nat.leb]. split; [intros c Hc; lia|]. split; [by apply Swap_perm|done]. }
    destruct (down_ordered (S n) (Swap 0 n h) 0 n) as (Ho&Hp&Hd);
      [lia|lia|rewrite length_Swap; lia| |lia|].
    - intros c Hc Hpc a b. pose proof (parent_lt c ltac:(lia)). rewrite !Hk by lia. apply Hh; lia.
    - split; [done|]. split; [rewrite Hp; apply Swap_perm; lia|by rewrite Hd by lia]. }
  set (d := down _ _ _ _) in *. assert (length d = S n) as Hdl by (rewrite (Permutation_length Hp); lia).
  rewrite last_lookup, Hdl. cbn [pred]. rewrite Hd.
  assert (d = removelast d ++ [x]) as Ed.
  { destruct d as [|y d' _] using rev_ind; [done|]. rewrite removelast_last. f_equal.
    rewrite lookup_app_r in Hd by (rewrite length_app in Hdl; simpl in Hdl; lia).
    rewrite length_app in Hdl. simpl in Hdl. replace (n - length d')%nat with 0%nat in Hd by lia.
    by injection Hd as ->. }
  assert (length (removelast d) = n) as Hr.
  { apply (f_equal length) in Ed. rewrite length_app, Hdl in Ed. simpl in Ed. lia. }
  split; [|split].
  - intros c Hc _ a b Ha Hb. pose proof (parent_lt c ltac:(lia)). rewrite Hr in Hc.
    apply (Ho c ltac:(lia) ltac:(lia)); rewrite Ed; by apply lookup_app_l_Some.
  - rewrite <- Hp. rewrite Ed at 1. symmetry. apply Permutation_cons_append.
  - intros y Hy. by eapply heap_min.
Qed.

End Heap.
