(* ===== verification/SetAlgebra.v ===== *)
(** store/iter.go and the set algebra of command/set.go: SINTER, SUNION and SDIFF and
    the commands that store their results, for sets (the sorted-set commands use the
    same functions with scores). *)

From S2P Require Import Prelude Xerror GoStd Utils Store Ranges Mem Object Reply ObjectSpec.
From S2P Require Import Generic HashCmd SetCmd Heap.
From Stdlib Require Import Init.Byte.

#[local] Open Scope Z_scope.

(** [bytes.Equal]; nil and an empty slice are equal. *)
Definition bytes_Equal (a b : bytes) : bool := bool_decide (a = b).

Section iter.
Context `{Platform}.

(** ** Several iterators at once *)

Record IterScan := {
  is_prefix : bytes;
  is_current : bytes;
  is_curValue : bytes;
  is_idx : nat;
  is_iter : Iter
}.

(** The map [IterList.iters] as a list. Go visits a map in an arbitrary order; what the
    functions below return does not depend on it, except for which of several errors of
    the store is reported. *)
Definition IterScans : Type := list IterScan.

(** [IterList.Add]. *)
Definition Add (prefix : bytes) (idx : nat) (iter : Iter) (l : IterScans) : IterScans :=
  l ++ [{| is_prefix := prefix; is_current := prefix; is_curValue := []; is_idx := idx; is_iter := iter |}].

Definition advanced (cur v : bytes) (iter : Iter) (it : IterScan) : IterScan :=
  {| is_prefix := is_prefix it; is_current := cur; is_curValue := v; is_idx := is_idx it; is_iter := iter |}.

(** Whether the iterator is at the key, past it, or has no entry at or after it. *)
Inductive position := At (value : bytes) | Past | Finished.

Definition cur_suffix (it : IterScan) : bytes := drop (length (is_prefix it)) (is_current it).

(** The inner loop of [NextUntil]. *)
Fixpoint seek (fuel : nat) (key : bytes) (it : IterScan) : M (error + IterScan * position) :=
  match fuel with
  | O => diverge
  | S fuel =>
      let iter := is_iter it in
      if negb (it_Valid iter) then ret (inr (it, Finished))
      else
        match it_Next iter with
        | (Some e, _) => ret (inl (Tikv e))
        | (None, iter') =>
            let it := advanced (it_Key iter) (it_Value iter) iter' it in
            if len (is_current it) >=? len (is_prefix it) then
              match bytes_compare (cur_suffix it) key with
              | Lt => seek fuel key it
              | Eq => ret (inr (it, At (is_curValue it)))
              | Gt => ret (inr (it, Past))
              end
            else seek fuel key it
        end
  end.

(** One iterator of [NextUntil]. The debug message slices the current key first, which
    panics when it is shorter than the prefix. *)
Definition visit (key : bytes) (it : IterScan) : M (error + IterScan * position) :=
  if len (is_current it) <? len (is_prefix it) then panic
  else
    match bytes_compare (cur_suffix it) key with
    | Eq => ret (inr (it, At (is_curValue it)))
    | Gt => ret (inr (it, Past))
    | Lt => seek (S (it_size (is_iter it))) key it
    end.

(** [IterList.NextUntil]: the values of the iterators that are at the key; with [all],
    none as soon as one iterator is past it, otherwise the first one. *)
Fixpoint NextUntil (key : bytes) (all : bool) (l : IterScans) (values : list (nat * bytes)) :
    M (error + IterScans * list (nat * bytes)) :=
  match l with
  | [] => ret (inr ([], values))
  | it :: l =>
      val! (it, p) := visit key it else (fun e => ret (inl e)) in
      let continue values :=
        val! (l, values) := NextUntil key all l values else (fun e => ret (inl e)) in
        ret (inr (it :: l, values)) in
      match p with
      | At v => if all then continue (values ++ [(is_idx it, v)])
                else ret (inr (it :: l, values ++ [(is_idx it, v)]))
      | Past => if all then ret (inr (it :: l, [])) else continue values
      | Finished => continue values
      end
  end.

(** ** Merging *)

Record IterList := { il_iters : IterScans; il_heap : list Heap.KV }.

(** The loop of [Next] over one iterator: its next entry that is no shorter than the
    prefix goes into the heap. *)
Fixpoint pull (fuel : nat) (it : IterScan) (heap : list Heap.KV) : M (error + IterScan * list Heap.KV) :=
  match fuel with
  | O => diverge
  | S fuel =>
      let iter := is_iter it in
      if negb (it_Valid iter) then ret (inr (it, heap))
      else
        let cur := it_Key iter in
        let long := len cur >=? len (is_prefix it) in
        let heap :=
          if long
          then Heap.Push {| Heap.kv_Idx := is_idx it; Heap.kv_Key := drop (length (is_prefix it)) cur;
                            Heap.kv_Value := it_Value iter |} heap
          else heap in
        match it_Next iter with
        | (Some e, _) => ret (inl (Tikv e))
        | (None, iter') =>
            let it := advanced (is_current it) (is_curValue it) iter' it in
            if long then ret (inr (it, heap)) else pull fuel it heap
        end
  end.

(** Every iterator once; those that are exhausted are dropped. *)
Fixpoint pull_all (l : IterScans) (heap : list Heap.KV) : M (error + IterScans * list Heap.KV) :=
  match l with
  | [] => ret (inr ([], heap))
  | it :: l =>
      val! (it, heap) := pull (S (it_size (is_iter it))) it heap else (fun e => ret (inl e)) in
      val! (l, heap) := pull_all l heap else (fun e => ret (inl e)) in
      ret (inr (if it_Valid (is_iter it) then it :: l else l, heap))
  end.

(** [IterList.Next]: [None] is the zero [KV]. *)
Definition Next (il : IterList) : M (error + IterList * option Heap.KV) :=
  val! (l, heap) := pull_all (il_iters il) (il_heap il) else (fun e => ret (inl e)) in
  match heap with
  | [] => ret (inr ({| il_iters := l; il_heap := [] |}, None))
  | _ =>
      match Heap.Pop heap with
      | Some (kv, heap) => ret (inr ({| il_iters := l; il_heap := heap |}, Some kv))
      | None => panic
      end
  end.

End iter.

Section algebra.
Context `{Platform}.

(** The prefix of the members of a set ([GetKeyFuncs] of its type, without data). *)
Definition member_prefix (o : Object) : bytes := GetValueBytes o [].

(** The result, the iterators over the other sets once they are open, and [cbErr]. *)
Record scan := { sc_ret : list bytes; sc_iters : option IterScans; sc_cbErr : option error }.

(** Opening the iterators of [llist] at the first member [k]. *)
Fixpoint open_iters (k : bytes) (llist : list (nat * Object)) (l : IterScans) : M (error + IterScans) :=
  match llist with
  | [] => ret (inr l)
  | (idx, o) :: llist =>
      let p := member_prefix o in
      let s := GetValueBytes o k in
      let e := Bytes.PrefixNext p in
      val! iter := IterOf s e false else (fun e => ret (inl e)) in
      open_iters k llist (Add p idx iter l)
  end.

Definition opened (k : bytes) (llist : list (nat * Object)) (iters : option IterScans) :
    M (error + option IterScans) :=
  match iters, llist with
  | Some l, _ => ret (inr (Some l))
  | None, [] => ret (inr None)
  | None, _ => val! l := open_iters k llist [] else (fun e => ret (inl e)) in ret (inr (Some l))
  end.

(** *** Intersection *)

(** The objects of the arguments, or [None] when a key is missing, after the rest has been checked. *)
Fixpoint inter_objects (args : list bytes) (acc : list Object) : M (error + option (list Object)) :=
  match args with
  | [] => ret (inr (Some acc))
  | a :: args =>
      let! (o, err) := lookup SetType a false in
      match err with
      | Some KeyNotFound =>
          do! checkValidObjectArgs args SetType else (fun e => ret (inl e)) in ret (inr None)
      | Some e => ret (inl e)
      | None => inter_objects args (acc ++ [o])
      end
  end.

(** The get check: [None] when every set has the member, otherwise why not. *)
Fixpoint get_all (glist : list (nat * Object)) (k : bytes) : M (option error) :=
  match glist with
  | [] => ret None
  | (_, o) :: glist =>
      let! r := Get (GetValueBytes o k) in
      match r with inl e => ret (Some e) | inr _ => get_all glist k end
  end.

Definition inter_callback (start : bytes) (llist glist : list (nat * Object)) : Callback scan :=
  fun s key _ =>
    let go l iters := ret ({| sc_ret := l; sc_iters := iters; sc_cbErr := None |}, true) in
    let stop iters e := ret ({| sc_ret := sc_ret s; sc_iters := iters; sc_cbErr := Some e |}, false) in
    if len key <? len start then ret (s, true)
    else
      let k := drop (length start) key in
      val! iters := opened k llist (sc_iters s) else stop (sc_iters s) in
      let get_check iters :=
        let! r := get_all glist k in
        match r with
        | None => go (sc_ret s ++ [k]) iters
        | Some KeyNotFound => go (sc_ret s) iters
        | Some e => stop iters e
        end in
      match iters with
      | None => get_check None
      | Some l =>
          val! (l, values) := NextUntil k true l [] else stop iters in
          if len values <? len llist then go (sc_ret s) (Some l) else get_check (Some l)
      end.

Definition numbered (os : list Object) : list (nat * Object) := imap (fun i o => (S i, o)) os.
Definition no_scan : scan := {| sc_ret := []; sc_iters := None; sc_cbErr := None |}.

Definition inter (args : list bytes) : M (error + list bytes) :=
  val! objects := inter_objects args [] else (fun e => ret (inl e)) in
  match objects with
  | None => ret (inr [])
  | Some [] => panic
  | Some (object :: others) =>
      let! c := get_config in
      let by_scan := String.eqb (SetOperation c) SETOP_SCAN in
      let llist := if by_scan then numbered others else [] in
      let glist := if by_scan then [] else numbered others in
      let start := member_prefix object in
      let end_ := Bytes.PrefixNext start in
      let! (s, err) := List start end_ (ScanMaxCount c) (inter_callback start llist glist) no_scan in
      match sc_cbErr s, err with
      | Some e, _ => ret (inl e)
      | None, Some e => ret (inl e)
      | None, None => ret (inr (sc_ret s))
      end
  end.

(** *** Union *)

Fixpoint union_iters (args : list bytes) (i : nat) (l : IterScans) : M (error + IterScans) :=
  match args with
  | [] => ret (inr l)
  | a :: args =>
      let! (object, err) := lookup SetType a false in
      match err with
      | Some KeyNotFound => union_iters args (S i) l
      | Some e => ret (inl e)
      | None =>
          let p := member_prefix object in
          val! iter := IterOf p (Bytes.PrefixNext p) false else (fun e => ret (inl e)) in
          union_iters args (S i) (Add p i iter l)
      end
  end.

(** The loop of [union]: a key is appended when a different one follows it. *)
Fixpoint union_loop (fuel : nat) (il : IterList) (preKey : option bytes) (l : list bytes) :
    M (error + list bytes) :=
  match fuel with
  | O => diverge
  | S fuel =>
      val! (il, kv) := Next il else (fun e => ret (inl e)) in
      let key := from_option Heap.kv_Key [] kv in
      let l := match preKey with
               | Some p => if bytes_Equal p key then l else l ++ [p]
               | None => l
               end in
      match kv with
      | None => ret (inr l)
      | Some _ => union_loop fuel il (Some key) l
      end
  end.

Definition entries_bound (l : IterScans) : nat := list_sum (it_size ∘ is_iter <$> l).

Definition union (args : list bytes) : M (error + list bytes) :=
  val! l := union_iters args 0 [] else (fun e => ret (inl e)) in
  union_loop (S (entries_bound l)) {| il_iters := l; il_heap := [] |} None [].

(** *** Difference *)

Fixpoint diff_objects (args : list bytes) (i : nat) (acc : list (nat * Object)) :
    M (error + list (nat * Object)) :=
  match args with
  | [] => ret (inr acc)
  | a :: args =>
      let! (o, err) := lookup SetType a false in
      match err with
      | Some KeyNotFound => diff_objects args (S i) acc
      | Some e => ret (inl e)
      | None => diff_objects args (S i) (acc ++ [(i, o)])
      end
  end.

(** The get check: whether some set has the member. *)
Fixpoint get_any (glist : list (nat * Object)) (k : bytes) : M (error + bool) :=
  match glist with
  | [] => ret (inr false)
  | (_, o) :: glist =>
      let! r := Get (GetValueBytes o k) in
      match r with
      | inr _ => ret (inr true)
      | inl KeyNotFound => get_any glist k
      | inl e => ret (inl e)
      end
  end.

Definition diff_callback (start : bytes) (llist glist : list (nat * Object)) : Callback scan :=
  fun s key _ =>
    let go l iters := ret ({| sc_ret := l; sc_iters := iters; sc_cbErr := None |}, true) in
    let stop iters e := ret ({| sc_ret := sc_ret s; sc_iters := iters; sc_cbErr := Some e |}, false) in
    if len key <? len start then ret (s, true)
    else
      let k := drop (length start) key in
      val! iters := opened k llist (sc_iters s) else stop (sc_iters s) in
      val! found := get_any glist k else stop iters in
      if found : bool then go (sc_ret s) iters
      else
        match iters with
        | None => go (sc_ret s ++ [k]) None
        | Some l =>
            val! (l, values) := NextUntil k false l [] else stop iters in
            if len values >? 0 then go (sc_ret s) (Some l) else go (sc_ret s ++ [k]) (Some l)
        end.

Definition diff (args : list bytes) : M (error + list bytes) :=
  let! (object, err) := lookup SetType (arg 0 args) false in
  match err with
  | Some KeyNotFound =>
      do! checkValidObjectArgs (drop 1 args) SetType else (fun e => ret (inl e)) in ret (inr [])
  | Some e => ret (inl e)
  | None =>
      let start := member_prefix object in
      let end_ := Bytes.PrefixNext start in
      let! c := get_config in
      if len args =? 1 then
        let! (l, err) :=
          List start end_ (ScanMaxCount c)
            (fun l key _ => ret (if len key <? len start then l else l ++ [drop (length start) key], true)) [] in
        match err with Some e => ret (inl e) | None => ret (inr l) end
      else
        val! others := diff_objects (drop 1 args) 1 [] else (fun e => ret (inl e)) in
        let by_get := String.eqb (SetOperation c) SETOP_GET in
        let llist := if by_get then [] else others in
        let glist := if by_get then others else [] in
        let! (s, err) := List start end_ (ScanMaxCount c) (diff_callback start llist glist) no_scan in
        match sc_cbErr s, err with
        | Some e, _ => ret (inl e)
        | None, Some e => ret (inl e)
        | None, None => ret (inr (sc_ret s))
        end
  end.

(** *** Handlers *)

Definition SInterHandle : TxnHandle := fun args =>
  if len args <? 1 then wrong_args "sinter" else reply_bulks (inter args).
Definition SUnionHandle : TxnHandle := fun args =>
  if len args <? 1 then wrong_args "sunion" else reply_bulks (union args).
Definition SDiffHandle : TxnHandle := fun args =>
  if len args <? 1 then wrong_args "sdiff" else reply_bulks (diff args).

Fixpoint sstore_loop (object : Object) (ms : list bytes) : M (option error) :=
  match ms with
  | [] => ret None
  | k :: ms =>
      let! t := get_txn in
      let svalue := {| v_Timestamp := t_Timestamp t; v_Value := [] |} in
      let! (_, err) := PutOrDeleteKV object (GetValueBytes object k) (Some (EncodeValue svalue)) 1 in
      match err with Some e => ret (Some e) | None => sstore_loop object ms end
  end.

Definition sstore (args : list bytes) (sfunc : list bytes -> M (error + list bytes)) : M reply :=
  val! l := sfunc (drop 1 args) else reply_err in
  let create := len l >? 0 in
  let! (object, err) := DeleteThenCreateUUIDObject SetType (arg 0 args) create in
  match err with
  | Some e => reply_err e
  | None =>
      if negb create then ret (RInt 0)
      else do! sstore_loop object l else reply_err in ret (RInt (len l))
  end.

Definition SUnionStoreHandle : TxnHandle := fun args =>
  if len args <? 2 then wrong_args "sunionstore" else sstore args union.
Definition SInterStoreHandle : TxnHandle := fun args =>
  if len args <? 2 then wrong_args "sinterstore" else sstore args inter.
Definition SDiffStoreHandle : TxnHandle := fun args =>
  if len args <? 2 then wrong_args "sdiffstore" else sstore args diff.

End algebra.
