(* ===== verification/ZAlgebra.v ===== *)
(** The algebra of sorted sets: ZINTER, ZINTERCARD, ZUNION, ZDIFF and the commands that
    store their results (command/zset.go), and what inter, union and diff of
    command/set.go do for them. A key may also hold a set, whose members count as 1. *)

From S2P Require Import Prelude Xerror GoStd Utils Float Strconv Store Ranges Mem Object Reply.
From S2P Require Import ObjectSpec Generic HashCmd SetCmd Heap SetAlgebra Rank ZSet.
From Stdlib Require Import Init.Byte.

#[local] Open Scope Z_scope.

(** Go visits a map in an arbitrary order, and the sum of three scores depends on it. *)
Class MapOrder := {
  map_order : list (nat * bytes) -> list (nat * bytes);
  map_order_perm l : map_order l ≡ₚ l
}.

(** ** Options *)

Definition OnlyKey : Z := 1.
Definition OnlyValue : Z := 2.
Definition BothKV : Z := Z.lor OnlyKey OnlyValue.
Definition MinAGG : Z := 4.
Definition MaxAGG : Z := 8.
Definition SumAGG : Z := 16.
Definition has_flag (getType flag : Z) : bool := Z.land getType flag =? flag.

Record zsetOptions := { za_num : Z; za_weights : list float64; za_getType : Z }.

Definition add_type (flag : Z) (opt : zsetOptions) : zsetOptions :=
  {| za_num := za_num opt; za_weights := za_weights opt; za_getType := Z.lor (za_getType opt) flag |}.
Definition set_weights (w : list float64) (opt : zsetOptions) : zsetOptions :=
  {| za_num := za_num opt; za_weights := w; za_getType := za_getType opt |}.

Fixpoint parse_weights (args : list bytes) : option (list float64) :=
  match args with
  | [] => Some []
  | a :: args =>
      match ParseFloat a with
      | Some w => if isNaN w then None else cons w <$> parse_weights args
      | None => None
      end
  end.

(** The loop over the options behind the keys; [skip] counts the words that have been
    read as the weights of an option before them. *)
Fixpoint zset_options (args : list bytes) (skip : nat) (opt : zsetOptions) (agg : bool) :
    error + (zsetOptions * bool) :=
  match args, skip with
  | [], _ => inr (opt, agg)
  | _ :: args, S skip => zset_options args skip opt agg
  | a :: args, O =>
      if lower_is a "weights" then
        if len args <? za_num opt then inl (ErrSyntax : error)
        else match parse_weights (take (Z.to_nat (za_num opt)) args) with
             | None => inl (InvalidWeight : error)
             | Some w => zset_options args (Z.to_nat (za_num opt)) (set_weights w opt) agg
             end
      else if lower_is a "withscores" then zset_options args 0 (add_type BothKV opt) agg
      else if lower_is a "aggregate" then
        match args with
        | [] => inl (ErrSyntax : error)
        | b :: _ =>
            if lower_is b "sum" then zset_options args 1 (add_type SumAGG opt) true
            else if lower_is b "min" then zset_options args 1 (add_type MinAGG opt) true
            else if lower_is b "max" then zset_options args 1 (add_type MaxAGG opt) true
            else inl (ErrSyntax : error)
        end
      else inl (ErrSyntax : error)
  end.

Section algebra.
Context `{Platform} `{MapOrder}.

(** When the number of keys is the largest integer, the index of the first option is
    negative. *)
Definition checkZsetOptions (args : list bytes) : M (error + zsetOptions) :=
  match Int.GetPositiveInt (arg 0 args) with
  | (_, Some _) => ret (inl (ErrNotPositiveInteger : error))
  | (num, None) =>
      let first := i64 (num + 1) in
      if len args <? first then ret (inl (ErrSyntax : error))
      else if first <? 0 then panic
      else
        let opt := {| za_num := num; za_weights := []; za_getType := OnlyKey |} in
        ret match zset_options (drop (Z.to_nat first) args) 0 opt false with
            | inl e => inl e
            | inr (opt, agg) => inr (if agg : bool then opt else add_type SumAGG opt)
            end
  end.

(** ** Scores *)

Definition one_number : Number := float_number fone.

(** The score of an entry: a set keeps none, which counts as 1. *)
Definition entry_score (value : bytes) : M Number :=
  let v := decoded_value value in
  if len v >? 0 then decode_number (float_number 0) v else ret one_number.

Definition times (n : Number) (w : float64) : Number := mkNumber (IsInt n) (Uint64 n) (fmul (Float64 n) w).

Definition weighted (weights : list float64) (idx : nat) (n : Number) : M Number :=
  if len weights >? 0 then
    match weights !! idx with Some w => ret (times n w) | None => panic end
  else ret n.

Definition weighted_score (weights : list float64) (idx : nat) (value : bytes) : M Number :=
  let! s := entry_score value in weighted weights idx s.

Definition aggregate (getType : Z) (score s : Number) : Number :=
  if has_flag getType SumAGG then Number_Add score s
  else if has_flag getType MaxAGG then (if Number_Compare s score >? 0 then s else score)
  else if has_flag getType MinAGG then (if Number_Compare s score <? 0 then s else score)
  else score.

Fixpoint aggregate_all (weights : list float64) (getType : Z) (vs : list (nat * bytes)) (score : Number) :
    M Number :=
  match vs with
  | [] => ret score
  | (idx, v) :: vs =>
      let! s := weighted_score weights idx v in
      aggregate_all weights getType vs (aggregate getType score s)
  end.

(** ** Keys *)

(** [GetKeyFuncs] of the object's type. *)
Definition entry_key (o : Object) (k : bytes) : bytes :=
  if beq (o_Type o) SetType then GetValueBytes o k else GetZsetKey o k.

(** A key with a sorted set, or with a set where [sets] allows it. *)
Definition lookup_z (sets : bool) (a : bytes) : M (Object * option error) :=
  let! (o, err) := lookup ZsetType a false in
  ret (o, match err with
          | Some (Sentinel WrongTypeErr) => if sets && beq (o_Type o) SetType then None else err
          | _ => err
          end).

Fixpoint zopen_iters (k : bytes) (llist : list (nat * Object)) (l : IterScans) : M (error + IterScans) :=
  match llist with
  | [] => ret (inr l)
  | (idx, o) :: llist =>
      let p := entry_key o [] in
      val! iter := IterOf (entry_key o k) (Bytes.PrefixNext p) false else (fun e => ret (inl e)) in
      zopen_iters k llist (Add p idx iter l)
  end.

Definition zopened (k : bytes) (llist : list (nat * Object)) (iters : option IterScans) :
    M (error + option IterScans) :=
  match iters, llist with
  | Some l, _ => ret (inr (Some l))
  | None, [] => ret (inr None)
  | None, _ => val! l := zopen_iters k llist [] else (fun e => ret (inl e)) in ret (inr (Some l))
  end.

Record zscan := { zs_ret : list item; zs_iters : option IterScans; zs_cbErr : option error }.
Definition no_zscan : zscan := {| zs_ret := []; zs_iters := None; zs_cbErr := None |}.

Definition scan_end (r : zscan * option error) : M (error + list item) :=
  ret match zs_cbErr (fst r), snd r with
      | Some e, _ => inl e
      | None, Some e => inl e
      | None, None => inr (zs_ret (fst r))
      end.

(** ** Intersection *)

Fixpoint zinter_objects (args : list bytes) (acc : list Object) : M (error + option (list Object)) :=
  match args with
  | [] => ret (inr (Some acc))
  | a :: args =>
      let! (o, err) := lookup_z true a in
      match err with
      | Some KeyNotFound =>
          do! checkValidObjectArgs args ZsetType else (fun e => ret (inl e)) in ret (inr None)
      | Some e => ret (inl e)
      | None => zinter_objects args (acc ++ [o])
      end
  end.

(** The entries of the member in every collection, or why there are not. *)
Fixpoint get_values (glist : list (nat * Object)) (k : bytes) (values : list (nat * bytes)) :
    M (error + list (nat * bytes)) :=
  match glist with
  | [] => ret (inr values)
  | (idx, o) :: glist =>
      let! r := Get (entry_key o k) in
      match r with
      | inl e => ret (inl e)
      | inr v => get_values glist k (values ++ [(idx, v)])
      end
  end.

(** What a member that stays adds to the result. *)
Definition with_score (getType : Z) (k : bytes) (score : M Number) (l : list item) : M (list item) :=
  let l := if has_flag getType OnlyKey then l ++ [IMember k] else l in
  if has_flag getType OnlyValue then let! s := score in ret (l ++ [IScore s]) else ret l.

Definition zinter_callback (start : bytes) (llist glist : list (nat * Object)) (getType : Z)
    (weights : list float64) : Callback zscan :=
  fun s key value =>
    let go l iters := ret ({| zs_ret := l; zs_iters := iters; zs_cbErr := None |}, true) in
    let stop iters e := ret ({| zs_ret := zs_ret s; zs_iters := iters; zs_cbErr := Some e |}, false) in
    if len key <? len start then ret (s, true)
    else
      let k := drop (length start) key in
      val! iters := zopened k llist (zs_iters s) else stop (zs_iters s) in
      let get_check iters lvalues :=
        let! r := get_values glist k lvalues in
        match r with
        | inl KeyNotFound => go (zs_ret s) iters
        | inl e => stop iters e
        | inr lvalues =>
            let score :=
              let! first := weighted_score weights 0 value in
              aggregate_all weights getType (map_order lvalues) first in
            let! l := with_score getType k score (zs_ret s) in
            go l iters
        end in
      match iters with
      | None => get_check None []
      | Some l =>
          val! (l, values) := NextUntil k true l [] else stop iters in
          if len values <? len llist then go (zs_ret s) (Some l) else get_check (Some l) values
      end.

Definition zinter (args : list bytes) (getType : Z) (weights : list float64) : M (error + list item) :=
  val! objects := zinter_objects args [] else (fun e => ret (inl e)) in
  match objects with
  | None => ret (inr [])
  | Some [] => panic
  | Some (object :: others) =>
      let! c := get_config in
      let by_scan := String.eqb (SetOperation c) SETOP_SCAN in
      let llist := if by_scan then numbered others else [] in
      let glist := if by_scan then [] else numbered others in
      let start := entry_key object [] in
      let! r := List start (Bytes.PrefixNext start) (ScanMaxCount c)
                  (zinter_callback start llist glist getType weights) no_zscan in
      scan_end r
  end.

(** ** Union *)

Fixpoint zunion_iters (args : list bytes) (i : nat) (l : IterScans) : M (error + IterScans) :=
  match args with
  | [] => ret (inr l)
  | a :: args =>
      let! (object, err) := lookup_z true a in
      match err with
      | Some KeyNotFound => zunion_iters args (S i) l
      | Some e => ret (inl e)
      | None =>
          let p := entry_key object [] in
          val! iter := IterOf p (Bytes.PrefixNext p) false else (fun e => ret (inl e)) in
          zunion_iters args (S i) (Add p i iter l)
      end
  end.

(** The score so far with the score of one more entry; [restart] holds at the first entry
    of a member. *)
Definition union_score (getType : Z) (restart : bool) (preScore score : Number) : Number :=
  if has_flag getType SumAGG then Number_Add preScore score
  else if has_flag getType MaxAGG then
    (if restart || (Number_Compare score preScore >? 0) then score else preScore)
  else if has_flag getType MinAGG then
    (if restart || (Number_Compare score preScore <? 0) then score else preScore)
  else preScore.

(** A member and its score are appended. *)
Definition flush (getType : Z) (member : bytes) (score : Number) (l : list item) : list item :=
  let l := if has_flag getType OnlyKey then l ++ [IMember member] else l in
  if has_flag getType OnlyValue then l ++ [IScore score] else l.

(** The loop of [union]; [first] holds in its first round. A member is
    appended when a different one follows. *)
Fixpoint zunion_loop (fuel : nat) (getType : Z) (weights : list float64) (il : IterList)
    (preKey : option bytes) (preScore : Number) (first : bool) (l : list item) : M (error + list item) :=
  match fuel with
  | O => diverge
  | S fuel =>
      val! (il, kv) := Next il else (fun e => ret (inl e)) in
      let key := from_option Heap.kv_Key [] kv in
      let new := match preKey with Some p => negb (bytes_Equal p key) | None => false end in
      let scores := has_flag getType OnlyValue in
      let l := if new then flush getType (default [] preKey) preScore l else l in
      let preScore := if new && scores then float_number 0 else preScore in
      match kv with
      | None => ret (inr l)
      | Some kv =>
          let preKey := if has_flag getType OnlyKey then Some key else preKey in
          if scores then
            let! score := weighted_score weights (Heap.kv_Idx kv) (Heap.kv_Value kv) in
            zunion_loop fuel getType weights il preKey
              (union_score getType (first || new) preScore score) false l
          else zunion_loop fuel getType weights il preKey preScore false l
      end
  end.

Definition zunion (args : list bytes) (getType : Z) (weights : list float64) : M (error + list item) :=
  val! l := zunion_iters args 0 [] else (fun e => ret (inl e)) in
  zunion_loop (S (entries_bound l)) getType weights {| il_iters := l; il_heap := [] |} None (float_number 0) true [].

(** ** Difference *)

(** The first key may hold a set, the others must hold sorted sets. *)
Fixpoint zdiff_objects (args : list bytes) (i : nat) (acc : list (nat * Object)) :
    M (error + list (nat * Object)) :=
  match args with
  | [] => ret (inr acc)
  | a :: args =>
      let! (o, err) := lookup_z false a in
      match err with
      | Some KeyNotFound => zdiff_objects args (S i) acc
      | Some e => ret (inl e)
      | None => zdiff_objects args (S i) (acc ++ [(i, o)])
      end
  end.

Fixpoint zget_any (glist : list (nat * Object)) (k : bytes) : M (error + bool) :=
  match glist with
  | [] => ret (inr false)
  | (_, o) :: glist =>
      let! r := Get (entry_key o k) in
      match r with
      | inr _ => ret (inr true)
      | inl KeyNotFound => zget_any glist k
      | inl e => ret (inl e)
      end
  end.

Definition zdiff_callback (start : bytes) (llist glist : list (nat * Object)) (getType : Z) : Callback zscan :=
  fun s key value =>
    let go l iters := ret ({| zs_ret := l; zs_iters := iters; zs_cbErr := None |}, true) in
    let stop iters e := ret ({| zs_ret := zs_ret s; zs_iters := iters; zs_cbErr := Some e |}, false) in
    if len key <? len start then ret (s, true)
    else
      let k := drop (length start) key in
      val! iters := zopened k llist (zs_iters s) else stop (zs_iters s) in
      val! found := zget_any glist k else stop iters in
      if found : bool then go (zs_ret s) iters
      else
        let keep iters :=
          let! l := with_score getType k (entry_score value) (zs_ret s) in go l iters in
        match iters with
        | None => keep None
        | Some l =>
            val! (l, values) := NextUntil k false l [] else stop iters in
            if len values >? 0 then go (zs_ret s) (Some l) else keep (Some l)
        end.

(** A single key gives its members without their scores, whatever is asked for. *)
Definition zdiff (args : list bytes) (getType : Z) (weights : list float64) : M (error + list item) :=
  let! (object, err) := lookup_z true (arg 0 args) in
  match err with
  | Some KeyNotFound =>
      do! checkValidObjectArgs (drop 1 args) ZsetType else (fun e => ret (inl e)) in ret (inr [])
  | Some e => ret (inl e)
  | None =>
      let start := entry_key object [] in
      let end_ := Bytes.PrefixNext start in
      let! c := get_config in
      if len args =? 1 then
        let! (l, err) :=
          List start end_ (ScanMaxCount c)
            (fun l key _ => ret (if len key <? len start then l else l ++ [IMember (drop (length start) key)], true)) [] in
        match err with Some e => ret (inl e) | None => ret (inr l) end
      else
        val! others := zdiff_objects (drop 1 args) 1 [] else (fun e => ret (inl e)) in
        let by_get := String.eqb (SetOperation c) SETOP_GET in
        let llist := if by_get then [] else others in
        let glist := if by_get then others else [] in
        let! r := List start end_ (ScanMaxCount c) (zdiff_callback start llist glist getType) no_zscan in
        scan_end r
  end.

(** ** Handlers *)

(** The keys of a command: the [num] arguments after their number. *)
Definition key_args (num : Z) (args : list bytes) : list bytes := take (Z.to_nat num) (drop 1 args).

Definition ZDiffHandle : TxnHandle := fun args =>
  if len args <? 2 then wrong_args "zdiff"
  else match Int.GetPositiveInt (arg 0 args) with
       | (_, Some _) => reply_err ErrNotPositiveInteger
       | (num, None) =>
           if negb (len args =? i64 (num + 1)) && negb (len args =? i64 (num + 2)) then wrong_args "zdiff"
           else if len args =? i64 (num + 2) then
             if lower_is (arg (Z.to_nat (num + 1)) args) "withscores"
             then reply_items (zdiff (key_args num args) BothKV [])
             else reply_err ErrSyntax
           else reply_items (zdiff (key_args num args) OnlyKey [])
       end.

Definition ZInterHandle : TxnHandle := fun args =>
  if len args <? 2 then wrong_args "zinter"
  else
    val! opt := checkZsetOptions args else reply_err in
    reply_items (zinter (key_args (za_num opt) args) (za_getType opt) (za_weights opt)).

Definition ZInterCardHandle : TxnHandle := fun args =>
  if len args <? 2 then wrong_args "zintercard"
  else
    val! opt := checkZsetOptions args else reply_err in
    val! l := zinter (key_args (za_num opt) args) OnlyKey [] else reply_err in
    ret (RInt (len l)).

Definition ZUnionHandle : TxnHandle := fun args =>
  if len args <? 2 then wrong_args "zunion"
  else
    val! opt := checkZsetOptions args else reply_err in
    reply_items (zunion (key_args (za_num opt) args) (za_getType opt) (za_weights opt)).

(** [SFunc] with the scores. *)
Definition ZFunc : Type := list bytes -> Z -> list float64 -> M (error + list item).

Definition zstore (args : list bytes) (sfunc : ZFunc) : M reply :=
  val! opt := checkZsetOptions (drop 1 args) else reply_err in
  val! l := sfunc (key_args (za_num opt) (drop 1 args)) (Z.lor (za_getType opt) BothKV) (za_weights opt)
  else reply_err in
  let create := len l >? 0 in
  let! (object, err) := DeleteThenCreateUUIDObject ZsetType (arg 0 args) create in
  match err with
  | Some e => reply_err e
  | None => if negb create then ret (RInt 0) else reply_int (ZaddValues object l 0)
  end.

Definition ZDiffStoreHandle : TxnHandle := fun args =>
  if len args <? 3 then wrong_args "zdiffstore" else zstore args zdiff.
Definition ZInterStoreHandle : TxnHandle := fun args =>
  if len args <? 3 then wrong_args "zinterstore" else zstore args zinter.
Definition ZUnionStoreHandle : TxnHandle := fun args =>
  if len args <? 3 then wrong_args "zunionstore" else zstore args zunion.

End algebra.
