(* ===== verification/Geo.v ===== *)
(** Places (geo/geo.go, command/geo.go): a geo key is a sorted set whose scores are the
    identifiers of the cells of the S2 library, and a search walks the ranges of cells
    that cover its region. The S2 and geohash libraries and the cosine are parameters. *)

From stdpp Require Import sorting.
From S2P Require Import Prelude Xerror GoStd Utils Float Strconv Store Ranges Mem Object Reply.
From S2P Require Import ObjectSpec Generic HashCmd Rank ZSet.
From Stdlib Require Import Init.Byte Floats.SpecFloat.

#[local] Open Scope Z_scope.

(** ** Libraries *)

(** golang/geo's s1 and s2, mmcloughlin/geohash and [math.Cos]. An [s1.Angle] is a
    [float64]. *)
Class GeoLib := {
  Degree : float64;
  Angle_Radians : float64 -> float64;
  Angle_Degrees : float64 -> float64;
  LatLng : Type;
  LatLng_Lat : LatLng -> float64;
  LatLng_Lng : LatLng -> float64;
  LatLngFromDegrees : float64 -> float64 -> LatLng;
  LatLng_Distance : LatLng -> LatLng -> float64;
  CellIDFromLatLng : LatLng -> Z;
  CellID_LatLng : Z -> LatLng;
  CellID_RangeMin : Z -> Z;
  CellID_RangeMax : Z -> Z;
  Point : Type;
  PointFromLatLng : LatLng -> Point;
  Cap : Type;
  CapFromCenterAngle : Point -> float64 -> Cap;
  Cap_ContainsPoint : Cap -> Point -> bool;
  Cap_CellUnionBound : Cap -> list Z;
  Rect : Type;
  RectFromLatLng : LatLng -> Rect;
  Rect_AddPoint : Rect -> LatLng -> Rect;
  Rect_ContainsLatLng : Rect -> LatLng -> bool;
  Rect_CellUnionBound : Rect -> list Z;
  EncodeWithPrecision : float64 -> float64 -> Z -> bytes;
  EncodeIntWithPrecision : float64 -> float64 -> Z -> Z;
  DecodeIntWithPrecision : Z -> Z -> float64 * float64;
  math_Cos : float64 -> float64
}.

(** [sort.Slice], which is free to order elements that compare equal as it likes. *)
Class SortSlice := {
  sort_Slice {A} : (A -> A -> bool) -> list A -> list A;
  sort_Slice_perm {A} (less : A -> A -> bool) l : sort_Slice less l ≡ₚ l;
  sort_Slice_sorted {A} (less : A -> A -> bool) l :
    (forall a b c, a ∈ l -> b ∈ l -> c ∈ l -> less a b = false -> less b c = false -> less a c = false) ->
    (forall a b, a ∈ l -> b ∈ l -> less a b = true -> less b a = false) ->
    StronglySorted (fun a b => less b a = false) (sort_Slice less l)
}.

(** ** geo/geo.go *)

Definition ENC_LAT : float64 := 4636033603912859648.                  (* 90 *)
Definition ENC_LONG : float64 := 4640537203540230144.                 (* 180 *)
Definition REDIS_GEO_MAX : Z := 64.
Definition EARTH_RADIUS_IN_METERS : float64 := 4708600750251774096.   (* 6372797.5608559996 *)

Record Location := { Lat : float64; Lng : float64 }.

(** [s2.Region], by the two types that implement it here. *)
Inductive Region `{GeoLib} := RCap (c : Cap) | RRect (r : Rect).

Record Range := { Min : Z; Max : Z }.

Section geo.
Context `{GeoLib}.

Definition EncodeGeohashString (l : Location) : bytes := EncodeWithPrecision (Lat l) (Lng l) 11.
Definition EncodeGeohash (l : Location) (bits : Z) : Z := EncodeIntWithPrecision (Lat l) (Lng l) bits.
Definition DecodeGeohash (score bits : Z) : Location :=
  let '(lat, lng) := DecodeIntWithPrecision score bits in {| Lat := lat; Lng := lng |}.

Definition ToLatLng (l : Location) : LatLng := LatLngFromDegrees (Lat l) (Lng l).

Definition Distance (l other : Location) : float64 :=
  fmul (Angle_Radians (LatLng_Distance (ToLatLng l) (ToLatLng other))) EARTH_RADIUS_IN_METERS.

Definition RegionContains (l : Location) (region : Region) : bool :=
  match region with
  | RCap r => Cap_ContainsPoint r (PointFromLatLng (ToLatLng l))
  | RRect r => Rect_ContainsLatLng r (ToLatLng l)
  end.

Definition EncodeCellID (l : Location) : Z := CellIDFromLatLng (ToLatLng l).

Definition DecodeCellID (score : Z) : Location :=
  let latLng := CellID_LatLng score in
  {| Lat := Angle_Degrees (LatLng_Lat latLng); Lng := Angle_Degrees (LatLng_Lng latLng) |}.

(** The box is widened as much as its side that is nearer to the pole needs. *)
Definition RectRegion (l : Location) (width height : float64) : Region :=
  let lat_delta := fdiv (fdiv (fdiv height ftwo) EARTH_RADIUS_IN_METERS) Degree in
  let lng_at (lat : float64) : float64 :=
    fdiv (fdiv (fdiv (fdiv width ftwo) EARTH_RADIUS_IN_METERS) Degree)
      (math_Cos (Angle_Radians (fmul lat Degree))) in
  let rect (lng_delta : float64) : Region :=
    RRect (Rect_AddPoint
      (RectFromLatLng (LatLngFromDegrees (fsub (Lat l) lat_delta) (fsub (Lng l) lng_delta)))
      (LatLngFromDegrees (fadd (Lat l) lat_delta) (fadd (Lng l) lng_delta))) in
  if flt (Lat l) fzero then rect (lng_at (fsub (Lat l) lat_delta))
  else rect (lng_at (fadd (Lat l) lat_delta)).

Definition CapRegion (l : Location) (meters : float64) : Region :=
  RCap (CapFromCenterAngle (PointFromLatLng (ToLatLng l)) (fdiv meters EARTH_RADIUS_IN_METERS)).

Definition CellUnionBound (region : Region) : list Z :=
  match region with RCap r => Cap_CellUnionBound r | RRect r => Rect_CellUnionBound r end.

Definition RegionRange (region : Region) : list Range :=
  (fun cellID => {| Min := CellID_RangeMin cellID; Max := CellID_RangeMax cellID |}) <$> CellUnionBound region.

End geo.

(** ** Arguments *)

Definition km : float64 := 4652007308841189376.   (* 1000 *)
Definition ft : float64 := 4599162408583596029.   (* 0.3048 *)
Definition mi : float64 := 4654792785210718028.   (* 1609.344 *)

Definition toMeter (a : bytes) : float64 :=
  if lower_is a "km" then km
  else if lower_is a "ft" then ft
  else if lower_is a "mi" then mi
  else fone.

(** [%.6f]: the exact decimal, rounded to nearest even. *)
Definition format_fixed6 (f : float64) : string :=
  let digits (neg : bool) (n : Z) : bytes :=
    let frac := FormatUint (n mod 1000000) in
    (if neg then [x2d] else []) ++ FormatUint (n / 1000000) ++ x2e :: zeros (6 - len frac) ++ frac in
  String.string_of_list_byte
    match decode f with
    | S754_nan => bs "NaN"
    | S754_infinity s => if s then bs "-Inf" else bs "+Inf"
    | S754_zero s => digits s 0
    | S754_finite s m e =>
        let num := Zpos m * 1000000 * 2 ^ Z.max e 0 in
        let den := 2 ^ Z.max (- e) 0 in
        let q := num / den in
        let rest := 2 * (num - q * den) in
        digits s (if (rest >? den) || ((rest =? den) && Z.odd q) then q + 1 else q)
    end.

Definition InvalidGEO (longitude latitude : float64) : string :=
  "ERR invalid longitude,latitude pair " +:+ format_fixed6 longitude +:+ "," +:+ format_fixed6 latitude.
Definition InvalidGEOError (longitude latitude : float64) : error := Redis (RedisNew (InvalidGEO longitude latitude)).

Definition fgt (a b : float64) : bool := flt b a.

(** Longitude and latitude, in this order. The second test for NaN tests the longitude
    again, and the error is given the two in the other order. *)
Definition checkGeoLocation (args : list bytes) : error + Location :=
  match ParseFloat (arg 0 args) with
  | None => inl (ErrInvalidFloat : error)
  | Some longitude =>
      if isNaN longitude then inl (ErrInvalidFloat : error)
      else
        match ParseFloat (arg 1 args) with
        | None => inl (ErrInvalidFloat : error)
        | Some latitude =>
            if isNaN longitude then inl (ErrInvalidFloat : error)
            else if flt latitude (fneg ENC_LAT) || fgt latitude ENC_LAT ||
                    flt longitude (fneg ENC_LONG) || fgt longitude ENC_LONG
            then inl (InvalidGEOError latitude longitude)
            else inr {| Lat := latitude; Lng := longitude |}
        end
  end.

Definition UnSorted : Z := 0.
Definition Asc : Z := 1.
Definition Desc : Z := 2.

Record geoOption := mkGeo {
  go_Coord : bool; go_Dist : bool; go_Hash : bool; go_CellID : bool;
  go_FromMember : bool; go_FromLonLat : bool;
  go_Count : Z; go_Any : bool; go_Direction : Z;
  go_Center : Location; go_Unit : float64;
  go_ByRadius : option float64; go_ByBox : option (float64 * float64);
  go_StoreKey : option bytes; go_StoreDistKey : option bytes
}.

Definition geo_zero : geoOption :=
  mkGeo false false false false false false 0 false UnSorted {| Lat := 0; Lng := 0 |} 0 None None None None.

(** Assignments to the fields of an option. *)
Definition set_with (coord dist hash cell : bool) (o : geoOption) : geoOption :=
  match o with mkGeo a b c d e f g h i j k l m n p =>
    mkGeo (a || coord) (b || dist) (c || hash) (d || cell) e f g h i j k l m n p end.
Definition set_from (member lonlat : bool) (o : geoOption) : geoOption :=
  match o with mkGeo a b c d e f g h i j k l m n p =>
    mkGeo a b c d (e || member) (f || lonlat) g h i j k l m n p end.
Definition set_count (count : Z) (any : bool) (o : geoOption) : geoOption :=
  match o with mkGeo a b c d e f g h i j k l m n p => mkGeo a b c d e f count any i j k l m n p end.
Definition set_direction (dir : Z) (o : geoOption) : geoOption :=
  match o with mkGeo a b c d e f g h i j k l m n p => mkGeo a b c d e f g h dir j k l m n p end.
Definition set_center (center : Location) (o : geoOption) : geoOption :=
  match o with mkGeo a b c d e f g h i j k l m n p => mkGeo a b c d e f g h i center k l m n p end.
Definition set_unit (unit : float64) (o : geoOption) : geoOption :=
  match o with mkGeo a b c d e f g h i j k l m n p => mkGeo a b c d e f g h i j unit l m n p end.
Definition set_radius (radius : float64) (o : geoOption) : geoOption :=
  match o with mkGeo a b c d e f g h i j k l m n p => mkGeo a b c d e f g h i j k (Some radius) m n p end.
Definition set_box (width height : float64) (o : geoOption) : geoOption :=
  match o with mkGeo a b c d e f g h i j k l m n p => mkGeo a b c d e f g h i j k l (Some (width, height)) n p end.
Definition set_store (key : bytes) (o : geoOption) : geoOption :=
  match o with mkGeo a b c d e f g h i j k l m n p => mkGeo a b c d e f g h i j k l m (Some key) p end.
Definition set_store_dist (key : bytes) (o : geoOption) : geoOption :=
  match o with mkGeo a b c d e f g h i j k l m n p => mkGeo a b c d e f g h i j k l m n (Some key) end.

Definition is_inf (f : float64) : bool := match decode f with S754_infinity _ => true | _ => false end.

(** A finite number. *)
Definition parse_length (a : bytes) : option float64 :=
  match ParseFloat a with
  | Some f => if isNaN f || is_inf f then None else Some f
  | None => None
  end.

(** The loop over the options; [member] is that of FROMMEMBER. *)
Fixpoint geo_options (args : list bytes) (key : option bytes) (opt : geoOption) (member : option bytes) :
    error + (geoOption * option bytes) :=
  match args with
  | [] => inr (opt, member)
  | a :: args =>
      if lower_is a "frommember" then
        match args with
        | m :: args =>
            if go_FromLonLat opt then inl (ErrSyntax : error)
            else geo_options args key (set_from true false opt) (Some m)
        | [] => inl (ErrSyntax : error)
        end
      else if lower_is a "fromlonlat" then
        match args with
        | lng :: lat :: args =>
            if go_FromMember opt then inl (ErrSyntax : error)
            else match checkGeoLocation [lng; lat] with
                 | inl e => inl e
                 | inr l => geo_options args key (set_center l (set_from false true opt)) member
                 end
        | _ => inl (ErrSyntax : error)
        end
      else if lower_is a "byradius" then
        match args with
        | r :: unit :: args =>
            if bool_decide (go_ByBox opt <> None) then inl (ErrSyntax : error)
            else match parse_length r with
                 | None => inl (ErrInvalidFloat : error)
                 | Some radius => geo_options args key (set_radius radius (set_unit (toMeter unit) opt)) member
                 end
        | _ => inl (ErrSyntax : error)
        end
      else if lower_is a "bybox" then
        match args with
        | w :: h :: unit :: args =>
            if bool_decide (go_ByRadius opt <> None) then inl (ErrSyntax : error)
            else match parse_length w, parse_length h with
                 | Some width, Some height =>
                     geo_options args key (set_box width height (set_unit (toMeter unit) opt)) member
                 | _, _ => inl (ErrInvalidFloat : error)
                 end
        | _ => inl (ErrSyntax : error)
        end
      else if lower_is a "withcoord" then geo_options args key (set_with true false false false opt) member
      else if lower_is a "withdist" then geo_options args key (set_with false true false false opt) member
      else if lower_is a "withcell" then geo_options args key (set_with false false false true opt) member
      else if lower_is a "withhash" then geo_options args key (set_with false false true false opt) member
      else if lower_is a "count" then
        match args with
        | [] => inl (ErrSyntax : error)
        | n :: args =>
            match Atoi n with
            | None => inl (ErrNotInteger : error)
            | Some count =>
                if count <=? 0 then inl (ErrCountNegative : error)
                else
                  match args with
                  | [] => inr (set_count count (go_Any opt) opt, member)
                  | any :: rest =>
                      if lower_is any "any" then geo_options rest key (set_count count true opt) member
                      else geo_options args key (set_count count false opt) member
                  end
            end
        end
      else if lower_is a "asc" then geo_options args key (set_direction Asc opt) member
      else if lower_is a "desc" then geo_options args key (set_direction Desc opt) member
      else if lower_is a "store" then
        match args with
        | k :: args => geo_options args key (set_store k opt) member
        | [] => inl (ErrSyntax : error)
        end
      else if lower_is a "storedist" then
        match key, args with
        | Some k, _ => geo_options args key (set_store_dist k opt) member
        | None, k :: args => geo_options args key (set_store_dist k opt) member
        | None, [] => inl (ErrSyntax : error)
        end
      else inl (ErrSyntax : error)
  end.

Definition is_some {A} (x : option A) : bool := match x with Some _ => true | None => false end.

Definition checkGeoOption (args : list bytes) (key : option bytes) : error + (geoOption * option bytes) :=
  match geo_options args key geo_zero None with
  | inl e => inl e
  | inr (opt, member) =>
      let opt := if (go_Count opt >? 0) && (go_Direction opt =? UnSorted) then set_direction Asc opt else opt in
      let opt := match go_StoreDistKey opt, key with None, Some k => set_store k opt | _, _ => opt end in
      if (is_some (go_StoreKey opt) || is_some (go_StoreDistKey opt)) && (go_Coord opt || go_Dist opt || go_Hash opt)
      then inl (ErrStoreOption : error)
      else inr (opt, member)
  end.

(** ** Handlers *)

Record GeoInfo := { gi_Location : Location; gi_Member : bytes; gi_Distance : float64; gi_CellID : Z }.

Section handlers.
Context `{Platform} `{GeoLib} `{SortSlice}.

(** [score.Decode(v)] of a [utils.Number{IsInt: true}]. *)
Definition decode_cell (v : bytes) : M Z :=
  let! score := decode_number (mkNumber true 0 0) v in ret (Uint64 score).

(** The cell of a member, none when it is missing. *)
Definition member_cell (object : Object) (m : bytes) : M (error + option Z) :=
  let! r := Get (GetValueBytes object (EncodeMemberKey m)) in
  match r with
  | inl KeyNotFound => ret (inr None)
  | inl e => ret (inl e)
  | inr v =>
      match DecodeValue v with
      | inl e => ret (inl e)
      | inr zvalue => let! cell := decode_cell (v_Value zvalue) in ret (inr (Some cell))
      end
  end.

Fixpoint members_loop (object : Object) (f : Location -> reply) (members : list bytes) (rets : list reply) : M reply :=
  match members with
  | [] => ret (RArr rets)
  | m :: members =>
      val! cell := member_cell object m else reply_err in
      members_loop object f members
        (rets ++ [match cell with Some id => f (DecodeCellID id) | None => RNil end])
  end.

(** GEOHASH and GEOPOS differ in what they show of a location. *)
Definition geo_members (cmd : string) (f : Location -> reply) : TxnHandle := fun args =>
  if len args <? 2 then wrong_args cmd
  else
    let! (object, err) := lookup GeoType (arg 0 args) false in
    match err with
    | Some KeyNotFound => ret (RArr (replicate (length args - 1) RNil))
    | Some e => reply_err e
    | None => members_loop object f (drop 1 args) []
    end.

Definition coordinates (l : Location) : reply := RArr [RFloat (Lng l); RFloat (Lat l)].

Definition GeoHashHandle : TxnHandle := geo_members "geohash" (fun l => RBulk (EncodeGeohashString l)).
Definition GeoPosHandle : TxnHandle := geo_members "geopos" coordinates.

Definition GeoDistHandle : TxnHandle := fun args =>
  if len args <? 3 then wrong_args "geodist"
  else
    let! (object, err) := lookup GeoType (arg 0 args) false in
    match err with
    | Some KeyNotFound => ret RNil
    | Some e => reply_err e
    | None =>
        val! from := member_cell object (arg 1 args) else reply_err in
        match from with
        | None => ret RNil
        | Some from =>
            val! to := member_cell object (arg 2 args) else reply_err in
            match to with
            | None => ret RNil
            | Some to =>
                let dist := Distance (DecodeCellID from) (DecodeCellID to) in
                ret (RFloat (if len args >? 3 then fdiv dist (toMeter (arg 3 args)) else dist))
            end
        end
    end.

Definition GeoRemHandle : TxnHandle := fun args =>
  if len args <? 2 then wrong_args "georem"
  else
    let! (object, err) := lookup GeoType (arg 0 args) false in
    match err with
    | Some KeyNotFound => ret (RInt 0)
    | Some e => reply_err e
    | None => zrem_loop object (drop 1 args) 0
    end.

(** A member that is given twice keeps its last place. *)
Fixpoint geo_places (args : list bytes) (members : list (bytes * Number)) : error + list (bytes * Number) :=
  match args with
  | lng :: lat :: m :: args =>
      match checkGeoLocation [lng; lat] with
      | inl e => inl e
      | inr l => geo_places args (set_member m (mkNumber true (EncodeCellID l) 0) members)
      end
  | _ => inr members
  end.

Definition GeoAddHandle : TxnHandle := fun args =>
  if len args <? 4 then wrong_args "geoadd"
  else
    match getCheckOption (drop 1 args) no_check with
    | inl e => reply_err e
    | inr (opt, rest) =>
        if co_Incr opt then reply_err ErrSyntax
        else if (len rest <? 3) || negb (go_rem (len rest - 3) 3 =? 0) then reply_err ErrSyntax
        else
          match geo_places rest [] with
          | inl e => reply_err e
          | inr members =>
              let! (object, err) := GetOrCreateUUIDObject GeoType (arg 0 args) in
              match err with
              | Some e => reply_err e
              | None => zaddMembers object members opt
              end
          end
    end.

(** ** Searches *)

(** The members of a range that the region contains, behind those of the ranges before
    it, and whether COUNT with ANY ends the search; [count] of the code is the number of
    positions. *)
Fixpoint geo_collect (items : list item) (region : Region) (opt : geoOption) (positions : list GeoInfo) :
    M (list GeoInfo * bool) :=
  match items with
  | [] => ret (positions, false)
  | IMember member :: IScore score :: items =>
      let l := DecodeCellID (Uint64 score) in
      if RegionContains l region then
        let positions := positions ++ [{| gi_Location := l; gi_Member := member;
                                          gi_Distance := Distance l (go_Center opt); gi_CellID := Uint64 score |}] in
        if go_Any opt && (go_Count opt >? 0) && (len positions >=? go_Count opt) then ret (positions, true)
        else geo_collect items region opt positions
      else geo_collect items region opt positions
  | _ => panic
  end.

Definition cell_interval (r : Range) : interval Number :=
  mkInterval (mkNumber true (Min r) 0) (mkNumber true (Max r) 0) true true.

Fixpoint geo_ranges (object : Object) (ranges : list Range) (region : Region) (opt : geoOption)
    (positions : list GeoInfo) : M (error + list GeoInfo) :=
  match ranges with
  | [] => ret (inr positions)
  | r :: ranges =>
      let! c := get_config in
      val! items := objectZRangeByScore object (cell_interval r) (mkRange 0 (ScanMaxCount c) true false 0)
      else (fun e => ret (inl e)) in
      let! (positions, stop) := geo_collect items region opt positions in
      if stop : bool then ret (inr positions) else geo_ranges object ranges region opt positions
  end.

Definition geo_less (opt : geoOption) (a b : GeoInfo) : bool :=
  if go_Direction opt =? Asc then flt (gi_Distance a) (gi_Distance b) else fgt (gi_Distance a) (gi_Distance b).

(** Sorting and COUNT. *)
Definition geo_select (opt : geoOption) (positions : list GeoInfo) : list GeoInfo :=
  let positions := if negb (go_Direction opt =? UnSorted) then sort_Slice (geo_less opt) positions else positions in
  if (go_Count opt >? 0) && (len positions >? go_Count opt) then take (Z.to_nat (go_Count opt)) positions
  else positions.

Definition geo_reply (opt : geoOption) (l : GeoInfo) : reply :=
  if go_Dist opt || go_Hash opt || go_Coord opt || go_CellID opt then
    RArr (RBulk (gi_Member l) ::
          (if go_Dist opt then [RFloat (fdiv (gi_Distance l) (go_Unit opt))] else []) ++
          (if go_CellID opt then [RGoUint (gi_CellID l)] else []) ++
          (if go_Hash opt then [RGoUint (EncodeGeohash (gi_Location l) REDIS_GEO_MAX)] else []) ++
          (if go_Coord opt then [coordinates (gi_Location l)] else []))
  else RBulk (gi_Member l).

(** A radius is tried before a box. *)
Definition geo_region (opt : geoOption) : option Region :=
  match go_ByRadius opt, go_ByBox opt with
  | Some radius, _ => Some (CapRegion (go_Center opt) (fmul radius (go_Unit opt)))
  | None, Some (width, height) =>
      Some (RectRegion (go_Center opt) (fmul width (go_Unit opt)) (fmul height (go_Unit opt)))
  | None, None => None
  end.

Definition geoSearchHandle (object : Object) (opt : geoOption) : M reply :=
  match geo_region opt with
  | None => reply_err ErrSyntax
  | Some region =>
      val! positions := geo_ranges object (RegionRange region) region opt [] else reply_err in
      ret (RArr (geo_reply opt <$> geo_select opt positions))
  end.

Definition GeoRadiusByMemberHandle : TxnHandle := fun args =>
  if len args <? 4 then wrong_args "georadiusbymember"
  else
    match parse_length (arg 2 args) with
    | None => reply_err ErrInvalidFloat
    | Some radius =>
        match checkGeoOption (drop 4 args) None with
        | inl e => reply_err e
        | inr (opt, _) =>
            val! r := zget GeoType (arg 0 args) (arg 1 args) else reply_err in
            match r with
            | Some (object, Some zvalue) =>
                let! cell := decode_cell (v_Value zvalue) in
                geoSearchHandle object
                  (set_center (DecodeCellID cell) (set_radius radius (set_unit (toMeter (arg 3 args)) opt)))
            | _ => ret RNil
            end
        end
    end.

Definition GeoRadiusHandle : TxnHandle := fun args =>
  if len args <? 5 then wrong_args "georadius"
  else
    match checkGeoLocation (drop 1 args) with
    | inl e => reply_err e
    | inr location =>
        match parse_length (arg 3 args) with
        | None => reply_err ErrInvalidFloat
        | Some radius =>
            match checkGeoOption (drop 5 args) None with
            | inl e => reply_err e
            | inr (opt, _) =>
                let! (object, err) := lookup GeoType (arg 0 args) false in
                match err with
                | Some KeyNotFound => ret RNil
                | Some e => reply_err e
                | None =>
                    geoSearchHandle object
                      (set_radius radius (set_center location (set_unit (toMeter (arg 4 args)) opt)))
                end
            end
        end
    end.

Definition GeoSearchHandle : TxnHandle := fun args =>
  if len args <? 1 then wrong_args "geosearch"
  else
    match checkGeoOption (drop 1 args) None with
    | inl e => reply_err e
    | inr (opt, member) =>
        let! (object, err) := lookup GeoType (arg 0 args) false in
        match err with
        | Some KeyNotFound => ret RNil
        | Some e => reply_err e
        | None =>
            let search (opt : geoOption) : M reply :=
              if negb (go_FromLonLat opt) && negb (go_FromMember opt) then reply_err ErrGeoFromSpecified
              else if negb (is_some (go_ByBox opt)) && negb (is_some (go_ByRadius opt))
              then reply_err ErrGeoBySpecified
              else geoSearchHandle object opt in
            match member with
            | None => search opt
            | Some m =>
                val! r := zgetMember object m else reply_err in
                match r with
                | None => ret RNil
                | Some zvalue =>
                    let! cell := decode_cell (v_Value zvalue) in
                    search (set_center (DecodeCellID cell) opt)
                end
            end
        end
    end.

End handlers.
