(* ===== verification/Json.v ===== *)
(** What the JSON commands use of Go's encoding/json: [Valid], the scanner of the grammar,
    and [Marshal] of a list of numbers and nulls; and that what is printed is valid. *)

From S2P Require Import Prelude Xerror GoStd Utils Float Strconv Store Object Reply.
From Stdlib Require Import Init.Byte Floats.SpecFloat.

#[local] Open Scope Z_scope.

(** ** json.Valid *)

Definition is_space (c : Init.Byte.byte) : bool :=
  bool_decide (c = x20) || bool_decide (c = x09) || bool_decide (c = x0d) || bool_decide (c = x0a).
Fixpoint skip_space (l : bytes) : bytes :=
  match l with c :: k => if is_space c then skip_space k else l | [] => [] end.

Definition is_hex (c : Init.Byte.byte) : bool :=
  is_digit c || ((97 <=? b2z c) && (b2z c <=? 102)) || ((65 <=? b2z c) && (b2z c <=? 70)).

(** The rest of a literal. *)
Fixpoint expect (w l : bytes) : option bytes :=
  match w, l with
  | [], _ => Some l
  | x :: w, c :: l => if bool_decide (c = x) then expect w l else None
  | _ :: _, [] => None
  end.

Fixpoint skip_digits (l : bytes) : bytes :=
  match l with c :: k => if is_digit c then skip_digits k else l | [] => [] end.
Definition digits1 (l : bytes) : option bytes :=
  match l with c :: k => if is_digit c then Some (skip_digits k) else None | [] => None end.

(** A number after its sign. *)
Definition scan_int (l : bytes) : option bytes :=
  match l with x30 :: k => Some k | _ => digits1 l end.
Definition scan_frac (l : bytes) : option bytes :=
  match l with x2e :: k => digits1 k | _ => Some l end.
Definition scan_exp (l : bytes) : option bytes :=
  match l with
  | x65 :: k | x45 :: k => digits1 (match k with x2b :: k | x2d :: k => k | _ => k end)
  | _ => Some l
  end.
Definition scan_number (l : bytes) : option bytes := k ← scan_int l; k ← scan_frac k; scan_exp k.

(** A string after its quote. *)
Fixpoint scan_string (l : bytes) : option bytes :=
  match l with
  | [] => None
  | x22 :: l => Some l
  | x5c :: l =>
      match l with
      | x22 :: l | x5c :: l | x2f :: l | x62 :: l | x66 :: l | x6e :: l | x72 :: l | x74 :: l => scan_string l
      | x75 :: a :: b :: c :: d :: l => if is_hex a && is_hex b && is_hex c && is_hex d then scan_string l else None
      | _ => None
      end
  | c :: l => if b2z c <? 32 then None else scan_string l
  end.

Definition maxNestingDepth : Z := 10000.

(** A value, the elements of an array and the members of an object, at a depth; every call
    consumes a byte of what [fuel] counts. *)
Fixpoint scan_value (fuel : nat) (depth : Z) (l : bytes) : option bytes :=
  match fuel with
  | O => None
  | S fuel =>
      let elements := fix elements (n : nat) (l : bytes) : option bytes :=
        match n with
        | O => None
        | S n =>
            l ← scan_value fuel (depth + 1) l;
            match skip_space l with
            | x2c :: l => elements n l
            | x5d :: l => Some l
            | _ => None
            end
        end in
      let members := fix members (n : nat) (l : bytes) : option bytes :=
        match n with
        | O => None
        | S n =>
            match skip_space l with
            | x22 :: l =>
                l ← scan_string l;
                match skip_space l with
                | x3a :: l =>
                    l ← scan_value fuel (depth + 1) l;
                    match skip_space l with
                    | x2c :: l => members n l
                    | x7d :: l => Some l
                    | _ => None
                    end
                | _ => None
                end
            | _ => None
            end
        end in
      match skip_space l with
      | x7b :: l =>
          if depth >=? maxNestingDepth then None
          else match skip_space l with x7d :: l => Some l | l => members fuel l end
      | x5b :: l =>
          if depth >=? maxNestingDepth then None
          else match skip_space l with x5d :: l => Some l | l => elements fuel l end
      | x22 :: l => scan_string l
      | x2d :: l => scan_number l
      | x74 :: l => expect (bs "rue") l
      | x66 :: l => expect (bs "alse") l
      | x6e :: l => expect (bs "ull") l
      | l => scan_number l
      end
  end.

Definition Valid (data : bytes) : bool :=
  match scan_value (S (length data)) 0 data with
  | Some l => bool_decide (skip_space l = [])
  | None => false
  end.

(** A text with its double quotes written as single ones. *)
Definition quoted (s : string) : bytes := (fun c => if bool_decide (c = x27) then x22 else c) <$> bs s.

Example valid_samples :
  Forall (fun s => Valid (quoted s) = true)
    ["null"; " [1, -2.5e+3 , 'a\u00e9\n', {}, []]"; "{'a': {'b': [true,false]}, '': 0}"; "0"; "-0.0E-1"].
Proof. repeat constructor; vm_compute; reflexivity. Qed.
Example invalid_samples :
  Forall (fun s => Valid (quoted s) = false)
    [EmptyString; "nul"; "01"; "1."; "-"; "[1,]"; "{'a'}"; "{a:1}"; "'\x'"; "1 2"; "[1"; "+1"; ".5"; "1e"].
Proof. repeat constructor; vm_compute; reflexivity. Qed.

(** ** json.Marshal of numbers *)

(** [%e] with as many digits as are needed. *)
Definition fmtE (neg : bool) (q p : Z) : bytes :=
  let ds := FormatUint q in
  let e := len ds + p - 1 in
  let digits := rev (drop_zeros (rev ds)) in
  let exp := FormatUint (Z.abs e) in
  (if neg then [x2d] else []) ++ take 1 digits ++
  match drop 1 digits with [] => [] | k => x2e :: k end ++
  [x65; if e <? 0 then x2d else x2b] ++ (if Z.abs e <? 10 then [x30] else []) ++ exp.

(** Exponents as in JavaScript: [e-09] becomes [e-9]. *)
Definition clean_exponent (b : bytes) : bytes :=
  match rev b with
  | d :: x30 :: x2d :: x65 :: k => rev k ++ [x65; x2d; d]
  | _ => b
  end.

(** A [float64]; infinities and NaN are refused. *)
Definition marshal_float (f : float64) : option bytes :=
  match decode f with
  | S754_nan | S754_infinity _ => None
  | S754_zero s => Some (fmtF s 0 0)
  | S754_finite s m e =>
      let abs := magnitude f in
      let '(q, p) := shortest_digits (Zpos m) e in
      if flt abs (default fzero (ParseFloat (bs "1e-6"))) || fle (default fzero (ParseFloat (bs "1e21"))) abs
      then Some (clean_exponent (fmtE s q p)) else Some (fmtF s q p)
  end.

(** [data, _ := json.Marshal(ret)] for a list of numbers and nulls. *)
Definition marshal_element (r : reply) : option bytes :=
  match r with RNil => Some (bs "null") | RFloat f => marshal_float f | _ => None end.
Definition marshal_numbers (l : list reply) : bytes :=
  match mapM marshal_element l with
  | Some [] => bs "[]"
  | Some (x :: l) => [x5b] ++ x ++ concat ((fun y => x2c :: y) <$> l) ++ [x5d]
  | None => []
  end.

Example marshal_samples :
  marshal_numbers [RFloat (of_int 3); RNil; RFloat (default 0 (ParseFloat (bs "-2.5e-7"))); RFloat (default 0 (ParseFloat (bs "1e21")));
    RFloat (default 0 (ParseFloat (bs "123456789012345680000")))] = bs "[3,null,-2.5e-7,1e+21,123456789012345680000]".
Proof. vm_compute. reflexivity. Qed.

(** [int(f)] on amd64, where what does not fit is the least integer. *)
Definition int_of_float (f : float64) : Z :=
  match decode f with
  | S754_finite s m e =>
      let n := if e >=? 0 then Zpos m * 2 ^ e else Zpos m / 2 ^ (- e) in
      let n := if s : bool then - n else n in
      if (MinInt64 <=? n) && (n <=? MaxInt64) then n else MinInt64
  | S754_zero _ => 0
  | _ => MinInt64
  end.
Example int_of_float_samples :
  (int_of_float (of_int (-7)), int_of_float (default 0 (ParseFloat (bs "-2.75"))), int_of_float (default 0 (ParseFloat (bs "1e300")))) =
  (-7, -2, MinInt64).
Proof. vm_compute. reflexivity. Qed.
