(* ===== verification/JsonCmd.v ===== *)
(** command/json.go: JSON documents, kept as text in simple objects and edited through the
    ajson library, a parameter of the model. *)

From S2P Require Import Prelude Xerror GoStd Utils Float Strconv Store Mem Object Reply.
From S2P Require Import Generic Strings Json.
From Stdlib Require Import Init.Byte.

#[local] Open Scope Z_scope.

(** ** ajson *)

Inductive NodeType := Null | Numeric | StringNode | BoolNode | ArrayType | ObjectType | OtherType.

(** Nodes are pointers into trees that the operations change: [Heap] is the memory of all
    of them, [Node] a pointer. What an operation changes is in the heap it returns, also
    when it fails. *)
Class Ajson := {
  Heap : Type;
  Node : Type;
  no_nodes : Heap;
  Ajson_Unmarshal : bytes -> Heap -> (error + Node) * Heap;
  Ajson_Marshal : Node -> Heap -> (error + bytes) * Heap;
  (** [ObjectNode] of a map that is filled before the node is marshalled. *)
  Marshal_map : list (bytes * Node) -> Heap -> (error + bytes) * Heap;
  ArrayNode : list Node -> Heap -> Node * Heap;
  JSONPath : Node -> bytes -> Heap -> (error + list Node) * Heap;
  ParseJSONPath : bytes -> error + list bytes;
  ApplyJSONPath : Node -> list bytes -> Heap -> (error + list Node) * Heap;
  Ajson_Str : bytes -> bytes;
  NodeType_of : Node -> Heap -> NodeType;
  IsArray : Node -> Heap -> bool;
  IsObject : Node -> Heap -> bool;
  IsString : Node -> Heap -> bool;
  Size : Node -> Heap -> Z;
  Keys : Node -> Heap -> list bytes;
  Eq : Node -> Node -> Heap -> bool;
  (** [Value], as it is written to a connection. *)
  Value : Node -> Heap -> (error + reply) * Heap;
  GetNumeric : Node -> Heap -> (error + float64) * Heap;
  GetString : Node -> Heap -> (error + bytes) * Heap;
  GetBool : Node -> Heap -> (error + bool) * Heap;
  GetIndex : Node -> Z -> Heap -> (error + Node) * Heap;
  Node_Clear : Node -> Heap -> (error + bool) * Heap;
  Node_Delete : Node -> Heap -> option error * Heap;
  SetNode : Node -> Node -> Heap -> option error * Heap;
  SetNumeric : Node -> float64 -> Heap -> option error * Heap;
  SetString : Node -> bytes -> Heap -> option error * Heap;
  SetBool : Node -> bool -> Heap -> option error * Heap;
  AppendObject : Node -> bytes -> Node -> Heap -> option error * Heap;
  AppendArray : Node -> Node -> Heap -> option error * Heap;
  InsertArray : Node -> Z -> list Node -> Heap -> option error * Heap;
  TrimIndex : Node -> Z -> Z -> Heap -> (error + bool) * Heap;
  PopIndex : Node -> Z -> Heap -> (error + Node) * Heap
}.

(** ** Paths *)

Definition starts_with (c : Init.Byte.byte) (l : bytes) : bool :=
  match l with d :: _ => bool_decide (d = c) | [] => false end.

Definition checkRootPath (jsonPath : bytes) : bytes * bool :=
  if starts_with x24 jsonPath then (jsonPath, true)
  else if starts_with x2e jsonPath then (bs "$" ++ jsonPath, false)
  else (bs "$." ++ jsonPath, false).

Definition Contains (l : bytes) (c : Init.Byte.byte) : bool := existsb (fun d => bool_decide (d = c)) l.

Definition IsNormalElement (cmd : bytes) : bool :=
  if bool_decide (cmd ∈ [bs "$"; bs "@"; bs "."; bs ".."; bs "*"]) then false
  else if Contains cmd x3a then false
  else if Contains cmd x3f then false
  else if Contains cmd x28 then false
  else if Contains cmd x29 then false
  else true.

Definition is_root (jsonPath : bytes) : bool := bool_decide (jsonPath = bs ".") || bool_decide (jsonPath = bs "$").

Section json.
Context `{Platform} `{Ajson}.

Definition setJsonValue (key : bytes) (object : Object) (root : Node) (h : Heap) : M (option error) :=
  match Ajson_Marshal root h with
  | (inl e, _) => ret (Some e)
  | (inr result, _) =>
      let! t := get_txn in
      setTxnObject key (set_o_Timestamp (t_Timestamp t) (set_o_Value (Some result) object)) 0
  end.

(** ** JSON.CLEAR, JSON.DEL *)

(** The nodes are cleared or deleted one by one; the first error ends it. *)
Fixpoint clearOrDel_nodes (delete : bool) (nodes : list Node) (change : Z) (h : Heap) : error + Z * Heap :=
  match nodes with
  | [] => inr (change, h)
  | node :: nodes =>
      if delete then
        match Node_Delete node h with
        | (Some e, _) => inl e
        | (None, h) => clearOrDel_nodes delete nodes (i64 (change + 1)) h
        end
      else
        match Node_Clear node h with
        | (inl e, _) => inl e
        | (inr c, h) => clearOrDel_nodes delete nodes (if c : bool then i64 (change + 1) else change) h
        end
  end.

Definition jsonClearOrDelHandle (args : list bytes) (delete : bool) : M reply :=
  let! (object, err) := lookup JsonType (arg 0 args) true in
  let key := ObjectKeyBytes object in
  match err with
  | Some KeyNotFound => if delete then ret (RInt 0) else reply_err ErrPathNotExist
  | Some e => reply_err e
  | None =>
      match o_Value object with
      | None => DeleteKeyReturn key object 0 MinusCount
      | Some value =>
          match Ajson_Unmarshal value no_nodes with
          | (inl e, _) => reply_err e
          | (inr root, h) =>
              let jsonPath := match args with [_; p] => p | _ => bs "." end in
              if is_root jsonPath then
                if delete then DeleteKeyReturn key object 0 MinusCount
                else
                  match Node_Clear root h with
                  | (inl _, _) => reply_err InvalidJsonError
                  | (inr false, _) => ret (RInt 0)
                  | (inr true, h) => do! setJsonValue key object root h else reply_err in ret (RInt 1)
                  end
              else
                match JSONPath root (fst (checkRootPath jsonPath)) h with
                | (inl e, _) => reply_err e
                | (inr nodes, h) =>
                    match clearOrDel_nodes delete nodes 0 h with
                    | inl _ => reply_err InvalidJsonError
                    | inr (change, h) =>
                        do! (if change >? 0 then setJsonValue key object root h else ret None) else reply_err in
                        ret (RInt change)
                    end
                end
          end
      end
  end.

Definition JsonClearHandle : TxnHandle := fun args =>
  if negb (len args =? 1) && negb (len args =? 2) then wrong_args "json.clear" else jsonClearOrDelHandle args false.
Definition JsonDelHandle : TxnHandle := fun args =>
  if negb (len args =? 1) && negb (len args =? 2) then wrong_args "json.del" else jsonClearOrDelHandle args true.

(** ** JSON.SET *)

(** A new member of an object. An element of an array is set, but the function goes on to
    test for an object and answers [false], as if nothing had been done. *)
Definition checkParent (parent : Node) (element : bytes) (value : Node) (h : Heap) : (error + bool) * Heap :=
  let after_array (h : Heap) : (error + bool) * Heap :=
    if negb (IsObject parent h) then (inr false, h)
    else
      match AppendObject parent element value h with
      | (Some _, h) => (inl (InvalidJsonError : error), h)
      | (None, h) => (inr true, h)
      end in
  if IsArray parent h then
    match Atoi element with
    | None => (inr false, h)
    | Some index =>
        let size := Size parent h in
        if size =? 0 then (inl (ErrArrayOutOfRange : error), h)
        else
          let index := if index <? 0 then i64 (index + size) else index in
          let index := if index <? 0 then 0 else index in
          if index >=? Size parent h then (inl (ErrArrayOutOfRange : error), h)
          else
            match GetIndex parent index h with
            | (inl _, h) => (inl (ErrArrayOutOfRange : error), h)
            | (inr old, h) =>
                match SetNode old value h with
                | (Some _, h) => (inl (InvalidJsonError : error), h)
                | (None, h) => after_array h
                end
            end
    end
  else after_array h.

Fixpoint set_nodes (nodes : list Node) (value : Node) (h : Heap) : option error * Heap :=
  match nodes with
  | [] => (None, h)
  | node :: nodes =>
      match SetNode node value h with
      | (Some e, h) => (Some e, h)
      | (None, h) => set_nodes nodes value h
      end
  end.

(** What JSON.SET makes of a document at a path: an error, nothing, or a new text. *)
Definition set_path (oldValue jsonPath jsonValue : bytes) (check : Z) : error + option bytes :=
  match Ajson_Unmarshal oldValue no_nodes with
  | (inl _, _) => inl (InvalidJsonError : error)
  | (inr root, h) =>
      match ParseJSONPath (fst (checkRootPath jsonPath)) with
      | inl _ | inr [] => inl (ErrWrongStaticPath : error)
      | inr commands =>
          match ApplyJSONPath root commands h with
          | (inl _, _) => inl (ErrWrongStaticPath : error)
          | (inr nodes, h) =>
              match Ajson_Unmarshal jsonValue h with
              | (inl _, _) => inl (InvalidJsonError : error)
              | (inr value, h) =>
                  let marshal (h : Heap) : error + option bytes :=
                    match Ajson_Marshal root h with (inl e, _) => inl e | (inr result, _) => inr (Some result) end in
                  match nodes with
                  | [] =>
                      let lastElement := Ajson_Str (List.last commands []) in
                      if negb (IsNormalElement lastElement) then inl (ErrWrongStaticPath : error)
                      else if check =? CheckExist then inr None
                      else
                        let add (parent : Node) (h : Heap) : error + option bytes :=
                          match checkParent parent lastElement value h with
                          | (inl e, _) => inl e
                          | (inr false, _) => inr None
                          | (inr true, h) => marshal h
                          end in
                        if len commands >? 1 then
                          match ApplyJSONPath root (removelast commands) h with
                          | (inl _, _) => inl (ErrWrongStaticPath : error)
                          | (inr [parent], h) => add parent h
                          | (inr _, _) => inr None
                          end
                        else add root h
                  | _ =>
                      if check =? CheckNotExist then inr None
                      else
                        match set_nodes nodes value h with
                        | (Some e, _) => inl e
                        | (None, h) => marshal h
                        end
                  end
              end
          end
      end
  end.

Definition set_check (args : list bytes) : error + Z :=
  match drop 3 args with
  | [] => inr 0
  | str :: _ =>
      if lower_is str "nx" then inr CheckNotExist
      else if lower_is str "xx" then inr CheckExist
      else inl (ErrSyntax : error)
  end.

Definition JsonSetHandle : TxnHandle := fun args =>
  if (len args <? 3) || (len args >? 4) then wrong_args "json.set"
  else
    let jsonPath := arg 1 args in
    let jsonValue := arg 2 args in
    match set_check args with
    | inl e => reply_err e
    | inr check =>
        let! (object, err) := lookup JsonType (arg 0 args) true in
        let store (value : bytes) (create : Z) : M reply :=
          let! t := get_txn in
          do! setTxnObject (ObjectKeyBytes object) (set_o_Timestamp (t_Timestamp t) (set_o_Value (Some value) object)) create
          else reply_err in
          ret OK in
        match err with
        | Some KeyNotFound =>
            if check =? CheckExist then ret RNil
            else if negb (is_root jsonPath) then reply_err ErrMustCreateRoot
            else if negb (Valid jsonValue) then reply_err InvalidJsonError
            else store jsonValue PlusCount
        | Some e => reply_err e
        | None =>
            if is_root jsonPath then
              if check =? CheckNotExist then ret RNil
              else if negb (Valid jsonValue) then reply_err InvalidJsonError
              else store jsonValue 0
            else
              match set_path (sl (o_Value object)) jsonPath jsonValue check with
              | inl e => reply_err e
              | inr None => ret RNil
              | inr (Some result) => store result 0
              end
        end
    end.

(** ** JSON.GET, JSON.MGET *)

(** The node at a path, or an array of all of them for a path from the root. *)
Definition jsonGet (root : Node) (path : bytes) (h : Heap) : (error + Node) * Heap :=
  if bool_decide (path = bs ".") then (inr root, h)
  else
    let '(jsonPath, rootPrefix) := checkRootPath path in
    match JSONPath root jsonPath h with
    | (inl _, h) => (inl (InvalidJsonPathError : error), h)
    | (inr nodes, h) =>
        if negb rootPrefix then
          match nodes with
          | [] => (inl (ErrPathNotExist : error), h)
          | node :: _ => (inr node, h)
          end
        else let '(node, h) := ArrayNode nodes h in (inr node, h)
    end.

Definition jsonGetHandle (k path : bytes) (clear : bool) : M (error + option (Node * Heap)) :=
  let! (object, err) := lookup JsonType k clear in
  match err with
  | Some KeyNotFound => ret (inr None)
  | Some e => ret (inl e)
  | None =>
      match Ajson_Unmarshal (sl (o_Value object)) no_nodes with
      | (inl _, _) => ret (inl (InvalidJsonError : error))
      | (inr root, h) =>
          match jsonGet root path h with
          | (inl e, _) => ret (inl e)
          | (inr result, h) => ret (inr (Some (result, h)))
          end
      end
  end.

Fixpoint jsonMget_loop (keys : list bytes) (path : bytes) (acc : list reply) : M reply :=
  match keys with
  | [] => ret (RArr acc)
  | k :: keys =>
      let! r := jsonGetHandle k path false in
      match r with
      | inl (Sentinel ErrPathNotExist) => jsonMget_loop keys path (acc ++ [RNil])
      | inl e => reply_err e
      | inr None => jsonMget_loop keys path (acc ++ [RNil])
      | inr (Some (result, h)) =>
          match Ajson_Marshal result h with
          | (inl _, _) => reply_err InvalidJsonError
          | (inr data, _) => jsonMget_loop keys path (acc ++ [RBulk data])
          end
      end
  end.

Definition JsonMgetHandle : TxnHandle := fun args =>
  if len args <? 2 then wrong_args "json.get"
  else jsonMget_loop (removelast args) (List.last args []) [].

(** The results of several paths, each once. *)
Fixpoint jsonGet_paths (root : Node) (paths : list bytes) (m : list (bytes * Node)) (h : Heap) :
    error + list (bytes * Node) * Heap :=
  match paths with
  | [] => inr (m, h)
  | path :: paths =>
      if bool_decide (path ∈ fst <$> m) then jsonGet_paths root paths m h
      else
        match jsonGet root path h with
        | (inl e, _) => inl e
        | (inr node, h) => jsonGet_paths root paths (m ++ [(path, node)]) h
        end
  end.

Definition JsonGetHandle : TxnHandle := fun args =>
  if len args <? 1 then wrong_args "json.get"
  else
    let! (object, err) := lookup JsonType (arg 0 args) false in
    match err with
    | Some KeyNotFound => ret RNil
    | Some e => reply_err e
    | None =>
        match drop 1 args with
        | [] => ret (RBulk (sl (o_Value object)))
        | paths =>
            match Ajson_Unmarshal (sl (o_Value object)) no_nodes with
            | (inl _, _) => reply_err InvalidJsonError
            | (inr root, h) =>
                match paths with
                | [path] =>
                    match jsonGet root path h with
                    | (inl e, _) => reply_err e
                    | (inr result, h) =>
                        match Ajson_Marshal result h with
                        | (inl _, _) => reply_err InvalidJsonError
                        | (inr data, _) => ret (RBulk data)
                        end
                    end
                | _ =>
                    match jsonGet_paths root paths [] h with
                    | inl e => reply_err e
                    | inr (m, h) =>
                        match Marshal_map m h with
                        | (inl e, _) => reply_err e
                        | (inr data, _) => ret (RBulk data)
                        end
                    end
                end
            end
        end
    end.

(** ** Callbacks *)

(** The dynamic types of the arguments of a callback. *)
Inductive json_arg := ANode (n : Node) | AInt (n : Z) | AFloat (f : float64) | AString (s : bytes).

(** A value, whether the document has changed, an error; [None] is a panic. *)
Definition JsonCallback : Type := Node -> list json_arg -> Heap -> option (reply * bool * option error * Heap).

Definition getType : JsonCallback := fun o args h =>
  match NodeType_of o h with
  | Null => Some (RBulk (bs "null"), false, None, h)
  | StringNode => Some (RBulk (bs "string"), false, None, h)
  | Numeric =>
      let '(v, h) := GetNumeric o h in
      let val := match v with inr val => val | inl _ => fzero end in
      if feq val (of_int (int_of_float val)) then Some (RBulk (bs "integer"), false, None, h)
      else Some (RBulk (bs "number"), false, None, h)
  | BoolNode => Some (RBulk (bs "boolean"), false, None, h)
  | ArrayType => Some (RBulk (bs "array"), false, None, h)
  | ObjectType => Some (RBulk (bs "object"), false, None, h)
  | OtherType => Some (RBulk [], false, None, h)
  end.

Definition getStrLen : JsonCallback := fun o args h =>
  if IsString o h then
    match GetString o h with
    | (inl _, h) => Some (RInt 0, false, Some (ErrPathNotString : error), h)
    | (inr val, h) => Some (RInt (len val), false, None, h)
    end
  else Some (RInt 0, false, Some (ErrPathNotString : error), h).

Definition getObjLen : JsonCallback := fun o args h =>
  if IsObject o h then Some (RInt (Size o h), false, None, h)
  else Some (RNil, false, Some (ErrPathNotObject : error), h).

Definition getObjKeys : JsonCallback := fun o args h =>
  if IsObject o h then Some (RArr (RBulk <$> Keys o h), false, None, h)
  else Some (RNil, false, Some (ErrPathNotObject : error), h).

Definition toggle : JsonCallback := fun o args h =>
  match GetBool o h with
  | (inl _, h) => Some (RNil, false, Some (ErrPathNotBool : error), h)
  | (inr b, h) =>
      match SetBool o (negb b) h with
      | (Some _, h) => Some (RNil, false, Some (ErrPathNotBool : error), h)
      | (None, h) => if b : bool then Some (RInt 0, true, None, h) else Some (RInt 1, true, None, h)
      end
  end.

Definition getArrLen : JsonCallback := fun o args h =>
  if IsArray o h then Some (RInt (Size o h), false, None, h)
  else Some (RNil, false, Some (ErrPathNotArray : error), h).

(** The first index from [index] on whose element is equal. From the size on [GetIndex]
    fails, so that the size and one more bound the steps. *)
Fixpoint arrIndex_loop (fuel : nat) (o value : Node) (index end_ : Z) (h : Heap) :
    option (reply * bool * option error * Heap) :=
  if negb (index <? end_) then Some (RInt (-1), false, None, h)
  else
    match fuel with
    | O => None
    | S fuel =>
        match GetIndex o index h with
        | (inl _, h) => Some (RInt 0, false, Some (InvalidJsonError : error), h)
        | (inr av, h) =>
            if Eq value av h then Some (RInt index, false, None, h)
            else arrIndex_loop fuel o value (index + 1) end_ h
        end
    end.

Definition getArrIndex : JsonCallback := fun o args h =>
  if negb (IsArray o h) then Some (RInt 0, false, Some (ErrPathNotArray : error), h)
  else
    let length := Size o h in
    if length =? 0 then Some (RInt (-1), false, None, h)
    else
      match args with
      | ANode value :: AInt start :: AInt end_ :: _ =>
          let start := if start <? 0 then i64 (start + length) else start in
          let start := if start <? 0 then 0 else start in
          let end_ := if end_ =? 0 then length else end_ in
          let end_ := if end_ <? 0 then i64 (end_ + length) else end_ in
          if end_ <=? start then Some (RInt (-1), false, None, h)
          else arrIndex_loop (S (Z.to_nat length)) o value start end_ h
      | _ => None
      end.

Fixpoint appendArr_loop (args : list json_arg) (o : Node) (change : bool) (h : Heap) :
    option (reply * bool * option error * Heap) :=
  match args with
  | [] => Some (RInt (Size o h), change, None, h)
  | ANode value :: args =>
      match AppendArray o value h with
      | (Some e, h) => Some (RNil, false, Some e, h)
      | (None, h) => appendArr_loop args o true h
      end
  | _ => None
  end.
Definition appendArr : JsonCallback := fun o args h => appendArr_loop args o false h.

(** [incr] is for INCRBY, otherwise it is MULTBY. *)
Definition numby (incr : bool) : JsonCallback := fun o args h =>
  match args with
  | AFloat num :: _ =>
      match GetNumeric o h with
      | (inl _, h) => Some (RGoInt 0, false, Some (ErrPathNotNumber : error), h)
      | (inr v, h) =>
          let set (newV : float64) : option (reply * bool * option error * Heap) :=
            match SetNumeric o newV h with
            | (Some _, h) => Some (RGoInt 0, false, Some (InvalidJsonError : error), h)
            | (None, h) => Some (RFloat newV, true, None, h)
            end in
          if incr then
            if feq num fzero then Some (RFloat v, false, None, h)
            else if negb (ValidIncrementFloat v num) then Some (RGoInt 0, false, Some (ErrOverflow : error), h)
            else set (fadd v num)
          else
            if feq num fone || feq v fzero then Some (RFloat v, false, None, h)
            else if negb (ValidMultiFloat v num) then Some (RGoInt 0, false, Some (ErrOverflow : error), h)
            else set (fmul v num)
      end
  | _ => None
  end.
Definition numIncrBy : JsonCallback := numby true.
Definition numMultBy : JsonCallback := numby false.

Definition appendStr : JsonCallback := fun o args h =>
  match args with
  | AString value :: _ =>
      match GetString o h with
      | (inl _, h) => Some (RInt 0, false, Some (ErrPathNotString : error), h)
      | (inr v, h) =>
          if bool_decide (value = []) then Some (RInt (len v), false, None, h)
          else
            let newV := v ++ value in
            match SetString o newV h with
            | (Some _, h) => Some (RInt 0, false, Some (ErrPathNotString : error), h)
            | (None, h) => Some (RInt (len newV), true, None, h)
            end
      end
  | _ => None
  end.

Definition nodes_of (args : list json_arg) : option (list Node) :=
  mapM (fun a => match a with ANode n => Some n | _ => None end) args.

Definition insertArr : JsonCallback := fun o args h =>
  match args with
  | AInt index :: args =>
      vs ← nodes_of args;
      if bool_decide (length vs = 0%nat) then Some (RInt (Size o h), false, None, h)
      else
        match InsertArray o index vs h with
        | (Some _, h) => Some (RNil, false, Some (ErrOutOfRange : error), h)
        | (None, h) => Some (RInt (Size o h), true, None, h)
        end
  | _ => None
  end.

Definition trimArr : JsonCallback := fun o args h =>
  if negb (IsArray o h) then Some (RNil, false, Some (ErrPathNotArray : error), h)
  else if Size o h =? 0 then Some (RInt 0, false, None, h)
  else
    match args with
    | AInt start :: AInt end_ :: _ =>
        match TrimIndex o start end_ h with
        | (inl e, h) => Some (RNil, false, Some e, h)
        | (inr change, h) => Some (RInt (Size o h), change, None, h)
        end
    | _ => None
    end.

Definition popArr : JsonCallback := fun o args h =>
  if negb (IsArray o h) then Some (RNil, false, Some (ErrPathNotArray : error), h)
  else
    let n := Size o h in
    if n =? 0 then Some (RNil, false, None, h)
    else
      index ← match args with
              | [] => Some (n - 1)
              | AInt index :: _ =>
                  let index := if index >=? n then n - 1 else index in
                  Some (if index <=? - n then 0 else index)
              | _ => None
              end;
      match PopIndex o index h with
      | (inl e, h) => Some (RNil, false, Some e, h)
      | (inr v, h) =>
          match Value v h with
          | (inl e, h) => Some (RNil, false, Some e, h)
          | (inr value, h) => Some (value, true, None, h)
          end
      end.

(** [JsonCallbackFucs]. *)
Definition JsonCallbackFucs : list (string * JsonCallback) := [
  ("json.type", getType); ("json.objlen", getObjLen); ("json.objkeys", getObjKeys); ("json.arrlen", getArrLen);
  ("json.arrindex", getArrIndex); ("json.arrappend", appendArr); ("json.arrinsert", insertArr);
  ("json.arrtrim", trimArr); ("json.arrpop", popArr); ("json.numincrby", numIncrBy); ("json.nummultby", numMultBy);
  ("json.toggle", toggle); ("json.strlen", getStrLen); ("json.strappend", appendStr)
]%string.
Definition callback_of (cmd : string) : option JsonCallback :=
  snd <$> List.find (fun e => bool_decide (fst e = cmd)) JsonCallbackFucs.

(** The callback on every node: the results, whether one has changed the document, and the
    last error. *)
Fixpoint callback_nodes (f : JsonCallback) (nodes : list Node) (args : list json_arg)
    (acc : list reply) (change : bool) (reterr : option error) (h : Heap) :
    option (list reply * bool * option error * Heap) :=
  match nodes with
  | [] => Some (acc, change, reterr, h)
  | node :: nodes =>
      '(c, isChange, err, h) ← f node args h;
      match err with
      | None => callback_nodes f nodes args (acc ++ [c]) (change || isChange) reterr h
      | Some e => callback_nodes f nodes args (acc ++ [RNil]) (change || isChange) (Some e) h
      end
  end.

Definition is_numeric (cmd : string) : bool := bool_decide (cmd ∈ ["json.numincrby"; "json.nummultby"]%string).
Definition missing_is_nil (cmd : string) : bool :=
  bool_decide (cmd ∈ ["json.strlen"; "json.arrlen"; "json.objlen"]%string).

(** The nodes at the path of a command, and whether it starts at the root. *)
Definition find_nodes (root : Node) (path : bytes) (h : Heap) : (error + list Node) * Heap * bool :=
  if bool_decide (path = bs ".") then ((inr [root], h), false)
  else let '(jsonPath, rootPrefix) := checkRootPath path in (JSONPath root jsonPath h, rootPrefix).

(** The arguments, and the memory of the nodes among them. *)
Definition jsonCallbackHandle (k path : bytes) (args : list json_arg) (h : Heap) (clear : bool) (cmd : string) : M reply :=
  let! (object, err) := lookup JsonType k clear in
  match err with
  | Some KeyNotFound => if missing_is_nil cmd then ret RNil else reply_err KeyNotFound
  | Some e => reply_err e
  | None =>
      match Ajson_Unmarshal (sl (o_Value object)) h with
      | (inl _, _) => reply_err InvalidJsonError
      | (inr root, h) =>
          match find_nodes root path h with
          | (inl _, _, _) => reply_err InvalidJsonPathError
          | (inr nodes, h, rootPrefix) =>
              if negb rootPrefix && bool_decide (length nodes = 0%nat) then
                if bool_decide (cmd = "json.type"%string) then ret RNil else reply_err ErrPathNotExist
              else
                match callback_of cmd with
                | None => reply_err UnsupportCmd
                | Some callback =>
                    match callback_nodes callback nodes args [] false None h with
                    | None => panic
                    | Some (rets, change, reterr, h) =>
                        do! (if change : bool then setJsonValue (ObjectKeyBytes object) object root h else ret None)
                        else reply_err in
                        if negb rootPrefix then
                          match reterr, rets with
                          | Some e, _ => reply_err e
                          | None, r :: _ => ret r
                          | None, [] => panic
                          end
                        else if is_numeric cmd then ret (RBulk (marshal_numbers rets))
                        else ret (RArr rets)
                    end
                end
          end
      end
  end.

(** ** The commands with callbacks *)

(** [path] where it may be left out. *)
Definition path_or_dot (args : list bytes) : bytes := match args with [_] => bs "." | _ => arg 1 args end.

Definition one_or_two (args : list bytes) : bool := (len args =? 1) || (len args =? 2).

Definition JsonToggleHandle : TxnHandle := fun args =>
  if negb (one_or_two args) then wrong_args "json.toggle"
  else jsonCallbackHandle (arg 0 args) (path_or_dot args) [] no_nodes true "json.toggle".
Definition JsonArrLenHandle : TxnHandle := fun args =>
  if negb (one_or_two args) then wrong_args "json.arrlen"
  else jsonCallbackHandle (arg 0 args) (path_or_dot args) [] no_nodes false "json.arrlen".
Definition JsonStrLenHandle : TxnHandle := fun args =>
  if negb (one_or_two args) then wrong_args "json.strlen"
  else jsonCallbackHandle (arg 0 args) (path_or_dot args) [] no_nodes false "json.strlen".
Definition JsonObjLenHandle : TxnHandle := fun args =>
  if negb (one_or_two args) then wrong_args "json.objlen"
  else jsonCallbackHandle (arg 0 args) (path_or_dot args) [] no_nodes false "json.objlen".
Definition JsonTypeHandle : TxnHandle := fun args =>
  if negb (one_or_two args) then wrong_args "json.type"
  else jsonCallbackHandle (arg 0 args) (path_or_dot args) [] no_nodes false "json.type".
Definition JsonObjKeysHandle : TxnHandle := fun args =>
  if negb (one_or_two args) then wrong_args "json.objkeys"
  else jsonCallbackHandle (arg 0 args) (path_or_dot args) [] no_nodes false "json.objkeys".

Definition JsonArrTrimHandle : TxnHandle := fun args =>
  if negb (len args =? 4) then wrong_args "json.arrtrim"
  else
    match Atoi (arg 2 args), Atoi (arg 3 args) with
    | Some start, Some end_ =>
        jsonCallbackHandle (arg 0 args) (arg 1 args) [AInt start; AInt end_] no_nodes true "json.arrtrim"
    | _, _ => reply_err ErrNotInteger
    end.

Definition JsonArrPopHandle : TxnHandle := fun args =>
  if (len args <? 1) || (len args >? 3) then wrong_args "json.arrpop"
  else if len args =? 3 then
    match Atoi (arg 2 args) with
    | None => reply_err ErrInvalidIndex
    | Some index => jsonCallbackHandle (arg 0 args) (path_or_dot args) [AInt index] no_nodes true "json.arrpop"
    end
  else jsonCallbackHandle (arg 0 args) (path_or_dot args) [] no_nodes true "json.arrpop".

(** The values of a command, as nodes. *)
Fixpoint unmarshal_all (vs : list bytes) (h : Heap) : option (list json_arg * Heap) :=
  match vs with
  | [] => Some ([], h)
  | v :: vs =>
      match Ajson_Unmarshal v h with
      | (inl _, _) => None
      | (inr node, h) => '(nodes, h) ← unmarshal_all vs h; Some (ANode node :: nodes, h)
      end
  end.

Definition JsonArrInsertHandle : TxnHandle := fun args =>
  if len args <? 4 then wrong_args "json.arrinsert"
  else
    match Atoi (arg 2 args) with
    | None => reply_err ErrInvalidIndex
    | Some index =>
        match unmarshal_all (drop 3 args) no_nodes with
        | None => reply_err InvalidJsonError
        | Some (values, h) =>
            jsonCallbackHandle (arg 0 args) (arg 1 args) (AInt index :: values) h true "json.arrinsert"
        end
    end.

Definition JsonArrAppendHandle : TxnHandle := fun args =>
  if len args <? 3 then wrong_args "json.arrappend"
  else
    match unmarshal_all (drop 2 args) no_nodes with
    | None => reply_err InvalidJsonError
    | Some (values, h) => jsonCallbackHandle (arg 0 args) (arg 1 args) values h true "json.arrappend"
    end.

(** An index that may be left out. *)
Definition index_or_zero (i : nat) (args : list bytes) : option Z :=
  if len args >? Z.of_nat i then Atoi (arg i args) else Some 0.

Definition JsonArrIndexHandle : TxnHandle := fun args =>
  if (len args <? 3) || (len args >? 5) then wrong_args "json.arrindex"
  else
    match Ajson_Unmarshal (arg 2 args) no_nodes with
    | (inl _, _) => reply_err InvalidJsonError
    | (inr value, h) =>
        match index_or_zero 3 args, index_or_zero 4 args with
        | Some start, Some end_ =>
            jsonCallbackHandle (arg 0 args) (arg 1 args) [ANode value; AInt start; AInt end_] h false "json.arrindex"
        | _, _ => reply_err ErrNotInteger
        end
    end.

Definition JsonStrAppendHandle : TxnHandle := fun args =>
  match args with
  | [_; _] | [_; _; _] =>
      let path := match args with [_; _] => bs "." | _ => arg 1 args end in
      match Ajson_Unmarshal (List.last args []) no_nodes with
      | (inl _, _) => reply_err InvalidJsonError
      | (inr value, h) =>
          match GetString value h with
          | (inl _, _) => reply_err ErrPathNotString
          | (inr str, h) => jsonCallbackHandle (arg 0 args) path [AString str] h true "json.strappend"
          end
      end
  | _ => wrong_args "json.strappend"
  end.

(** A finite number. *)
Definition finite_arg (a : bytes) : option float64 :=
  match ParseFloat a with
  | Some num => if isNaN num || bool_decide (num = float_inf false) || bool_decide (num = float_inf true) then None else Some num
  | None => None
  end.

Definition JsonNumIncrByHandle : TxnHandle := fun args =>
  if negb (len args =? 3) then wrong_args "json.numincrby"
  else
    match finite_arg (arg 2 args) with
    | None => reply_err ErrInvalidFloat
    | Some num => jsonCallbackHandle (arg 0 args) (arg 1 args) [AFloat num] no_nodes true "json.numincrby"
    end.
Definition JsonNumMultByHandle : TxnHandle := fun args =>
  if negb (len args =? 3) then wrong_args "json.nummultby"
  else
    match finite_arg (arg 2 args) with
    | None => reply_err ErrInvalidFloat
    | Some num => jsonCallbackHandle (arg 0 args) (arg 1 args) [AFloat num] no_nodes true "json.nummultby"
    end.

End json.
