(* ===== verification/Transaction.v ===== *)
(** command/transaction.go: connections, the retry loop of single commands, and
    MULTI, EXEC, DISCARD, WATCH and UNWATCH, with what other clients do to the
    store between two accesses of a connection as an explicit sequence of steps. *)

From S2P Require Import Prelude Xerror GoStd Utils Store Mem Object Reply Client.
From Stdlib Require Import Init.Byte.

#[local] Open Scope Z_scope.

(** ** Connections *)

(** [PubSubMessage] of pubsub.go. *)
Record PubSubMessage := { m_Channel : bytes; m_Message : list bytes }.

(** What a handler returns: PUBLISH inside MULTI returns its message. *)
Inductive resp := Reply (r : reply) | Message (m : PubSubMessage).

(** What is written to the connection. *)
Inductive wire :=
  | WAny (r : reply)
  | WAnyMessage (m : PubSubMessage)
  | WError (msg : string)
  | WNull.

Definition Queued : reply := RStatus "QUEUED".

(** The members that PUBLISH talks to: whether they are reachable, and how many
    subscribers get each message. *)
Class PubSub := {
  WaitAlive : option error;
  PublishMessages : list PubSubMessage -> list Z
}.

(** A handler: it works on the transaction of its command, and may also go around it, on
    transactions of its own that it makes with the client of the server. *)
Inductive HandlerRun `{Platform} :=
  | HandlerDone (r : resp) (t : Txn) (s : Store)
  | HandlerPanicked
  | HandlerDiverged.
Definition Handler `{Platform} : Type := list bytes -> Txn -> Store -> HandlerRun.

(** The handlers that keep to the transaction of the command. *)
Definition on_txn `{Platform} (f : list bytes -> M resp) : Handler := fun args t s =>
  match f args t with
  | Ret r t => HandlerDone r t s
  | Panic => HandlerPanicked
  | Diverge => HandlerDiverged
  end.

(** FLUSHALL and FLUSHDB, which work through the client: the transaction of the command
    gets the error, if there is one, and is left alone otherwise. *)
Definition on_client `{Platform} (f : list bytes -> Txn -> Store -> Run (error + reply)) : Handler := fun args t s =>
  match f args t s with
  | Finished (inl e) s => HandlerDone (Reply (RErr e)) (with_Err (Some e) t) s
  | Finished (inr r) s => HandlerDone (Reply r) t s
  | RunPanicked => HandlerPanicked
  | RunDiverged => HandlerDiverged
  end.

(** The command table [Command.TxnHandle] and [KVTxn.Reset]. *)
Class Server `{Clients} := {
  TxnHandleTable : string -> option Handler;
  kv_Reset : KV -> KV
}.

(** The part of [redcon.Conn] that is used here. [*redcon.Conn] is embedded in
    [store.Txn], so a transaction that is bound to a connection reads and writes the
    connection's user and database: [bound] and [unbound] below. *)
Record Conn `{Platform} := {
  cn_UserId : Z;
  cn_DBId : Z;
  cn_txn : option Txn;
  cn_draws : Z;
  cn_out : list wire
}.

(** The store and one connection; [w_time] counts the accesses. *)
Record World `{Platform} := { w_cluster : Cluster; w_conn : Conn; w_time : Z }.

(** How the handling of a command ends: with the error that ServeRESP logs and the
    new state, in a panic, or not at all. *)
Inductive Step `{Platform} :=
  | Done (e : option error) (w : World)
  | Panicked
  | Diverged.

Section handlers.
Context `{Platform} `{PubSub}.

Definition set_Watch (b : bool) (t : Txn) : Txn :=
  {| t_txn := t_txn t; t_Multi := t_Multi t; t_Watch := b; t_Exec := t_Exec t;
     t_Err := t_Err t; t_PendingErr := t_PendingErr t; t_Timestamp := t_Timestamp t;
     t_Now := t_Now t; t_ListLID := t_ListLID t; t_ListRID := t_ListRID t;
     t_Config := t_Config t; t_UserId := t_UserId t; t_DBId := t_DBId t;
     t_PendingReq := t_PendingReq t; t_draws := t_draws t |}.

(** The two commands of this file that are in the command table. *)
Definition UnWatchHandle : TxnHandle := fun args =>
  if negb (len args =? 0) then wrong_args "unwatch"
  else let! _ := modify (set_Watch false) in ret OK.

(** PUBLISH: inside MULTI the message is sent when EXEC commits. *)
Definition PublishHandle (args : list bytes) : M resp :=
  if negb (len args =? 2) then
    let! e := SetError (WrongArgsError "publish") in ret (Reply (RErr e))
  else
    let message := {| m_Channel := arg 0 args; m_Message := drop 1 args |} in
    let! t := get_txn in
    if t_Multi t then ret (Message message)
    else match PublishMessages [message] with
         | n :: _ => ret (Reply (RInt n))
         | [] => panic
         end.

End handlers.

Section server.
Context `{Server} `{PubSub}.

(** The others run. *)
Definition tick (w : World) : World :=
  {| w_cluster := Others (w_time w) (w_cluster w); w_conn := w_conn w; w_time := w_time w + 1 |}.

Definition with_cluster (c : Cluster) (w : World) : World :=
  {| w_cluster := c; w_conn := w_conn w; w_time := w_time w |}.
Definition with_conn (cn : Conn) (w : World) : World :=
  {| w_cluster := w_cluster w; w_conn := cn; w_time := w_time w |}.

(** The store as a handler finds it and leaves it. *)
Definition store_of (w : World) : Store := (w_cluster w, w_time w).
Definition with_store (s : Store) (w : World) : World :=
  {| w_cluster := fst s; w_conn := w_conn w; w_time := snd s |}.

Definition write (x : wire) (w : World) : World :=
  let cn := w_conn w in
  with_conn {| cn_UserId := cn_UserId cn; cn_DBId := cn_DBId cn; cn_txn := cn_txn cn;
               cn_draws := cn_draws cn; cn_out := cn_out cn ++ [x] |} w.

Definition SetTransaction (t : option Txn) (w : World) : World :=
  let cn := w_conn w in
  with_conn {| cn_UserId := cn_UserId cn; cn_DBId := cn_DBId cn; cn_txn := t;
               cn_draws := cn_draws cn; cn_out := cn_out cn |} w.

(** A transaction sees its connection, and the connection what it did. *)
Definition bound (cn : Conn) (t : Txn) : Txn :=
  {| t_txn := t_txn t; t_Multi := t_Multi t; t_Watch := t_Watch t; t_Exec := t_Exec t;
     t_Err := t_Err t; t_PendingErr := t_PendingErr t; t_Timestamp := t_Timestamp t;
     t_Now := t_Now t; t_ListLID := t_ListLID t; t_ListRID := t_ListRID t;
     t_Config := t_Config t; t_UserId := cn_UserId cn; t_DBId := cn_DBId cn;
     t_PendingReq := t_PendingReq t; t_draws := cn_draws cn |}.

Definition unbound (t : Txn) (w : World) : World :=
  let cn := w_conn w in
  with_conn {| cn_UserId := t_UserId t; cn_DBId := t_DBId t; cn_txn := cn_txn cn;
               cn_draws := t_draws t; cn_out := cn_out cn |} w.

Definition WriteConnError (e : error) (w : World) : World := write (WError (conn_error_text e)) w.

(** [WriteConnError(conn, cmd, err); return err]. *)
Definition refuse (e : error) (w : World) : Step := Done (Some e) (WriteConnError e w).

(** [conn.WriteAny] of a response. *)
Definition write_resp (r : resp) : World -> World :=
  match r with Reply r => write (WAny r) | Message m => write (WAnyMessage m) end.

(** ** Transactions of a connection *)

Definition set_Multi (reqs : list (list bytes)) (t : Txn) : Txn :=
  {| t_txn := t_txn t; t_Multi := true; t_Watch := t_Watch t; t_Exec := t_Exec t;
     t_Err := t_Err t; t_PendingErr := t_PendingErr t; t_Timestamp := t_Timestamp t;
     t_Now := t_Now t; t_ListLID := t_ListLID t; t_ListRID := t_ListRID t;
     t_Config := t_Config t; t_UserId := t_UserId t; t_DBId := t_DBId t;
     t_PendingReq := reqs; t_draws := t_draws t |}.
Definition set_PendingErr (t : Txn) : Txn :=
  {| t_txn := t_txn t; t_Multi := t_Multi t; t_Watch := t_Watch t; t_Exec := t_Exec t;
     t_Err := t_Err t; t_PendingErr := true; t_Timestamp := t_Timestamp t;
     t_Now := t_Now t; t_ListLID := t_ListLID t; t_ListRID := t_ListRID t;
     t_Config := t_Config t; t_UserId := t_UserId t; t_DBId := t_DBId t;
     t_PendingReq := t_PendingReq t; t_draws := t_draws t |}.
Definition set_Exec (t : Txn) : Txn :=
  {| t_txn := t_txn t; t_Multi := t_Multi t; t_Watch := t_Watch t; t_Exec := true;
     t_Err := t_Err t; t_PendingErr := t_PendingErr t; t_Timestamp := t_Timestamp t;
     t_Now := t_Now t; t_ListLID := t_ListLID t; t_ListRID := t_ListRID t;
     t_Config := t_Config t; t_UserId := t_UserId t; t_DBId := t_DBId t;
     t_PendingReq := t_PendingReq t; t_draws := t_draws t |}.

Definition createTransaction (cn : Conn) : Txn :=
  bound cn (with_Config (GetConfig (cn_UserId cn)) NewTxn).

Definition getTransaction (cn : Conn) : option Txn := bound cn <$> cn_txn cn.

Definition getOrCreateTransaction (cn : Conn) : Txn * bool :=
  match getTransaction cn with
  | Some t => (t, true)
  | None => (createTransaction cn, false)
  end.

(** [Txn.Reset]. *)
Definition Reset (t : Txn) : Txn :=
  match t_txn t with Some kv => with_txn (Some (kv_Reset kv)) t | None => t end.

(** The transaction a command runs on, and whether it runs at once. *)
Definition checkSingle (comma : string) (w : World) : Txn * bool * World :=
  let cn := w_conn w in
  match getTransaction cn with
  | Some t =>
      if t_Multi t then (t, false, w)
      else
        let w := if bool_decide (comma = "unwatch")
                 then SetTransaction (Some (Reset (set_Watch false t))) w else w in
        (createTransaction cn, true, w)
  | None => (createTransaction cn, true, w)
  end.

(** ** Single commands *)

(** One attempt: a response, or an error of Begin or Commit, which is retried. The
    transaction is rolled back in the end ([defer]). *)
Inductive Attempt :=
  | Replied (r : resp) (t : Txn) (w : World)
  | Failed (e : error) (t : Txn) (w : World)
  | AttemptPanicked
  | AttemptDiverged.

Definition SingleHandler (f : Handler) (args : list bytes) (t : Txn) (w : World) : Attempt :=
  let w := tick w in
  match Begin (w_cluster w) t with
  | (t, Some e) => Failed e t w
  | (t, None) =>
      match f args t (store_of w) with
      | HandlerDone r t s =>
          let w := unbound t (with_store s w) in
          match t_Err t with
          | Some _ => Replied r (Rollback t) w
          | None =>
              let w := tick w in
              let '(c, t, e) := Commit (w_cluster w) t in
              let w := with_cluster c w in
              match e with
              | Some e => Failed e (Rollback t) w
              | None => Replied r (Rollback t) w
              end
          end
      | HandlerPanicked => AttemptPanicked
      | HandlerDiverged => AttemptDiverged
      end
  end.

(** The loop of [TxnHandler], [n] attempts left; [last] is the error of the last one. *)
Fixpoint single_loop (n : nat) (f : Handler) (args : list bytes) (last : error)
    (t : Txn) (w : World) : Step :=
  match n with
  | O => refuse last w
  | S n =>
      match SingleHandler f args t w with
      | Replied r t w =>
          Done (t_Err t) (match r with
                          | Reply (RErr e) => WriteConnError e w
                          | r => write_resp r w
                          end)
      | Failed e t w => single_loop n f args e t w
      | AttemptPanicked => Panicked
      | AttemptDiverged => Diverged
      end
  end.

Definition max_attempts : nat := 3.

(** [strings.ToLower(B2S(cmd.Args[0]))] *)
Definition comma_of (cmd : list bytes) : string := B2S (ToLower (arg 0 cmd)).

Definition push_req (cmd : list bytes) (t : Txn) : Txn := set_Multi (t_PendingReq t ++ [cmd]) t.

Definition TxnHandler (comma : string) (cmd : list bytes) (w : World) : Step :=
  match TxnHandleTable comma with
  | None =>
      let w := match getTransaction (w_conn w) with
               | Some t => if t_Multi t then SetTransaction (Some (set_PendingErr t)) w else w
               | None => w
               end in
      refuse (UnknownCommandError comma) w
  | Some f =>
      let '(t, single, w) := checkSingle comma w in
      if single : bool then single_loop max_attempts f (drop 1 cmd) KeyNotFound t w
      else Done None (write (WAny Queued) (SetTransaction (Some (push_req cmd t)) w))
  end.

(** ** MULTI, DISCARD, WATCH, UNWATCH *)

Definition clearTransaction (w : World) : World := SetTransaction None w.

(** [string(cmd.Args[0])]: the command's name as it was sent. *)
Definition sent_name (cmd : list bytes) : string := B2S (arg 0 cmd).

Definition multi (cmd : list bytes) (w : World) : Step :=
  if negb (len (drop 1 cmd) =? 0) then refuse (WrongArgsError (sent_name cmd)) w
  else
    let '(t, _) := getOrCreateTransaction (w_conn w) in
    if t_Multi t then refuse ErrMultiNested w
    else Done None (write (WAny OK) (SetTransaction (Some (set_Multi [] t)) w)).

Definition discard (cmd : list bytes) (w : World) : Step :=
  if negb (len (drop 1 cmd) =? 0) then refuse (WrongArgsError (sent_name cmd)) w
  else
    match getTransaction (w_conn w) with
    | None => refuse ErrDISCARDErr w
    | Some t =>
        if negb (t_Multi t) then refuse ErrDISCARDErr (clearTransaction w)
        else Done None (write (WAny OK) (clearTransaction w))
    end.

Definition watch_key (t : Txn) (k : bytes) : bytes :=
  GetKeyBytes DataPrefix (t_UserId t) (t_DBId t) KeyPrefix [k].

Definition watch (cmd : list bytes) (w : World) : Step :=
  let args := drop 1 cmd in
  if len args =? 0 then refuse (WrongArgsError (sent_name cmd)) w
  else
    let '(t, alreadyExist) := getOrCreateTransaction (w_conn w) in
    if t_Multi t then refuse ErrWatchInsideMulti w
    else
      let w := tick w in
      let '(t, e) := if HasTransaction t then (t, None) else Begin (w_cluster w) t in
      let keep t w := if alreadyExist : bool then SetTransaction (Some t) w else w in
      match e with
      | Some e => refuse e (keep t w)
      | None =>
          match LockKeys (watch_key t <$> args) t with
          | Ret (Some e) t => refuse e (keep (Rollback t) w)
          | Ret None t => Done None (write (WAny OK) (SetTransaction (Some (set_Watch true t)) w))
          | Panic => Panicked
          | Diverge => Diverged
          end
      end.

(** ** EXEC *)

(** A slot of [ret]: a response, or a message whose count is not known yet. *)
Definition slot : Type := resp + PubSubMessage.

Inductive ExecLoop :=
  | LoopDone (r : error + list slot) (t : Txn) (s : Store)
  | LoopPanicked
  | LoopDiverged.

(** The queued commands in order; the first one that is unknown or fails ends it. *)
Fixpoint exec_loop (reqs : list (list bytes)) (acc : list slot) (t : Txn) (s : Store) : ExecLoop :=
  match reqs with
  | [] => LoopDone (inr acc) t s
  | cmd :: reqs =>
      let command := comma_of cmd in
      match TxnHandleTable command with
      | None => LoopDone (inl (UnknownCommandError command)) t s
      | Some f =>
          match f (drop 1 cmd) t s with
          | HandlerDone r t s =>
              match t_Err t with
              | Some e => LoopDone (inl e) t s
              | None =>
                  if bool_decide (command = "publish") then
                    match r with
                    | Message m => exec_loop reqs (acc ++ [inr m]) t s
                    | Reply _ => LoopPanicked
                    end
                  else exec_loop reqs (acc ++ [inl r]) t s
              end
          | HandlerPanicked => LoopPanicked
          | HandlerDiverged => LoopDiverged
          end
      end
  end.

Definition messages (slots : list slot) : list PubSubMessage :=
  omap (fun s => match s with inr m => Some m | inl _ => None end) slots.

(** The responses, the counts of the messages filled in. *)
Fixpoint fill (slots : list slot) (counts : list Z) : option (list resp) :=
  match slots with
  | [] => Some []
  | inl r :: slots => cons r <$> fill slots counts
  | inr _ :: slots =>
      match counts with
      | n :: counts => cons (Reply (RInt n)) <$> fill slots counts
      | [] => None
      end
  end.

(** [txn.WriteAny(ret)]: an array of the responses. *)
Definition as_reply (r : resp) : reply := match r with Reply r => r | Message _ => RNil end.

(** The transaction commits: the end of [exec]. *)
Definition exec_commit (slots : list slot) (t : Txn) (w : World) : Step :=
  let pubs := messages slots in
  match (if bool_decide (pubs = []) then None else WaitAlive) with
  | Some e => refuse e (clearTransaction w)
  | None =>
      let w := tick w in
      let '(c, t, e) := Commit (w_cluster w) t in
      let w := clearTransaction (with_cluster c w) in
      match e with
      | Some e => if t_Watch t then Done (Some e) (write WNull w) else refuse e w
      | None =>
          match fill slots (if bool_decide (pubs = []) then [] else PublishMessages pubs) with
          | Some ret => Done None (write (WAny (RArr (as_reply <$> ret))) w)
          | None => Panicked
          end
      end
  end.

(** The queued commands run on [t], an open transaction. *)
Definition exec_run (t : Txn) (w : World) : Step :=
  match exec_loop (t_PendingReq t) [] (set_Exec t) (store_of w) with
  | LoopDone (inl e) t s => refuse e (clearTransaction (unbound t (with_store s w)))
  | LoopDone (inr slots) t s => exec_commit slots t (unbound t (with_store s w))
  | LoopPanicked => Panicked
  | LoopDiverged => Diverged
  end.

Definition exec (cmd : list bytes) (w : World) : Step :=
  if negb (len (drop 1 cmd) =? 0) then refuse (WrongArgsError (sent_name cmd)) w
  else
    match getTransaction (w_conn w) with
    | None => refuse ErrEXECErr w
    | Some t =>
        if negb (t_Multi t) then refuse ErrEXECErr (clearTransaction w)
        else if t_PendingErr t then refuse ErrTransactionDiscarded (clearTransaction w)
        else
          let w := tick w in
          let '(t, e) := if HasTransaction t then (t, None) else Begin (w_cluster w) t in
          match e with
          | Some e => refuse e (clearTransaction w)
          | None => exec_run t w
          end
    end.

(** ** Dispatch *)

(** The modelled commands of [Command.ConnHandle]. *)
Definition ConnHandleTable (comma : string) : option (list bytes -> World -> Step) :=
  if bool_decide (comma = "watch") then Some watch
  else if bool_decide (comma = "multi") then Some multi
  else if bool_decide (comma = "exec") then Some exec
  else if bool_decide (comma = "discard") then Some discard
  else None.

(** [ServeRESP] once the user is known. *)
Definition serve (cmd : list bytes) (w : World) : Step :=
  let comma := comma_of cmd in
  match ConnHandleTable comma with
  | Some handler => handler cmd w
  | None => TxnHandler comma cmd w
  end.

End server.
