(* ===== verification/TransactionSpec.v ===== *)
(** What transactions promise: MULTI queues and EXEC runs the queue on one snapshot
    or not at all, every command commits at most once and never when it reports an
    error, and the invariant of a connection's transaction. *)

From S2P Require Import Prelude Xerror GoStd Utils Store Mem Object Reply Strings Generic.
From S2P Require Import Client Transaction.
From Stdlib Require Import Init.Byte.

#[local] Open Scope Z_scope.

Section spec.
Context `{Server} `{PubSub}.

(** ** Commits *)

(** A handler that commits nothing but through the transaction of its command. *)
Definition keeps (h : Handler) : Prop :=
  forall args t s, match h args t s with HandlerDone _ _ s' => s' = s | HandlerPanicked | HandlerDiverged => True end.
Lemma on_txn_keeps f : keeps (on_txn f).
Proof. intros args t s. unfold on_txn. by destruct (f args t). Qed.

(** The commands whose handlers a command runs. *)
Definition runs (cmd : list bytes) (w : World) : list string :=
  if bool_decide (comma_of cmd = "exec"%string)
  then from_option (fun t => comma_of <$> t_PendingReq t) [] (getTransaction (w_conn w))
  else [comma_of cmd].

(** Nothing of this connection is committed: the others run, and commits are refused. *)
Inductive quiet : Cluster * Z -> Cluster * Z -> Prop :=
  | quiet_refl s : quiet s s
  | quiet_others c n s : quiet (Others n c, n + 1) s -> quiet (c, n) s
  | quiet_refused c n kv c' e s :
      kv_Commit c kv = (c', Some e) -> quiet (c', n) s -> quiet (c, n) s.

Lemma quiet_trans s1 s2 s3 : quiet s1 s2 -> quiet s2 s3 -> quiet s1 s3.
Proof. induction 1; intros; [done|apply quiet_others; eauto|eapply quiet_refused; eauto]. Qed.

Lemma quiet_tick w s : quiet (store_of (tick w)) s -> quiet (store_of w) s.
Proof. apply quiet_others. Qed.

(** Exactly one transaction of this connection is committed, as the last access. *)
Definition committed (s s' : Cluster * Z) : Prop :=
  exists c n kv, quiet s (c, n) /\ kv_Commit c kv = (fst s', None) /\ snd s' = n.

Lemma quiet_committed s1 s2 s3 : quiet s1 s2 -> committed s2 s3 -> committed s1 s3.
Proof. intros Hq (c&n&kv&Hq'&Hc). exists c, n, kv. split; [by eapply quiet_trans|done]. Qed.

(** How a command may end. *)
Definition outcome (s : Cluster * Z) (r : Step) : Prop :=
  match r with
  | Done e w' => quiet s (store_of w') \/ (e = None /\ committed s (store_of w'))
  | Panicked | Diverged => True
  end.

Lemma outcome_quiet s1 s2 r : quiet s1 s2 -> outcome s2 r -> outcome s1 r.
Proof.
  intros Hq. destruct r as [e w'| |]; [|done..]. intros [Hl|[Hr1 Hr2]]; [left|right].
  - by eapply quiet_trans.
  - split; [done|]. by eapply quiet_committed.
Qed.

Lemma state_write x w : store_of (write x w) = store_of w.
Proof. done. Qed.

(** A command that leaves the store alone. *)
Lemma outcome_Done e w w' : store_of w' = store_of w -> outcome (store_of w) (Done e w').
Proof. intros E. left. rewrite E. constructor. Qed.
Ltac idle := by apply outcome_Done.

(** A commit: refused, or the one commit of the command. *)
Lemma Commit_state t w c t' e :
  Commit (w_cluster w) t = (c, t', e) ->
  match e with
  | Some _ => quiet (store_of w) (store_of (with_cluster c w))
  | None => quiet (store_of w) (store_of (with_cluster c w)) \/ committed (store_of w) (store_of (with_cluster c w))
  end.
Proof.
  unfold Commit. destruct (t_txn t) as [kv|].
  - destruct (kv_Commit (w_cluster w) kv) as [c' [e'|]] eqn:E; intros [= <- <- <-].
    + eapply quiet_refused; [done|]. constructor.
    + right. exists (w_cluster w), (w_time w), kv. split; [constructor|done].
  - intros [= <- <- <-]. left. constructor.
Qed.

Lemma unbound_state t w : store_of (unbound t w) = store_of w.
Proof. done. Qed.

Definition attempt_outcome (s : Cluster * Z) (a : Attempt) : Prop :=
  match a with
  | Replied r t w' => quiet s (store_of w') \/ (t_Err t = None /\ committed s (store_of w'))
  | Failed e t w' => quiet s (store_of w')
  | AttemptPanicked | AttemptDiverged => True
  end.

Lemma Commit_Err c t c' t' e : Commit c t = (c', t', e) -> t_Err t' = t_Err t.
Proof.
  unfold Commit. destruct (t_txn t); [|by intros [= _ <- _]].
  by destruct (kv_Commit _ _) as [? [?|]]; intros [= _ <- _].
Qed.

Lemma SingleHandler_outcome f args t w : keeps f -> attempt_outcome (store_of w) (SingleHandler f args t w).
Proof.
  intros Hk. unfold SingleHandler. destruct (Begin (w_cluster (tick w)) t) as [t1 [e|]] eqn:Eb.
  { apply quiet_tick. constructor. }
  specialize (Hk args t1 (store_of (tick w))). destruct (f args t1 _) as [r t2 s2| |]; [|done..]. subst s2.
  destruct (t_Err t2) as [e|] eqn:Ee.
  { left. apply quiet_tick. constructor. }
  change (with_store (store_of (tick w)) (tick w)) with (tick w). set (w2 := tick (unbound t2 (tick w))).
  destruct (Commit (w_cluster w2) t2) as [[c t3] e] eqn:Ec.
  assert (quiet (store_of w) (store_of w2)) as Hq by (apply quiet_tick; apply quiet_tick; constructor).
  pose proof (Commit_state t2 w2 c t3 e Ec) as Hs. destruct e as [e|].
  - by eapply quiet_trans.
  - destruct Hs as [Hs|Hs]; [left; by eapply quiet_trans|right].
    split; [|by eapply quiet_committed]. change (t_Err (Rollback t3)) with (t_Err t3).
    by rewrite (Commit_Err _ _ _ _ _ Ec).
Qed.

Lemma single_loop_outcome n f args last t w : keeps f -> outcome (store_of w) (single_loop n f args last t w).
Proof.
  intros Hk. revert last t w. induction n as [|n IH]; intros last t w; [idle|].
  cbn [single_loop]. pose proof (SingleHandler_outcome f args t w Hk) as Ha.
  destruct (SingleHandler f args t w) as [r t1 w1|e t1 w1| |]; [| |done..].
  - assert (forall w2, store_of w2 = store_of w1 -> outcome (store_of w) (Done (t_Err t1) w2)) as Hd.
    { intros w2 E. unfold outcome. by rewrite E. }
    destruct r as [[| | | | | | | |]|]; apply Hd; done.
  - eapply outcome_quiet; [exact Ha|apply IH].
Qed.

Lemma exec_commit_outcome slots t w : outcome (store_of w) (exec_commit slots t w).
Proof.
  unfold exec_commit. destruct (if bool_decide _ then None else WaitAlive) as [e|].
  { idle. }
  destruct (Commit (w_cluster (tick w)) t) as [[c t'] e] eqn:Ec.
  pose proof (Commit_state t (tick w) c t' e Ec) as Hs.
  eapply outcome_quiet; [apply quiet_tick; constructor|].
  destruct e as [e|]; [destruct (t_Watch t'); left; exact Hs|].
  destruct (fill slots _); [|done]. destruct Hs as [Hs|Hs]; [by left|by right].
Qed.

(** A table all of whose handlers of [cs] keep to their transaction. *)
Definition kept (cs : list string) : Prop := forall comma h, comma ∈ cs -> TxnHandleTable comma = Some h -> keeps h.

Lemma exec_loop_keeps reqs acc t s : kept (comma_of <$> reqs) ->
  match exec_loop reqs acc t s with LoopDone _ _ s' => s' = s | LoopPanicked | LoopDiverged => True end.
Proof.
  revert acc t. induction reqs as [|cmd reqs IH]; intros acc t Hk; cbn [exec_loop]; [done|].
  assert (kept (comma_of <$> reqs)) as Hk' by (intros comma h Hin; apply Hk; by right).
  destruct (TxnHandleTable (comma_of cmd)) as [h|] eqn:Eh; [|done].
  specialize (Hk _ h ltac:(by left) Eh (drop 1 cmd) t s). destruct (h (drop 1 cmd) t s) as [r t1 s1| |]; [|done..]. subst s1.
  destruct (t_Err t1); [done|]. destruct (bool_decide _); [|by apply IH]. destruct r; [done|by apply IH].
Qed.

Lemma exec_outcome cmd w :
  kept (from_option (fun t => comma_of <$> t_PendingReq t) [] (getTransaction (w_conn w))) ->
  outcome (store_of w) (exec cmd w).
Proof.
  intros Hk. unfold exec. destruct (negb _); [idle|].
  destruct (getTransaction (w_conn w)) as [t|]; [|idle].
  destruct (negb (t_Multi t)); [idle|].
  destruct (t_PendingErr t); [idle|].
  eapply outcome_quiet; [apply quiet_tick; constructor|].
  assert (t_PendingReq (fst (if HasTransaction t then (t, None) else Begin (w_cluster (tick w)) t)) = t_PendingReq t) as Ep.
  { destruct (HasTransaction t); [done|]. unfold Begin. by destruct (cl_Begin _). }
  destruct (if HasTransaction t then (t, None) else _) as [t1 [e|]]; [idle|]. cbn [fst] in Ep.
  unfold exec_run. rewrite Ep. pose proof (exec_loop_keeps (t_PendingReq t) [] (set_Exec t1) (store_of (tick w)) Hk) as Hs.
  destruct (exec_loop _ _ _ _) as [[e|slots] t2 s2| |]; [subst s2; idle| |done..]. subst s2.
  change (with_store (store_of (tick w)) (tick w)) with (tick w).
  rewrite <- (unbound_state t2). apply exec_commit_outcome.
Qed.

Lemma watch_outcome cmd w : outcome (store_of w) (watch cmd w).
Proof.
  unfold watch. destruct (_ =? 0); [idle|].
  destruct (getOrCreateTransaction (w_conn w)) as [t b].
  destruct (t_Multi t); [idle|].
  eapply outcome_quiet; [apply quiet_tick; constructor|].
  destruct (if HasTransaction t then (t, None) else _) as [t1 [e|]]; [by destruct b; idle|].
  destruct (LockKeys _ t1) as [[e|] t2| |]; [by destruct b; idle| |done..].
  idle.
Qed.

(** C12. A command of a connection, whose handler (or, for EXEC, the handlers of the queued
    commands) keeps to its transaction, as all do but FLUSHALL, FLUSHDB and the scripts that
    call them: at most one transaction is committed, as its last access to the store, and
    only if no error is reported: when a single command, an EXEC or any other command fails,
    after however many attempts, the store is as the other clients and refused commits left
    it. *)
Theorem serve_commits_once cmd w e w' :
  (forall comma h, comma ∈ runs cmd w -> TxnHandleTable comma = Some h -> keeps h) ->
  serve cmd w = Done e w' ->
  quiet (store_of w) (store_of w') \/ (e = None /\ committed (store_of w) (store_of w')).
Proof.
  intros Hk E. change (outcome (store_of w) (Done e w')). rewrite <- E. clear E e w'. unfold runs in Hk.
  unfold serve, ConnHandleTable. destruct (bool_decide (_ = "watch"%string)); [apply watch_outcome|].
  destruct (bool_decide (_ = "multi"%string)).
  { unfold multi. destruct (negb _); [idle|].
    destruct (getOrCreateTransaction _) as [t b]. destruct (t_Multi t); [idle|].
    idle. }
  destruct (bool_decide (_ = "exec"%string)); [by apply exec_outcome|]. destruct (bool_decide _).
  { unfold discard. destruct (negb _); [idle|].
    destruct (getTransaction _) as [t|]; [|idle].
    destruct (negb _); [idle|idle]. }
  unfold TxnHandler, checkSingle. destruct (TxnHandleTable (comma_of cmd)) as [f|] eqn:Ef.
  - assert (keeps f) as Hf by (apply (Hk (comma_of cmd)); [by left|done]). destruct (getTransaction (w_conn w)) as [t|].
    + destruct (t_Multi t); [idle|].
      destruct (bool_decide _); [|by apply single_loop_outcome].
      change (store_of w) with (store_of (SetTransaction (Some (Reset (set_Watch false t))) w)).
      by apply single_loop_outcome.
    + by apply single_loop_outcome.
  - destruct (getTransaction (w_conn w)) as [t|]; [destruct (t_Multi t)|]; idle.
Qed.

(** ** MULTI ... EXEC *)

Definition known (cmd : list bytes) : bool := bool_decide (is_Some (TxnHandleTable (comma_of cmd))).

(** A connection sends commands one after the other, the last of them [x]. *)
Fixpoint serve_then (cmds : list (list bytes)) (x : list bytes) (w : World) : Step :=
  match cmds with
  | [] => serve x w
  | cmd :: cmds => match serve cmd w with Done _ w => serve_then cmds x w | s => s end
  end.

(** A transaction [t0] in which MULTI has queued [reqs]. *)
Definition queueing (t0 : Txn) (reqs : list (list bytes)) (err : bool) : Txn :=
  let t := set_Multi reqs t0 in if err then set_PendingErr t else t.

(** The replies while the commands are queued. *)
Definition queue_reply (cmd : list bytes) : wire :=
  if known cmd then WAny Queued else WError (conn_error_text (UnknownCommandError (comma_of cmd))).

Definition queue_replies (cs : list (list bytes)) (w : World) : World :=
  foldl (fun w c => write (queue_reply c) w) w cs.

(** A transaction that sees the connection of [w] and is not in MULTI yet. *)
Record startable (w : World) (t0 : Txn) : Prop := {
  fr_bound : bound (w_conn w) t0 = t0;
  fr_Pending : t_PendingErr t0 = false
}.

Lemma startable_write x w t0 : startable w t0 -> startable (write x w) t0.
Proof. intros [Hb Hp]. by split. Qed.

Lemma getTransaction_queueing w t0 reqs err :
  startable w t0 -> getTransaction (w_conn (SetTransaction (Some (queueing t0 reqs err)) w)) = Some (queueing t0 reqs err).
Proof. intros [<- _]. by destruct err. Qed.

Lemma queueing_fields w t0 reqs err : startable w t0 ->
  t_Multi (queueing t0 reqs err) = true /\ t_PendingReq (queueing t0 reqs err) = reqs /\
  t_PendingErr (queueing t0 reqs err) = err /\ HasTransaction (queueing t0 reqs err) = HasTransaction t0.
Proof. intros [_ Hp]. destruct err; repeat split. by cbn. Qed.

Lemma serve_queue cmd w t0 reqs err :
  startable w t0 -> ConnHandleTable (comma_of cmd) = None ->
  exists e, serve cmd (SetTransaction (Some (queueing t0 reqs err)) w) =
    Done e (SetTransaction (Some (if known cmd then queueing t0 (reqs ++ [cmd]) err else queueing t0 reqs true))
              (write (queue_reply cmd) w)).
Proof.
  intros Hf Hc. destruct (queueing_fields w t0 reqs err Hf) as (Em&Er&_&_).
  unfold serve. rewrite Hc. unfold TxnHandler, queue_reply, known, checkSingle.
  rewrite getTransaction_queueing, Em by done. destruct (TxnHandleTable (comma_of cmd)) as [f|].
  - rewrite bool_decide_eq_true_2 by done. eexists. unfold push_req. rewrite Er. by destruct err.
  - rewrite bool_decide_eq_false_2 by (by intros [? ?]). eexists. by destruct err.
Qed.

(** *** What EXEC does *)

(** The queued commands run one after the other, each on the transaction and the store
    that the one before it left; the first that fails, panics or does not end is the last. *)
Inductive executed :=
  | Ran (slots : list slot) (t : Txn) (s : Store)
  | Stopped (e : error) (t : Txn) (s : Store)
  | Crashed
  | Endless.

(** What is kept of a response: PUBLISH gives its message. *)
Inductive kept_as (comma : string) : resp -> slot -> Prop :=
  | kept_reply r : comma <> "publish"%string -> kept_as comma r (inl r)
  | kept_message m : comma = "publish"%string -> kept_as comma (Message m) (inr m).

Definition prepend (sl : slot) (out : executed) : executed :=
  match out with Ran slots t s => Ran (sl :: slots) t s | out => out end.

Inductive executes : list (list bytes) -> Txn -> Store -> executed -> Prop :=
  | exec_end t s : executes [] t s (Ran [] t s)
  | exec_next cmd cs h t s r t1 s1 sl out :
      TxnHandleTable (comma_of cmd) = Some h -> h (drop 1 cmd) t s = HandlerDone r t1 s1 -> t_Err t1 = None ->
      kept_as (comma_of cmd) r sl -> executes cs t1 s1 out ->
      executes (cmd :: cs) t s (prepend sl out)
  | exec_fails cmd cs h t s r t1 s1 e :
      TxnHandleTable (comma_of cmd) = Some h -> h (drop 1 cmd) t s = HandlerDone r t1 s1 -> t_Err t1 = Some e ->
      executes (cmd :: cs) t s (Stopped e t1 s1)
  | exec_panics cmd cs h t s :
      TxnHandleTable (comma_of cmd) = Some h -> h (drop 1 cmd) t s = HandlerPanicked ->
      executes (cmd :: cs) t s Crashed
  | exec_no_message cmd cs h t s r t1 s1 :
      TxnHandleTable (comma_of cmd) = Some h -> h (drop 1 cmd) t s = HandlerDone (Reply r) t1 s1 -> t_Err t1 = None ->
      comma_of cmd = "publish"%string -> executes (cmd :: cs) t s Crashed
  | exec_endless cmd cs h t s :
      TxnHandleTable (comma_of cmd) = Some h -> h (drop 1 cmd) t s = HandlerDiverged ->
      executes (cmd :: cs) t s Endless.

Definition loop_of (acc : list slot) (out : executed) : ExecLoop :=
  match out with
  | Ran slots t s => LoopDone (inr (acc ++ slots)) t s
  | Stopped e t s => LoopDone (inl e) t s
  | Crashed => LoopPanicked
  | Endless => LoopDiverged
  end.

Lemma loop_of_prepend acc sl out : loop_of acc (prepend sl out) = loop_of (acc ++ [sl]) out.
Proof. destruct out; [|done..]. cbn [prepend loop_of]. by rewrite <- app_assoc. Qed.

(** The loop of EXEC follows the relation. *)
Lemma exec_loop_executes cs t s : forallb known cs = true ->
  exists out, executes cs t s out /\ forall acc, exec_loop cs acc t s = loop_of acc out.
Proof.
  revert t s. induction cs as [|cmd cs IH]; intros t s Hk.
  { exists (Ran [] t s). split; [constructor|]. intros acc. cbn [exec_loop loop_of]. by rewrite app_nil_r. }
  cbn [forallb] in Hk. apply andb_true_iff in Hk as [Hc Hk]. unfold known in Hc.
  apply bool_decide_eq_true in Hc as [h Eh]. cbn [exec_loop]. rewrite Eh.
  destruct (h (drop 1 cmd) t s) as [r t1 s1| |] eqn:Er.
  - destruct (t_Err t1) as [e|] eqn:Ee; [exists (Stopped e t1 s1); split; [by eapply exec_fails|done]|].
    destruct (IH t1 s1 Hk) as (out&Ho&El).
    destruct (bool_decide_reflect (comma_of cmd = "publish"%string)) as [Ep|Ep].
    + destruct r as [r|m]; [exists Crashed; split; [by eapply exec_no_message|done]|].
      exists (prepend (inr m) out). split; [eapply exec_next; [done..| |done]; by constructor|].
      intros acc. by rewrite El, loop_of_prepend.
    + exists (prepend (inl r) out). split; [eapply exec_next; [done..| |done]; by constructor|].
      intros acc. by rewrite El, loop_of_prepend.
  - exists Crashed. split; [by eapply exec_panics|done].
  - exists Endless. split; [by eapply exec_endless|done].
Qed.

(** The replies, with the n-th count in the place of the n-th message. *)
Inductive answered : list slot -> list Z -> list reply -> Prop :=
  | answered_nil counts : answered [] counts []
  | answered_reply r slots counts rs : answered slots counts rs -> answered (inl r :: slots) counts (as_reply r :: rs)
  | answered_count m slots n counts rs :
      answered slots counts rs -> answered (inr m :: slots) (n :: counts) (RInt n :: rs).

Lemma fill_answered slots counts :
  match fill slots counts with
  | Some rs => answered slots counts (as_reply <$> rs)
  | None => forall rs, ~ answered slots counts rs
  end.
Proof.
  revert counts. induction slots as [|[r|m] slots IH]; intros counts; cbn [fill]; [constructor| |].
  - specialize (IH counts). destruct (fill slots counts) as [rs|]; cbn.
    + by constructor.
    + intros rs Ha. inversion Ha; subst. by eapply IH.
  - destruct counts as [|n counts]; [intros rs Ha; inversion Ha|]. specialize (IH counts).
    destruct (fill slots counts) as [rs|]; cbn.
    + by constructor.
    + intros rs Ha. inversion Ha; subst. by eapply IH.
Qed.

(** The commands have run: without a member to publish to, or when the commit is refused,
    there is an error (or nil, if keys were watched); otherwise the replies in order. *)
Definition commit_ends (slots : list slot) (t : Txn) (w : World) (r : Step) : Prop :=
  match (if bool_decide (messages slots = []) then None else WaitAlive) with
  | Some e => r = refuse e w
  | None =>
      let w := tick w in
      match Commit (w_cluster w) t with
      | (c, t', Some e) =>
          r = if t_Watch t' then Done (Some e) (write WNull (with_cluster c w)) else refuse e (with_cluster c w)
      | (c, _, None) =>
          let counts := if bool_decide (messages slots = []) then [] else PublishMessages (messages slots) in
          (exists rs, answered slots counts rs /\ r = Done None (write (WAny (RArr rs)) (with_cluster c w))) \/
          ((forall rs, ~ answered slots counts rs) /\ r = Panicked)
      end
  end.

Definition exec_ends (out : executed) (w : World) (r : Step) : Prop :=
  match out with
  | Ran slots t s => commit_ends slots t (unbound t (with_store s w)) r
  | Stopped e t s => r = refuse e (unbound t (with_store s w))
  | Crashed => r = Panicked
  | Endless => r = Diverged
  end.

Lemma exec_commit_ends slots t w : commit_ends slots t (clearTransaction w) (exec_commit slots t w).
Proof.
  unfold commit_ends, exec_commit. destruct (if bool_decide _ then None else WaitAlive) as [e|]; [done|].
  change (w_cluster (tick (clearTransaction w))) with (w_cluster (tick w)).
  destruct (Commit (w_cluster (tick w)) t) as [[c t'] [e|]]; [done|].
  set (counts := if bool_decide _ then [] else _). pose proof (fill_answered slots counts) as Hf.
  destruct (fill slots counts) as [rs|]; [left; by exists (as_reply <$> rs)|by right].
Qed.

Lemma exec_run_ends t w : forallb known (t_PendingReq t) = true ->
  exists out, executes (t_PendingReq t) (set_Exec t) (store_of w) out /\
    exec_ends out (clearTransaction w) (exec_run t w).
Proof.
  intros Hk. destruct (exec_loop_executes _ (set_Exec t) (store_of w) Hk) as (out&Ho&El).
  exists out. split; [done|]. unfold exec_run. rewrite El.
  destruct out as [slots t1 s1|e t1 s1| |]; [|done..]. cbn [loop_of exec_ends app].
  apply (exec_commit_ends slots t1 (unbound t1 (with_store s1 w))).
Qed.

(** The end of MULTI ... EXEC on a connection whose transaction was [t0]. *)
Definition exec_spec (t0 : Txn) (reqs : list (list bytes)) (err : bool) (w : World) (r : Step) : Prop :=
  if err then r = refuse ErrTransactionDiscarded w
  else
    let w := tick w in
    match (if HasTransaction t0 then (set_Multi reqs t0, None) else Begin (w_cluster w) (set_Multi reqs t0)) with
    | (_, Some e) => r = refuse e w
    | (t, None) => exists out, executes reqs (set_Exec t) (store_of w) out /\ exec_ends out w r
    end.

Lemma serve_exec x w t0 reqs err :
  comma_of x = "exec" -> len x = 1 -> startable w t0 -> forallb known reqs = true ->
  exec_spec t0 reqs err (clearTransaction w) (serve x (SetTransaction (Some (queueing t0 reqs err)) w)).
Proof.
  intros Ex Hx Hf Hk. destruct (queueing_fields w t0 reqs err Hf) as (Em&Er&Ee&Eh).
  unfold serve. rewrite Ex. change (ConnHandleTable "exec") with (Some exec). cbv iota.
  unfold exec. assert (len (drop 1 x) = 0) as -> by (unfold len in *; rewrite length_drop; lia).
  cbn [Z.eqb negb]. rewrite getTransaction_queueing, Em, Ee by done. cbn [negb]. unfold exec_spec.
  destruct err; [done|]. rewrite Eh.
  change (w_cluster (tick (SetTransaction ?x w))) with (w_cluster (tick (clearTransaction w))).
  change (queueing t0 reqs false) with (set_Multi reqs t0). set (w1 := tick (clearTransaction w)).
  set (b := if HasTransaction t0 then _ else _).
  assert (t_PendingReq (fst b) = reqs) as Eb.
  { unfold b. destruct (HasTransaction t0); [done|]. unfold Begin. by destruct (cl_Begin _). }
  destruct b as [t [e|]]; [done|]. cbn [fst] in Eb.
  destruct (exec_run_ends t (tick (SetTransaction (Some (set_Multi reqs t0)) w))) as (out&Ho&Hend); [by rewrite Eb|].
  rewrite Eb in Ho. by exists out.
Qed.

Lemma serve_queue_all cs x w t0 reqs err :
  comma_of x = "exec" -> len x = 1 -> startable w t0 -> forallb known reqs = true ->
  Forall (fun c => ConnHandleTable (comma_of c) = None) cs ->
  exec_spec t0 (reqs ++ filter (fun c => known c = true) cs) (err || negb (forallb known cs))
    (clearTransaction (queue_replies cs w))
    (serve_then cs x (SetTransaction (Some (queueing t0 reqs err)) w)).
Proof.
  intros Ex Hx. revert w reqs err. induction cs as [|c cs IH]; intros w reqs err Hf Hk Hcs.
  - cbn [serve_then forallb negb]. rewrite orb_false_r, app_nil_r. by apply serve_exec.
  - apply Forall_cons in Hcs as [Hc Hcs]. cbn [serve_then].
    destruct (serve_queue c w t0 reqs err Hf Hc) as [e ->].
    rewrite filter_cons. cbn [forallb]. destruct (known c) eqn:Ek.
    + rewrite decide_True by done. pose proof (IH (write (queue_reply c) w) (reqs ++ [c]) err) as IH'.
      rewrite <- app_assoc in IH'. apply IH'; [by apply startable_write| |done].
      rewrite forallb_app, Hk. cbn [forallb]. by rewrite Ek.
    + rewrite decide_False by congruence. pose proof (IH (write (queue_reply c) w) reqs true) as IH'.
      cbn [orb andb negb] in IH' |- *. rewrite orb_true_r. apply IH'; [by apply startable_write|done|done].
Qed.

Lemma filter_passes {A} (f : A -> bool) l : forallb f l = true -> filter (fun x => f x = true) l = l.
Proof.
  induction l as [|x l IH]; [done|]. cbn [forallb]. intros [Ex El]%andb_true_iff.
  rewrite filter_cons, decide_True by done. by rewrite IH.
Qed.

Lemma multi_queues m cs x w :
  comma_of m = "multi" -> len m = 1 -> comma_of x = "exec" -> len x = 1 ->
  let t0 := fst (getOrCreateTransaction (w_conn w)) in
  t_Multi t0 = false -> t_PendingErr t0 = false ->
  Forall (fun c => ConnHandleTable (comma_of c) = None) cs ->
  exec_spec t0 (filter (fun c => known c = true) cs) (negb (forallb known cs))
    (clearTransaction (queue_replies cs (write (WAny OK) w))) (serve_then (m :: cs) x w).
Proof.
  intros Em Hm Ex Hx t0 Ht Hp Hcs. cbn [serve_then]. unfold serve at 1. rewrite Em.
  change (ConnHandleTable "multi") with (Some multi). cbv iota. unfold multi.
  assert (len (drop 1 m) = 0) as -> by (unfold len in *; rewrite length_drop; lia).
  cbn [Z.eqb negb]. assert (startable (write (WAny OK) w) t0) as Hf.
  { split; [|done]. unfold t0, getOrCreateTransaction, getTransaction. by destruct (cn_txn (w_conn w)). }
  destruct (getOrCreateTransaction (w_conn w)) as [t b] eqn:E. cbn [fst] in t0. subst t0. rewrite Ht.
  apply (serve_queue_all cs x (write (WAny OK) w) t [] false); done.
Qed.

(** C1. MULTI, commands, EXEC on a connection that is not in MULTI yet, whether it watches
    keys or not. Every known command is answered QUEUED and every unknown one with an
    error. If one was unknown, EXEC refuses. Otherwise it begins a transaction, or takes
    the one that watches, and runs exactly the queued commands in their order on it, each
    on what the one before it left: the first that fails is the last, its error is the
    answer and nothing is committed; when all have run the transaction is committed once,
    and the answer is the array of their replies in their order, with the numbers of
    receivers in the places of the messages to publish. *)
Theorem multi_exec m cs x w :
  comma_of m = "multi" -> len m = 1 -> comma_of x = "exec" -> len x = 1 ->
  let t0 := fst (getOrCreateTransaction (w_conn w)) in
  t_Multi t0 = false -> t_PendingErr t0 = false ->
  Forall (fun c => ConnHandleTable (comma_of c) = None) cs ->
  let r := serve_then (m :: cs) x w in
  let w := clearTransaction (queue_replies cs (write (WAny OK) w)) in
  if forallb known cs then
    let w := tick w in
    match (if HasTransaction t0 then (set_Multi cs t0, None) else Begin (w_cluster w) (set_Multi cs t0)) with
    | (_, Some e) => r = refuse e w
    | (t, None) => exists out, executes cs (set_Exec t) (store_of w) out /\ exec_ends out w r
    end
  else r = refuse ErrTransactionDiscarded w.
Proof.
  intros Em Hm Ex Hx t0 Ht Hp Hcs r w1.
  pose proof (multi_queues m cs x w Em Hm Ex Hx Ht Hp Hcs) as Hq. unfold exec_spec in Hq.
  destruct (forallb known cs) eqn:Ek; [|exact Hq]. rewrite (filter_passes known cs Ek) in Hq. exact Hq.
Qed.

(** ** The transaction of a connection *)

(** The worlds a new connection can reach. *)
Inductive reachable : World -> Prop :=
  | reach_new w : cn_txn (w_conn w) = None -> reachable w
  | reach_serve w cmd e w' : reachable w -> serve cmd w = Done e w' -> reachable w'.

Record txn_ok (t : Txn) : Prop := {
  ok_Exec : t_Exec t = false;
  ok_Err : t_Err t = None;
  ok_idle : t_Multi t = false -> t_PendingReq t = [] /\ t_PendingErr t = false;
  ok_known : Forall (fun c => known c = true /\ ConnHandleTable (comma_of c) = None) (t_PendingReq t)
}.

Definition conn_ok (w : World) : Prop := forall t, cn_txn (w_conn w) = Some t -> txn_ok t.

Lemma bound_ok cn t : txn_ok t -> txn_ok (bound cn t).
Proof. intros []. by split. Qed.
Lemma createTransaction_ok cn : txn_ok (createTransaction cn).
Proof. by split. Qed.
Lemma getTransaction_ok w t : conn_ok w -> getTransaction (w_conn w) = Some t -> txn_ok t.
Proof.
  intros Hw. unfold getTransaction. destruct (cn_txn (w_conn w)) as [t0|] eqn:E; [|done].
  intros [= <-]. by apply bound_ok, Hw.
Qed.
Lemma getOrCreateTransaction_ok w : conn_ok w -> txn_ok (fst (getOrCreateTransaction (w_conn w))).
Proof.
  intros Hw. unfold getOrCreateTransaction. destruct (getTransaction (w_conn w)) as [t|] eqn:E.
  - by apply (getTransaction_ok w).
  - apply createTransaction_ok.
Qed.
Lemma with_txn_ok kv t : txn_ok t -> txn_ok (with_txn kv t).
Proof. intros []. by split. Qed.
Lemma set_Watch_ok b t : txn_ok t -> txn_ok (set_Watch b t).
Proof. intros []. by split. Qed.
Lemma Begin_ok c t : txn_ok t -> txn_ok (fst (Begin c t)).
Proof. intros Ht. unfold Begin. destruct (cl_Begin c); [done|]. destruct Ht. by split. Qed.
Lemma Reset_ok t : txn_ok t -> txn_ok (Reset t).
Proof. intros. unfold Reset. destruct (t_txn t); [by apply with_txn_ok|done]. Qed.
Lemma LockKeys_txn ks t r t' : LockKeys ks t = Ret r t' -> exists kv, t' = with_txn kv t.
Proof.
  unfold LockKeys. destruct (existsb _ ks).
  - intros [= _ <-]. exists (t_txn t). by destruct t.
  - unfold bind, on_kv. destruct (t_txn t) as [kv|]; [|done].
    destruct (kv_LockKeys kv ks) as [e kv']. intros [= _ <-]. by eexists.
Qed.

(** What a command leaves of the connection's transaction. *)
Definition leaves_ok (r : Step) : Prop :=
  match r with Done _ w' => conn_ok w' | Panicked | Diverged => True end.

Lemma conn_ok_same e w w' : conn_ok w -> cn_txn (w_conn w') = cn_txn (w_conn w) -> leaves_ok (Done e w').
Proof. intros Hw E t. rewrite E. apply Hw. Qed.
Lemma conn_ok_set e w t : txn_ok t -> cn_txn (w_conn w) = Some t -> leaves_ok (Done e w).
Proof. intros Ht E t'. rewrite E. by intros [= <-]. Qed.
Lemma conn_ok_none e w : cn_txn (w_conn w) = None -> leaves_ok (Done e w).
Proof. intros E t. by rewrite E. Qed.

Lemma SingleHandler_txn f args t w :
  match SingleHandler f args t w with
  | Replied _ _ w' | Failed _ _ w' => cn_txn (w_conn w') = cn_txn (w_conn w)
  | _ => True
  end.
Proof.
  unfold SingleHandler. destruct (Begin _ t) as [t1 [e|]]; [done|].
  destruct (f args t1) as [r t2| |]; [|done..]. destruct (t_Err t2); [done|].
  by destruct (Commit _ t2) as [[c t3] [e|]].
Qed.

Lemma single_loop_ok n f args last t w : conn_ok w -> leaves_ok (single_loop n f args last t w).
Proof.
  revert last t w. induction n as [|n IH]; intros last t w Hw; [by apply (conn_ok_same _ w)|].
  cbn [single_loop]. pose proof (SingleHandler_txn f args t w) as Ha.
  destruct (SingleHandler f args t w) as [r t1 w1|e t1 w1| |]; [| |done..].
  - destruct r as [[| | | | | | | |]|]; by apply (conn_ok_same _ w).
  - apply IH. intros t'. rewrite Ha. apply Hw.
Qed.

Lemma exec_ok cmd w : conn_ok w -> leaves_ok (exec cmd w).
Proof.
  intros Hw. unfold exec. destruct (negb _); [by apply (conn_ok_same _ w)|].
  destruct (getTransaction (w_conn w)) as [t|]; [|by apply (conn_ok_same _ w)].
  destruct (negb (t_Multi t)); [by apply conn_ok_none|].
  destruct (t_PendingErr t); [by apply conn_ok_none|].
  destruct (if HasTransaction t then (t, None) else _) as [t1 [e|]]; [by apply conn_ok_none|].
  unfold exec_run. destruct (exec_loop _ _ _) as [[e|slots] t2| |]; [by apply conn_ok_none| |done..].
  unfold exec_commit. destruct (if bool_decide _ then None else WaitAlive); [by apply conn_ok_none|].
  destruct (Commit _ t2) as [[c t3] [e|]]; [destruct (t_Watch t3); by apply conn_ok_none|].
  destruct (fill slots _); [by apply conn_ok_none|done].
Qed.

Lemma watch_ok cmd w : conn_ok w -> leaves_ok (watch cmd w).
Proof.
  intros Hw. unfold watch. destruct (_ =? 0); [by apply (conn_ok_same _ w)|].
  pose proof (getOrCreateTransaction_ok w Hw) as Ht.
  destruct (getOrCreateTransaction (w_conn w)) as [t b]. cbn [fst] in Ht.
  destruct (t_Multi t); [by apply (conn_ok_same _ w)|].
  pose proof (Begin_ok (w_cluster (tick w)) t Ht) as Hb.
  assert (txn_ok (fst (if HasTransaction t then (t, None : option error) else Begin (w_cluster (tick w)) t))) as Ht1
    by by destruct (HasTransaction t).
  destruct (if HasTransaction t then (t, None) else _) as [t1 [e|]]; cbn [fst] in Ht1.
  { destruct b; [by apply (conn_ok_set _ _ t1)|by apply (conn_ok_same _ w)]. }
  destruct (LockKeys _ t1) as [r t2| |] eqn:El; [|done..].
  apply LockKeys_txn in El as [kv ->].
  destruct r as [e|]; [destruct b|].
  - eapply conn_ok_set; [|done]. by apply with_txn_ok, with_txn_ok.
  - by apply (conn_ok_same _ w).
  - eapply conn_ok_set; [|done]. by apply set_Watch_ok, with_txn_ok.
Qed.

Lemma multi_ok cmd w : conn_ok w -> leaves_ok (multi cmd w).
Proof.
  intros Hw. unfold multi. destruct (negb _); [by apply (conn_ok_same _ w)|].
  pose proof (getOrCreateTransaction_ok w Hw) as Ht.
  destruct (getOrCreateTransaction (w_conn w)) as [t b]. cbn [fst] in Ht.
  destruct (t_Multi t); [by apply (conn_ok_same _ w)|].
  eapply conn_ok_set; [|done]. destruct Ht. by split.
Qed.

Lemma TxnHandler_ok cmd w :
  conn_ok w -> ConnHandleTable (comma_of cmd) = None -> leaves_ok (TxnHandler (comma_of cmd) cmd w).
Proof.
  intros Hw Hc. unfold TxnHandler, checkSingle.
  assert (forall t, getTransaction (w_conn w) = Some t -> txn_ok t) as Ht by (intros t; by apply getTransaction_ok).
  destruct (TxnHandleTable (comma_of cmd)) as [f|] eqn:Ef;
    destruct (getTransaction (w_conn w)) as [t|] eqn:Eg; try (pose proof (Ht t eq_refl) as Ht1; clear Ht).
  - destruct (t_Multi t) eqn:Em.
    + eapply conn_ok_set; [|done]. destruct Ht1 as [Hx1 Hx2 Hx3 Hx4]. split; [done|done|done|].
      apply Forall_app. split; [done|]. apply Forall_singleton. split; [|done].
      unfold known. rewrite Ef. by apply bool_decide_eq_true.
    + apply single_loop_ok. destruct (bool_decide _); [|done].
      intros t'. cbn. intros [= <-]. by apply Reset_ok, set_Watch_ok.
  - by apply single_loop_ok.
  - destruct (t_Multi t) eqn:Em; [|by apply (conn_ok_same _ w)].
    eapply conn_ok_set; [|done]. destruct Ht1 as [Hx1 Hx2 Hx3 Hx4]. split; [done|done| |done].
    cbn. by rewrite Em.
  - by apply (conn_ok_same _ w).
Qed.

(** C14. On every connection, after any commands: the transaction it keeps has no
    error and is not being executed, it has nothing queued and no pending error unless
    it is in MULTI, and every queued command is in the command table and is not one of
    those the connection handles itself. So EXEC never meets an unknown command. *)
Theorem connection_invariant w t : reachable w -> cn_txn (w_conn w) = Some t -> txn_ok t.
Proof.
  intros Hr. revert t. change (conn_ok w). induction Hr as [w Hn|w cmd e w' Hr IH Hs].
  { intros t. by rewrite Hn. }
  change (leaves_ok (Done e w')). rewrite <- Hs. clear Hs. unfold serve.
  destruct (ConnHandleTable (comma_of cmd)) as [f|] eqn:Ec; [|by apply TxnHandler_ok].
  unfold ConnHandleTable in Ec. destruct (bool_decide _); [injection Ec as <-; by apply watch_ok|].
  destruct (bool_decide _); [injection Ec as <-; by apply multi_ok|].
  destruct (bool_decide _); [injection Ec as <-; by apply exec_ok|].
  destruct (bool_decide _); [|done]. injection Ec as <-. unfold discard.
  destruct (negb _); [by apply (conn_ok_same _ w)|].
  destruct (getTransaction _) as [t|]; [|by apply (conn_ok_same _ w)].
  destruct (negb _); by apply conn_ok_none.
Qed.

(** C40. A WATCH that fails on a connection that already watches keys (a key that is
    too long is enough) gives up the transaction that guards them, but the connection
    still counts as watching. Whatever store [c] the other clients then make of it, the next
    MULTI and EXEC begin a new transaction on that store and run the queued commands on it,
    so that changes of the keys that were watched first go unnoticed. *)
Theorem failed_watch_forgets cmd w e w' t m cs x c :
  watch cmd w = Done (Some e) w' -> drop 1 cmd <> [] ->
  cn_txn (w_conn w) = Some t -> t_Multi t = false -> t_Watch t = true -> HasTransaction t = true ->
  t_PendingErr t = false ->
  comma_of m = "multi" -> len m = 1 -> comma_of x = "exec" -> len x = 1 ->
  Forall (fun c => ConnHandleTable (comma_of c) = None) cs -> forallb known cs = true ->
  exists t0, cn_txn (w_conn w') = Some t0 /\ t_Watch t0 = true /\ HasTransaction t0 = false /\
    let w1 := tick (clearTransaction (queue_replies cs (write (WAny OK) (with_cluster c w')))) in
    let r := serve_then (m :: cs) x (with_cluster c w') in
    match Begin (w_cluster w1) (set_Multi cs t0) with
    | (_, Some e) => r = refuse e w1
    | (t, None) => exists out, executes cs (set_Exec t) (store_of w1) out /\ exec_ends out w1 r
    end.
Proof.
  intros E Hargs Et Hm Hw Hh Hp Em Hlm Ex Hlx Hcs Hk. revert E. unfold watch.
  destruct (Z.eqb_spec (len (drop 1 cmd)) 0) as [Hl|_]; [by apply len_nil_iff in Hl|].
  unfold getOrCreateTransaction, getTransaction. rewrite Et. cbn [fmap option_fmap option_map].
  change (t_Multi (bound (w_conn w) t)) with (t_Multi t). rewrite Hm.
  change (HasTransaction (bound (w_conn w) t)) with (HasTransaction t). rewrite Hh.
  destruct (LockKeys _ _) as [[e'|] t2| |] eqn:El; try done.
  apply LockKeys_txn in El as [kv ->]. intros [= _ <-].
  set (t0 := Rollback (with_txn kv (bound (w_conn w) t))). exists t0. split; [done|]. split; [done|]. split; [done|].
  set (w2 := with_cluster c (WriteConnError e' (SetTransaction (Some t0) (tick w)))).
  pose proof (multi_queues m cs x w2 Em Hlm Ex Hlx) as Hq.
  change (fst (getOrCreateTransaction _)) with t0 in Hq. specialize (Hq Hm Hp Hcs).
  rewrite Hk, (filter_passes known cs Hk) in Hq. exact Hq.
Qed.

End spec.
