(* ===== verification/Pubsub.v ===== *)
(** Publish and subscribe (command/pubsub.go, the calls of it in command/rpc.go): the
    hubs of channels and patterns, the connections that left the server's loop to listen
    to them with their two goroutines, and PUBLISH and PUBSUB over several nodes. *)

From stdpp Require Import gmap sets fin_sets.
From S2P Require Import Prelude Xerror GoStd Utils Store Object Reply Glob.
From S2P Require Import Transaction.
From Stdlib Require Import Init.Byte.

#[local] Open Scope Z_scope.

(** ** State *)

(** The index into [channels] and [hubs]: [NormalChannel] and [PatternChannel]. *)
Inductive channelType := NormalChannel | PatternChannel.
#[export] Instance channelType_eq_dec : EqDecision channelType.
Proof. solve_decision. Defined.

(** [PsConn]: what waits in its two channels, whether it has been closed, its
    subscriptions; [pc_wire] is what its goroutine [sendMessage] has written, and
    [pc_sending] whether that goroutine still runs. [pc_cap] is the capacity of
    [messages]. *)
Record PsConn := mkConn {
  pc_messages : list reply;
  pc_others : list reply;
  pc_closed : bool;
  pc_normal : gset bytes;
  pc_pattern : gset bytes;
  pc_cap : Z;
  pc_wire : list reply;
  pc_sending : bool
}.

(** [PsManager]. Hubs are shared by pointer: a goroutine that looked one up keeps it when
    the map no longer has it. [pm_hubs] are the hubs by their address, as sets of
    connections, and [pm_conns] the connections by theirs. *)
Record PsManager := mkManager {
  pm_normal : gmap bytes nat;
  pm_pattern : gmap bytes nat;
  pm_hubs : gmap nat (gset nat);
  pm_next : nat;
  pm_conns : gmap nat PsConn
}.
Definition NewPsManager : PsManager := mkManager ∅ ∅ ∅ 0 ∅.

Definition channels (ct : channelType) (c : PsConn) : gset bytes :=
  match ct with NormalChannel => pc_normal c | PatternChannel => pc_pattern c end.
Definition hubs (ct : channelType) (s : PsManager) : gmap bytes nat :=
  match ct with NormalChannel => pm_normal s | PatternChannel => pm_pattern s end.

Definition set_messages (q : list reply) (c : PsConn) : PsConn :=
  mkConn q (pc_others c) (pc_closed c) (pc_normal c) (pc_pattern c) (pc_cap c) (pc_wire c) (pc_sending c).
Definition set_others (q : list reply) (c : PsConn) : PsConn :=
  mkConn (pc_messages c) q (pc_closed c) (pc_normal c) (pc_pattern c) (pc_cap c) (pc_wire c) (pc_sending c).
Definition set_closed (c : PsConn) : PsConn :=
  mkConn (pc_messages c) (pc_others c) true (pc_normal c) (pc_pattern c) (pc_cap c) (pc_wire c) (pc_sending c).
Definition set_channels (ct : channelType) (f : gset bytes -> gset bytes) (c : PsConn) : PsConn :=
  match ct with
  | NormalChannel =>
      mkConn (pc_messages c) (pc_others c) (pc_closed c) (f (pc_normal c)) (pc_pattern c) (pc_cap c) (pc_wire c)
        (pc_sending c)
  | PatternChannel =>
      mkConn (pc_messages c) (pc_others c) (pc_closed c) (pc_normal c) (f (pc_pattern c)) (pc_cap c) (pc_wire c)
        (pc_sending c)
  end.
Definition write_wire (l : list reply) (c : PsConn) : PsConn :=
  mkConn (pc_messages c) (pc_others c) (pc_closed c) (pc_normal c) (pc_pattern c) (pc_cap c) (pc_wire c ++ l)
    (pc_sending c).
Definition stop_sending (c : PsConn) : PsConn :=
  mkConn (pc_messages c) (pc_others c) (pc_closed c) (pc_normal c) (pc_pattern c) (pc_cap c) (pc_wire c) false.

Definition set_hubs (ct : channelType) (f : gmap bytes nat -> gmap bytes nat) (s : PsManager) : PsManager :=
  match ct with
  | NormalChannel => mkManager (f (pm_normal s)) (pm_pattern s) (pm_hubs s) (pm_next s) (pm_conns s)
  | PatternChannel => mkManager (pm_normal s) (f (pm_pattern s)) (pm_hubs s) (pm_next s) (pm_conns s)
  end.
Definition set_hub (h : nat) (subs : gset nat) (s : PsManager) : PsManager :=
  mkManager (pm_normal s) (pm_pattern s) (<[h := subs]> (pm_hubs s)) (pm_next s) (pm_conns s).
Definition new_hub (subs : gset nat) (s : PsManager) : nat * PsManager :=
  (pm_next s, mkManager (pm_normal s) (pm_pattern s) (<[pm_next s := subs]> (pm_hubs s)) (S (pm_next s)) (pm_conns s)).
Definition set_conn (p : nat) (c : PsConn) (s : PsManager) : PsManager :=
  mkManager (pm_normal s) (pm_pattern s) (pm_hubs s) (pm_next s) (<[p := c]> (pm_conns s)).
Definition upd_conn (p : nat) (f : PsConn -> PsConn) (s : PsManager) : PsManager :=
  match pm_conns s !! p with Some c => set_conn p (f c) s | None => s end.

(** The subscribers of a hub. *)
Definition subscribes (h : nat) (s : PsManager) : gset nat := default ∅ (pm_hubs s !! h).

(** The order in which Go visits a map. *)
Class MapRange := {
  map_range {A} : list A -> list A;
  map_range_perm {A} (l : list A) : map_range l ≡ₚ l
}.

Section pubsub.
Context `{MapRange}.

(** Operations that change the state; [None] is a panic. *)
Definition R (A : Type) : Type := PsManager -> option (A * PsManager).

Fixpoint iter_on {A} (f : A -> R unit) (l : list A) : R unit := fun s =>
  match l with
  | [] => Some (tt, s)
  | x :: l => '(_, s) ← f x s; iter_on f l s
  end.

(** ** Channels of a connection *)

(** What a queue of capacity [cap] keeps after a send that may have to wait, and what its
    reader takes out of it meanwhile. *)
Definition enqueue (cap : Z) (q : list reply) (x : reply) : list reply * list reply :=
  let q := q ++ [x] in
  let n := Z.to_nat (len q - cap) in
  (take n q, drop n q).

(** [ps.messages <- x] and [ps.others <- x]: they panic on a closed channel and wait while
    it is full; whoever waits goes on when [sendMessage] has taken the oldest. *)
Definition send_messages (p : nat) (x : reply) : R unit := fun s =>
  c ← pm_conns s !! p;
  if pc_closed c then None
  else
    let '(out, q) := enqueue (pc_cap c) (pc_messages c) x in
    Some (tt, set_conn p (write_wire out (set_messages q c)) s).
Definition send_others (p : nat) (x : reply) : R unit := fun s =>
  c ← pm_conns s !! p;
  if pc_closed c then None
  else
    let '(out, q) := enqueue 2 (pc_others c) x in
    Some (tt, set_conn p (write_wire out (set_others q c)) s).

(** [sendMessage]: one choice of its [select]. A closed channel is always ready, with the
    zero value of its elements, until [closed] happens to be chosen. *)
Inductive sends : PsConn -> PsConn -> Prop :=
  | sends_message c m q : pc_sending c = true -> pc_messages c = m :: q ->
      sends c (write_wire [m] (set_messages q c))
  | sends_other c m q : pc_sending c = true -> pc_others c = m :: q -> m <> OK ->
      sends c (write_wire [m] (set_others q c))
  | sends_ok c q : pc_sending c = true -> pc_others c = OK :: q ->
      sends c (stop_sending (write_wire [OK] (set_others q c)))
  | sends_no_message c : pc_sending c = true -> pc_closed c = true -> pc_messages c = [] ->
      sends c (write_wire [EmptySlice] c)
  | sends_no_other c : pc_sending c = true -> pc_closed c = true -> pc_others c = [] ->
      sends c (write_wire [RNil] c)
  | sends_closed c : pc_sending c = true -> pc_closed c = true -> sends c (stop_sending c).

(** ** Subscriptions *)

Definition unsubscribeChannel (p : nat) (channel : bytes) (ct : channelType) (s : PsManager) : PsManager :=
  match hubs ct s !! channel with
  | None => s
  | Some h =>
      let subs := subscribes h s ∖ {[p]} in
      let s := set_hub h subs s in
      let s := if bool_decide (subs = ∅) then set_hubs ct (delete channel) s else s in
      upd_conn p (set_channels ct (fun l => l ∖ {[channel]})) s
  end.

(** The channels a connection is subscribed to, as [range] visits them. *)
Definition channels_of (p : nat) (ct : channelType) (s : PsManager) : list bytes :=
  match pm_conns s !! p with Some c => map_range (elements (channels ct c)) | None => [] end.

Definition unsubscribe_all (p : nat) (ct : channelType) (s : PsManager) : PsManager :=
  foldl (fun s channel => unsubscribeChannel p channel ct s) s (channels_of p ct s).

(** [PsConn.Close], which panics when it is called again, and [PsManager.Close]. *)
Definition PsConn_Close (p : nat) : R unit := fun s =>
  c ← pm_conns s !! p;
  if pc_closed c then None else Some (tt, set_conn p (set_closed c) s).
Definition Close (p : nat) : R unit := fun s =>
  PsConn_Close p (unsubscribe_all p PatternChannel (unsubscribe_all p NormalChannel s)).

(** The two parts of subscribing to a channel: finding its hub or making one, under the
    lock of the manager, and joining a hub that was found, under the lock of the hub. *)
Definition find_hub (p : nat) (channel : bytes) (ct : channelType) (s : PsManager) : option nat * PsManager :=
  match hubs ct s !! channel with
  | Some h => (Some h, s)
  | None => let '(h, s) := new_hub {[p]} s in (None, set_hubs ct (insert channel h) s)
  end.
Definition join_hub (p : nat) (h : option nat) (s : PsManager) : PsManager :=
  match h with Some h => set_hub h (subscribes h s ∪ {[p]}) s | None => s end.

Definition subscribe_command (ct : channelType) : string :=
  match ct with NormalChannel => "subscribe" | PatternChannel => "psubscribe" end.
Definition unsubscribe_command (ct : channelType) : string :=
  match ct with NormalChannel => "unsubscribe" | PatternChannel => "punsubscribe" end.

Definition count_channels (p : nat) (ct : channelType) (s : PsManager) : Z :=
  match pm_conns s !! p with Some c => Z.of_nat (size (channels ct c)) | None => 0 end.

Definition subscribed_reply (command : string) (channel : bytes) (n : Z) : reply :=
  RArr [RBulk (bs command); RBulk channel; RInt n].

(** After the hub: the connection notes the channel and is told. *)
Definition note_channel (p : nat) (channel : bytes) (ct : channelType) : R unit := fun s =>
  let s := upd_conn p (set_channels ct (fun l => l ∪ {[channel]})) s in
  send_messages p (subscribed_reply (subscribe_command ct) channel (count_channels p ct s)) s.

Definition subscribe_one (p : nat) (ct : channelType) (channel : bytes) : R unit := fun s =>
  let '(h, s) := find_hub p channel ct s in
  note_channel p channel ct (join_hub p h s).

Definition subscribe (p : nat) (args : list bytes) (ct : channelType) : R unit := iter_on (subscribe_one p ct) args.

Definition unsubscribe_one (p : nat) (ct : channelType) (channel : bytes) : R unit := fun s =>
  let s := unsubscribeChannel p channel ct s in
  send_messages p (subscribed_reply (unsubscribe_command ct) channel (count_channels p ct s)) s.

Definition unsubscribe (p : nat) (args : list bytes) (ct : channelType) : R unit := fun s =>
  match args with
  | [] => send_messages p (subscribed_reply (unsubscribe_command ct) (bs "all") 0) (unsubscribe_all p ct s)
  | _ => iter_on (unsubscribe_one p ct) args s
  end.

(** ** Publishing *)

(** The form of a message for a channel ([pattern] empty) or a pattern. *)
Definition published (channel pattern msg : bytes) : reply :=
  if bool_decide (pattern = []) then RArr [RBulk (bs "message"); RBulk channel; RBulk msg]
  else RArr [RBulk (bs "pmessage"); RBulk pattern; RBulk channel; RBulk msg].

(** The messages for one subscriber, which are sent without waiting: one that is too slow
    is closed. With a subscriber that was closed before, Go may choose to send, which
    panics, or to leave it out; the definition chooses the first. *)
Fixpoint handle_sub (p : nat) (channel pattern : bytes) (messages : list bytes) (count : Z) : R Z := fun s =>
  match messages with
  | [] => Some (count, s)
  | msg :: messages =>
      c ← pm_conns s !! p;
      if pc_closed c then None
      else if len (pc_messages c) <? pc_cap c then
        handle_sub p channel pattern messages (count + 1)
          (set_conn p (set_messages (pc_messages c ++ [published channel pattern msg]) c) s)
      else '(_, s) ← Close p s; Some (count, s)
  end.

Fixpoint handle_subs (subs : list nat) (channel pattern : bytes) (messages : list bytes) (count : Z) : R Z := fun s =>
  match subs with
  | [] => Some (count, s)
  | p :: subs =>
      '(count, s) ← handle_sub p channel pattern messages count s;
      handle_subs subs channel pattern messages count s
  end.

Definition handleHub (h : nat) (channel : bytes) (messages : list bytes) (pattern : bytes) : R Z := fun s =>
  handle_subs (map_range (elements (subscribes h s))) channel pattern messages 0 s.

(** The hubs of the patterns that match. *)
Fixpoint publish_patterns (l : list (bytes * nat)) (channel : bytes) (messages : list bytes) (count : Z) : R Z := fun s =>
  match l with
  | [] => Some (count, s)
  | (pattern, h) :: l =>
      matched ← Match pattern channel;
      match matched with
      | inr true =>
          '(n, s) ← handleHub h channel messages pattern s;
          publish_patterns l channel messages (count + n) s
      | _ => publish_patterns l channel messages count s
      end
  end.

Definition publish (channel : bytes) (messages : list bytes) : R Z := fun s =>
  '(count, s) ← match hubs NormalChannel s !! channel with
                | Some h => handleHub h channel messages [] s
                | None => Some (0, s)
                end;
  publish_patterns (map_range (map_to_list (hubs PatternChannel s))) channel messages count s.

Fixpoint LocalPublishMessages (messages : list PubSubMessage) : R (list Z) := fun s =>
  match messages with
  | [] => Some ([], s)
  | m :: messages =>
      '(c, s) ← publish (m_Channel m) (m_Message m) s;
      '(l, s) ← LocalPublishMessages messages s;
      Some (i64 c :: l, s)
  end.

(** [counts[i] += c[i]], which panics where a node answers more than it was asked. *)
Fixpoint add_counts (counts c : list Z) : option (list Z) :=
  match counts, c with
  | counts, [] => Some counts
  | [], _ :: _ => None
  | n :: counts, m :: c => cons (i64 (n + m)) <$> add_counts counts c
  end.

(** The answers of the other nodes, [None] where one has failed, come before this node's. *)
Definition PsManager_PublishMessages (clients : list (option (list Z))) (messages : list PubSubMessage) : R (list Z) :=
  fun s =>
    '(local, s) ← LocalPublishMessages messages s;
    counts ← foldl (fun acc c => l ← acc; add_counts l (default [] c)) (Some (replicate (length messages) 0))
               (clients ++ [Some local]);
    Some (counts, s).

(** ** A connection that listens *)

(** What SUBSCRIBE and PSUBSCRIBE of the server make of a connection: [p] is the address
    of the new [PsConn], [wait] the error of the membership. *)
Definition Command_subscribe (p : nat) (cap : Z) (wait : option error) (cmd : list bytes) (ct : channelType) :
    R (option error) := fun s =>
  if len cmd <? 2 then Some (Some (WrongArgsError "subscribe"), s)
  else
    match wait with
    | Some e => Some (Some e, s)
    | None =>
        let ps := mkConn [] [] false ∅ ∅ cap [] true in
        '(_, s) ← subscribe p (drop 1 cmd) ct (set_conn p ps s);
        Some (None, s)
    end.

Definition SubscribeHandle (p : nat) (cap : Z) (wait : option error) (cmd : list bytes) : R (option error) :=
  Command_subscribe p cap wait cmd NormalChannel.
Definition PSubscribeHandle (p : nat) (cap : Z) (wait : option error) (cmd : list bytes) : R (option error) :=
  Command_subscribe p cap wait cmd PatternChannel.

(** UNSUBSCRIBE and PUNSUBSCRIBE of a connection that does not listen: what is written. *)
Definition UnsubscribeHandle_of (command : string) (cmd : list bytes) : list reply :=
  if len cmd =? 1 then [RArr [RBulk (bs command); RBulk (bs "all"); RInt 0]]
  else (fun resp => RArr [RBulk (bs command); RBulk resp; RInt 0]) <$> drop 1 cmd.
Definition UnsubscribeHandle : list bytes -> list reply := UnsubscribeHandle_of "unsubscribe".
Definition PUnsubscribeHandle : list bytes -> list reply := UnsubscribeHandle_of "punsubscribe".

(** One round of [runDetach]: whether to go on. *)
Definition run_command (p : nat) (cmd : list bytes) : R bool := fun s =>
  match cmd with
  | [] => Some (true, s)
  | comma :: args =>
      let go (m : R unit) : option (bool * PsManager) := '(_, s) ← m s; Some (true, s) in
      if lower_is comma "subscribe" then
        if len cmd <? 2 then go (send_others p (RErr (WrongArgsError "subscribe")))
        else go (subscribe p args NormalChannel)
      else if lower_is comma "psubscribe" then
        if len cmd <? 2 then go (send_others p (RErr (WrongArgsError "psubscribe")))
        else go (subscribe p args PatternChannel)
      else if lower_is comma "unsubscribe" then go (unsubscribe p args NormalChannel)
      else if lower_is comma "punsubscribe" then go (unsubscribe p args PatternChannel)
      else if lower_is comma "quit" then '(_, s) ← send_others p OK s; Some (false, s)
      else if lower_is comma "ping" then
        match args with
        | [] => go (send_messages p (RArr [RBulk (bs "pong"); RBulk []]))
        | [msg] => go (send_messages p (RArr [RBulk (bs "pong"); RBulk msg]))
        | _ => go (send_others p (RErr (WrongArgsError "ping")))
        end
      else go (send_others p (RErr (InvalidCommandError (B2S comma))))
  end.

(** The deferred call of [runDetach]. *)
Definition run_ended (p : nat) : R unit := fun s =>
  c ← pm_conns s !! p;
  if pc_closed c then Some (tt, s) else Close p s.

(** ** PUBSUB *)

Definition LocalNUMPAT (s : PsManager) : Z := Z.of_nat (size (hubs PatternChannel s)).

Definition LocalNUMSUB (chans : list bytes) (s : PsManager) : list Z :=
  (fun channel => match hubs NormalChannel s !! channel with
                  | Some h => Z.of_nat (size (subscribes h s))
                  | None => 0
                  end) <$> chans.

Fixpoint match_channels (pattern : bytes) (l : list bytes) : option (error + list bytes) :=
  match l with
  | [] => Some (inr [])
  | channel :: l =>
      matched ← Match pattern channel;
      match matched with
      | inl e => Some (inl e)
      | inr matched =>
          r ← match_channels pattern l;
          match r with inl e => Some (inl e) | inr l => Some (inr (if matched : bool then channel :: l else l)) end
      end
  end.

Definition LocalChannels (pattern : bytes) (s : PsManager) : option (error + list bytes) :=
  let l := map_range (fst <$> map_to_list (hubs NormalChannel s)) in
  if bool_decide (pattern = bs "*") then Some (inr l) else match_channels pattern l.

(** [Channels], for CLIENT INFO. *)
Definition Channels (s : PsManager) : Z * Z :=
  (Z.of_nat (size (hubs NormalChannel s)), Z.of_nat (size (hubs PatternChannel s))).

(** The answers of the other nodes are [None] where one has failed. *)
Definition pubSubNumpat (clients : list (option Z)) (args : list bytes) (s : PsManager) : error + Z :=
  if negb (len args =? 0) then inl (WrongSubArgsError "numpat" "PUBSUB HELP")
  else inr (foldl (fun n c => i64 (n + default 0 c)) (LocalNUMPAT s) clients).

Definition pubSubChannels (clients : list (option (list bytes))) (args : list bytes) (s : PsManager) :
    option (error + list bytes) :=
  if len args >? 1 then Some (inl (WrongSubArgsError "channels" "PUBSUB HELP"))
  else
    let pattern := match args with [pattern] => pattern | _ => bs "*" end in
    r ← LocalChannels pattern s;
    match r with inl e => Some (inl e) | inr l => Some (inr (l ++ concat (default [] <$> clients))) end.

(** The first list of counts makes the entries and the others add to them, which panics
    where there is none. *)
Fixpoint add_numsub (counts : list (option Z)) (c : list Z) : option (list (option Z)) :=
  match counts, c with
  | counts, [] => Some counts
  | [], _ :: _ => None
  | n :: counts, m :: c => n ← n; cons (Some (i64 (n + m))) <$> add_numsub counts c
  end.
Fixpoint set_numsub (counts : list (option Z)) (c : list Z) : option (list (option Z)) :=
  match counts, c with
  | counts, [] => Some counts
  | [], _ :: _ => None
  | _ :: counts, m :: c => cons (Some m) <$> set_numsub counts c
  end.
Definition sum_numsub (n : nat) (all : list (list Z)) : option (list (option Z)) :=
  match all with
  | [] => Some (replicate n None)
  | c :: all =>
      counts ← set_numsub (replicate n None) c;
      foldl (fun acc c => l ← acc; add_numsub l c) (Some counts) all
  end.

Definition pubSubNumsub (clients : list (option (list Z))) (args : list bytes) (s : PsManager) :
    option (list (bytes * option Z)) :=
  if len args <? 1 then Some []
  else
    counts ← sum_numsub (length args) ((default [] <$> clients) ++ [LocalNUMSUB args s]);
    Some (zip args counts).

(** What this node answers to another that publishes or asks (command/rpc.go). *)
Definition Command_Publish (req : list PubSubMessage) : R (list Z) := LocalPublishMessages req.
Definition PSChannels (pattern : bytes) (s : PsManager) : option (error + list bytes) := LocalChannels pattern s.
Definition PSNumSub (chans : list bytes) (s : PsManager) : list Z := LocalNUMSUB chans s.
Definition PSNumPat (s : PsManager) : Z := LocalNUMPAT s.

(** The answers of the other nodes to the three questions. *)
Record Answers := { an_channels : list (option (list bytes)); an_numsub : list (option (list Z)); an_numpat : list (option Z) }.

(** An entry that was never made is a nil pointer, and reading it panics. *)
Fixpoint numsub_reply (l : list (bytes * option Z)) : option (list reply) :=
  match l with
  | [] => Some []
  | (channel, n) :: l =>
      n ← n;
      rest ← numsub_reply l;
      Some (RBulk channel :: RInt n :: rest)
  end.

Definition PubSubHandle (answers : Answers) (args : list bytes) (s : PsManager) : option (error + reply) :=
  match args with
  | [] => Some (inl (WrongArgsError "pubsub"))
  | sub :: args =>
      if lower_is sub "channels" then
        r ← pubSubChannels (an_channels answers) args s;
        match r with inl e => Some (inl e) | inr l => Some (inr (RArr (RBulk <$> l))) end
      else if lower_is sub "numsub" then
        l ← pubSubNumsub (an_numsub answers) args s;
        rets ← numsub_reply l;
        Some (inr (RArr rets))
      else if lower_is sub "numpat" then
        match pubSubNumpat (an_numpat answers) args s with inl e => Some (inl e) | inr n => Some (inr (RInt n)) end
      else Some (inl (WrongSubArgsError "pubsub" "PUBSUB HELP"))
  end.

(** ** What may happen *)

(** The steps of the node: a connection starts to listen, sends a command, ends; its
    goroutine writes; a message is published, here or by another node. Each runs to its
    end before the next. (With a capacity of 0 only a waiting goroutine could take a
    message, which the queue does not tell.) *)
Inductive ps_step : PsManager -> PsManager -> Prop :=
  | step_listen s s' p cap wait cmd ct e : pm_conns s !! p = None -> 0 < cap ->
      Command_subscribe p cap wait cmd ct s = Some (e, s') -> ps_step s s'
  | step_command s s' p cmd go : run_command p cmd s = Some (go, s') -> ps_step s s'
  | step_end s s' p : run_ended p s = Some (tt, s') -> ps_step s s'
  | step_write s p c c' : pm_conns s !! p = Some c -> sends c c' -> ps_step s (set_conn p c' s)
  | step_publish s s' messages counts : LocalPublishMessages messages s = Some (counts, s') -> ps_step s s'.

Inductive ps_reachable : PsManager -> Prop :=
  | reach_new : ps_reachable NewPsManager
  | reach_step s s' : ps_reachable s -> ps_step s s' -> ps_reachable s'.

End pubsub.
