(* ===== verification/PubsubSpec.v ===== *)
(** What publish and subscribe promises: hubs and connections agree in every state a node
    can be in, and a published message reaches exactly those that are subscribed. *)

From stdpp Require Import gmap sets fin_sets.
From S2P Require Import Prelude Xerror GoStd Utils Store Object Reply Glob.
From S2P Require Import Transaction Pubsub.
From Stdlib Require Import Init.Byte.

#[local] Open Scope Z_scope.

(** ** What the primitives change *)

Lemma hubs_set_hubs ct ct' f s :
  hubs ct' (set_hubs ct f s) = if decide (ct' = ct) then f (hubs ct' s) else hubs ct' s.
Proof. by destruct ct, ct'. Qed.
Lemma hubs_set_hub ct h subs s : hubs ct (set_hub h subs s) = hubs ct s.
Proof. by destruct ct. Qed.
Lemma hubs_upd ct p f s : hubs ct (upd_conn p f s) = hubs ct s.
Proof. unfold upd_conn. destruct (pm_conns s !! p); by destruct ct. Qed.
Lemma hubs_set_conn ct p c s : hubs ct (set_conn p c s) = hubs ct s.
Proof. by destruct ct. Qed.
Lemma subscribes_upd h p f s : subscribes h (upd_conn p f s) = subscribes h s.
Proof. unfold upd_conn. by destruct (pm_conns s !! p). Qed.
Lemma subscribes_set_hubs h ct f s : subscribes h (set_hubs ct f s) = subscribes h s.
Proof. by destruct ct. Qed.
Lemma subscribes_set_hub h h' subs s :
  subscribes h' (set_hub h subs s) = if decide (h' = h) then subs else subscribes h' s.
Proof.
  unfold subscribes, set_hub. cbn [pm_hubs]. destruct (decide (h' = h)) as [->|Hne].
  - by rewrite lookup_insert_eq.
  - by rewrite lookup_insert_ne by congruence.
Qed.
Lemma conns_set_hubs ct f s : pm_conns (set_hubs ct f s) = pm_conns s.
Proof. by destruct ct. Qed.
Lemma conns_upd p q f s :
  pm_conns (upd_conn p f s) !! q = if decide (q = p) then f <$> pm_conns s !! q else pm_conns s !! q.
Proof.
  unfold upd_conn. destruct (decide (q = p)) as [->|Hne]; destruct (pm_conns s !! p) as [c|] eqn:E; cbn [pm_conns set_conn].
  - by rewrite lookup_insert_eq.
  - by rewrite E.
  - by rewrite lookup_insert_ne by congruence.
  - done.
Qed.
Lemma channels_set_channels ct ct' f c :
  channels ct' (set_channels ct f c) = if decide (ct' = ct) then f (channels ct' c) else channels ct' c.
Proof. by destruct ct, ct'. Qed.
Lemma closed_set_channels ct f c : pc_closed (set_channels ct f c) = pc_closed c.
Proof. by destruct ct. Qed.
Lemma next_upd p f s : pm_next (upd_conn p f s) = pm_next s.
Proof. unfold upd_conn. by destruct (pm_conns s !! p). Qed.
Lemma next_set_hubs ct f s : pm_next (set_hubs ct f s) = pm_next s.
Proof. by destruct ct. Qed.

Create Rewrite HintDb hubs.
#[local] Hint Rewrite hubs_set_hubs hubs_set_hub hubs_upd subscribes_upd subscribes_set_hubs subscribes_set_hub
  conns_set_hubs conns_upd channels_set_channels closed_set_channels next_upd next_set_hubs : hubs.

(** ** The invariant *)

Definition in_hub (s : PsManager) (ct : channelType) (ch : bytes) (p : nat) : Prop :=
  exists h, hubs ct s !! ch = Some h /\ p ∈ subscribes h s.
Definition subscribed (s : PsManager) (ct : channelType) (ch : bytes) (p : nat) : Prop :=
  exists c, pm_conns s !! p = Some c /\ ch ∈ channels ct c.

(** Hubs hold the connections that are subscribed, there is a hub where there is a
    subscriber and only there, each channel has its own, closed connections have no
    subscriptions, and queues keep within their capacities. *)
Record ps_inv (s : PsManager) : Prop := {
  pi_agree : forall ct ch p, in_hub s ct ch p <-> subscribed s ct ch p;
  pi_nonempty : forall ct ch h, hubs ct s !! ch = Some h -> subscribes h s <> ∅;
  pi_own : forall ct ch ct' ch' h, hubs ct s !! ch = Some h -> hubs ct' s !! ch' = Some h -> ct = ct' /\ ch = ch';
  pi_fresh : forall ct ch h, hubs ct s !! ch = Some h -> (h < pm_next s)%nat;
  pi_closed : forall p c ct, pm_conns s !! p = Some c -> pc_closed c = true -> channels ct c = ∅;
  pi_queue : forall p c, pm_conns s !! p = Some c ->
    0 <= pc_cap c /\ len (pc_messages c) <= pc_cap c /\ len (pc_others c) <= 2
}.

(** All of a connection but its subscriptions. *)
Definition io (c : PsConn) : list reply * list reply * bool * Z * list reply * bool :=
  (pc_messages c, pc_others c, pc_closed c, pc_cap c, pc_wire c, pc_sending c).

Lemma io_set_channels ct f c : io (set_channels ct f c) = io c.
Proof. by destruct ct. Qed.

(** ** Leaving a channel *)

Lemma subscribed_unsubscribe s p ch ct ct' ch' q : ps_inv s ->
  subscribed (unsubscribeChannel p ch ct s) ct' ch' q <->
  subscribed s ct' ch' q /\ ~ (ct' = ct /\ ch' = ch /\ q = p).
Proof.
  intros Hi. unfold unsubscribeChannel. destruct (hubs ct s !! ch) as [h|] eqn:Eh.
  - unfold subscribed. set (s1 := if bool_decide _ then _ else _).
    assert (pm_conns s1 = pm_conns s) as Ec by (unfold s1; case_bool_decide; by autorewrite with hubs).
    rewrite conns_upd, Ec. destruct (decide (q = p)) as [->|Hne].
    + destruct (pm_conns s !! p) as [c|]; cbn [fmap option_fmap option_map]; [|naive_solver].
      split.
      * intros (c'&[= <-]&Hin). rewrite channels_set_channels in Hin.
        destruct (decide (ct' = ct)) as [->|]; [|split; [by exists c|naive_solver]].
        split; [exists c; set_solver|set_solver].
      * intros [(c'&[= <-]&Hin) Hn]. eexists. split; [done|]. rewrite channels_set_channels.
        destruct (decide (ct' = ct)) as [->|]; [|done]. set_solver.
    + naive_solver.
  - split; [|tauto]. intros Hs. split; [done|]. intros (->&->&->). apply (pi_agree s Hi) in Hs as (h&E&_). congruence.
Qed.

Lemma inv_unsubscribe s p ch ct : ps_inv s -> ps_inv (unsubscribeChannel p ch ct s).
Proof.
  intros Hi. pose proof (fun ct' ch' q => subscribed_unsubscribe s p ch ct ct' ch' q Hi) as Hsub.
  unfold unsubscribeChannel in *. destruct (hubs ct s !! ch) as [h|] eqn:Eh; [|done].
  set (subs := subscribes h s ∖ {[p]}) in *. set (s1 := if bool_decide (subs = ∅) then _ else _) in *.
  assert (forall ct' ch', hubs ct' s1 !! ch' =
    if decide (ct' = ct /\ ch' = ch /\ subs = ∅) then None else hubs ct' s !! ch') as Eh1.
  { intros ct' ch'. unfold s1. case_bool_decide as Hs; autorewrite with hubs.
    - destruct (decide (ct' = ct)) as [->|].
      + destruct (decide (ch' = ch)) as [->|].
        * rewrite decide_True by done. apply lookup_delete_eq.
        * rewrite decide_False by tauto. by apply lookup_delete_ne.
      + by rewrite decide_False by tauto.
    - by rewrite decide_False by tauto. }
  assert (forall h', subscribes h' s1 = if decide (h' = h) then subs else subscribes h' s) as Es1.
  { intros h'. unfold s1. case_bool_decide; by autorewrite with hubs. }
  assert (pm_next s1 = pm_next s) as En by (unfold s1; case_bool_decide; by autorewrite with hubs).
  assert (pm_conns s1 = pm_conns s) as Ec by (unfold s1; case_bool_decide; by autorewrite with hubs).
  split.
  - intros ct' ch' q. rewrite Hsub, <- (pi_agree s Hi). unfold in_hub. rewrite hubs_upd, Eh1.
    setoid_rewrite subscribes_upd. split.
    + intros (h'&E&Hin). destruct (decide (ct' = ct /\ ch' = ch /\ subs = ∅)) as [|Hn]; [done|].
      rewrite Es1 in Hin. destruct (decide (h' = h)) as [->|Hne].
      * destruct (pi_own s Hi _ _ _ _ _ E Eh) as [-> ->]. split; [exists h; set_solver|set_solver].
      * split; [by exists h'|]. intros (->&->&_). congruence.
    + intros [(h'&E&Hin) Hn]. exists h'. rewrite Es1.
      destruct (decide (h' = h)) as [->|Hne].
      * destruct (pi_own s Hi _ _ _ _ _ E Eh) as [-> ->].
        assert (q <> p) by naive_solver. assert (q ∈ subs) by set_solver.
        rewrite decide_False by (intros (_&_&E'); set_solver). done.
      * split; [|done]. rewrite decide_False; [done|]. intros (->&->&_). congruence.
  - intros ct' ch' h'. rewrite hubs_upd, subscribes_upd, Eh1, Es1.
    destruct (decide (ct' = ct /\ ch' = ch /\ subs = ∅)) as [|Hn]; [done|]. intros E.
    destruct (decide (h' = h)) as [->|]; [|by eapply (pi_nonempty s Hi)].
    destruct (pi_own s Hi _ _ _ _ _ E Eh) as [-> ->]. tauto.
  - intros ct1 ch1 ct2 ch2 h'. rewrite !hubs_upd, !Eh1.
    destruct (decide _); [done|]. destruct (decide _); [done|]. apply (pi_own s Hi).
  - intros ct' ch' h'. rewrite hubs_upd, next_upd, Eh1, En. destruct (decide _); [done|]. apply (pi_fresh s Hi).
  - intros q c ct'. rewrite conns_upd, Ec. destruct (decide (q = p)) as [->|]; [|by apply (pi_closed s Hi)].
    destruct (pm_conns s !! p) as [c0|] eqn:E; [|done]. intros [= <-]. rewrite closed_set_channels, channels_set_channels.
    intros Hc. pose proof (pi_closed s Hi p c0 ct' E Hc) as ->. destruct (decide _); set_solver.
  - intros q c. rewrite conns_upd, Ec. destruct (decide (q = p)) as [->|]; [|by apply (pi_queue s Hi)].
    destruct (pm_conns s !! p) as [c0|] eqn:E; [|done]. intros [= <-].
    pose proof (pi_queue s Hi p c0 E) as Hq. by destruct ct.
Qed.

(** No connection is created or loses what waits in it. *)
Lemma io_unsubscribe s p ch ct q : io <$> pm_conns (unsubscribeChannel p ch ct s) !! q = io <$> pm_conns s !! q.
Proof.
  unfold unsubscribeChannel. destruct (hubs ct s !! ch) as [h|]; [|done]. rewrite conns_upd.
  case_bool_decide; autorewrite with hubs; (destruct (decide (q = p)); [|done]);
    cbn [pm_conns set_hub]; destruct (pm_conns s !! q); cbn; by rewrite ?io_set_channels.
Qed.

(** ** Joining a channel *)

(** The state after the hub was found or made and joined, and the connection knows. *)
Definition joined (s : PsManager) (p : nat) (ch : bytes) (ct : channelType) : PsManager :=
  let '(h, s1) := find_hub p ch ct s in
  upd_conn p (set_channels ct (fun l => l ∪ {[ch]})) (join_hub p h s1).

Lemma subscribed_upd_channels s s1 p ch ct ct' ch' q : pm_conns s1 = pm_conns s -> is_Some (pm_conns s !! p) ->
  subscribed (upd_conn p (set_channels ct (fun l => l ∪ {[ch]})) s1) ct' ch' q <->
  subscribed s ct' ch' q \/ (ct' = ct /\ ch' = ch /\ q = p).
Proof.
  intros Ec [c Ep]. unfold subscribed. rewrite conns_upd, Ec. destruct (decide (q = p)) as [->|Hne].
  - rewrite Ep. cbn [fmap option_fmap option_map]. split.
    + intros (c'&[= <-]&Hin). rewrite channels_set_channels in Hin.
      destruct (decide (ct' = ct)) as [->|]; [|left; by exists c].
      apply elem_of_union in Hin as [Hin|Hin%elem_of_singleton]; [left; by exists c|by right].
    + intros [(c'&[= <-]&Hin)|(->&->&_)]; (eexists; split; [done|]); rewrite channels_set_channels;
        [destruct (decide _); set_solver|rewrite decide_True by done; set_solver].
  - split; [by left|]. intros [Hs|(_&_&->)]; done.
Qed.

Lemma joined_cases s p ch ct : ps_inv s ->
  exists h, let s' := joined s p ch ct in
    (forall ct' ch', hubs ct' s' !! ch' = if decide (ct' = ct /\ ch' = ch) then Some h else hubs ct' s !! ch') /\
    (forall h', subscribes h' s' = if decide (h' = h)
       then match hubs ct s !! ch with Some _ => subscribes h s ∪ {[p]} | None => {[p]} end else subscribes h' s) /\
    (pm_next s <= pm_next s')%nat /\ (h < pm_next s')%nat /\
    match hubs ct s !! ch with Some h' => h' = h | None => h = pm_next s end /\
    (is_Some (pm_conns s !! p) -> forall ct' ch' q, subscribed s' ct' ch' q <->
       subscribed s ct' ch' q \/ (ct' = ct /\ ch' = ch /\ q = p)) /\
    (forall q, pm_conns s' !! q = if decide (q = p) then set_channels ct (fun l => l ∪ {[ch]}) <$> pm_conns s !! q
                                  else pm_conns s !! q).
Proof.
  intros Hi. unfold joined, find_hub. destruct (hubs ct s !! ch) as [h|] eqn:Eh.
  - exists h. cbn [join_hub]. split; [|split; [|split; [|split; [|split; [|split]]]]].
    + intros ct' ch'. rewrite hubs_upd, hubs_set_hub. destruct (decide (ct' = ct /\ ch' = ch)) as [[-> ->]|]; done.
    + intros h'. rewrite subscribes_upd, subscribes_set_hub. done.
    + by rewrite next_upd.
    + rewrite next_upd. by apply (pi_fresh s Hi) in Eh.
    + done.
    + intros Hp ct' ch' q. by apply subscribed_upd_channels.
    + intros q. by rewrite conns_upd.
  - exists (pm_next s). cbn [join_hub new_hub]. split; [|split; [|split; [|split; [|split; [|split]]]]].
    + intros ct' ch'. rewrite hubs_upd, hubs_set_hubs.
      destruct (decide (ct' = ct)) as [->|].
      * destruct (decide (ch' = ch)) as [->|].
        -- rewrite decide_True by done. destruct ct; apply lookup_insert_eq.
        -- rewrite decide_False by tauto. destruct ct; by apply lookup_insert_ne.
      * rewrite decide_False by tauto. by destruct ct'.
    + intros h'. rewrite subscribes_upd, subscribes_set_hubs. unfold subscribes. cbn [pm_hubs].
      destruct (decide (h' = pm_next s)) as [->|]; [by rewrite lookup_insert_eq|by rewrite lookup_insert_ne by congruence].
    + rewrite next_upd, next_set_hubs. cbn [pm_next]. lia.
    + rewrite next_upd, next_set_hubs. cbn [pm_next]. lia.
    + done.
    + intros Hp ct' ch' q. apply subscribed_upd_channels; [by rewrite conns_set_hubs|done].
    + intros q. rewrite conns_upd, conns_set_hubs. done.
Qed.

Lemma inv_joined s p ch ct c : ps_inv s -> pm_conns s !! p = Some c -> pc_closed c = false ->
  ps_inv (joined s p ch ct).
Proof.
  intros Hi Hp Hopen. destruct (joined_cases s p ch ct Hi) as (h&Hh&Hs&Hn&Hf&Eh&Hsub&Hc).
  specialize (Hsub (mk_is_Some _ _ Hp)). set (s' := joined s p ch ct) in *. clearbody s'.
  assert (forall ct' ch', hubs ct' s !! ch' = Some h -> ct' = ct /\ ch' = ch) as Hown.
  { intros ct' ch' E. destruct (hubs ct s !! ch) as [h0|] eqn:E0.
    - subst h0. by apply (pi_own s Hi) with h.
    - subst h. apply (pi_fresh s Hi) in E. lia. }
  split.
  - intros ct' ch' q. rewrite Hsub, <- (pi_agree s Hi). unfold in_hub. rewrite Hh.
    destruct (decide (ct' = ct /\ ch' = ch)) as [[-> ->]|Hne].
    + split.
      * intros (h'&[= <-]&Hin). rewrite Hs, decide_True in Hin by done.
        destruct (hubs ct s !! ch) as [h0|] eqn:E0; [|set_solver]. subst h0.
        apply elem_of_union in Hin as [Hin|Hin]; [left; by exists h|right; set_solver].
      * intros [(h'&E&Hin)|(_&_&->)]; exists h; (split; [done|]); rewrite Hs, decide_True by done.
        -- rewrite E in *. subst h'. set_solver.
        -- destruct (hubs ct s !! ch); set_solver.
    + split.
      * intros (h'&E&Hin). left. exists h'. rewrite Hs in Hin. split; [done|].
        destruct (decide (h' = h)) as [->|]; [|done]. by apply Hown in E.
      * intros [(h'&E&Hin)|(->&->&_)]; [|tauto]. exists h'. split; [done|]. rewrite Hs.
        destruct (decide (h' = h)) as [->|]; [|done]. by apply Hown in E.
  - intros ct' ch' h'. rewrite Hh, Hs. destruct (decide (ct' = ct /\ ch' = ch)) as [[-> ->]|Hne].
    + intros [= <-]. rewrite decide_True by done. destruct (hubs ct s !! ch); set_solver.
    + intros E. destruct (decide (h' = h)) as [->|]; [by apply Hown in E|]. by eapply (pi_nonempty s Hi).
  - intros ct1 ch1 ct2 ch2 h'. rewrite !Hh.
    destruct (decide (ct1 = ct /\ ch1 = ch)) as [[-> ->]|H1], (decide (ct2 = ct /\ ch2 = ch)) as [[-> ->]|H2]; [done|..].
    + intros [= <-] E. apply Hown in E. tauto.
    + intros E [= <-]. apply Hown in E. tauto.
    + apply (pi_own s Hi).
  - intros ct' ch' h'. rewrite Hh. destruct (decide _) as [|]; [intros [= <-]; done|].
    intros E%(pi_fresh s Hi). lia.
  - intros q c' ct'. rewrite Hc. destruct (decide (q = p)) as [->|]; [|by apply (pi_closed s Hi)].
    rewrite Hp. intros [= <-]. rewrite closed_set_channels. congruence.
  - intros q c'. rewrite Hc. destruct (decide (q = p)) as [->|]; [|by apply (pi_queue s Hi)].
    rewrite Hp. intros [= <-]. pose proof (pi_queue s Hi p c Hp). by destruct ct.
Qed.

(** ** Writes to a connection *)

(** A change of a connection that keeps its subscriptions. *)
Lemma inv_set_conn s p c c' : ps_inv s -> pm_conns s !! p = Some c ->
  (forall ct, channels ct c' = channels ct c) ->
  (pc_closed c' = true -> forall ct, channels ct c = ∅) ->
  0 <= pc_cap c' -> len (pc_messages c') <= pc_cap c' -> len (pc_others c') <= 2 ->
  ps_inv (set_conn p c' s).
Proof.
  intros Hi Hp Hch Hcl H0 H1 H2.
  assert (forall ct ch q, subscribed (set_conn p c' s) ct ch q <-> subscribed s ct ch q) as Hsub.
  { intros ct ch q. unfold subscribed. cbn [pm_conns set_conn]. destruct (decide (q = p)) as [->|].
    - rewrite lookup_insert_eq. split.
      + intros (x&[= <-]&Hin). rewrite Hch in Hin. by exists c.
      + intros (x&E&Hin). rewrite Hp in E. injection E as <-. exists c'. by rewrite Hch.
    - by rewrite lookup_insert_ne by congruence. }
  split.
  - intros ct ch q. rewrite Hsub, <- (pi_agree s Hi). by destruct ct.
  - intros ct ch h. rewrite hubs_set_conn. apply (pi_nonempty s Hi).
  - intros ct1 ch1 ct2 ch2 h. rewrite !hubs_set_conn. apply (pi_own s Hi).
  - intros ct ch h. rewrite hubs_set_conn. apply (pi_fresh s Hi).
  - intros q x ct. cbn [pm_conns set_conn]. destruct (decide (q = p)) as [->|].
    + rewrite lookup_insert_eq. intros [= <-] Hx. rewrite Hch. by apply Hcl.
    + rewrite lookup_insert_ne by congruence. apply (pi_closed s Hi).
  - intros q x. cbn [pm_conns set_conn]. destruct (decide (q = p)) as [->|].
    + rewrite lookup_insert_eq. by intros [= <-].
    + rewrite lookup_insert_ne by congruence. apply (pi_queue s Hi).
Qed.

Lemma enqueue_len cap q x : 0 <= cap -> len (snd (enqueue cap q x)) <= cap.
Proof.
  intros Hc. unfold enqueue. cbn [snd]. unfold len. rewrite length_drop.
  set (n := length (q ++ [x])). lia.
Qed.

Lemma inv_send_messages s s' p x u : ps_inv s -> send_messages p x s = Some (u, s') -> ps_inv s'.
Proof.
  intros Hi. unfold send_messages. destruct (pm_conns s !! p) as [c|] eqn:Ep; [|done]. cbn [mbind option_bind].
  destruct (pc_closed c) eqn:Ec; [done|]. pose proof (pi_queue s Hi p c Ep) as (H0&H1&H2).
  pose proof (enqueue_len (pc_cap c) (pc_messages c) x H0) as He.
  destruct (enqueue (pc_cap c) (pc_messages c) x) as [out q]. intros [= _ <-].
  apply (inv_set_conn s p c); [done|done|by intros []| |done..]. cbn [pc_closed write_wire set_messages]. congruence.
Qed.

Lemma inv_send_others s s' p x u : ps_inv s -> send_others p x s = Some (u, s') -> ps_inv s'.
Proof.
  intros Hi. unfold send_others. destruct (pm_conns s !! p) as [c|] eqn:Ep; [|done]. cbn [mbind option_bind].
  destruct (pc_closed c) eqn:Ec; [done|]. pose proof (pi_queue s Hi p c Ep) as (H0&H1&H2).
  pose proof (enqueue_len 2 (pc_others c) x ltac:(lia)) as He.
  destruct (enqueue 2 (pc_others c) x) as [out q]. intros [= _ <-].
  apply (inv_set_conn s p c); [done|done|by intros []| |done..]. cbn [pc_closed write_wire set_others]. congruence.
Qed.

Lemma inv_sends s p c c' : ps_inv s -> pm_conns s !! p = Some c -> sends c c' -> ps_inv (set_conn p c' s).
Proof.
  intros Hi Hp Hs. pose proof (pi_queue s Hi p c Hp) as (H0&H1&H2). pose proof (pi_closed s Hi p c) as Hcl.
  apply (inv_set_conn s p c); [done|done| | | | |]; inversion Hs; subst; try done;
    try (by intros []); try (by intros; apply Hcl);
    cbn [pc_messages pc_others pc_cap write_wire set_messages set_others stop_sending];
    match goal with E : _ = _ :: _ |- _ => rewrite E, len_cons in *; lia end.
Qed.

(** ** Leaving everything, closing *)

Section steps.
Context `{MapRange}.

Lemma subscribed_foldl L s p ct : ps_inv s ->
  let s' := foldl (fun s channel => unsubscribeChannel p channel ct s) s L in
  ps_inv s' /\ (forall q, io <$> pm_conns s' !! q = io <$> pm_conns s !! q) /\
  forall ct' ch' q, subscribed s' ct' ch' q <-> subscribed s ct' ch' q /\ ~ (ct' = ct /\ ch' ∈ L /\ q = p).
Proof.
  revert s. induction L as [|ch L IH]; intros s Hi; cbn [foldl].
  { split; [done|]. split; [done|]. intros ct' ch' q. split; [intros Hs; split; [done|set_solver]|tauto]. }
  destruct (IH (unsubscribeChannel p ch ct s)) as (Hi'&Hio&Hsub); [by apply inv_unsubscribe|].
  split; [done|]. split.
  - intros q. by rewrite Hio, io_unsubscribe.
  - intros ct' ch' q. rewrite Hsub, subscribed_unsubscribe by done. set_solver.
Qed.

Lemma channels_subscribed s p c ct : pm_conns s !! p = Some c ->
  (forall ch, ~ subscribed s ct ch p) -> channels ct c = ∅.
Proof. intros Hp Hn. apply set_eq. intros ch. split; [|set_solver]. intros Hin. destruct (Hn ch). by exists c. Qed.

Lemma elem_of_channels_of s p ct ch : ch ∈ channels_of p ct s <-> subscribed s ct ch p.
Proof.
  unfold channels_of, subscribed. destruct (pm_conns s !! p) as [c|].
  - rewrite map_range_perm, elem_of_elements. split; [by exists c|]. by intros (?&[= <-]&?).
  - split; [by intros ?%elem_of_nil|by intros (?&?&_)].
Qed.

Lemma inv_unsubscribe_all s p ct : ps_inv s ->
  ps_inv (unsubscribe_all p ct s) /\
  (forall q, io <$> pm_conns (unsubscribe_all p ct s) !! q = io <$> pm_conns s !! q) /\
  forall ct' ch q, subscribed (unsubscribe_all p ct s) ct' ch q <->
    subscribed s ct' ch q /\ ~ (ct' = ct /\ q = p).
Proof.
  intros Hi. destruct (subscribed_foldl (channels_of p ct s) s p ct Hi) as (H1&H2&H3).
  split; [exact H1|]. split; [exact H2|]. intros ct' ch q. unfold unsubscribe_all. rewrite H3.
  rewrite elem_of_channels_of. split; [|tauto]. intros [Hs Hn]. split; [done|]. intros [-> ->]. by apply Hn.
Qed.

(** Closing a connection takes it out of every hub; nobody else notices. *)
Lemma Close_spec s p c : ps_inv s -> pm_conns s !! p = Some c -> pc_closed c = false ->
  exists s', Close p s = Some (tt, s') /\ ps_inv s' /\
    (forall ct ch q, subscribed s' ct ch q <-> subscribed s ct ch q /\ q <> p) /\
    (forall q, q <> p -> io <$> pm_conns s' !! q = io <$> pm_conns s !! q) /\
    io <$> pm_conns s' !! p = Some (io (set_closed c)).
Proof.
  intros Hi Hp Hopen. unfold Close. set (s1 := unsubscribe_all p NormalChannel s).
  destruct (inv_unsubscribe_all s p NormalChannel Hi) as (Hi1&Hio1&Hs1). fold s1 in Hi1, Hio1, Hs1.
  destruct (inv_unsubscribe_all s1 p PatternChannel Hi1) as (Hi2&Hio2&Hs2).
  set (s2 := unsubscribe_all p PatternChannel s1) in *.
  assert (io <$> pm_conns s2 !! p = Some (io c)) as Hpio by by rewrite Hio2, Hio1, Hp.
  destruct (pm_conns s2 !! p) as [c2|] eqn:E2; [|done]. cbn [fmap option_fmap option_map] in Hpio.
  injection Hpio as Em Eo Ecl Ecap Ew Es.
  assert (forall ct, channels ct c2 = ∅) as Hno.
  { intros ct. apply (channels_subscribed s2 p); [done|]. intros ch Hsub%Hs2. destruct Hsub as [Hsub%Hs1 Hn].
    destruct ct; tauto. }
  unfold PsConn_Close. rewrite E2. cbn [mbind option_bind]. rewrite Ecl, Hopen.
  eexists. split; [done|]. pose proof (pi_queue s2 Hi2 p c2 E2) as (H0&H1&H2).
  split; [apply (inv_set_conn s2 p c2); try done; by intros []|]. split; [|split].
  - intros ct ch q. unfold subscribed at 1. cbn [pm_conns set_conn]. destruct (decide (q = p)) as [->|Hne].
    + rewrite lookup_insert_eq. split; [|tauto]. intros (x&[= <-]&Hin).
      assert (channels ct (set_closed c2) = channels ct c2) as E by by destruct ct.
      rewrite E, Hno in Hin. by apply not_elem_of_empty in Hin.
    + rewrite lookup_insert_ne by congruence.
      transitivity (subscribed s2 ct ch q); [done|]. rewrite Hs2, Hs1. split; [tauto|].
      intros [Hsub _]. split; [split; [done|tauto]|tauto].
  - intros q Hq. cbn [pm_conns set_conn]. rewrite lookup_insert_ne by congruence. by rewrite Hio2, Hio1.
  - cbn [pm_conns set_conn]. rewrite lookup_insert_eq. cbn. unfold io. cbn. congruence.
Qed.

Lemma inv_Close s s' p u : ps_inv s -> Close p s = Some (u, s') -> ps_inv s'.
Proof.
  intros Hi. unfold Close. destruct (inv_unsubscribe_all s p NormalChannel Hi) as (Hi1&Hio1&Hs1).
  set (s1 := unsubscribe_all p NormalChannel s) in *.
  destruct (inv_unsubscribe_all s1 p PatternChannel Hi1) as (Hi2&Hio2&Hs2).
  set (s2 := unsubscribe_all p PatternChannel s1) in *.
  unfold PsConn_Close. destruct (pm_conns s2 !! p) as [c2|] eqn:E2; [|done]. cbn [mbind option_bind].
  destruct (pc_closed c2); [done|]. intros [= _ <-]. pose proof (pi_queue s2 Hi2 p c2 E2) as (H0&H1&H2).
  apply (inv_set_conn s2 p c2); [done|done|by intros []| |done..]. intros _ ct.
  apply (channels_subscribed s2 p); [done|]. intros ch Hsub%Hs2. destruct Hsub as [Hsub%Hs1 Hn]. destruct ct; tauto.
Qed.

(** ** Commands and messages *)

Lemma iter_on_inv {A} (f : A -> R unit) l s s' u :
  (forall x s s' u, ps_inv s -> f x s = Some (u, s') -> ps_inv s') ->
  ps_inv s -> iter_on f l s = Some (u, s') -> ps_inv s'.
Proof.
  intros Hf. revert s. induction l as [|x l IH]; intros s Hi; cbn [iter_on]; [by intros [= _ <-]|].
  destruct (f x s) as [[[] s1]|] eqn:E; [|done]. cbn [mbind option_bind]. apply IH. by eapply Hf.
Qed.

Lemma inv_subscribe_one p ct ch s s' u : ps_inv s -> subscribe_one p ct ch s = Some (u, s') -> ps_inv s'.
Proof.
  intros Hi. unfold subscribe_one, note_channel.
  pose proof (eq_refl : joined s p ch ct = let '(h, s1) := find_hub p ch ct s in
    upd_conn p (set_channels ct (fun l => l ∪ {[ch]})) (join_hub p h s1)) as Ej.
  destruct (find_hub p ch ct s) as [h s1]. rewrite <- Ej. intros Hsend. eapply inv_send_messages; [|exact Hsend].
  unfold send_messages in Hsend. destruct (joined_cases s p ch ct Hi) as (h'&_&_&_&_&_&_&Hc).
  rewrite Hc, decide_True in Hsend by done. destruct (pm_conns s !! p) as [c|] eqn:Ep; [|done].
  cbn [fmap option_fmap option_map mbind option_bind] in Hsend. rewrite closed_set_channels in Hsend.
  destruct (pc_closed c) eqn:Ec; [done|]. by apply (inv_joined s p ch ct c).
Qed.

Lemma inv_subscribe p args ct s s' u : ps_inv s -> subscribe p args ct s = Some (u, s') -> ps_inv s'.
Proof. intros Hi. apply (iter_on_inv (subscribe_one p ct)); [|done]. intros. by eapply inv_subscribe_one. Qed.

Lemma inv_unsubscribe_cmd p args ct s s' u : ps_inv s -> unsubscribe p args ct s = Some (u, s') -> ps_inv s'.
Proof.
  intros Hi. unfold unsubscribe. destruct args as [|a args].
  - apply inv_send_messages, inv_unsubscribe_all, Hi.
  - apply (iter_on_inv (unsubscribe_one p ct)); [|done]. clear. intros ch s s' u Hi. unfold unsubscribe_one.
    apply inv_send_messages, inv_unsubscribe, Hi.
Qed.

Lemma inv_run_command p cmd s s' go : ps_inv s -> run_command p cmd s = Some (go, s') -> ps_inv s'.
Proof.
  intros Hi. unfold run_command. destruct cmd as [|comma args]; [by intros [= _ <-]|].
  assert (forall (m : R unit) b, (forall s1 u, m s = Some (u, s1) -> ps_inv s1) ->
    (m s ≫= fun '(_, s) => Some (b, s)) = Some (go, s') -> ps_inv s') as Hgo.
  { intros m b Hm. destruct (m s) as [[u s1]|] eqn:E; [|done]. intros [= _ <-]. by eapply Hm. }
  repeat match goal with
    | |- context [if ?b then _ else _] => destruct b
    | |- context [match args with [] => _ | _ => _ end] => destruct args as [|? [|? ?]]
    end; intros E; (eapply Hgo; [|exact E]); intros s1 u;
    first [by apply inv_send_others | by apply inv_send_messages | by apply inv_subscribe | by apply inv_unsubscribe_cmd].
Qed.

Lemma inv_new p cap s : ps_inv s -> pm_conns s !! p = None -> 0 <= cap ->
  ps_inv (set_conn p (mkConn [] [] false ∅ ∅ cap [] true) s).
Proof.
  intros Hi Hp Hcap.
  assert (forall ct ch q, subscribed (set_conn p (mkConn [] [] false ∅ ∅ cap [] true) s) ct ch q <-> subscribed s ct ch q) as Hsub.
  { intros ct ch q. unfold subscribed. cbn [pm_conns set_conn]. destruct (decide (q = p)) as [->|].
    - rewrite lookup_insert_eq, Hp. split; [|by intros (?&?&_)].
      intros (x&[= <-]&Hin). by destruct ct; apply not_elem_of_empty in Hin.
    - by rewrite lookup_insert_ne by congruence. }
  split.
  - intros ct ch q. rewrite Hsub, <- (pi_agree s Hi). by destruct ct.
  - intros ct ch h. rewrite hubs_set_conn. apply (pi_nonempty s Hi).
  - intros ct1 ch1 ct2 ch2 h. rewrite !hubs_set_conn. apply (pi_own s Hi).
  - intros ct ch h. rewrite hubs_set_conn. apply (pi_fresh s Hi).
  - intros q x ct. cbn [pm_conns set_conn]. destruct (decide (q = p)) as [->|].
    + rewrite lookup_insert_eq. by intros [= <-].
    + rewrite lookup_insert_ne by congruence. apply (pi_closed s Hi).
  - intros q x. cbn [pm_conns set_conn]. destruct (decide (q = p)) as [->|].
    + rewrite lookup_insert_eq. intros [= <-]. cbn. unfold len. simpl. lia.
    + rewrite lookup_insert_ne by congruence. apply (pi_queue s Hi).
Qed.

Lemma inv_handle_sub p channel pattern messages count s s' n : ps_inv s ->
  handle_sub p channel pattern messages count s = Some (n, s') -> ps_inv s'.
Proof.
  revert count s. induction messages as [|m messages IH]; intros count s Hi; cbn [handle_sub]; [by intros [= _ <-]|].
  destruct (pm_conns s !! p) as [c|] eqn:Ep; [|done]. cbn [mbind option_bind].
  destruct (pc_closed c) eqn:Ec; [done|]. destruct (Z.ltb_spec (len (pc_messages c)) (pc_cap c)).
  - apply IH. pose proof (pi_queue s Hi p c Ep) as (Hq0&Hq1&Hq2). apply (inv_set_conn s p c); [done|done|by intros []| |done| |done].
    + cbn [pc_closed set_messages]. congruence.
    + cbn [pc_messages pc_cap set_messages]. rewrite len_app. unfold len at 2. simpl. lia.
  - destruct (Close p s) as [[u s1]|] eqn:E; [|done]. intros [= _ <-]. by eapply inv_Close.
Qed.

Lemma inv_handle_subs subs channel pattern messages count s s' n : ps_inv s ->
  handle_subs subs channel pattern messages count s = Some (n, s') -> ps_inv s'.
Proof.
  revert count s. induction subs as [|p subs IH]; intros count s Hi; cbn [handle_subs]; [by intros [= _ <-]|].
  destruct (handle_sub p channel pattern messages count s) as [[k s1]|] eqn:E; [|done]. cbn [mbind option_bind].
  apply IH. by eapply inv_handle_sub.
Qed.

Lemma inv_publish_patterns l channel messages count s s' n : ps_inv s ->
  publish_patterns l channel messages count s = Some (n, s') -> ps_inv s'.
Proof.
  revert count s. induction l as [|[pattern h] l IH]; intros count s Hi; cbn [publish_patterns]; [by intros [= _ <-]|].
  destruct (Match pattern channel) as [[e|[|]]|]; cbn [mbind option_bind]; try done; try (by apply IH).
  destruct (handleHub h channel messages pattern s) as [[k s1]|] eqn:E; [|done]. cbn [mbind option_bind].
  apply IH. by eapply inv_handle_subs.
Qed.

Lemma inv_publish channel messages s s' n : ps_inv s -> publish channel messages s = Some (n, s') -> ps_inv s'.
Proof.
  intros Hi. unfold publish. destruct (hubs NormalChannel s !! channel) as [h|].
  - destruct (handleHub h channel messages [] s) as [[k s1]|] eqn:E; [|done]. cbn [mbind option_bind].
    apply inv_publish_patterns. by eapply inv_handle_subs.
  - cbn [mbind option_bind]. by apply inv_publish_patterns.
Qed.

Lemma inv_LocalPublish messages s s' l : ps_inv s -> LocalPublishMessages messages s = Some (l, s') -> ps_inv s'.
Proof.
  revert s l. induction messages as [|m messages IH]; intros s l Hi; cbn [LocalPublishMessages]; [by intros [= _ <-]|].
  destruct (publish (m_Channel m) (m_Message m) s) as [[k s1]|] eqn:E; [|done]. cbn [mbind option_bind].
  destruct (LocalPublishMessages messages s1) as [[l1 s2]|] eqn:E1; [|done]. intros [= _ <-].
  eapply IH; [|exact E1]. by eapply inv_publish.
Qed.

Lemma inv_start : ps_inv NewPsManager.
Proof.
  split; try (by intros []); try done.
  intros ct ch p. split; [by intros (h&E&_); destruct ct|by intros (c&E&_)].
Qed.

Lemma inv_step s s' : ps_inv s -> ps_step s s' -> ps_inv s'.
Proof.
  intros Hi. destruct 1 as [s s' p cap wait cmd ct e Hp Hcap Hc|s s' p cmd go Hr|s s' p He|s p c c' Hp Hs|s s' ms counts Hm].
  - revert Hc. unfold Command_subscribe. destruct (len cmd <? 2); [by intros [= _ <-]|]. destruct wait; [by intros [= _ <-]|].
    destruct (subscribe p (drop 1 cmd) ct _) as [[u s1]|] eqn:E; [|done]. intros [= _ <-].
    eapply inv_subscribe; [|exact E]. apply inv_new; [done..|lia].
  - by eapply inv_run_command.
  - unfold run_ended in He. destruct (pm_conns s !! p) as [c|]; [|done]. cbn [mbind option_bind] in He.
    destruct (pc_closed c); [by injection He as <-|]. by eapply inv_Close.
  - by eapply inv_sends.
  - by eapply inv_LocalPublish.
Qed.

(** C28. In every state that a node reaches by connections that start to listen, send
    commands and end, by their goroutines and by publishing here or elsewhere, when these
    operations do not interleave: a hub holds exactly the connections that are subscribed
    to its channel or pattern, there is a hub only where there is a subscriber, each has
    its own, a closed connection is in none, and queues keep within their capacities. *)
Theorem pubsub_invariant s : ps_reachable s -> ps_inv s.
Proof. induction 1 as [|s s' _ Hi Hstep]; [apply inv_start|by eapply inv_step]. Qed.

(** ** Who receives a message *)

(** The connections that are subscribed, whatever the hubs say. *)
Definition subs_of (ct : channelType) (ch : bytes) (s : PsManager) : gset nat :=
  dom (base.filter (fun e => ch ∈ channels ct (snd e)) (pm_conns s)).

Lemma elem_of_subs_of ct ch s p : p ∈ subs_of ct ch s <-> subscribed s ct ch p.
Proof.
  unfold subs_of, subscribed. rewrite elem_of_dom. split.
  - intros [c [Hc Hin]%map_lookup_filter_Some]. by exists c.
  - intros (c&Hc&Hin). exists c. by apply map_lookup_filter_Some.
Qed.

Lemma subscribes_subs_of s ct ch h : ps_inv s -> hubs ct s !! ch = Some h -> subscribes h s = subs_of ct ch s.
Proof.
  intros Hi Hh. apply set_eq. intros p. rewrite elem_of_subs_of, <- (pi_agree s Hi). split.
  - intros Hp. by exists h.
  - intros (h'&E&Hp). congruence.
Qed.

(** Messages are appended to the queues, and nothing else changes. *)
Record delivered (f : nat -> list reply) (s s' : PsManager) : Prop := {
  de_hubs : forall ct, hubs ct s' = hubs ct s;
  de_subs : forall h, subscribes h s' = subscribes h s;
  de_conns : forall p, pm_conns s' !! p = (fun c => set_messages (pc_messages c ++ f p) c) <$> pm_conns s !! p
}.

Lemma set_messages_nil c : set_messages (pc_messages c ++ []) c = c.
Proof. rewrite app_nil_r. by destruct c. Qed.

Lemma delivered_refl s : delivered (fun _ => []) s s.
Proof. split; try done. intros p. destruct (pm_conns s !! p) as [c|]; [|done]. cbn. by rewrite set_messages_nil. Qed.

Lemma delivered_trans f g s1 s2 s3 : delivered f s1 s2 -> delivered g s2 s3 -> delivered (fun p => f p ++ g p) s1 s3.
Proof.
  intros [H1 S1 C1] [H2 S2 C2]. split; [congruence|intros; by rewrite S2|].
  intros p. rewrite C2, C1. destruct (pm_conns s1 !! p) as [c|]; [|done]. cbn. by rewrite app_assoc.
Qed.

Lemma delivered_ext f g s s' : (forall p, f p = g p) -> delivered f s s' -> delivered g s s'.
Proof. intros E [H1 S1 C1]. split; try done. intros p. by rewrite <- E. Qed.

Definition only (p : nat) (l : list reply) (q : nat) : list reply := if decide (q = p) then l else [].

Lemma handle_sub_run p channel pattern messages count s c :
  pm_conns s !! p = Some c -> pc_closed c = false -> len (pc_messages c) + len messages <= pc_cap c ->
  exists s', handle_sub p channel pattern messages count s = Some (count + len messages, s') /\
    delivered (only p (published channel pattern <$> messages)) s s'.
Proof.
  revert count s c. induction messages as [|m messages IH]; intros count s c Hp Hc Hroom; cbn [handle_sub].
  { exists s. split; [unfold len; simpl; by rewrite Z.add_0_r|].
    eapply delivered_ext; [|apply delivered_refl]. intros q. unfold only. by destruct (decide _). }
  rewrite len_cons in *. pose proof (len_nonneg messages). rewrite Hp. cbn [mbind option_bind]. rewrite Hc.
  destruct (Z.ltb_spec (len (pc_messages c)) (pc_cap c)); [|lia].
  set (c1 := set_messages (pc_messages c ++ [published channel pattern m]) c).
  destruct (IH (count + 1) (set_conn p c1 s) c1) as (s'&E&Hd).
  - cbn [pm_conns set_conn]. by rewrite lookup_insert_eq.
  - done.
  - unfold c1. cbn [pc_messages pc_cap set_messages]. rewrite len_app. unfold len at 2. simpl. lia.
  - exists s'. split; [rewrite E; f_equal; f_equal; lia|].
    assert (delivered (only p [published channel pattern m]) s (set_conn p c1 s)) as Hd1.
    { split; [intros; apply hubs_set_conn|done|]. intros q. cbn [pm_conns set_conn]. unfold only.
      destruct (decide (q = p)) as [->|Hne]; [by rewrite lookup_insert_eq, Hp|].
      rewrite lookup_insert_ne by congruence. destruct (pm_conns s !! q) as [x|]; [|done]. cbn. by rewrite set_messages_nil. }
    eapply delivered_ext; [|eapply delivered_trans; [exact Hd1|exact Hd]]. intros q. unfold only. by destruct (decide _).
Qed.

Lemma delivered_open f s s' p c : delivered f s s' -> pm_conns s !! p = Some c ->
  exists c', pm_conns s' !! p = Some c' /\ pc_closed c' = pc_closed c /\ pc_cap c' = pc_cap c /\
             len (pc_messages c') = len (pc_messages c) + len (f p).
Proof.
  intros Hd Hp. eexists. rewrite (de_conns _ _ _ Hd), Hp. split; [done|]. cbn. by rewrite len_app.
Qed.

Lemma handle_subs_run subs channel pattern messages count s : NoDup subs ->
  (forall p, p ∈ subs -> exists c, pm_conns s !! p = Some c /\ pc_closed c = false /\
     len (pc_messages c) + len messages <= pc_cap c) ->
  exists s', handle_subs subs channel pattern messages count s = Some (count + len subs * len messages, s') /\
    delivered (fun q => if decide (q ∈ subs) then published channel pattern <$> messages else []) s s'.
Proof.
  intros Hnd. revert count s. induction Hnd as [|p subs Hp Hnd IH]; intros count s Hok; cbn [handle_subs].
  { exists s. split; [unfold len at 1; simpl; by rewrite Z.add_0_r|].
    eapply delivered_ext; [|apply delivered_refl]. intros q. rewrite decide_False; [done|set_solver]. }
  destruct (Hok p) as (c&Ec&Hc&Hroom); [by left|].
  destruct (handle_sub_run p channel pattern messages count s c Ec Hc Hroom) as (s1&E1&Hd1). rewrite E1.
  cbn [mbind option_bind]. destruct (IH (count + len messages) s1) as (s'&E&Hd).
  { intros q Hq. destruct (Hok q) as (cq&Eq&Hcq&Hrq); [by right|].
    destruct (delivered_open _ _ _ _ _ Hd1 Eq) as (c'&E'&Ecl&Ecap&El). exists c'. split; [done|].
    split; [congruence|]. rewrite Ecap, El. unfold only. rewrite decide_False; [unfold len at 2; simpl; lia|set_solver]. }
  exists s'. split; [rewrite E, len_cons; f_equal; f_equal; lia|].
  eapply delivered_ext; [|eapply delivered_trans; [exact Hd1|exact Hd]]. intros q. unfold only. cbn beta.
  destruct (decide (q = p)) as [->|Hne].
  - rewrite decide_False by done. rewrite decide_True by by left. by rewrite app_nil_r.
  - cbn [app]. destruct (decide (q ∈ subs)); [rewrite decide_True by by right|rewrite decide_False by set_solver]; done.
Qed.

Definition matches (pattern channel : bytes) : bool :=
  match Match pattern channel with Some (inr true) => true | _ => false end.

(** What a connection gets from a pattern, and from all of them. *)
Definition by_pattern (s : PsManager) (channel : bytes) (messages : list bytes) (p : nat) (pattern : bytes) : list reply :=
  if decide (matches pattern channel = true /\ p ∈ subs_of PatternChannel pattern s)
  then published channel pattern <$> messages else [].
Definition received (s : PsManager) (patterns : list bytes) (channel : bytes) (messages : list bytes) (p : nat) : list reply :=
  (if decide (p ∈ subs_of NormalChannel channel s) then published channel [] <$> messages else []) ++
  concat (by_pattern s channel messages p <$> patterns).

Definition receivers (s : PsManager) (patterns : list bytes) (channel : bytes) : Z :=
  Z.of_nat (size (subs_of NormalChannel channel s)) +
  foldr (fun pattern n => (if matches pattern channel then Z.of_nat (size (subs_of PatternChannel pattern s)) else 0) + n)
    0 patterns.

Lemma len_elements (X : gset nat) : len (map_range (elements X)) = Z.of_nat (size X).
Proof. unfold len. by rewrite map_range_perm. Qed.

Lemma handleHub_run s s0 h ct ch channel pattern messages : ps_inv s0 -> hubs ct s0 !! ch = Some h ->
  (forall h, subscribes h s = subscribes h s0) ->
  (forall p, p ∈ subs_of ct ch s0 -> exists c, pm_conns s !! p = Some c /\ pc_closed c = false /\
     len (pc_messages c) + len messages <= pc_cap c) ->
  exists s', handleHub h channel messages pattern s =
      Some (Z.of_nat (size (subs_of ct ch s0)) * len messages, s') /\
    delivered (fun q => if decide (q ∈ subs_of ct ch s0) then published channel pattern <$> messages else []) s s'.
Proof.
  intros Hi Hh Hs Hok. unfold handleHub. rewrite Hs, (subscribes_subs_of s0 ct ch h Hi Hh).
  set (X := subs_of ct ch s0) in *.
  assert (forall q, q ∈ map_range (elements X) <-> q ∈ X) as Hin by (intros q; by rewrite map_range_perm, elem_of_elements).
  destruct (handle_subs_run (map_range (elements X)) channel pattern messages 0 s) as (s'&E&Hd).
  { rewrite map_range_perm. apply NoDup_elements. }
  { intros p Hp. by apply Hok, Hin. }
  exists s'. rewrite E, len_elements, Z.add_0_l. split; [done|].
  eapply delivered_ext; [|exact Hd]. intros q. cbn beta.
  destruct (decide (q ∈ X)) as [Hq|Hq]; [rewrite decide_True|rewrite decide_False]; by rewrite ?Hin.
Qed.

(** An open connection is one that has subscriptions. *)
Lemma subscribed_open s ct ch p : ps_inv s -> p ∈ subs_of ct ch s ->
  exists c, pm_conns s !! p = Some c /\ pc_closed c = false.
Proof.
  intros Hi (c&Hc&Hin)%elem_of_subs_of. exists c. split; [done|]. destruct (pc_closed c) eqn:E; [|done].
  rewrite (pi_closed s Hi p c ct Hc E) in Hin. by apply not_elem_of_empty in Hin.
Qed.

Lemma publish_patterns_run s0 s f l channel messages count : ps_inv s0 ->
  (forall pattern h, (pattern, h) ∈ l -> hubs PatternChannel s0 !! pattern = Some h) ->
  delivered f s0 s ->
  (forall p c, pm_conns s0 !! p = Some c ->
     len (pc_messages c) + len (f p ++ concat (by_pattern s0 channel messages p <$> (fst <$> l))) <= pc_cap c) ->
  exists s', publish_patterns l channel messages count s =
      Some (count + len messages * foldr (fun pattern n => (if matches pattern channel
              then Z.of_nat (size (subs_of PatternChannel pattern s0)) else 0) + n) 0 (fst <$> l), s') /\
    delivered (fun p => f p ++ concat (by_pattern s0 channel messages p <$> (fst <$> l))) s0 s'.
Proof.
  intros Hi. revert f count s. induction l as [|[pattern h] l IH]; intros f count s Hl Hd Hroom;
    cbn [publish_patterns fmap list_fmap fst foldr concat].
  { exists s. split; [by rewrite Z.mul_0_r, Z.add_0_r|]. eapply delivered_ext; [|exact Hd]. intros p. by rewrite app_nil_r. }
  assert (forall pattern h, (pattern, h) ∈ l -> hubs PatternChannel s0 !! pattern = Some h) as Hl'.
  { intros pt h' Hin. apply Hl. by right. }
  destruct (Match_total pattern channel) as [r Er]. rewrite Er. cbn [mbind option_bind].
  assert (matches pattern channel = match r with inr true => true | _ => false end) as Em by (unfold matches; by rewrite Er).
  rewrite Em.
  assert (match r with inr true => true | _ => false end = false ->
    exists s', publish_patterns l channel messages count s =
      Some (count + len messages * (0 + foldr (fun pattern n => (if matches pattern channel
              then Z.of_nat (size (subs_of PatternChannel pattern s0)) else 0) + n) 0 (fst <$> l)), s') /\
      delivered (fun p => f p ++ by_pattern s0 channel messages p pattern ++
        concat (by_pattern s0 channel messages p <$> (fst <$> l))) s0 s') as Hskip.
  { intros Hr. rewrite Hr in Em.
    assert (forall p, by_pattern s0 channel messages p pattern = []) as Enil.
    { intros p. unfold by_pattern. rewrite decide_False; [done|]. intros [? _]. congruence. }
    destruct (IH f count s Hl' Hd) as (s'&E&Hd').
    { intros p c Hp. pose proof (Hroom p c Hp) as Hr'. cbn [fmap list_fmap fst concat] in Hr'. by rewrite Enil in Hr'. }
    exists s'. rewrite E, Z.add_0_l. split; [done|]. eapply delivered_ext; [|exact Hd']. intros p. by rewrite Enil. }
  destruct r as [e|[|]]; [by apply Hskip| |by apply Hskip]. clear Hskip.
  assert (forall p, by_pattern s0 channel messages p pattern =
    if decide (p ∈ subs_of PatternChannel pattern s0) then published channel pattern <$> messages else []) as Eb.
  { intros p. unfold by_pattern. rewrite Em. destruct (decide (p ∈ _)); [rewrite decide_True by done|rewrite decide_False by tauto]; done. }
  destruct (handleHub_run s s0 h PatternChannel pattern channel pattern messages Hi) as (s1&E1&Hd1).
  { apply Hl. by left. }
  { apply Hd. }
  { intros p Hp. destruct (subscribed_open s0 _ _ _ Hi Hp) as (c&Hc&Hopen).
    destruct (delivered_open _ _ _ _ _ Hd Hc) as (c'&Hc'&Ecl&Ecap&El). exists c'. split; [done|]. split; [congruence|].
    pose proof (Hroom p c Hc) as Hr. cbn [fmap list_fmap fst concat] in Hr.
    rewrite Eb, decide_True, !len_app in Hr by done. rewrite Ecap, El.
    pose proof (len_nonneg (concat (by_pattern s0 channel messages p <$> (fst <$> l)))).
    assert (len (published channel pattern <$> messages) = len messages) as Elen by (unfold len; by rewrite length_fmap).
    lia. }
  rewrite E1. cbn [mbind option_bind].
  destruct (IH (fun p => f p ++ by_pattern s0 channel messages p pattern)
    (count + Z.of_nat (size (subs_of PatternChannel pattern s0)) * len messages) s1 Hl') as (s'&E&Hd').
  { eapply delivered_ext; [|eapply delivered_trans; [exact Hd|exact Hd1]]. intros p. by rewrite Eb. }
  { intros p c Hp. pose proof (Hroom p c Hp) as Hr. cbn [fmap list_fmap fst concat] in Hr. by rewrite <- app_assoc. }
  exists s'. split; [rewrite E; f_equal; f_equal; lia|].
  eapply delivered_ext; [|exact Hd']. intros p. cbn beta. by rewrite <- app_assoc.
Qed.

(** C29. PUBLISH on one node, while no queue overflows: every connection gets the messages
    in order, once for its subscription to the channel and then once for each of its
    patterns that match, in the form of each; nothing else changes, and the reply counts
    what was delivered. *)
Theorem publish_delivers s channel messages : ps_inv s ->
  let patterns := fst <$> map_range (map_to_list (hubs PatternChannel s)) in
  (forall p c, pm_conns s !! p = Some c ->
     len (pc_messages c) + len (received s patterns channel messages p) <= pc_cap c) ->
  (forall pattern, pattern ∈ patterns <-> exists p, subscribed s PatternChannel pattern p) /\ NoDup patterns /\
  exists s', publish channel messages s = Some (len messages * receivers s patterns channel, s') /\
    delivered (received s patterns channel messages) s s'.
Proof.
  intros Hi patterns Hroom.
  assert (forall pattern h, (pattern, h) ∈ map_range (map_to_list (hubs PatternChannel s)) <->
    hubs PatternChannel s !! pattern = Some h) as Hl.
  { intros pattern h. by rewrite map_range_perm, elem_of_map_to_list. }
  split; [|split].
  - intros pattern. unfold patterns. rewrite list_elem_of_fmap. split.
    + intros ([pt h]&->&Hin%Hl). cbn [fst]. pose proof (pi_nonempty s Hi _ _ _ Hin) as Hne.
      apply set_choose_L in Hne as [p Hp]. exists p. apply (pi_agree s Hi). by exists h.
    + intros (p&(h&Hh&_)%(pi_agree s Hi)). exists (pattern, h). split; [done|]. by apply Hl.
  - unfold patterns. rewrite map_range_perm. apply NoDup_fst_map_to_list.
  - assert (exists s1 n, match hubs NormalChannel s !! channel with
                         | Some h => handleHub h channel messages [] s
                         | None => Some (0, s)
                         end = Some (n, s1) /\ n = len messages * Z.of_nat (size (subs_of NormalChannel channel s)) /\
      delivered (fun q => if decide (q ∈ subs_of NormalChannel channel s) then published channel [] <$> messages else []) s s1)
      as (s1&n&E1&En&Hd1).
    { destruct (hubs NormalChannel s !! channel) as [h|] eqn:Eh.
      - destruct (handleHub_run s s h NormalChannel channel channel [] messages Hi Eh) as (s1&E1&Hd1); [done| |].
        + intros p Hp. destruct (subscribed_open s _ _ _ Hi Hp) as (c&Hc&Hopen). exists c. split; [done|]. split; [done|].
          pose proof (Hroom p c Hc) as Hr. unfold received in Hr. rewrite decide_True, len_app in Hr by done.
          assert (len (published channel [] <$> messages) = len messages) as Elen by (unfold len; by rewrite length_fmap).
          pose proof (len_nonneg (concat (by_pattern s channel messages p <$> patterns))). lia.
        + exists s1. eexists. split; [exact E1|]. split; [lia|done].
      - assert (subs_of NormalChannel channel s = ∅) as Eempty.
        { apply set_eq. intros p. rewrite elem_of_subs_of, <- (pi_agree s Hi). split; [|set_solver].
          intros (h&E&_). congruence. }
        exists s, 0. split; [done|]. rewrite Eempty, size_empty. split; [lia|].
        eapply delivered_ext; [|apply delivered_refl]. intros q. by rewrite decide_False by set_solver. }
    destruct (publish_patterns_run s s1 (fun q => if decide (q ∈ subs_of NormalChannel channel s)
      then published channel [] <$> messages else []) (map_range (map_to_list (hubs PatternChannel s))) channel messages n Hi)
      as (s'&E&Hd); [intros; by apply Hl|exact Hd1|exact Hroom|].
    exists s'. unfold publish. rewrite E1. cbn [mbind option_bind]. rewrite (de_hubs _ _ _ Hd1), E, En. split; [|done].
    f_equal. f_equal. unfold receivers, patterns. by rewrite Z.mul_add_distr_l.
Qed.

End steps.
