(* ===== verification/CommandTable.v ===== *)
(** command/command.go, the table of commands: name, function, flags, number and type
    of every command, the functions of the modelled ones, and the gate through which
    Lua scripts call commands (script.go). *)

From S2P Require Import JsonCmd.
From S2P Require Import Prelude Xerror GoStd Utils Store Mem Object Reply Generic Strings.
From S2P Require Import HashCmd SetCmd SetAlgebra Transaction.
From S2P Require Import Float Rank ListA ListB ListCmd ZSet ZAlgebra Scan BitCmd Stream Hll Geo.
From Stdlib Require Import Init.Byte.

#[local] Open Scope Z_scope.

(** ** The table *)

(** The object types that only the table uses. *)
Definition ServerType := x65.     (* 'e' *)
Definition ClientType := x69.     (* 'i' *)
Definition PubSubType := x71.     (* 'q' *)
Definition ScriptType := x72.     (* 'r' *)
Definition UserType := x75.       (* 'u' *)

(** [TxnHandler.Func]: a method of [Command], or a closure that calls [evalHandle]
    for a script command. *)
Inductive handler_func := Method (name : string) | Eval (command : string).

Record TxnHandler := mkHandler {
  h_Name : string;
  h_Func : handler_func;
  h_ReadOnly : bool;
  h_NoSupportScript : bool;
  h_ID : Z;
  h_Typo : Init.Byte.byte
}.

Definition command_table : Type := list (string * TxnHandler).
Definition MAX_COMMANDS : Z := 1024.

Definition string_commands1 : command_table := [
  ("get", mkHandler "get" (Method "GetHandle") true false 0 StringType);
  ("set", mkHandler "set" (Method "SetHandle") false false 1 StringType);
  ("getset", mkHandler "getset" (Method "GetSetHandle") false false 2 StringType);
  ("setnx", mkHandler "setnx" (Method "SetNXHandle") false false 3 StringType);
  ("strlen", mkHandler "strlen" (Method "StrLenHandle") true false 4 StringType);
  ("append", mkHandler "append" (Method "AppendHandle") false false 5 StringType);
  ("decr", mkHandler "decr" (Method "DecrHandle") false false 6 StringType);
  ("decrby", mkHandler "decrby" (Method "DecrByHandle") false false 7 StringType);
  ("incr", mkHandler "incr" (Method "IncrHandle") false false 8 StringType);
  ("incrby", mkHandler "incrby" (Method "IncrByHandle") false false 9 StringType);
  ("getdel", mkHandler "getdel" (Method "GetDelHandle") false false 10 StringType);
  ("getex", mkHandler "getex" (Method "GetExHandle") false false 11 StringType)
].

Definition string_commands2 : command_table := [
  ("getrange", mkHandler "getrange" (Method "GetRangeHandle") true false 12 StringType);
  ("incrbyfloat", mkHandler "incrbyfloat" (Method "IncrByFloatHandle") false false 13 StringType);
  ("setex", mkHandler "setex" (Method "SetExHandle") false false 14 StringType);
  ("mget", mkHandler "mget" (Method "MGetHandle") true false 15 StringType);
  ("mset", mkHandler "mset" (Method "MSetHandle") false false 16 StringType);
  ("msetnx", mkHandler "msetnx" (Method "MSetNXHandle") false false 17 StringType);
  ("psetex", mkHandler "psetex" (Method "PSetExHandle") false false 18 StringType);
  ("setrange", mkHandler "setrange" (Method "SetRangeHandle") false false 19 StringType);
  ("bitcount", mkHandler "bitcount" (Method "BitCountHandle") false false 20 StringType);
  ("getbit", mkHandler "getbit" (Method "GetBitHandle") false false 21 StringType);
  ("setbit", mkHandler "setbit" (Method "SetBitHandle") false false 22 StringType);
  ("bitpos", mkHandler "bitpos" (Method "BitPosHandle") false false 23 StringType);
  ("bitop", mkHandler "bitop" (Method "BitOpHandle") false false 24 StringType)
].

Definition hash_commands : command_table := [
  ("hget", mkHandler "hget" (Method "HGetHandle") true false 32 HashType);
  ("hset", mkHandler "hset" (Method "HSetHandle") false false 33 HashType);
  ("hdel", mkHandler "hdel" (Method "HDelHandle") false false 34 HashType);
  ("hexists", mkHandler "hexists" (Method "HExistsHandle") true false 35 HashType);
  ("hlen", mkHandler "hlen" (Method "HLenHandle") true false 36 HashType);
  ("hgetall", mkHandler "hgetall" (Method "HGetAllHandle") true false 37 HashType);
  ("hincrby", mkHandler "hincrby" (Method "HIncrByHandle") false false 38 HashType);
  ("hincrbyfloat", mkHandler "hincrbyfloat" (Method "HIncrByFloatHandle") false false 39 HashType);
  ("hkeys", mkHandler "hkeys" (Method "HKeysHandle") true false 40 HashType);
  ("hvals", mkHandler "hvals" (Method "HValsHandle") true false 41 HashType);
  ("hmget", mkHandler "hmget" (Method "HMGetHandle") true false 42 HashType);
  ("hmset", mkHandler "hmset" (Method "HMSetHandle") false false 43 HashType);
  ("hscan", mkHandler "hscan" (Method "HScanHandle") true false 44 HashType);
  ("hsetnx", mkHandler "hsetnx" (Method "HSetNXHandle") false false 45 HashType);
  ("hstrlen", mkHandler "hstrlen" (Method "HStrLenHandle") true false 46 HashType);
  ("hrandfield", mkHandler "hrandfield" (Method "HRandFieldHandle") true false 47 HashType)
].

Definition list_commands : command_table := [
  ("lindex", mkHandler "lindex" (Method "LIndexHandle") true false 64 LListType);
  ("linsert", mkHandler "linsert" (Method "LInsertHandle") false false 65 LListType);
  ("llen", mkHandler "llen" (Method "LLenHandle") true false 66 LListType);
  ("lpop", mkHandler "lpop" (Method "LPopHandle") false false 67 LListType);
  ("rpop", mkHandler "rpop" (Method "RPopHandle") false false 68 LListType);
  ("rpoplpush", mkHandler "rpoplpush" (Method "RPopLPopHandle") false false 69 LListType);
  ("lpush", mkHandler "lpush" (Method "LPushHandle") false false 70 LListType);
  ("lpushx", mkHandler "lpushx" (Method "LPushXHandle") false false 71 LListType);
  ("rpush", mkHandler "rpush" (Method "RPushHandle") false false 72 LListType);
  ("rpushx", mkHandler "rpushx" (Method "RPushXHandle") false false 73 LListType);
  ("lrem", mkHandler "lrem" (Method "LRemHandle") false false 74 LListType);
  ("lset", mkHandler "lset" (Method "LSetHandle") false false 75 LListType);
  ("ltrim", mkHandler "ltrim" (Method "LTrimHandle") false false 76 LListType);
  ("lrange", mkHandler "lrange" (Method "LRangeHandle") true false 77 LListType);
  ("linfo", mkHandler "linfo" (Method "LInfoHandle") true false 78 LListType);
  ("blmove", mkHandler "blmove" (Method "BlMoveHandle") false true 79 LListType);
  ("blpop", mkHandler "blpop" (Method "BlPopHandle") false true 80 LListType);
  ("brpop", mkHandler "brpop" (Method "BrPopHandle") false true 81 LListType);
  ("brpoplpush", mkHandler "brpoplpush" (Method "BRPopLPushHandle") false true 82 LListType);
  ("lpos", mkHandler "lpos" (Method "LPosHandle") true false 83 LListType);
  ("lmove", mkHandler "lmove" (Method "LMoveHandle") false false 84 LListType)
].

Definition set_commands : command_table := [
  ("sadd", mkHandler "sadd" (Method "SAddHandle") false false 96 SetType);
  ("srem", mkHandler "srem" (Method "SRemHandle") false false 97 SetType);
  ("spop", mkHandler "spop" (Method "SPopHandle") false false 98 SetType);
  ("smove", mkHandler "smove" (Method "SMoveHandle") false false 99 SetType);
  ("scard", mkHandler "scard" (Method "SCardHandle") true false 100 SetType);
  ("sismember", mkHandler "sismember" (Method "SIsMemberHandle") true false 101 SetType);
  ("sinter", mkHandler "sinter" (Method "SInterHandle") true false 102 SetType);
  ("sinterstore", mkHandler "sinterstore" (Method "SInterStoreHandle") false false 103 SetType);
  ("sunion", mkHandler "sunion" (Method "SUnionHandle") true false 104 SetType);
  ("sunionstore", mkHandler "sunionstore" (Method "SUnionStoreHandle") false false 105 SetType);
  ("sdiff", mkHandler "sdiff" (Method "SDiffHandle") true false 106 SetType);
  ("sdiffstore", mkHandler "sdiffstore" (Method "SDiffStoreHandle") false false 107 SetType);
  ("smembers", mkHandler "smembers" (Method "SMembersHandle") true false 108 SetType);
  ("srandmember", mkHandler "srandmember" (Method "SRandMemberHandle") true false 109 SetType);
  ("sscan", mkHandler "sscan" (Method "SScanHandle") true false 110 SetType);
  ("smismember", mkHandler "smismember" (Method "SMIsMemberHandle") true false 111 SetType)
].

Definition zset_commands1 : command_table := [
  ("zadd", mkHandler "zadd" (Method "ZAddHandle") false false 128 ZsetType);
  ("zcard", mkHandler "zcard" (Method "ZCardHandle") true false 129 ZsetType);
  ("zcount", mkHandler "zcount" (Method "ZCountHandle") true false 130 ZsetType);
  ("zrangebylex", mkHandler "zrangebylex" (Method "ZRangeByLexHandle") true false 131 ZsetType);
  ("zrangebyscore", mkHandler "zrangebyscore" (Method "ZRangeByScoreHandle") true false 132 ZsetType);
  ("zdiffstore", mkHandler "zdiffstore" (Method "ZDiffStoreHandle") false false 133 ZsetType);
  ("zinterstore", mkHandler "zinterstore" (Method "ZInterStoreHandle") false false 134 ZsetType);
  ("zrank", mkHandler "zrank" (Method "ZRankHandle") true false 135 ZsetType);
  ("zrevrank", mkHandler "zrevrank" (Method "ZRevRankHandle") true false 136 ZsetType);
  ("zremrangebylex", mkHandler "zremrangebylex" (Method "ZRemRangeByLexHandle") false false 137 ZsetType);
  ("zremrangebyrank", mkHandler "zremrangebyrank" (Method "ZRemRangeByRankHandle") false false 138 ZsetType);
  ("zremrangebyscore", mkHandler "zremrangebyscore" (Method "ZRemRangeByScoreHandle") false false 139 ZsetType);
  ("zrevrangebylex", mkHandler "zrevrangebylex" (Method "ZRevRangeByLexHandle") true false 140 ZsetType);
  ("zrevrangebyscore", mkHandler "zrevrangebyscore" (Method "ZRevRangeByScoreHandle") true false 141 ZsetType);
  ("zscore", mkHandler "zscore" (Method "ZScoreHandle") true false 142 ZsetType);
  ("zunionstore", mkHandler "zunionstore" (Method "ZUnionStoreHandle") false false 143 ZsetType)
].

Definition zset_commands2 : command_table := [
  ("zlexcount", mkHandler "zlexcount" (Method "ZLexCountHandle") true false 144 ZsetType);
  ("zrange", mkHandler "zrange" (Method "ZRangeHandle") true false 145 ZsetType);
  ("zrevrange", mkHandler "zrevrange" (Method "ZRevRangeHandle") true false 146 ZsetType);
  ("zmscore", mkHandler "zmscore" (Method "ZMScoreHandle") true false 147 ZsetType);
  ("zincrby", mkHandler "zincrby" (Method "ZIncrByHandle") false false 148 ZsetType);
  ("zpopmax", mkHandler "zpopmax" (Method "ZPopMaxHandle") false false 149 ZsetType);
  ("zpopmin", mkHandler "zpopmin" (Method "ZPopMinHandle") false false 150 ZsetType);
  ("zscan", mkHandler "zscan" (Method "ZScanHandle") true false 151 ZsetType);
  ("zinter", mkHandler "zinter" (Method "ZInterHandle") true false 152 ZsetType);
  ("zrangestore", mkHandler "zrangestore" (Method "ZRangeStoreHandle") false false 153 ZsetType);
  ("zrem", mkHandler "zrem" (Method "ZRemHandle") false false 154 ZsetType);
  ("zunion", mkHandler "zunion" (Method "ZUnionHandle") true false 155 ZsetType);
  ("zrandmember", mkHandler "zrandmember" (Method "ZRandMemberHandle") true false 156 ZsetType);
  ("zdiff", mkHandler "zdiff" (Method "ZDiffHandle") true false 157 ZsetType);
  ("bzpopmax", mkHandler "bzpopmax" (Method "BZPopMaxHandle") false true 158 ZsetType);
  ("bzpopmin", mkHandler "bzpopmin" (Method "BZPopMinHandle") false true 159 ZsetType)
].

Definition json_commands : command_table := [
  ("json.set", mkHandler "json.set" (Method "JsonSetHandle") false false 160 JsonType);
  ("json.get", mkHandler "json.get" (Method "JsonGetHandle") true false 161 JsonType);
  ("json.del", mkHandler "json.del" (Method "JsonDelHandle") false false 162 JsonType);
  ("json.mget", mkHandler "json.mget" (Method "JsonMgetHandle") true false 163 JsonType);
  ("json.objkeys", mkHandler "json.objkeys" (Method "JsonObjKeysHandle") true false 164 JsonType);
  ("json.objlen", mkHandler "json.objlen" (Method "JsonObjLenHandle") true false 165 JsonType);
  ("json.arrlen", mkHandler "json.arrlen" (Method "JsonArrLenHandle") true false 166 JsonType);
  ("json.arrindex", mkHandler "json.arrindex" (Method "JsonArrIndexHandle") true false 167 JsonType);
  ("json.arrappend", mkHandler "json.arrappend" (Method "JsonArrAppendHandle") false false 168 JsonType);
  ("json.arrinsert", mkHandler "json.arrinsert" (Method "JsonArrInsertHandle") false false 169 JsonType);
  ("json.arrpop", mkHandler "json.arrpop" (Method "JsonArrPopHandle") false false 170 JsonType);
  ("json.arrtrim", mkHandler "json.arrtrim" (Method "JsonArrTrimHandle") false false 171 JsonType);
  ("json.type", mkHandler "json.type" (Method "JsonTypeHandle") true false 172 JsonType);
  ("json.toggle", mkHandler "json.toggle" (Method "JsonToggleHandle") true false 173 JsonType);
  ("json.clear", mkHandler "json.clear" (Method "JsonClearHandle") false false 174 JsonType);
  ("json.strlen", mkHandler "json.strlen" (Method "JsonStrLenHandle") true false 175 JsonType);
  ("json.numincrby", mkHandler "json.numincrby" (Method "JsonNumIncrByHandle") false false 176 JsonType);
  ("json.nummultby", mkHandler "json.nummultby" (Method "JsonNumMultByHandle") false false 177 JsonType);
  ("json.strappend", mkHandler "json.strappend" (Method "JsonStrAppendHandle") false false 178 JsonType)
].

Definition script_commands : command_table := [
  ("eval", mkHandler "eval" (Eval "eval") false true 192 ScriptType);
  ("evalsha", mkHandler "evalsha" (Eval "evalsha") false true 193 ScriptType);
  ("eval_ro", mkHandler "eval_ro" (Eval "eval_ro") true true 194 ScriptType);
  ("evalsha_ro", mkHandler "evalsha_ro" (Eval "evalsha") true true 195 ScriptType);
  ("script", mkHandler "script" (Method "ScriptHandle") false true 196 ScriptType)
].

Definition key_commands : command_table := [
  ("scan", mkHandler "scan" (Method "ScanHandle") true false 224 GeneralType);
  ("type", mkHandler "type" (Method "TypeHandle") true false 225 GeneralType);
  ("keys", mkHandler "keys" (Method "KeysHandle") true false 226 GeneralType);
  ("del", mkHandler "del" (Method "DELHandle") false false 227 GeneralType);
  ("ttl", mkHandler "ttl" (Method "TTLHandle") true false 228 GeneralType);
  ("expire", mkHandler "expire" (Method "ExpireHandle") false false 229 GeneralType);
  ("expireat", mkHandler "expireat" (Method "ExpireAtHandle") false false 230 GeneralType);
  ("persist", mkHandler "persist" (Method "PersistHandle") false false 231 GeneralType);
  ("pexpire", mkHandler "pexpire" (Method "PExpireHandle") false false 232 GeneralType);
  ("pexpireat", mkHandler "pexpireat" (Method "PExpireAtHandle") false false 233 GeneralType);
  ("pexpiretime", mkHandler "pexpiretime" (Method "PExpireTimeHandle") true false 234 GeneralType);
  ("expiretime", mkHandler "expiretime" (Method "ExpireTimeHandle") true false 235 GeneralType);
  ("pttl", mkHandler "pttl" (Method "PTTLHandle") true false 236 GeneralType);
  ("unlink", mkHandler "unlink" (Method "UnlinkHandle") false false 237 GeneralType);
  ("exists", mkHandler "exists" (Method "ExistsHandle") true false 238 GeneralType);
  ("all", mkHandler "all" (Method "AllHandle") true false 239 GeneralType);
  ("object", mkHandler "object" (Method "ObjectHandle") true false 240 GeneralType);
  ("touch", mkHandler "touch" (Method "TouchHandle") true false 241 GeneralType);
  ("rename", mkHandler "rename" (Method "RenameHandle") false false 242 GeneralType);
  ("renamenx", mkHandler "renamenx" (Method "RenameNXHandle") false false 243 GeneralType)
].

Definition server_commands : command_table := [
  ("flushall", mkHandler "flushall" (Method "FlushAllHandle") false false 256 ServerType);
  ("flushdb", mkHandler "flushdb" (Method "FlushDBHandle") false false 257 ServerType);
  ("info", mkHandler "" (Method "InfoHandle") true false 258 ServerType);
  ("time", mkHandler "" (Method "TimeHandle") true false 259 ServerType);
  ("acl", mkHandler "acl" (Method "AclHandle") false false 260 UserType);
  ("config", mkHandler "" (Method "ConfigHandle") false false 261 ServerType);
  ("dbsize", mkHandler "" (Method "DBSizeHandle") true false 262 ServerType);
  ("role", mkHandler "" (Method "RoleHandle") true false 263 ServerType);
  ("sentinel", mkHandler "" (Method "SentinelHandle") true false 287 ServerType)
].

Definition client_commands : command_table := [
  ("echo", mkHandler "" (Method "EchoHandle") true false 288 ClientType);
  ("ping", mkHandler "" (Method "PingHandle") true false 289 ClientType);
  ("select", mkHandler "" (Method "SelectHandle") false false 290 ClientType);
  ("client", mkHandler "" (Method "ClientHandle") true false 291 ClientType);
  ("auth", mkHandler "" (Method "AuthHandle") true true 292 UserType)
].

Definition stream_pubsub_commands : command_table := [
  ("xadd", mkHandler "" (Method "XADDHandle") false false 320 StreamType);
  ("xrange", mkHandler "" (Method "XRangeHandle") true false 321 StreamType);
  ("pubsub", mkHandler "" (Method "PubSubHandle") false false 356 PubSubType);
  ("publish", mkHandler "" (Method "PublishHandle") false false 357 PubSubType)
].

Definition geo_hll_commands : command_table := [
  ("geoadd", mkHandler "" (Method "GeoAddHandle") false false 384 GeoType);
  ("geodist", mkHandler "" (Method "GeoDistHandle") true false 385 GeoType);
  ("geohash", mkHandler "" (Method "GeoHashHandle") true false 386 GeoType);
  ("geopos", mkHandler "" (Method "GeoPosHandle") true false 387 GeoType);
  ("georadius", mkHandler "" (Method "GeoRadiusHandle") true false 388 GeoType);
  ("georadiusbymember", mkHandler "" (Method "GeoRadiusByMemberHandle") true false 389 GeoType);
  ("georadius_ro", mkHandler "" (Method "GeoRadiusHandle") true false 390 GeoType);
  ("georadiusbymember_ro", mkHandler "" (Method "GeoRadiusByMemberHandle") true false 391 GeoType);
  ("geosearch", mkHandler "" (Method "GeoSearchHandle") true false 392 GeoType);
  ("pfadd", mkHandler "" (Method "PfAddHandle") false false 416 HLLType);
  ("pfcount", mkHandler "" (Method "PfCountHandle") true false 417 HLLType);
  ("pfmerge", mkHandler "" (Method "PfMergeHandle") false false 418 HLLType)
].

Definition unwatch_commands : command_table := [
  ("unwatch", mkHandler "" (Method "UnWatchHandle") false false 992 UnknownType)
].

Definition commands : command_table :=
  string_commands1 ++ string_commands2 ++ hash_commands ++ list_commands ++ set_commands ++
  zset_commands1 ++ zset_commands2 ++ json_commands ++ script_commands ++ key_commands ++
  server_commands ++ client_commands ++ stream_pubsub_commands ++ geo_hll_commands ++ unwatch_commands.

(** [c.TxnHandle[cmd]]. *)
Definition lookup_command (cmd : string) : option TxnHandler :=
  snd <$> List.find (fun e => String.eqb (fst e) cmd) commands.

(** ** The functions of the modelled commands *)

Section functions.
Context `{Platform} `{PubSub} `{Msgpack} `{HllMath} `{MapOrder} `{GeoLib} `{SortSlice} `{Ajson}.

Definition methods : list (string * TxnHandle) := [
  ("GetHandle", GetHandle);
  ("SetHandle", SetHandle);
  ("GetSetHandle", GetSetHandle);
  ("SetNXHandle", SetNXHandle);
  ("StrLenHandle", StrLenHandle);
  ("AppendHandle", AppendHandle);
  ("DecrHandle", DecrHandle);
  ("DecrByHandle", DecrByHandle);
  ("IncrHandle", IncrHandle);
  ("IncrByHandle", IncrByHandle);
  ("IncrByFloatHandle", IncrByFloatHandle);
  ("GetDelHandle", GetDelHandle);
  ("GetExHandle", GetExHandle);
  ("GetRangeHandle", GetRangeHandle);
  ("SetExHandle", SetExHandle);
  ("MGetHandle", MGetHandle);
  ("MSetHandle", MSetHandle);
  ("MSetNXHandle", MSetNXHandle);
  ("PSetExHandle", PSetExHandle);
  ("SetRangeHandle", SetRangeHandle);
  ("BitCountHandle", BitCountHandle);
  ("GetBitHandle", GetBitHandle);
  ("SetBitHandle", SetBitHandle);
  ("BitPosHandle", BitPosHandle);
  ("BitOpHandle", BitOpHandle);
  ("HGetHandle", HGetHandle);
  ("HSetHandle", HSetHandle);
  ("HDelHandle", HDelHandle);
  ("HExistsHandle", HExistsHandle);
  ("HLenHandle", HLenHandle);
  ("HGetAllHandle", HGetAllHandle);
  ("HIncrByHandle", HIncrByHandle);
  ("HIncrByFloatHandle", HIncrByFloatHandle);
  ("HKeysHandle", HKeysHandle);
  ("HValsHandle", HValsHandle);
  ("HMGetHandle", HMGetHandle);
  ("HMSetHandle", HMSetHandle);
  ("HSetNXHandle", HSetNXHandle);
  ("HStrLenHandle", HStrLenHandle);
  ("HRandFieldHandle", HRandFieldHandle);
  ("SAddHandle", SAddHandle);
  ("SRemHandle", SRemHandle);
  ("SPopHandle", SPopHandle);
  ("SMoveHandle", SMoveHandle);
  ("SCardHandle", SCardHandle);
  ("SIsMemberHandle", SIsMemberHandle);
  ("SMembersHandle", SMembersHandle);
  ("SInterHandle", SInterHandle);
  ("SInterStoreHandle", SInterStoreHandle);
  ("SUnionHandle", SUnionHandle);
  ("SUnionStoreHandle", SUnionStoreHandle);
  ("SDiffHandle", SDiffHandle);
  ("SDiffStoreHandle", SDiffStoreHandle);
  ("SRandMemberHandle", SRandMemberHandle);
  ("SMIsMemberHandle", SMIsMemberHandle);
  ("LMoveHandle", LMoveHandle);
  ("RPopLPopHandle", RPopLPopHandle);
  ("LRangeHandle", LRangeHandle);
  ("LLenHandle", LLenHandle);
  ("LTrimHandle", LTrimHandle);
  ("LPosHandle", LPosHandle);
  ("LRemHandle", LRemHandle);
  ("LInsertHandle", LInsertHandle);
  ("LIndexHandle", LIndexHandle);
  ("LSetHandle", LSetHandle);
  ("RPushXHandle", RPushXHandle);
  ("RPushHandle", RPushHandle);
  ("LPushXHandle", LPushXHandle);
  ("LPushHandle", LPushHandle);
  ("RPopHandle", RPopHandle);
  ("LPopHandle", LPopHandle);
  ("ZAddHandle", ZAddHandle);
  ("ZCardHandle", ZCardHandle);
  ("ZCountHandle", ZCountHandle);
  ("ZRangeByLexHandle", ZRangeByLexHandle);
  ("ZRangeByScoreHandle", ZRangeByScoreHandle);
  ("ZRankHandle", ZRankHandle);
  ("ZRevRankHandle", ZRevRankHandle);
  ("ZRemRangeByLexHandle", ZRemRangeByLexHandle);
  ("ZRemRangeByRankHandle", ZRemRangeByRankHandle);
  ("ZRemRangeByScoreHandle", ZRemRangeByScoreHandle);
  ("ZRevRangeByLexHandle", ZRevRangeByLexHandle);
  ("ZRevRangeByScoreHandle", ZRevRangeByScoreHandle);
  ("ZScoreHandle", ZScoreHandle);
  ("ZLexCountHandle", ZLexCountHandle);
  ("ZRangeHandle", ZRangeHandle);
  ("ZRevRangeHandle", ZRevRangeHandle);
  ("ZMScoreHandle", ZMScoreHandle);
  ("ZIncrByHandle", ZIncrByHandle);
  ("ZPopMaxHandle", ZPopMaxHandle);
  ("ZPopMinHandle", ZPopMinHandle);
  ("ZRangeStoreHandle", ZRangeStoreHandle);
  ("ZDiffHandle", ZDiffHandle);
  ("ZInterHandle", ZInterHandle);
  ("ZInterCardHandle", ZInterCardHandle);
  ("ZUnionHandle", ZUnionHandle);
  ("ZDiffStoreHandle", ZDiffStoreHandle);
  ("ZInterStoreHandle", ZInterStoreHandle);
  ("ZUnionStoreHandle", ZUnionStoreHandle);
  ("ZRemHandle", ZRemHandle);
  ("ZRandMemberHandle", ZRandMemberHandle);
  ("TypeHandle", TypeHandle);
  ("KeysHandle", KeysHandle);
  ("AllHandle", AllHandle);
  ("DELHandle", DELHandle);
  ("TTLHandle", TTLHandle);
  ("ExpireHandle", ExpireHandle);
  ("ExpireAtHandle", ExpireAtHandle);
  ("PersistHandle", PersistHandle);
  ("PExpireHandle", PExpireHandle);
  ("PExpireAtHandle", PExpireAtHandle);
  ("PExpireTimeHandle", PExpireTimeHandle);
  ("ExpireTimeHandle", ExpireTimeHandle);
  ("PTTLHandle", PTTLHandle);
  ("UnlinkHandle", UnlinkHandle);
  ("ExistsHandle", ExistsHandle);
  ("TouchHandle", TouchHandle);
  ("RenameHandle", RenameHandle);
  ("RenameNXHandle", RenameNXHandle);
  ("UnWatchHandle", UnWatchHandle);
  ("XADDHandle", XADDHandle);
  ("XRangeHandle", XRangeHandle);
  ("PfAddHandle", PfAddHandle);
  ("PfCountHandle", PfCountHandle);
  ("PfMergeHandle", PfMergeHandle);
  ("GeoAddHandle", GeoAddHandle);
  ("GeoDistHandle", GeoDistHandle);
  ("GeoHashHandle", GeoHashHandle);
  ("GeoPosHandle", GeoPosHandle);
  ("GeoRadiusHandle", GeoRadiusHandle);
  ("GeoRadiusByMemberHandle", GeoRadiusByMemberHandle);
  ("GeoSearchHandle", GeoSearchHandle);
  ("JsonSetHandle", JsonSetHandle);
  ("JsonGetHandle", JsonGetHandle);
  ("JsonDelHandle", JsonDelHandle);
  ("JsonMgetHandle", JsonMgetHandle);
  ("JsonObjKeysHandle", JsonObjKeysHandle);
  ("JsonObjLenHandle", JsonObjLenHandle);
  ("JsonArrLenHandle", JsonArrLenHandle);
  ("JsonArrIndexHandle", JsonArrIndexHandle);
  ("JsonArrAppendHandle", JsonArrAppendHandle);
  ("JsonArrInsertHandle", JsonArrInsertHandle);
  ("JsonArrPopHandle", JsonArrPopHandle);
  ("JsonArrTrimHandle", JsonArrTrimHandle);
  ("JsonTypeHandle", JsonTypeHandle);
  ("JsonToggleHandle", JsonToggleHandle);
  ("JsonClearHandle", JsonClearHandle);
  ("JsonStrLenHandle", JsonStrLenHandle);
  ("JsonNumIncrByHandle", JsonNumIncrByHandle);
  ("JsonNumMultByHandle", JsonNumMultByHandle);
  ("JsonStrAppendHandle", JsonStrAppendHandle)
].

(** The function of a command of the table, when it is modelled. *)
Definition modelled_command (cmd : string) : option (list bytes -> M resp) :=
  match lookup_command cmd with
  | Some h =>
      match h_Func h with
      | Method "PublishHandle" => Some PublishHandle
      | Method name =>
          (fun e args => let! r := snd e args in ret (Reply r)) <$>
            List.find (fun e => String.eqb (fst e) name) methods
      | Eval _ => None
      end
  | None => None
  end.

End functions.

(** ** Commands called from Lua scripts *)

(** [strings.HasSuffix]. *)
Definition HasSuffix (s suffix : string) : bool :=
  (String.length suffix <=? String.length s)%nat &&
  String.eqb (String.substring (String.length s - String.length suffix) (String.length suffix) s) suffix.

(** The checks of [luaCall] before the command's function is called; [scriptCmd] is
    the command that [evalHandle] was given. *)
Definition luaCall_gate (scriptCmd cmd : string) : error + TxnHandler :=
  match lookup_command (B2S (ToLower (bs cmd))) with
  | None => inl (UnknownCmdFromScript : error)
  | Some txnHandle =>
      if h_NoSupportScript txnHandle then inl (UnsupportCmdFromScript : error)
      else
        let readonly := HasSuffix scriptCmd "ro" in
        if readonly && negb (h_ReadOnly txnHandle) then inl (ErrReadOnlyScript : error)
        else inr txnHandle
  end.

(** ** Properties *)

Lemma find_commands cmd h : lookup_command cmd = Some h -> In (cmd, h) commands.
Proof.
  unfold lookup_command. destruct (List.find _ commands) as [[k h']|] eqn:E; [|done].
  intros [= <-]. apply find_some in E as [Hi Hk]. cbn [fst] in Hk. by apply String.eqb_eq in Hk as ->.
Qed.

Definition entry_ok (e : string * TxnHandler) : bool :=
  (0 <=? h_ID (snd e)) && (h_ID (snd e) <? MAX_COMMANDS) &&
  (String.eqb (h_Name (snd e)) (fst e) || String.eqb (h_Name (snd e)) "").

Lemma commands_ok : forallb entry_ok commands = true.
Proof. vm_compute. reflexivity. Qed.
Lemma commands_ids : NoDup (h_ID <$> (snd <$> commands)).
Proof. apply (bool_decide_unpack _). vm_compute. exact I. Qed.

Lemma NoDup_fmap_In {A B} (f : A -> B) l x y : NoDup (f <$> l) -> In x l -> In y l -> f x = f y -> x = y.
Proof.
  induction l as [|a l IH]; [done|]. cbn [fmap list_fmap]. intros [Ha Hl]%NoDup_cons Hx Hy E.
  destruct Hx as [->|Hx], Hy as [->|Hy]; [done| | |by apply IH].
  - destruct Ha. rewrite E. by apply list_elem_of_fmap_2, list_elem_of_In.
  - destruct Ha. rewrite <- E. by apply list_elem_of_fmap_2, list_elem_of_In.
Qed.

(** Every command has its own number below [MAX_COMMANDS], so it has its own bit
    in the permission bitmap of a user (acl.go), and its name, if it has one, is the
    word it is called by. *)
Lemma command_numbers c1 c2 h1 h2 :
  lookup_command c1 = Some h1 -> lookup_command c2 = Some h2 ->
  0 <= h_ID h1 < MAX_COMMANDS /\ (h_Name h1 = c1 \/ h_Name h1 = "") /\
  (h_ID h1 = h_ID h2 -> c1 = c2).
Proof.
  intros H1%find_commands H2%find_commands.
  pose proof commands_ok as Hok. rewrite forallb_forall in Hok. specialize (Hok _ H1).
  unfold entry_ok in Hok. cbn [fst snd] in Hok.
  apply andb_true_iff in Hok as [[Hl Hr]%andb_true_iff Hn].
  apply Z.leb_le in Hl. apply Z.ltb_lt in Hr. apply orb_true_iff in Hn.
  split; [done|]. split; [by destruct Hn as [Hn|Hn]; apply String.eqb_eq in Hn; auto|].
  intros E. pose proof commands_ids as Hd. rewrite <- list_fmap_compose in Hd.
  by pose proof (NoDup_fmap_In (h_ID ∘ snd) commands _ _ Hd H1 H2 E) as [= ->].
Qed.

Lemma command_numbers_witness :
  exists h1 h2, lookup_command "get" = Some h1 /\ lookup_command "hget" = Some h2 /\ h_ID h1 <> h_ID h2.
Proof.
  do 2 eexists. split; [reflexivity|]. split; [reflexivity|]. intros E.
  by destruct (command_numbers "get" "hget" _ _ eq_refl eq_refl) as (_ & _ & Hc); specialize (Hc E).
Defined.

(** A script that EVAL_RO runs can only call commands that are marked read-only.
    The table runs EVALSHA_RO as EVALSHA, though, which lets its scripts call every
    command that scripts support, SET among them. *)
Lemma evalsha_ro_not_read_only :
  (forall cmd h, luaCall_gate "eval_ro" cmd = inr h -> h_ReadOnly h = true) /\
  (exists h, lookup_command "evalsha_ro" = Some h /\ h_ReadOnly h = true /\ h_Func h = Eval "evalsha") /\
  (forall cmd, luaCall_gate "evalsha" cmd = luaCall_gate "eval" cmd) /\
  (exists h, luaCall_gate "evalsha" "set" = inr h /\ h_ReadOnly h = false).
Proof.
  split; [|split; [by eexists|split; [done|by eexists]]].
  intros cmd h. unfold luaCall_gate. destruct (lookup_command _) as [h'|]; [|done].
  destruct (h_NoSupportScript h'); [done|]. change (HasSuffix "eval_ro" "ro") with true. cbn [andb].
  destruct (h_ReadOnly h') eqn:E; [|done]. by intros [= <-].
Qed.
