(* ===== verification/Acl.v ===== *)
(** Users and their rights (command/acl.go): the users a node knows, their records in the
    store, and the ACL command.

    The users a node knows ([Command.users]) are a map from names that is threaded through
    the handlers. SETUSER puts the user in this map before it applies the rules to the same
    user, so the map holds what the rules did when one of them fails. Passwords are sets;
    where the code goes through one, the order is Go's choice and here that of [elements]. *)

From stdpp Require Import sorting.
From S2P Require Import Prelude Xerror GoStd Utils Bitmap Sha Store Object Reply Client CommandTable.
From Stdlib Require Import Init.Byte.

#[local] Open Scope Z_scope.

Definition AclHelpCommand : string := "ACL HELP".

Definition USER_FLAG_ENABLED : Z := Z.shiftl 1 0.
Definition USER_FLAG_ALLKEYS : Z := Z.shiftl 1 1.
Definition USER_FLAG_ALLCHANNELS : Z := Z.shiftl 1 2.
Definition USER_FLAG_ALLCOMMANDS : Z := Z.shiftl 1 3.
Definition USER_FLAG_NOPASS : Z := Z.shiftl 1 4.
Definition UserFlagRoot : Z :=
  Z.lor (Z.lor (Z.lor USER_FLAG_ENABLED USER_FLAG_ALLKEYS) USER_FLAG_ALLCHANNELS) USER_FLAG_ALLCOMMANDS.
Definition UserFlagDefault : Z := Z.lor UserFlagRoot USER_FLAG_NOPASS.

Record User := mkUser {
  u_ID : Z; u_Name : bytes; u_Flag : Z; u_Passwords : gset bytes; u_Commands : Bitmap; u_Timestamp : Z
}.
Definition set_Flag (f : Z) (u : User) : User :=
  mkUser (u_ID u) (u_Name u) f (u_Passwords u) (u_Commands u) (u_Timestamp u).
Definition set_Passwords (p : gset bytes) (u : User) : User :=
  mkUser (u_ID u) (u_Name u) (u_Flag u) p (u_Commands u) (u_Timestamp u).
Definition set_Commands (b : Bitmap) (u : User) : User :=
  mkUser (u_ID u) (u_Name u) (u_Flag u) (u_Passwords u) b (u_Timestamp u).

Definition flag (u : User) (f : Z) : bool := negb (Z.land (u_Flag u) f =? 0).
Definition NoPass (u : User) : bool := flag u USER_FLAG_NOPASS.

(** [bitmap.New(MAX_COMMANDS)] *)
Definition no_commands : Bitmap := mkBitmap (replicate 16 0) MAX_COMMANDS.

Definition rootUser (root pass : bytes) : User :=
  mkUser 1 root UserFlagRoot {[Sha256Sum pass]} (SetFull no_commands) 0.
Definition defaultUser : User := mkUser 0 (bs "default") UserFlagDefault ∅ (SetFull no_commands) 0.

(** ** The users of the node (command.go) *)

Abbreviation Users := (gmap bytes User).

Definition SetLocalUsers (Root Default : User) (users : Users) : Users :=
  <[u_Name Default := Default]> (<[u_Name Root := Root]> users).
Definition SetLocalUser (u : User) (users : Users) : Users := <[u_Name u := u]> users.
Definition DelLocalUser (username : bytes) (users : Users) : Users := delete username users.
Definition GetLocalUser (username : bytes) (users : Users) : option User := users !! username.
Definition GetLocalUsers (users : Users) : list User := snd <$> map_to_list users.
Definition IsPassExist (pass : bytes) (users : Users) : bool :=
  existsb (fun u => bool_decide (pass ∈ u_Passwords u)) (GetLocalUsers users).

(** [sort.Sort(ByName(users))]: [Less] compares the wrong way around, so the names descend. *)
Definition by_name (a b : User) : Prop := ble (u_Name b) (u_Name a).
#[export] Instance by_name_dec a b : Decision (by_name a b) := ble_dec _ _.
Definition sort_users (l : list User) : list User := merge_sort by_name l.

(** ** Showing a user *)

(** [u.Commands.IsSet(handle.ID)] for every command; the bitmap covers the numbers. *)
Definition command_list (u : User) (set : bool) (sign : bytes) : bytes :=
  concat ((fun e => if Bool.eqb (default false (IsSet (u_Commands u) (h_ID (snd e)))) set
                    then bs " " ++ sign ++ bs (fst e) else []) <$> commands).

Definition commands_text (u : User) : bytes :=
  if flag u USER_FLAG_ALLCOMMANDS then bs "+@all" ++ command_list u false (bs "-")
  else bs "-@all" ++ command_list u true (bs "+").

Definition ListResp (u : User) (all : bool) : bytes :=
  (if all then FormatInt (u_ID u) ++ bs " " else []) ++ bs "user " ++ u_Name u ++
  (if flag u USER_FLAG_ENABLED then bs " on" else bs " off") ++
  (if flag u USER_FLAG_NOPASS then bs " nopass"
   else concat ((fun p => bs " #" ++ p) <$> elements (u_Passwords u))) ++
  (if flag u USER_FLAG_ALLKEYS then bs " ~*" else []) ++
  (if flag u USER_FLAG_ALLCHANNELS then bs " &*" else []) ++
  bs " " ++ commands_text u.

Definition GetResp (u : User) : reply :=
  let allKeys := flag u USER_FLAG_ALLKEYS in
  let flags :=
    [if flag u USER_FLAG_ENABLED then bs "on" else bs "off"] ++
    (if allKeys then [bs "allkeys"] else []) ++
    (if flag u USER_FLAG_ALLCHANNELS then [bs "allchannels"] else []) ++
    (if flag u USER_FLAG_ALLCOMMANDS then [bs "allcommands"] else []) ++
    (if flag u USER_FLAG_NOPASS then [bs "nopass"] else []) in
  RArr [RBulk (bs "flags"); RArr (RBulk <$> flags);
        RBulk (bs "passwords"); RArr (RBulk <$> elements (u_Passwords u));
        RBulk (bs "commands"); RBulk (commands_text u);
        RBulk (bs "keys"); RArr (if allKeys then [RBulk (bs "*")] else []);
        RBulk (bs "channels"); RBulk (bs "*")].

(** ** The record of a user *)

(** With the passwords in the order [ps]. A password is 64 hexadecimal digits and the bitmap
    has [MAX_COMMANDS / 64] words ([user_ok] of AclSpec.v), so each takes its 32 bytes and
    the words fill the rest. *)
Definition encode_user (ps : list bytes) (u : User) : bytes :=
  be_put 2 (u_ID u) ++ [z2b (u_Flag u)] ++ [z2b (len ps)] ++
  concat ((fun p => default (replicate 32 x00) (Bytes.GetHexDecode p)) <$> ps) ++
  concat (be_put 8 <$> GetSegments (u_Commands u)).
Definition UserEncode (u : User) : bytes := encode_user (elements (u_Passwords u)) u.

Fixpoint passwords_of (n : nat) (b : bytes) : list bytes :=
  match n with O => [] | S n => Bytes.HexEncode (take 32 b) :: passwords_of n (drop 32 b) end.
Fixpoint segments_of (n : nat) (b : bytes) : list Z :=
  match n with O => [] | S n => be_get (take 8 b) :: segments_of n (drop 8 b) end.

Definition UserDecode (b : bytes) (u : User) : error + User :=
  if len b <? 4 + MAX_COMMANDS / 8 then inl (ErrValueTooShort : error)
  else
    let n := b2z (nth 3 b x00) in
    if len b <? 4 + MAX_COMMANDS / 8 + n * 32 then inl (ErrValueTooShort : error)
    else inr (mkUser (be_get (take 2 b)) (u_Name u) (b2z (nth 2 b x00))
                (list_to_set (passwords_of (Z.to_nat n) (drop 4 b)))
                (SetSegments (segments_of 16 (drop (4 + Z.to_nat n * 32) b))) (u_Timestamp u)).

Definition GetDataUserPrefix : bytes := [UserPrefix].
Definition GetUserBytes (username : bytes) : bytes := UserPrefix :: username.
Definition new_user (username : bytes) : User := mkUser 0 username 0 ∅ (mkBitmap [] 0) 0.

(** ** Rules *)

(** The error of a rule. *)
Definition bad_rule {A} (rule : bytes) (e : error) : error + A :=
  inl (WrongModifier "acl setuser" (B2S rule) e).

Definition getPassword (rule : bytes) : error + bytes :=
  let password := drop 1 rule in
  if negb (len password =? 64) then bad_rule rule InvalidPassword
  else match Bytes.GetHexDecode password with
       | None => bad_rule rule InvalidPassword
       | Some _ => inr password
       end.

Section acl.
Context `{Platform}.

Definition GetUser (username : bytes) : M (error + User) :=
  let! r := Get (GetUserBytes username) in
  match r with
  | inl e => ret (inl e)
  | inr b => ret (UserDecode b (new_user username))
  end.

Definition DelUser (username : bytes) (users : Users) : M (option error * Users) :=
  let! err := Del (GetUserBytes username) in
  match err with
  | Some e => ret (Some e, users)
  | None => ret (None, DelLocalUser username users)
  end.

Definition SetUserCount (count : Z) : M (option error) :=
  Put (GetGeneralBytes CountGeneral UserPrefix) (be_put 2 count).

Definition GetUserCount : M (error + Z) :=
  let! r := Get (GetGeneralBytes CountGeneral UserPrefix) in
  match r with
  | inl KeyNotFound => ret (inr 2)
  | inl e => ret (inl e)
  | inr b =>
      if len b <? 2 then panic
      else let count := be_get (take 2 b) in ret (inr (if count <=? 1 then 2 else count))
  end.

(** A rule on the user, who is among [users] under its name. *)
Definition add_password (users : Users) (u : User) (rule password : bytes) : M (error + User) :=
  let! c := get_config in
  ret (if Z.of_nat (size (u_Passwords u)) >=? MaxPasswordsPerUser c then bad_rule rule ErrTooManyPasswords
       else if IsPassExist password (SetLocalUser u users) then bad_rule rule ErrInvalidPassword
       else inr (set_Passwords ({[password]} ∪ u_Passwords u) u)).

Definition remove_password (u : User) (rule password : bytes) : error + User :=
  if bool_decide (password ∈ u_Passwords u) then inr (set_Passwords (u_Passwords u ∖ {[password]}) u)
  else bad_rule rule ErrNotExistPassword.

(** [f] is [Bitmap.Add] or [Bitmap.Remove]. *)
Definition change_command (f : Bitmap -> Z -> option Bitmap) (u : User) (rule : bytes) : M (error + User) :=
  match lookup_command (B2S (drop 1 rule)) with
  | None => ret (bad_rule rule UnknownCommandInACL)
  | Some handle =>
      match f (u_Commands u) (h_ID handle) with
      | None => panic
      | Some b => ret (inr (set_Commands b u))
      end
  end.

Definition aclSetRule (users : Users) (u : User) (r : bytes) : M (error + User) :=
  let rule := ToLower r in
  let is_ (k : string) := bool_decide (rule = bs k) in
  let on (f : Z) := ret (inr (set_Flag (Z.lor (u_Flag u) f) u)) in
  let off (f : Z) := ret (inr (set_Flag (Z.ldiff (u_Flag u) f) u)) in
  if is_ "on" then on USER_FLAG_ENABLED
  else if is_ "off" then off USER_FLAG_ENABLED
  else if is_ "allkeys" || is_ "~*" then on USER_FLAG_ALLKEYS
  else if is_ "resetkeys" then off USER_FLAG_ALLKEYS
  else if is_ "allchannels" || is_ "&*" then on USER_FLAG_ALLCHANNELS
  else if is_ "resetchannels" then off USER_FLAG_ALLCHANNELS
  else if is_ "allcommands" || is_ "+@all" then
    ret (inr (set_Commands (SetFull (u_Commands u)) (set_Flag (Z.lor (u_Flag u) USER_FLAG_ALLCOMMANDS) u)))
  else if is_ "nocommands" || is_ "-@all" then
    ret (inr (set_Commands (SetEmpty (u_Commands u)) (set_Flag (Z.ldiff (u_Flag u) USER_FLAG_ALLCOMMANDS) u)))
  else if is_ "nopass" then on USER_FLAG_NOPASS
  else if is_ "resetpass" then off USER_FLAG_NOPASS
  else
    match rule with
    | [] => panic
    | c :: _ =>
        if Byte.eqb c x3e then add_password users u rule (Sha256Sum (drop 1 r))
        else if Byte.eqb c x23 then
          match getPassword r with
          | inl e => ret (inl e)
          | inr password => add_password users u rule password
          end
        else if Byte.eqb c x3c then ret (remove_password u rule (Sha256Sum (drop 1 r)))
        else if Byte.eqb c x21 then
          match getPassword r with
          | inl e => ret (inl e)
          | inr password => ret (remove_password u rule password)
          end
        else if Byte.eqb c x2b then change_command Add u rule
        else if Byte.eqb c x2d then change_command Remove u rule
        else ret (bad_rule rule ErrNotSupport)
    end.

(** The rules in order: the error, if one fails, with the user as far as it got. *)
Fixpoint set_rules (users : Users) (u : User) (rules : list bytes) : M (option error * User) :=
  match rules with
  | [] => ret (None, u)
  | r :: rules =>
      let! x := aclSetRule users u r in
      match x with
      | inl e => ret (Some e, u)
      | inr u => set_rules users u rules
      end
  end.

(** ** The ACL command *)

Definition AclHandler : Type := Users -> list bytes -> M (reply * Users).
Definition keep (users : Users) (m : M reply) : M (reply * Users) := let! r := m in ret (r, users).

Definition wrong_sub_args (cmd : string) : M reply :=
  let! e := SetWrongSubArgs cmd AclHelpCommand in ret (RErr e).

(** The name of a connection's user is no part of the modelled transaction. *)
Definition AclWhoami (UserName : bytes) : AclHandler := fun users args => ret (RStatus (B2S UserName), users).

Definition AclUsers : AclHandler := fun users args =>
  ret (RArr ((fun u => RBulk (u_Name u)) <$> sort_users (GetLocalUsers users)), users).

Definition AclList : AclHandler := fun users args =>
  let all := (len args >? 0) && lower_is (arg 0 args) "all" in
  ret (RArr ((fun u => RBulk (ListResp u all)) <$> sort_users (GetLocalUsers users)), users).

Definition AclGetUser : AclHandler := fun users args =>
  if negb (len args =? 1) then keep users (wrong_sub_args "getuser")
  else
    match GetLocalUser (arg 0 args) users with
    | None => ret (RNil, users)
    | Some u => ret (GetResp u, users)
    end.

Fixpoint del_users (users : Users) (names : list bytes) (count : Z) : M (reply * Users) :=
  match names with
  | [] => ret (RInt count, users)
  | username :: names =>
      let! r := GetUser username in
      match r with
      | inl KeyNotFound => del_users users names count
      | inl e => keep users (reply_err e)
      | inr _ =>
          let! (err, users) := DelUser username users in
          match err with
          | Some e => keep users (reply_err e)
          | None => del_users users names (count + 1)
          end
      end
  end.
Definition AclDelUser : AclHandler := fun users args =>
  if len args <? 1 then keep users (wrong_sub_args "deluser") else del_users users args 0.

Definition AclSetUser : AclHandler := fun users args =>
  if len args <? 1 then keep users (wrong_sub_args "setuser")
  else
    let username := arg 0 args in
    let apply (u : User) (created : option Z) : M (reply * Users) :=
      let! (err, u) := set_rules users u (drop 1 args) in
      let users := SetLocalUser u users in
      match err with
      | Some e => keep users (reply_err e)
      | None =>
          let! err := Put (GetUserBytes username) (UserEncode u) in
          match err, created with
          | Some e, _ => keep users (reply_err e)
          | None, None => ret (OK, users)
          | None, Some count =>
              let! err := SetUserCount (wrap_u 16 (count + 1)) in
              match err with Some e => keep users (reply_err e) | None => ret (OK, users) end
          end
      end in
    let! r := GetUser username in
    match r with
    | inl KeyNotFound =>
        let! r := GetUserCount in
        match r with
        | inl e => keep users (reply_err e)
        | inr count => apply (mkUser count username USER_FLAG_ALLCHANNELS ∅ no_commands 0) (Some count)
        end
    | inl e => keep users (reply_err e)
    | inr u => apply u None
    end.

Definition AclHandle (UserName : bytes) (Root : User) : AclHandler := fun users args =>
  if len args <? 1 then keep users (wrong_args "acl")
  else
    let! t := get_txn in
    let rootPermission := t_UserId t =? u_ID Root in
    let run : M (reply * Users) :=
      let subCommand := ToLower (arg 0 args) in
      let is_ (k : string) := bool_decide (subCommand = bs k) in
      let args := drop 1 args in
      if is_ "setuser" then AclSetUser users args
      else if is_ "getuser" then AclGetUser users args
      else if is_ "deluser" then AclDelUser users args
      else if is_ "whoami" then AclWhoami UserName users args
      else if is_ "list" then AclList users args
      else if is_ "users" then AclUsers users args
      else keep users (wrong_sub_args (B2S subCommand)) in
    if rootPermission then run
    else
      let! c := get_config in
      if negb (AclPermission c) then keep users (reply_err (WrongPermissionError "acl")) else run.

End acl.

(** ** Loading the users (with [watchUser], every two minutes) *)

Section load.
Context `{Clients}.

Definition list_callback (prefix : bytes) : Callback Users :=
  fun users key value =>
    let username := drop (length prefix) key in
    match UserDecode value (new_user username) with
    | inl _ => ret (users, true)
    | inr u => ret (<[username := u]> users, true)
    end.

Definition ListUsers (Root : User) (st : Store) : Run ((error + Users)) :=
  let cfg := GetConfig (u_ID Root) in
  run_bind (client_List GetDataUserPrefix (Bytes.PrefixNext GetDataUserPrefix) (MaxUsers cfg)
              (list_callback GetDataUserPrefix) ∅ st)
    (fun '(users, err) st =>
       match err with
       | None | Some ReachLimit => Finished (inr users) st
       | Some e => Finished (inl e) st
       end).

End load.

(** ** AUTH (connection.go) *)

(** The users in the order in which the loop meets them, and the one that matches. *)
Definition find_auth (users : list User) (username pass : bytes) : option User :=
  List.find (fun u => flag u USER_FLAG_ENABLED &&
    (bool_decide (username = []) || bool_decide (u_Name u = username)) &&
    bool_decide (pass ∈ u_Passwords u)) users.

Section auth.
Context `{Clients}.

Definition login (u : User) (t : Txn) : Txn :=
  {| t_txn := t_txn t; t_Multi := t_Multi t; t_Watch := t_Watch t; t_Exec := t_Exec t;
     t_Err := t_Err t; t_PendingErr := t_PendingErr t; t_Timestamp := t_Timestamp t;
     t_Now := t_Now t; t_ListLID := t_ListLID t; t_ListRID := t_ListRID t;
     t_Config := Some (GetConfig (u_ID u)); t_UserId := u_ID u; t_DBId := t_DBId t;
     t_PendingReq := t_PendingReq t; t_draws := t_draws t |}.

(** The reply, and the user the connection is logged in as ([txn.Auth], [txn.UserName]). *)
Definition AuthHandle (users : list User) (args : list bytes) : M (reply * option User) :=
  let fail (m : M reply) : M (reply * option User) := let! r := m in ret (r, None) in
  if len args <? 1 then fail (wrong_args "auth")
  else if len args >? 2 then fail (reply_err ErrSyntax)
  else
    let '(username, password) := if len args =? 1 then ([], arg 0 args) else (arg 0 args, arg 1 args) in
    match find_auth users username (Sha256Sum password) with
    | Some u => let! _ := modify (login u) in ret (OK, Some u)
    | None => fail (reply_err WRONGPASS)
    end.

End auth.
