(* ===== verification/ServerCmd.v ===== *)
(** command/server.go, command/sentinel.go and OBJECT of command/object.go: FLUSHALL and
    FLUSHDB, which delete through the client of the server and not through the transaction
    of the command, and the commands that tell about a server, a database or a key. *)

From stdpp Require Import sorting.
From S2P Require Import Prelude Xerror GoStd Utils Store Ranges Client Object Reply HashCmd Acl Transaction.
From Stdlib Require Import Init.Byte Strings.Byte.

#[local] Open Scope Z_scope.

(** ** FLUSHALL and FLUSHDB *)

(** TiKV's placement driver: whether its addresses are configured (there is a real cluster),
    the stores with whether they are up, the request to a store to destroy a range, with
    whether it was answered without an error, and the notification of the regions. *)
Class PlacementDriver `{Platform} := {
  PDAddrs : bool;
  GetAllStores : Z -> error + list (bool * Z);
  UnsafeDestroyRange : Z -> bytes -> bytes -> Cluster -> bool * Cluster;
  NotifyDeleteRange : Z -> bytes -> bytes -> option error
}.

(** What the handlers read of the command and of the user: [Root.ID], [txn.Config]'s
    FlushPermission, and the users of the node. *)
Record FlushEnv := { fl_Root : Z; fl_Permission : bool; fl_users : Users }.

Section flush.
Context `{Clients} `{!PlacementDriver}.

(** The requests to the stores that are up; whether one failed. *)
Fixpoint destroy_all (stores : list (bool * Z)) (start end_ : bytes) (failed : bool) (c : Cluster) : bool * Cluster :=
  match stores with
  | [] => (failed, c)
  | (up, id) :: stores =>
      if negb up then destroy_all stores start end_ failed c
      else
        let '(ok, c) := UnsafeDestroyRange id start end_ c in
        destroy_all stores start end_ (failed || negb ok) c
  end.

Definition UnsafeDeleteRange (n : nat) (conf : Config) (startKey endKey : bytes) (st : Store) : Run (option error) :=
  if negb PDAddrs then DelteRange n conf startKey endKey (Finished tt) st
  else
    let st := access st in
    match GetAllStores (snd st) with
    | inl e => Finished (Some e) st
    | inr stores =>
        let '(failed, c) := destroy_all stores startKey endKey false (fst st) in
        if failed then Finished (Some UnsafeDestroyRangeFailed) (c, snd st)
        else
          match NotifyDeleteRange (snd st) startKey endKey with
          | Some _ => Finished (Some UnsafeDestroyRangeFailed) (c, snd st)
          | None => Finished None (c, snd st)
          end
    end.

Definition getFlushUserId (env : FlushEnv) (UserId : Z) (args : list bytes) : error + Z :=
  if negb (UserId =? fl_Root env) && negb (fl_Permission env) then inl (WrongPermissionError "flush")
  else
    match args with
    | [a] =>
        let str := ToLower a in
        if bool_decide (str = bs "async") || bool_decide (str = bs "sync") then inr UserId
        else if UserId =? fl_Root env then
          match Atoi str with
          | Some userId => inr (wrap_u 16 userId)
          | None =>
              match GetLocalUser str (fl_users env) with
              | None => inl (WrongUsernameError (B2S str))
              | Some user => inr (u_ID user)
              end
          end
        else inr UserId
    | _ => inr UserId
    end.

(** The ranges of some prefixes, one after the other. *)
Fixpoint delete_prefixes (n : nat) (conf : Config) (prefixes : list bytes) (st : Store) : Run (option error) :=
  match prefixes with
  | [] => Finished None st
  | start :: prefixes =>
      run_bind (UnsafeDeleteRange n conf start (Bytes.PrefixNext start) st) (fun err st =>
        match err with
        | Some e => Finished (Some e) st
        | None => delete_prefixes n conf prefixes st
        end)
  end.

Definition flush_indexes : list Init.Byte.byte := [DataPrefix; CountPrefix; TTLPrefix].

Definition flush_handle (name : string) (prefix : Init.Byte.byte -> Z -> bytes) (n : nat) (conf : Config) (env : FlushEnv)
    (args : list bytes) (t : Txn) (st : Store) : Run (error + reply) :=
  if len args >? 1 then Finished (inl (WrongArgsError name)) st
  else
    match getFlushUserId env (t_UserId t) args with
    | inl e => Finished (inl e) st
    | inr deleteId =>
        run_bind (delete_prefixes n conf ((fun typo => prefix typo deleteId) <$> flush_indexes) st) (fun err st =>
          match err with
          | Some e => Finished (inl e) st
          | None => Finished (inr OK) st
          end)
    end.

Definition FlushAllHandle (n : nat) (conf : Config) (env : FlushEnv) (args : list bytes) (t : Txn) : Store -> Run (error + reply) :=
  flush_handle "flushall" GetUserPrefix n conf env args t.
Definition FlushDBHandle (n : nat) (conf : Config) (env : FlushEnv) (args : list bytes) (t : Txn) : Store -> Run (error + reply) :=
  flush_handle "flushdb" (fun typo deleteId => GetUserDBPrefix typo deleteId (t_DBId t)) n conf env args t.

End flush.

(** ** TIME, DBSIZE, ROLE *)

Section info.
Context `{Platform}.

Definition TimeHandle : TxnHandle := fun args =>
  if len args >? 0 then wrong_args "time"
  else
    let! t := get_txn in
    ret (RArr [RBulk (FormatInt (go_div (t_Now t) 1000)); RBulk (FormatInt (go_rem (t_Now t) 1000))]).

Definition DBSizeHandle : TxnHandle := fun args =>
  if len args >? 0 then wrong_args "dbsize"
  else
    let! t := get_txn in
    val! counts := ListCount (t_UserId t) (t_DBId t) CountGeneral KEYSIZE else reply_err in
    ret (RInt (foldl (fun count v => i64 (count + c_Value v)) 0 counts)).

Definition RoleHandle : TxnHandle := fun args => ret (RArr [RBulk (bs "master"); RBulk (bs "21625300"); RArr []]).

(** ** OBJECT *)

(** [Object.ObjectEncoding] and its name. *)
Inductive ObjectEncoding := EncodingRaw | EncodingEmbstr.
Definition EncodingOf (o : Object) : ObjectEncoding := if beq (o_Type o) StringType then EncodingEmbstr else EncodingRaw.
Definition EncodingName (e : ObjectEncoding) : string :=
  match e with EncodingRaw => "raw" | EncodingEmbstr => "embstr" end.

(** [string(b)] of a byte: its code point in UTF-8. *)
Definition rune_text (b : Init.Byte.byte) : bytes :=
  if b2z b <? 128 then [b] else [z2b (Z.lor 192 (Z.shiftr (b2z b) 6)); z2b (Z.lor 128 (Z.land (b2z b) 63))].

(** [uuid_text] is [String] of the UUID that [FromBytes] makes of a value. *)
Context (uuid_text : bytes -> bytes).

Definition Object_Info (o : Object) : bytes :=
  bs "user:" ++ FormatInt (o_UserId o) ++ bs ", db:" ++ FormatInt (o_Db o) ++ bs ", type: " ++ rune_text (o_Type o) ++
  bs ", ttl:" ++ FormatInt (o_TTL o) ++ bs ", timestamp: " ++ FormatUint (o_Timestamp o) ++ bs ", value: " ++
  (if IsSimple o then sl (o_Value o) else uuid_text (sl (o_Value o))).

Definition objectHelpInfo : list string := [
  "OBJECT <subcommand> [<arg> [value] [opt] ...]. Subcommands are:";
  "ENCODING <key>";
  "    Return the kind of internal representation used in order to store the value";
  "    associated with a <key>.";
  "FREQ <key>";
  "    Return the access frequency index of the <key>. The returned integer is";
  "    proportional to the logarithm of the recent access frequency of the key.";
  "IDLETIME <key>";
  "    Return the idle time of the <key>, that is the approximated number of";
  "    seconds elapsed since the last access to the key.";
  "REFCOUNT <key>";
  "    Return the number of references of the value associated with the specified";
  "    <key>.";
  "HELP";
  "    Prints this help."]%string.

(** The entries of the value that OBJECT SCAN shows; an error of the listing is ignored. *)
Definition object_scan (o : Object) (num : Z) : M (list bytes) :=
  let start := GetValueBytes o [] in
  let! (rets, _) := List start (Bytes.PrefixNext start) num
    (fun rets key value =>
       if len key <? len start then ret (rets, false)
       else ret (rets ++ [bs "key: " ++ drop (length start) key ++ bs ", value: " ++ decoded_value value], true))
    [Object_Info o] in
  ret rets.

Definition ObjectHandle : TxnHandle := fun args =>
  if len args =? 0 then wrong_args "object"
  else
    let sub := arg 0 args in
    let wrong : M reply := let! e := SetWrongSubArgs (B2S (ToLower sub)) "OBJECT HELP" in ret (RErr e) in
    if (len args =? 1) && lower_is sub "help" then ret (RArr (RBulk ∘ bs <$> objectHelpInfo))
    else if len args <? 2 then wrong
    else
      let! object := NewObject UnknownType (arg 1 args) in
      let! (object, err) := getTxnObject (ObjectKeyBytes object) object false in
      match err with
      | Some _ => ret RNil
      | None =>
          if lower_is sub "encoding" then ret (RStatus (EncodingName (EncodingOf object)))
          else if lower_is sub "idletime" then
            let! t := get_txn in
            ret (RInt (go_div (i64 (t_Now t - ExtractPhysical (o_Timestamp object))) 1000))
          else if lower_is sub "refcount" then ret (RInt 0)
          else if lower_is sub "freq" then ret (RInt 0)
          else if lower_is sub "info" then ret (RStatus (B2S (Object_Info object)))
          else if lower_is sub "scan" then
            if IsSimple object then ret (RArr [RBulk (Object_Info object)])
            else if len args >? 2 then
              match Int.GetPositiveInt (arg 2 args) with
              | (_, Some _) => ret (RStatus "")
              | (num, None) => let! rets := object_scan object num in ret (RArr (RBulk <$> rets))
              end
            else let! rets := object_scan object 10 in ret (RArr (RBulk <$> rets))
          else wrong
      end.

End info.

(** ** SENTINEL *)

(** The fields of the default configuration that are read. *)
Record SentinelConfig := { sc_MasterName : bytes; sc_RunID : bytes; sc_Host : bytes; sc_RedisPort : Z }.

Section sentinel.
Context `{Platform} (cfg : SentinelConfig).

Definition texts (l : list bytes) : reply := RArr (RBulk <$> l).

Definition GetSentinel : list bytes :=
  [bs "name"; sc_RunID cfg; bs "ip"; sc_Host cfg; bs "port"; FormatInt (sc_RedisPort cfg); bs "runid"; sc_RunID cfg;
   bs "flags"; bs "sentinel"; bs "link-pending-commands"; bs "0"; bs "link-refcount"; bs "1";
   bs "last-ping-sent"; bs "0"; bs "last-ok-ping-reply"; bs "583"; bs "last-ping-reply"; bs "583";
   bs "down-after-milliseconds"; bs "30000"; bs "last-hello-message"; bs "1222"; bs "voted-leader"; bs "?";
   bs "voted-leader-epoch"; bs "0"].

Definition GetMaster : list bytes :=
  [bs "name"; sc_MasterName cfg; bs "ip"; sc_Host cfg; bs "port"; FormatInt (sc_RedisPort cfg); bs "runid"; sc_RunID cfg;
   bs "flags"; bs "master"; bs "link-pending-commands"; bs "0"; bs "link-refcount"; bs "1";
   bs "last-ping-sent"; bs "0"; bs "last-ok-ping-reply"; bs "0"; bs "last-ping-reply"; bs "735";
   bs "down-after-milliseconds"; bs "10000"; bs "info-refresh"; bs "100"; bs "role-reported"; bs "master";
   bs "role-reported-time"; bs "532439"; bs "config-epoch"; bs "0"; bs "num-slaves"; bs "0";
   bs "num-other-sentinels"; bs "0"; bs "quorum"; bs "0"; bs "failover-timeout"; bs "60000"; bs "parallel-syncs"; bs "1"].

(** A subcommand about the master of that name. *)
Definition about_master (name : string) (args : list bytes) (r : reply) : M reply :=
  if negb (len args =? 1) then wrong_args name
  else if bool_decide (ToLower (arg 0 args) = sc_MasterName cfg) then ret r
  else reply_err ErrNoSuchMaster.

Definition SlavesHandle (args : list bytes) : M reply := about_master "slaves" args EmptySlice.
Definition MasterByNameHandle (args : list bytes) : M reply :=
  about_master "get-master-addr-by-name" args (texts [sc_Host cfg; FormatInt (sc_RedisPort cfg)]).
Definition SentinelsHandle (args : list bytes) : M reply := about_master "sentinels" args EmptySlice.
Definition MasterHandle (args : list bytes) : M reply := about_master "master" args (texts GetMaster).
Definition MastersHandle (args : list bytes) : M reply :=
  if negb (len args =? 0) then wrong_args "master" else ret (RArr [texts GetMaster]).

Definition SentinelHandle : TxnHandle := fun args =>
  match args with
  | [] => wrong_args "sentinel"
  | sub :: args =>
      if lower_is sub "master" then MasterHandle args
      else if lower_is sub "slaves" then SlavesHandle args
      else if lower_is sub "masters" then MastersHandle args
      else if lower_is sub "get-master-addr-by-name" then MasterByNameHandle args
      else if lower_is sub "sentinels" then SentinelsHandle args
      else let! e := SetWrongSubArgs (B2S (ToLower sub)) "SENTINEL HELP" in ret (RErr e)
  end.

End sentinel.

(** ** What FLUSHALL and FLUSHDB delete *)

(** The user and the database a key belongs to, as the layout of keys says. *)
Definition owner (k : bytes) : option (Z * Z) :=
  match k with
  | typo :: hi :: lo :: db :: _ =>
      if existsb (Byte.eqb typo) flush_indexes then Some (be_get [hi; lo], b2z db) else None
  | _ => None
  end.

(** The keys of the indexes are as long as the layout says: headers, values, counters and
    entries of the expiry index begin with their index, their user and their database. *)
Definition laid_out (m : gmap bytes bytes) : Prop :=
  forall k typo, is_Some (m !! k) -> In typo flush_indexes -> head k = Some typo -> (4 <= length k)%nat.

(** Whose keys FLUSHALL and FLUSHDB delete: those of the user of the connection, unless it
    is root and names another one by number or by name. *)
Inductive flushes (env : FlushEnv) (own : Z) : list bytes -> Z -> Prop :=
  | flushes_own : flushes env own [] own
  | flushes_mode a : ToLower a ∈ [bs "async"; bs "sync"] -> flushes env own [a] own
  | flushes_user a : own <> fl_Root env -> flushes env own [a] own
  | flushes_number a n : own = fl_Root env -> ToLower a ∉ [bs "async"; bs "sync"] ->
      Atoi (ToLower a) = Some n -> flushes env own [a] (n mod 2 ^ 16)
  | flushes_name a u : own = fl_Root env -> ToLower a ∉ [bs "async"; bs "sync"] ->
      Atoi (ToLower a) = None -> GetLocalUser (ToLower a) (fl_users env) = Some u -> flushes env own [a] (u_ID u).

Lemma getFlushUserId_flushes env own args user :
  own = fl_Root env \/ fl_Permission env = true -> flushes env own args user ->
  getFlushUserId env own args = inr user /\ len args <= 1.
Proof.
  intros Hp Hf. unfold getFlushUserId.
  assert (negb (own =? fl_Root env) && negb (fl_Permission env) = false) as ->.
  { destruct Hp as [->| ->]; [by rewrite Z.eqb_refl|apply andb_false_r]. }
  assert (forall a, (bool_decide (ToLower a = bs "async") || bool_decide (ToLower a = bs "sync")) =
    bool_decide (ToLower a ∈ [bs "async"; bs "sync"])) as Hm.
  { intros a. rewrite <- bool_decide_or. apply bool_decide_ext. set_solver. }
  destruct Hf as [|a Ha|a Ha|a n Ho Ha En|a u Ho Ha En Eu]; [done|..]; (split; [|done]); cbv zeta; rewrite Hm.
  - by rewrite bool_decide_true.
  - destruct (Z.eqb_spec own (fl_Root env)); [done|]. by destruct (bool_decide _).
  - rewrite bool_decide_false by done. by rewrite Ho, Z.eqb_refl, En.
  - rewrite bool_decide_false by done. by rewrite Ho, Z.eqb_refl, En, Eu.
Qed.

Section spec.
Context `{Clients} `{!PlatformSpec} `{!ClusterSpec} `{!PlacementDriver}.

Lemma length_range_entries start end_ m : (length (range_entries start end_ m) <= size m)%nat.
Proof.
  unfold range_entries. rewrite merge_sort_Permutation, <- length_map_to_list. apply length_filter.
Qed.

(** Without a cluster the prefixes go one after the other, each with exactly its keys. *)
Lemma delete_prefixes_clears n conf ps st :
  PDAddrs = false -> alone -> cl_up (fst st) -> 0 < BatchLimit conf ->
  (forall k, is_Some (cl_data (fst st) !! k) -> len k < MAX_KEY_SIZE) -> (size (cl_data (fst st)) < n)%nat ->
  exists st', delete_prefixes n conf ps st = Finished None st' /\ cl_up (fst st') /\
    forall k, cl_data (fst st') !! k =
      if existsb (fun p => bytes_leb p k && bytes_ltb k (Bytes.PrefixNext p)) ps then None else cl_data (fst st) !! k.
Proof.
  intros Hpd Ha. revert st. induction ps as [|p ps IH]; intros st Hup Hl Hk Hn; cbn [delete_prefixes existsb].
  { by exists st. }
  unfold UnsafeDeleteRange. rewrite Hpd. cbn [negb].
  pose proof (length_range_entries p (Bytes.PrefixNext p) (cl_data (fst st))) as Hlen.
  destruct (DelteRange_ends n conf p (Bytes.PrefixNext p) (Finished tt) st) as (st1&Hup1&Hd1&->); [done..|lia|].
  cbn [run_bind]. assert (cl_data (fst st1) ⊆ cl_data (fst st)) as Hsub.
  { rewrite Hd1. apply map_subseteq_spec. intros k v. rewrite cleared_lookup. by destruct (_ && _). }
  destruct (IH st1) as (st'&E&Hup'&Hd').
  - done.
  - done.
  - intros k [v Hv]. apply Hk. exists v. by eapply lookup_weaken.
  - pose proof (map_subseteq_size _ _ Hsub). lia.
  - exists st'. split; [exact E|]. split; [done|]. intros k. rewrite Hd', Hd1, cleared_lookup.
    by destruct (_ && _), (existsb _ ps).
Qed.

Lemma byte_eqb_true a b : Byte.eqb a b = true <-> a = b.
Proof. split; [apply Strings.Byte.byte_dec_bl|apply Strings.Byte.byte_dec_lb]. Qed.

Lemma existsb_fmap {A B} (f : A -> B) (p : B -> bool) l : existsb p (f <$> l) = existsb (p ∘ f) l.
Proof. induction l as [|x l IH]; [done|]. cbn. by rewrite IH. Qed.

Lemma existsb_ext_in {A} (f g : A -> bool) l : (forall x, In x l -> f x = g x) -> existsb f l = existsb g l.
Proof.
  induction l as [|x l IH]; intros Hfg; [done|]. cbn. rewrite Hfg by (by left). rewrite IH; [done|].
  intros y Hy. apply Hfg. by right.
Qed.

(** A key of the store is in the range of a prefix exactly when it begins with it. *)
Lemma in_prefix_range typo a m k :
  ~ Forall (fun x => x = xff) a -> (length a <= 3)%nat -> In typo flush_indexes -> laid_out m -> is_Some (m !! k) ->
  bytes_leb (typo :: a) k && bytes_ltb k (Bytes.PrefixNext (typo :: a)) = has_prefix (typo :: a) k.
Proof.
  intros Ha Hl Hin Hm Hk. apply eq_true_iff_eq. rewrite andb_true_iff, bytes_leb_spec, bytes_ltb_spec.
  assert (~ Forall (fun x => x = xff) (typo :: a)) as Hp by (by intros [_ ?]%Forall_cons). split.
  - intros [Hge Hlt]. apply Bytes.PrefixNext_range_prefix; [done| |done|done].
    change (typo :: a) with ([typo] ++ a) in Hge, Hlt. rewrite PrefixNext_app in Hlt by done.
    pose proof (between_prefix _ _ _ _ Hge Hlt) as [d ->]%has_prefix_spec.
    specialize (Hm ([typo] ++ d) typo Hk Hin eq_refl). cbn [length app] in *. lia.
  - by apply Bytes.has_prefix_in_range.
Qed.

Lemma be_put2_not_ff user l : 0 <= user < 2 ^ 16 - 1 -> ~ Forall (fun x => x = xff) (be_put 2 user ++ l).
Proof.
  intros Hu [Hf _]%Forall_app. assert (be_put 2 user = [xff; xff]) as E.
  { pose proof (length_be_put 2 user) as Hl. destruct (be_put 2 user) as [|x [|y [|]]]; try done.
    by apply Forall_cons in Hf as [-> [-> _]%Forall_cons]. }
  pose proof (be_get_put 2 user) as Eg. rewrite E, Z.mod_small in Eg by (simpl; lia).
  change (be_get [xff; xff]) with 65535 in Eg. lia.
Qed.

(** The key [k] begins with the index, the user and [more]. *)
Lemma has_prefix_user typo user more x hi lo k : 0 <= user < 2 ^ 16 ->
  has_prefix (typo :: be_put 2 user ++ more) (x :: hi :: lo :: k) =
  Byte.eqb x typo && (be_get [hi; lo] =? user) && has_prefix more k.
Proof.
  intros Hu. apply eq_true_iff_eq. rewrite has_prefix_spec, !andb_true_iff, byte_eqb_true, Z.eqb_eq, has_prefix_spec.
  assert (exists a b, be_put 2 user = [a; b]) as (a&b&Eu).
  { pose proof (length_be_put 2 user) as Hl. destruct (be_put 2 user) as [|a [|b [|]]]; try done. by exists a, b. }
  assert (be_get [a; b] = user) as Eg by (rewrite <- Eu, be_get_put; apply Z.mod_small; simpl; lia).
  rewrite Eu. cbn [app]. split.
  - intros [d [= -> -> -> ->]]. split; [done|]. by exists d.
  - intros [[-> E] [d ->]]. exists d. rewrite <- E in Eg. pose proof (be_put_get [a; b]) as E1.
    pose proof (be_put_get [hi; lo]) as E2. cbn [length] in E1, E2. rewrite Eg in E1. congruence.
Qed.

Lemma flushed_keys user k m more : 0 <= user < 2 ^ 16 - 1 -> (length more <= 1)%nat -> laid_out m -> is_Some (m !! k) ->
  existsb (fun p => bytes_leb p k && bytes_ltb k (Bytes.PrefixNext p))
    ((fun typo => typo :: be_put 2 user ++ more) <$> flush_indexes)
  = match k with
    | typo :: hi :: lo :: k' =>
        existsb (Byte.eqb typo) flush_indexes && (be_get [hi; lo] =? user) && has_prefix more k'
    | _ => false
    end.
Proof.
  intros Hu Hm Hlaid Hk. rewrite existsb_fmap.
  rewrite (existsb_ext_in _ (fun typo => has_prefix (typo :: be_put 2 user ++ more) k)).
  2: { intros typo Hin. apply (in_prefix_range typo _ m); [by apply be_put2_not_ff| |done|done|done].
       rewrite length_app, length_be_put. lia. }
  destruct k as [|x [|hi [|lo k]]].
  1,2,3: apply not_true_iff_false; rewrite existsb_exists; intros (typo&Hin&Hp); apply has_prefix_spec in Hp as [d E];
    apply (f_equal length) in E; cbn [app length] in E; rewrite !length_app, length_be_put in E; cbn [length] in E; lia.
  unfold flush_indexes. cbn [existsb]. rewrite !has_prefix_user by lia.
  destruct (be_get [hi; lo] =? user), (has_prefix more k); by rewrite ?andb_true_r, ?andb_false_r.
Qed.

(** C13. FLUSHALL and FLUSHDB outside a cluster, while no other client writes to the store,
    whose keys have the lengths that the layout and TiKV allow, of a user that may flush
    (with more rounds than there are keys): they end with OK, and what is left is exactly what was there
    without the keys of that user (or of the one that root names; any but the last number),
    or, for FLUSHDB, of that user and the database of the connection: headers, values,
    counters and the expiry index go, whatever their number, and nothing of another user,
    another database or the accounts. *)
Theorem flush_clears n conf env (all : bool) args t st user :
  PDAddrs = false -> alone -> cl_up (fst st) -> 0 < BatchLimit conf ->
  (forall k, is_Some (cl_data (fst st) !! k) -> len k < MAX_KEY_SIZE) -> (size (cl_data (fst st)) < n)%nat ->
  laid_out (cl_data (fst st)) ->
  t_UserId t = fl_Root env \/ fl_Permission env = true -> flushes env (t_UserId t) args user ->
  0 <= user < 2 ^ 16 - 1 -> 0 <= t_DBId t < 2 ^ 8 ->
  exists st', (if all then FlushAllHandle else FlushDBHandle) n conf env args t st = Finished (inr OK) st' /\
    cl_up (fst st') /\
    forall k, cl_data (fst st') !! k =
      match owner k with
      | Some (u, db) => if (u =? user) && (all || (db =? t_DBId t)) then None else cl_data (fst st) !! k
      | None => cl_data (fst st) !! k
      end.
Proof.
  intros Hpd Ha Hup Hl Hk Hn Hlaid Hp Hf Hu Hdb. destruct (getFlushUserId_flushes _ _ _ _ Hp Hf) as [Eu Hargs].
  set (more := if all then [] else [z2b (t_DBId t)]).
  destruct (delete_prefixes_clears n conf ((fun typo => typo :: be_put 2 user ++ more) <$> flush_indexes) st)
    as (st'&E&Hup'&Hd); [done..|].
  exists st'. split; [|split; [done|]].
  - assert ((if all then FlushAllHandle else FlushDBHandle) n conf env args t st =
      run_bind (delete_prefixes n conf ((fun typo => typo :: be_put 2 user ++ more) <$> flush_indexes) st)
        (fun err st => match err with Some e => Finished (inl e) st | None => Finished (inr OK) st end)) as ->.
    { assert ((len args >? 1) = false) as Hg by lia.
      unfold more. by destruct all; unfold FlushAllHandle, FlushDBHandle, flush_handle; rewrite Hg, Eu. }
    by rewrite E.
  - intros k. rewrite Hd. destruct (cl_data (fst st) !! k) as [v|] eqn:Ev.
    2: { destruct (owner k) as [[u db]|]; [by repeat case_match|by case_match]. }
    rewrite (flushed_keys user k (cl_data (fst st)) more); [|done|unfold more; destruct all; simpl; lia|done|by exists v].
    unfold owner. destruct k as [|x [|hi [|lo [|db k]]]]; try done.
    + destruct (existsb (Byte.eqb x) flush_indexes) eqn:Ex; [|done]. exfalso. apply existsb_exists in Ex as (typo&Hin&Ex).
      apply byte_eqb_true in Ex as ->. specialize (Hlaid [typo; hi; lo] typo ltac:(by exists v) Hin eq_refl). simpl in Hlaid. lia.
    + destruct (existsb (Byte.eqb x) flush_indexes); cbn [andb]; [|done].
      destruct (be_get [hi; lo] =? user); cbn [andb]; [|done]. unfold more. destruct all; cbn [orb]; [done|].
      assert (has_prefix [z2b (t_DBId t)] (db :: k) = (b2z db =? t_DBId t)) as ->; [|done].
      apply eq_true_iff_eq. rewrite has_prefix_spec, Z.eqb_eq. split.
      * intros [d [= -> ->]]. rewrite b2z_z2b. apply Z.mod_small. lia.
      * intros E'. exists k. rewrite <- E'. by rewrite z2b_b2z.
Qed.

End spec.
