(* ===== verification/ConnCmd.v ===== *)
(** command/connection.go: SELECT, ECHO, PING, and CLIENT with what it shows and does of
    the other connections of the server: it reaches those of its own user alone, and CLIENT
    KILL closes exactly those that carry the name. *)

From stdpp Require Import gmap strings.
From S2P Require Import Prelude Xerror GoStd Utils Store Client Object Reply Pubsub Block.
From Stdlib Require Import Init.Byte.

#[local] Open Scope Z_scope.

(** ** The connection of the command alone *)

Section alone.
Context `{Clients}.

Definition with_DBId (db : Z) (t : Txn) : Txn :=
  {| t_txn := t_txn t; t_Multi := t_Multi t; t_Watch := t_Watch t; t_Exec := t_Exec t;
     t_Err := t_Err t; t_PendingErr := t_PendingErr t; t_Timestamp := t_Timestamp t;
     t_Now := t_Now t; t_ListLID := t_ListLID t; t_ListRID := t_ListRID t;
     t_Config := t_Config t; t_UserId := t_UserId t; t_DBId := db;
     t_PendingReq := t_PendingReq t; t_draws := t_draws t |}.

Definition SelectHandle : TxnHandle := fun args =>
  if negb (len args =? 1) then wrong_args "select"
  else
    match Int.GetNonnegativeInt64 (arg 0 args) with
    | (_, Some _) => reply_err ErrNotInteger
    | (index, None) =>
        let! t := get_txn in
        if index >=? MaxDBPerUser (GetConfig (t_UserId t)) then reply_err ErrDBIndexOutOfRange
        else let! _ := modify (with_DBId (wrap_u 8 index)) in ret OK
    end.

Definition EchoHandle : TxnHandle := fun args =>
  if negb (len args =? 1) then wrong_args "echo" else ret (RBulk (arg 0 args)).

Definition PONG : reply := RStatus "PONG".
Definition BUSYPONG : reply :=
  RStatus "BUSY Redis is busy running a script. You can only call SCRIPT KILL or SHUTDOWN NOSAVE.".

(** [num] is [GetWorkingScript] of the user's pool, [MaxPoolSize] the setting of it. *)
Definition PingHandle (num MaxPoolSize : Z) (InScript : bool) : TxnHandle := fun args =>
  if len args >? 1 then wrong_args "ping"
  else if (num >=? MaxPoolSize) && negb InScript then ret BUSYPONG
  else if len args =? 0 then ret PONG
  else ret (RBulk (arg 0 args)).

End alone.

(** ** The connections of the server *)

(** What [redcon.Conn] holds that CLIENT uses; times are nanoseconds. The channel
    [Trigger] has room for one value and is closed with the connection. *)
Record Peer := mkPeer {
  pr_Name : bytes;
  pr_UserId : Z;
  pr_UserName : bytes;
  pr_DBId : Z;
  pr_Blocked : bool;
  pr_closed : bool;
  pr_Trigger : option Trigger;
  pr_addr : bytes;
  pr_CreatedAt : Z;
  pr_UpdatedAt : Z;
  pr_LastCmd : list bytes
}.

(** [Server.conns], by the number of the connection. *)
Abbreviation Peers := (gmap Z Peer).

Definition set_Name (name : bytes) (p : Peer) : Peer :=
  mkPeer name (pr_UserId p) (pr_UserName p) (pr_DBId p) (pr_Blocked p) (pr_closed p) (pr_Trigger p) (pr_addr p)
    (pr_CreatedAt p) (pr_UpdatedAt p) (pr_LastCmd p).
Definition send_Trigger (x : Trigger) (p : Peer) : Peer :=
  mkPeer (pr_Name p) (pr_UserId p) (pr_UserName p) (pr_DBId p) (pr_Blocked p) (pr_closed p) (Some x) (pr_addr p)
    (pr_CreatedAt p) (pr_UpdatedAt p) (pr_LastCmd p).
Definition close_peer (p : Peer) : Peer :=
  if pr_closed p then p
  else mkPeer (pr_Name p) (pr_UserId p) (pr_UserName p) (pr_DBId p) (pr_Blocked p) true (pr_Trigger p) (pr_addr p)
         (pr_CreatedAt p) (pr_UpdatedAt p) (pr_LastCmd p).

(** How a handler ends, with the connections. *)
Inductive outcome :=
  | Answered (r : reply) (s : Peers)
  | Refused (e : error) (s : Peers)
  | Panics.

(** What the handlers read of the process and of the transaction: [Root.ID], the address
    of the server, the clock, the sizes of the hubs of the manager, [txn.ID], and of
    MULTI whether it is open and how many commands wait. *)
Record ClientEnv := {
  ce_Root : Z;
  ce_Addr : bytes;
  ce_Now : Z;
  ce_Channels : Z * Z;
  ce_ID : Z;
  ce_Multi : bool;
  ce_Pending : Z
}.

Section clients.
Context `{MapRange} (ce : ClientEnv).

(** [time.Time.Sub] saturates; the quotient is in seconds. *)
Definition seconds (since : Z) : Z :=
  go_div (Z.max MinInt64 (Z.min MaxInt64 (ce_Now ce - since))) 1000000000.

Definition command_name (cmd : list bytes) : bytes := match cmd with [] => [] | a :: _ => a end.

(** [ClientInfoFormat]. *)
Definition client_info (id : Z) (p : Peer) (flags : string) (sub psub multi : Z) : bytes :=
  let d n := FormatInt n in
  bs "id=" ++ d id ++ bs " addr=" ++ pr_addr p ++ bs " laddr=" ++ ce_Addr ce ++ bs " fd=" ++ d 0 ++ bs " " ++
  bs "name=" ++ pr_Name p ++ bs " age=" ++ d (seconds (pr_CreatedAt p)) ++
  bs " idle=" ++ d (seconds (pr_UpdatedAt p)) ++ bs " " ++
  bs "flags=" ++ bs flags ++ bs " db=" ++ d (pr_DBId p) ++ bs " sub=" ++ d sub ++ bs " psub=" ++ d psub ++
  bs " multi=" ++ d multi ++
  bs " qbuf=0 qbuf-free=0 argv-mem=0 obl=0 oll=0 omem=0 tot-mem=0 events=rq cmd=" ++ command_name (pr_LastCmd p) ++
  bs " user=" ++ pr_UserName p ++ bs " redir=-1" ++ [x0a].

Definition wrong_sub (sub : string) (s : Peers) : outcome := Refused (WrongSubArgsError "client" sub) s.

(** [me] is the connection of the transaction, [s !! ce_ID ce]. *)
Definition ClientIdHandle (args : list bytes) (s : Peers) : outcome :=
  if negb (len args =? 0) then wrong_sub "id" s else Answered (RInt (i64 (ce_ID ce))) s.

Definition ClientInfoHandle (me : Peer) (args : list bytes) (s : Peers) : outcome :=
  if negb (len args =? 0) then wrong_sub "info" s
  else
    let '(flags, multi) := if ce_Multi ce then ("x"%string, ce_Pending ce) else ("N"%string, -1) in
    let '(sub, psub) := ce_Channels ce in
    Answered (RBulk (client_info (ce_ID ce) me flags sub psub multi)) s.

Definition ClientSetNameHandle (args : list bytes) (s : Peers) : outcome :=
  if negb (len args =? 1) then wrong_sub "setname" s
  else Answered OK (alter (set_Name (arg 0 args)) (ce_ID ce) s).

Definition ClientGetNameHandle (me : Peer) (args : list bytes) (s : Peers) : outcome :=
  if negb (len args =? 0) then wrong_sub "getname" s else Answered (RBulk (pr_Name me)) s.

(** A user other than root and another than the owner of [p]. *)
Definition stranger (me p : Peer) : bool :=
  negb (pr_UserId me =? ce_Root ce) && negb (pr_UserId p =? pr_UserId me).

(** [Server.Conns]. *)
Definition Conns (s : Peers) : list (Z * Peer) := map_range (map_to_list s).

Definition list_line (e : Z * Peer) : bytes :=
  client_info (fst e) (snd e) (if pr_Blocked (snd e) then "b" else "N") 0 0 (-1).
Definition ClientListHandle (me : Peer) (args : list bytes) (s : Peers) : outcome :=
  Answered (RBulk (concat ((fun e => if stranger me (snd e) then [] else list_line e) <$> Conns s))) s.

Definition ClientUnblockHandle (me : Peer) (args : list bytes) (s : Peers) : outcome :=
  match args with
  | [] => wrong_sub "unblock" s
  | a :: more =>
      match Int.GetNonnegativeInt64 a with
      | (_, Some _) => Refused ErrNotInteger s
      | (id, None) =>
          match s !! id with
          | None => Answered (RInt 0) s
          | Some conn =>
              if stranger me conn then Refused (WrongPermissionError "client") s
              else if negb (pr_Blocked conn) then Answered (RInt 0) s
              else
                let trigger :=
                  match more with
                  | tr :: _ => if lower_is tr "error" then ErrorTrigger else TimeoutTrigger
                  | [] => TimeoutTrigger
                  end in
                if pr_closed conn then Panics
                else match pr_Trigger conn with
                     | Some _ => Answered (RInt 0) s
                     | None => Answered (RInt 1) (<[id := send_Trigger trigger conn]> s)
                     end
          end
      end
  end.

(** The options of CLIENT KILL; a word that is none of them is passed over. *)
Record kill_options := { ko_uid : Z; ko_username : bytes; ko_skipme : bool }.
Fixpoint kill_parse (args : list bytes) (o : kill_options) : error + kill_options :=
  match args with
  | [] => inr o
  | a :: args =>
      if lower_is a "id" then
        match args with
        | [] => inl (ErrSyntax : error)
        | x :: args =>
            match Int.GetNonnegativeInt64 x with
            | (_, Some _) => inl (ErrNotInteger : error)
            | (id, None) => kill_parse args {| ko_uid := id; ko_username := ko_username o; ko_skipme := ko_skipme o |}
            end
        end
      else if lower_is a "user" then
        match args with
        | [] => inl (ErrSyntax : error)
        | x :: args => kill_parse args {| ko_uid := ko_uid o; ko_username := x; ko_skipme := ko_skipme o |}
        end
      else if lower_is a "skipme" then
        match args with
        | [] => inl (ErrSyntax : error)
        | x :: args =>
            if lower_is x "yes" then
              kill_parse args {| ko_uid := ko_uid o; ko_username := ko_username o; ko_skipme := true |}
            else if lower_is x "no" then
              kill_parse args {| ko_uid := ko_uid o; ko_username := ko_username o; ko_skipme := false |}
            else inl (ErrSyntax : error)
        end
      else kill_parse args o
  end.

Fixpoint kill_loop (me : Peer) (o : kill_options) (conns : list (Z * Peer)) (count : Z) (s : Peers) : outcome :=
  match conns with
  | [] => Answered (RInt count) s
  | (id, conn) :: conns =>
      if ko_skipme o && (id =? ce_ID ce) then kill_loop me o conns count s
      else if stranger me conn then Refused (WrongPermissionError "client") s
      else if bool_decide (pr_Name conn = ko_username o) then
        kill_loop me o conns (count + 1) (alter close_peer id s)
      else kill_loop me o conns count s
  end.

(** With an ID the connection is asked whether it is closed, and not closed. *)
Definition ClientKillHandle (me : Peer) (args : list bytes) (s : Peers) : outcome :=
  match kill_parse args {| ko_uid := 0; ko_username := []; ko_skipme := true |} with
  | inl e => Refused e s
  | inr o =>
      if negb (ko_uid o =? 0) then
        if ko_skipme o && (ce_ID ce =? ko_uid o) then Answered (RInt 0) s
        else
          match s !! ko_uid o with
          | None => Answered (RInt 0) s
          | Some conn =>
              if stranger me conn then Refused (WrongPermissionError "client") s else Answered (RInt 1) s
          end
      else kill_loop me o (Conns s) 0 s
  end.

Definition ClientHandle (me : Peer) (args : list bytes) (s : Peers) : outcome :=
  match args with
  | [] => Refused (WrongArgsError "client") s
  | str :: args =>
      if lower_is str "id" then ClientIdHandle args s
      else if lower_is str "setname" then ClientSetNameHandle args s
      else if lower_is str "getname" then ClientGetNameHandle me args s
      else if lower_is str "info" then ClientInfoHandle me args s
      else if lower_is str "kill" then ClientKillHandle me args s
      else if lower_is str "list" then ClientListHandle me args s
      else if lower_is str "unblock" then ClientUnblockHandle me args s
      else Refused ErrSyntax s
  end.

End clients.

(** ** What CLIENT does to the connections *)

(** The connections after a handler. *)
Definition peers_after (r : outcome) : option Peers :=
  match r with Answered _ s | Refused _ s => Some s | Panics => None end.

Section spec.
Context `{MapRange} (ce : ClientEnv).

(** ** Isolation *)

(** Every connection of another user stays as it was. *)
Definition spares (me : Peer) (s s' : Peers) : Prop :=
  forall id p, s !! id = Some p -> stranger ce me p = true -> s' !! id = Some p.

Lemma spares_alter me f id s p :
  s !! id = Some p -> stranger ce me p = false -> spares me s (alter f id s).
Proof.
  intros E Hp id' p' E' Hp'. destruct (decide (id' = id)) as [->|]; [congruence|]. by rewrite lookup_alter_ne.
Qed.

Lemma kill_loop_spares me o conns count s s1 s' :
  (forall id p, (id, p) ∈ conns -> exists q, s1 !! id = Some q /\ stranger ce me q = stranger ce me p) ->
  (forall id p, s !! id = Some p -> exists q, s1 !! id = Some q /\ stranger ce me q = stranger ce me p) ->
  spares me s s1 -> peers_after (kill_loop ce me o conns count s1) = Some s' -> spares me s s'.
Proof.
  revert count s1. induction conns as [|[id conn] conns IH]; intros count s1 Hc Hs Hsp; cbn [kill_loop].
  { by intros [= ->]. }
  assert (forall id p, (id, p) ∈ conns -> exists q, s1 !! id = Some q /\ stranger ce me q = stranger ce me p) as Hc'
    by (intros; apply Hc; by right).
  destruct (ko_skipme o && (id =? ce_ID ce)); [by apply IH|].
  destruct (stranger ce me conn) eqn:Est; [by intros [= ->]|].
  destruct (bool_decide (pr_Name conn = ko_username o)); [|by apply IH].
  assert (forall id' p, (exists q, s1 !! id' = Some q /\ stranger ce me q = stranger ce me p) ->
    exists q, alter close_peer id s1 !! id' = Some q /\ stranger ce me q = stranger ce me p) as Halt.
  { intros id' p (q&Eq&Hq). destruct (decide (id' = id)) as [->|Hne].
    - exists (close_peer q). rewrite lookup_alter_eq, Eq. split; [done|]. rewrite <- Hq. unfold close_peer.
      by destruct (pr_closed q).
    - exists q. by rewrite lookup_alter_ne. }
  apply IH; [intros; apply Halt; by apply Hc'|intros; apply Halt; by apply Hs|].
  intros id' p' E' Hp'. rewrite lookup_alter_ne; [by apply Hsp|]. intros <-.
  destruct (Hc id conn ltac:(by left)) as (q&Eq&Hq). rewrite (Hsp _ _ E' Hp') in Eq. congruence.
Qed.

Lemma spares_refl me s : spares me s s.
Proof. by intros id p. Qed.
#[local] Hint Resolve spares_refl : core.

Lemma Conns_elem s id p : (id, p) ∈ Conns s <-> s !! id = Some p.
Proof. unfold Conns. by rewrite map_range_perm, elem_of_map_to_list. Qed.

(** C17. CLIENT of a user other than root leaves the connections of all other users
    alone, whatever its arguments and whether it answers or refuses: it neither renames,
    unblocks nor closes one of them. *)
Theorem client_isolated me args s s' id p :
  s !! ce_ID ce = Some me -> pr_UserId me <> ce_Root ce ->
  peers_after (ClientHandle ce me args s) = Some s' ->
  s !! id = Some p -> pr_UserId p <> pr_UserId me -> s' !! id = Some p.
Proof.
  intros Eme Hroot Hl Ep Hp.
  assert (stranger ce me p = true) as Hst.
  { unfold stranger. apply andb_true_iff. split; apply negb_true_iff, Z.eqb_neq; done. }
  assert (stranger ce me me = false) as Hme.
  { unfold stranger. rewrite Z.eqb_refl. apply andb_false_r. }
  clear Hp. revert id p Ep Hst. change (spares me s s').
  destruct args as [|str args]; cbn [ClientHandle peers_after] in Hl; [by injection Hl as <-|].
  destruct (lower_is str "id"); [unfold ClientIdHandle in Hl; destruct (negb _); by injection Hl as <-|].
  destruct (lower_is str "setname").
  { unfold ClientSetNameHandle in Hl. destruct (negb _); injection Hl as <-; [done|]. by eapply spares_alter. }
  destruct (lower_is str "getname"); [unfold ClientGetNameHandle in Hl; destruct (negb _); by injection Hl as <-|].
  destruct (lower_is str "info").
  { unfold ClientInfoHandle in Hl. destruct (negb _); [by injection Hl as <-|].
    destruct (ce_Multi ce), (ce_Channels ce); by injection Hl as <-. }
  destruct (lower_is str "kill").
  { unfold ClientKillHandle in Hl. destruct (kill_parse _ _) as [e|o]; [by injection Hl as <-|].
    destruct (negb _).
    - destruct (_ && _); [by injection Hl as <-|]. destruct (s !! ko_uid o) as [conn|]; [|by injection Hl as <-].
      destruct (stranger ce me conn); by injection Hl as <-.
    - eapply kill_loop_spares; [| |apply spares_refl|exact Hl].
      + intros id p Hin%Conns_elem. by exists p.
      + intros id p E. by exists p. }
  destruct (lower_is str "list"); [by injection Hl as <-|].
  destruct (lower_is str "unblock"); [|by injection Hl as <-].
  unfold ClientUnblockHandle in Hl. destruct args as [|a more]; [by injection Hl as <-|].
  destruct (Int.GetNonnegativeInt64 a) as [n [e|]]; [by injection Hl as <-|].
  destruct (s !! n) as [conn|] eqn:En; [|by injection Hl as <-].
  destruct (stranger ce me conn) eqn:Ec; [by injection Hl as <-|].
  destruct (negb _); [by injection Hl as <-|]. destruct (pr_closed conn); [done|].
  destruct (pr_Trigger conn); injection Hl as <-; [done|].
  intros id p Ep Hst. rewrite lookup_insert_ne; [done|]. intros <-. congruence.
Qed.

(** CLIENT LIST shows a user the connections of the same user, and root all. *)
Lemma client_list_own me args s :
  exists conns, ClientListHandle ce me args s = Answered (RBulk (concat (list_line ce <$> conns))) s /\
    conns ≡ₚ base.filter (fun e => stranger ce me (snd e) = false) (map_to_list s).
Proof.
  exists (base.filter (fun e => stranger ce me (snd e) = false) (Conns s)).
  split; [|unfold Conns; by rewrite map_range_perm]. unfold ClientListHandle. do 2 f_equal.
  induction (Conns s) as [|e l IH]; [done|]. rewrite filter_cons. cbn [fmap list_fmap concat].
  destruct (decide _) as [E|E].
  - rewrite E. cbn [fmap list_fmap concat]. by rewrite IH.
  - apply not_false_is_true in E. by rewrite E, IH.
Qed.

(** ** CLIENT KILL *)

Definition victim (o : kill_options) (e : Z * Peer) : bool :=
  negb (ko_skipme o && (fst e =? ce_ID ce)) && bool_decide (pr_Name (snd e) = ko_username o).

Lemma kill_loop_victims me o conns count s :
  (forall id p, (id, p) ∈ conns -> (ko_skipme o && (id =? ce_ID ce)) = true \/ stranger ce me p = false) ->
  exists s', kill_loop ce me o conns count s =
      Answered (RInt (count + len (base.filter (fun e => victim o e = true) conns))) s' /\
    forall id, s' !! id =
      if decide (id ∈ (base.filter (fun e => victim o e = true) conns).*1) then close_peer <$> s !! id else s !! id.
Proof.
  revert count s. induction conns as [|[id conn] conns IH]; intros count s Hc; cbn [kill_loop].
  { exists s. split; [cbn; unfold len; simpl; by rewrite Z.add_0_r|]. intros id.
    destruct (decide _) as [Hin|]; [|done]. by apply not_elem_of_nil in Hin. }
  assert (forall id p, (id, p) ∈ conns -> (ko_skipme o && (id =? ce_ID ce)) = true \/ stranger ce me p = false) as Hc'
    by (intros; apply Hc; by right).
  rewrite filter_cons. assert (victim o (id, conn) = negb (ko_skipme o && (id =? ce_ID ce)) && bool_decide (pr_Name conn = ko_username o)) as Hv by done.
  destruct (ko_skipme o && (id =? ce_ID ce)) eqn:Ek.
  { cbn [negb andb] in Hv. rewrite Hv, !decide_False by done. by apply IH. }
  destruct (Hc id conn ltac:(by left)) as [E|Est]; [congruence|]. rewrite Est. cbn [negb andb] in Hv. rewrite <- Hv.
  destruct (victim o (id, conn)); [|rewrite !decide_False by done; by apply IH].
  rewrite !(decide_True (P := true = true)) by done.
  destruct (IH (count + 1) (alter close_peer id s) Hc') as (s'&E&Hs'). exists s'. split.
  - rewrite E. do 2 f_equal. unfold len. cbn [length]. lia.
  - intros id'. rewrite Hs'. cbn [fmap list_fmap fst].
    destruct (decide (id' = id)) as [->|Hne].
    + rewrite lookup_alter_eq, (decide_True (P := id ∈ id :: _)) by (by left).
      destruct (decide _); [|done]. destruct (s !! id) as [p|]; [|done]. cbn. f_equal. unfold close_peer.
      by destruct (pr_closed p) eqn:Ep; [rewrite Ep|].
    + rewrite lookup_alter_ne by done. apply decide_ext. rewrite elem_of_cons. tauto.
Qed.

(** CLIENT KILL by name closes exactly the connections that carry the name, its own
    only with SKIPME no, and answers how many they are, in whatever order Go visits the
    connections, when they are all of the same user or the command is root's. *)
Lemma ClientKillHandle_closes me args s o :
  kill_parse args {| ko_uid := 0; ko_username := []; ko_skipme := true |} = inr o -> ko_uid o = 0 ->
  (forall id p, s !! id = Some p -> stranger ce me p = false) ->
  ClientKillHandle ce me args s =
  Answered (RInt (len (base.filter (fun e => victim o e = true) (map_to_list s))))
    (map_imap (fun id p => Some (if victim o (id, p) then close_peer p else p)) s).
Proof.
  intros Eo Eu Hs. unfold ClientKillHandle. rewrite Eo, Eu. cbn [negb Z.eqb].
  destruct (kill_loop_victims me o (Conns s) 0 s) as (s'&E&Hs').
  { intros id p Hin%Conns_elem. right. by eapply Hs. }
  assert (len (base.filter (fun e => victim o e = true) (Conns s)) =
    len (base.filter (fun e => victim o e = true) (map_to_list s))) as El.
  { unfold len, Conns. by rewrite map_range_perm. }
  rewrite E, Z.add_0_l, El. f_equal.
  apply map_eq. intros id. rewrite Hs', map_lookup_imap. destruct (s !! id) as [p|] eqn:Ep; cbn [fmap option_fmap option_map mbind option_bind].
  - destruct (decide _) as [Hin|Hin].
    + apply list_elem_of_fmap in Hin as ([id' p']&->&[Hv Hin]%list_elem_of_filter). cbn [fst] in *.
      apply Conns_elem in Hin. rewrite Ep in Hin. injection Hin as <-. by rewrite Hv.
    + destruct (victim o (id, p)) eqn:Hv; [|done]. exfalso. apply Hin. apply list_elem_of_fmap.
      exists (id, p). split; [done|]. apply list_elem_of_filter. split; [done|]. by apply Conns_elem.
  - by destruct (decide _).
Qed.

(** ** CLIENT KILL ID and CLIENT UNBLOCK *)

(** With an ID nothing is closed, although the answer says that one was. *)
Lemma kill_id_closes_none me id p s :
  0 < id -> id <> ce_ID ce -> in_i64 id -> s !! id = Some p -> stranger ce me p = false ->
  ClientHandle ce me [bs "KILL"; bs "ID"; FormatInt id] s = Answered (RInt 1) s.
Proof.
  intros Hid Hne Hr Ep Hst. unfold ClientHandle.
  change (lower_is (bs "KILL") "id") with false. change (lower_is (bs "KILL") "setname") with false.
  change (lower_is (bs "KILL") "getname") with false. change (lower_is (bs "KILL") "info") with false.
  change (lower_is (bs "KILL") "kill") with true. cbv iota.
  unfold ClientKillHandle. cbn [kill_parse]. change (lower_is (bs "ID") "id") with true. cbv iota.
  unfold Int.GetNonnegativeInt64. rewrite ParseInt_FormatInt by done.
  destruct (Z.ltb_spec id 0); [lia|]. cbn [kill_parse ko_uid ko_skipme andb].
  destruct (Z.eqb_spec id 0); [lia|]. cbn [negb]. destruct (Z.eqb_spec (ce_ID ce) id); [congruence|].
  by rewrite Ep, Hst.
Qed.

(** UNBLOCK of a connection that waits wakes it once: a second trigger finds the first. *)
Lemma unblock_wakes me id p s :
  0 <= id -> in_i64 id -> s !! id = Some p -> stranger ce me p = false -> pr_Blocked p = true ->
  pr_closed p = false ->
  ClientUnblockHandle ce me [FormatInt id] s =
  match pr_Trigger p with
  | Some _ => Answered (RInt 0) s
  | None => Answered (RInt 1) (<[id := send_Trigger TimeoutTrigger p]> s)
  end.
Proof.
  intros Hid Hr Ep Hst Hb Hc. unfold ClientUnblockHandle, Int.GetNonnegativeInt64. rewrite ParseInt_FormatInt by done.
  destruct (Z.ltb_spec id 0); [lia|]. by rewrite Ep, Hst, Hb, Hc.
Qed.

End spec.
