(* ===== verification/Gc.v ===== *)
(** command/gc.go: the collection of expired keys through the expiry index. *)

From S2P Require Import Prelude Xerror GoStd Utils Store Ranges Mem Client Object.
From Stdlib Require Import Init.Byte.

#[local] Open Scope Z_scope.

Section gc.
Context `{Clients}.

(** A task that [doGC] starts in a goroutine of its own: [Command.DelteRange] over a
    range with a callback. *)
Record job := { j_start : bytes; j_end : bytes; j_callback : Store -> Run unit }.

(** The variables of [doGC]. *)
Record gc_state := {
  gs_count : Z;
  gs_lastKey : option bytes;
  gs_o : option Object;
  gs_finish : bool;
  gs_workers : Z;
  gs_jobs : list job
}.

Definition gs_next (key : bytes) (st : gc_state) : gc_state :=
  {| gs_count := gs_count st + 1; gs_lastKey := Some key; gs_o := gs_o st;
     gs_finish := gs_finish st; gs_workers := gs_workers st; gs_jobs := gs_jobs st |}.
Definition gs_finished (st : gc_state) : gc_state :=
  {| gs_count := gs_count st; gs_lastKey := gs_lastKey st; gs_o := gs_o st;
     gs_finish := true; gs_workers := gs_workers st; gs_jobs := gs_jobs st |}.
Definition gs_object (key : option bytes) (o : Object) (st : gc_state) : gc_state :=
  {| gs_count := gs_count st; gs_lastKey := key; gs_o := Some o;
     gs_finish := gs_finish st; gs_workers := gs_workers st; gs_jobs := gs_jobs st |}.
Definition gs_start (j : job) (st : gc_state) : gc_state :=
  {| gs_count := gs_count st; gs_lastKey := gs_lastKey st; gs_o := gs_o st;
     gs_finish := gs_finish st; gs_workers := gs_workers st + 1; gs_jobs := gs_jobs st ++ [j] |}.

Definition GCMinus : Z := Z.lor MinusCount GCChange.

(** The callback of the deletion of a value: the key and its index entry go after the
    fields, in a transaction of their own. The error of its Commit is not looked at. *)
Definition gc_callback (uconf : Config) (object : Object) (ttlKey : bytes) (st : Store) : Run unit :=
  transaction (fun _ => tt)
    (let! _ := modify (with_Config uconf) in
     let! e := CleanKey (if len (o_Key object) =? 0 then [] else ObjectKeyBytes object) ttlKey object 0 GCMinus in
     match e with Some _ => ret (inl tt) | None => ret (inr tt) end)
    (fun _ _ => tt) st.

Definition value_job (object : Object) (ttlKey : bytes) : job :=
  let p := GetValueBytes object [] in
  {| j_start := p; j_end := Bytes.PrefixNext p;
     j_callback := gc_callback (GetConfig (o_UserId object)) object ttlKey |}.

(** The loop of [doGC]; the error ends it early, otherwise the result says whether
    the iterator is still valid. [TTLScanLimit] and [TTLWorkers] are the parameters of
    [config.GC]. *)
Fixpoint gc_loop (fuel : nat) (end_ : bytes) (now TTLScanLimit TTLWorkers : Z) (it : Iter) (st : gc_state) :
    M (gc_state * (error + bool)) :=
  match fuel with
  | O => diverge
  | S fuel =>
      let continue st :=
        if gs_count st >=? TTLScanLimit then ret (st, inr true)
        else match it_Next it with
             | (Some e, _) => ret (st, inl (Tikv e))
             | (None, it) => gc_loop fuel end_ now TTLScanLimit TTLWorkers it st
             end in
      if negb (it_Valid it) then ret (st, inr false)
      else
        let lastKey := it_Key it in
        let st := gs_next lastKey st in
        if bytes_leb end_ lastKey then ret (gs_finished st, inr true)
        else
          match GetObjectFromTTL lastKey (it_Value it) with
          | inl _ => let! _ := Del lastKey in continue st
          | inr object =>
              if o_TTL object >=? now then ret (gs_object None object st, inr true)
              else
                let st := gs_object (Some lastKey) object st in
                if len (sl (o_Value object)) >? 0 then
                  let st := gs_start (value_job object lastKey) st in
                  if gs_workers st >=? TTLWorkers then ret (st, inr true) else continue st
                else if len (o_Key object) >? 0 then
                  let! _ := modify (with_Config (GetConfig (o_UserId object))) in
                  do! CleanKey (ObjectKeyBytes object) lastKey object 0 GCMinus
                  else (fun e => ret (st, inl e)) in
                  continue st
                else continue st
          end
  end.

(** What [doGC] returns, beside the tasks it started. *)
Definition gc_result : Type := option bytes * option Object * option error.

Definition doGC (start end_ : bytes) (now TTLScanLimit TTLWorkers workers : Z) (s : Store) :
    Run (gc_result * list job) :=
  let failed st lastKey (e : error) := ((lastKey, None, Some e), gs_jobs st) in
  let init := {| gs_count := 0; gs_lastKey := None; gs_o := None; gs_finish := false;
                 gs_workers := workers; gs_jobs := [] |} in
  transaction (fun e => failed init None e)
    (let! it := IterOf start end_ false in
     match it with
     | inl e => ret (inl (failed init None e))
     | inr it =>
         let! (st, r) := gc_loop (S (it_size it)) end_ now TTLScanLimit TTLWorkers it init in
         match r with
         | inl e => ret (inl (failed st (gs_lastKey st) e))
         | inr valid => ret (inr (st, valid))
         end
     end)
    (fun '(st, valid) e =>
       match e with
       | Some e => failed st (gs_lastKey st) e
       | None =>
           if gs_finish st || negb valid then ((None, None, None), gs_jobs st)
           else match gs_lastKey st with
                | None => ((None, gs_o st, None), gs_jobs st)
                | Some lastKey => ((Some (Bytes.NextKey lastKey), gs_o st, None), gs_jobs st)
                end
       end)
    s.

(** Where [tickGC] continues after a round of [doGC]; [None] ends the sweep. *)
Definition tick_next (r : gc_result) : option bytes :=
  match r with
  | (_, _, Some _) => None
  | (Some lastKey, _, None) => Some lastKey
  | (None, Some o, None) => Some (GetUserDBPrefix TTLPrefix (o_UserId o) (wrap_u 8 (o_Db o + 1)))
  | (None, None, None) => None
  end.

(** The loop of [tickGC] while the server runs: [workers n] tasks are running when a
    round starts with [n] left (the loop waits until they are fewer than [TTLWorkers]). The
    tasks that were started are returned: they run on their own. [n] is fuel for the rounds. *)
Definition endGC : bytes := [x75].

Fixpoint tick_loop (n : nat) (workers : nat -> Z) (cur : bytes) (now TTLScanLimit TTLWorkers : Z)
    (s : Store) : Run (list job) :=
  match n with
  | O => RunDiverged
  | S n =>
      if bytes_ltb cur endGC then
        run_bind (doGC cur endGC now TTLScanLimit TTLWorkers (workers n) s)
          (fun '(r, jobs) s =>
             match tick_next r with
             | None => Finished jobs s
             | Some cur =>
                 run_bind (tick_loop n workers cur now TTLScanLimit TTLWorkers s)
                   (fun more s => Finished (jobs ++ more) s)
             end)
      else Finished [] s
  end.

End gc.
