(* ===== verification/GcSpec.v ===== *)
(** What the collector promises: it deletes only keys that the expiry index names as
    expired, it deletes all of them if it gets to the end, and where it jumps. *)

From S2P Require Import Prelude Xerror GoStd Utils Store Ranges Mem Client Object ObjectSpec Gc.
From Stdlib Require Import Init.Byte.

#[local] Open Scope Z_scope.

Section spec.
Context `{Clients} `{!PlatformSpec} `{!ClusterSpec}.

(** A transaction the collector can use, with any configuration. *)
Record gc_ready (t : Txn) : Prop := {
  gr_up : t_up t;
  gr_store : wf_store (t_view t);
  gr_now : 0 < t_Now t <= MaxInt64;
  gr_ts : in_u64 (t_Timestamp t);
  gr_ns : wf_ns (t_UserId t) (t_DBId t)
}.

(** Every user's configuration is usable. *)
Definition configs_ok : Prop :=
  forall u, 0 <= ObjectHash (GetConfig u) < 2 ^ 16 /\ 0 <= DbSizeHash (GetConfig u).

Lemma with_Config_ready t u :
  configs_ok -> gc_ready t -> ready (GetConfig u) (with_Config (GetConfig u) t).
Proof. intros Hc []. destruct (Hc u). by split. Qed.

Lemma ready_gc c t : ready c t -> gc_ready t.
Proof. intros []. by split. Qed.

Lemma gc_Del key t (Q : option error -> Txn -> Prop) :
  gc_ready t -> len key < MAX_KEY_SIZE ->
  (forall t', gc_ready t' -> kv_StartTS <$> t_txn t' = kv_StartTS <$> t_txn t ->
     dv t' = delete key (dv t) -> Q None t') ->
  wp (Del key) t Q.
Proof.
  intros Hr Hk HQ. apply wp_Del; [by apply gr_up|done|]. intros t' [He Hu Hv]. apply HQ.
  - destruct Hr. split; [done| | | |].
    + rewrite Hv. by apply wf_store_delete.
    + by rewrite (se_Now _ _ He).
    + by rewrite (se_Timestamp _ _ He).
    + by rewrite (se_UserId _ _ He), (se_DBId _ _ He).
  - apply (se_start _ _ He).
  - unfold dv. by rewrite Hv, dview_delete.
Qed.

(** *** One entry of the index *)

(** An entry that the collector may act on: expired, or not an entry at all. *)
Definition due (now : Z) (e : bytes * bytes) : Prop :=
  match GetObjectFromTTL (fst e) (snd e) with
  | inl _ => True
  | inr o => o_TTL o < now
  end.

(** What it deletes itself for an entry: the entry, and the key of a simple object. *)
Definition collects (now : Z) (e : bytes * bytes) (x : bytes) : Prop :=
  match GetObjectFromTTL (fst e) (snd e) with
  | inl _ => x = fst e
  | inr o => o_TTL o < now /\ len (sl (o_Value o)) = 0 /\ 0 < len (o_Key o) /\
             (x = fst e \/ x = ObjectKeyBytes o)
  end.

(** The task it starts for an entry: the deletion of a value. *)
Definition starts (now : Z) (e : bytes * bytes) (j : job) : Prop :=
  match GetObjectFromTTL (fst e) (snd e) with
  | inl _ => False
  | inr o => o_TTL o < now /\ 0 < len (sl (o_Value o)) /\ j = value_job o (fst e)
  end.

(** Nothing changes but that some keys of [T] are gone. *)
Definition removed (T : bytes -> Prop) (d d' : gmap bytes bytes) : Prop :=
  forall x, d' !! x = d !! x \/ (d' !! x = None /\ T x).

Lemma removed_refl T d : removed T d d.
Proof. by left. Qed.

Lemma removed_trans (T1 T2 T : bytes -> Prop) d1 d2 d3 :
  removed T1 d1 d2 -> removed T2 d2 d3 -> (forall x, T1 x -> T x) -> (forall x, T2 x -> T x) ->
  removed T d1 d3.
Proof.
  intros Hr1 Hr2 Ht1 Ht2 x. destruct (Hr1 x) as [E1|[E1 ?]], (Hr2 x) as [E2|[E2 ?]];
    [left|right|right|right]; rewrite ?E2, ?E1; auto.
Qed.

Lemma removed_None T d d' x : removed T d d' -> d !! x = None -> d' !! x = None.
Proof. intros Hr E. destruct (Hr x) as [->|[-> _]]; done. Qed.

Lemma removed_delete (T : bytes -> Prop) d k : T k -> removed T d (delete k d).
Proof.
  intros Hk x. destruct (decide (x = k)) as [->|Hn].
  - right. split; [apply lookup_delete_eq|done].
  - left. by apply lookup_delete_ne.
Qed.

(** An entry has been dealt with between [t], [st] and [t1], [st1]. *)
Record gc_step (now : Z) (e : bytes * bytes) (t t1 : Txn) (st st1 : gc_state) : Prop := {
  s_ready : gc_ready t1;
  s_start : kv_StartTS <$> t_txn t1 = kv_StartTS <$> t_txn t;
  s_removed : removed (collects now e) (dv t) (dv t1);
  s_jobs : exists js, gs_jobs st1 = gs_jobs st ++ js /\ Forall (starts now e) js;
  s_finish : gs_finish st1 = gs_finish st;
  s_last : gs_lastKey st1 = Some (fst e);
  s_gone : due now e /\ (forall x, collects now e x -> dv t1 !! x = None);
  s_started : forall j, starts now e j -> j ∈ gs_jobs st1
}.

(** What the loop leaves when it has run over the entries [l]. *)
Record gc_post (now : Z) (l : list (bytes * bytes)) (t : Txn) (st : gc_state)
    (p : gc_state * (error + bool)) (t' : Txn) : Prop := {
  p_ready : gc_ready t';
  p_start : kv_StartTS <$> t_txn t' = kv_StartTS <$> t_txn t;
  p_returns : exists valid, snd p = inr valid;
  p_removed : removed (fun x => exists e, e ∈ l /\ collects now e x) (dv t) (dv t');
  p_jobs : exists js, gs_jobs (fst p) = gs_jobs st ++ js /\
             Forall (fun j => exists e, e ∈ l /\ starts now e j) js;
  p_finish : gs_finish (fst p) = gs_finish st;
  p_stop : snd p = inr true -> gs_lastKey (fst p) = None ->
             exists e o, e ∈ l /\ gs_o (fst p) = Some o /\ GetObjectFromTTL (fst e) (snd e) = inr o /\ now <= o_TTL o;
  p_done : snd p = inr false -> Forall (fun e => due now e /\
             (forall x, collects now e x -> dv t' !! x = None) /\
             (forall j, starts now e j -> j ∈ gs_jobs (fst p))) l
}.

Lemma gc_post_nil now t st : gc_ready t -> gc_post now [] t st (st, inr false) t.
Proof.
  intros Hr. split; try done; [by exists false|apply removed_refl| ].
  exists []. by rewrite app_nil_r.
Qed.

(** The loop stops at an entry. *)
Lemma gc_post_stop now e l t st o :
  gc_ready t -> GetObjectFromTTL (fst e) (snd e) = inr o -> now <= o_TTL o ->
  gc_post now (e :: l) t st (gs_object None o (gs_next (fst e) st), inr true) t.
Proof.
  intros Hr Eo Ho. split; try done; [by exists true|apply removed_refl| |].
  - exists []. by rewrite app_nil_r.
  - intros _ _. exists e, o. split; [by left|done].
Qed.

Lemma gc_post_stop_step now e l t t1 st st1 :
  gc_step now e t t1 st st1 -> gc_post now (e :: l) t st (st1, inr true) t1.
Proof.
  intros [Hr Hs Hd (js&Ej&Hj) Hf Hlast Hg Hst]. split; try done; [by exists true| | |].
  3: { cbn [fst]. by rewrite Hlast. }
  - intros x. destruct (Hd x) as [|[? ?]]; [by left|]. right. split; [done|]. exists e. by split; [left|].
  - exists js. split; [done|]. eapply Forall_impl; [exact Hj|]. intros j Hs'. exists e. by split; [left|].
Qed.

Lemma gc_post_cons now e l t t1 st st1 p t' :
  gc_step now e t t1 st st1 -> gc_post now l t1 st1 p t' -> gc_post now (e :: l) t st p t'.
Proof.
  intros [Hr Hs Hd (js&Ej&Hj) Hf Hlast [Hdue Hg] Hst] [Pr Ps Pv Pd (js'&Ej'&Hj') Pf Pst Pg].
  split; [done|by rewrite Ps|done| | |by rewrite Pf| |].
  - eapply removed_trans; [exact Hd|exact Pd| |]; cbn.
    + intros x Hx. exists e. by split; [left|].
    + intros x (e'&He'&Hx). exists e'. by split; [right|].
  - exists (js ++ js'). split; [by rewrite Ej', Ej, app_assoc|]. apply Forall_app. split.
    + eapply Forall_impl; [exact Hj|]. intros j Hx. exists e. by split; [left|].
    + eapply Forall_impl; [exact Hj'|]. intros j (e'&He'&Hx). exists e'. by split; [right|].
  - intros E1 E2. destruct (Pst E1 E2) as (e'&o&He'&Ho). exists e', o. by split; [right|].
  - intros E. constructor; [|by apply Pg]. split; [done|]. split.
    + intros x Hx. eapply removed_None; [exact Pd|by apply Hg].
    + intros j Hx. rewrite Ej'. apply elem_of_app. left. by apply Hst.
Qed.

(** *** The loop *)

(** The key of a simple object and its entry are deleted. *)
Lemma wp_gc_CleanKey u o ttlKey t (Q : option error -> Txn -> Prop) :
  configs_ok -> gc_ready t -> len (sl (o_Value o)) = 0 ->
  len (ObjectKeyBytes o) < MAX_KEY_SIZE -> 0 < len ttlKey < MAX_KEY_SIZE ->
  (forall t', gc_ready t' -> kv_StartTS <$> t_txn t' = kv_StartTS <$> t_txn t ->
     dv t' = delete ttlKey (delete (ObjectKeyBytes o) (dv t)) -> Q None t') ->
  wp (CleanKey (ObjectKeyBytes o) ttlKey o 0 GCMinus) (with_Config (GetConfig u) t) Q.
Proof.
  intros Hc Hr Hv Hk Ht HQ. pose proof (with_Config_ready t u Hc Hr) as Hr0.
  unfold CleanKey. pose proof (len_ObjectKeyBytes o) as Hlk. pose proof (len_nonneg (o_Key o)).
  destruct (Z.gtb_spec (len (ObjectKeyBytes o)) 0) as [_|]; [|lia].
  apply wp_on_done, (wp_setTxnObject_del (GetConfig u)); [done|done|done|]. intros t1 Hw1.
  destruct (Z.gtb_spec (len ttlKey) 0) as [_|]; [|lia].
  apply wp_on_done, (wp_data_Del (GetConfig u)); [apply Hw1|lia|]. intros t2 Hw2.
  destruct (Z.gtb_spec (len (sl (o_Value o))) 0) as [|_]; [lia|]. rewrite andb_false_r.
  assert (dwrote (GetConfig u) (with_Config (GetConfig u) t) t2
            (delete ttlKey (delete (ObjectKeyBytes o) (dv t)))) as [He Hr2 Hd].
  { by eapply (dwrote_then _ _ _ _ _ (delete ttlKey)). }
  apply HQ; [by eapply ready_gc|apply (se_start _ _ He)|done].
Qed.

Lemma len_index_key k v o : GetObjectFromTTL k v = inr o -> 13 <= len k /\ len (o_Key o) <= len k - 13.
Proof.
  unfold GetObjectFromTTL. destruct (len k <? 13) eqn:E; [done|]. apply Z.ltb_ge in E.
  intros Ho. split; [done|]. revert Ho.
  repeat case_match; try done; intros [= <-]; cbn [o_Key set_o_Key set_o_Value];
    unfold len in *; rewrite ?length_drop; simpl; lia.
Qed.

(** The four kinds of entries. *)
Section entry.
Context (now : Z) (k v : bytes) (t t1 : Txn) (st st1 : gc_state).
Hypothesis (Hr : gc_ready t1) (Hs : kv_StartTS <$> t_txn t1 = kv_StartTS <$> t_txn t).
Hypothesis (Hf : gs_finish st1 = gs_finish st) (Hlast : gs_lastKey st1 = Some k).

Lemma gc_step_invalid err :
  GetObjectFromTTL k v = inl err -> gs_jobs st1 = gs_jobs st -> dv t1 = delete k (dv t) ->
  gc_step now (k, v) t t1 st st1.
Proof using Hr Hs Hf Hlast.
  intros Eo Ej Hd. split; [done|done| |exists []; by rewrite Ej, app_nil_r|done|done| |].
  - rewrite Hd. apply removed_delete. unfold collects. cbn [fst snd]. by rewrite Eo.
  - split; [unfold due; cbn [fst snd]; by rewrite Eo|]. intros x. unfold collects. cbn [fst snd]. rewrite Eo.
    intros ->. rewrite Hd. apply lookup_delete_eq.
  - intros j. unfold starts. cbn [fst snd]. by rewrite Eo.
Qed.

Context (o : Object).
Hypothesis (Eo : GetObjectFromTTL k v = inr o) (Hdue : o_TTL o < now).

Lemma entry_due : due now (k, v).
Proof using Eo Hdue. unfold due. cbn [fst snd]. by rewrite Eo. Qed.

Lemma gc_step_value :
  0 < len (sl (o_Value o)) -> gs_jobs st1 = gs_jobs st ++ [value_job o k] -> dv t1 = dv t ->
  gc_step now (k, v) t t1 st st1.
Proof using Hr Hs Hf Hlast Eo Hdue.
  intros Hv Ej Hd. split; [done|done|rewrite Hd; apply removed_refl| |done|done| |].
  - exists [value_job o k]. split; [done|]. apply Forall_singleton. unfold starts. cbn [fst snd]. by rewrite Eo.
  - split; [apply entry_due|]. intros x. unfold collects. cbn [fst snd]. rewrite Eo. lia.
  - intros j. unfold starts. cbn [fst snd]. rewrite Eo, Ej. intros (_&_&->). apply elem_of_app. right. by left.
Qed.

Lemma gc_step_simple :
  len (sl (o_Value o)) = 0 -> 0 < len (o_Key o) -> gs_jobs st1 = gs_jobs st ->
  dv t1 = delete k (delete (ObjectKeyBytes o) (dv t)) -> gc_step now (k, v) t t1 st st1.
Proof using Hr Hs Hf Hlast Eo Hdue.
  intros Hv Hkey Ej Hd.
  assert (forall x, collects now (k, v) x <-> x = k \/ x = ObjectKeyBytes o) as Hcol.
  { intros x. unfold collects. cbn [fst snd]. rewrite Eo. split; [by intros (_&_&_&Hx)|done]. }
  split; [done|done| |exists []; by rewrite Ej, app_nil_r|done|done| |].
  - rewrite Hd. eapply removed_trans; [by apply (removed_delete (fun x => x = ObjectKeyBytes o))| | |].
    + by apply (removed_delete (fun x => x = k)).
    + intros x ->. apply Hcol. by right.
    + intros x ->. apply Hcol. by left.
  - split; [apply entry_due|]. intros x Hx%Hcol. rewrite Hd.
    destruct (decide (x = k)) as [->|Hn]; [apply lookup_delete_eq|]. rewrite lookup_delete_ne by done.
    destruct Hx as [-> | ->]; [done|apply lookup_delete_eq].
  - intros j. unfold starts. cbn [fst snd]. rewrite Eo. lia.
Qed.

(** An entry of neither a value nor a key: it is passed over. *)
Lemma gc_step_empty :
  len (sl (o_Value o)) = 0 -> len (o_Key o) = 0 -> gs_jobs st1 = gs_jobs st -> dv t1 = dv t ->
  gc_step now (k, v) t t1 st st1.
Proof using Hr Hs Hf Hlast Eo Hdue.
  intros Hv Hkey Ej Hd.
  split; [done|done|rewrite Hd; apply removed_refl|exists []; by rewrite Ej, app_nil_r|done|done| |].
  - split; [apply entry_due|]. intros x. unfold collects. cbn [fst snd]. rewrite Eo. lia.
  - intros j. unfold starts. cbn [fst snd]. rewrite Eo. lia.
Qed.

End entry.

Section loop.
Context (end_ : bytes) (now TTLScanLimit TTLWorkers : Z).
Hypothesis Hconfigs : configs_ok.

(** After an entry the loop goes on with the next one, or stops at the limit. *)
Lemma wp_gc_continue fuel it e l t t1 st st1 :
  (forall it' t' st', it_up it' -> it_list it' = l -> gc_ready t' ->
     wp (gc_loop fuel end_ now TTLScanLimit TTLWorkers it' st') t' (gc_post now l t' st')) ->
  it_up it -> it_list it = e :: l -> gc_step now e t t1 st st1 ->
  wp (if gs_count st1 >=? TTLScanLimit then ret (st1, inr true)
      else match it_Next it with
           | (Some e, _) => ret (st1, inl (Tikv e))
           | (None, it) => gc_loop fuel end_ now TTLScanLimit TTLWorkers it st1
           end) t1 (gc_post now (e :: l) t st).
Proof using Type.
  intros IH Hi El Hs. destruct (gs_count st1 >=? TTLScanLimit).
  - apply wp_ret. by apply gc_post_stop_step.
  - destruct (it_Next_up it Hi) as (it'&->&Hi'&El'). rewrite El in El'. cbn [tail] in El'.
    eapply wp_mono; [apply IH; [done|done|apply Hs]|]. intros p t' Hp. by eapply gc_post_cons.
Qed.

Lemma wp_gc_loop fuel it t st :
  it_up it -> gc_ready t -> (length (it_list it) < fuel)%nat ->
  Forall (fun e => bytes_leb end_ (fst e) = false /\ len (fst e) < MAX_KEY_SIZE) (it_list it) ->
  wp (gc_loop fuel end_ now TTLScanLimit TTLWorkers it st) t (gc_post now (it_list it) t st).
Proof using Hconfigs.
  revert it t st. induction fuel as [|fuel IH]; intros it t st Hi Hr Hf Hl; [lia|].
  cbn [gc_loop]. rewrite it_Valid_list. destruct (it_list it) as [|[k v] l] eqn:El.
  { rewrite bool_decide_eq_true_2 by done. cbn [negb]. apply wp_ret. by apply gc_post_nil. }
  rewrite bool_decide_eq_false_2 by done. cbn [negb].
  destruct (it_Key_list _ _ _ _ El) as [-> ->]. apply Forall_cons in Hl as [[Hend Hk] Hl]. cbn [fst] in Hend, Hk.
  rewrite Hend.
  assert (forall it' t' st', it_up it' -> it_list it' = l -> gc_ready t' ->
     wp (gc_loop fuel end_ now TTLScanLimit TTLWorkers it' st') t' (gc_post now l t' st')) as IH'.
  { intros it' t' st' Hi' El' Hr'. rewrite <- El'. simpl in Hf. apply IH; [done|done|rewrite El'; lia|by rewrite El']. }
  destruct (GetObjectFromTTL k v) as [err|o] eqn:Eo.
  { apply wp_bind, gc_Del; [done|done|]. intros t1 Hr1 Hs1 Hd1.
    apply wp_gc_continue; [done|done|done|]. by eapply gc_step_invalid. }
  destruct (Z.geb_spec (o_TTL o) now) as [|Hlt].
  { by apply wp_ret, (gc_post_stop now (k, v)). }
  destruct (Z.gtb_spec (len (sl (o_Value o))) 0) as [Hv|Hv].
  { assert (gc_step now (k, v) t t st (gs_start (value_job o k) (gs_object (Some k) o (gs_next k st)))) as Hs
      by by apply gc_step_value with (o := o).
    destruct (gs_workers _ >=? TTLWorkers); [apply wp_ret; by apply gc_post_stop_step|by apply wp_gc_continue]. }
  pose proof (len_nonneg (sl (o_Value o))). assert (len (sl (o_Value o)) = 0) as Hv0 by lia.
  destruct (len_index_key _ _ _ Eo) as [H13 Hok]. pose proof (len_nonneg (o_Key o)).
  destruct (Z.gtb_spec (len (o_Key o)) 0) as [Hkey|Hkey].
  - apply wp_bind, wp_modify, wp_on_done, wp_gc_CleanKey; [done|done|done|rewrite len_ObjectKeyBytes; lia|lia|].
    intros t1 Hr1 Hs1 Hd1. apply wp_gc_continue; [done|done|done|].
    by apply gc_step_simple with (o := o).
  - apply wp_gc_continue; [done|done|done|].
    apply gc_step_empty with (o := o); try done. lia.
Qed.

End loop.

(** ** A round of the collector *)

(** The index entries a round looks at. *)
Definition index (start end_ : bytes) (s : Store) : list (bytes * bytes) :=
  range_entries start end_ (cl_data (fst s)).

(** A round whose loop satisfies [gc_post] ends without an error in a state that the
    conditions of [gc_post] describe. *)
Lemma doGC_up start end_ now limit maxw workers s (Q : gc_result * list job -> Store -> Prop) :
  alone -> cl_up (fst s) -> configs_ok -> end_ <> [] -> wf_store (cl_data (fst s)) ->
  Forall (fun e => len (fst e) < MAX_KEY_SIZE) (index start end_ s) ->
  (forall p t t' st c n, gc_post now (index start end_ s) t st p t' -> gs_jobs st = [] ->
     dv t = dview (cl_data (fst s)) -> cl_up c -> cl_data c = t_view t' ->
     forall r, (snd p = inr false -> r = (None, None, None)) ->
       (snd p = inr true -> r = match gs_lastKey (fst p) with
                                | None => (None, gs_o (fst p), None)
                                | Some k => (Some (Bytes.NextKey k), gs_o (fst p), None)
                                end) ->
     Q (r, gs_jobs (fst p)) (c, n)) ->
  ends (doGC start end_ now limit maxw workers s) Q.
Proof.
  intros Ha Hs Hc He Hwf Hl HQ. apply transaction_up; [done|done|]. intros t Hup Hv [Hts Hnow Hu Hd].
  assert (gc_ready t) as Hr by (split; rewrite ?Hv, ?Hu, ?Hd; done).
  destruct (IterOf_up start end_ false t Hup) as (it&Ei&Hi&El). rewrite Hv in El. fold (index start end_ s) in El.
  apply wp_bind. eapply returns_wp; [exact Ei|]. apply wp_bind.
  eapply wp_mono; [apply wp_gc_loop; [done|done|done|pose proof (it_size_list it); lia|]|].
  { rewrite El. apply Forall_forall. intros e Hx. split; [|by eapply Forall_forall in Hx; [|exact Hl]].
    destruct e as [k v]. apply elem_in_range in Hx as [_ Hx]. rewrite below_ltb in Hx by done.
    apply bytes_ltb_spec, blt_not_ble in Hx. cbn [fst]. apply not_true_iff_false. by rewrite bytes_leb_spec. }
  rewrite El. intros [st r] t' Hp. destruct (Hp) as [Pr Ps [valid Ev] _ _ Pf _ _]. cbn [fst snd gs_finish] in Ps, Ev, Pf. subst r.
  apply wp_ret. split; [done|]. split; [by apply gr_up|]. intros c n Hcu Hcd.
  assert (forall r, (valid = false -> r = (None, None, None)) ->
       (valid = true -> r = match gs_lastKey st with
                            | None => (None, gs_o st, None)
                            | Some k => (Some (Bytes.NextKey k), gs_o st, None)
                            end) -> Q (r, gs_jobs st) (c, n)) as HQ'.
  { intros r H1r H2r. apply (HQ _ _ _ _ c n Hp); try done.
    - unfold dv. by rewrite Hv.
    - intros [= E]. by apply H1r.
    - intros [= E]. by apply H2r. }
  rewrite Pf. cbn [orb]. destruct valid; cbn [negb]; [|by apply HQ'].
  destruct (gs_lastKey st) as [k|]; by apply HQ'.
Qed.

(** C10. A round of the collector (while no other client writes) returns without an
    error and removes nothing but entries of the index that are due or malformed and
    the keys of simple objects that due entries name (counters apart); every task it
    starts deletes the value of a due entry. If it reports the end of the index, every
    entry was due and all of this has been done for every entry. *)
Theorem doGC_collects start end_ now limit maxw workers s :
  alone -> cl_up (fst s) -> configs_ok -> end_ <> [] -> wf_store (cl_data (fst s)) ->
  Forall (fun e => len (fst e) < MAX_KEY_SIZE) (index start end_ s) ->
  ends (doGC start end_ now limit maxw workers s) (fun '(lastKey, o, err, jobs) s' =>
    let l := index start end_ s in
    err = None /\ cl_up (fst s') /\
    removed (fun x => exists e, e ∈ l /\ collects now e x) (dview (cl_data (fst s))) (dview (cl_data (fst s'))) /\
    Forall (fun j => exists e, e ∈ l /\ starts now e j) jobs /\
    (lastKey = None -> o = None ->
       Forall (fun e => due now e /\
         (forall x, collects now e x -> dview (cl_data (fst s')) !! x = None) /\
         (forall j, starts now e j -> j ∈ jobs)) l)).
Proof.
  intros Ha Hs Hc He Hwf Hl. apply doGC_up; try done.
  intros [st r0] t t' st0 c n [Pr Ps [valid Ev] Pd (js&Ej&Hj) Pf Pst Pg] Est Edv Hcu Hcd r Hr0 Hr1.
  cbn [fst snd] in *. subst r0. assert (dview (cl_data c) = dv t') as Ed by (unfold dv; by rewrite Hcd).
  assert (exists lastKey o, r = (lastKey, o, None) /\
    (lastKey = None -> o = None -> valid = false)) as (lastKey&o&->&Hend).
  { destruct valid; [|rewrite Hr0 by done; by eexists _, _]. rewrite Hr1 by done.
    destruct (gs_lastKey st) as [k|] eqn:Ek; [by eexists _, _|]. eexists _, _. split; [done|].
    intros _ E. destruct (Pst eq_refl eq_refl) as (?&?&_&Eo&_). congruence. }
  cbv zeta. cbn [fst]. split; [done|]. split; [done|]. rewrite Ed, <- Edv. split; [done|]. split.
  - rewrite Ej, Est. exact Hj.
  - intros E1 E2. rewrite (Hend E1 E2) in Pg. by apply Pg.
Qed.

(** ** Where the sweep continues *)

Lemma value_entry_skipped o w :
  o_UserId w = o_UserId o -> o_Db w = o_Db o -> 0 <= o_Db o < 255 -> 0 < o_TTL w ->
  blt (GetTTLValueBytes w) (GetUserDBPrefix TTLPrefix (o_UserId o) (wrap_u 8 (o_Db o + 1))).
Proof.
  intros Eu Ed Hd Ht. rewrite wrap_u_small by lia. unfold GetTTLValueBytes.
  rewrite getTTLBytes_pos by done. unfold GetUserDBPrefix. rewrite Eu, Ed. unfold blt.
  change (TTLPrefix :: be_put 2 (o_UserId o) ++ ?l) with ((TTLPrefix :: be_put 2 (o_UserId o)) ++ l).
  rewrite <- app_assoc, bytes_compare_app. cbn [app bytes_compare]. rewrite !b2z_z2b, !Z.mod_small by lia.
  by rewrite (proj2 (Z.compare_lt_iff _ _)) by lia.
Qed.

(** When the first entry of the index is not due, a round does nothing and the
    sweep goes on after the database the entry belongs to. Entries of keys come before
    entries of values, so every entry of a value of this database is skipped, due or
    not: while a database has a key that expires later, the collector never deletes
    the values of its deleted hashes and sets. *)
Lemma gc_skips_values start now limit maxw workers s k v rest o :
  alone -> cl_up (fst s) -> index start endGC s = (k, v) :: rest ->
  GetObjectFromTTL k v = inr o -> now <= o_TTL o -> 0 <= o_Db o < 255 ->
  ends (doGC start endGC now limit maxw workers s) (fun '(r, jobs) s' =>
    cl_data (fst s') = cl_data (fst s) /\ jobs = [] /\
    exists cur, tick_next r = Some cur /\
      forall w, o_UserId w = o_UserId o -> o_Db w = o_Db o -> 0 < o_TTL w ->
        blt (GetTTLValueBytes w) cur).
Proof.
  intros Ha Hs El Eo Hnow Hdb. apply transaction_up; [done|done|]. intros t Hup Hv _.
  destruct (IterOf_up start endGC false t Hup) as (it&Ei&Hi&Eit). rewrite Hv in Eit.
  fold (index start endGC s) in Eit. rewrite El in Eit.
  apply wp_bind. eapply returns_wp; [exact Ei|]. apply wp_bind. cbn [gc_loop].
  rewrite it_Valid_list, Eit, bool_decide_eq_false_2 by done. cbn [negb].
  destruct (it_Key_list _ _ _ _ Eit) as [-> ->]. rewrite Eo.
  assert (bytes_leb endGC k = false) as ->.
  { apply not_true_iff_false. rewrite bytes_leb_spec. apply blt_not_ble.
    assert ((k, v) ∈ range_entries start endGC (cl_data (fst s))) as Hx by (fold (index start endGC s); rewrite El; by left).
    apply elem_in_range in Hx as [_ Hx]. rewrite below_ltb in Hx by done. by apply bytes_ltb_spec. }
  destruct (Z.geb_spec (o_TTL o) now) as [_|]; [|lia]. apply wp_ret, wp_ret.
  split; [done|]. split; [done|]. intros c n Hc Hd. cbn. split; [by rewrite Hd|]. split; [done|].
  eexists. split; [done|]. intros w Hu Hw Ht. by apply value_entry_skipped.
Qed.

End spec.
