(* ===== verification/Resp.v ===== *)
(** redcon/resp.go and the command reader of redcon/redcon.go: how replies are encoded,
    how a value is read back, and how pipelined commands are read from the buffer of a
    connection. *)

From S2P Require Import Prelude Xerror GoStd Float Strconv Utils Store Mem Object Reply.
From Stdlib Require Import Init.Byte.

#[local] Open Scope Z_scope.

Definition CR : Init.Byte.byte := x0d.
Definition LF : Init.Byte.byte := x0a.
Definition CRLF : bytes := [CR; LF].

(** ** Writing *)

Definition appendPrefix (b : bytes) (c : Init.Byte.byte) (n : Z) : bytes :=
  if (0 <=? n) && (n <=? 9) then b ++ [c; digit n] ++ CRLF
  else b ++ [c] ++ FormatInt n ++ CRLF.

Definition AppendUint (b : bytes) (n : Z) : bytes := b ++ [x3a] ++ FormatUint n ++ CRLF.
Definition AppendInt (b : bytes) (n : Z) : bytes := appendPrefix b x3a n.
Definition AppendArray (b : bytes) (n : Z) : bytes := appendPrefix b x2a n.
Definition AppendBulk (b bulk : bytes) : bytes := appendPrefix b x24 (len bulk) ++ bulk ++ CRLF.
Definition AppendBulkString (b bulk : bytes) : bytes := appendPrefix b x24 (len bulk) ++ bulk ++ CRLF.

Definition is_newline (c : Init.Byte.byte) : bool := bool_decide (c = CR) || bool_decide (c = LF).

(** [strings.Replace(s, old, " ", -1)] for one byte. *)
Definition replace_byte (old : Init.Byte.byte) (s : bytes) : bytes :=
  (fun c => if bool_decide (c = old) then x20 else c) <$> s.

(** Replacing only when there is something to replace is what the loop is for. *)
Definition stripNewlines (s : bytes) : bytes :=
  if existsb is_newline s then replace_byte LF (replace_byte CR s) else s.

Definition AppendString (b s : bytes) : bytes := b ++ [x2b] ++ stripNewlines s ++ CRLF.
Definition AppendError (b s : bytes) : bytes := b ++ [x2d] ++ stripNewlines s ++ CRLF.
Definition AppendOK (b : bytes) : bytes := b ++ bs "+OK" ++ CRLF.
Definition AppendNull (b : bytes) : bytes := b ++ bs "$-1" ++ CRLF.
Definition AppendBulkInt (dst : bytes) (x : Z) : bytes := AppendBulk dst (FormatInt x).
Definition AppendBulkUint (dst : bytes) (x : Z) : bytes := AppendBulk dst (FormatUint x).
Definition AppendBulkFloat (dst : bytes) (f : float64) : bytes :=
  AppendBulk dst (ToLower (FormatFloat f)).

(** [AppendAny] on the values the modelled handlers return. *)
Fixpoint AppendAny (b : bytes) (v : reply) : bytes :=
  match v with
  | RStatus s => AppendString b (bs s)
  | RInt n => AppendInt b n
  | RNil => AppendNull b
  | RErr e => AppendError b (bs (error_text e))
  | RBulk v => AppendBulk b v
  | RGoInt n => AppendBulkInt b n
  | RGoUint n => AppendBulkUint b n
  | RFloat f => AppendBulkFloat b f
  | RArr l => foldl AppendAny (AppendArray b (len l)) l
  end.

(** ** Reading a value *)

(** [RESP]; a [Type] of 0 is an invalid or incomplete value. *)
Record RESP := { Type_ : Init.Byte.byte; Raw : bytes; Data : bytes; Count_ : Z }.
Definition no_resp : Z * RESP := (0, {| Type_ := x00; Raw := []; Data := []; Count_ := 0 |}).

(** Up to the first line feed: the bytes before it and those after it. *)
Fixpoint split_lf (l : bytes) : option (bytes * bytes) :=
  match l with
  | [] => None
  | c :: l =>
      if bool_decide (c = LF) then Some ([], l)
      else match split_lf l with Some (a, b) => Some (c :: a, b) | None => None end
  end.

(** The line of a value or a length: [c] is its first byte, and a carriage return has
    to stand before the line feed. [None] is no line feed, [Some (inl _)] no carriage
    return; otherwise what is between [c] and the carriage return, and what follows. *)
Definition read_line (c : Init.Byte.byte) (l : bytes) : option (unit + bytes * bytes) :=
  match split_lf l with
  | None => None
  | Some (before, rest) =>
      if bool_decide (last (c :: before) = Some CR) then Some (inr (removelast before, rest))
      else Some (inl tt)
  end.

(** The digits of an integer: an optional sign and at least one more byte. *)
Definition valid_integer (data : bytes) : bool :=
  match data with
  | [] => false
  | x2d :: [] => false
  | x2d :: ds => forallb is_digit ds
  | ds => forallb is_digit ds
  end.

(** The elements of an array, by the reader [next]: how many bytes they take, [Some None]
    when one is invalid or missing. *)
Fixpoint read_elements (next : bytes -> option (Z * RESP)) (j : nat) (tn : Z) (sdata : bytes) :
    option (option Z) :=
  match j with
  | O => Some (Some tn)
  | S j =>
      match next sdata with
      | None => None
      | Some (rn, rresp) =>
          if bool_decide (Type_ rresp = x00) then Some None
          else read_elements next j (tn + rn) (drop (Z.to_nat rn) sdata)
      end
  end.

(** [fuel] bounds the nesting; [None] is a panic: the sum of a bulk's length and its
    place wraps around before it is compared with what is there. An array count that
    exceeds the number of bytes that are left fails like one that exceeds it by one, at
    the element that is missing. *)
Fixpoint ReadNextRESP_fuel (fuel : nat) (b : bytes) : option (Z * RESP) :=
  match fuel, b with
  | O, _ | _, [] => Some no_resp
  | S fuel, c :: l =>
      if negb (existsb (fun x => bool_decide (c = x)) [x3a; x2b; x24; x2a; x2d]) then Some no_resp
      else
        match read_line c l with
        | None | Some (inl _) => Some no_resp
        | Some (inr (data, rest)) =>
            let i := len b - len rest in
            let raw n := take (Z.to_nat n) b in
            let resp := {| Type_ := c; Raw := raw i; Data := data; Count_ := 0 |} in
            if bool_decide (c = x3a) then
              Some (if valid_integer data then (i, resp) else no_resp)
            else if bool_decide (c = x2b) || bool_decide (c = x2d) then Some (i, resp)
            else
              match Atoi data with
              | None => Some no_resp
              | Some count =>
                  if bool_decide (c = x24) then
                    if count <? 0 then Some (i, {| Type_ := c; Raw := raw i; Data := []; Count_ := 0 |})
                    else if len b <? i64 (i + count + 2) then Some no_resp
                    else if len b <? i + count + 2 then None
                    else if negb (bool_decide (slice (Z.to_nat count) (Z.to_nat (count + 2)) rest = CRLF))
                    then Some no_resp
                    else Some (i + count + 2,
                          {| Type_ := c; Raw := raw (i + count + 2); Data := take (Z.to_nat count) rest;
                             Count_ := 0 |})
                  else
                    match read_elements (ReadNextRESP_fuel fuel) (Z.to_nat (Z.min count (len rest + 1))) 0 rest with
                    | None => None
                    | Some None => Some no_resp
                    | Some (Some tn) =>
                        Some (i + tn, {| Type_ := c; Raw := raw (i + tn); Data := take (Z.to_nat tn) rest;
                                    Count_ := count |})
                    end
              end
        end
  end.

Definition ReadNextRESP (b : bytes) : option (Z * RESP) := ReadNextRESP_fuel (S (length b)) b.

(** ** Reading commands *)

(** The protocol errors of redcon.go. *)
Inductive errProtocol :=
  | errUnbalancedQuotes
  | errInvalidBulkLength
  | errInvalidMultiBulkLength
  | errExpectedBulk (got : Init.Byte.byte).

(** [parseInt]: the sum wraps around; no digits at all are 0. *)
Fixpoint parse_go (l : bytes) (n : Z) : option Z :=
  match l with
  | [] => Some n
  | b :: l => if is_digit b then parse_go l (i64 (i64 (n * 10) + (b2z b - 48))) else None
  end.
Definition parseInt (b : bytes) : option Z :=
  match b with
  | x2d :: l => (fun n => i64 (n * -1)) <$> parse_go l 0
  | l => parse_go l 0
  end.

(** One bulk of a command: [None] when it is not there in full. *)
Definition read_bulk (b : bytes) : option (errProtocol + bytes * bytes) :=
  match b with
  | [] => None
  | c :: l =>
      if negb (bool_decide (c = x24)) then Some (inl (errExpectedBulk c))
      else
        match read_line c l with
        | None => None
        | Some (inl _) => Some (inl errInvalidBulkLength)
        | Some (inr (line, rest)) =>
            match parseInt line with
            | None => Some (inl errInvalidBulkLength)
            | Some size =>
                if (size <? 0) || (size >? 1024 * 1024) then Some (inl errInvalidBulkLength)
                else if len rest <? size + 2 then None
                else if negb (bool_decide (slice (Z.to_nat size) (Z.to_nat (size + 2)) rest = CRLF))
                then Some (inl errInvalidBulkLength)
                else Some (inr (take (Z.to_nat size) rest, drop (Z.to_nat (size + 2)) rest))
            end
        end
  end.

Fixpoint read_bulks (count : nat) (b : bytes) (args : list bytes) : option (errProtocol + list bytes * bytes) :=
  match count with
  | O => Some (inr (args, b))
  | S count =>
      match read_bulk b with
      | None => None
      | Some (inl e) => Some (inl e)
      | Some (inr (a, b)) => read_bulks count b (args ++ [a])
      end
  end.

(** A command in RESP, the leading star taken off. *)
Definition read_multibulk (l : bytes) : option (errProtocol + list bytes * bytes) :=
  match read_line x2a l with
  | None => None
  | Some (inl _) => Some (inl errInvalidMultiBulkLength)
  | Some (inr (line, rest)) =>
      match parseInt line with
      | None => Some (inl errInvalidMultiBulkLength)
      | Some count =>
          if (count <=? 0) || (count >? 1024 * 1024) then Some (inl errInvalidMultiBulkLength)
          else read_bulks (Z.to_nat count) rest []
      end
  end.

(** A line of plain text: words separated by spaces, or quoted. *)
Fixpoint telnet_args (line : bytes) (quote : option Init.Byte.byte) (escape : bool) (nline : bytes)
    (args : list bytes) : errProtocol + list bytes :=
  match line with
  | [] =>
      match quote with
      | Some _ => inl errUnbalancedQuotes
      | None => inr (if bool_decide (nline = []) then args else args ++ [nline])
      end
  | c :: line =>
      match quote with
      | None =>
          if bool_decide (c = x20) then
            telnet_args line None escape [] (if bool_decide (nline = []) then args else args ++ [nline])
          else if bool_decide (c = x22) || bool_decide (c = x27) then
            if bool_decide (nline = []) then telnet_args line (Some c) escape [] args
            else inl errUnbalancedQuotes
          else telnet_args line None escape (nline ++ [c]) args
      | Some q =>
          if escape then
            let c := if bool_decide (c = x6e) then LF
                     else if bool_decide (c = x72) then CR
                     else if bool_decide (c = x74) then x09 else c in
            telnet_args line quote false (nline ++ [c]) args
          else if bool_decide (c = q) then
            match line with
            | x20 :: _ | [] => telnet_args line None false [] (args ++ [nline])
            | _ => inl errUnbalancedQuotes
            end
          else if bool_decide (c = x5c) then telnet_args line quote true nline args
          else telnet_args line quote false (nline ++ [c]) args
      end
  end.

Definition strip_cr (line : bytes) : bytes :=
  if bool_decide (last line = Some CR) then removelast line else line.

(** The commands in the buffer, and what is left of it: [None] is an incomplete
    command. [fuel] bounds the number of commands and lines. *)
Fixpoint parse_commands (fuel : nat) (b : bytes) (cmds : list (list bytes)) :
    errProtocol + list (list bytes) * bytes :=
  match fuel, b with
  | O, _ | _, [] => inr (cmds, b)
  | S fuel, c :: l =>
      if bool_decide (c = x2a) then
        match read_multibulk l with
        | None => inr (cmds, b)
        | Some (inl e) => inl e
        | Some (inr (args, rest)) => parse_commands fuel rest (cmds ++ [args])
        end
      else
        match split_lf b with
        | None => inr (cmds, b)
        | Some (line, rest) =>
            match telnet_args (strip_cr line) None false [] [] with
            | inl e => inl e
            | inr args => parse_commands fuel rest (if bool_decide (args = []) then cmds else cmds ++ [args])
            end
        end
  end.

(** [readCommands] on the bytes that have been read. *)
Definition readCommands (b : bytes) : errProtocol + list (list bytes) * bytes :=
  parse_commands (S (length b)) b [].

(** A command as clients send it, and as a plain-text line is converted to. *)
Definition encode_command (args : list bytes) : bytes := foldl AppendBulk (AppendArray [] (len args)) args.
