(* ===== verification/RespSpec.v ===== *)
(** What the protocol layer promises: every reply is one value on the wire, whatever
    its contents, and the reader gets back the commands that were sent and waits for
    the rest of one that is cut off. *)

From S2P Require Import Prelude Xerror GoStd Float Strconv Utils Store Mem Object Reply Resp.
From Stdlib Require Import Init.Byte.

#[local] Open Scope Z_scope.

(** ** Lines *)

Lemma split_lf_app a rest : LF ∉ a -> split_lf (a ++ LF :: rest) = Some (a, rest).
Proof.
  induction a as [|c a IH]; cbn [app split_lf]; intros Ha.
  - by rewrite bool_decide_eq_true_2.
  - apply not_elem_of_cons in Ha as [Hc Ha]. rewrite bool_decide_eq_false_2 by done. by rewrite IH.
Qed.

Lemma split_lf_None l : LF ∉ l -> split_lf l = None.
Proof.
  induction l as [|c l IH]; [done|]. intros [Hc Hl]%not_elem_of_cons. cbn [split_lf].
  rewrite bool_decide_eq_false_2 by done. by rewrite IH.
Qed.

Lemma read_line_app c a rest : LF ∉ a -> read_line c (a ++ CRLF ++ rest) = Some (inr (a, rest)).
Proof.
  intros Ha. unfold read_line, CRLF. change (a ++ [CR; LF] ++ rest) with (a ++ [CR] ++ LF :: rest).
  rewrite app_assoc, split_lf_app.
  - rewrite app_comm_cons, last_snoc, bool_decide_eq_true_2 by done. by rewrite removelast_last.
  - rewrite not_elem_of_app. split; [done|]. by intros Hx%list_elem_of_singleton.
Qed.

(** A prefix of a line and what follows either ends within the line, or contains it. *)
Lemma line_prefix a rest p s :
  LF ∉ a -> p ++ s = a ++ CRLF ++ rest ->
  split_lf p = None \/ exists p', p = a ++ CRLF ++ p' /\ p' ++ s = rest.
Proof.
  intros Ha E. rewrite app_assoc in E. apply app_eq_app in E as (l & [(->&->)|(E&->)]).
  - right. exists l. by rewrite app_assoc.
  - destruct l as [|x l _] using rev_ind.
    { right. exists []. rewrite app_nil_r in E. by rewrite !app_nil_r, <- E. }
    left. apply split_lf_None. unfold CRLF in E. change [CR; LF] with ([CR] ++ [LF]) in E.
    rewrite !app_assoc in E. apply app_inj_tail in E as [E _].
    intros Hp. assert (LF ∈ a ++ [CR]) as Hx by (rewrite E; apply elem_of_app; by left).
    apply elem_of_app in Hx as [Hx|Hx]; [done|]. by apply list_elem_of_singleton in Hx.
Qed.

Lemma digit_no_lf b : is_digit b = true -> b <> LF /\ b <> CR.
Proof. by split; intros ->. Qed.

Lemma format_digits_no_lf fuel n acc :
  0 <= n -> LF ∉ acc -> LF ∉ format_digits fuel n acc.
Proof.
  revert n acc. induction fuel as [|fuel IH]; intros n acc Hn Ha; [done|]. cbn [format_digits].
  destruct (Z.ltb_spec n 10).
  - apply not_elem_of_cons. split; [|done]. intros E.
    pose proof (is_digit_digit n ltac:(lia)) as Hd. rewrite <- E in Hd. done.
  - apply IH; [by apply Z.div_pos|]. apply not_elem_of_cons. split; [|done]. intros E.
    pose proof (is_digit_digit (n mod 10) ltac:(pose proof (Z.mod_pos_bound n 10); lia)) as Hd.
    rewrite <- E in Hd. done.
Qed.

Lemma FormatInt_no_lf n : LF ∉ FormatInt n.
Proof.
  unfold FormatInt, FormatUint. destruct (Z.ltb_spec n 0).
  - apply not_elem_of_cons. split; [done|]. apply format_digits_no_lf; [lia|]. by apply not_elem_of_nil.
  - apply format_digits_no_lf; [lia|]. by apply not_elem_of_nil.
Qed.

Lemma stripNewlines_no_lf s : LF ∉ stripNewlines s.
Proof.
  unfold stripNewlines. destruct (existsb is_newline s) eqn:E.
  - unfold replace_byte. rewrite list_elem_of_fmap. intros (c&Hc&_). by case_bool_decide.
  - intros Hx. apply not_true_iff_false in E. apply E, existsb_exists. exists LF.
    by split; [apply list_elem_of_In|].
Qed.

(** ** Encodings *)

Lemma appendPrefix_eq b c n : 0 <= n -> appendPrefix b c n = b ++ c :: FormatInt n ++ CRLF.
Proof.
  intros Hn. unfold appendPrefix. destruct (Z.leb_spec 0 n) as [_|]; [|lia]. cbn [andb].
  destruct (Z.leb_spec n 9); [|done]. do 2 f_equal. unfold FormatInt, FormatUint.
  destruct (Z.ltb_spec n 0); [lia|]. cbn [format_digits]. destruct (Z.ltb_spec n 10); [done|lia].
Qed.

Lemma appendPrefix_any b c n : appendPrefix b c n = b ++ c :: FormatInt n ++ CRLF.
Proof.
  destruct (Z.leb_spec 0 n); [by apply appendPrefix_eq|].
  unfold appendPrefix. by destruct (Z.leb_spec 0 n); [lia|].
Qed.

Definition header (c : Init.Byte.byte) (n : Z) : bytes := c :: FormatInt n ++ CRLF.
Definition bulk (a : bytes) : bytes := header x24 (len a) ++ a ++ CRLF.

Lemma AppendBulk_eq b a : AppendBulk b a = b ++ bulk a.
Proof. unfold AppendBulk, bulk, header. rewrite appendPrefix_any. by rewrite <- app_assoc. Qed.

Lemma foldl_bulk b args : foldl AppendBulk b args = b ++ concat (bulk <$> args).
Proof.
  revert b. induction args as [|a args IH]; intros b; cbn [foldl fmap list_fmap concat]; [by rewrite app_nil_r|].
  rewrite IH, AppendBulk_eq. by rewrite app_assoc.
Qed.

Lemma encode_command_eq args : encode_command args = header x2a (len args) ++ concat (bulk <$> args).
Proof. unfold encode_command. rewrite foldl_bulk. unfold AppendArray. by rewrite appendPrefix_any. Qed.

(** ** Commands *)

(** What a command may be: some arguments, within the limits of the reader. *)
Definition command_ok (args : list bytes) : Prop :=
  args <> [] /\ len args <= 1024 * 1024 /\ Forall (fun a => len a <= 1024 * 1024) args.

Lemma parse_digits_ge l k m : 0 <= k -> parse_digits l k = Some m -> k <= m.
Proof.
  revert k. induction l as [|c l IH]; intros k Hk; cbn [parse_digits]; [intros [= ->]; lia|].
  destruct (is_digit c) eqn:Ec; [|done]. intros E.
  assert (48 <= b2z c <= 57) as Hc by (unfold is_digit in Ec; lia).
  specialize (IH (k * 10 + (b2z c - 48)) ltac:(lia) E). lia.
Qed.

Lemma parse_go_digits l n m :
  parse_digits l n = Some m -> 0 <= n -> m < 2 ^ 63 -> parse_go l n = Some m.
Proof.
  revert n. induction l as [|b l IH]; intros n; cbn [parse_digits parse_go]; [done|].
  destruct (is_digit b) eqn:Eb; [|done]. intros E Hn Hm.
  assert (48 <= b2z b <= 57) as Hb by (unfold is_digit in Eb; lia).
  pose proof (parse_digits_ge l (n * 10 + (b2z b - 48)) m ltac:(lia) E) as Hle.
  rewrite (i64_small (n * 10)) by (unfold in_i64, MinInt64, MaxInt64; lia).
  rewrite i64_small by (unfold in_i64, MinInt64, MaxInt64; lia). apply IH; [done|lia|done].
Qed.

Lemma parseInt_FormatInt n : 0 <= n < 2 ^ 63 -> parseInt (FormatInt n) = Some n.
Proof.
  intros Hn. unfold FormatInt, FormatUint. destruct (Z.ltb_spec n 0); [lia|].
  destruct (format_digits_head 20 n [] ltac:(lia) ltac:(done)) as (d&l&E&Hd).
  pose proof (parse_format_digits 20 n [] ltac:(simpl; lia)) as Hp. rewrite E in *.
  cbn [parse_digits] in Hp. unfold parseInt.
  assert (parse_go (d :: l) 0 = Some n) as Hg by (apply parse_go_digits; [exact Hp|lia|lia]).
  destruct d; try done; exact Hg.
Qed.

Lemma len_CRLF : len CRLF = 2.
Proof. done. Qed.

Lemma slice_CRLF a rest :
  slice (Z.to_nat (len a)) (Z.to_nat (len a + 2)) (a ++ CRLF ++ rest) = CRLF.
Proof.
  unfold slice, len. rewrite Nat2Z.id.
  replace (Z.to_nat (Z.of_nat (length a) + 2) - length a)%nat with 2%nat by lia.
  by rewrite drop_app_length.
Qed.

Lemma read_bulk_app a rest :
  len a <= 1024 * 1024 -> read_bulk (bulk a ++ rest) = Some (inr (a, rest)).
Proof.
  intros Ha. pose proof (len_nonneg a) as Hn. unfold bulk, header, read_bulk. cbn [app].
  change (negb (bool_decide (x24 = x24))) with false. cbv iota.
  rewrite <- !app_assoc, read_line_app by apply FormatInt_no_lf.
  rewrite parseInt_FormatInt by lia.
  destruct (Z.ltb_spec (len a) 0) as [|_]; [lia|]. destruct (Z.gtb_spec (len a) (1024 * 1024)) as [|_]; [lia|].
  cbn [orb]. rewrite !len_app, len_CRLF. pose proof (len_nonneg rest).
  destruct (Z.ltb_spec (len a + (2 + len rest)) (len a + 2)) as [|_]; [lia|].
  rewrite slice_CRLF. change (negb (bool_decide (CRLF = CRLF))) with false. cbv iota.
  do 3 f_equal.
  - unfold len. by rewrite Nat2Z.id, take_app_length.
  - replace (Z.to_nat (len a + 2)) with (length (a ++ CRLF)) by (rewrite length_app; unfold len; simpl; lia).
    by rewrite app_assoc, drop_app_length.
Qed.

(** A prefix of a bulk and what follows: not there in full, or there. *)
Lemma read_bulk_prefix a rest p s :
  len a <= 1024 * 1024 -> p ++ s = bulk a ++ rest ->
  read_bulk p = None \/ exists p', p = bulk a ++ p' /\ p' ++ s = rest.
Proof.
  intros Ha E. destruct p as [|c p]; [by left|]. unfold bulk, header in E. cbn [app] in E.
  injection E as -> E. rewrite <- !app_assoc in E.
  destruct (line_prefix _ _ _ _ (FormatInt_no_lf (len a)) E) as [Hp|(p'&->&E')].
  { left. cbn [read_bulk]. change (negb (bool_decide (x24 = x24))) with false. cbv iota.
    unfold read_line. by rewrite Hp. }
  destruct (decide (len p' < len a + 2)) as [Hl|Hl].
  - left. cbn [read_bulk]. change (negb (bool_decide (x24 = x24))) with false. cbv iota.
    rewrite read_line_app by apply FormatInt_no_lf. pose proof (len_nonneg a).
    rewrite parseInt_FormatInt by lia.
    destruct (Z.ltb_spec (len a) 0) as [|_]; [lia|]. destruct (Z.gtb_spec (len a) (1024 * 1024)) as [|_]; [lia|].
    cbn [orb]. by destruct (Z.ltb_spec (len p') (len a + 2)); [|lia].
  - right. rewrite (app_assoc a) in E'. apply app_eq_app in E' as (l & [(->&->)|(E1&->)]).
    + exists l. split; [|done]. unfold bulk, header. cbn [app]. by rewrite <- !app_assoc.
    + exists []. assert (l = []) as ->.
      { apply (f_equal length) in E1. rewrite !length_app in E1. unfold len, CRLF in *. simpl in E1.
        destruct l; [done|]. simpl in E1. lia. }
      rewrite app_nil_r in E1. subst p'. split; [|done]. unfold bulk, header. cbn [app].
      by rewrite !app_nil_r, <- !app_assoc.
Qed.

Lemma read_bulks_app args rest acc :
  Forall (fun a => len a <= 1024 * 1024) args ->
  read_bulks (length args) (concat (bulk <$> args) ++ rest) acc = Some (inr (acc ++ args, rest)).
Proof.
  revert acc. induction args as [|a args IH]; intros acc Ha; cbn [length read_bulks fmap list_fmap concat].
  - by rewrite app_nil_r.
  - apply Forall_cons in Ha as [Ha Has]. rewrite <- app_assoc, read_bulk_app by done.
    rewrite IH by done. by rewrite <- app_assoc.
Qed.

Lemma read_bulks_prefix args p s acc :
  Forall (fun a => len a <= 1024 * 1024) args -> p ++ s = concat (bulk <$> args) -> s <> [] ->
  read_bulks (length args) p acc = None.
Proof.
  revert p acc. induction args as [|a args IH]; intros p acc Ha; cbn [length read_bulks fmap list_fmap concat].
  - intros [_ ->]%app_eq_nil. done.
  - apply Forall_cons in Ha as [Ha Has]. intros E Hs.
    destruct (read_bulk_prefix a _ p s Ha E) as [->|(p'&->&E')]; [done|].
    rewrite read_bulk_app by done. by apply IH.
Qed.

Lemma read_multibulk_app args rest :
  command_ok args -> exists l, encode_command args = x2a :: l /\
    read_multibulk (l ++ rest) = Some (inr (args, rest)).
Proof.
  intros (Hne&Hl&Ha). rewrite encode_command_eq. unfold header. cbn [app]. eexists. split; [done|].
  unfold read_multibulk. rewrite <- !app_assoc, read_line_app by apply FormatInt_no_lf.
  pose proof (len_nonneg args). rewrite parseInt_FormatInt by lia.
  assert (len args <> 0) by by rewrite len_nil_iff.
  destruct (Z.leb_spec (len args) 0) as [|_]; [lia|].
  destruct (Z.gtb_spec (len args) (1024 * 1024)) as [|_]; [lia|]. cbn [orb].
  unfold len at 1. rewrite Nat2Z.id, read_bulks_app by done. done.
Qed.

(** A command that is cut off is waited for. *)
Lemma read_multibulk_prefix args p s :
  command_ok args -> x2a :: p ++ s = encode_command args -> s <> [] -> read_multibulk p = None.
Proof.
  intros (Hne&Hl&Ha) E Hs. rewrite encode_command_eq in E. unfold header in E. cbn [app] in E.
  injection E as E. rewrite <- app_assoc in E.
  destruct (line_prefix _ _ _ _ (FormatInt_no_lf (len args)) E) as [Hp|(p'&->&E')].
  { unfold read_multibulk, read_line. by rewrite Hp. }
  unfold read_multibulk. rewrite read_line_app by apply FormatInt_no_lf.
  pose proof (len_nonneg args). rewrite parseInt_FormatInt by lia.
  assert (len args <> 0) by by rewrite len_nil_iff.
  destruct (Z.leb_spec (len args) 0) as [|_]; [lia|].
  destruct (Z.gtb_spec (len args) (1024 * 1024)) as [|_]; [lia|]. cbn [orb].
  unfold len. rewrite Nat2Z.id. by eapply read_bulks_prefix.
Qed.

Lemma parse_commands_app cmds rest fuel acc :
  Forall command_ok cmds -> (length (concat (encode_command <$> cmds) ++ rest) < fuel)%nat ->
  exists fuel', (length rest < fuel')%nat /\
  parse_commands fuel (concat (encode_command <$> cmds) ++ rest) acc
  = parse_commands fuel' rest (acc ++ cmds).
Proof.
  revert fuel acc. induction cmds as [|c cmds IH]; intros fuel acc Hc Hf; cbn [fmap list_fmap concat].
  - exists fuel. by rewrite app_nil_r.
  - apply Forall_cons in Hc as [Hc Hcs]. destruct fuel as [|fuel]; [lia|].
    cbn [fmap list_fmap concat] in Hf. rewrite <- app_assoc in Hf |- *.
    destruct (read_multibulk_app c (concat (encode_command <$> cmds) ++ rest) Hc) as (l&El&Hr).
    rewrite El in Hf |- *. cbn [app] in Hf |- *. cbn [parse_commands].
    change (bool_decide (x2a = x2a)) with true. cbv iota. rewrite Hr.
    destruct (IH fuel (acc ++ [c]) Hcs) as (fuel'&Hf'&E).
    { cbn [length] in Hf. rewrite length_app in Hf. lia. }
    exists fuel'. split; [done|]. rewrite E. by rewrite <- app_assoc.
Qed.

Lemma readCommands_cut cmds c p s :
  Forall command_ok cmds -> command_ok c -> p ++ s = encode_command c -> s <> [] ->
  readCommands (concat (encode_command <$> cmds) ++ p) = inr (cmds, p).
Proof.
  intros Hcs Hc E Hs. unfold readCommands.
  destruct (parse_commands_app cmds p (S (length (concat (encode_command <$> cmds) ++ p))) [] Hcs ltac:(lia))
    as (fuel&Hf&->). cbn [app].
  destruct fuel as [|fuel]; [lia|]. destruct p as [|b p]; [done|].
  assert (b = x2a) as ->.
  { destruct (read_multibulk_app c [] Hc) as (l&El&_). rewrite El in E. by injection E. }
  cbn [parse_commands]. change (bool_decide (x2a = x2a)) with true. cbv iota.
  by rewrite (read_multibulk_prefix c p s Hc E Hs).
Qed.

(** C33. The reader gives back exactly the commands that were sent, however many of
    them a client pipelines and wherever the last one is cut off: the commands that
    are complete are returned in order, and the beginning of the last one stays in the
    buffer, without an error, until the rest arrives. *)
Theorem readCommands_pipeline cmds c p s :
  Forall command_ok cmds -> command_ok c -> p ++ s = encode_command c -> s <> [] ->
  readCommands (concat (encode_command <$> cmds) ++ p) = inr (cmds, p).
Proof. apply readCommands_cut. Qed.

(** ** Replies *)

Lemma reply_ind' (P : reply -> Prop) :
  P RNil -> (forall e, P (RErr e)) -> (forall n, P (RInt n)) -> (forall s, P (RStatus s)) ->
  (forall b, P (RBulk b)) -> (forall n, P (RGoInt n)) -> (forall n, P (RGoUint n)) ->
  (forall f, P (RFloat f)) -> (forall l, Forall P l -> P (RArr l)) ->
  forall r, P r.
Proof.
  intros H1 H2 H3 H4 H5 H6 H7 H8 H9. fix IH 1.
  intros [|e|n|st|v|n|n|f|l];
    [exact H1|apply H2|apply H3|apply H4|apply H5|apply H6|apply H7|apply H8|apply H9].
  induction l as [|r l IHl]; constructor; [apply IH|exact IHl].
Qed.

Definition enc (r : reply) : bytes := AppendAny [] r.

Lemma foldl_any l b :
  Forall (fun r => forall b, AppendAny b r = b ++ enc r) l ->
  foldl AppendAny b l = b ++ concat (enc <$> l).
Proof.
  intros Hl. revert b. induction Hl as [|r l Hr _ IH]; intros b; cbn [foldl fmap list_fmap concat];
    [by rewrite app_nil_r|].
  rewrite IH, Hr. by rewrite <- app_assoc.
Qed.

Lemma AppendAny_app b r : AppendAny b r = b ++ enc r.
Proof.
  revert b. induction r as [|e|n|st|v|n|n|f|l IH] using reply_ind'; intros b; unfold enc; cbn [AppendAny];
    try done; unfold AppendInt, AppendBulkInt, AppendBulkUint, AppendBulkFloat, AppendArray;
    rewrite ?(appendPrefix_any b), ?(appendPrefix_any []), ?AppendBulk_eq; try done.
  rewrite !foldl_any by done. by rewrite <- app_assoc.
Qed.

Lemma enc_RArr l : enc (RArr l) = header x2a (len l) ++ concat (enc <$> l).
Proof.
  unfold enc at 1. cbn [AppendAny]. unfold AppendArray. rewrite appendPrefix_any.
  apply foldl_any, Forall_true. intros r b. apply AppendAny_app.
Qed.

(** The integers of a reply are 64-bit integers. *)
Fixpoint reply_ok (r : reply) : Prop :=
  match r with
  | RInt n => in_i64 n
  | RArr l => foldr (fun r P => reply_ok r /\ P) True l
  | _ => True
  end.

Lemma Atoi_FormatInt n : in_i64 n -> Atoi (FormatInt n) = Some n.
Proof. apply ParseInt_FormatInt. Qed.

Lemma valid_integer_FormatInt n : in_i64 n -> valid_integer (FormatInt n) = true.
Proof.
  assert (forall fuel m acc, 0 <= m -> forallb is_digit acc = true ->
    forallb is_digit (format_digits fuel m acc) = true) as Hd.
  { induction fuel as [|fuel IH]; intros m acc Hm Ha; [done|]. cbn [format_digits].
    destruct (Z.ltb_spec m 10); cbn [forallb].
    - by rewrite is_digit_digit by lia.
    - apply IH; [by apply Z.div_pos|]. cbn [forallb].
      rewrite is_digit_digit by (pose proof (Z.mod_pos_bound m 10); lia). done. }
  intros _. unfold FormatInt, FormatUint. destruct (Z.ltb_spec n 0).
  - destruct (format_digits_head 20 (- n) [] ltac:(lia) ltac:(done)) as (d&l&E&_).
    pose proof (Hd 20%nat (- n) [] ltac:(lia) eq_refl) as Hx. rewrite E in *. exact Hx.
  - destruct (format_digits_head 20 n [] ltac:(lia) ltac:(done)) as (d&l&E&Hdig).
    pose proof (Hd 20%nat n [] ltac:(lia) eq_refl) as Hx. rewrite E in *.
    destruct d; try done; exact Hx.
Qed.

(** One value is read back. *)
Definition reads_bytes (fuel : nat) (e rest : bytes) : Prop :=
  exists resp, ReadNextRESP_fuel fuel (e ++ rest) = Some (len e, resp) /\ Raw resp = e /\ Type_ resp <> x00.
Definition reads_as (fuel : nat) (r : reply) (rest : bytes) : Prop := reads_bytes fuel (enc r) rest.

Lemma take_len {A} (l k : list A) : take (Z.to_nat (len l)) (l ++ k) = l.
Proof. unfold len. rewrite Nat2Z.id. apply take_app_length. Qed.

Lemma drop_len {A} (l k : list A) : drop (Z.to_nat (len l)) (l ++ k) = k.
Proof. unfold len. rewrite Nat2Z.id. apply drop_app_length. Qed.

(** A value of one line. *)
Lemma reads_line_bytes fuel c a rest :
  LF ∉ a -> (c = x2b \/ c = x2d) \/ (c = x3a /\ valid_integer a = true) \/ (c = x24 /\ a = bs "-1") ->
  reads_bytes (S fuel) (c :: a ++ CRLF) rest.
Proof.
  intros Ha Hc. unfold reads_bytes.
  set (b := (c :: a ++ CRLF) ++ rest). assert (b = c :: a ++ CRLF ++ rest) as Eb.
  { unfold b. cbn [app]. by rewrite <- app_assoc. }
  assert (len b - len rest = len (c :: a ++ CRLF)) as El by (unfold b; rewrite len_app; lia).
  rewrite Eb. cbn [ReadNextRESP_fuel]. rewrite read_line_app by done. rewrite <- Eb, El.
  unfold b. rewrite !take_len.
  destruct Hc as [[-> | ->] | [[-> Hv] | [-> ->]]]; cbn -[len]; rewrite ?Hv; by eexists.
Qed.

Lemma reads_line fuel c a rest r :
  LF ∉ a -> enc r = c :: a ++ CRLF ->
  (c = x2b \/ c = x2d) \/ (c = x3a /\ valid_integer a = true) \/ (c = x24 /\ a = bs "-1") ->
  reads_as (S fuel) r rest.
Proof. intros Ha E Hc. unfold reads_as. rewrite E. by apply reads_line_bytes. Qed.

Lemma len_enc_pos r : 0 < len (enc r).
Proof.
  assert (forall c (l : bytes), 0 < len (c :: l)) as Hc.
  { intros c l. rewrite len_cons. pose proof (len_nonneg l). lia. }
  destruct r as [|e|n|st|v|n|n|f|l]; [..|rewrite enc_RArr; apply Hc]; unfold enc; cbn [AppendAny];
    unfold AppendInt, AppendBulkInt, AppendBulkUint, AppendBulkFloat; rewrite ?appendPrefix_any, ?AppendBulk_eq; apply Hc.
Qed.

Lemma reads_bulk fuel v rest r :
  enc r = bulk v -> in_i64 (len (enc r)) -> reads_as (S fuel) r rest.
Proof.
  intros E Hb. unfold reads_as, reads_bytes. rewrite E in *.
  set (b := bulk v ++ rest). assert (b = x24 :: FormatInt (len v) ++ CRLF ++ (v ++ CRLF ++ rest)) as Eb.
  { unfold b, bulk, header. cbn [app]. by rewrite <- !app_assoc. }
  assert (len b - len (v ++ CRLF ++ rest) + len v + 2 = len (bulk v)) as Ei.
  { unfold b. rewrite !len_app, len_CRLF. lia. }
  pose proof (len_nonneg v). pose proof (len_nonneg rest).
  assert (len v <= len (bulk v)) by (unfold bulk; rewrite !len_app, len_CRLF; pose proof (len_nonneg (header x24 (len v))); lia).
  assert (take (Z.to_nat (len (bulk v))) b = bulk v) as Et by apply take_len.
  assert (len (bulk v) <= len b) as Hlb by (unfold b; rewrite len_app; lia). clearbody b.
  rewrite Eb. cbn [ReadNextRESP_fuel]. rewrite read_line_app by apply FormatInt_no_lf.
  rewrite Atoi_FormatInt by (unfold in_i64, MinInt64 in *; lia). rewrite <- Eb.
  cbn -[len wrap_s Z.ltb slice CRLF].
  destruct (Z.ltb_spec (len v) 0) as [|_]; [lia|]. rewrite Ei, i64_small by done.
  destruct (Z.ltb_spec (len b) (len (bulk v))) as [|_]; [lia|].
  rewrite slice_CRLF. change (negb (bool_decide (CRLF = CRLF))) with false. cbv iota.
  by eexists.
Qed.

Lemma read_elements_app fuel l tn rest :
  Forall (fun r => forall rest, reads_as fuel r rest) l ->
  read_elements (ReadNextRESP_fuel fuel) (length l) tn (concat (enc <$> l) ++ rest)
  = Some (Some (tn + len (concat (enc <$> l)))).
Proof.
  intros Hl. revert tn. induction Hl as [|r l Hr _ IH]; intros tn; cbn [length read_elements fmap list_fmap concat].
  - by rewrite Z.add_0_r.
  - rewrite <- app_assoc. destruct (Hr (concat (enc <$> l) ++ rest)) as (resp&->&_&Ht).
    rewrite bool_decide_eq_false_2 by done. rewrite drop_len, IH, len_app. by rewrite Z.add_assoc.
Qed.

Lemma len_concat_enc l : len l <= len (concat (enc <$> l)).
Proof.
  induction l as [|r l IH]; [done|]. cbn [fmap list_fmap concat]. rewrite len_cons, len_app.
  pose proof (len_enc_pos r). lia.
Qed.

Lemma len_enc_elem r l : r ∈ l -> len (enc r) <= len (concat (enc <$> l)).
Proof.
  induction 1 as [r l|r r' l _ IH]; cbn [fmap list_fmap concat]; rewrite len_app.
  - pose proof (len_nonneg (concat (enc <$> l))). lia.
  - pose proof (len_enc_pos r'). lia.
Qed.

Lemma reads_array fuel l rest :
  in_i64 (len (enc (RArr l))) ->
  Forall (fun r => forall rest, reads_as fuel r rest) l -> reads_as (S fuel) (RArr l) rest.
Proof.
  intros Hb Hl. unfold reads_as, reads_bytes. rewrite enc_RArr in *. set (body := concat (enc <$> l)) in *.
  set (b := (header x2a (len l) ++ body) ++ rest).
  assert (b = x2a :: FormatInt (len l) ++ CRLF ++ (body ++ rest)) as Eb.
  { unfold b, header. cbn [app]. by rewrite <- !app_assoc. }
  assert (len b - len (body ++ rest) + len body = len (header x2a (len l) ++ body)) as Ei.
  { unfold b. rewrite !len_app. lia. }
  pose proof (len_nonneg l). pose proof (len_nonneg rest). pose proof (len_concat_enc l) as Hc. fold body in Hc.
  assert (len body <= len (header x2a (len l) ++ body)).
  { rewrite len_app. pose proof (len_nonneg (header x2a (len l))). lia. }
  assert (take (Z.to_nat (len (header x2a (len l) ++ body))) b = header x2a (len l) ++ body) as Et by apply take_len.
  clearbody b. rewrite Eb. cbn [ReadNextRESP_fuel]. rewrite read_line_app by apply FormatInt_no_lf.
  rewrite Atoi_FormatInt by (unfold in_i64, MinInt64 in *; lia). rewrite <- Eb. cbn -[len Z.min Z.to_nat].
  rewrite Z.min_l by (rewrite len_app; lia). replace (Z.to_nat (len l)) with (length l) by (unfold len; lia).
  rewrite read_elements_app by done. fold body. rewrite Z.add_0_l, Ei.
  by eexists.
Qed.

Lemma reply_reads r : forall fuel rest,
  reply_ok r -> in_i64 (len (enc r)) -> (length (enc r) <= fuel)%nat -> reads_as fuel r rest.
Proof.
  induction r as [|e|n|st|v|n|n|f|l IH] using reply_ind'; intros fuel rest Hr Hb Hf;
    (destruct fuel as [|fuel]; [match type of Hf with context [enc ?r] => pose proof (len_enc_pos r) end;
      unfold len in *; lia|]).
  - apply (reads_line _ x24 (bs "-1")); [|done|tauto]. by apply (bool_decide_unpack _).
  - apply (reads_line _ x2d (stripNewlines (bs (error_text e)))); [apply stripNewlines_no_lf|done|tauto].
  - apply (reads_line _ x3a (FormatInt n)); [apply FormatInt_no_lf| |].
    + unfold enc. cbn [AppendAny]. unfold AppendInt. by rewrite appendPrefix_any.
    + right. left. split; [done|]. by apply valid_integer_FormatInt.
  - apply (reads_line _ x2b (stripNewlines (bs st))); [apply stripNewlines_no_lf|done|tauto].
  - apply (reads_bulk _ v); [|done]. unfold enc. cbn [AppendAny]. by rewrite AppendBulk_eq.
  - apply (reads_bulk _ (FormatInt n)); [|done]. unfold enc. cbn [AppendAny]. unfold AppendBulkInt.
    by rewrite AppendBulk_eq.
  - apply (reads_bulk _ (FormatUint n)); [|done]. unfold enc. cbn [AppendAny]. unfold AppendBulkUint.
    by rewrite AppendBulk_eq.
  - apply (reads_bulk _ (ToLower (FormatFloat f))); [|done]. unfold enc. cbn [AppendAny].
    unfold AppendBulkFloat. by rewrite AppendBulk_eq.
  - apply reads_array; [done|]. rewrite enc_RArr in Hb, Hf. cbn [reply_ok] in Hr.
    assert (Forall reply_ok l) as Hl.
    { clear -Hr. induction l as [|r l IH]; constructor; [apply Hr|apply IH, Hr]. }
    rewrite Forall_forall in IH, Hl. rewrite Forall_forall. intros r Hin rest'.
    pose proof (len_enc_elem r l Hin). rewrite len_app in Hb. rewrite length_app in Hf.
    pose proof (len_nonneg (header x2a (len l))). pose proof (len_enc_pos r).
    apply IH; [done|by apply Hl|unfold in_i64, MinInt64 in *; lia|].
    unfold header in Hf. cbn [length] in Hf. unfold len in *. lia.
Qed.

(** C34. Every reply is exactly one value on the wire: whatever a command answers, nested
    arrays and texts with line breaks included, the reader of the protocol takes the
    bytes of that reply, no more and no less, and what follows is untouched. *)
Theorem reply_framing r rest :
  reply_ok r -> in_i64 (len (AppendAny [] r)) ->
  exists resp, ReadNextRESP (AppendAny [] r ++ rest) = Some (len (AppendAny [] r), resp) /\
    Raw resp = AppendAny [] r /\ Type_ resp <> x00.
Proof.
  intros Hr Hb. apply reply_reads; [done|done|]. rewrite length_app. unfold enc. lia.
Qed.
