(* ===== verification/NextCmd.v ===== *)
(** The rest of redcon/resp.go: [ReadNextCommand], which reads one command of the three
    protocols from a packet, the forms of Tile38, and the values of arrays. *)

From S2P Require Import Prelude Xerror GoStd Utils Float Strconv Store Object Reply Resp RespSpec.
From Stdlib Require Import Init.Byte.

#[local] Open Scope Z_scope.

Inductive Kind := Redis | Tile38 | Telnet.

Inductive next_error := Protocol (e : errProtocol) | errInvalidMessage.

(** The results of [ReadNextCommand]; [argsbuf] only lends its memory. *)
Record next_command := mkNext {
  nc_complete : bool; nc_args : list bytes; nc_kind : Kind; nc_leftover : bytes; nc_err : option next_error
}.
Definition incomplete (kind : Kind) (packet : bytes) : next_command := mkNext false [] kind packet None.
Definition invalid (kind : Kind) (packet : bytes) (e : next_error) : next_command :=
  mkNext false [] kind packet (Some e).

(** [packet[i]], which panics outside of it. *)
Definition index (packet : bytes) (i : Z) : option Init.Byte.byte :=
  if i <? 0 then None else packet !! Z.to_nat i.

(** Whether a carriage return and a line feed are at [i]. *)
Definition crlf_at (packet : bytes) (i : Z) : option bool :=
  x ← index packet i;
  if negb (bool_decide (x = CR)) then Some false
  else y ← index packet (i64 (i + 1)); Some (bool_decide (y = LF)).

(** ** Redis *)

(** What became of an argument: it is not there in full, it is invalid, or it was read
    and something follows. *)
Inductive arg_result := Missing | Invalid (e : errProtocol) | Taken (a rest : bytes).

(** [None] is a panic. The length is not tested for being negative: the count is, which
    the loop has tested already. *)
Definition next_arg (packet b : bytes) : option arg_result :=
  match b with
  | [] => Some Missing
  | c :: l =>
      if negb (bool_decide (c = x24)) then Some (Invalid (errExpectedBulk c))
      else
        match read_line c l with
        | None => Some Missing
        | Some (inl _) => Some (Invalid errInvalidBulkLength)
        | Some (inr (line, rest)) =>
            match parseInt line with
            | None => Some (Invalid errInvalidBulkLength)
            | Some n =>
                let i := len packet - len rest in
                if len rest <? i64 (n + 2) then Some Missing
                else
                  ok ← crlf_at packet (i64 (i + n));
                  if negb ok then Some (Invalid errInvalidBulkLength)
                  else if n <? 0 then None
                  else Some (Taken (take (Z.to_nat n) rest) (drop (Z.to_nat (n + 2)) rest))
            end
        end
  end.

Fixpoint next_args (count : nat) (packet b : bytes) (args : list bytes) : option next_command :=
  match count with
  | O => Some (mkNext true args Redis b None)
  | S count =>
      r ← next_arg packet b;
      match r with
      | Missing => Some (incomplete Redis packet)
      | Invalid e => Some (invalid Redis packet (Protocol e))
      | Taken a rest => next_args count packet rest (args ++ [a])
      end
  end.

(** Every argument takes a byte, so that a larger count ends like one more than there are
    bytes. *)
Definition readRedisCommand (packet l : bytes) : option next_command :=
  match read_line x2a l with
  | None => Some (incomplete Redis packet)
  | Some (inl _) => Some (invalid Redis packet (Protocol errInvalidMultiBulkLength))
  | Some (inr (line, rest)) =>
      match parseInt line with
      | None => Some (invalid Redis packet (Protocol errInvalidMultiBulkLength))
      | Some count =>
          if count <? 0 then Some (invalid Redis packet (Protocol errInvalidMultiBulkLength))
          else next_args (Z.to_nat (Z.min count (len rest + 1))) packet rest []
      end
  end.

(** ** Tile38 *)

(** The bytes before the first space and those behind it. *)
Fixpoint split_space (l : bytes) : option (bytes * bytes) :=
  match l with
  | [] => None
  | c :: l =>
      if bool_decide (c = x20) then Some ([], l)
      else match split_space l with Some (a, b) => Some (c :: a, b) | None => None end
  end.

(** The words of a line; [None] is a panic, at the single quote that is taken for two. *)
Fixpoint tile38_args (fuel : nat) (line : bytes) (args : list bytes) : option (list bytes) :=
  match fuel, line with
  | O, _ | _, [] => Some args
  | S fuel, c :: _ =>
      if bool_decide (c = x7b) then Some (args ++ [line])
      else if bool_decide (c = x22) && bool_decide (last line = Some x22) &&
              match args, last args with
              | a :: _, Some z => lower_is a "set" && lower_is z "string"
              | _, _ => false
              end
      then if len line <? 2 then None else Some (args ++ [slice 1 (length line - 1) line])
      else
        match split_space line with
        | Some (value, line) => tile38_args fuel line (if bool_decide (value = []) then args else args ++ [value])
        | None => Some (args ++ [line])
        end
  end.

Definition readTile38Command (packet : bytes) : option next_command :=
  match split_space (drop 1 packet) with
  | None => Some (incomplete Tile38 packet)
  | Some (digits, rest) =>
      match parseInt digits with
      | None => Some (invalid Tile38 packet errInvalidMessage)
      | Some n =>
          if n <? 0 then Some (invalid Tile38 packet errInvalidMessage)
          else
            let i := len packet - len rest in
            if len packet <? i64 (i64 (i + n) + 2) then Some (incomplete Tile38 packet)
            else
              ok ← crlf_at packet (i64 (i + n));
              if negb ok then Some (invalid Tile38 packet errInvalidMessage)
              else
                let line := take (Z.to_nat n) rest in
                args ← tile38_args (S (length line)) line [];
                Some (mkNext true args Tile38 (drop (Z.to_nat (n + 2)) rest) None)
      end
  end.

(** ** Plain text *)

Definition readTelnetCommand (packet : bytes) : next_command :=
  match split_lf packet with
  | None => incomplete Telnet packet
  | Some (line, rest) =>
      match telnet_args (strip_cr line) None false [] [] with
      | inl e => invalid Telnet packet (Protocol e)
      | inr args => mkNext true args Telnet rest None
      end
  end.

Definition ReadNextCommand (packet : bytes) : option next_command :=
  match packet with
  | [] => Some (incomplete Redis packet)
  | c :: l =>
      if bool_decide (c = x2a) then readRedisCommand packet l
      else if bool_decide (c = x24) then readTile38Command packet
      else Some (readTelnetCommand packet)
  end.

Definition AppendTile38 (b data : bytes) : bytes :=
  (b ++ [x24]) ++ FormatInt (len data) ++ [x20] ++ data ++ CRLF.

(** ** Elements of an array *)

(** [ForEach]: [None] is a panic of the reader. The iteration [f] keeps a state and says
    whether to go on. *)
Fixpoint for_each {S} (count : nat) (data : bytes) (f : S -> RESP -> S * bool) (s : S) : option S :=
  match count with
  | O => Some s
  | Datatypes.S count =>
      '(n, resp) ← ReadNextRESP data;
      let '(s, go) := f s resp in
      if go : bool then for_each count (drop (Z.to_nat n) data) f s else Some s
  end.
Definition ForEach {S} (r : RESP) (f : S -> RESP -> S * bool) (s : S) : option S :=
  for_each (Z.to_nat (Count_ r)) (Data r) f s.

(** [prefixERRIfNeeded] on messages of ASCII characters. *)
Definition is_space (c : Init.Byte.byte) : bool :=
  existsb (fun x => bool_decide (c = x)) [x20; x09; x0a; x0b; x0c; x0d].
Fixpoint trim_left (s : bytes) : bytes :=
  match s with c :: s' => if is_space c then trim_left s' else s | [] => [] end.
Definition TrimSpace (s : bytes) : bytes := rev (trim_left (rev (trim_left s))).
Definition prefixERRIfNeeded (msg : bytes) : bytes :=
  let msg := TrimSpace msg in
  let firstWord := match split_space msg with Some (w, _) => w | None => msg end in
  if bool_decide (firstWord = []) || negb (forallb (fun c => (65 <=? b2z c) && (b2z c <=? 90)) firstWord)
  then TrimSpace (bs "ERR " ++ msg) else msg.

(** ** Properties *)

Lemma len_drop_le {A} n (l : list A) : len (drop n l) <= len l.
Proof. unfold len. rewrite length_drop. lia. Qed.

Lemma split_lf_len l a b : split_lf l = Some (a, b) -> exists k, l = k ++ b /\ 0 < len k.
Proof.
  revert a. induction l as [|c l IH]; intros a; cbn [split_lf]; [done|]. case_bool_decide.
  - intros [= _ <-]. exists [c]. split; [done|]. unfold len. simpl. lia.
  - destruct (split_lf l) as [[a' b']|]; [|done]. intros [= _ <-]. destruct (IH a' eq_refl) as (k&->&Hk).
    exists (c :: k). split; [done|]. rewrite len_cons. lia.
Qed.

Lemma read_line_suffix c l line rest : read_line c l = Some (inr (line, rest)) -> exists k, l = k ++ rest.
Proof.
  unfold read_line. destruct (split_lf l) as [[a b]|] eqn:E; [|done]. case_bool_decide; [|done].
  intros [= _ <-]. apply split_lf_len in E as (k&->&_). by exists k.
Qed.

(** The loop and the reader of the server take the same arguments. *)
Lemma next_arg_agrees packet k b a rest : packet = k ++ b -> in_i64 (len packet) ->
  read_bulk b = Some (inr (a, rest)) -> next_arg packet b = Some (Taken a rest).
Proof.
  intros -> Hmax. unfold read_bulk, next_arg. destruct b as [|c l]; [done|].
  destruct (negb (bool_decide (c = x24))); [done|].
  destruct (read_line c l) as [[[]|[line r]]|] eqn:El; try done.
  apply read_line_suffix in El as (j&->). destruct (parseInt line) as [n|]; [|done].
  destruct ((n <? 0) || (n >? 1024 * 1024)) eqn:En; [done|]. apply orb_false_iff in En as [En1 En2].
  apply Z.ltb_ge in En1. rewrite Z.gtb_ltb in En2. apply Z.ltb_ge in En2.
  rewrite (i64_small (n + 2)) by (unfold in_i64, MinInt64, MaxInt64; lia).
  destruct (Z.ltb_spec (len r) (n + 2)) as [|Hl]; [done|].
  destruct (negb (bool_decide (slice _ _ r = CRLF))) eqn:Es; [done|]. apply negb_false_iff, bool_decide_eq_true in Es.
  intros [= <- <-]. set (i := len (k ++ c :: j ++ r) - len r).
  pose proof (len_nonneg k) as Hk. pose proof (len_nonneg j) as Hj.
  assert (i = len (k ++ c :: j)) as Ei.
  { unfold i. rewrite !len_app, !len_cons, len_app. lia. }
  assert (i + n + 2 <= len (k ++ c :: j ++ r)) as Hb by (unfold i; lia).
  assert (forall d, 0 <= d < 2 -> index (k ++ c :: j ++ r) (i + n + d) = r !! Z.to_nat (n + d)) as Hidx.
  { intros d Hd. unfold index. destruct (Z.ltb_spec (i + n + d) 0); [pose proof (len_nonneg (k ++ c :: j)); lia|].
    replace (k ++ c :: j ++ r) with ((k ++ c :: j) ++ r) by by rewrite <- app_assoc.
    rewrite lookup_app_r by (unfold len in *; lia). f_equal. unfold len in *. lia. }
  pose proof (len_nonneg (k ++ c :: j)) as Hkj. unfold crlf_at.
  rewrite (i64_small (i + n)), (i64_small (i + n + 1)) by (unfold in_i64, MinInt64, MaxInt64 in *; lia).
  pose proof (Hidx 0 ltac:(lia)) as H0. pose proof (Hidx 1 ltac:(lia)) as H1. rewrite !Z.add_0_r in H0. rewrite H0, H1.
  assert (r !! Z.to_nat n = Some CR /\ r !! Z.to_nat (n + 1) = Some LF) as [-> ->].
  { unfold slice, CRLF in Es.
    replace (Z.to_nat (n + 2) - Z.to_nat n)%nat with 2%nat in Es by lia.
    assert (r = take (Z.to_nat n) r ++ [CR; LF] ++ drop 2 (drop (Z.to_nat n) r)) as Er.
    { rewrite <- Es, take_drop. by rewrite take_drop. }
    assert (length (take (Z.to_nat n) r) = Z.to_nat n) as Hlt by (rewrite length_take; unfold len in *; lia).
    rewrite Er. split; rewrite lookup_app_r, Hlt by lia.
    - by replace (Z.to_nat n - Z.to_nat n)%nat with 0%nat by lia.
    - by replace (Z.to_nat (n + 1) - Z.to_nat n)%nat with 1%nat by lia. }
  cbn. destruct (Z.ltb_spec n 0); [lia|done].
Qed.

Lemma read_bulk_suffix b a rest : read_bulk b = Some (inr (a, rest)) -> exists k, b = k ++ rest.
Proof.
  unfold read_bulk. destruct b as [|c l]; [done|]. destruct (negb (bool_decide (c = x24))); [done|].
  destruct (read_line c l) as [[[]|[line r]]|] eqn:El; try done.
  apply read_line_suffix in El as (j&->). destruct (parseInt line) as [n|]; [|done].
  destruct (_ || _); [done|]. destruct (_ <? _); [done|]. destruct (negb _); [done|]. intros [= _ <-].
  exists (c :: j ++ take (Z.to_nat (n + 2)) r). by rewrite <- app_comm_cons, <- app_assoc, take_drop.
Qed.

Lemma next_args_agree count packet k b acc args rest : packet = k ++ b -> in_i64 (len packet) ->
  read_bulks count b acc = Some (inr (args, rest)) ->
  next_args count packet b acc = Some (mkNext true args Redis rest None).
Proof.
  revert k b acc. induction count as [|count IH]; intros k b acc Hp Hmax; cbn [read_bulks next_args].
  { by intros [= <- <-]. }
  destruct (read_bulk b) as [[e|[a b']]|] eqn:E; [done| |done]. intros Hr.
  pose proof (next_arg_agrees packet k b a b' Hp Hmax E) as ->. cbn [mbind option_bind].
  destruct (read_bulk_suffix _ _ _ E) as (j&->). apply (IH (k ++ j)); [by rewrite <- app_assoc|done|done].
Qed.

Lemma read_bulks_count count b acc args rest : read_bulks count b acc = Some (inr (args, rest)) -> Z.of_nat count <= len b.
Proof.
  revert b acc. induction count as [|count IH]; intros b acc; cbn [read_bulks]; [intros _; apply len_nonneg|].
  destruct (read_bulk b) as [[e|[a b']]|] eqn:E; [done| |done]. intros Hr%IH.
  unfold read_bulk in E. destruct b as [|c l]; [done|]. destruct (negb (bool_decide (c = x24))); [done|].
  destruct (read_line c l) as [[[]|[line r]]|] eqn:El; try done. apply read_line_suffix in El as (j&->).
  destruct (parseInt line) as [n|]; [|done]. destruct (_ || _); [done|]. destruct (_ <? _); [done|].
  destruct (negb _); [done|]. injection E as _ <-. rewrite len_cons, len_app.
  pose proof (len_drop_le (Z.to_nat (n + 2)) r). pose proof (len_nonneg j). lia.
Qed.

(** What the server reads from the front of its buffer, [ReadNextCommand] reads too. *)
Lemma ReadNextCommand_agrees l args rest : in_i64 (len (x2a :: l)) ->
  read_multibulk l = Some (inr (args, rest)) ->
  ReadNextCommand (x2a :: l) = Some (mkNext true args Redis rest None).
Proof.
  intros Hmax. unfold ReadNextCommand. rewrite bool_decide_eq_true_2 by done. unfold readRedisCommand, read_multibulk.
  destruct (read_line x2a l) as [[[]|[line r]]|] eqn:El; try done. apply read_line_suffix in El as (j&->).
  destruct (parseInt line) as [count|]; [|done]. destruct (_ || _) eqn:Ec; [done|].
  apply orb_false_iff in Ec as [Ec _]. apply Z.leb_gt in Ec. destruct (Z.ltb_spec count 0); [lia|].
  intros Hr. pose proof (read_bulks_count _ _ _ _ _ Hr).
  rewrite Z.min_l by lia. by apply (next_args_agree _ _ (x2a :: j)).
Qed.

(** And so it reads what clients send. *)
Lemma ReadNextCommand_encode args rest : command_ok args -> in_i64 (len (encode_command args ++ rest)) ->
  ReadNextCommand (encode_command args ++ rest) = Some (mkNext true args Redis rest None).
Proof.
  intros Hc Hmax. destruct (read_multibulk_app args rest Hc) as (l&E&Hr). rewrite E in *.
  by apply ReadNextCommand_agrees.
Qed.

(** ** What the code does outside the theorems *)

(** A length of -2 passes: the two bytes before the argument are the line break of its
    own length, and the slice of the argument panics. The server's reader refuses it. *)
Example negative_length_panics :
  ReadNextCommand (bs "*1" ++ CRLF ++ bs "$-2" ++ CRLF) = None /\
  readCommands (bs "*1" ++ CRLF ++ bs "$-2" ++ CRLF) = inl errInvalidBulkLength.
Proof. vm_compute. auto. Qed.

(** An empty command is complete, where the server's reader refuses it. *)
Example empty_command :
  ReadNextCommand (bs "*0" ++ CRLF ++ bs "x") = Some (mkNext true [] Redis (bs "x") None) /\
  readCommands (bs "*0" ++ CRLF ++ bs "x") = inl errInvalidMultiBulkLength.
Proof. vm_compute. auto. Qed.

Example tile38_command :
  ReadNextCommand (AppendTile38 [] (bs "set k {a b}") ++ bs "y") =
  Some (mkNext true [bs "set"; bs "k"; bs "{a b}"] Tile38 (bs "y") None).
Proof. vm_compute. reflexivity. Qed.

Example telnet_command :
  ReadNextCommand (bs "set k 'a b'" ++ CRLF) = Some (mkNext true [bs "set"; bs "k"; bs "a b"] Telnet [] None).
Proof. vm_compute. reflexivity. Qed.

Example prefix_added : prefixERRIfNeeded (bs " bad thing") = bs "ERR bad thing" /\ prefixERRIfNeeded (bs "WRONGTYPE x") = bs "WRONGTYPE x".
Proof. vm_compute. auto. Qed.
