(* ===== verification/Redcon.v ===== *)
(** redcon/redcon.go around the protocol: the writer and the reader of a connection, the
    loop of the server over what a client sends, connections that leave it, and the
    dispatch of [ServeRESP] (server/server.go) as its handler. *)

From S2P Require Import Prelude Xerror GoStd Utils Float Strconv Store Mem Object Reply Client.
From S2P Require Import Transaction Pubsub Resp.
From Stdlib Require Import Init.Byte.

#[local] Open Scope Z_scope.

(** The bytes of a string of Go. *)
Definition protocol_text (e : errProtocol) : bytes :=
  bs "Protocol error: " ++
  match e with
  | errUnbalancedQuotes => bs "unbalanced quotes in request"
  | errInvalidBulkLength => bs "invalid bulk length"
  | errInvalidMultiBulkLength => bs "invalid multibulk length"
  | errExpectedBulk c => bs "expected '$', got '" ++ [c] ++ bs "'"
  end.

(** ** Reader *)

(** [Reader]: the bytes between [start] and [end], the commands that were read ahead, and
    the packets that the network will deliver before it ends. *)
Record Reader := mkReader { rd_buf : bytes; rd_cmds : list (list bytes); rd_in : list bytes }.
Definition NewReader (packets : list bytes) : Reader := mkReader [] [] packets.

(** An error of the protocol, or the end of the network. *)
Inductive read_error := ProtocolError (e : errProtocol) | EOF.

(** [readCommands(nil)]: it reads on until there is a command. *)
Fixpoint read_until (b : bytes) (packets : list bytes) : (read_error + list (list bytes)) * bytes * list bytes :=
  match readCommands b with
  | inl e => (inl (ProtocolError e), b, packets)
  | inr (c :: cmds, b) => (inr (c :: cmds), b, packets)
  | inr ([], b) =>
      match packets with
      | [] => (inl EOF, b, [])
      | p :: packets => read_until (b ++ p) packets
      end
  end.
Definition read_more (rd : Reader) : (read_error + list (list bytes)) * Reader :=
  let '(r, b, packets) := read_until (rd_buf rd) (rd_in rd) in (r, mkReader b (rd_cmds rd) packets).

Definition with_cmds (cmds : list (list bytes)) (rd : Reader) : Reader := mkReader (rd_buf rd) cmds (rd_in rd).

Definition ReadCommands (rd : Reader) : (read_error + list (list bytes)) * Reader :=
  match rd_cmds rd with
  | [] => read_more rd
  | cmds => (inr cmds, with_cmds [] rd)
  end.

Definition ReadCommand (rd : Reader) : (read_error + list bytes) * Reader :=
  match rd_cmds rd with
  | cmd :: cmds => (inr cmd, with_cmds cmds rd)
  | [] =>
      let '(r, rd) := read_more rd in
      match r with
      | inl e => (inl e, rd)
      | inr (cmd :: cmds) => (inr cmd, with_cmds cmds rd)
      | inr [] => (inl EOF, rd)
      end
  end.

(** [Parse]: a single command, without a network. *)
Inductive parse_error := ParseError (e : errProtocol) | errIncompleteCommand | errTooMuchData.
Definition Parse (raw : bytes) : parse_error + list bytes :=
  match readCommands raw with
  | inl e => inl (ParseError e)
  | inr ([], _) => inl errIncompleteCommand
  | inr (cmd :: _, leftover) => if bool_decide (leftover = []) then inr cmd else inl errTooMuchData
  end.

(** ** Commands *)

Definition Command_String (args : list bytes) : bytes := match args with [] => [] | a :: _ => a end.

Fixpoint All_go (args : list bytes) (per max i : Z) (b : bytes) : bytes :=
  match args with
  | [] => b
  | arg :: args =>
      if i >=? max then b
      else if len arg >? per then All_go args per max (i64 (i + 4)) (b ++ bs "... ")
      else All_go args per max (i64 (i + len arg + 1)) (b ++ arg ++ bs " ")
  end.
Definition All (args : list bytes) (per max : Z) : bytes := All_go args per max 0 [].

(** ** Connections *)

Inductive ConnState := StateNew | StateActive | StateIdle | StateClosed.
Definition state_number (s : ConnState) : Z :=
  match s with StateNew => 0 | StateActive => 1 | StateIdle => 2 | StateClosed => 3 end.

(** [setState] packs the time and the state into one word, and [getState] takes them out. *)
Definition packState (now : Z) (s : ConnState) : Z := Z.lor (wrap_u 64 (i64 (Z.shiftl now 8))) (state_number s).
Definition getState (packed : Z) : Z * Z := (Z.land packed 255, i64 (Z.shiftr packed 8)).

(** What a write to the network answers, by the number of writes so far, and whether the
    server has been told to stop, as the loop finds it after that many. *)
Class Network := {
  network_error : nat -> bool;
  done_isSet : nat -> bool
}.

Section conn.
Context `{Network} {St : Type}.

(** [Conn]; [c_ctx] is what the handler keeps with it, [c_sent] what the client has got. *)
Record RConn := mkRConn {
  c_ctx : St;
  c_wr : bytes;
  c_rd : Reader;
  c_detached : bool;
  c_closed : bool;
  c_cmds : list (list bytes);
  c_LastCmd : list bytes;
  c_state : ConnState;
  c_Trace : bool;
  c_sent : bytes;
  c_writes : nat
}.

Definition NewConn (ctx : St) (packets : list bytes) : RConn :=
  mkRConn ctx [] (NewReader packets) false false [] [] StateNew false [] 0.

Definition set_ctx (x : St) (c : RConn) : RConn :=
  mkRConn x (c_wr c) (c_rd c) (c_detached c) (c_closed c) (c_cmds c) (c_LastCmd c) (c_state c) (c_Trace c) (c_sent c) (c_writes c).
Definition SetBuffer (raw : bytes) (c : RConn) : RConn :=
  mkRConn (c_ctx c) raw (c_rd c) (c_detached c) (c_closed c) (c_cmds c) (c_LastCmd c) (c_state c) (c_Trace c) (c_sent c) (c_writes c).
Definition set_reader (rd : Reader) (c : RConn) : RConn :=
  mkRConn (c_ctx c) (c_wr c) rd (c_detached c) (c_closed c) (c_cmds c) (c_LastCmd c) (c_state c) (c_Trace c) (c_sent c) (c_writes c).
Definition set_state (s : ConnState) (c : RConn) : RConn :=
  mkRConn (c_ctx c) (c_wr c) (c_rd c) (c_detached c) (c_closed c) (c_cmds c) (c_LastCmd c) s (c_Trace c) (c_sent c) (c_writes c).
Definition set_cmds (cmds : list (list bytes)) (c : RConn) : RConn :=
  mkRConn (c_ctx c) (c_wr c) (c_rd c) (c_detached c) (c_closed c) cmds (c_LastCmd c) (c_state c) (c_Trace c) (c_sent c) (c_writes c).
Definition set_LastCmd (cmd : list bytes) (c : RConn) : RConn :=
  mkRConn (c_ctx c) (c_wr c) (c_rd c) (c_detached c) (c_closed c) (c_cmds c) cmd (c_state c) (c_Trace c) (c_sent c) (c_writes c).

Definition set_Trace (b : bool) (c : RConn) : RConn :=
  mkRConn (c_ctx c) (c_wr c) (c_rd c) (c_detached c) (c_closed c) (c_cmds c) (c_LastCmd c) (c_state c) b (c_sent c) (c_writes c).

(** [Writer]. *)
Definition WriteRaw (data : bytes) (c : RConn) : RConn := SetBuffer (c_wr c ++ data) c.
Definition WriteNull (c : RConn) : RConn := SetBuffer (AppendNull (c_wr c)) c.
Definition WriteArray (count : Z) (c : RConn) : RConn := SetBuffer (AppendArray (c_wr c) count) c.
Definition WriteBulk (bulk : bytes) (c : RConn) : RConn := SetBuffer (AppendBulk (c_wr c) bulk) c.
Definition WriteBulkString (bulk : bytes) (c : RConn) : RConn := SetBuffer (AppendBulkString (c_wr c) bulk) c.
Definition WriteError (msg : bytes) (c : RConn) : RConn := SetBuffer (AppendError (c_wr c) msg) c.
Definition WriteString (msg : bytes) (c : RConn) : RConn := SetBuffer (AppendString (c_wr c) msg) c.
Definition WriteInt64 (num : Z) (c : RConn) : RConn := SetBuffer (AppendInt (c_wr c) num) c.
Definition WriteInt (num : Z) (c : RConn) : RConn := WriteInt64 num c.
Definition WriteUint64 (num : Z) (c : RConn) : RConn := SetBuffer (AppendUint (c_wr c) num) c.
Definition WriteAny (v : reply) (c : RConn) : RConn := SetBuffer (AppendAny (c_wr c) v) c.

(** [Writer.Flush]: after an error the buffer is kept. *)
Definition Flush (c : RConn) : bool * RConn :=
  if network_error (c_writes c) then
    (false, mkRConn (c_ctx c) (c_wr c) (c_rd c) (c_detached c) (c_closed c) (c_cmds c) (c_LastCmd c) (c_state c)
              (c_Trace c) (c_sent c) (S (c_writes c)))
  else
    (true, mkRConn (c_ctx c) [] (c_rd c) (c_detached c) (c_closed c) (c_cmds c) (c_LastCmd c) (c_state c)
             (c_Trace c) (c_sent c ++ c_wr c) (S (c_writes c))).

Definition Conn_Close (c : RConn) : RConn :=
  if c_closed c then c
  else
    let c := snd (Flush c) in
    mkRConn (c_ctx c) (c_wr c) (c_rd c) (c_detached c) true (c_cmds c) (c_LastCmd c) (c_state c) (c_Trace c) (c_sent c) (c_writes c).

Definition ReadPipeline (c : RConn) : list (list bytes) * RConn := (c_cmds c, set_cmds [] c).
Definition PeekPipeline (c : RConn) : list (list bytes) := c_cmds c.

(** [Detach]: the commands that were read already go with the detached connection. *)
Record DetachedConn := { dc_Conn : RConn; dc_cmds : list (list bytes) }.
Definition Detach (c : RConn) : DetachedConn :=
  {| dc_Conn := mkRConn (c_ctx c) (c_wr c) (c_rd c) true (c_closed c) [] (c_LastCmd c) (c_state c) (c_Trace c) (c_sent c) (c_writes c);
     dc_cmds := c_cmds c |}.
Definition Detached_ReadCommand (dc : DetachedConn) : (read_error + list bytes) * DetachedConn :=
  match dc_cmds dc with
  | cmd :: cmds => (inr cmd, {| dc_Conn := dc_Conn dc; dc_cmds := cmds |})
  | [] =>
      let '(r, rd) := ReadCommand (c_rd (dc_Conn dc)) in
      (r, {| dc_Conn := set_reader rd (dc_Conn dc); dc_cmds := [] |})
  end.

(** ** The loop *)

(** The handler of the server; [None] is that it does not return. *)
Context (handler : list bytes -> RConn -> option RConn).

(** The commands of one packet. [n] bounds them, since a handler may take some away but
    none of this program adds any. *)
Fixpoint run_cmds (n : nat) (c : RConn) : option RConn :=
  match n, c_cmds c with
  | _, [] => Some c
  | O, _ :: _ => None
  | S n, cmd :: cmds => c ← handler cmd (set_LastCmd cmd (set_cmds cmds c)); run_cmds n c
  end.

(** Why a connection leaves the loop: an error of reading, of writing, it was detached, or
    it was closed or the server stops. *)
Inductive handle_end := ReadError (e : read_error) | WriteFailed | errDetached | NoError.

Fixpoint handle_loop (fuel : nat) (c : RConn) : option (handle_end * RConn) :=
  match fuel with
  | O => None
  | S fuel =>
      let '(r, rd) := read_more (c_rd c) in
      let c := set_reader rd c in
      match r with
      | inl (ProtocolError e) => Some (ReadError (ProtocolError e), snd (Flush (WriteError (bs "ERR " ++ protocol_text e) c)))
      | inl e => Some (ReadError e, c)
      | inr cmds =>
          let c := set_state (if bool_decide (rd_buf rd = []) then StateIdle else StateActive) c in
          c ← run_cmds (length cmds) (set_cmds cmds c);
          if c_detached c then Some (errDetached, c)
          else if c_closed c then Some (NoError, c)
          else
            let '(ok, c) := Flush c in
            if negb ok then Some (WriteFailed, c)
            else if done_isSet (c_writes c) && bool_decide (rd_buf (c_rd c) = []) then Some (NoError, c)
            else handle_loop fuel c
      end
  end.

(** Every round but the last takes a byte or more of what is still to come. *)
Definition to_come (rd : Reader) : nat := length (rd_buf rd) + length (concat (rd_in rd)).
Definition handle (c : RConn) : option (handle_end * RConn) := handle_loop (S (to_come (c_rd c))) c.

End conn.
#[global] Arguments RConn : clear implicits.

(** ** The handler of the server *)

(** What a command has written, in the buffer of the connection. PUBLISH returns its
    message only inside MULTI, where EXEC writes the count in its place, so that a message
    is never written. *)
Definition write_wire {St} (x : wire) (c : RConn St) : option (RConn St) :=
  match x with
  | WAny r => Some (WriteAny r c)
  | WAnyMessage _ => None
  | WError msg => Some (WriteError (bs msg) c)
  | WNull => Some (WriteNull c)
  end.
Fixpoint write_wires {St} (l : list wire) (c : RConn St) : option (RConn St) :=
  match l with
  | [] => Some c
  | x :: l => c ← write_wire x c; write_wires l c
  end.

(** The embedded text of COMMAND, and the traces of the appdash library. *)
Class Embedded := { COMMANDS : bytes; GetTraces : error + list bytes }.

Section server.
Context `{Network} `{Server} `{PubSub} `{Embedded}.

Definition refuse_conn (e : error) (c : RConn World) : RConn World := WriteError (bs (conn_error_text e)) c.

Definition trace (cmd : list bytes) (c : RConn World) : RConn World :=
  match cmd with
  | [_; sub] =>
      if lower_is sub "enable" then WriteAny OK (set_Trace true c)
      else if lower_is sub "disable" then WriteAny OK (set_Trace false c)
      else if lower_is sub "toggle" then WriteAny OK (set_Trace (negb (c_Trace c)) c)
      else if lower_is sub "info" then WriteAny (RBulk (bs (if c_Trace c then "enable" else "disable"))) c
      else if lower_is sub "list" then
        match GetTraces with inl e => refuse_conn e c | inr traces => WriteAny (RArr (RBulk <$> traces)) c end
      else refuse_conn (WrongArgsError "trace") c
  | _ => refuse_conn (WrongArgsError "trace") c
  end.

Definition quit (c : RConn World) : RConn World := Conn_Close (WriteAny OK c).

(** SUBSCRIBE and PSUBSCRIBE: the connection leaves the loop, and goes on in Pubsub.v. *)
Definition subscribe_conn (cmd : list bytes) (c : RConn World) : RConn World :=
  if len cmd <? 2 then refuse_conn (WrongArgsError "subscribe") c
  else match WaitAlive with Some e => refuse_conn e c | None => dc_Conn (Detach c) end.

(** The commands of [Command.ConnHandle] that concern the connection alone. *)
Definition conn_command (comma : string) : bool :=
  bool_decide (comma ∈ ["quit"; "command"; "trace"; "subscribe"; "psubscribe"; "unsubscribe"; "punsubscribe"]%string).
Definition conn_handle (comma : string) (cmd : list bytes) (c : RConn World) : RConn World :=
  if bool_decide (comma = "quit"%string) then quit c
  else if bool_decide (comma = "command"%string) then WriteRaw COMMANDS c
  else if bool_decide (comma = "trace"%string) then trace cmd c
  else if bool_decide (comma = "unsubscribe"%string) then foldl (fun c r => WriteAny r c) c (UnsubscribeHandle cmd)
  else if bool_decide (comma = "punsubscribe"%string) then foldl (fun c r => WriteAny r c) c (PUnsubscribeHandle cmd)
  else subscribe_conn cmd c.

(** [ServeRESP] of a connection whose user is known. *)
Definition ServeRESP (cmd : list bytes) (c : RConn World) : option (RConn World) :=
  if c_closed c then Some c
  else
    match cmd with
    | [] => Some (WriteError (bs (conn_error_text (WrongArgsError ""))) c)
    | _ =>
        if conn_command (comma_of cmd) then Some (conn_handle (comma_of cmd) cmd c)
        else
        match serve cmd (c_ctx c) with
        | Done _ w =>
            write_wires (drop (length (cn_out (w_conn (c_ctx c)))) (cn_out (w_conn w))) (set_ctx w c)
        | _ => None
        end
    end.

End server.
