(* ===== verification/RedconSpec.v ===== *)
(** A whole connection, from the bytes that arrive to the bytes that leave: the server
    answers every command of a pipeline with one value, in order, however the network cuts
    what the client sends. *)

From S2P Require Import Prelude Xerror GoStd Utils Float Strconv Store Mem Object Reply Client.
From S2P Require Import Transaction TransactionSpec Resp RespSpec Redcon.
From Stdlib Require Import Init.Byte.

#[local] Open Scope Z_scope.

(** ** What a command writes *)

Section serve.
Context `{Server} `{PubSub}.

Definition out (w : World) : list wire := cn_out (w_conn w).

(** A command that ends has written one thing. *)
Definition answers (w : World) (s : Step) : Prop :=
  match s with Done _ w' => exists x, out w' = out w ++ [x] | Panicked | Diverged => True end.

Lemma answers_same w w' s : out w' = out w -> answers w' s -> answers w s.
Proof. intros E. destruct s; cbn [answers]; [|done..]. by rewrite E. Qed.

Lemma answers_write e w w' x : out w' = out w -> answers w (Done e (write x w')).
Proof. intros E. exists x. change (out w' ++ [x] = out w ++ [x]). by rewrite E. Qed.

Lemma answers_refuse e w w' : out w' = out w -> answers w (refuse e w').
Proof. apply answers_write. Qed.

Ltac answer := first [by apply answers_write | by apply answers_refuse].

Lemma answers_single n f args last t w w0 : out w = out w0 -> answers w0 (single_loop n f args last t w).
Proof.
  revert last t w. induction n as [|n IH]; intros last t w E; cbn [single_loop]; [by apply answers_refuse|].
  unfold SingleHandler. destruct (Begin _ t) as [t1 [e|]]; [by apply IH|].
  destruct (f args t1) as [r t2| |]; [|done..]. destruct (t_Err t2) as [e|].
  - destruct r as [[]|]; by answer.
  - destruct (Commit _ t2) as [[c t3] [e|]]; [by apply IH|]. destruct r as [[]|]; by answer.
Qed.

Lemma answers_exec_run t w : answers w (exec_run t w).
Proof.
  unfold exec_run. destruct (exec_loop _ _ _) as [[e|slots] t1| |]; [answer| |done..].
  unfold exec_commit. destruct (if bool_decide _ then _ else _); [answer|].
  destruct (Commit _ t1) as [[c t2] [e|]].
  - destruct (t_Watch t2); answer.
  - destruct (fill _ _); [answer|done].
Qed.

Lemma serve_answers cmd w : answers w (serve cmd w).
Proof.
  unfold serve, ConnHandleTable. destruct (bool_decide _).
  { unfold watch. destruct (_ =? _); [answer|]. destruct (getOrCreateTransaction _) as [t b].
    destruct (t_Multi t); [answer|]. destruct (if HasTransaction t then _ else _) as [t1 [e|]]; [by destruct b; answer|].
    destruct (LockKeys _ t1) as [[e|] t2| |]; [by destruct b; answer|answer|done..]. }
  destruct (bool_decide _).
  { unfold multi. destruct (negb _); [answer|]. destruct (getOrCreateTransaction _) as [t b].
    destruct (t_Multi t); answer. }
  destruct (bool_decide _).
  { unfold exec. destruct (negb _); [answer|]. destruct (getTransaction _) as [t|]; [|answer].
    destruct (negb _); [answer|]. destruct (t_PendingErr t); [answer|].
    destruct (if HasTransaction t then _ else _) as [t1 [e|]]; [answer|].
    eapply answers_same; [|apply answers_exec_run]. done. }
  destruct (bool_decide _).
  { unfold discard. destruct (negb _); [answer|]. destruct (getTransaction _) as [t|]; [|answer].
    destruct (negb _); answer. }
  unfold TxnHandler. destruct (TxnHandleTable _) as [f|].
  - unfold checkSingle. destruct (getTransaction _) as [t|]; [|by apply answers_single].
    destruct (t_Multi t); [answer|]. apply answers_single. by destruct (bool_decide _).
  - destruct (getTransaction _) as [t|]; [|answer]. destruct (t_Multi t); answer.
Qed.

(** Commands one after the other. *)
Fixpoint serve_all (cmds : list (list bytes)) (w : World) : option World :=
  match cmds with
  | [] => Some w
  | cmd :: cmds => match serve cmd w with Done _ w => serve_all cmds w | Panicked | Diverged => None end
  end.

Lemma serve_all_app l k w : serve_all (l ++ k) w = w' ← serve_all l w; serve_all k w'.
Proof.
  revert w. induction l as [|cmd l IH]; intros w; [done|]. cbn [app serve_all]. destruct (serve cmd w); [apply IH|done..].
Qed.

Lemma serve_all_out cmds w w' : serve_all cmds w = Some w' ->
  exists l, out w' = out w ++ l /\ length l = length cmds.
Proof.
  revert w. induction cmds as [|cmd cmds IH]; intros w; cbn [serve_all].
  { intros [= ->]. exists []. by rewrite app_nil_r. }
  pose proof (serve_answers cmd w) as Ha. destruct (serve cmd w) as [e w1| |]; [|done..].
  intros (l&E&El)%IH. destruct Ha as [x Ex]. exists (x :: l). rewrite E, Ex, <- app_assoc. split; [done|]. simpl. by f_equal.
Qed.

End serve.

(** ** On the wire *)

Definition enc_wire (x : wire) : bytes :=
  match x with
  | WAny r => enc r
  | WAnyMessage _ => []
  | WError msg => AppendError [] (bs msg)
  | WNull => AppendNull []
  end.

(** What may be written: integers of 64 bits, and no more bytes than can be counted. *)
Definition wire_ok (x : wire) : Prop :=
  match x with
  | WAny r => reply_ok r /\ in_i64 (len (enc r))
  | WAnyMessage _ => False
  | _ => True
  end.

Lemma enc_wire_reads x fuel rest : wire_ok x -> (length (enc_wire x) < fuel)%nat -> reads_bytes fuel (enc_wire x) rest.
Proof.
  intros Hx Hf. destruct x as [r|m|msg|]; cbn [wire_ok enc_wire] in *; [|done|..].
  - destruct Hx. apply reply_reads; [done..|lia].
  - destruct fuel as [|fuel]; [lia|]. unfold AppendError. cbn [app].
    apply reads_line_bytes; [apply stripNewlines_no_lf|tauto].
  - destruct fuel as [|fuel]; [lia|]. unfold AppendNull.
    change ([] ++ bs "$-1" ++ CRLF) with (x24 :: bs "-1" ++ CRLF). apply reads_line_bytes; [|tauto].
    apply (bool_decide_unpack _). vm_compute. exact I.
Qed.

(** The values that a client reads, one after the other, until nothing is left. *)
Fixpoint read_values (fuel : nat) (b : bytes) : option (list RESP) :=
  match fuel, b with
  | _, [] => Some []
  | O, _ => None
  | S fuel, b =>
      '(n, r) ← ReadNextRESP b;
      if bool_decide (Type_ r = x00) then None else cons r <$> read_values fuel (drop (Z.to_nat n) b)
  end.

Lemma enc_wire_nonempty x : wire_ok x -> enc_wire x <> [].
Proof.
  destruct x as [r|m|msg|]; cbn [wire_ok enc_wire]; [|done..].
  intros _ E. pose proof (len_enc_pos r). rewrite E in *. done.
Qed.

Lemma read_values_enc l fuel : Forall wire_ok l -> (length l <= fuel)%nat ->
  exists vs, read_values fuel (concat (enc_wire <$> l)) = Some vs /\ (Raw <$> vs) = (enc_wire <$> l).
Proof.
  intros Hl. revert fuel. induction Hl as [|x l Hx Hl IH]; intros fuel Hf.
  { exists []. by destruct fuel. }
  destruct fuel as [|fuel]; [simpl in Hf; lia|]. cbn [fmap list_fmap concat length] in *.
  destruct (IH fuel ltac:(lia)) as (vs&E&Ev).
  destruct (enc_wire_reads x (S (length (enc_wire x ++ concat (enc_wire <$> l)))) (concat (enc_wire <$> l)) Hx)
    as (r&Er&Eraw&Ht); [rewrite length_app; lia|].
  exists (r :: vs). split; [|cbn [fmap list_fmap]; by rewrite Eraw, Ev].
  destruct (enc_wire x ++ concat (enc_wire <$> l)) as [|b0 b] eqn:Eb.
  { apply app_eq_nil in Eb as [Eb _]. by apply enc_wire_nonempty in Eb. }
  cbn [read_values]. rewrite <- Eb in *. unfold ReadNextRESP. rewrite Er. cbn [mbind option_bind].
  rewrite bool_decide_eq_false_2 by done. rewrite drop_len. rewrite E. done.
Qed.

(** ** What arrives *)

Lemma encode_command_nonempty c : command_ok c -> encode_command c <> [].
Proof. intros (_&_&_). rewrite encode_command_eq. done. Qed.

Abbreviation encoded cmds := (concat (encode_command <$> cmds)).

(** Some bytes of a pipeline are its first commands and a part of the next. *)
Lemma encoded_split cmds b k : Forall command_ok cmds -> b ++ k = encoded cmds ->
  exists ready todo p, cmds = ready ++ todo /\ b = encoded ready ++ p /\ p ++ k = encoded todo /\
    ((todo = [] /\ p = []) \/ exists c todo' s, todo = c :: todo' /\ p ++ s = encode_command c /\ s <> []).
Proof.
  intros Hc. revert b. induction Hc as [|c cmds Hc Hcs IH]; intros b E; cbn [fmap list_fmap concat] in E.
  { apply app_eq_nil in E as [-> ->]. exists [], [], []. tauto. }
  destruct (decide (length b < length (encode_command c))%nat) as [Hlt|Hge].
  - exists [], (c :: cmds), b. split; [done|]. split; [done|]. split; [done|]. right.
    exists c, cmds, (drop (length b) (encode_command c)). split; [done|].
    assert (b = take (length b) (encode_command c)) as Eb.
    { pose proof (f_equal (take (length b)) E) as Et. rewrite take_app_length in Et.
      rewrite take_app_le in Et by lia. exact Et. }
    split; [rewrite Eb at 1; by rewrite take_drop|].
    intros En%(f_equal length). rewrite length_drop in En. simpl in En. lia.
  - assert (b = encode_command c ++ drop (length (encode_command c)) b) as Eb.
    { pose proof (f_equal (take (length (encode_command c))) E) as Et.
      rewrite take_app_length, take_app_le in Et by lia. rewrite <- Et at 1. by rewrite take_drop. }
    set (b' := drop (length (encode_command c)) b) in *. clearbody b'. subst b.
    rewrite <- app_assoc in E. apply app_inv_head in E. destruct (IH b' E) as (ready&todo&p&->&->&Ek&Hd).
    exists (c :: ready), todo, p. cbn [fmap list_fmap concat]. rewrite app_assoc. tauto.
Qed.

Lemma readCommands_split ready todo p : Forall command_ok (ready ++ todo) ->
  ((todo = [] /\ p = []) \/ exists c todo' s, todo = c :: todo' /\ p ++ s = encode_command c /\ s <> []) ->
  readCommands (encoded ready ++ p) = inr (ready, p).
Proof.
  intros [Hr Ht]%Forall_app [[-> ->]|(c&todo'&s&->&E&Hs)].
  - apply (readCommands_cut _ [bs "x"] [] (encode_command [bs "x"])); [done| |done|done].
    split; [done|]. split; [done|]. by repeat constructor.
  - apply Forall_cons in Ht as [Hc _]. by apply (readCommands_cut _ c p s).
Qed.

Lemma read_until_eq b packets : read_until b packets =
  match readCommands b with
  | inl e => (inl (ProtocolError e), b, packets)
  | inr (c :: cmds, b) => (inr (c :: cmds), b, packets)
  | inr ([], b) =>
      match packets with
      | [] => (inl EOF, b, [])
      | p :: packets => read_until (b ++ p) packets
      end
  end.
Proof. by destruct packets. Qed.

(** The reader waits for a command and returns all that are there. *)
Lemma read_until_spec packets b cmds : Forall command_ok cmds -> b ++ concat packets = encoded cmds ->
  (cmds = [] /\ read_until b packets = (inl EOF, [], [])) \/
  exists ready todo p ps, cmds = ready ++ todo /\ ready <> [] /\ read_until b packets = (inr ready, p, ps) /\
    p ++ concat ps = encoded todo.
Proof.
  revert b. induction packets as [|pk packets IH]; intros b Hc E; rewrite read_until_eq;
    destruct (encoded_split cmds b _ Hc E) as (ready&todo&p&->&->&Ep&Hd);
    rewrite (readCommands_split ready todo p Hc Hd).
  - destruct ready as [|c0 ready].
    + cbn [app] in *. destruct Hd as [[-> ->]|(c&todo'&s&->&Es&Hs)]; [by left|].
      exfalso. cbn [concat fmap list_fmap] in Ep. rewrite app_nil_r in Ep. rewrite Ep in Es.
      apply Hs. apply (f_equal length) in Es. rewrite !length_app in Es.
      destruct s; [done|]. simpl in Es. lia.
    + right. exists (c0 :: ready), todo, p, []. done.
  - destruct ready as [|c0 ready].
    + cbn [app fmap list_fmap concat] in *. apply IH; [done|]. by rewrite <- app_assoc.
    + right. exists (c0 :: ready), todo, p, (pk :: packets). done.
Qed.

(** ** The loop *)

Section loop.
Context `{Network} `{Server} `{PubSub} `{Embedded}.

Lemma write_wire_run {St} x (c : RConn St) : wire_ok x -> write_wire x c = Some (SetBuffer (c_wr c ++ enc_wire x) c).
Proof.
  destruct x as [r|m|msg|]; cbn [wire_ok write_wire enc_wire]; [|done|done|done].
  intros _. unfold WriteAny. by rewrite AppendAny_app.
Qed.

(** A command that [serve] handles. *)
Definition served (cmd : list bytes) : Prop := cmd <> [] /\ conn_command (comma_of cmd) = false.

(** What the commands of a packet leave alone. *)
Definition same_io (c c' : RConn World) : Prop :=
  c_rd c' = c_rd c /\ c_detached c' = c_detached c /\ c_closed c' = c_closed c /\ c_sent c' = c_sent c /\
  c_writes c' = c_writes c.

Definition new_out (w w' : World) : list wire := drop (length (out w)) (out w').

Lemma new_out_app w w' l : out w' = out w ++ l -> new_out w w' = l.
Proof. intros E. unfold new_out. by rewrite E, drop_app_length. Qed.

Lemma run_cmds_serve cmds n c w' :
  c_cmds c = cmds -> c_closed c = false -> Forall served cmds -> (length cmds <= n)%nat ->
  serve_all cmds (c_ctx c) = Some w' -> Forall wire_ok (new_out (c_ctx c) w') ->
  exists c', run_cmds ServeRESP n c = Some c' /\ c_ctx c' = w' /\ same_io c c' /\
    c_wr c' = c_wr c ++ concat (enc_wire <$> new_out (c_ctx c) w').
Proof.
  intros E Hcl Hne. revert n c E Hcl. induction Hne as [|cmd cmds Hcmd Hne IH]; intros n c E Hcl Hn Hs Hw.
  { cbn [serve_all] in Hs. injection Hs as <-. exists c. split; [destruct n; cbn [run_cmds]; by rewrite E|].
    split; [done|]. split; [done|]. unfold new_out. rewrite drop_all. cbn. by rewrite app_nil_r. }
  destruct n as [|n]; [simpl in Hn; lia|]. cbn [serve_all] in Hs. pose proof (serve_answers cmd (c_ctx c)) as Ha.
  destruct (serve cmd (c_ctx c)) as [e w1| |] eqn:Es; [|done..]. destruct Ha as [x Ex].
  destruct (serve_all_out cmds w1 w' Hs) as (l&El&Hl).
  assert (out w' = out (c_ctx c) ++ x :: l) as Eo by (rewrite El, Ex; by rewrite <- app_assoc).
  rewrite (new_out_app _ _ _ Eo) in Hw |- *. apply Forall_cons in Hw as [Hx Hw].
  set (c1 := SetBuffer (c_wr c ++ enc_wire x) (set_ctx w1 (set_LastCmd cmd (Redcon.set_cmds cmds c)))).
  assert (ServeRESP cmd (set_LastCmd cmd (Redcon.set_cmds cmds c)) = Some c1) as E1.
  { unfold ServeRESP. cbn [c_closed set_LastCmd Redcon.set_cmds c_ctx]. rewrite Hcl.
    destruct Hcmd as [Hcmd Hcc]. destruct cmd as [|name args]; [done|]. rewrite Hcc, Es.
    change (drop (length (out (c_ctx c))) (out w1)) with (new_out (c_ctx c) w1).
    change (drop _ _) with (new_out (c_ctx c) w1).
    rewrite (new_out_app _ _ _ Ex). cbn [write_wires]. by rewrite write_wire_run. }
  destruct (IH n c1) as (c'&Er&Ectx&Hio&Ewr); [done|done|simpl in Hn; lia|done|change (c_ctx c1) with w1; by rewrite (new_out_app _ _ _ El)|].
  exists c'. split; [cbn [run_cmds]; rewrite E, E1; exact Er|]. split; [done|]. split; [exact Hio|].
  rewrite Ewr. change (c_ctx c1) with w1. rewrite (new_out_app _ _ _ El). cbn [fmap list_fmap concat c_wr c1 SetBuffer].
  by rewrite <- app_assoc.
Qed.

Lemma handle_loop_serves fuel c cmds w' :
  (forall n, network_error n = false) -> (forall n, done_isSet n = false) ->
  Forall command_ok cmds -> Forall served cmds -> rd_buf (c_rd c) ++ concat (rd_in (c_rd c)) = encoded cmds ->
  c_closed c = false -> c_detached c = false -> c_wr c = [] ->
  serve_all cmds (c_ctx c) = Some w' -> Forall wire_ok (new_out (c_ctx c) w') -> (length cmds < fuel)%nat ->
  exists c', handle_loop ServeRESP fuel c = Some (ReadError EOF, c') /\ c_ctx c' = w' /\
    c_sent c' = c_sent c ++ concat (enc_wire <$> new_out (c_ctx c) w').
Proof.
  intros Hnet Hdone. revert c cmds. induction fuel as [|fuel IH]; intros c cmds Hc Hsv E Hcl Hdt Hwr Hs Hw Hf; [lia|].
  cbn [handle_loop]. unfold read_more.
  destruct (read_until_spec (rd_in (c_rd c)) (rd_buf (c_rd c)) cmds Hc E) as [[-> ->]|(ready&todo&p&ps&->&Hr&->&Ep)].
  { cbn [serve_all] in Hs. injection Hs as <-. eexists. split; [done|]. split; [done|].
    unfold new_out. rewrite drop_all. cbn. by rewrite app_nil_r. }
  apply Forall_app in Hc as [Hcr Hct], Hsv as [Hsr Hst]. rewrite serve_all_app in Hs.
  destruct (serve_all ready (c_ctx c)) as [w1|] eqn:Es; [|done]. cbn [mbind option_bind] in Hs.
  destruct (serve_all_out ready _ _ Es) as (l1&E1&_). destruct (serve_all_out todo _ _ Hs) as (l2&E2&_).
  assert (out w' = out (c_ctx c) ++ (l1 ++ l2)) as Eo by (rewrite E2, E1; by rewrite <- app_assoc).
  rewrite (new_out_app _ _ _ Eo) in Hw |- *. apply Forall_app in Hw as [Hw1 Hw2].
  set (c1 := Redcon.set_cmds ready (set_state (if bool_decide (rd_buf (mkReader p (rd_cmds (c_rd c)) ps) = []) then StateIdle
    else StateActive) (set_reader (mkReader p (rd_cmds (c_rd c)) ps) c))).
  destruct (run_cmds_serve ready (length ready) c1 w1) as (c2&Er&Ectx&(Erd&Edt&Ecl&Esent&Ewrites)&Ewr);
    [done|done|exact Hsr|done|done|change (c_ctx c1) with (c_ctx c); by rewrite (new_out_app _ _ _ E1)|].
  fold c1. rewrite Er. cbn [mbind option_bind].
  rewrite Edt, Ecl. cbn [c1 c_detached c_closed Redcon.set_cmds set_state set_reader]. rewrite Hdt, Hcl.
  unfold Flush. rewrite Hnet. cbn [negb]. rewrite Hdone. cbn [andb].
  match goal with |- context [handle_loop _ fuel ?c3] => destruct (IH c3 todo) as (c'&Ec'&Ectx'&Esent') end;
    cbn [c_rd c_closed c_detached c_wr c_ctx]; [done|exact Hst|by rewrite Erd|by rewrite Ecl|by rewrite Edt|done|by rewrite Ectx| | |].
  - by rewrite Ectx, (new_out_app _ _ _ E2).
  - rewrite length_app in Hf. destruct ready; [done|]. simpl in Hf. lia.
  - exists c'. split; [exact Ec'|]. split; [done|]. rewrite Esent'. cbn [c_sent c_ctx].
    rewrite Ectx, (new_out_app _ _ _ E2), Esent, Ewr. change (c_ctx c1) with (c_ctx c).
    rewrite (new_out_app _ _ _ E1). cbn [c1 c_sent c_wr Redcon.set_cmds set_state set_reader]. rewrite Hwr.
    rewrite fmap_app, concat_app. by rewrite <- app_assoc.
Qed.

Lemma encoded_length cmds : Forall command_ok cmds -> (length cmds <= length (encoded cmds))%nat.
Proof.
  induction 1 as [|c cmds Hc _ IH]; cbn [fmap list_fmap concat length]; [lia|]. rewrite length_app.
  pose proof (encode_command_nonempty c Hc). destruct (encode_command c); [done|]. simpl. lia.
Qed.

(** C15. A client pipelines commands, and the network cuts them into packets in any way.
    The server answers each command with one value, in the order of the commands, and ends
    when the client does: the commands run one after the other on the connection, and a
    client that reads what it is sent finds exactly as many values as it has sent commands,
    each with the bytes of the answer to its command. QUIT, COMMAND, TRACE and the
    subscriptions, which concern the connection alone, are not among the commands. *)
Theorem server_pipeline cmds packets w w' :
  (forall n, network_error n = false) -> (forall n, done_isSet n = false) ->
  Forall command_ok cmds -> Forall (fun cmd => conn_command (comma_of cmd) = false) cmds ->
  concat packets = concat (encode_command <$> cmds) ->
  serve_all cmds w = Some w' -> Forall wire_ok (new_out w w') ->
  exists c vs, handle ServeRESP (NewConn w packets) = Some (ReadError EOF, c) /\ c_ctx c = w' /\
    length (new_out w w') = length cmds /\
    c_sent c = concat (enc_wire <$> new_out w w') /\
    read_values (length cmds) (c_sent c) = Some vs /\ length vs = length cmds /\
    (Raw <$> vs) = (enc_wire <$> new_out w w').
Proof.
  intros Hnet Hdone Hc Hcc E Hs Hw. destruct (serve_all_out _ _ _ Hs) as (l&El&Hl).
  assert (Forall served cmds) as Hsv.
  { apply Forall_forall. intros cmd Hin. rewrite Forall_forall in Hc, Hcc. split; [by apply Hc|by apply Hcc]. }
  destruct (handle_loop_serves (S (to_come (NewReader packets))) (NewConn w packets) cmds w') as (c&Ec&Ectx&Esent);
    [done..| |].
  { unfold to_come. cbn [NewReader rd_buf rd_in length]. rewrite E. pose proof (encoded_length cmds Hc). lia. }
  change (c_ctx (NewConn w packets)) with w in Esent. cbn [c_sent NewConn app] in Esent.
  rewrite (new_out_app _ _ _ El) in *. destruct (read_values_enc l (length cmds) Hw) as (vs&Ev&Eraw); [lia|].
  exists c, vs. split; [exact Ec|]. split; [done|]. split; [done|]. split; [done|]. rewrite Esent.
  split; [done|]. split; [|done]. apply (f_equal length) in Eraw. rewrite !length_fmap in Eraw. lia.
Qed.

End loop.
