(* ===== verification/HashSpec.v ===== *)
(** What the commands on hashes and sets promise: the fields of a collection as a
    finite function, HSET, HDEL, SADD and SREM as operations on it that keep the
    counters in step, and HGET, SISMEMBER and the listings as reads of it. *)

From S2P Require Import Prelude Xerror GoStd Utils Store Ranges Mem Object Reply ObjectSpec.
From S2P Require Import Counters Generic GenericSpec Strings StringsSpec HashCmd SetCmd.
From Stdlib Require Import Init.Byte.

#[local] Open Scope Z_scope.

(** ** The fields of a collection *)

Definition fields (d : gmap bytes bytes) (o : Object) (f : bytes) : option bytes :=
  d !! GetValueBytes o f.

Lemma GetValueBytes_inj o f f' : GetValueBytes o f = GetValueBytes o f' -> f = f'.
Proof. rewrite !GetValueBytes_app. apply app_inv_head. Qed.

Definition put_field (f v : bytes) (g : bytes -> option bytes) (x : bytes) : option bytes :=
  if decide (x = f) then Some v else g x.
Definition del_field (f : bytes) (g : bytes -> option bytes) (x : bytes) : option bytes :=
  if decide (x = f) then None else g x.

Lemma fields_put d o f v x : fields (<[GetValueBytes o f := v]> d) o x = put_field f v (fields d o) x.
Proof.
  unfold fields, put_field. destruct (decide (x = f)) as [->|Hn]; [apply lookup_insert_eq|].
  apply lookup_insert_ne. intros E%GetValueBytes_inj. by subst.
Qed.
Lemma fields_del d o f x : fields (delete (GetValueBytes o f) d) o x = del_field f (fields d o) x.
Proof.
  unfold fields, del_field. destruct (decide (x = f)) as [->|Hn]; [apply lookup_delete_eq|].
  apply lookup_delete_ne. intros E%GetValueBytes_inj. by subst.
Qed.

(** Writing fields one after the other: how many are new, and the fields after. *)
Fixpoint hset_spec (ts : Z) (checkExist : bool) (kvs : list bytes) (g : bytes -> option bytes) :
    Z * (bytes -> option bytes) :=
  match kvs with
  | f :: v :: kvs =>
      let g' := put_field f (EncodeValue {| v_Timestamp := ts; v_Value := v |}) g in
      match g f with
      | None => let '(n, h) := hset_spec ts checkExist kvs g' in (1 + n, h)
      | Some _ => hset_spec ts checkExist kvs (if checkExist then g else g')
      end
  | _ => (0, g)
  end.

(** Deleting fields: how many were there, and the fields after. *)
Fixpoint hdel_spec (fs : list bytes) (g : bytes -> option bytes) : Z * (bytes -> option bytes) :=
  match fs with
  | f :: fs =>
      match g f with
      | None => hdel_spec fs g
      | Some _ => let '(n, h) := hdel_spec fs (del_field f g) in (1 + n, h)
      end
  | [] => (0, g)
  end.

Section spec.
Context `{PlatformSpec}.

(** An object of the connection's database that holds a collection. *)
Record collection (t : Txn) (o : Object) : Prop := {
  cl_user : o_UserId o = t_UserId t;
  cl_db : o_Db o = t_DBId t;
  cl_value : len (sl (o_Value o)) = 16
}.

Lemma collection_env t t' o : same_env t t' -> collection t o -> collection t' o.
Proof. intros He []. split; [by rewrite (se_UserId _ _ He)|by rewrite (se_DBId _ _ He)|done]. Qed.

Definition field_ok (f : bytes) : Prop := len f < MAX_KEY_SIZE - 21.
Definition value_ok (v : bytes) : Prop := len v < MAX_VALUE_SIZE - 8.

Lemma len_EncodeValue v : len (EncodeValue v) = 8 + len (v_Value v).
Proof. unfold EncodeValue, len. autorewrite with golen. lia. Qed.

(** What a write to the fields of [o] leaves: the fields [g], their number moved by
    [n], counters in step, and everything but the fields of [o] as it was. *)
Record fields_set (c : Config) (o : Object) (t t' : Txn) (g : bytes -> option bytes) (n : Z) : Prop := {
  fs_env : same_env t t';
  fs_ready : ready c t';
  fs_fields : forall f, fields (dv t') o f = g f;
  fs_card : cardinality (dv t') o = cardinality (dv t) o + n;
  fs_step : in_step c o t';
  fs_frame : forall x, (forall f, x <> GetValueBytes o f) -> dv t' !! x = dv t !! x
}.

Lemma fields_set_refl c o t : ready c t -> in_step c o t -> fields_set c o t t (fields (dv t) o) 0.
Proof. intros. split; [done|done|done|lia|done|done]. Qed.

Lemma fields_set_trans c o t1 t2 t3 g2 g3 n2 n3 :
  fields_set c o t1 t2 g2 n2 -> fields_set c o t2 t3 g3 n3 -> fields_set c o t1 t3 g3 (n2 + n3).
Proof.
  intros [E1 R1 F1 C1 S1 P1] [E2 R2 F2 C2 S2 P2]. split; [by etrans|done|done|lia|done|].
  intros x Hx. by rewrite P2, P1.
Qed.

Lemma fields_set_eq c o t t' g g' n n' :
  fields_set c o t t' g n -> (forall f, g f = g' f) -> n = n' -> fields_set c o t t' g' n'.
Proof. intros [E R F C S P] Hg <-. split; try done. intros f. by rewrite F. Qed.

(** No header changes. *)
Lemma fields_set_find c o t t' g n k : fields_set c o t t' g n -> find c t (dv t') k = find c t (dv t) k.
Proof.
  intros Hf. apply find_ext, (fs_frame _ _ _ _ _ _ Hf). intros f E. symmetry in E. by apply header_key_value in E.
Qed.

Lemma hset_spec_ext ts b kvs g h : (forall f, g f = h f) ->
  fst (hset_spec ts b kvs g) = fst (hset_spec ts b kvs h) /\
  forall f, snd (hset_spec ts b kvs g) f = snd (hset_spec ts b kvs h) f.
Proof.
  assert (forall n kvs g h, (length kvs <= n)%nat -> (forall f, g f = h f) ->
    fst (hset_spec ts b kvs g) = fst (hset_spec ts b kvs h) /\
    forall f, snd (hset_spec ts b kvs g) f = snd (hset_spec ts b kvs h) f) as Hn; [|eauto].
  clear kvs g h. induction n as [|n IH]; intros [|f [|v kvs]] g h Hl E; simpl in Hl; try done; [lia|].
  cbn [hset_spec]. rewrite E. set (e := EncodeValue _).
  assert (forall x, put_field f e g x = put_field f e h x) as Ep
    by (intros x; unfold put_field; by destruct (decide _)).
  destruct (h f).
  - apply IH; [lia|]. by destruct b.
  - destruct (IH kvs _ _ ltac:(lia) Ep) as [E1 E2].
    destruct (hset_spec ts b kvs (put_field f e g)), (hset_spec ts b kvs (put_field f e h)).
    cbn [fst snd] in *. by rewrite E1.
Qed.

Lemma hdel_spec_ext fs g h : (forall f, g f = h f) ->
  fst (hdel_spec fs g) = fst (hdel_spec fs h) /\ forall f, snd (hdel_spec fs g) f = snd (hdel_spec fs h) f.
Proof.
  revert g h. induction fs as [|f fs IH]; intros g h E; [done|]. cbn [hdel_spec]. rewrite E.
  destruct (h f); [|by apply IH].
  destruct (IH (del_field f g) (del_field f h)) as [E1 E2].
  { intros x. unfold del_field. by destruct (decide _). }
  destruct (hdel_spec fs (del_field f g)), (hdel_spec fs (del_field f h)).
  cbn [fst snd] in *. by rewrite E1.
Qed.

(** One field, written or deleted through [PutOrDeleteKV]. *)
Lemma wp_put_field c o f v t (Q : Z * option error -> Txn -> Prop) :
  ready c t -> collection t o -> in_step c o t -> field_ok f -> 0 < len v < MAX_VALUE_SIZE ->
  cardinality (dv t) o < MaxInt64 ->
  (forall t' r, fields_set c o t t' (put_field f v (fields (dv t) o))
     (match fields (dv t) o f with None => 1 | Some _ => 0 end) -> Q (r, None) t') ->
  wp (PutOrDeleteKV o (GetValueBytes o f) (Some v)
        (match fields (dv t) o f with None => 1 | Some _ => 0 end)) t Q.
Proof.
  intros Hr Hc Hi Hf Hv Hm HQ. apply (wp_PutOrDeleteKV c); [done|apply GetValueBytes_data| |by intros ? [= <-]| |].
  { rewrite len_GetValueBytes, (cl_value _ _ Hc). unfold field_ok in Hf. lia. }
  { rewrite (cl_value _ _ Hc). lia. }
  intros t' r Hs. apply HQ. pose proof (sp_wrote _ _ _ _ _ _ Hs) as [He Hr' Hv'].
  pose proof (cardinality_put (dv t) o f v) as Hcard. cbn [put_or_delete] in Hv'. fold (fields (dv t) o f) in Hcard.
  split; [done|done| | | |].
  - intros x. rewrite Hv'. apply fields_put.
  - by rewrite Hv'.
  - eapply stepped_in_step; [exact Hs|done|exact Hcard|]. cbn [put_or_delete]. rewrite Hcard.
    pose proof (len_nonneg (entries (dv t) o)). unfold in_i64, MinInt64, cardinality in *.
    destruct (fields (dv t) o f); lia.
  - intros x Hx. rewrite Hv'. apply lookup_insert_ne. intros <-. by apply (Hx f).
Qed.

Lemma wp_del_field c o f v t (Q : Z * option error -> Txn -> Prop) :
  ready c t -> collection t o -> in_step c o t -> field_ok f -> fields (dv t) o f = Some v ->
  cardinality (dv t) o <= MaxInt64 ->
  (forall t' r, fields_set c o t t' (del_field f (fields (dv t) o)) (-1) -> Q (r, None) t') ->
  wp (PutOrDeleteKV o (GetValueBytes o f) None (-1)) t Q.
Proof.
  intros Hr Hc Hi Hf Hv Hm HQ. apply (wp_PutOrDeleteKV c); [done|apply GetValueBytes_data| |done| |].
  { rewrite len_GetValueBytes, (cl_value _ _ Hc). unfold field_ok in Hf. lia. }
  { rewrite (cl_value _ _ Hc). lia. }
  intros t' r Hs. apply HQ. pose proof (sp_wrote _ _ _ _ _ _ Hs) as [He Hr' Hv'].
  pose proof (cardinality_delete (dv t) o f) as Hcard. cbn [put_or_delete] in Hv'.
  unfold fields in Hv. rewrite Hv in Hcard.
  split; [done|done| | | |].
  - intros x. rewrite Hv'. apply fields_del.
  - rewrite Hv'. lia.
  - eapply stepped_in_step; [exact Hs|done|cbn [put_or_delete]; lia|]. cbn [put_or_delete]. rewrite Hcard.
    pose proof (len_nonneg (entries (delete (GetValueBytes o f) (dv t)) o)) as Hn.
    change (0 <= cardinality (delete (GetValueBytes o f) (dv t)) o) in Hn.
    unfold in_i64, MinInt64 in *. lia.
  - intros x Hx. rewrite Hv'. apply lookup_delete_ne. intros <-. by apply (Hx f).
Qed.

Lemma wp_field_Get c o f t (Q : error + bytes -> Txn -> Prop) :
  ready c t -> collection t o -> field_ok f ->
  Q (match fields (dv t) o f with Some v => inr v | None => inl KeyNotFound end) t ->
  wp (Get (GetValueBytes o f)) t Q.
Proof.
  intros Hr Hc Hf HQ. apply (wp_data_Get c); [done|apply GetValueBytes_data| |done].
  rewrite len_GetValueBytes, (cl_value _ _ Hc). unfold field_ok in Hf. lia.
Qed.

(** The loop of HSET, HMSET and HSETNX sets the fields in the order of the
    arguments (HSETNX only those that are missing), returns how many of them are new,
    moves the number of fields by exactly that, keeps the counters in step with it and
    touches nothing but the fields of this hash. *)
Lemma hset_loop_fields c o b kvs n t :
  ready c t -> collection t o -> in_step c o t ->
  Forall (fun x => field_ok x /\ value_ok x) kvs -> cardinality (dv t) o + len kvs <= MaxInt64 ->
  let spec := hset_spec (t_Timestamp t) b kvs (fields (dv t) o) in
  wp (hset_loop o b kvs n) t (fun r t' =>
    r = inr (n + fst spec) /\ fields_set c o t t' (snd spec) (fst spec)).
Proof.
  assert (forall m kvs n t, (length kvs <= m)%nat -> ready c t -> collection t o -> in_step c o t ->
    Forall (fun x => field_ok x /\ value_ok x) kvs -> cardinality (dv t) o + len kvs <= MaxInt64 ->
    wp (hset_loop o b kvs n) t (fun r t' =>
      r = inr (n + fst (hset_spec (t_Timestamp t) b kvs (fields (dv t) o))) /\
      fields_set c o t t' (snd (hset_spec (t_Timestamp t) b kvs (fields (dv t) o)))
        (fst (hset_spec (t_Timestamp t) b kvs (fields (dv t) o))))) as Hm; [|eauto].
  clear kvs n t. induction m as [|m IH]; intros [|f [|v kvs]] n t Hl Hr Hc Hi Hok Hn; simpl in Hl;
    try (by apply wp_ret; split; [rewrite Z.add_0_r|apply fields_set_refl]); [lia|].
  apply Forall_cons in Hok as [[Hf _] Hok]. apply Forall_cons in Hok as [[_ Hv] Hok].
  rewrite !len_cons in Hn. pose proof (len_nonneg kvs) as Hlk.
  cbn [hset_loop hset_spec]. apply wp_bind, wp_get_txn. apply wp_bind, (wp_field_Get c); [done..|].
  set (e := EncodeValue _). assert (0 < len e < MAX_VALUE_SIZE) as He.
  { unfold e, value_ok in *. rewrite len_EncodeValue. cbn [v_Value]. pose proof (len_nonneg v). lia. }
  assert (forall n', wp (let! (_, err) := PutOrDeleteKV o (GetValueBytes o f) (Some e)
      (match fields (dv t) o f with None => 1 | Some _ => 0 end) in
      match err with Some e => ret (inl e) | None => hset_loop o b kvs n' end) t (fun r t' =>
      r = inr (n' + fst (hset_spec (t_Timestamp t) b kvs (put_field f e (fields (dv t) o)))) /\
      fields_set c o t t' (snd (hset_spec (t_Timestamp t) b kvs (put_field f e (fields (dv t) o))))
        ((match fields (dv t) o f with None => 1 | Some _ => 0 end) +
         fst (hset_spec (t_Timestamp t) b kvs (put_field f e (fields (dv t) o)))))) as Hput.
  { intros n'. apply wp_bind, (wp_put_field c); [done..|lia|]. intros t1 r1 Hs1.
    eapply wp_mono; [apply IH; [lia|apply Hs1|by eapply collection_env; [apply Hs1|]|apply Hs1|done|]|].
    { rewrite (fs_card _ _ _ _ _ _ Hs1). destruct (fields (dv t) o f); lia. }
    intros r t2 [-> Hs2]. rewrite (se_Timestamp _ _ (fs_env _ _ _ _ _ _ Hs1)) in Hs2 |- *.
    destruct (hset_spec_ext (t_Timestamp t) b kvs _ _ (fs_fields _ _ _ _ _ _ Hs1)) as [E1 E2].
    split; [by rewrite E1|]. pose proof (fields_set_trans _ _ _ _ _ _ _ _ _ Hs1 Hs2) as Hs.
    eapply fields_set_eq; [exact Hs|exact E2|by rewrite E1]. }
  destruct (fields (dv t) o f) as [w|] eqn:Ef.
  - destruct b; [apply IH; [lia|done..|lia]|]. eapply wp_mono; [apply Hput|]. by intros r t' [-> Hs].
  - eapply wp_mono; [apply Hput|]. intros r t' [-> Hs].
    destruct (hset_spec (t_Timestamp t) b kvs _) as [n1 h]. cbn [fst snd] in *.
    split; [f_equal; lia|done].
Qed.

(** The loop of HDEL deletes the fields, returns how many of them were there, and
    keeps the number of fields and the counters in step. *)
Lemma hdel_loop_fields c o fs n t :
  ready c t -> collection t o -> in_step c o t -> Forall field_ok fs ->
  cardinality (dv t) o <= MaxInt64 ->
  let spec := hdel_spec fs (fields (dv t) o) in
  wp (hdel_loop o fs n) t (fun r t' =>
    r = inr (n + fst spec) /\ fields_set c o t t' (snd spec) (- fst spec)).
Proof.
  revert n t. induction fs as [|f fs IH]; intros n t Hr Hc Hi Hok Hm; cbn [hdel_loop hdel_spec].
  { apply wp_ret. split; [by rewrite Z.add_0_r|by apply fields_set_refl]. }
  apply Forall_cons in Hok as [Hf Hok]. apply wp_bind, (wp_field_Get c); [done..|].
  destruct (fields (dv t) o f) as [w|] eqn:Ef; [|by apply IH].
  apply wp_bind, (wp_del_field c o f w); [done..|]. intros t1 r1 Hs1.
  eapply wp_mono; [apply IH; [apply Hs1|by eapply collection_env; [apply Hs1|]|apply Hs1|done|]|].
  { rewrite (fs_card _ _ _ _ _ _ Hs1). lia. }
  intros r t2 [-> Hs2]. cbv zeta in *.
  destruct (hdel_spec_ext fs _ _ (fs_fields _ _ _ _ _ _ Hs1)) as [E1 E2].
  pose proof (fields_set_trans _ _ _ _ _ _ _ _ _ Hs1 Hs2) as Hs.
  destruct (hdel_spec fs (del_field f (fields (dv t) o))) as [n1 h]. cbn [fst snd] in *.
  split; [f_equal; lia|]. eapply fields_set_eq; [exact Hs|exact E2|lia].
Qed.

(** ** The commands on a key that holds a hash *)

(** The key [k] holds the collection [o] of type [typo], its counters in step. *)
Record holds (c : Config) (t : Txn) (k : bytes) (typo : Init.Byte.byte) (o : Object) : Prop := {
  ho_find : find c t (dv t) k = Some o;
  ho_type : o_Type o = typo;
  ho_step : in_step c o t
}.

Lemma find_compound c t k o : IsSimple o = false -> find c t (dv t) k = Some o -> collection t o.
Proof. intros Hv Ef. destruct (find_key _ _ _ _ _ Ef) as (_&Eu&Ed&_&(_&_&H')&_). split; auto. Qed.

Lemma holds_compound c t k typo o : IsSimple o = false -> holds c t k typo o -> collection t o.
Proof. intros Hv [Ef _ _]. by apply (find_compound c t k). Qed.

Lemma holds_collection c t k typo o :
  typo = HashType \/ typo = SetType -> holds c t k typo o -> collection t o.
Proof.
  intros Ht Hh. apply (holds_compound c t k typo); [|done]. unfold IsSimple. rewrite (ho_type _ _ _ _ _ Hh).
  by destruct Ht as [-> | ->].
Qed.

Lemma beq_refl x : beq x x = true.
Proof. unfold beq. by rewrite bool_decide_eq_true. Qed.

(** A live object is read without any write, whether or not expired ones are swept. *)
Lemma wp_get_found c t k typo o clear (Q : Object * option error -> Txn -> Prop) :
  ready c t -> key_ok k -> good_header c t k -> find c t (dv t) k = Some o -> o_Type o = typo ->
  typo <> UnknownType -> Q (o, None) t ->
  wp (getTxnObject (ObjectKeyBytes (the_object c t typo k)) (the_object c t typo k) clear) t Q.
Proof.
  intros Hr Hk Hg Hf Hy Ht HQ.
  apply (wp_getTxnObject c); [done|rewrite len_ObjectKeyBytes; cbn [o_Key new_object the_object]; unfold key_ok in Hk; lia|].
  pose proof (read_object_typed c t typo k Hg Ht) as Hread.
  rewrite Hf, Hy, beq_refl in Hread.
  intros t' _ Hsame. rewrite Hsame, Hread; [done|].
  unfold read_object, sweeps in *. destruct (dv t !! _); [|by rewrite andb_false_r].
  destruct (ObjectDecode _ _) as [o' [e|]]; [by rewrite andb_false_r|].
  destruct (expired (t_Now t) o'); [done|by rewrite andb_false_r].
Qed.

Lemma wp_lookup_found c t k typo o clear (Q : Object * option error -> Txn -> Prop) :
  ready c t -> key_ok k -> good_header c t k -> find c t (dv t) k = Some o -> o_Type o = typo ->
  typo <> UnknownType -> Q (o, None) t -> wp (lookup typo k clear) t Q.
Proof.
  intros Hr Hk Hg Hf Hy Ht HQ. unfold lookup. apply wp_bind, (wp_NewObject c); [done|].
  by apply (wp_get_found c t k typo o).
Qed.

Lemma wp_GetOrCreate_found c t k typo o (Q : Object * option error -> Txn -> Prop) :
  ready c t -> key_ok k -> good_header c t k -> find c t (dv t) k = Some o -> o_Type o = typo ->
  typo <> UnknownType -> Q (o, None) t -> wp (GetOrCreateUUIDObject typo k) t Q.
Proof.
  intros Hr Hk Hg Hf Hy Ht HQ. unfold GetOrCreateUUIDObject. apply wp_bind, (wp_NewObject c); [done|].
  by apply wp_bind, (wp_get_found c t k typo o).
Qed.

Lemma wp_get_holds c t k typo o clear (Q : Object * option error -> Txn -> Prop) :
  ready c t -> key_ok k -> good_header c t k -> holds c t k typo o -> typo <> UnknownType ->
  Q (o, None) t -> wp (getTxnObject (ObjectKeyBytes (the_object c t typo k)) (the_object c t typo k) clear) t Q.
Proof. intros Hr Hk Hg [Hf Hy _] Ht HQ. by apply (wp_get_found c t k typo o). Qed.

Lemma wp_lookup_holds c t k typo o clear (Q : Object * option error -> Txn -> Prop) :
  ready c t -> key_ok k -> good_header c t k -> holds c t k typo o -> typo <> UnknownType ->
  Q (o, None) t -> wp (lookup typo k clear) t Q.
Proof. intros Hr Hk Hg [Hf Hy _] Ht HQ. by apply (wp_lookup_found c t k typo o). Qed.

Lemma wp_GetOrCreate_holds c t k typo o (Q : Object * option error -> Txn -> Prop) :
  ready c t -> key_ok k -> good_header c t k -> holds c t k typo o -> typo <> UnknownType ->
  Q (o, None) t -> wp (GetOrCreateUUIDObject typo k) t Q.
Proof. intros Hr Hk Hg [Hf Hy _] Ht HQ. by apply (wp_GetOrCreate_found c t k typo o). Qed.

(** C4. HSET on a key that holds a hash: the reply is the number of new fields, the
    fields are those of the hash updated in the order of the arguments, and the key
    still holds the hash, with its number of fields in step. *)
Theorem HSetHandle_refines c t k kvs o :
  ready c t -> key_ok k -> good_header c t k -> holds c t k HashType o ->
  kvs <> [] -> Nat.even (length kvs) = true ->
  Forall (fun x => field_ok x /\ value_ok x) kvs -> cardinality (dv t) o + len kvs <= MaxInt64 ->
  let spec := hset_spec (t_Timestamp t) false kvs (fields (dv t) o) in
  wp (HSetHandle (k :: kvs)) t (fun r t' =>
    r = RInt (fst spec) /\ fields_set c o t t' (snd spec) (fst spec) /\ holds c t' k HashType o).
Proof.
  intros Hr Hk Hg Hh Hne Heven Hok Hm spec. unfold HSetHandle.
  assert ((len (k :: kvs) <? 3) || negb (go_rem (len (k :: kvs)) 2 =? 1) = false) as ->.
  { apply Nat.even_spec in Heven as [m Hm2]. rewrite len_cons. unfold len.
    destruct kvs as [|a [|b kvs]]; [done|simpl in Hm2; lia|]. rewrite Hm2. unfold go_rem.
    rewrite Z.rem_mod_nonneg by lia.
    replace (1 + Z.of_nat (2 * m)) with (1 + Z.of_nat m * 2) by lia. rewrite Z_mod_plus_full.
    simpl length in Hm2. destruct (Z.ltb_spec (1 + Z.of_nat m * 2) 3); [lia|done]. }
  unfold reply_int, hset. cbn [arg nth drop]. apply wp_on_value, wp_bind.
  apply (wp_GetOrCreate_holds c t k HashType o); [done..|].
  pose proof (holds_collection _ _ _ _ _ (or_introl eq_refl) Hh) as Hc.
  eapply wp_mono; [apply (hset_loop_fields c o false kvs 0 t); try done; apply Hh|].
  intros r t' [-> Hs]. split; [done|]. split; [done|]. split; [|apply Hh|apply Hs].
  rewrite (find_env c t t') by apply Hs. erewrite fields_set_find by exact Hs. apply Hh.
Qed.

(** HGET on a key that holds a hash returns the value of the field, or nil when
    it is missing; HEXISTS and HSTRLEN go through the same body. *)
Lemma HGetHandle_refines c t k f o :
  ready c t -> key_ok k -> good_header c t k -> holds c t k HashType o -> field_ok f ->
  wp (HGetHandle [k; f]) t (fun r t' => t' = t /\
    r = match fields (dv t) o f with
        | Some b => match DecodeValue b with inr v => RBulk (v_Value v) | inl _ => RNil end
        | None => RNil
        end).
Proof.
  intros Hr Hk Hg Hh Hf. unfold HGetHandle. change (negb (len [k; f] =? 2)) with false. cbv iota.
  pose proof (holds_collection _ _ _ _ _ (or_introl eq_refl) Hh) as Hc.
  apply wp_on_value. unfold hget. cbn [arg nth]. apply wp_bind, (wp_lookup_holds c t k HashType o); [done..|].
  apply wp_bind, (wp_field_Get c); [done..|].
  destruct (fields (dv t) o f) as [b|]; [|done]. by destruct (DecodeValue b).
Qed.

(** HLEN and SCARD on a key that holds a hash or a set return the number of its
    fields, by adding up the counters or by listing, as the configuration says. *)
Lemma GetCountByKey_cardinality c t k typo o :
  ready c t -> key_ok k -> good_header c t k -> typo = HashType \/ typo = SetType ->
  holds c t k typo o ->
  0 < ScanMaxCount c -> listed (t_view t) o < 100 * ScanMaxCount c ->
  shards (t_view t) (count_prefix (t_UserId t) (t_DBId t) (sl (o_Value o))) <= MaxInt16 ->
  cardinality (dv t) o <= MaxInt64 ->
  GetCountByKey k typo t = Ret (inr (cardinality (dv t) o)) t.
Proof.
  intros Hr Hk Hg Ht Hh Hm Hl Hs Hb.
  assert (wp (GetCountByKey k typo) t (fun r t' => r = inr (cardinality (dv t) o) /\ t' = t)) as Hw.
  { unfold GetCountByKey. apply wp_bind, (wp_NewObject c); [done|]. apply wp_bind.
    apply (wp_get_holds c t k typo o); [done..|by destruct Ht as [-> | ->]|].
    unfold wp. rewrite (GetCountByObject_cardinality c); [done|done| |apply Hh|done..|].
    - by rewrite (ho_type _ _ _ _ _ Hh).
    - pose proof (len_nonneg (entries (dv t) o)). unfold in_i64, MinInt64, cardinality in *. lia. }
  apply wp_returns in Hw as (r&t'&->&->&->). done.
Qed.

(** ** Sets *)

(** Adding members: how many are new, and the members after. *)
Fixpoint sadd_spec (ts : Z) (ms : list bytes) (g : bytes -> option bytes) : Z * (bytes -> option bytes) :=
  match ms with
  | [] => (0, g)
  | m :: ms =>
      match g m with
      | Some _ => sadd_spec ts ms g
      | None =>
          let '(n, h) := sadd_spec ts ms (put_field m (EncodeValue {| v_Timestamp := ts; v_Value := [] |}) g) in
          (1 + n, h)
      end
  end.

Lemma sadd_spec_ext ts ms g h : (forall f, g f = h f) ->
  fst (sadd_spec ts ms g) = fst (sadd_spec ts ms h) /\ forall f, snd (sadd_spec ts ms g) f = snd (sadd_spec ts ms h) f.
Proof.
  revert g h. induction ms as [|m ms IH]; intros g h E; [done|]. cbn [sadd_spec]. rewrite E.
  destruct (h m); [by apply IH|]. set (e := EncodeValue _).
  destruct (IH (put_field m e g) (put_field m e h)) as [E1 E2].
  { intros x. unfold put_field. by destruct (decide _). }
  destruct (sadd_spec ts ms (put_field m e g)), (sadd_spec ts ms (put_field m e h)).
  cbn [fst snd] in *. by rewrite E1.
Qed.

(** The loop of SADD adds exactly the missing members, returns their number, and
    keeps the cardinality and the counters in step. *)
Lemma sadd_loop_members c o ms n t :
  ready c t -> collection t o -> in_step c o t -> Forall field_ok ms ->
  cardinality (dv t) o + len ms <= MaxInt64 ->
  let spec := sadd_spec (t_Timestamp t) ms (fields (dv t) o) in
  wp (sadd_loop o ms n) t (fun r t' =>
    r = inr (n + fst spec) /\ fields_set c o t t' (snd spec) (fst spec)).
Proof.
  revert n t. induction ms as [|m ms IH]; intros n t Hr Hc Hi Hok Hm; cbn [sadd_loop sadd_spec].
  { apply wp_ret. split; [by rewrite Z.add_0_r|by apply fields_set_refl]. }
  apply Forall_cons in Hok as [Hf Hok]. rewrite len_cons in Hm. pose proof (len_nonneg ms).
  apply wp_bind, wp_get_txn. apply wp_bind, (wp_field_Get c); [done..|].
  destruct (fields (dv t) o m) as [w|] eqn:Ef; [apply IH; try done; lia|].
  set (e := EncodeValue _). pose proof (wp_put_field c o m e t) as Hput. rewrite Ef in Hput.
  apply wp_bind, Hput; [done..|lia|]. intros t1 r1 Hs1.
  eapply wp_mono; [apply IH; [apply Hs1|by eapply collection_env; [apply Hs1|]|apply Hs1|done|]|].
  { rewrite (fs_card _ _ _ _ _ _ Hs1). lia. }
  intros r t2 [-> Hs2]. cbv zeta in *. rewrite (se_Timestamp _ _ (fs_env _ _ _ _ _ _ Hs1)) in Hs2 |- *.
  destruct (sadd_spec_ext (t_Timestamp t) ms _ _ (fs_fields _ _ _ _ _ _ Hs1)) as [E1 E2].
  pose proof (fields_set_trans _ _ _ _ _ _ _ _ _ Hs1 Hs2) as Hs.
  destruct (sadd_spec (t_Timestamp t) ms (put_field m e (fields (dv t) o))) as [n1 h]. cbn [fst snd] in *.
  split; [f_equal; lia|]. eapply fields_set_eq; [exact Hs|exact E2|lia].
Qed.

(** *** SMEMBERS *)

Lemma foldl_collect {A} p (f : bytes -> bytes -> A) (l : list (bytes * bytes)) acc :
  foldl (fun s e => if len (fst e) <? p then s else s ++ [f (fst e) (snd e)]) acc l =
  acc ++ ((fun e => f (fst e) (snd e)) <$> base.filter (fun e : bytes * bytes => (p <=? len (fst e)) = true) l).
Proof.
  revert acc. induction l as [|[k v] l IH]; intros acc; cbn [foldl fst snd]; [by rewrite app_nil_r|].
  destruct (Z.ltb_spec (len k) p).
  - rewrite filter_cons_False by (cbn [fst]; lia). apply IH.
  - rewrite filter_cons_True by (cbn [fst]; lia). rewrite IH, <- app_assoc. done.
Qed.

(** The members of a collection in key order. *)
Definition members (d : gmap bytes bytes) (o : Object) : list bytes :=
  (fun e => drop (length (value_prefix o)) (fst e)) <$> entries d o.

(** SMEMBERS (its body, below the limit) lists the members of the set, each once,
    in byte order, and nothing else. *)
Lemma smembers_lists c t k o limit :
  ready c t -> key_ok k -> good_header c t k -> holds c t k SetType o ->
  0 < limit -> listed (t_view t) o <= limit ->
  smembers [k] limit t = Ret (inr (members (dv t) o)) t /\
  NoDup (members (dv t) o) /\
  forall m, m ∈ members (dv t) o <-> exists v, fields (dv t) o m = Some v.
Proof.
  intros Hr Hk Hg Hh Hl Hn. split; [|split].
  - assert (wp (smembers [k] limit) t (fun r t' => r = inr (members (dv t) o) /\ t' = t)) as Hw.
    { unfold smembers. cbn [arg nth]. apply wp_bind, (wp_lookup_holds c t k SetType o); [done..|].
      fold (value_prefix o). destruct (value_prefix_ok o) as (Hne&Hb&_). unfold wp, bind.
      rewrite (List_pure _ _ _ _ (fun l k _ => if len k <? len (value_prefix o) then l
        else l ++ [drop (length (value_prefix o)) k])); try done.
      - unfold listed in Hn. rewrite take_ge by (unfold len in *; lia).
        rewrite (foldl_collect (len (value_prefix o)) (fun k _ => drop (length (value_prefix o)) k)).
        cbn [app]. unfold members. rewrite entries_dv. by destruct (limit <=? _).
      - apply Hr.
      - intros x v _ _ _ s. by destruct (len x <? _). }
    apply wp_returns in Hw as (r&t'&->&->&->). done.
  - unfold members. apply (NoDup_fmap_2_strong); [|unfold entries; apply NoDup_filter; eapply NoDup_fmap_1, range_entries_NoDup].
    intros [x1 v1] [x2 v2] H1 H2 E. apply elem_of_entries in H1 as (E1&f1&->), H2 as (E2&f2&->).
    cbn [fst] in E. rewrite !GetValueBytes_app, !drop_app_length in E. subst. congruence.
  - intros m. unfold members, fields. rewrite list_elem_of_fmap. split.
    + intros ([x v]&->&Hx). apply elem_of_entries in Hx as (Hx&f&->). cbn [fst].
      exists v. by rewrite (GetValueBytes_app o f), drop_app_length.
    + intros [v Hv]. exists (GetValueBytes o m, v). rewrite elem_of_entries. cbn [fst].
      split; [by rewrite GetValueBytes_app, drop_app_length|eauto].
Qed.

End spec.
