(* ===== verification/ListSpec.v ===== *)
(** What the list commands promise, for the lists of [ListA]: the elements of a list are
    a sequence, pushes extend it at an end, pops take from it, ranges are slices. *)

From stdpp Require Import sorting.
From S2P Require Import Prelude Xerror GoStd Utils Float Store Ranges Mem Object Reply.
From S2P Require Import ObjectSpec Counters Generic GenericSpec Strings StringsSpec.
From S2P Require Import HashCmd SetCmd HashSpec Rank ListA ListB ListCmd.
From Stdlib Require Import Init.Byte.

#[local] Open Scope Z_scope.

(** ** Ordered entries *)

Lemma entry_lt_trans x y z : entry_lt x y -> entry_lt y z -> entry_lt x z.
Proof. apply blt_trans. Qed.

(** Sorted listings of the same entries are equal. *)
Lemma sorted_entries_eq l k :
  StronglySorted entry_lt l -> StronglySorted entry_lt k -> (forall e, e ∈ l <-> e ∈ k) -> l = k.
Proof.
  revert k. induction l as [|x l IH]; intros k Hl Hk He.
  { destruct k as [|y k]; [done|]. exfalso. apply (not_elem_of_nil y), He. by left. }
  destruct k as [|y k]; [exfalso; apply (not_elem_of_nil x), He; by left|].
  apply StronglySorted_inv in Hl as [Hl Hx]. apply StronglySorted_inv in Hk as [Hk Hy].
  rewrite Forall_forall in Hx, Hy.
  assert (x = y) as ->.
  { assert (x ∈ y :: k) as [->|H1]%elem_of_cons by (apply He; by left); [done|].
    assert (y ∈ x :: l) as [->|H2]%elem_of_cons by (apply He; by left); [done|].
    exfalso. eapply blt_irrefl, blt_trans; [apply (Hx y); done|by apply (Hy x)]. }
  f_equal. apply IH; [done..|]. intros e. specialize (He e). rewrite !elem_of_cons in He.
  split; intros Hi.
  - destruct (proj1 He) as [->|]; [by right| |done]. exfalso. eapply blt_irrefl. by apply (Hx y).
  - destruct (proj2 He) as [->|]; [by right| |done]. exfalso. eapply blt_irrefl. by apply (Hy y).
Qed.

Lemma sorted_app_inv (l k : list (bytes * bytes)) :
  StronglySorted entry_lt (l ++ k) -> StronglySorted entry_lt l /\ StronglySorted entry_lt k /\
    forall x y, x ∈ l -> y ∈ k -> entry_lt x y.
Proof.
  induction l as [|x l IH]; cbn [app]; intros Hs.
  { split; [constructor|]. split; [done|]. intros x y Hx. by apply elem_of_nil in Hx. }
  apply StronglySorted_inv in Hs as [Hs Hx]. destruct (IH Hs) as (Hl&Hk&Hlk).
  rewrite Forall_app in Hx. destruct Hx as [Hx1 Hx2]. split; [by constructor|]. split; [done|].
  intros y z [->|Hy]%elem_of_cons Hz; [by rewrite Forall_forall in Hx2; apply Hx2|by apply Hlk].
Qed.

Lemma sorted_app_intro (l k : list (bytes * bytes)) :
  StronglySorted entry_lt l -> StronglySorted entry_lt k ->
  (forall x y, x ∈ l -> y ∈ k -> entry_lt x y) -> StronglySorted entry_lt (l ++ k).
Proof.
  induction l as [|x l IH]; cbn [app]; intros Hl Hk Hlk; [done|].
  apply StronglySorted_inv in Hl as [Hl Hx]. constructor.
  - apply IH; [done..|]. intros y z Hy. apply Hlk. by right.
  - rewrite Forall_app. split; [done|]. rewrite Forall_forall. intros y Hy. apply Hlk; [by left|done].
Qed.

(** A range is what lies below a bound, then what lies above it. *)
Lemma range_entries_split s e m : ble s e -> e <> [] ->
  range_entries [] e m = range_entries [] s m ++ range_entries s e m \/ s = [].
Proof.
  intros Hse He. destruct s as [|b s]; [by right|left]. set (s' := b :: s) in *.
  apply sorted_entries_eq; [apply range_entries_sorted| |].
  - apply sorted_app_intro; [apply range_entries_sorted..|].
    intros [k1 v1] [k2 v2] H1 H2. apply elem_of_range_entries in H1 as (_&_&H1), H2 as (_&H2&_).
    unfold entry_lt. cbn [fst]. apply below_spec in H1 as [H1|H1]; [done|]. by eapply blt_ble_trans.
  - intros [k v]. rewrite elem_of_app, !elem_of_range_entries, !below_spec.
    assert (ble [] k) by by destruct k.
    split.
    + intros (Hm&_&[Hk|Hk]); [done|]. destruct (decide (blt k s')) as [|Hn]; [left; by auto|right].
      repeat split; [done| |by right]. apply dec_stable. intros Hn'. by apply Hn, blt_not_ble.
    + intros [(Hm&_&[Hk|Hk])|(Hm&_&[Hk|Hk])]; try done; repeat split; try done; right; [|done].
      by eapply blt_ble_trans.
Qed.

Section spec.
Context `{PlatformSpec}.

(** ** The elements of a list *)

Definition elems (d : gmap bytes bytes) (o : Object) : list bytes :=
  (fun e => decoded_value (snd e)) <$> entries d o.

Lemma len_elems d o : len (elems d o) = cardinality d o.
Proof. unfold elems, cardinality, len. by rewrite length_fmap. Qed.

Lemma entries_sorted d o : StronglySorted entry_lt (entries d o).
Proof. apply StronglySorted_sublist, range_entries_sorted. Qed.

(** The entries are the listing of the fields in the order of their keys. *)
Lemma entries_by_fields d o l :
  StronglySorted entry_lt l ->
  (forall e, e ∈ l -> exists f, fst e = GetValueBytes o f) ->
  (forall f v, (GetValueBytes o f, v) ∈ l <-> fields d o f = Some v) ->
  entries d o = l.
Proof.
  intros Hs Hk Hf. apply sorted_entries_eq; [apply entries_sorted|done|]. intros [k v].
  rewrite elem_of_entries. split.
  - intros [Hd [f ->]]. by apply Hf.
  - intros He. destruct (Hk _ He) as [f E]. cbn [fst] in E. subst k. split; [by apply Hf|eauto].
Qed.

Lemma entry_field d o k v : (k, v) ∈ entries d o -> exists f, k = GetValueBytes o f /\ fields d o f = Some v.
Proof. rewrite elem_of_entries. intros [Hd [f ->]]. by exists f. Qed.

Lemma field_entry d o f v : fields d o f = Some v -> (GetValueBytes o f, v) ∈ entries d o.
Proof. rewrite elem_of_entries. intros Hf. by split; [|exists f]. Qed.

Lemma blt_value o f g : blt f g -> blt (GetValueBytes o f) (GetValueBytes o g).
Proof. unfold blt. by rewrite !GetValueBytes_app, bytes_compare_app. Qed.

(** An element whose key is below all others becomes the first, one whose key is above
    all others the last. *)
Lemma entries_cons d d' o f v :
  (forall x, fields d' o x = put_field f v (fields d o) x) ->
  (forall x w, fields d o x = Some w -> blt f x) ->
  entries d' o = (GetValueBytes o f, v) :: entries d o.
Proof.
  intros Hf Hlt. assert (fields d o f = None) as Hn.
  { destruct (fields d o f) as [w|] eqn:E; [|done]. exfalso. by eapply blt_irrefl, Hlt. }
  apply entries_by_fields.
  - constructor; [apply entries_sorted|]. rewrite Forall_forall. intros [k w] (x&->&Hx)%entry_field.
    by eapply blt_value, Hlt.
  - intros [k w] [E|(x&->&Hx)%entry_field]%elem_of_cons; [simplify_eq|]; by eexists.
  - intros x w. rewrite elem_of_cons, Hf. unfold put_field. destruct (decide (x = f)) as [->|Hxf].
    + split; [|intros [= ->]; by left]. intros [E%(f_equal snd)|Hw]; [by cbn in E; subst|].
      apply entry_field in Hw as (y&Ey&Hy). apply GetValueBytes_inj in Ey as ->. congruence.
    + split.
      * intros [Ex%(f_equal fst)%GetValueBytes_inj|Hw]; [done|].
        apply entry_field in Hw as (y&Ey&Hy). apply GetValueBytes_inj in Ey as ->. done.
      * intros Hx. right. by apply field_entry.
Qed.

Lemma entries_snoc d d' o f v :
  (forall x, fields d' o x = put_field f v (fields d o) x) ->
  (forall x w, fields d o x = Some w -> blt x f) ->
  entries d' o = entries d o ++ [(GetValueBytes o f, v)].
Proof.
  intros Hf Hlt. assert (fields d o f = None) as Hn.
  { destruct (fields d o f) as [w|] eqn:E; [|done]. exfalso. by eapply blt_irrefl, Hlt. }
  apply entries_by_fields.
  - apply sorted_app_intro; [apply entries_sorted|constructor; constructor|].
    intros [k w] y (x&->&Hx)%entry_field ->%list_elem_of_singleton. by eapply blt_value, Hlt.
  - intros [k w] [(x&->&Hx)%entry_field|E%list_elem_of_singleton]%elem_of_app; [|simplify_eq]; by eexists.
  - intros x w. rewrite elem_of_app, list_elem_of_singleton, Hf. unfold put_field. destruct (decide (x = f)) as [->|Hxf].
    + split; [|intros [= ->]; by right]. intros [Hw|E%(f_equal snd)]; [|by cbn in E; subst].
      apply entry_field in Hw as (y&Ey&Hy). apply GetValueBytes_inj in Ey as ->. congruence.
    + split.
      * intros [Hw|Ex%(f_equal fst)%GetValueBytes_inj]; [|done].
        apply entry_field in Hw as (y&Ey&Hy). apply GetValueBytes_inj in Ey as ->. done.
      * intros Hx. left. by apply field_entry.
Qed.

(** Deleting an entry. *)
Lemma entries_del d d' o f v l k :
  (forall x, fields d' o x = del_field f (fields d o) x) ->
  entries d o = l ++ (GetValueBytes o f, v) :: k -> entries d' o = l ++ k.
Proof.
  intros Hf E. pose proof (entries_sorted d o) as Hs. rewrite E in Hs.
  apply sorted_app_inv in Hs as (Hl&Hk&Hlk). apply StronglySorted_inv in Hk as [Hk Hfk].
  rewrite Forall_forall in Hfk.
  assert (forall e, e ∈ entries d o <-> e ∈ l ++ k \/ e = (GetValueBytes o f, v)) as He
    by (intros e; rewrite E, !elem_of_app, elem_of_cons; tauto).
  assert (forall w, (GetValueBytes o f, w) ∉ l ++ k) as Hnot.
  { intros w [Hi|Hi]%elem_of_app.
    - exact (blt_irrefl _ (Hlk _ (GetValueBytes o f, v) Hi ltac:(by left))).
    - exact (blt_irrefl _ (Hfk _ Hi)). }
  apply entries_by_fields.
  - apply sorted_app_intro; [done..|]. intros x y Hx Hy. apply Hlk; [done|by right].
  - intros [k' w] Hi. destruct (entry_field d o k' w) as (g&->&_); [by apply He; left|by exists g].
  - intros g w. rewrite Hf. unfold del_field. destruct (decide (g = f)) as [->|Hg].
    + split; [intros Hi; by apply Hnot in Hi|done].
    + split.
      * intros Hi. destruct (entry_field d o (GetValueBytes o g) w) as (g'&Eg&Hg'); [by apply He; left|].
        by apply GetValueBytes_inj in Eg as ->.
      * intros Hi%field_entry. apply He in Hi as [Hi|Eg%(f_equal fst)%GetValueBytes_inj]; done.
Qed.

(** ** The order of the keys *)

Lemma list_key_order a b i j :
  in_i64 a -> in_i64 b -> - 2 ^ 15 <= i < 2 ^ 15 -> - 2 ^ 15 <= j < 2 ^ 15 ->
  bytes_compare (list_key a i) (list_key b j) = match a ?= b with Eq => i ?= j | c => c end.
Proof.
  intros Ha Hb Hi Hj. unfold list_key. rewrite !Int.EncodeInt64ToCmpUint_eq, !Int.EncodeInt16ToCmpUint_eq by done.
  unfold in_i64, MinInt64, MaxInt64 in *.
  destruct (Z.compare_spec a b) as [->|E|E].
  - rewrite bytes_compare_app, bytes_compare_be_put by (simpl; lia).
    rewrite !(Z.add_comm _ (2 ^ 15)). apply Z.add_compare_mono_l.
  - apply bytes_compare_fst; [by rewrite !length_be_put| |done].
    rewrite bytes_compare_be_put by (simpl; lia). apply Z.compare_lt_iff. lia.
  - apply bytes_compare_fst; [by rewrite !length_be_put| |done].
    rewrite bytes_compare_be_put by (simpl; lia). apply Z.compare_gt_iff. lia.
Qed.

Lemma len_list_key ts i : len (list_key ts i) = 10.
Proof. unfold list_key, len. by rewrite length_app, !length_be_put. Qed.

(** The timestamps for which the keys are ordered, and the keys of one transaction:
    on the left 32769 of them descend, on the right 32768 ascend. *)
Definition good_ts (ts : Z) : Prop := 0 < ts <= MaxInt64.

Lemma left_key_eq ts lid : good_ts ts -> 0 <= lid <= 2 ^ 15 -> left_key ts lid = list_key (- ts) (- lid).
Proof.
  unfold good_ts, MaxInt64. intros Ht Hl. unfold left_key.
  rewrite (i64_small ts), i64_small by (unfold in_i64, MinInt64, MaxInt64; lia). f_equal.
  destruct (decide (lid = 2 ^ 15)) as [->|]; [done|].
  unfold wrap_s. rewrite (Z.mod_small (lid + _)) by lia. rewrite Z.mod_small by lia. lia.
Qed.

Lemma right_key_eq ts rid : good_ts ts -> 0 <= rid < 2 ^ 15 -> right_key ts rid = list_key ts rid.
Proof.
  unfold good_ts, MaxInt64. intros Ht Hl. unfold right_key.
  rewrite i64_small by (unfold in_i64, MinInt64, MaxInt64; lia). f_equal.
  unfold wrap_s. rewrite Z.mod_small by lia. lia.
Qed.

Lemma left_key_lt ts lid : good_ts ts -> 0 <= lid < 2 ^ 15 -> blt (left_key ts (lid + 1)) (left_key ts lid).
Proof.
  intros Ht Hl. rewrite !left_key_eq by (done || lia). unfold good_ts, MaxInt64 in Ht.
  unfold blt. rewrite list_key_order by (unfold in_i64, MinInt64, MaxInt64; lia).
  rewrite Z.compare_refl. apply Z.compare_lt_iff. lia.
Qed.

Lemma right_key_lt ts rid : good_ts ts -> 0 <= rid < 2 ^ 15 - 1 -> blt (right_key ts rid) (right_key ts (rid + 1)).
Proof.
  intros Ht Hl. rewrite !right_key_eq by (done || lia). unfold good_ts, MaxInt64 in Ht.
  unfold blt. rewrite list_key_order by (unfold in_i64, MinInt64, MaxInt64; lia).
  rewrite Z.compare_refl. apply Z.compare_lt_iff. lia.
Qed.

Lemma left_right_key ts lid rid : good_ts ts -> 0 <= lid <= 2 ^ 15 -> 0 <= rid < 2 ^ 15 ->
  blt (left_key ts lid) (right_key ts rid).
Proof.
  intros Ht Hl Hr. rewrite left_key_eq, right_key_eq by done. unfold good_ts, MaxInt64 in Ht.
  unfold blt. rewrite list_key_order by (unfold in_i64, MinInt64, MaxInt64; lia).
  assert ((- ts ?= ts) = Lt) as -> by (apply Z.compare_lt_iff; lia). done.
Qed.

(** ** Pushing *)

(** The keys that the transaction will use next lie outside those of the list: true
    when the list was last written by earlier transactions, and kept by pushes. *)
Record room (t : Txn) (o : Object) : Prop := {
  rm_ts : good_ts (t_Timestamp t);
  rm_lid : 0 <= t_ListLID t <= 2 ^ 15;
  rm_rid : 0 <= t_ListRID t < 2 ^ 15;
  rm_left : forall f v, fields (dv t) o f = Some v -> blt (left_key (t_Timestamp t) (t_ListLID t)) f;
  rm_right : forall f v, fields (dv t) o f = Some v -> blt f (right_key (t_Timestamp t) (t_ListRID t))
}.

Lemma ready_ids c lid rid t : ready c t -> ready c (with_list_ids lid rid t).
Proof. by intros []. Qed.

Lemma fields_set_ids c o t t' g n lid rid :
  fields_set c o t t' g n -> fields_set c o (with_list_ids lid rid t) (with_list_ids lid rid t') g n.
Proof. intros [[] Hr Hf Hc Hs Hx]. split; [by split|by apply ready_ids|done..]. Qed.

(** [t'] is [t] after writes to the fields of [o] and some counters advanced. *)
Definition list_set (c : Config) (o : Object) (t t' : Txn) (g : bytes -> option bytes) (n : Z) : Prop :=
  fields_set c o (with_list_ids (t_ListLID t') (t_ListRID t') t) t' g n.

Lemma list_set_refl c o t : ready c t -> in_step c o t -> list_set c o t t (fields (dv t) o) 0.
Proof.
  intros Hr Hi. unfold list_set. replace (with_list_ids _ _ t) with t by by destruct t.
  by apply fields_set_refl.
Qed.

Lemma list_set_trans c o t1 t2 t3 g2 g3 n2 n3 :
  list_set c o t1 t2 g2 n2 -> list_set c o t2 t3 g3 n3 -> list_set c o t1 t3 g3 (n2 + n3).
Proof.
  unfold list_set. intros H2 H3.
  exact (fields_set_trans _ _ _ _ _ _ _ _ _ (fields_set_ids _ _ _ _ _ _ (t_ListLID t3) (t_ListRID t3) H2) H3).
Qed.

(** The keys a push uses: the one for the next element, and the state after it. *)
Definition next_key (is_left : bool) (t : Txn) : bytes :=
  if is_left then left_key (t_Timestamp t) (t_ListLID t) else right_key (t_Timestamp t) (t_ListRID t).
Definition bump_ids (is_left : bool) (t : Txn) : Txn :=
  if is_left then with_list_ids (wrap_u 32 (t_ListLID t + 1)) (t_ListRID t) t
  else with_list_ids (t_ListLID t) (wrap_u 32 (t_ListRID t + 1)) t.

(** How many more elements a side takes. *)
Definition room_for (is_left : bool) (t : Txn) (n : Z) : Prop :=
  if is_left then t_ListLID t + n <= 2 ^ 15 else t_ListRID t + n < 2 ^ 15.

Lemma room_after is_left t t' o e :
  room t o -> room_for is_left t 1 ->
  (forall x, fields (dv t') o x = put_field (next_key is_left t) e (fields (dv t) o) x) ->
  t_Timestamp t' = t_Timestamp t -> t_ListLID t' = t_ListLID (bump_ids is_left t) ->
  t_ListRID t' = t_ListRID (bump_ids is_left t) ->
  room t' o /\ forall n, room_for is_left t (1 + n) -> room_for is_left t' n.
Proof.
  intros [Hts Hl Hr Hleft Hright] Hfor Hf Ets El Er.
  assert (forall x, 0 <= x <= 2 ^ 15 -> wrap_u 32 (x + 1) = x + 1) as Hw
    by (intros; apply wrap_u_small; lia).
  assert (forall f v, fields (dv t') o f = Some v ->
    f = next_key is_left t \/ fields (dv t) o f = Some v) as Hin.
  { intros f v. rewrite Hf. unfold put_field. destruct (decide _); [by left|by right]. }
  destruct is_left; cbn [bump_ids with_list_ids t_ListLID t_ListRID next_key room_for] in *;
    rewrite ?Hw in * by lia; (split; [|intros n; rewrite ?El, ?Er; lia]); split; rewrite ?Ets, ?El, ?Er;
    try done; try lia; intros f v [->|Hfv]%Hin.
  - apply left_key_lt; [done|lia].
  - eapply blt_trans; [apply left_key_lt; [done|lia]|by eapply Hleft].
  - by apply left_right_key.
  - by eapply Hright.
  - by apply left_right_key.
  - by eapply Hleft.
  - apply right_key_lt; [done|lia].
  - eapply blt_trans; [by eapply Hright|apply right_key_lt; [done|lia]].
Qed.

Lemma wp_push1 {A} c o is_left v t (k : Z * option error -> M A) (Q : A -> Txn -> Prop) :
  ready c t -> collection t o -> in_step c o t -> value_ok v -> room t o -> room_for is_left t 1 ->
  cardinality (dv t) o < MaxInt64 ->
  (forall t' r,
     list_set c o t t' (put_field (next_key is_left t) (EncodeValue {| v_Timestamp := t_Timestamp t; v_Value := v |})
                          (fields (dv t) o)) 1 ->
     elems (dv t') o = (if is_left then v :: elems (dv t) o else elems (dv t) o ++ [v]) ->
     room t' o -> (forall n, room_for is_left t (1 + n) -> room_for is_left t' n) ->
     t_Timestamp t' = t_Timestamp t -> wp (k (r, None)) t' Q) ->
  wp (let! lkey := if is_left then nextLeftKey o else nextRightKey o in
      let! t := get_txn in
      let! r := PutOrDeleteKV o lkey (Some (EncodeValue {| v_Timestamp := t_Timestamp t; v_Value := v |})) 1 in
      k r) t Q.
Proof.
  intros Hr Hc Hi Hv Hrm Hfor Hm HQ. destruct (Hrm) as [Hts Hl Hrid Hleft Hright].
  set (e := EncodeValue {| v_Timestamp := t_Timestamp t; v_Value := v |}) in *.
  assert (wp (PutOrDeleteKV o (GetValueBytes o (next_key is_left t)) (Some e) 1)
    (bump_ids is_left t) (fun r t' => wp (k r) t' Q)) as Hput.
  { assert (fields (dv t) o (next_key is_left t) = None) as Hn.
    { destruct (fields (dv t) o (next_key is_left t)) as [w|] eqn:E; [|done]. exfalso. unfold next_key in E.
      destruct is_left; [by eapply blt_irrefl, Hleft|by eapply blt_irrefl, Hright]. }
    pose proof (wp_put_field c o (next_key is_left t) e (bump_ids is_left t)) as Hw.
    assert (dv (bump_ids is_left t) = dv t) as Ed by by destruct is_left.
    rewrite Ed, Hn in Hw. apply Hw; clear Hw.
    - destruct is_left; by apply ready_ids.
    - destruct is_left; by destruct Hc.
    - destruct is_left; exact Hi.
    - unfold field_ok. assert (len (next_key is_left t) = 10) as -> by (destruct is_left; apply len_list_key).
      unfold MAX_KEY_SIZE. lia.
    - unfold e, value_ok in *. rewrite len_EncodeValue. cbn [v_Value]. pose proof (len_nonneg v). lia.
    - done.
    - intros t' r Hf.
      assert (forall x, fields (dv t') o x = put_field (next_key is_left t) e (fields (dv t) o) x) as Hx
        by exact (fs_fields _ _ _ _ _ _ Hf). destruct (fs_env _ _ _ _ _ _ Hf) as [].
      assert (t_Timestamp t' = t_Timestamp t) as Ets by (rewrite se_Timestamp; by destruct is_left).
      assert (decoded_value e = v) as Edec.
      { unfold decoded_value, e. by rewrite DecodeValue_EncodeValue by apply (rd_ts c t Hr). }
      apply (HQ t' r); [| | | |done].
      + unfold list_set. rewrite se_ListLID, se_ListRID. destruct is_left; exact Hf.
      + unfold elems. destruct is_left.
        * rewrite (entries_cons (dv t) (dv t') o (next_key true t) e); [|done|exact Hleft].
          cbn [fmap list_fmap snd]. by rewrite Edec.
        * rewrite (entries_snoc (dv t) (dv t') o (next_key false t) e); [|done|exact Hright].
          rewrite fmap_app. cbn [fmap list_fmap snd]. by rewrite Edec.
      + by apply (room_after is_left t t' o e).
      + by apply (room_after is_left t t' o e). }
  apply wp_bind in Hput. destruct is_left; exact Hput.
Qed.

(** Elements go to the front (so that the last argument becomes the first element) or
    to the back in order; length and counters stay in step and nothing but the list
    changes. *)
Lemma aPush_refines c o is_left args opt t :
  ready c t -> collection t o -> in_step c o t -> Forall value_ok args ->
  room t o -> room_for is_left t (len args) -> cardinality (dv t) o + len args <= MaxInt64 ->
  wp (aPush is_left o args opt) t (fun r t' =>
    r = inr (RInt (len args)) /\
    elems (dv t') o = (if is_left then rev args ++ elems (dv t) o else elems (dv t) o ++ args) /\
    (exists g, list_set c o t t' g (len args)) /\ room t' o).
Proof.
  intros Hr Hc Hi Hv Hrm Hfor Hm. unfold aPush. apply wp_on_done.
  enough (wp (aPush_loop o is_left args) t (fun r t' => r = None /\
    elems (dv t') o = (if is_left then rev args ++ elems (dv t) o else elems (dv t) o ++ args) /\
    (exists g, list_set c o t t' g (len args)) /\ room t' o)) as Hw.
  { eapply wp_mono; [exact Hw|]. intros r t' (->&Hs). by apply wp_ret. }
  clear opt. revert t Hr Hc Hi Hrm Hfor Hm. induction args as [|v args IH]; intros t Hr Hc Hi Hrm Hfor Hm.
  { apply wp_ret. split; [done|]. split; [by destruct is_left; rewrite ?app_nil_r|].
    split; [|done]. exists (fields (dv t) o). by apply list_set_refl. }
  apply Forall_cons in Hv as [Hv Hvs]. rewrite len_cons in *. pose proof (len_nonneg args).
  cbn [aPush_loop]. apply (wp_push1 c); try done; [destruct is_left; cbn [room_for] in *; lia|lia|].
  intros t1 r1 Hs1 He1 Hrm1 Hfor1 _.
  eapply wp_mono; [apply (IH Hvs); try done|].
  - apply Hs1.
  - eapply (collection_env (with_list_ids (t_ListLID t1) (t_ListRID t1) t)); [apply Hs1|by destruct Hc].
  - apply Hs1.
  - by apply Hfor1.
  - pose proof (fs_card _ _ _ _ _ _ Hs1) as Hcard.
    change (dv (with_list_ids _ _ t)) with (dv t) in Hcard. lia.
  - intros r t2 (->&He2&[g Hs2]&Hrm2). split; [done|]. split; [|split; [|done]].
    + rewrite He2, He1. destruct is_left; cbn [rev]; by rewrite <- app_assoc.
    + exists g. by eapply list_set_trans.
Qed.

(** ** Listing a list *)

(** Every key in the range of the list extends its prefix (keys of values are longer
    than the prefix). *)
Definition tidy (d : gmap bytes bytes) (o : Object) : Prop :=
  forall e, e ∈ range_entries (value_prefix o) (Bytes.PrefixNext (value_prefix o)) d ->
    len (value_prefix o) <= len (fst e).

(** A listing does not go past its lower bound. *)
Lemma List_on_stop {S} start end_ limit (cb : Callback S) l k count s t :
  (forall e, e ∈ k -> blt (fst e) start) ->
  List_on start end_ limit cb (l ++ k) count s t = List_on start end_ limit cb l count s t.
Proof.
  intros Hk. revert count s t. induction l as [|[x v] l IH]; intros count s t; cbn [app List_on].
  - destruct k as [|[x v] k]; [done|]. cbn [List_on].
    by rewrite (proj2 (bytes_ltb_spec x start) (Hk (x, v) ltac:(by left))).
  - destruct (_ || _); [done|]. apply bind_ext. intros [s' [|]] t'; [|done]. cbn [negb].
    destruct (_ && _); [done|apply IH].
Qed.

Lemma tidy_entries t o : tidy (dv t) o ->
  range_entries (value_prefix o) (Bytes.PrefixNext (value_prefix o)) (t_view t) = entries (dv t) o.
Proof.
  intros Ht. rewrite <- range_entries_dv. unfold entries. symmetry.
  apply filter_all. intros e He. specialize (Ht e He). lia.
Qed.

Lemma List_entries {S} o rev_ limit (cb : Callback S) s t :
  t_up t -> tidy (dv t) o ->
  List (list_start o rev_) (list_end o rev_) limit cb s t =
  List_on (value_prefix o) (Bytes.PrefixNext (value_prefix o)) limit cb
    (if (rev_ : bool) then rev (entries (dv t) o) else entries (dv t) o) 0 s t.
Proof.
  intros Hup Ht. pose proof (tidy_entries t o Ht) as E.
  destruct (value_prefix_ok o) as (Hne&Hle&Hff). pose proof (PrefixNext_gt _ Hff) as Hlt.
  destruct rev_; unfold list_start, list_end; fold (value_prefix o).
  - rewrite List_backward by (done || by apply bytes_ltb_spec).
    destruct (range_entries_split (value_prefix o) (Bytes.PrefixNext (value_prefix o)) (t_view t) Hle Hne)
      as [-> | Hnil]; [|done].
    rewrite rev_app_distr, E. apply List_on_stop. intros [k v] Hk.
    rewrite <- elem_of_reverse, <- rev_is_reverse, rev_involutive in Hk.
    apply elem_of_range_entries in Hk as (_&_&Hk). by apply below_spec in Hk as [Hk|Hk].
  - rewrite List_forward, E; [done|done|].
    apply not_true_iff_false. rewrite bytes_ltb_spec, blt_not_ble. tauto.
Qed.

(** ** Popping *)

(** A sequence seen from one of its ends. *)
Definition sided {A} (is_left : bool) (l : list A) : list A := if is_left then l else rev l.

Lemma sided_sided {A} b (l : list A) : sided b (sided b l) = l.
Proof. destruct b; [done|apply rev_involutive]. Qed.
Lemma elem_of_sided {A} b (l : list A) x : x ∈ sided b l <-> x ∈ l.
Proof. destruct b; [done|]. cbn [sided]. by rewrite rev_is_reverse, elem_of_reverse. Qed.
Lemma sided_fmap {A B} b (f : A -> B) l : f <$> sided b l = sided b (f <$> l).
Proof. destruct b; [done|]. cbn [sided]. by rewrite !rev_is_reverse, fmap_reverse. Qed.
Lemma len_sided {A} b (l : list A) : len (sided b l) = len l.
Proof. destruct b; [done|]. unfold len. cbn [sided]. by rewrite length_rev. Qed.

Lemma wp_List_entries {S} o b limit (cb : Callback S) s t Q :
  t_up t -> tidy (dv t) o ->
  wp (List_on (value_prefix o) (Bytes.PrefixNext (value_prefix o)) limit cb
        (sided b (entries (dv t) o)) 0 s) t Q ->
  wp (List (list_start o (negb b)) (list_end o (negb b)) limit cb s) t Q.
Proof. intros Hup Ht. unfold wp. rewrite List_entries by done. by destruct b. Qed.

(** All elements have keys that can be deleted. *)
Definition keys_ok (d : gmap bytes bytes) (o : Object) : Prop :=
  forall f v, fields d o f = Some v -> field_ok f.

Lemma keys_ok_del d d' o f : keys_ok d o -> (forall x, fields d' o x = del_field f (fields d o) x) -> keys_ok d' o.
Proof.
  intros Hk Hf x v. rewrite Hf. unfold del_field. destruct (decide _); [done|]. apply Hk.
Qed.

(** Deleting the entry at an end. *)
Lemma entries_del_sided b d d' o f v l :
  (forall x, fields d' o x = del_field f (fields d o) x) ->
  sided b (entries d o) = (GetValueBytes o f, v) :: l -> sided b (entries d' o) = l.
Proof.
  intros Hf E. destruct b; cbn [sided] in *.
  - by apply (entries_del d d' o f v [] l).
  - apply (f_equal (@rev _)) in E. rewrite rev_involutive in E. cbn [rev] in E.
    rewrite (entries_del d d' o f v (rev l) []) by done. by rewrite app_nil_r, rev_involutive.
Qed.

(** Keys of the list are within the bounds of its listing. *)
Lemma entry_in_bounds o f :
  bytes_ltb (GetValueBytes o f) (value_prefix o) ||
  bytes_leb (Bytes.PrefixNext (value_prefix o)) (GetValueBytes o f) = false.
Proof.
  destruct (field_in_entries_range o f) as [[H1 H2]%in_range_spec _].
  rewrite below_PrefixNext, bytes_ltb_spec in H2.
  apply orb_false_iff; split; apply not_true_iff_false; rewrite ?bytes_leb_spec, ?bytes_ltb_spec.
  - rewrite blt_not_ble. tauto.
  - by apply blt_not_ble.
Qed.

Lemma wp_pop_entry c o key v t (Q : Z * option error -> Txn -> Prop) :
  ready c t -> collection t o -> in_step c o t -> keys_ok (dv t) o -> cardinality (dv t) o <= MaxInt64 ->
  (key, v) ∈ entries (dv t) o ->
  (forall t' r f, key = GetValueBytes o f -> fields_set c o t t' (del_field f (fields (dv t) o)) (-1) ->
     keys_ok (dv t') o -> Q (r, None) t') ->
  wp (PutOrDeleteKV o key None (-1)) t Q.
Proof.
  intros Hr Hc Hi Hk Hm (f&->&Hf)%entry_field HQ. apply (wp_del_field c o f v); [done..|by eapply Hk|done|done|].
  intros t' r Hs. apply (HQ t' r f); [done..|]. eapply keys_ok_del; [done|apply Hs].
Qed.

Lemma wp_pop_loop c o b count l acc t :
  ready c t -> collection t o -> in_step c o t -> keys_ok (dv t) o -> cardinality (dv t) o <= MaxInt64 ->
  0 < count <= MaxInt64 -> len acc < count -> sided b (entries (dv t) o) = l ->
  wp (List_on (value_prefix o) (Bytes.PrefixNext (value_prefix o)) (i64 (count + 1))
        (pop_callback o (value_prefix o) count) l (len acc) (acc, None)) t
    (fun r t' =>
       let n := Z.to_nat (count - len acc) in
       r = (acc ++ ((fun e => decoded_value (snd e)) <$> take n l), None, None) /\
       sided b (entries (dv t') o) = drop n l /\ exists g m, fields_set c o t t' g m).
Proof.
  intros Hr Hc Hi Hk Hm Hcount. revert acc t Hr Hc Hi Hk Hm.
  induction l as [|[key v] l IH]; intros acc t Hr Hc Hi Hk Hm Hacc El.
  { cbn [List_on]. apply wp_ret. cbv zeta. rewrite take_nil, drop_nil, app_nil_r. split; [done|].
    split; [done|]. exists (fields (dv t) o), 0. by apply fields_set_refl. }
  assert ((key, v) ∈ entries (dv t) o) as Hin by (apply (elem_of_sided b); rewrite El; by left).
  destruct (entry_field _ _ _ _ Hin) as (f&->&Hf). cbn [List_on]. rewrite entry_in_bounds.
  apply wp_bind. unfold pop_callback at 1.
  destruct (field_in_entries_range o f) as [_ Hlen].
  destruct (Z.ltb_spec (len (GetValueBytes o f)) (len (value_prefix o))); [lia|].
  apply wp_bind, (wp_pop_entry c o _ v); [done..|]. intros t1 r1 f' <-%GetValueBytes_inj Hs1 Hk1.
  apply wp_ret. pose proof (entries_del_sided _ _ _ _ _ _ _ (fs_fields _ _ _ _ _ _ Hs1) El) as El1.
  assert (len (acc ++ [decoded_value v]) = len acc + 1) as Elen by (rewrite len_app; done).
  cbv zeta. rewrite Elen. replace (Z.to_nat (count - len acc)) with (S (Z.to_nat (count - len acc - 1))) by lia.
  cbn [take drop fmap list_fmap snd].
  destruct (Z.ltb_spec (len acc + 1) count) as [Hlt|Hge]; cbn [negb].
  - assert ((i64 (count + 1) >? 0) && (len acc + 1 >=? i64 (count + 1)) = false) as ->.
    { unfold MaxInt64 in Hcount. destruct (decide (count = 2 ^ 63 - 1)) as [->|]; [done|].
      rewrite i64_small by (unfold in_i64, MinInt64, MaxInt64; lia). lia. }
    rewrite <- Elen at 1. eapply wp_mono.
    + apply IH; [apply Hs1|by eapply collection_env; [apply Hs1|]|apply Hs1|done| |lia|done].
      rewrite (fs_card _ _ _ _ _ _ Hs1). lia.
    + intros r t2 (->&E2&g&m&Hs2). rewrite Elen.
      replace (count - (len acc + 1)) with (count - len acc - 1) by lia.
      split; [by rewrite <- app_assoc|]. split; [rewrite E2, Elen; f_equal; lia|].
      exists g, (-1 + m). by eapply fields_set_trans.
  - apply wp_ret. replace (count - len acc - 1) with 0 by lia. rewrite take_0, drop_0.
    split; [done|]. split; [done|]. by eexists _, _.
Qed.

(** As many elements as asked for (one without a count) leave the list from the end
    named. *)
Lemma aPop_refines c o is_left args opt t :
  ready c t -> collection t o -> in_step c o t -> keys_ok (dv t) o -> tidy (dv t) o ->
  cardinality (dv t) o <= MaxInt64 -> 0 <= op_count opt <= MaxInt64 ->
  let xs := sided is_left (elems (dv t) o) in
  let n := Z.to_nat (if op_count opt =? 0 then 1 else op_count opt) in
  wp (aPop is_left o args opt) t (fun r t' =>
    r = inr (if op_count opt =? 0 then from_option RBulk RNil (head xs) else bulks (take n xs)) /\
    elems (dv t') o = sided is_left (drop n xs) /\ exists g m, fields_set c o t t' g m).
Proof.
  intros Hr Hc Hi Hk Ht Hm Hcount xs n. unfold aPop. fold (value_prefix o).
  set (count := if op_count opt =? 0 then 1 else op_count opt) in *.
  assert (0 < count <= MaxInt64) as Hc1.
  { unfold count, MaxInt64 in *. destruct (Z.eqb_spec (op_count opt) 0); lia. }
  apply wp_bind, wp_List_entries; [apply Hr|done|].
  eapply wp_mono; [apply (wp_pop_loop c o is_left count (sided is_left (entries (dv t) o)) []); try done; apply Hc1|].
  intros r t' (->&El&Hs). cbv zeta in *. rewrite Z.sub_0_r in *. cbn [app].
  fold n in El |- *.
  assert ((fun e : bytes * bytes => decoded_value (snd e)) <$> take n (sided is_left (entries (dv t) o)) = take n xs) as ->.
  { unfold xs, elems. by rewrite fmap_take, sided_fmap. }
  assert (elems (dv t') o = sided is_left (drop n xs)) as El'.
  { unfold xs, elems. rewrite <- (sided_sided is_left (entries (dv t') o)), El.
    by rewrite sided_fmap, fmap_drop, sided_fmap. }
  unfold n, count. destruct (op_count opt =? 0) eqn:E0; [|by apply wp_ret].
  change (Z.to_nat 1) with 1%nat. by destruct xs as [|x xs'].
Qed.

(** ** The commands *)

Lemma holds_list c t k o : holds c t k AListType o -> collection t o.
Proof. intros Hh. apply (holds_compound c t k AListType); [|done]. unfold IsSimple. by rewrite (ho_type _ _ _ _ _ Hh). Qed.

(** On a key that holds a list, a list command is its function on that list. *)
Lemma wp_ListHandle c t k o args cmd f opt (Q : error + reply -> Txn -> Prop) :
  ready c t -> key_ok k -> good_header c t k -> holds c t k AListType o -> ListType c <> BLIST ->
  find_func cmd AListFuncs = Some f -> wp (f o args opt) t (fun r t' => Q (snd r) t') ->
  wp (ListHandle (k :: args) cmd opt) t Q.
Proof.
  intros Hr Hk Hg Hh Hty Hf HQ. unfold ListHandle. apply wp_bind, (wp_config c); [done|].
  destruct (String.eqb_spec (ListType c) BLIST); [done|]. rewrite Hf. unfold AListHandle.
  cbn [arg nth drop]. apply wp_bind, (wp_NewObject c); [done|]. apply wp_bind.
  apply (wp_get_holds c t k AListType o); [done..|]. cbv iota. apply wp_bind.
  eapply wp_mono; [exact HQ|]. by intros [opt' r] t'.
Qed.

Lemma wp_keeps_opt f o args opt t (Q : lOpt * (error + reply) -> Txn -> Prop) :
  wp (f o args opt) t (fun r t' => Q (opt, r) t') -> wp (keeps_opt f o args opt) t Q.
Proof. intros Hw. apply wp_bind. eapply wp_mono; [exact Hw|]. done. Qed.

Lemma fields_set_holds c o t t' g m k typo : fields_set c o t t' g m -> in_step c o t' ->
  holds c t k typo o -> holds c t' k typo o.
Proof.
  intros Hs Hi Hh. split; [|apply Hh|done].
  rewrite (find_env c t t') by apply Hs. erewrite fields_set_find by exact Hs. apply Hh.
Qed.

(** The reply to a pop: one element or nil, or the array of as many as were asked for. *)
Definition pop_reply (count : option Z) (xs : list bytes) : reply :=
  match count with
  | None => from_option RBulk RNil (head xs)
  | Some n => bulks (take (Z.to_nat n) xs)
  end.

(** C7. LPOP and RPOP on a key that holds a list, with a positive count or without: as
    many elements as asked for (one without a count) leave the list from the end
    named, in order, and are the reply. *)
Theorem pophandle_refines c t k is_left count a o :
  ready c t -> key_ok k -> good_header c t k -> holds c t k AListType o -> ListType c <> BLIST ->
  keys_ok (dv t) o -> tidy (dv t) o -> cardinality (dv t) o <= MaxInt64 ->
  match count with None => a = [] | Some n => 0 < n <= MaxInt64 /\ exists x, a = [x] /\ ParseInt x = Some n end ->
  let xs := sided is_left (elems (dv t) o) in
  wp (pophandle (k :: a) (pop_command is_left)) t (fun r t' =>
    r = pop_reply count xs /\
    elems (dv t') o = sided is_left (drop (Z.to_nat (from_option id 1 count)) xs) /\ holds c t' k AListType o).
Proof.
  intros Hr Hk Hg Hh Hty Hkeys Ht Hm Ha xs. pose proof (holds_list _ _ _ _ Hh) as Hc.
  set (opt := match count with None => set_exist opt0 | Some n => set_count n (set_exist opt0) end).
  assert (pophandle (k :: a) (pop_command is_left) =
          list_reply (ret RNil) (ListHandle (k :: a) (pop_command is_left) opt)) as ->.
  { destruct count as [n|]; [|by rewrite Ha]. destruct Ha as (Hn&x&->&Ex). unfold pophandle.
    change (len [k; x] =? 2) with true. cbv iota. cbn [arg nth].
    unfold Int.GetPositiveInt, Atoi. rewrite Ex. destruct (Z.leb_spec n 0); [lia|done]. }
  apply wp_bind, (wp_ListHandle c t k o a _ (keeps_opt (aPop is_left))); [done..|by destruct is_left|].
  apply wp_keeps_opt.
  assert (op_count opt = from_option id 0 count) as Eopt by by destruct count.
  assert (0 <= op_count opt <= MaxInt64) by (rewrite Eopt; destruct count; simpl; [lia|done]).
  eapply wp_mono; [apply (aPop_refines c o is_left a opt t); try done; apply Hh|]. cbv zeta. rewrite Eopt.
  intros r t' (->&He&g&m&Hs). cbn [snd].
  assert (holds c t' k AListType o) by (by eapply fields_set_holds; [exact Hs|apply Hs|]).
  apply wp_ret. destruct count as [n|]; cbn [from_option id pop_reply] in *; [|done].
  destruct Ha as [Hn _]. by destruct (Z.eqb_spec n 0); [lia|].
Qed.

End spec.
