(* ===== verification/BlockSpec.v ===== *)
(** What the commands that wait promise: an attempt at every tick, each on the store as it
    is then; the first that finds an element is the reply, and a wait with a timeout
    ends. *)

From stdpp Require Import sorting.
From S2P Require Import Prelude Xerror GoStd Utils Float Strconv Store Ranges Mem Object Reply.
From S2P Require Import ObjectSpec Counters Generic GenericSpec Strings StringsSpec.
From S2P Require Import HashCmd SetCmd HashSpec Rank ListA ListB ListCmd ListSpec ZSet Block.
From Stdlib Require Import Init.Byte.

#[local] Open Scope Z_scope.

Section spec.
Context `{PlatformSpec}.

(** ** What an attempt keeps *)

(** The parts of a transaction that last when it is rolled back and opened again. *)
Record conn_env (t t' : Txn) : Prop := {
  ce_Multi : t_Multi t' = t_Multi t;
  ce_Watch : t_Watch t' = t_Watch t;
  ce_Exec : t_Exec t' = t_Exec t;
  ce_Err : t_Err t' = t_Err t;
  ce_PendingErr : t_PendingErr t' = t_PendingErr t;
  ce_Config : t_Config t' = t_Config t;
  ce_UserId : t_UserId t' = t_UserId t;
  ce_DBId : t_DBId t' = t_DBId t;
  ce_PendingReq : t_PendingReq t' = t_PendingReq t
}.

#[export] Instance conn_env_preorder : PreOrder conn_env.
Proof. split; [by intros t|intros ??? [] []; split; congruence]. Qed.

Lemma same_conn_env t t' : same_env t t' -> conn_env t t'.
Proof. by intros []. Qed.

Lemma conn_env_Rollback t t' : conn_env t t' -> conn_env t (Rollback t').
Proof. by intros []. Qed.

(** The transaction that Begin opens on a store. *)
Definition opened (t : Txn) (store : Cluster) : Txn := fst (Begin store t).

Lemma conn_env_opened t store : conn_env t (opened t store).
Proof. unfold opened, Begin. by destruct (cl_Begin store). Qed.

(** It is the same, however often the transaction was rolled back before. *)
Definition like (t t' : Txn) : Prop := same_env t t' /\ t_txn t' = t_txn t.

Lemma opened_like t t' store kv : conn_env t t' -> cl_Begin store = inr kv ->
  like (opened t store) (opened t' store).
Proof.
  intros [] Hb. unfold opened, Begin, like. rewrite Hb. cbn [fst].
  assert (IsPessimistic t' = IsPessimistic t) as -> by (unfold IsPessimistic, config_or_default; by rewrite ce_Config0).
  split; [split; cbn; congruence|done].
Qed.

Lemma like_view t t' : like t t' -> t_view t' = t_view t.
Proof. intros [_ E]. unfold t_view. by rewrite E. Qed.
Lemma like_dv t t' : like t t' -> dv t' = dv t.
Proof. intros Hl. unfold dv. by rewrite (like_view t t'). Qed.

Lemma like_ready c t t' : like t t' -> ready c t -> ready c t'.
Proof.
  intros Hl Hr. apply (ready_env c t); [done|apply Hl| |].
  - destruct Hl as [_ E]. pose proof (rd_up c t Hr) as Hu. unfold t_up in *. by rewrite E.
  - rewrite (like_view t t') by done. apply Hr.
Qed.

Lemma like_find c t t' k : like t t' -> find c t' (dv t') k = find c t (dv t) k.
Proof. intros Hl. rewrite (like_dv t t') by done. apply find_env, Hl. Qed.

Lemma like_good_header c t t' k : like t t' -> good_header c t k -> good_header c t' k.
Proof.
  intros Hl. pose proof (like_dv t t' Hl) as Ed. destruct Hl as [He _]. unfold good_header, the_object.
  by rewrite (hkey_env t t') , Ed, (se_UserId t t'), (se_DBId t t').
Qed.

Lemma like_holds c t t' k typo o : like t t' -> holds c t k typo o -> holds c t' k typo o.
Proof.
  intros Hl [Hf Ht Hi]. split; [by rewrite (like_find c t t')|done|].
  unfold in_step in *. rewrite (like_view t t'), (like_dv t t') by done.
  destruct Hl as [He _]. by rewrite (se_UserId t t'), (se_DBId t t').
Qed.

(** ** Waiting *)

Section wait.
Context {A : Type} (bfunc : BFunc (A := A)) (args : list bytes) (t : Txn).

(** The transactions on which an attempt finds nothing. *)
Context (nothing : Txn -> Prop).
Hypothesis nothing_like : forall t1 t2, like t1 t2 -> nothing t1 -> nothing t2.
Hypothesis nothing_found : forall t1, nothing t1 ->
  wp (attempt bfunc args) t1 (fun r t2 => r = None /\ same_env t1 t2).

(** A tick at which the connection is there, the store answers and nothing is found. *)
Definition idle (e : event) : Prop :=
  match e with
  | Tick closed check store _ =>
      closed = false /\ check = None /\ (exists kv, cl_Begin store = inr kv) /\ nothing (opened t store)
  | Triggered _ => False
  end.

Definition clock (e : event) : Z := match e with Tick _ _ _ now => now | Triggered _ => 0 end.

Lemma wp_wait_idle e events start timeout t' (Q : error + option A -> Txn -> Prop) :
  idle e -> conn_env t t' ->
  (forall t2, conn_env t t2 ->
     wp (if over timeout start (clock e) then ret (inr None)
         else wait events start timeout bfunc args) t2 Q) ->
  wp (wait (e :: events) start timeout bfunc args) t' Q.
Proof.
  destruct e as [closed check store now|]; [|done]. intros (->&->&[kv Hb]&Hn) Hc HQ.
  pose proof (opened_like t t' store kv Hc Hb) as Hl. cbn [wait].
  apply wp_on_done. unfold wp at 1, begin. destruct (Begin store t') as [t1 e] eqn:Eb.
  assert (e = None) as -> by (unfold Begin in Eb; rewrite Hb in Eb; by injection Eb).
  replace t1 with (opened t' store) by (unfold opened; by rewrite Eb).
  apply wp_bind. eapply wp_mono; [apply nothing_found, (nothing_like (opened t store)); done|].
  intros r t2 [-> Hc2]. apply wp_bind, wp_modify, HQ, conn_env_Rollback.
  etrans; [exact Hc|]. etrans; [apply conn_env_opened|by apply same_conn_env].
Qed.

(** Idle ticks before the end of the timeout change nothing. *)
Lemma wp_wait_app pre post start timeout t' (Q : error + option A -> Txn -> Prop) :
  Forall (fun e => idle e /\ over timeout start (clock e) = false) pre -> conn_env t t' ->
  (forall t2, conn_env t t2 -> wp (wait post start timeout bfunc args) t2 Q) ->
  wp (wait (pre ++ post) start timeout bfunc args) t' Q.
Proof.
  intros Hpre. revert t'. induction Hpre as [|e pre [Hi Ho] _ IH]; intros t' Hc HQ; [by apply HQ|].
  apply wp_wait_idle; [done..|]. intros t2 Hc2. rewrite Ho. by apply IH.
Qed.

(** Idle ticks, one of which is after the end of the timeout. *)
Lemma wp_wait_over events start timeout t' :
  Forall idle events -> Exists (fun e => over timeout start (clock e) = true) events -> conn_env t t' ->
  wp (wait events start timeout bfunc args) t' (fun r t2 => r = inr None /\ conn_env t t2).
Proof.
  intros Hi He. revert t'. induction Hi as [|e events Hi _ IH]; intros t' Hc; [by apply Exists_nil in He|].
  apply wp_wait_idle; [done..|]. intros t2 Hc2. destruct (over timeout start (clock e)) eqn:Eo.
  - by apply wp_ret.
  - apply Exists_cons in He as [He|He]; [congruence|]. by apply IH.
Qed.

(** The handler, when its first attempt finds nothing. *)
Lemma wp_BlockHandle events now s second (Q : error + option A -> Txn -> Prop) :
  ParseFloat s = Some second -> flt second 0 = false -> nothing t -> t_Multi t = false ->
  (if over (duration second) (NowTime t) now then forall t2, same_env t t2 -> Q (inr None) t2
     else forall t3, conn_env t t3 -> wp (wait events (NowTime t) (duration second) bfunc args) t3 Q) ->
  wp (BlockHandle events now (args ++ [s]) bfunc) t Q.
Proof.
  intros Hp Hs Hn Hm HQ. unfold BlockHandle. apply wp_bind, wp_get_txn.
  assert (Z.to_nat (len (args ++ [s]) - 1) = length args) as ->.
  { unfold len. rewrite length_app. cbn [length]. lia. }
  unfold arg. rewrite nth_middle, take_app_length, Hp, Hs.
  apply wp_bind. eapply wp_mono; [by apply nothing_found|]. intros r t2 [-> Hc].
  apply wp_bind, wp_get_txn. rewrite (se_Multi t t2), Hm by done.
  assert (NowTime t2 = NowTime t) as -> by (unfold NowTime; by rewrite (se_Now t t2)).
  destruct (over (duration second) (NowTime t) now); [by apply wp_ret, HQ|].
  by apply wp_bind, wp_modify, HQ, conn_env_Rollback, same_conn_env.
Qed.

End wait.

(** ** Waiting for lists *)

(** No live object has one of the keys. *)
Definition missing (c : Config) (t : Txn) (k : bytes) : Prop :=
  key_ok k /\ good_header c t k /\ find c t (dv t) k = None.
Definition waiting (c : Config) (ks : list bytes) (t : Txn) : Prop :=
  ready c t /\ Forall (missing c t) ks.

Lemma waiting_like c ks t t' : like t t' -> waiting c ks t -> waiting c ks t'.
Proof.
  intros Hl [Hr Hm]. split; [by apply (like_ready c t)|]. eapply Forall_impl; [exact Hm|].
  intros k (Hk&Hg&Hf). split; [done|]. split; [by apply (like_good_header c t)|by rewrite (like_find c t)].
Qed.

(** Clearing an expired header leaves missing keys missing. *)
Lemma missing_swept c t t' k k' :
  dwrote c t t' (swept (dv t) (t_Now t) (the_object c t AListType k)) -> missing c t k' -> missing c t' k'.
Proof.
  intros [He _ Hd] (Hk&Hg&Hf). split; [done|].
  assert (dv t' ⊆ dv t) as Hs.
  { rewrite Hd. unfold swept. destruct (dv t !! _); [|done]. destruct (ObjectDecode _ _) as [o [e|]]; [done|].
    destruct (expired _ _); [apply delete_subseteq|done]. }
  split.
  - unfold good_header, the_object in *. rewrite (hkey_env t t'), (se_UserId t t'), (se_DBId t t') by done.
    destruct (dv t' !! hkey t k') as [v|] eqn:Ev; [|done]. by rewrite (lookup_weaken _ _ _ _ Ev Hs) in Hg.
  - rewrite (find_env c t t') by done. by rewrite Hd, find_swept.
Qed.

(** A pop of a missing key. *)
Lemma wp_ListHandle_missing c t k cmd f (Q : error + reply -> Txn -> Prop) :
  ready c t -> missing c t k -> ListType c <> BLIST -> find_func cmd AListFuncs = Some f ->
  (forall t', dwrote c t t' (swept (dv t) (t_Now t) (the_object c t AListType k)) ->
     (dv t !! hkey t k = None -> t' = t) -> Q (inl KeyNotFound) t') ->
  wp (ListHandle [k] cmd (set_exist opt0)) t Q.
Proof.
  intros Hr (Hk&Hg&Hf) Hty Hfu HQ. unfold ListHandle. apply wp_bind, (wp_config c); [done|].
  destruct (String.eqb_spec (ListType c) BLIST); [done|]. rewrite Hfu. unfold AListHandle.
  cbn [arg nth drop]. apply wp_bind, (wp_NewObject c); [done|]. fold (the_object c t AListType k). apply wp_bind.
  apply (wp_getTxnObject c); [done|rewrite len_ObjectKeyBytes; cbn [o_Key the_object new_object]; unfold key_ok in Hk; lia|].
  intros t' Hw Hsame. rewrite read_object_typed, Hf by done. apply wp_ret, HQ; [done|].
  intros Hn. apply Hsame. unfold sweeps. change (ObjectKeyBytes (the_object c t AListType k)) with (hkey t k). by rewrite Hn.
Qed.

Section lists.
Context (c : Config) (is_left : bool).
Hypothesis alist : ListType c <> BLIST.

Lemma pop_func : exists f, find_func (pop_command is_left) AListFuncs = Some f.
Proof. by destruct is_left; eexists. Qed.

Lemma listMany_waiting ks t : waiting c ks t ->
  wp (listMany ks (pop_command is_left)) t (fun r t' => r = inr None /\ same_env t t').
Proof.
  revert t. induction ks as [|k ks IH]; intros t [Hr Hm]; [by apply wp_ret|].
  apply Forall_cons in Hm as [Hk Hm]. destruct pop_func as [f Hf]. cbn [listMany].
  apply wp_bind, (wp_ListHandle_missing c t k _ f); [done..|]. intros t' Hw _.
  eapply wp_mono; [apply IH; split; [apply Hw|]|].
  - eapply Forall_impl; [exact Hm|]. intros k' Hk'. by apply (missing_swept c t t' k).
  - cbn. intros r t2 [-> He]. split; [done|]. etrans; [apply Hw|done].
Qed.

Lemma attempt_waiting ks t : waiting c ks t ->
  wp (attempt (listMany_func (pop_command is_left)) ks) t (fun r t' => r = None /\ same_env t t').
Proof. intros Hw. apply wp_bind. eapply wp_mono; [by apply listMany_waiting|]. by intros r t' [-> He]. Qed.

(** Keys without a header before a key that holds a list. *)
Lemma listMany_serves ks1 k ks2 t o x xs :
  ready c t -> Forall (fun k' => key_ok k' /\ dv t !! hkey t k' = None) ks1 -> key_ok k -> good_header c t k ->
  holds c t k AListType o -> keys_ok (dv t) o -> tidy (dv t) o -> cardinality (dv t) o <= MaxInt64 ->
  sided is_left (elems (dv t) o) = x :: xs ->
  wp (listMany (ks1 ++ k :: ks2) (pop_command is_left)) t (fun r t' =>
    r = inr (Some (k, x)) /\ elems (dv t') o = sided is_left xs /\ holds c t' k AListType o).
Proof.
  intros Hr Hks Hk Hg Hh Hko Ht Hm Ex. destruct pop_func as [f Hf].
  induction Hks as [|k' ks1 [Hk' Hn] _ IH]; cbn [app listMany]; apply wp_bind.
  - apply (wp_ListHandle c t k o [] _ (keeps_opt (aPop is_left))); [done..|by destruct is_left|].
    apply wp_keeps_opt. pose proof (holds_list _ _ _ _ Hh) as Hc.
    eapply wp_mono; [apply (aPop_refines c o is_left [] _ t); try done; apply Hh|]. cbv zeta.
    change (op_count (set_exist opt0)) with 0. cbn [Z.eqb]. rewrite Ex. cbn [head from_option].
    intros r t' (->&He&g&m&Hs). cbn [snd]. apply wp_ret. split; [done|]. split; [done|].
    by eapply fields_set_holds; [exact Hs|apply Hs|].
  - apply (wp_ListHandle_missing c t k' _ f); try done.
    + split; [done|]. unfold good_header, find, read_object, the_object.
      change (ObjectKeyBytes _) with (hkey t k'). by rewrite Hn.
    + intros t' _ Hsame. by rewrite Hsame.
Qed.

(** The command that waits for an element on one end of the lists [ks]. *)
Definition pop_name : string := if is_left then "blpop" else "brpop".
Definition block (events : list event) (now : Z) (ks : list bytes) (s : bytes) : M reply :=
  block_pop pop_name (pop_command is_left) events now (ks ++ [s]).

Definition idle_tick (ks : list bytes) (t : Txn) : event -> Prop := idle t (waiting c ks).

Lemma wp_block ks s second now events t (Q : reply -> Txn -> Prop) :
  ks <> [] -> ParseFloat s = Some second -> flt second 0 = false -> waiting c ks t -> t_Multi t = false ->
  (if over (duration second) (NowTime t) now then forall t2, same_env t t2 -> Q RNil t2
   else forall t3, conn_env t t3 ->
     wp (wait events (NowTime t) (duration second) (listMany_func (pop_command is_left)) ks) t3
       (fun r t' => wp (match r with inl e => reply_err e | inr v => ret (from_option pair_reply RNil v) end) t' Q)) ->
  wp (block events now ks s) t Q.
Proof.
  intros Hne Hp Hs Hw Hm HQ. unfold block, block_pop.
  destruct (Z.ltb_spec (len (ks ++ [s])) 2) as [Hlt|_].
  { destruct ks as [|k ks]; [done|]. unfold len in Hlt. rewrite length_app in Hlt. cbn [length] in Hlt. lia. }
  apply wp_bind, (wp_BlockHandle _ ks t (waiting c ks)) with (second := second); try done.
  intros t1. apply attempt_waiting.
Qed.

(** C8. BLPOP and BRPOP, when none of their keys holds anything at first and at the ticks
    before the end of the timeout: at the next tick, at which one of the keys holds a list,
    the reply is that key and the element at the end of the list that the command names,
    which leaves the list. The attempt is on the store as it is at that tick, whatever the
    store was at the others. *)
Theorem block_pop_serves ks1 k ks2 s second now pre store kv clk post t o x xs :
  let ks := ks1 ++ k :: ks2 in let t1 := opened t store in
  ParseFloat s = Some second -> flt second 0 = false -> waiting c ks t -> t_Multi t = false ->
  over (duration second) (NowTime t) now = false ->
  Forall (fun e => idle_tick ks t e /\ over (duration second) (NowTime t) (clock e) = false) pre ->
  cl_Begin store = inr kv -> ready c t1 ->
  Forall (fun k' => key_ok k' /\ dv t1 !! hkey t1 k' = None) ks1 -> key_ok k -> good_header c t1 k ->
  holds c t1 k AListType o -> keys_ok (dv t1) o -> tidy (dv t1) o -> cardinality (dv t1) o <= MaxInt64 ->
  sided is_left (elems (dv t1) o) = x :: xs ->
  wp (block (pre ++ Tick false None store clk :: post) now ks s) t (fun r t' =>
    r = RArr [RBulk k; RBulk x] /\ elems (dv t') o = sided is_left xs).
Proof.
  intros ks t1 Hp Hs Hw Hm Ho Hpre Hb Hr Hks Hk Hg Hh Hko Ht Hc Ex.
  apply (wp_block ks s second); try done; [by unfold ks; destruct ks1|]. rewrite Ho. intros t3 H3.
  apply (wp_wait_app _ ks t (waiting c ks)); try done; [apply waiting_like|by apply attempt_waiting|].
  intros t4 H4. cbn [wait]. apply wp_on_done. unfold wp at 1, begin.
  pose proof (opened_like t t4 store kv H4 Hb) as Hl. fold t1 in Hl.
  destruct (Begin store t4) as [t5 e] eqn:Eb.
  assert (e = None) as -> by (unfold Begin in Eb; rewrite Hb in Eb; by injection Eb).
  replace t5 with (opened t4 store) by (unfold opened; by rewrite Eb). set (t6 := opened t4 store) in *.
  apply wp_bind, wp_bind. pose proof (like_dv t1 t6 Hl) as Ed.
  eapply wp_mono; [apply (listMany_serves ks1 k ks2 t6 o x xs); rewrite ?Ed; try done|].
  - by apply (like_ready c t1).
  - eapply Forall_impl; [exact Hks|]. intros k' [? ?]. split; [done|]. destruct Hl as [He _].
    by rewrite (hkey_env t1 t6).
  - by apply (like_good_header c t1).
  - by apply (like_holds c t1).
  - intros r t' (->&He&_). by apply wp_ret, wp_ret, wp_ret.
Qed.

(** C9. A wait with a timeout ends: when the ticks of the timer come in time, and at none
    of them one of the keys holds anything, BLPOP and BRPOP reply nil after as many ticks
    as the timeout has periods of the timer. *)
Theorem block_pop_ends ks s second now events t :
  let timeout := duration second in let start := NowTime t in
  ks <> [] -> ParseFloat s = Some second -> flt second 0 = false -> 0 < timeout ->
  waiting c ks t -> t_Multi t = false -> start <= now ->
  Forall (idle_tick ks t) events ->
  (forall i e, events !! i = Some e -> start + (Z.of_nat i + 1) * pull_interval timeout <= clock e) ->
  timeout <= len events * pull_interval timeout + PullInternal ->
  wp (block events now ks s) t (fun r t' => r = RNil /\ t_Err t' = t_Err t).
Proof.
  intros timeout start Hne Hp Hs Ht Hw Hm Hnow Hi Hclk Hlen.
  assert (timeout <= MaxInt64) as Hmax.
  { unfold timeout, duration, to_int64. destruct (decode _); try (unfold MaxInt64, MinInt64; lia).
    cbv zeta. destruct (_ && _) eqn:E; [|unfold MaxInt64, MinInt64; lia]. destruct s0; lia. }
  assert (forall n, timeout <= n + PullInternal - start -> over timeout start n = true) as Hover.
  { intros n Hn. unfold over, time_Sub. assert ((timeout >? 0) = true) as -> by lia.
    unfold MinInt64, MaxInt64 in *. cbn [andb]. apply Z.geb_le. lia. }
  apply (wp_block ks s second); try done. fold timeout start.
  destruct (over timeout start now) eqn:Eo; [intros t2 He; by rewrite (se_Err t t2)|].
  intros t3 H3. eapply wp_mono; [apply (wp_wait_over _ ks t (waiting c ks)); try done|].
  - apply waiting_like.
  - by apply attempt_waiting.
  - destruct events as [|e0 events] using rev_ind.
    { exfalso. rewrite Hover in Eo; [done|]. change (len []) with 0 in Hlen. lia. }
    apply Exists_app. right. apply Exists_cons. left. apply Hover.
    specialize (Hclk (length events) e0). rewrite lookup_app_r, Nat.sub_diag in Hclk by lia.
    specialize (Hclk eq_refl). unfold len in Hlen. rewrite length_app in Hlen. cbn [length] in Hlen.
    rewrite Nat2Z.inj_add in Hlen. lia.
  - intros r t2 [-> He]. apply wp_ret. by rewrite (ce_Err t t2).
Qed.

End lists.

End spec.
