(* ===== verification/RankSpec.v ===== *)
(** LRANGE and the ranges by rank return the slice of the sequence that the indexes
    name, as long as the two walks of [rangeRank] start from one end, or meet behind
    the start; and what they return otherwise. *)

From stdpp Require Import sorting.
From S2P Require Import Prelude Xerror GoStd Utils Float Store Ranges Mem Object Reply.
From S2P Require Import ObjectSpec Counters Generic GenericSpec Strings StringsSpec.
From S2P Require Import HashCmd SetCmd HashSpec Rank ListA ListB ListCmd ListSpec.
From Stdlib Require Import Init.Byte.

#[local] Open Scope Z_scope.

(** ** The reference: the slice two indexes name *)

(** A negative index counts from the end. *)
Definition index_of (n i : Z) : Z := if i <? 0 then i + n else i.

Definition range_ref {A} (xs : list A) (s e : Z) : list A :=
  let n := len xs in
  let s := Z.max 0 (index_of n s) in
  let e := Z.min (n - 1) (index_of n e) in
  take (Z.to_nat (e - s + 1)) (drop (Z.to_nat s) xs).

Example range_ref_ex : range_ref [1; 2; 3; 4; 5] (-3) (-2) = [3; 4].
Proof. reflexivity. Qed.

Lemma range_ref_fmap {A B} (f : A -> B) xs s e : f <$> range_ref xs s e = range_ref (f <$> xs) s e.
Proof. unfold range_ref, len. by rewrite fmap_take, fmap_drop, length_fmap. Qed.

Lemma rev_slice {A} (l : list A) i k :
  rev (drop i (take k (rev l))) = take (Nat.min k (length l) - i) (drop (length l - k) l).
Proof.
  rewrite firstn_rev, skipn_rev, rev_involutive, length_drop. f_equal. lia.
Qed.

Lemma slice_join {A} (l : list A) i h j :
  (i <= h)%nat -> drop i (take h l) ++ take j (drop h l) = take (h + j - i) (drop i l).
Proof.
  intros Hi. rewrite skipn_firstn_comm. replace (drop h l) with (drop (h - i) (drop i l)).
  - rewrite take_take_drop. f_equal. lia.
  - rewrite drop_drop. f_equal. lia.
Qed.

Lemma take_same {A} (l : list A) n m :
  n = m \/ (length l <= n /\ length l <= m)%nat -> take n l = take m l.
Proof. intros [-> | [H1 H2]]; [done|]. by rewrite !take_ge. Qed.

(** The slice between two indexes that count from the front, from the back, and from
    either end. *)
Lemma slice_front {A} (l : list A) s e : 0 <= s -> 0 <= e ->
  drop (Z.to_nat s) (take (Z.to_nat (e + 1)) l) = range_ref l s e.
Proof.
  intros Hs He. unfold range_ref, index_of. rewrite skipn_firstn_comm.
  destruct (Z.ltb_spec s 0), (Z.ltb_spec e 0); try lia. rewrite Z.max_r by lia.
  apply take_same. rewrite length_drop. unfold len. lia.
Qed.

Lemma slice_back {A} (l : list A) s e : s < 0 -> e < 0 ->
  rev (drop (Z.to_nat (- e - 1)) (take (Z.to_nat (- s - 1 + 1)) (rev l))) = range_ref l s e.
Proof.
  intros Hs He. rewrite rev_slice. unfold range_ref, index_of, len.
  destruct (Z.ltb_spec s 0), (Z.ltb_spec e 0); try lia.
  replace (Z.to_nat (Z.max 0 (s + Z.of_nat (length l)))) with (length l - Z.to_nat (- s - 1 + 1))%nat by lia.
  apply take_same. rewrite length_drop. lia.
Qed.

Lemma slice_both {A} (l : list A) s e : 0 <= s -> e < 0 ->
  range_ref l s e = take (length l - Z.to_nat (- e - 1) - Z.to_nat s) (drop (Z.to_nat s) l).
Proof.
  intros Hs He. unfold range_ref, index_of, len.
  destruct (Z.ltb_spec s 0), (Z.ltb_spec e 0); try lia. rewrite Z.max_r by lia.
  apply take_same. rewrite length_drop. lia.
Qed.

Section spec.
Context `{PlatformSpec}.

(** ** What a side of [LeftRight] yields *)

Definition good_key (p k : bytes) : Prop := has_prefix p k = true /\ len p < len k.

(** The side yields [l]: behind it come only keys that end the walk. *)
Definition walks (p : bytes) (side : option Iter) (l : list (bytes * bytes)) : Prop :=
  Forall (fun e => good_key p (fst e)) l /\
  match side with
  | None => l = []
  | Some it => it_up it /\ exists rest, it_list it = l ++ rest /\
      match rest with [] => True | e :: _ => has_prefix p (fst e) = false end
  end.

Lemma lr_side_walks p side l : walks p side l ->
  exists side', lr_side p side = inr (head l, side') /\ walks p side' (tail l).
Proof.
  intros [Hl Hs]. destruct side as [it|]; [|subst l; by exists None].
  destruct Hs as (Hup&rest&E&Hrest). unfold lr_side. rewrite it_Valid_list, E.
  destruct l as [|[k v] l]; cbn [app head tail] in *.
  - destruct rest as [|[k v] rest]; cbn [negb].
    + exists (Some it). split; [done|]. split; [done|]. split; [done|]. exists []. by rewrite E.
    + destruct (it_Key_list _ _ _ _ E) as [-> ->]. cbn [fst] in Hrest. rewrite Hrest, orb_true_r.
      by exists None.
  - destruct (it_Key_list _ _ _ _ E) as [-> ->]. apply Forall_cons in Hl as [[Hp Hlen] Hl]. cbn [fst] in Hp, Hlen.
    rewrite Hp. destruct (Z.leb_spec (len k) (len p)); [lia|]. cbn [negb orb].
    destruct (it_Next_up it Hup) as (it'&->&Hup'&E'). rewrite E in E'. cbn [tail] in E'.
    exists (Some it'). split; [done|]. split; [done|]. split; [done|]. by exists rest.
Qed.

Lemma walks_None p : walks p None [].
Proof. by split. Qed.

Lemma lr_Next_walks p ls rs l r : walks p ls l -> walks p rs r ->
  exists ls' rs', lr_Next {| lr_Prefix := p; lr_Left := ls; lr_Right := rs |} =
    inr (head l, head r, {| lr_Prefix := p; lr_Left := ls'; lr_Right := rs' |}) /\
    walks p ls' (tail l) /\ walks p rs' (tail r).
Proof.
  intros Hl Hr. destruct (lr_side_walks _ _ _ Hl) as (ls'&El&Hl'), (lr_side_walks _ _ _ Hr) as (rs'&Er&Hr').
  exists ls', rs'. unfold lr_Next. cbn [lr_Prefix lr_Left lr_Right]. by rewrite El, Er.
Qed.

(** ** The walks on a list *)

Definition items (l : list (bytes * bytes)) : list item := (fun e => IMember (decoded_value (snd e))) <$> l.

(** The entries of [l] from position [c] on whose positions lie within the bounds. *)
Definition bounded (lo hi c : Z) (l : list (bytes * bytes)) : list (bytes * bytes) :=
  drop (Z.to_nat (lo - c)) (take (Z.to_nat (hi + 1 - c)) l).

Lemma bounded_cons lo hi c e l : c <= hi ->
  bounded lo hi c (e :: l) = (if within c lo hi then [e] else []) ++ bounded lo hi (c + 1) l.
Proof.
  intros Hc. unfold bounded, within. replace (Z.to_nat (hi + 1 - c)) with (S (Z.to_nat (hi + 1 - (c + 1)))) by lia.
  cbn [take]. destruct (Z.geb_spec c lo), (Z.leb_spec c hi); try lia; cbn [andb app].
  - replace (Z.to_nat (lo - c)) with 0%nat by lia. replace (Z.to_nat (lo - (c + 1))) with 0%nat by lia. done.
  - replace (Z.to_nat (lo - c)) with (S (Z.to_nat (lo - (c + 1)))) by lia. done.
Qed.

Lemma bounded_done lo hi c l : hi < c -> bounded lo hi c l = [].
Proof. intros Hc. unfold bounded. replace (Z.to_nat (hi + 1 - c)) with 0%nat by lia. by rewrite take_0, drop_nil. Qed.

Lemma bounded_nil lo hi c : bounded lo hi c [] = [].
Proof. unfold bounded. by rewrite take_nil, drop_nil. Qed.

(** The state after an entry of either walk. *)
Definition after_left (b : bounds) (e : bytes * bytes) (s : rank) : rank :=
  let new := bounded (bd_leftStart b) (bd_leftEnd b) (rk_leftC s + 1) [e] in
  {| rk_leftC := rk_leftC s + 1; rk_rightC := rk_rightC s; rk_leftCount := rk_leftCount s + len new;
     rk_rightCount := rk_rightCount s; rk_leftList := rk_leftList s ++ items new;
     rk_rightList := rk_rightList s; rk_lastLeft := fst e; rk_lastRight := rk_lastRight s;
     rk_meet := rk_meet s |}.
Definition after_right (b : bounds) (e : bytes * bytes) (s : rank) : rank :=
  let new := bounded (bd_rightStart b) (bd_rightEnd b) (rk_rightC s + 1) [e] in
  {| rk_leftC := rk_leftC s; rk_rightC := rk_rightC s + 1; rk_leftCount := rk_leftCount s;
     rk_rightCount := rk_rightCount s + len new; rk_leftList := rk_leftList s;
     rk_rightList := rk_rightList s ++ items new; rk_lastLeft := rk_lastLeft s;
     rk_lastRight := Some (fst e); rk_meet := rk_meet s |}.

Lemma bounded_split lo hi c e l : c <= hi ->
  bounded lo hi c (e :: l) = bounded lo hi c [e] ++ bounded lo hi (c + 1) l.
Proof. intros Hc. rewrite !(bounded_cons _ _ c) by done. by rewrite bounded_nil, app_nil_r. Qed.

Lemma bounded_one lo hi c e :
  bounded lo hi c [e] = if within c lo hi then [e] else [].
Proof.
  destruct (Z.leb_spec c hi).
  - rewrite bounded_cons by done. by rewrite bounded_nil, app_nil_r.
  - rewrite bounded_done by done. unfold within. by replace (c <=? hi) with false by lia; rewrite andb_false_r.
Qed.

Lemma items_app l k : items (l ++ k) = items l ++ items k.
Proof. apply fmap_app. Qed.

Lemma items_rev l : items (rev l) = rev (items l).
Proof. unfold items. by rewrite !rev_is_reverse, fmap_reverse. Qed.

Section alist.
Context (o : Object) (Ho : o_Type o = AListType) (p : bytes).

Lemma entry_items_alist e t : entry_items o p true e t = Ret (items [e]) t.
Proof. unfold entry_items. by rewrite Ho. Qed.

Lemma rank_left_run b e s t :
  rank_left o p true b e s t = Ret (after_left b e s, rk_leftC s + 1 >=? bd_leftEnd b) t.
Proof.
  unfold rank_left, bind, after_left. rewrite bounded_one.
  destruct (within _ _ _); [by rewrite entry_items_alist|done].
Qed.

Lemma rank_right_run b e s t :
  rank_right o p true b e s t = Ret (after_right b e s, rk_rightC s + 1 >=? bd_rightEnd b) t.
Proof.
  unfold rank_right, bind, after_right. rewrite bounded_one.
  destruct (within _ _ _); [by rewrite entry_items_alist|done].
Qed.

Abbreviation sides l r := {| lr_Prefix := p; lr_Left := l; lr_Right := r |}.

Lemma rank_loop_nil b ls rs fuel s t : walks p ls [] -> walks p rs [] ->
  rank_loop (S fuel) o true b (sides ls rs) s t = Ret (inr s) t.
Proof.
  intros Hl Hr. destruct (lr_Next_walks p ls rs [] [] Hl Hr) as (ls'&rs'&E&_).
  cbn [rank_loop]. by rewrite E.
Qed.

(** One round, as a function. *)
Definition step_state (b : bounds) (l r : option (bytes * bytes)) (equal : bool) (s : rank) : rank :=
  let s := if equal then set_meet s else s in
  let s := match l with Some e => after_left b e s | None => s end in
  match (if equal then None else r) with Some e => after_right b e s | None => s end.

Definition done_left (b : bounds) (l : option (bytes * bytes)) (s : rank) : bool :=
  match l with Some _ => rk_leftC s + 1 >=? bd_leftEnd b | None => false end.
Definition done_right (b : bounds) (r : option (bytes * bytes)) (s : rank) : bool :=
  match r with Some _ => rk_rightC s + 1 >=? bd_rightEnd b | None => false end.

Lemma rank_step_run b l r equal ls rs s t :
  rank_step o true b l r equal (sides ls rs) s t =
  Ret (step_state b l r equal s,
       sides (if equal || done_left b l s then None else ls)
             (if equal || done_right b r s then None else rs)) t.
Proof.
  unfold rank_step, bind, step_state, done_left, done_right.
  destruct equal, l as [e1|], r as [e2|]; cbn [orb];
    rewrite ?rank_left_run; unfold ret; rewrite ?rank_right_run; try done; unfold with_sides;
    cbn [lr_Prefix lr_Left lr_Right]; by destruct (_ >=? _).
Qed.

(** Only the left walk. *)
Lemma left_walk b l ls rs fuel s t :
  walks p ls l -> walks p rs [] -> (length l < fuel)%nat -> rk_lastRight s = None ->
  rk_leftC s < bd_leftEnd b ->
  exists s', rank_loop fuel o true b (sides ls rs) s t = Ret (inr s') t /\
    rk_leftList s' = rk_leftList s ++ items (bounded (bd_leftStart b) (bd_leftEnd b) (rk_leftC s + 1) l).
Proof.
  revert ls rs fuel s t. induction l as [|e l IH]; intros ls rs fuel s t Hw Hr Hf Hlast Hc;
    (destruct fuel as [|fuel]; [simpl in Hf; lia|]).
  { exists s. rewrite rank_loop_nil by done. split; [done|].
    by rewrite bounded_nil, app_nil_r. }
  destruct (lr_Next_walks p ls rs _ _ Hw Hr) as (ls'&rs'&E&Hl&Hr').
  cbn [rank_loop]. rewrite E. cbn [head tail check_right check_left] in *. rewrite Hlast. cbn [crossed].
  rewrite bool_decide_eq_false_2 by done. unfold bind at 1.
  rewrite rank_step_run. cbn [orb done_left done_right]. unfold step_state.
  rewrite bounded_split, items_app, app_assoc by lia.
  change (rk_leftList s ++ items (bounded _ _ _ [e])) with (rk_leftList (after_left b e s)).
  change (rk_leftC s + 1 + 1) with (rk_leftC (after_left b e s) + 1).
  destruct (Z.geb_spec (rk_leftC s + 1) (bd_leftEnd b)) as [Hge|Hlt].
  - exists (after_left b e s). destruct fuel as [|fuel]; [simpl in Hf; lia|].
    rewrite rank_loop_nil by (done || apply walks_None). split; [done|].
    rewrite bounded_done by (cbn; lia). by rewrite app_nil_r.
  - apply IH; [done..|simpl in Hf; lia|done|cbn; lia].
Qed.

(** Only the right walk; keys are not empty. *)
Lemma right_walk b r ls rs fuel s t :
  walks p ls [] -> walks p rs r -> (length r < fuel)%nat -> rk_lastLeft s = [] ->
  rk_rightC s < bd_rightEnd b ->
  exists s', rank_loop fuel o true b (sides ls rs) s t = Ret (inr s') t /\
    rk_rightList s' = rk_rightList s ++ items (bounded (bd_rightStart b) (bd_rightEnd b) (rk_rightC s + 1) r).
Proof.
  revert ls rs fuel s t. induction r as [|e r IH]; intros ls rs fuel s t Hl Hw Hf Hlast Hc;
    (destruct fuel as [|fuel]; [simpl in Hf; lia|]).
  { exists s. rewrite rank_loop_nil by done. split; [done|].
    by rewrite bounded_nil, app_nil_r. }
  destruct (lr_Next_walks p ls rs _ _ Hl Hw) as (ls'&rs'&E&Hl'&Hr).
  assert (fst e <> []) as He.
  { destruct Hw as [[[_ Hlen] _]%Forall_cons _]. intros En. rewrite En in Hlen.
    pose proof (len_nonneg p). unfold len in *. simpl in Hlen. lia. }
  cbn [rank_loop]. rewrite E. cbn [head tail check_right check_left] in *. rewrite Hlast. cbn [crossed].
  assert (bytes_ltb (fst e) [] = false) as -> by by destruct (fst e).
  rewrite bool_decide_eq_false_2 by congruence. unfold bind at 1.
  rewrite rank_step_run. cbn [orb done_left done_right]. unfold step_state.
  rewrite bounded_split, items_app, app_assoc by lia.
  change (rk_rightList s ++ items (bounded _ _ _ [e])) with (rk_rightList (after_right b e s)).
  change (rk_rightC s + 1 + 1) with (rk_rightC (after_right b e s) + 1).
  destruct (Z.geb_spec (rk_rightC s + 1) (bd_rightEnd b)) as [Hge|Hlt].
  - exists (after_right b e s). destruct fuel as [|fuel]; [simpl in Hf; lia|].
    rewrite rank_loop_nil by (done || apply walks_None). split; [done|].
    rewrite bounded_done by (cbn; lia). by rewrite app_nil_r.
  - apply IH; [done..|simpl in Hf; lia|done|cbn; lia].
Qed.

(** Both walks, until they meet: the left one takes the greater half. *)
Definition half_up {A} (l : list A) : nat := Nat.div2 (S (length l)).
Definition half {A} (l : list A) : nat := Nat.div2 (length l).

Lemma half_up_grow {A} (x y : A) l : half_up (x :: l ++ [y]) = S (half_up l).
Proof. unfold half_up. cbn [length]. by rewrite length_app, Nat.add_comm. Qed.
Lemma half_grow {A} (x y : A) l : half (x :: l ++ [y]) = S (half l).
Proof. unfold half. cbn [length]. by rewrite length_app, Nat.add_comm. Qed.
Lemma half_up_le {A} (l : list A) : (half_up l <= length l)%nat.
Proof. unfold half_up. apply Nat.div2_decr. lia. Qed.
Lemma half_le {A} (l : list A) : (half l <= length l)%nat.
Proof. unfold half. apply Nat.div2_decr. lia. Qed.

Lemma take_half_up {A} (x y : A) l : take (half_up (x :: l ++ [y])) (x :: l ++ [y]) = x :: take (half_up l) l.
Proof. rewrite half_up_grow. cbn [take]. f_equal. apply take_app_le, half_up_le. Qed.
Lemma take_half {A} (x y : A) l : take (half (x :: l ++ [y])) (rev (l ++ [y]) ++ [x]) = y :: take (half l) (rev l).
Proof.
  rewrite half_grow. rewrite rev_app_distr. cbn [rev app take]. f_equal.
  apply take_app_le. rewrite length_rev. apply half_le.
Qed.

Lemma both_walk b mid dl dr ls rs fuel s t :
  StronglySorted entry_lt (dl ++ mid ++ dr) -> length dl = length dr ->
  walks p ls (mid ++ dr) -> walks p rs (rev (dl ++ mid)) -> (length mid < fuel)%nat ->
  bd_leftEnd b = MaxInt64 -> bd_rightEnd b = MaxInt64 ->
  rk_leftC s + len mid < MaxInt64 -> rk_rightC s + len mid < MaxInt64 ->
  exists s', rank_loop fuel o true b (sides ls rs) s t = Ret (inr s') t /\
    rk_leftC s' = rk_leftC s + Z.of_nat (half_up mid) /\ rk_rightC s' = rk_rightC s + Z.of_nat (half mid) /\
    let nl := bounded (bd_leftStart b) MaxInt64 (rk_leftC s + 1) (take (half_up mid) mid) in
    let nr := bounded (bd_rightStart b) MaxInt64 (rk_rightC s + 1) (take (half mid) (rev mid)) in
    rk_leftList s' = rk_leftList s ++ items nl /\ rk_leftCount s' = rk_leftCount s + len nl /\
    rk_rightList s' = rk_rightList s ++ items nr /\ rk_rightCount s' = rk_rightCount s + len nr.
Proof.
  intros Hs Hd Hl Hr Hf Hbl Hbr. remember (length mid) as n eqn:En.
  revert mid En dl dr ls rs fuel s Hs Hd Hl Hr Hf.
  induction n as [n IH] using lt_wf_ind. intros mid En dl dr ls rs fuel s Hs Hd Hl Hr Hf HmL HmR.
  destruct fuel as [|fuel]; [lia|].
  destruct (lr_Next_walks p ls rs _ _ Hl Hr) as (ls'&rs'&E&Hl'&Hr').
  destruct mid as [|x mid]; [|destruct mid as [|y mid _] using rev_ind].
  - (* crossed, or both empty *)
    assert (exists s', rank_loop (S fuel) o true b (sides ls rs) s t = Ret (inr s') t /\ (s' = s \/ s' = set_meet s)) as (s'&Hs'&Es').
    { destruct dr as [|y dr]; destruct dl as [|x dl _] using rev_ind; rewrite ?length_app in Hd; simpl in Hd; try lia.
      - exists s. split; [by rewrite rank_loop_nil|by left].
      - exists (set_meet s). split; [|by right]. cbn [rank_loop]. rewrite E, app_nil_r, rev_app_distr.
        cbn [head app rev check_left check_right crossed].
        apply sorted_app_inv in Hs as (_&_&Hs).
        assert (bytes_ltb (fst x) (fst y) = true) as ->; [|done].
        apply bytes_ltb_spec, (Hs x y); [rewrite elem_of_app; right; by left|by left]. }
    exists s'. split; [done|]. unfold half_up, half. cbn [length Nat.div2 take rev]. rewrite !bounded_nil, !Z.add_0_r.
    by destruct Es' as [-> | ->]; rewrite !app_nil_r.
  - (* the same entry *)
    exists (after_left b x (set_meet s)).
    cbn [rank_loop]. rewrite E, rev_app_distr. cbn [head app rev check_left check_right crossed].
    assert (bytes_ltb (fst x) (fst x) = false) as ->.
    { apply not_true_iff_false. rewrite bytes_ltb_spec. apply blt_irrefl. }
    rewrite bool_decide_eq_true_2 by done. unfold bind at 1. rewrite rank_step_run. cbn [orb].
    destruct fuel as [|fuel]; [simpl in *; lia|]. rewrite rank_loop_nil by apply walks_None.
    split; [done|]. split; [by cbn|]. split; [by cbn; lia|]. cbv zeta.
    change (take (half_up [x]) [x]) with [x]. change (take (half [x]) (rev [x])) with (@nil (bytes * bytes)).
    rewrite bounded_nil, app_nil_r, Z.add_0_r. unfold after_left. cbn [rk_leftC rk_leftList rk_leftCount
      rk_rightList rk_rightCount set_meet]. by rewrite Hbl.
  - (* one entry on each side *)
    cbn [length] in En. rewrite length_app in En. cbn [length] in En.
    assert (entry_lt x y) as Hxy.
    { apply sorted_app_inv in Hs as (_&Hs&_). cbn [app] in Hs. apply StronglySorted_inv in Hs as [_ Hx].
      rewrite Forall_forall in Hx. apply Hx. rewrite !elem_of_app. left. right. by left. }
    rewrite app_comm_cons, app_assoc, rev_app_distr in E. cbn [rank_loop]. rewrite E.
    cbn [head app rev check_left check_right crossed].
    assert (bytes_ltb (fst y) (fst x) = false) as ->.
    { apply not_true_iff_false. rewrite bytes_ltb_spec. intros Hyx. eapply blt_irrefl, blt_trans; [exact Hxy|exact Hyx]. }
    rewrite bool_decide_eq_false_2 by (intros [= Exy]; unfold entry_lt in Hxy; rewrite Exy in Hxy; by eapply blt_irrefl).
    unfold bind at 1. rewrite rank_step_run. cbn [orb done_left done_right]. rewrite Hbl, Hbr.
    rewrite len_cons, len_app in HmL, HmR. change (len [y]) with 1 in *. pose proof (len_nonneg mid).
    destruct (Z.geb_spec (rk_leftC s + 1) MaxInt64), (Z.geb_spec (rk_rightC s + 1) MaxInt64); try lia.
    unfold step_state. set (s1 := after_right b y (after_left b x s)).
    destruct (IH (length mid) ltac:(lia) mid eq_refl (dl ++ [x]) (y :: dr) ls' rs' fuel s1) as (s'&Hs'&EL&ER&Hrest).
    + rewrite <- app_assoc. cbn [app] in Hs |- *. by rewrite <- app_assoc in Hs.
    + rewrite length_app. simpl. lia.
    + cbn [tail app] in Hl'. by rewrite <- app_assoc in Hl'.
    + rewrite app_comm_cons, app_assoc, rev_app_distr in Hr'. cbn [rev app tail] in Hr'. by rewrite <- app_assoc.
    + lia.
    + cbn; lia.
    + cbn; lia.
    + exists s'. split; [exact Hs'|]. rewrite take_half_up, take_half, half_up_grow, half_grow.
      cbn [s1 after_right after_left rk_leftC rk_rightC rk_leftList rk_leftCount rk_rightList rk_rightCount] in *.
      rewrite (bounded_split _ _ _ x), (bounded_split _ _ _ y), !len_app, !items_app, !app_assoc, !Z.add_assoc by lia.
      rewrite Hbl, Hbr in Hrest. split; [lia|]. split; [lia|]. exact Hrest.
Qed.

Lemma halves {A} (l : list A) : (half_up l + half l = length l)%nat.
Proof.
  unfold half_up, half. pose proof (Nat.div2_odd (length l)) as E.
  pose proof (Nat.div2_odd (S (length l))) as E'. rewrite Nat.odd_succ, <- Nat.negb_odd in E'.
  destruct (Nat.odd (length l)); cbn [negb Nat.b2n] in *; lia.
Qed.

(** What both walks collected, joined, is the slice, unless it starts in the half of
    the walk from the back and that walk collected something. *)
Lemma rank_join_run (b : bounds) (s : rank) l a z t :
  len l <= MaxInt64 -> 0 <= a <= MaxInt64 -> 0 <= z < MaxInt64 ->
  a < Z.of_nat (half_up l) \/ Z.of_nat (half l) <= z ->
  bd_leftStart b = a -> bd_rightStart b = z ->
  rk_leftC s = Z.of_nat (half_up l) - 1 -> rk_rightC s = Z.of_nat (half l) - 1 ->
  rk_leftList s = items (drop (Z.to_nat a) (take (half_up l) l)) ->
  rk_leftCount s = len (drop (Z.to_nat a) (take (half_up l) l)) ->
  rk_rightList s = items (drop (Z.to_nat z) (take (half l) (rev l))) ->
  rank_join true false b s t = Ret (items (take (length l - Z.to_nat z - Z.to_nat a) (drop (Z.to_nat a) l))) t.
Proof.
  intros Hl Ha Hz Hbug Ea Ez EL ER LL LC RL. unfold rank_join. cbn [negb]. rewrite Ea, Ez.
  pose proof (halves l) as Hh. unfold len in *. rewrite length_drop, length_take in LC.
  rewrite EL, ER, LC, LL, RL, !Z.mul_1_l. set (h := half_up l) in *. set (k := half l) in *. clearbody h k.
  destruct (Z.ltb_spec (Z.of_nat k - 1) z), (Z.ltb_spec (Z.of_nat h - 1) a); cbn [andb]; try lia.
  - by replace (length l - Z.to_nat z - Z.to_nat a)%nat with 0%nat by lia; rewrite take_0.
  - rewrite !(i64_small (z - _)) by (unfold in_i64, MinInt64, MaxInt64 in *; lia).
    destruct (Z.gtb_spec (z - (Z.of_nat k - 1)) (Z.of_nat (Nat.min h (length l) - Z.to_nat a))).
    { by replace (length l - Z.to_nat z - Z.to_nat a)%nat with 0%nat by lia; rewrite take_0. }
    rewrite (i64_small (_ - _)), (i64_small (_ + 1)), i64_small by (unfold in_i64, MinInt64, MaxInt64 in *; lia).
    unfold slice_to, items, len. rewrite length_fmap, length_drop, length_take.
    rewrite (proj2 (andb_true_iff _ _)) by (split; apply Z.leb_le; lia). unfold ret. f_equal.
    rewrite <- fmap_take, skipn_firstn_comm, take_take. f_equal. apply take_same. rewrite length_drop. lia.
  - unfold ReversePair, ret. cbn [negb]. f_equal. rewrite <- items_rev, <- items_app. f_equal.
    rewrite rev_slice. replace (length l - k)%nat with h by lia. rewrite slice_join by lia.
    f_equal. lia.
Qed.

End alist.

(** ** The whole of [rangeRank] *)

(** No element has an empty key (the ones the pushes make have ten bytes). *)
Definition no_empty_key (d : gmap bytes bytes) (o : Object) : Prop := fields d o [] = None.

Lemma entries_good_keys d o : no_empty_key d o ->
  Forall (fun e => good_key (value_prefix o) (fst e)) (entries d o).
Proof.
  intros Hn. apply Forall_forall. intros [k v] (f&->&Hf)%entry_field. split; cbn [fst].
  - apply has_prefix_spec. exists f. by rewrite GetValueBytes_app.
  - rewrite GetValueBytes_app, len_app. destruct f as [|x f]; [by rewrite Hn in Hf|].
    rewrite len_cons. pose proof (len_nonneg f). lia.
Qed.

(** The iterator from an end of the object, when the range needs it. *)
Lemma iter_if_walks (b reversed : bool) o t :
  t_up t -> tidy (dv t) o -> no_empty_key (dv t) o ->
  let l := if b then sided (negb reversed) (entries (dv t) o) else [] in
  exists side, iter_if b (value_prefix o) (Bytes.PrefixNext (value_prefix o)) reversed t = Ret (inr side) t /\
    walks (value_prefix o) side l /\
    (length l <= match side with Some it => it_size it | None => 0 end)%nat.
Proof.
  intros Hup Ht Hn l. subst l. unfold iter_if. destruct b; [|by exists None].
  destruct (IterOf_up (value_prefix o) (Bytes.PrefixNext (value_prefix o)) reversed t Hup) as (it&E&Hit&El).
  exists (Some it). unfold bind. rewrite E. split; [done|].
  pose proof (tidy_entries t o Ht) as Et. pose proof (entries_good_keys _ _ Hn) as Hg.
  destruct (value_prefix_ok o) as (Hne&Hle&_).
  enough (exists rest, it_list it = sided (negb reversed) (entries (dv t) o) ++ rest /\
    match rest with [] => True | e :: _ => has_prefix (value_prefix o) (fst e) = false end) as (rest&Er&Hr).
  { split; [split; [|by split; [|exists rest]]|].
    - apply Forall_forall. intros e He%elem_of_sided. by rewrite Forall_forall in Hg; apply Hg.
    - pose proof (it_size_list it) as Hsz. rewrite Er, length_app in Hsz. lia. }
  destruct reversed; cbn [negb sided].
  - destruct (range_entries_split (value_prefix o) (Bytes.PrefixNext (value_prefix o)) (t_view t) Hle Hne)
      as [Es | Hnil].
    + rewrite El, Es, rev_app_distr, Et. eexists. split; [done|].
      destruct (rev (range_entries [] (value_prefix o) (t_view t))) as [|[k v] rest] eqn:Erest; [done|].
      assert ((k, v) ∈ range_entries [] (value_prefix o) (t_view t)) as Hk.
      { rewrite <- (rev_involutive (range_entries _ _ _)), Erest, rev_is_reverse, elem_of_reverse. by left. }
      apply elem_of_range_entries in Hk as (_&_&Hk). apply below_spec in Hk as [Hk|Hk]; [discriminate|].
      apply not_true_iff_false. cbn [fst]. intros [x ->]%has_prefix_spec.
      by apply blt_not_ble in Hk; apply Hk, ble_app.
    + discriminate.
  - exists []. by rewrite app_nil_r, El.
Qed.

(** The indexes whose slice [rangeRank] finds: both from one end, or the first from the
    front and the second from the back where the first is in the front half or the
    second lies beyond the back half. *)
Definition rank_ok (n s e : Z) : Prop :=
  0 <= s /\ 0 <= e \/ s < 0 /\ e < 0 \/ 0 <= s /\ e < 0 /\ (s < (n + 1) / 2 \/ n / 2 <= - e - 1).

#[global] Instance rank_ok_dec n s e : Decision (rank_ok n s e).
Proof. unfold rank_ok. apply _. Defined.

Lemma from_end_eq i : MinInt64 < i < 0 -> from_end i = - i - 1.
Proof. intros Hi. unfold from_end.
  rewrite (i64_small (- i)), i64_small by (unfold in_i64, MinInt64, MaxInt64 in *; lia). done. Qed.

Lemma half_up_Z {A} (l : list A) : Z.of_nat (half_up l) = (len l + 1) / 2.
Proof.
  unfold half_up, len. rewrite Nat.div2_div, Nat2Z.inj_div. f_equal. lia.
Qed.
Lemma half_Z {A} (l : list A) : Z.of_nat (half l) = len l / 2.
Proof. unfold half, len. by rewrite Nat.div2_div, Nat2Z.inj_div. Qed.

(** The range is empty at once. *)
Definition rank_empty (s e : Z) : bool :=
  (0 <=? s) && (0 <=? e) && (e <? s) || (s <? 0) && (e <? 0) && (e <? s).

(** What the loop collected, as the range. *)
Definition rank_result (s e : Z) (b : bounds) (st : rank) : M (list item) :=
  if negb (s <? 0) && negb (e <? 0) then ret (rk_leftList st)
  else if (s <? 0) && (e <? 0) then ret (rev (rk_rightList st))
  else rank_join true (s <? 0) b st.

Definition index_bounds (s e : Z) : bounds :=
  rank_bounds (s <? 0) (e <? 0) (if s <? 0 then - s - 1 else s) (if e <? 0 then - e - 1 else e).

Section range.
Context (o : Object) (Ho : o_Type o = AListType) (t : Txn) (Hup : t_up t) (Ht : tidy (dv t) o).
Context (Hn : no_empty_key (dv t) o) (Hlen : cardinality (dv t) o < MaxInt64).

(** [rangeRank] is its loop on the listings of the elements. *)
Lemma rangeRank_loop s e l :
  MinInt64 < s -> MinInt64 < e -> rank_empty s e = false ->
  (forall ls rs fuel,
     walks (value_prefix o) ls (if negb (s <? 0) || negb (e <? 0) then entries (dv t) o else []) ->
     walks (value_prefix o) rs (if (s <? 0) || (e <? 0) then rev (entries (dv t) o) else []) ->
     (length (entries (dv t) o) < fuel)%nat ->
     exists st, rank_loop fuel o true (index_bounds s e)
         {| lr_Prefix := value_prefix o; lr_Left := ls; lr_Right := rs |} rank0 t = Ret (inr st) t /\
       rank_result s e (index_bounds s e) st t = Ret l t) ->
  rangeRank o s e true t = Ret (inr l) t.
Proof.
  intros Hs He Hemp Hloop. unfold rangeRank.
  replace (if s <? 0 then from_end s else s) with (if s <? 0 then - s - 1 else s)
    by (destruct (Z.ltb_spec s 0); [by rewrite from_end_eq|done]).
  replace (if e <? 0 then from_end e else e) with (if e <? 0 then - e - 1 else e)
    by (destruct (Z.ltb_spec e 0); [by rewrite from_end_eq|done]).
  assert (rank_prefix o = Some (value_prefix o)) as -> by (unfold rank_prefix; by rewrite Ho).
  pose proof (iter_if_walks (negb (s <? 0) || negb (e <? 0)) false o t Hup Ht Hn) as (ls&EL&HL&FL).
  pose proof (iter_if_walks ((s <? 0) || (e <? 0)) true o t Hup Ht Hn) as (rs&ER&HR&FR).
  cbn [negb sided] in HL, HR, FL, FR.
  destruct (Hloop ls rs (lr_fuel {| lr_Prefix := value_prefix o; lr_Left := ls; lr_Right := rs |}) HL HR)
    as (st&Est&Hl).
  { unfold lr_fuel; cbn [lr_Left lr_Right].
    destruct (s <? 0), (e <? 0); cbn [negb orb] in *; rewrite ?length_rev in *; simpl in *; lia. }
  fold (index_bounds s e). unfold rank_empty, rank_result in *. cbv zeta.
  assert (negb (s <? 0) && negb (e <? 0) &&
    ((if s <? 0 then - s - 1 else s) >? (if e <? 0 then - e - 1 else e)) = false) as ->
    by (destruct (Z.ltb_spec s 0), (Z.ltb_spec e 0); cbn [negb andb] in *; lia).
  assert ((s <? 0) && (e <? 0) &&
    ((if s <? 0 then - s - 1 else s) <? (if e <? 0 then - e - 1 else e)) = false) as ->
    by (destruct (Z.ltb_spec s 0), (Z.ltb_spec e 0); cbn [negb andb] in *; lia).
  cbv beta iota zeta. fold (index_bounds s e). unfold on_value, bind.
  rewrite EL, ER, Est.
  destruct (s <? 0), (e <? 0); cbn [negb andb orb] in *; try (by injection Hl as <-); by rewrite Hl.
Qed.

Abbreviation slice s e := (items (range_ref (entries (dv t) o) s e)).

Lemma rangeRank_front s e : 0 <= s <= e -> rangeRank o s e true t = Ret (inr (slice s e)) t.
Proof.
  intros Hse. apply rangeRank_loop; [unfold MinInt64; lia..|unfold rank_empty; lia|].
  intros ls rs fuel. destruct (Z.ltb_spec s 0), (Z.ltb_spec e 0); try lia. cbn [negb orb]. intros HL HR Hf.
  destruct (left_walk o Ho _ (index_bounds s e) _ ls rs fuel rank0 t HL HR Hf eq_refl) as (st&Est&El).
  { unfold index_bounds, rank_bounds. destruct (Z.ltb_spec e 0); cbn; lia. }
  exists st. split; [done|]. unfold rank_result. destruct (Z.ltb_spec s 0), (Z.ltb_spec e 0); try lia.
  cbn [negb andb]. rewrite El. unfold index_bounds, rank_bounds.
  destruct (Z.ltb_spec s 0), (Z.ltb_spec e 0); try lia. unfold bounded.
  cbn [rank0 rk_leftList rk_leftC bd_leftStart bd_leftEnd app].
  by rewrite !Z.sub_0_r, slice_front by lia.
Qed.

Lemma rangeRank_back s e : MinInt64 < s <= e -> e < 0 -> rangeRank o s e true t = Ret (inr (slice s e)) t.
Proof.
  intros Hse He. apply rangeRank_loop; [lia..|unfold rank_empty; lia|].
  intros ls rs fuel. destruct (Z.ltb_spec s 0), (Z.ltb_spec e 0); try lia. cbn [negb orb]. intros HL HR Hf.
  rewrite <- length_rev in Hf.
  destruct (right_walk o Ho _ (index_bounds s e) _ ls rs fuel rank0 t HL HR Hf eq_refl) as (st&Est&El).
  { unfold index_bounds, rank_bounds. destruct (Z.ltb_spec s 0); cbn; lia. }
  exists st. split; [done|]. unfold rank_result. destruct (Z.ltb_spec s 0), (Z.ltb_spec e 0); try lia.
  cbn [negb andb]. rewrite El. unfold index_bounds, rank_bounds.
  destruct (Z.ltb_spec s 0), (Z.ltb_spec e 0); try lia. unfold bounded.
  cbn [rank0 rk_rightList rk_rightC bd_rightStart bd_rightEnd app].
  by rewrite !Z.sub_0_r, <- items_rev, slice_back by lia.
Qed.

Lemma rangeRank_both s e : 0 <= s <= MaxInt64 -> MinInt64 < e < 0 ->
  s < (cardinality (dv t) o + 1) / 2 \/ cardinality (dv t) o / 2 <= - e - 1 ->
  rangeRank o s e true t = Ret (inr (slice s e)) t.
Proof.
  intros Hs He Hok. apply rangeRank_loop; [unfold MinInt64 in *; lia..|unfold rank_empty; lia|].
  unfold cardinality in *. set (l := entries (dv t) o) in *.
  intros ls rs fuel. destruct (Z.ltb_spec s 0), (Z.ltb_spec e 0); try lia. cbn [negb orb]. intros HL HR Hf.
  assert (index_bounds s e = {| bd_leftStart := s; bd_leftEnd := MaxInt64; bd_rightStart := - e - 1;
    bd_rightEnd := MaxInt64 |}) as Eb.
  { unfold index_bounds, rank_bounds. destruct (Z.ltb_spec s 0), (Z.ltb_spec e 0); try lia. done. }
  destruct (both_walk o Ho (value_prefix o) (index_bounds s e) l [] [] ls rs fuel rank0 t)
    as (st&Est&LC&RC&LL&LN&RL&_); rewrite ?Eb; try done.
  { rewrite app_nil_r. apply entries_sorted. }
  { by rewrite app_nil_r. }
  { cbn. lia. }
  { cbn. lia. }
  exists st. split; [by rewrite <- Eb|]. unfold rank_result. destruct (Z.ltb_spec s 0), (Z.ltb_spec e 0); try lia.
  cbn [negb andb]. rewrite slice_both by lia. rewrite Eb in *.
  cbn [rank0 rk_rightList rk_rightC rk_leftC rk_leftList rk_leftCount rk_rightCount bd_leftStart bd_rightStart app] in *.
  pose proof (half_up_le l). pose proof (half_le l).
  assert (forall z k (m : list (bytes * bytes)), (k <= length m)%nat -> len m < MaxInt64 ->
    bounded z MaxInt64 (-1 + 1) (take k m) = drop (Z.to_nat z) (take k m)) as Hb.
  { intros z k m Hk Hm. unfold bounded, len in *. rewrite Z.sub_0_r, (take_ge (take k m)); [done|].
    rewrite length_take. lia. }
  rewrite Hb in LL, LN by (done || lia).
  rewrite Hb in RL by (rewrite ?length_rev; unfold len in *; rewrite ?length_rev; done || lia).
  assert (0 <= - e - 1 < MaxInt64) by (unfold MinInt64, MaxInt64 in *; lia).
  apply rank_join_run; try done; rewrite ?half_up_Z, ?half_Z in *; lia.
Qed.

Lemma rangeRank_nothing s e : MinInt64 < s -> MinInt64 < e -> rank_empty s e = true ->
  rangeRank o s e true t = Ret (inr (slice s e)) t.
Proof.
  intros Hs He Hemp.
  assert (range_ref (entries (dv t) o) s e = []) as ->.
  { unfold range_ref, index_of, rank_empty in *.
    destruct (Z.ltb_spec s 0), (Z.ltb_spec e 0); try lia;
      match goal with |- take ?n _ = _ => by replace n with 0%nat by lia end. }
  unfold rangeRank, rank_empty in *.
  destruct (Z.ltb_spec s 0), (Z.ltb_spec e 0); cbn [negb andb] in *; rewrite ?from_end_eq by lia; try lia.
  - by rewrite (proj2 (Z.ltb_lt _ _)) by lia.
  - by rewrite (proj2 (Z.gtb_lt _ _)) by lia.
Qed.

(** The two walks of [rangeRank] over a list return the slice of its elements. *)
Lemma rangeRank_slice s e :
  MinInt64 < s <= MaxInt64 -> MinInt64 < e <= MaxInt64 -> rank_ok (cardinality (dv t) o) s e ->
  rangeRank o s e true t = Ret (inr (IMember <$> range_ref (elems (dv t) o) s e)) t.
Proof.
  intros Hs He Hok.
  replace (IMember <$> range_ref (elems (dv t) o) s e) with (slice s e)
    by by unfold elems, items; rewrite <- range_ref_fmap, <- list_fmap_compose.
  destruct (rank_empty s e) eqn:Eemp; [apply rangeRank_nothing; [lia..|done]|]. unfold rank_empty in Eemp.
  destruct Hok as [[Hs0 He0]|[[Hs0 He0]|(Hs0&He0&Hok)]].
  - apply rangeRank_front. lia.
  - apply rangeRank_back; lia.
  - apply rangeRank_both; [lia..|done].
Qed.
End range.


End spec.
