(* ===== verification/BitSpec.v ===== *)
(** The bit commands against the bits of a string: bit [i] of a string is bit [7 - i mod 8]
    of its byte [i / 8], and 0 behind its end. *)

From S2P Require Import Prelude Xerror GoStd Utils Store Ranges Object Reply ObjectSpec.
From S2P Require Import Generic GenericSpec Strings StringsSpec BitCmd.
From Stdlib Require Import Init.Byte.

#[local] Open Scope Z_scope.

Definition bit_at (v : bytes) (i : Z) : bool := Z.testbit (b2z (nth (Z.to_nat (i / 8)) v x00)) (7 - i mod 8).

(** ** Bytes *)

Lemma land7 n : 0 <= n -> Z.land n 7 = n mod 8.
Proof. intros. change 7 with (Z.ones 3). by rewrite Z.land_ones by lia. Qed.
Lemma shiftr3 n : Z.shiftr n 3 = n / 8.
Proof. by rewrite Z.shiftr_div_pow2 by lia. Qed.

Lemma one_bit z n : 0 <= n -> Z.land (Z.shiftr z n) 1 = Z.b2z (Z.testbit z n).
Proof. intros. change 1 with (Z.ones 1). rewrite Z.land_ones, Z.testbit_spec' by lia. by rewrite Z.shiftr_div_pow2 by lia. Qed.

(** The byte SETBIT writes. *)
Lemma set_byte v n x m : 0 <= v < 256 -> 0 <= n < 8 -> 0 <= m < 8 ->
  Z.testbit (b2z (z2b (Z.lor (Z.ldiff v (Z.shiftl 1 n)) (Z.shiftl (Z.b2z x) n)))) m
  = if m =? n then x else Z.testbit v m.
Proof.
  intros Hv Hn Hm. rewrite b2z_z2b. change 256 with (2 ^ 8). rewrite Z.mod_pow2_bits_low by lia.
  rewrite Z.lor_spec, Z.ldiff_spec, !Z.shiftl_spec by lia.
  change 1 with (Z.b2z true).
  destruct (Z.eqb_spec m n) as [->|Hne].
  - rewrite Z.sub_diag, !Z.b2z_bit0. by rewrite andb_false_r.
  - destruct (decide (m < n)).
    + assert (forall y, Z.testbit y (m - n) = false) as E by (intros; apply Z.testbit_neg_r; lia).
      by rewrite !E, andb_true_r, orb_false_r.
    + assert (forall y, Z.testbit (Z.b2z y) (m - n) = false) as E.
      { intros y. apply (proj1 (Z.bounded_iff_bits_nonneg 1 (Z.b2z y) ltac:(lia) ltac:(destruct y; cbn; lia))); [|lia].
        destruct y; cbn; lia. }
      by rewrite !E, andb_true_r, orb_false_r.
Qed.

Lemma nth_set v o x m : (o < length v)%nat ->
  nth m (<[o := x]> v) x00 = if decide (m = o) then x else nth m v x00.
Proof.
  intros Ho. rewrite !nth_lookup. destruct (decide (m = o)) as [->|].
  - by rewrite list_lookup_insert_eq by done.
  - by rewrite list_lookup_insert_ne by done.
Qed.

Lemma nth_padded v n m : nth m (v ++ replicate n x00) x00 = nth m v x00.
Proof.
  destruct (decide (m < length v)%nat); [by rewrite app_nth1|].
  rewrite app_nth2, (nth_overflow v) by lia. rewrite nth_lookup.
  destruct (replicate n x00 !! _) as [x|] eqn:E; [|done]. by apply lookup_replicate in E as [-> _].
Qed.

(** [v] is [old], perhaps longer by zeros; the byte with bit [n] is rewritten. *)
Lemma bit_set old v n x i :
  0 <= n -> 0 <= i -> n / 8 < len v -> (forall m, nth m v x00 = nth m old x00) ->
  let b := 7 - n mod 8 in
  bit_at (<[Z.to_nat (n / 8) :=
    z2b (Z.lor (Z.ldiff (b2z (nth (Z.to_nat (n / 8)) old x00)) (Z.shiftl 1 b)) (Z.shiftl (Z.b2z x) b))]> v) i
  = if i =? n then x else bit_at old i.
Proof.
  intros Hn Hi Hl Hv b. unfold bit_at. pose proof (Z.mod_pos_bound n 8 eq_refl). pose proof (Z.mod_pos_bound i 8 eq_refl).
  pose proof (Z.div_pos n 8 Hn eq_refl). pose proof (Z.div_pos i 8 Hi eq_refl).
  rewrite nth_set by (unfold len in Hl; lia). rewrite Hv.
  destruct (decide (Z.to_nat (i / 8) = Z.to_nat (n / 8))) as [E|E].
  - assert (i / 8 = n / 8) as E' by lia. rewrite set_byte by (try apply b2z_range; lia). rewrite E'.
    pose proof (Z.div_mod i 8). pose proof (Z.div_mod n 8).
    destruct (Z.eqb_spec (7 - i mod 8) b), (Z.eqb_spec i n); try done; lia.
  - destruct (Z.eqb_spec i n) as [->|]; done.
Qed.

(** ** The first bit with a value *)

Lemma land_shift_bit z i : 0 <= i -> (Z.land z (Z.shiftl 1 i) =? 0) = negb (Z.testbit z i).
Proof.
  intros Hi. rewrite Z.shiftl_1_l. destruct (Z.testbit z i) eqn:E; cbn [negb].
  - apply Z.eqb_neq. intros E'. apply (f_equal (fun y => Z.testbit y i)) in E'.
    by rewrite Z.land_spec, E, Z.pow2_bits_true, Z.bits_0 in E' by lia.
  - apply Z.eqb_eq, Z.bits_inj_0. intros j. rewrite Z.land_spec, Z.pow2_bits_eqb by lia.
    destruct (Z.eqb_spec i j) as [<-|]; [by rewrite E|apply andb_false_r].
Qed.

Lemma find_bit_spec x vv n i : 0 <= i -> i + Z.of_nat n = 8 ->
  match find_bit (Z.b2z x) vv n i with
  | Some j => i <= j < 8 /\ Z.testbit (b2z vv) (7 - j) = x /\
      forall m, i <= m < j -> Z.testbit (b2z vv) (7 - m) = negb x
  | None => forall m, i <= m < 8 -> Z.testbit (b2z vv) (7 - m) = negb x
  end.
Proof.
  revert i. induction n as [|n IH]; intros i H0 Hn; cbn [find_bit]; [lia|].
  cbv zeta. rewrite land_shift_bit by lia.
  specialize (IH (i + 1) ltac:(lia) ltac:(lia)).
  destruct (Z.testbit (b2z vv) (7 - i)) eqn:E; destruct x; cbn [Z.b2z negb Z.eqb andb orb] in *.
  1, 4: split_and!; [lia|lia|done|lia].
  all: destruct (find_bit _ vv n (i + 1)) as [j|];
    [destruct IH as (?&?&IH); split_and!; [lia|lia|done|]|]; intros m Hm;
    (destruct (decide (m = i)) as [->|]; [done|apply IH; lia]).
Qed.

Lemma skipped (x : bool) vv : b2z vv = (if x then 0 else 255) -> forall m, 0 <= m < 8 -> Z.testbit (b2z vv) m = negb x.
Proof.
  intros -> m Hm. destruct x; [apply Z.bits_0|]. change 255 with (Z.ones 8). apply Z.ones_spec_low. lia.
Qed.

Lemma bit_at_cons b v i : bit_at (b :: v) (8 + i) = bit_at v i \/ i < 0.
Proof.
  destruct (decide (i < 0)); [by right|left]. unfold bit_at.
  replace (8 + i) with (i + 1 * 8) by lia. rewrite Z.div_add, Z_mod_plus_full by lia.
  pose proof (Z.div_pos i 8). by replace (Z.to_nat (i / 8 + 1)) with (S (Z.to_nat (i / 8))) by lia.
Qed.

Lemma bit_at_head b v i : 0 <= i < 8 -> bit_at (b :: v) i = Z.testbit (b2z b) (7 - i).
Proof. intros. unfold bit_at. by rewrite Z.div_small, Z.mod_small by lia. Qed.

Lemma bitpos_loop_spec (x : bool) v k :
  match bitpos_loop (Z.b2z x) (if x then 0 else 255) v k with
  | Some (k', i) => k <= k' < k + len v /\ 0 <= i < 8 /\ bit_at v (8 * (k' - k) + i) = x /\
      forall m, 0 <= m < 8 * (k' - k) + i -> bit_at v m = negb x
  | None => forall m, 0 <= m < 8 * len v -> bit_at v m = negb x
  end.
Proof.
  revert k. induction v as [|b v IH]; intros k; cbn [bitpos_loop]; [intros m; change (len (@nil Init.Byte.byte)) with 0; lia|].
  rewrite len_cons.
  assert ((forall m, 0 <= m < 8 -> bit_at (b :: v) m = negb x) ->
    match bitpos_loop (Z.b2z x) (if x then 0 else 255) v (k + 1) with
    | Some (k', i) => k <= k' < k + (1 + len v) /\ 0 <= i < 8 /\ bit_at (b :: v) (8 * (k' - k) + i) = x /\
        forall m, 0 <= m < 8 * (k' - k) + i -> bit_at (b :: v) m = negb x
    | None => forall m, 0 <= m < 8 * (1 + len v) -> bit_at (b :: v) m = negb x
    end) as Hgo.
  { intros Hh. specialize (IH (k + 1)).
    assert (forall m, 8 <= m -> bit_at v (m - 8) = negb x -> bit_at (b :: v) m = negb x) as Hs.
    { intros m Hm E. destruct (bit_at_cons b v (m - 8)) as [E'|]; [|lia].
      replace (8 + (m - 8)) with m in E' by lia. by rewrite E'. }
    destruct (bitpos_loop _ _ v (k + 1)) as [[k' i]|].
    - destruct IH as (?&?&Hb&Hm). split_and!; [lia..| |].
      + destruct (bit_at_cons b v (8 * (k' - (k + 1)) + i)) as [E|]; [|lia].
        rewrite <- Hb, <- E. f_equal. lia.
      + intros m Hr. destruct (decide (m < 8)); [apply Hh; lia|]. apply Hs; [lia|]. apply Hm. lia.
    - intros m Hr. destruct (decide (m < 8)); [apply Hh; lia|]. apply Hs; [lia|]. apply IH. lia. }
  destruct (Z.eqb_spec (b2z b) (if x then 0 else 255)) as [E|E].
  { apply Hgo. intros m Hm. rewrite bit_at_head by done. apply (skipped x b E). lia. }
  pose proof (find_bit_spec x b 8 0 ltac:(lia) ltac:(lia)) as Hf.
  destruct (find_bit _ b 8 0) as [i|].
  - destruct Hf as (Hi&Hb&Hm). pose proof (len_nonneg v). split_and!; [lia..| |].
    + rewrite Z.sub_diag. by rewrite bit_at_head by lia.
    + intros m Hr. rewrite bit_at_head by lia. apply Hm. lia.
  - apply Hgo. intros m Hm. rewrite bit_at_head by done. apply Hf. lia.
Qed.

Section spec.
Context `{PlatformSpec}.

(** ** SETBIT and GETBIT *)

Lemma GetNonnegativeInt64_eq a n : ParseInt a = Some n -> 0 <= n -> Int.GetNonnegativeInt64 a = (n, None).
Proof. intros E Hn. unfold Int.GetNonnegativeInt64. rewrite E. destruct (Z.ltb_spec n 0); [lia|done]. Qed.

(** The database with the value of the string [k] replaced. *)
Definition string_is (c : Config) (t : Txn) (k v : bytes) (t' : Txn) : Prop :=
  ready c t' /\ same_env t t' /\
  forall x, find c t (dv t') x = upd k (set_o_Value (Some v) (string_or_new c t k)) (find c t (dv t)) x.

Lemma string_is_same c t k o v t' d :
  find c t (dv t) k = Some o -> o_Value o = Some v -> dwrote c t t' d ->
  (forall x, find c t d x = find c t (dv t) x) -> string_is c t k v t'.
Proof.
  intros Ef Ev Hw Hf. split; [apply Hw|]. split; [apply Hw|]. intros x.
  rewrite (dw_view _ _ _ _ Hw), Hf. unfold upd, string_or_new. rewrite Ef. destruct (decide (x = k)) as [->|]; [|done].
  rewrite Ef. f_equal. destruct o. cbn in Ev. by subst.
Qed.

(** SETBIT on a missing key or a string: the reply is the old bit, and the string
    afterwards has the new bit at the offset and all other bits as before; it is as long as
    before or just long enough for the offset, with zeros between. Type, expiry and
    timestamp of the header and all other keys stay. On a key of another type it fails and
    nothing changes. *)
Lemma SetBitHandle_sets c k off b n x t :
  ready c t -> key_ok k -> good_header c t k -> ParseInt off = Some n -> 0 <= n < MAX_VALUE_SIZE ->
  ParseInt b = Some (Z.b2z x) -> len (sl (old_string c t k)) < MAX_VALUE_SIZE - 19 ->
  wp (SetBitHandle [k; off; b]) t (fun r t' =>
    let old := sl (old_string c t k) in
    if negb (settable (find c t (dv t)) k) then failed c t WrongTypeErr r t'
    else r = RInt (Z.b2z (bit_at old n)) /\
      exists new, string_is c t k new t' /\ len new = Z.max (len old) (n / 8 + 1) /\
        forall i, 0 <= i -> bit_at new i = if i =? n then x else bit_at old i).
Proof.
  intros Hr Hk Hg Ho Hn Hb Hold. unfold SetBitHandle.
  change (negb (len [k; off; b] =? 3)) with false. cbv iota. cbn [arg nth].
  rewrite (GetNonnegativeInt64_eq off n), (GetNonnegativeInt64_eq b (Z.b2z x)) by (done || (destruct x; cbn; lia)).
  destruct (Z.geb_spec n MAX_VALUE_SIZE); [lia|].
  replace (negb (Z.b2z x =? 0) && negb (Z.b2z x =? 1)) with false by by destruct x.
  cbv zeta. rewrite shiftr3, land7 by lia. pose proof (Z.mod_pos_bound n 8 eq_refl). pose proof (Z.div_pos n 8).
  assert (n / 8 < MAX_VALUE_SIZE - 20) as Hsmall.
  { apply Z.div_lt_upper_bound; unfold MAX_VALUE_SIZE in *; lia. }
  apply wp_bind, (wp_lookup_typed c); [done|unfold key_ok in Hk; lia|done|done|].
  intros t1 d1 Hw1 Hf1 _ _.
  assert (forall create v, has create DeleteKeyType = false -> settable (find c t (dv t)) k = true ->
    (forall m, nth m v x00 = nth m (sl (old_string c t k)) x00) ->
    len v = Z.max (len (sl (old_string c t k))) (n / 8 + 1) ->
    let w := <[Z.to_nat (n / 8) :=
      z2b (Z.lor (Z.ldiff (b2z (nth (Z.to_nat (n / 8)) (sl (old_string c t k)) x00)) (Z.shiftl 1 (7 - n mod 8)))
             (Z.shiftl (Z.b2z x) (7 - n mod 8)))]> v in
    wp (do! setTxnObject (ObjectKeyBytes (string_or_new c t k)) (set_o_Value (Some w) (string_or_new c t k)) create
        else reply_err in ret (RInt (Z.b2z (bit_at (sl (old_string c t k)) n)))) t1 (fun r t' =>
      r = RInt (Z.b2z (bit_at (sl (old_string c t k)) n)) /\
      exists new, string_is c t k new t' /\ len new = Z.max (len (sl (old_string c t k))) (n / 8 + 1) /\
        forall i, 0 <= i -> bit_at new i = if i =? n then x else bit_at (sl (old_string c t k)) i)) as Hfin.
  { intros create v Hc Hs Hv Hl w. apply wp_on_done.
    replace (set_o_Value (Some w) (string_or_new c t k))
      with (with_value (o_Timestamp (string_or_new c t k)) w (string_or_new c t k)) by by destruct (string_or_new c t k).
    assert (len w = len v) as Hlw by (unfold w, len; by rewrite length_insert).
    apply (wp_put_string c k w _ create t t1 d1); try done.
    - lia.
    - unfold string_or_new. destruct (find c t (dv t) k) as [o|] eqn:Ef; [|done].
      by destruct (find_wf _ _ _ _ Hr Ef) as [(?&?&?&?) _].
    - intros t' Hr' He Hf' _. split; [done|]. exists w. split; [|split; [lia|]].
      + split; [done|]. split; [done|]. intros y. rewrite Hf'. by destruct (string_or_new c t k).
      + intros i Hi. by apply bit_set; [lia|lia|lia|]. }
  unfold settable in *. unfold string_or_new, old_string in Hfin, Hold |- *. destruct (find c t (dv t) k) as [o|] eqn:Ef.
  - destruct (beq StringType (o_Type o)) eqn:Et; cbn [negb].
    2: by apply (wp_reply_err c t t1 d1).
    destruct (Z.geb_spec (n / 8) (len (sl (o_Value o)))) as [Hge|Hlt].
    + specialize (Hfin 0 (sl (o_Value o) ++ replicate (Z.to_nat (n / 8 - len (sl (o_Value o)) + 1)) x00) eq_refl eq_refl).
      assert (nth (Z.to_nat (n / 8)) (sl (o_Value o)) x00 = x00) as E0 by (apply nth_overflow; unfold len in *; lia).
      unfold bit_at in Hfin at 1 2. rewrite E0 in Hfin. cbv zeta in Hfin. change (b2z x00) with 0 in Hfin.
      rewrite Z.bits_0 in Hfin. unfold bit_at at 1. rewrite E0. change (b2z x00) with 0. rewrite Z.bits_0.
      apply Hfin; [apply nth_padded|]. unfold len in *. rewrite length_app, length_replicate. lia.
    + rewrite one_bit by lia. fold (bit_at (sl (o_Value o)) n).
      destruct (Z.eqb_spec (Z.b2z (bit_at (sl (o_Value o)) n)) (Z.b2z x)) as [E|E].
      * split; [done|]. destruct (find_wf _ _ _ _ Hr Ef) as [(_&_&_&_&Hv) _].
        rewrite (string_simple _ Et) in Hv. destruct Hv as [[v Hv] _]. exists v.
        split; [by apply (string_is_same c t k o v t1 d1)|]. rewrite Hv in *. cbn [sl default from_option id] in *. unfold id in *.
        split; [lia|]. intros i Hi. destruct (Z.eqb_spec i n) as [->|]; [|done].
        destruct (bit_at v n), x; done.
      * apply (Hfin 0 (sl (o_Value o))); [done|done|done|lia].
  - cbn [negb]. specialize (Hfin PlusCount (replicate (Z.to_nat (n / 8 + 1)) x00) eq_refl eq_refl).
    cbn [sl default from_option] in Hfin |- *. unfold id in *. unfold bit_at in Hfin at 1 2. unfold bit_at at 1.
    assert (forall m, nth m [] x00 = x00) as E0 by by destruct m. rewrite E0 in *. cbv zeta in Hfin.
    change (b2z x00) with 0 in *. rewrite Z.bits_0 in *. apply Hfin.
    + apply (nth_padded []).
    + unfold len. rewrite length_replicate. cbn. lia.
Qed.

(** GETBIT reads the bit and writes nothing. *)
Lemma GetBitHandle_reads c k off n t :
  ready c t -> key_ok k -> good_header c t k -> ParseInt off = Some n -> 0 <= n ->
  len (sl (old_string c t k)) < MaxInt64 ->
  wp (GetBitHandle [k; off]) t (fun r t' =>
    if negb (settable (find c t (dv t)) k) then failed c t WrongTypeErr r t'
    else r = RInt (Z.b2z (bit_at (sl (old_string c t k)) n)) /\ dwrote c t t' (dv t)).
Proof.
  intros Hr Hk Hg Ho Hn Hl. unfold GetBitHandle. change (negb (len [k; off] =? 2)) with false. cbv iota. cbn [arg nth].
  rewrite (GetNonnegativeInt64_eq off n) by done. cbv zeta. rewrite shiftr3, land7 by lia.
  pose proof (Z.mod_pos_bound n 8 eq_refl). pose proof (Z.div_pos n 8 Hn eq_refl).
  apply wp_on_value. unfold getRangeOf. apply wp_bind.
  apply (wp_lookup_typed c); [done|unfold key_ok in Hk; lia|done|done|].
  intros t1 d1 Hw1 Hf1 Ed1 _. specialize (Ed1 eq_refl) as ->.
  unfold settable, old_string in *. destruct (find c t (dv t) k) as [o|] eqn:Ef.
  - destruct (beq StringType (o_Type o)) eqn:Et; cbn [negb]; [|by apply (wp_reply_err c t t1 (dv t))].
    set (v := sl (o_Value o)) in *. pose proof (len_nonneg v).
    assert (exists s e, getRange v (n / 8) (n / 8) =
      Some (if decide (n / 8 < len v) then [nth (Z.to_nat (n / 8)) v x00] else [], s, e)) as (s&e&->).
    { unfold getRange. cbv zeta. destruct (Z.ltb_spec (n / 8) 0); [lia|].
      destruct (Z.gtb_spec (n / 8) (len v - 1)), (decide (n / 8 < len v)); try lia.
      - destruct (Z.gtb_spec (n / 8) (len v)); [by eexists _, _|].
        destruct (Z.ltb_spec (len v - 1) (n / 8)); [by eexists _, _|lia].
      - destruct (Z.gtb_spec (n / 8) (len v)); [lia|]. destruct (Z.ltb_spec (n / 8) (n / 8)); [lia|].
        destruct (Z.ltb_spec (n / 8) 0); [lia|]. unfold go_slice.
        replace ((0 <=? n / 8) && (n / 8 <=? n / 8 + 1) && (n / 8 + 1 <=? len v)) with true by lia.
        eexists _, _. do 3 f_equal.
        unfold len in *. rewrite nth_lookup. destruct (lookup_lt_is_Some_2 v (Z.to_nat (n / 8))) as [x Hx]; [lia|].
        rewrite Hx. cbn [default from_option]. unfold slice, id.
        replace (Z.to_nat (n / 8 + 1) - Z.to_nat (n / 8))%nat with 1%nat by lia. by rewrite (drop_S _ x) by done. }
    cbn [sl default]. unfold bit_at. destruct (decide _) as [Hlt|Hge].
    + cbn. rewrite one_bit by lia. done.
    + cbn. rewrite (nth_overflow v) by (unfold len in *; lia). change (b2z x00) with 0. by rewrite Z.bits_0.
  - cbn [negb sl default from_option]. unfold id. cbn. split; [|done]. unfold bit_at.
    replace (nth (Z.to_nat (n / 8)) [] x00) with x00 by by destruct (Z.to_nat (n / 8)).
    change (b2z x00) with 0. by rewrite Z.bits_0.
Qed.

(** BITPOS without a range on a missing key (the empty string) or a string replies the
    first position whose bit has the value asked for. When there is none it replies -1 for
    a one, and the first position behind the string for a zero. Nothing is written. *)
Lemma BitPosHandle_first c k b x t :
  ready c t -> key_ok k -> good_header c t k -> ParseInt b = Some (Z.b2z x) ->
  8 * len (sl (old_string c t k)) < MaxInt64 ->
  wp (BitPosHandle [k; b]) t (fun r t' =>
    let v := sl (old_string c t k) in
    if negb (settable (find c t (dv t)) k) then failed c t WrongTypeErr r t'
    else dwrote c t t' (dv t) /\ exists p, r = RInt p /\
      (0 <= p < 8 * len v /\ bit_at v p = x /\ (forall m, 0 <= m < p -> bit_at v m = negb x) \/
       p = (if x then -1 else 8 * len v) /\ forall m, 0 <= m < 8 * len v -> bit_at v m = negb x)).
Proof.
  intros Hr Hk Hg Hb Hl. unfold BitPosHandle. change ((len [k; b] <? 2) || (len [k; b] >? 4)) with false.
  cbv iota. cbn [arg nth drop].
  rewrite (GetNonnegativeInt64_eq b (Z.b2z x)) by (done || (destruct x; cbn; lia)).
  replace (negb (Z.b2z x =? 0) && negb (Z.b2z x =? 1)) with false by by destruct x.
  cbv zeta. replace (if Z.b2z x =? 0 then 255 else 0) with (if x then 0 else 255) by by destruct x.
  apply wp_on_value. unfold checkAndGetRange. change (len [] >? 0) with false. change (len [] >? 1) with false.
  cbv iota. unfold getRangeOf. apply wp_bind, (wp_lookup_typed c); [done|unfold key_ok in Hk; lia|done|done|].
  intros t1 d1 Hw1 Hf1 Ed1 _. specialize (Ed1 eq_refl) as ->.
  unfold settable, old_string in *. destruct (find c t (dv t) k) as [o|] eqn:Ef.
  2: { cbn [negb sl default from_option]. apply wp_ret. split; [done|].
       exists (if x then -1 else 0). split; [by destruct x|]. right.
       change (len []) with 0. split; [by destruct x|lia]. }
  destruct (beq StringType (o_Type o)) eqn:Et; cbn [negb]; [|by apply (wp_reply_err c t t1 (dv t))].
  set (v := sl (o_Value o)) in *. pose proof (len_nonneg v) as Hv0.
  assert (getRange v 0 (-1) = Some (v, 0, len v - 1)) as ->.
  { unfold getRange. cbv zeta. destruct (Z.ltb_spec 0 0); [lia|]. destruct (Z.ltb_spec (-1) 0); [|lia].
    rewrite i64_small by (unfold in_i64, MinInt64, MaxInt64 in *; lia).
    replace (len v + -1) with (len v - 1) by lia.
    destruct (Z.gtb_spec (len v - 1) (len v - 1)); [lia|]. destruct (Z.gtb_spec 0 (len v)); [lia|].
    destruct (Z.ltb_spec (len v - 1) 0).
    - destruct v; [done|rewrite len_cons in *; pose proof (len_nonneg v); lia].
    - destruct (Z.ltb_spec 0 0); [lia|]. unfold go_slice.
      replace ((0 <=? 0) && (0 <=? len v - 1 + 1) && (len v - 1 + 1 <=? len v)) with true by lia.
      unfold slice. rewrite drop_0, take_ge by (unfold len; lia). done. }
  apply wp_ret. cbv beta iota. pose proof (bitpos_loop_spec x v 0) as Hp.
  destruct (bitpos_loop _ _ v 0) as [[k' i]|].
  - destruct Hp as (?&?&Hx&Hm). apply wp_ret. split; [done|]. eexists. split; [done|]. left.
    rewrite Z.sub_0_r in *. rewrite Z.add_0_l, i64_small by (unfold in_i64, MinInt64, MaxInt64 in *; lia).
    replace (k' * 8 + i) with (8 * k' + i) by lia. split_and!; [lia|lia|done|done].
  - destruct x; cbn [Z.b2z andb Z.eqb]; apply wp_ret; (split; [done|]); eexists; (split; [done|]); right; (split; [|done]).
    + done.
    + rewrite (i64_small (len v - 1 + 1)), i64_small by (unfold in_i64, MinInt64, MaxInt64 in *; lia). lia.
Qed.

End spec.

(** BITCOUNT counts the positions whose bit is set. *)
Lemma OneCount_bits v : OneCount v = len (filter (fun i => bit_at v i = true) (seqZ 0 (8 * len v))).
Proof.
  induction v as [|b v IH]; [done|]. cbn [OneCount]. rewrite IH, len_cons.
  replace (8 * (1 + len v)) with (8 + 8 * len v) by lia. pose proof (len_nonneg v).
  rewrite (seqZ_app 0 8 (8 * len v)), filter_app, len_app by lia. f_equal.
  - change (seqZ 0 8) with [0; 1; 2; 3; 4; 5; 6; 7]. unfold OnesCount8. change (seqZ 0 8) with [0; 1; 2; 3; 4; 5; 6; 7].
    clear. destruct b; vm_compute; reflexivity.
  - clear IH. rewrite <- (fmap_add_seqZ 8 0). unfold len at 1 3.
    assert (Forall (fun i => 0 <= i) (seqZ 0 (8 * len v))) as Hl.
    { apply Forall_forall. intros i Hi. apply elem_of_seqZ in Hi. lia. }
    induction Hl as [|i l Hi Hl IHl]; [done|]. rewrite fmap_cons, !filter_cons.
    destruct (bit_at_cons b v i) as [->|]; [|lia]. destruct (decide (bit_at v i = true)); cbn [length]; lia.
Qed.
