(* ===== verification/AclSpec.v ===== *)
(** What the ACL command promises: records of users round-trip, rules keep a user well
    formed and change the commands it may call one at a time, and after SETUSER the store
    and the node agree on the user, unless a rule failed. *)

From stdpp Require Import sorting.
From S2P Require Import Prelude Xerror GoStd Utils Bitmap Sha Store Ranges Object Reply ObjectSpec.
From S2P Require Import Client CommandTable Acl.
From Stdlib Require Import Init.Byte Strings.Byte.

#[local] Open Scope Z_scope.

(** ** Well-formed users *)

(** 64 hexadecimal digits. *)
Definition is_password (p : bytes) : Prop := length p = 64%nat /\ exists d, Bytes.GetHexDecode p = Some d.

Record user_ok (u : User) : Prop := {
  uo_ID : 0 <= u_ID u < 2 ^ 16;
  uo_Flag : 0 <= u_Flag u < 256;
  uo_Commands : Bitmap.wf (u_Commands u);
  uo_Length : bm_length (u_Commands u) = MAX_COMMANDS;
  uo_Passwords : forall p, p ∈ u_Passwords u -> is_password p;
  uo_Size : Z.of_nat (size (u_Passwords u)) < 256;
  uo_Timestamp : u_Timestamp u = 0
}.

Lemma hex_ind (P : bytes -> Prop) :
  P [] -> (forall a, P [a]) -> (forall a b l, P l -> P (a :: b :: l)) -> forall l, P l.
Proof.
  intros H0 H1 H2. fix IH 1. intros [|a [|b l]]; [exact H0|apply H1|apply H2, IH].
Qed.

Lemma length_GetHexDecode p d : Bytes.GetHexDecode p = Some d -> length p = (2 * length d)%nat.
Proof.
  revert d. induction p as [|a|a b p IH] using hex_ind; intros d; cbn [Bytes.GetHexDecode]; [by intros [= <-]|done|].
  destruct (Bytes.from_hex a); [|done]. destruct (Bytes.from_hex b); [|done].
  destruct (Bytes.GetHexDecode p) as [l|]; [|done]. intros [= <-]. cbn [length]. specialize (IH l eq_refl). lia.
Qed.

Lemma is_password_sha s : is_password (Sha256Sum s).
Proof. split; [apply length_Sha256Sum|]. eexists. apply Bytes.HexEncode_GetHexDecode. Qed.

(** ** Records *)

(** A password as its record gives it back: in lower case. *)
Definition relower (p : bytes) : bytes := Bytes.HexEncode (default [] (Bytes.GetHexDecode p)).
Definition stored (u : User) : User := set_Passwords (set_map relower (u_Passwords u)) u.

Lemma passwords_of_concat ps l : Forall is_password ps ->
  passwords_of (length ps) (concat ((fun p => default (replicate 32 x00) (Bytes.GetHexDecode p)) <$> ps) ++ l)
  = relower <$> ps.
Proof.
  induction 1 as [|p ps [Hl [d Hd]] Hps IH]; [done|]. rewrite !fmap_cons. cbn [length passwords_of concat].
  unfold relower at 1. rewrite Hd. cbn [default from_option]. unfold id. apply length_GetHexDecode in Hd.
  rewrite <- app_assoc, take_app_length', drop_app_length' by lia. f_equal. exact IH.
Qed.

Lemma length_passwords ps : Forall is_password ps ->
  length (concat ((fun p => default (replicate 32 x00) (Bytes.GetHexDecode p)) <$> ps)) = (length ps * 32)%nat.
Proof.
  induction 1 as [|p ps [Hl [d Hd]] Hps IH]; [done|]. rewrite fmap_cons. cbn [concat].
  rewrite length_app, IH, Hd. apply length_GetHexDecode in Hd. cbn [default from_option length]. unfold id. lia.
Qed.

Lemma segments_of_concat ws : Forall (fun s => 0 <= s < 2 ^ 64) ws ->
  segments_of (length ws) (concat (be_put 8 <$> ws)) = ws.
Proof.
  induction 1 as [|w ws Hw Hws IH]; [done|]. rewrite fmap_cons. cbn [length segments_of concat].
  rewrite take_app_length', drop_app_length' by by rewrite length_be_put.
  rewrite be_get_put, IH, Z.mod_small; [done|]. change (256 ^ Z.of_nat 8) with (2 ^ 64). lia.
Qed.

Lemma length_segments ws : length (concat (be_put 8 <$> ws)) = (length ws * 8)%nat.
Proof. induction ws as [|w ws IH]; [done|]. rewrite fmap_cons. cbn [concat]. rewrite length_app, length_be_put, IH. cbn. lia. Qed.

Lemma commands_words u : user_ok u -> length (segments (u_Commands u)) = 16%nat.
Proof. intros []. destruct uo_Commands0 as [Hl _]. rewrite uo_Length0 in Hl. unfold MAX_COMMANDS, len in Hl. lia. Qed.

(** The record of a user decodes to the user, whatever the order in which Go goes
    through its passwords, but for the case of the digits of its passwords: the record
    keeps bytes, so a password set in upper case comes back in lower case. *)
Lemma UserDecode_UserEncode u ps :
  user_ok u -> ps ≡ₚ elements (u_Passwords u) ->
  UserDecode (encode_user ps u) (new_user (u_Name u)) = inr (stored u).
Proof.
  intros Hu Hps. pose proof (commands_words u Hu) as Hw. destruct Hu.
  assert (Forall is_password ps) as Hall.
  { apply Forall_forall. intros p Hp. apply uo_Passwords0. by rewrite Hps, elem_of_elements in Hp. }
  assert (Z.of_nat (length ps) < 256) as Hn by (unfold size, set_size in uo_Size0; cbn in uo_Size0; by rewrite Hps).
  unfold UserDecode, encode_user, GetSegments.
  set (P := concat ((fun p => _) <$> ps)). set (S := concat _).
  assert (length P = (length ps * 32)%nat) as HP by by apply length_passwords.
  assert (length S = 128%nat) as HS by (unfold S; rewrite length_segments, Hw; done).
  change (be_put 2 (u_ID u) ++ [z2b (u_Flag u)] ++ [z2b (len ps)] ++ P ++ S)
    with (be_put 2 (u_ID u) ++ z2b (u_Flag u) :: z2b (len ps) :: P ++ S).
  destruct (be_put 2 (u_ID u)) as [|i1 [|i2 [|]]] eqn:Ei;
    pose proof (length_be_put 2 (u_ID u)) as Hi; rewrite Ei in Hi; try done. clear Hi.
  cbn [app nth take drop Nat.add]. rewrite <- Ei, be_get_put.
  assert (b2z (z2b (len ps)) = len ps) as -> by (rewrite b2z_z2b, Z.mod_small; unfold len; lia).
  assert (b2z (z2b (u_Flag u)) = u_Flag u) as -> by (rewrite b2z_z2b, Z.mod_small; lia).
  set (l := i1 :: _). assert (len l = 4 + len ps * 32 + 128) as -> .
  { unfold l, len. cbn [length]. rewrite length_app. lia. }
  change (MAX_COMMANDS / 8) with 128. pose proof (len_nonneg ps).
  destruct (Z.ltb_spec (4 + len ps * 32 + 128) (4 + 128)); [lia|].
  destruct (Z.ltb_spec (4 + len ps * 32 + 128) (4 + 128 + len ps * 32)); [lia|].
  f_equal. unfold stored, set_Passwords. unfold len. rewrite Nat2Z.id.
  rewrite drop_0, (drop_app_length' P) by lia. unfold P, S. rewrite passwords_of_concat by done.
  rewrite <- Hw at 1. rewrite segments_of_concat by apply uo_Commands0. rewrite Z.mod_small by (cbn; lia).
  f_equal.
  - apply set_eq. intros x. rewrite elem_of_list_to_set, elem_of_map, list_elem_of_fmap. setoid_rewrite Hps.
    setoid_rewrite elem_of_elements. done.
  - unfold SetSegments. destruct uo_Commands0 as [Hl _]. destruct (u_Commands u) as [ws n]. cbn in *. f_equal. lia.
  - done.
Qed.

(** ** Rules *)

Lemma ToLower_nil r : ToLower r = [] -> r = [].
Proof. destruct r as [|c r]; [done|]. destruct c; cbn [ToLower]; try done; repeat case_match; done. Qed.

Lemma set_Flag_ok f u : user_ok u -> 0 <= f < 256 -> user_ok (set_Flag f u).
Proof. intros [] Hf. by split. Qed.
Lemma set_Commands_ok b u : user_ok u -> Bitmap.wf b -> bm_length b = MAX_COMMANDS -> user_ok (set_Commands b u).
Proof. intros [] Hw Hl. by split. Qed.

Definition is_flag (f : Z) : Prop := exists n, 0 <= n < 8 /\ f = 2 ^ n.

Lemma flag_on_range x f : 0 <= x < 256 -> is_flag f -> 0 <= Z.lor x f < 256.
Proof.
  intros Hx (n&Hn&->). assert (0 <= Z.lor x (2 ^ n)) by (apply Z.lor_nonneg; lia). split; [done|].
  apply (Z.bounded_iff_bits_nonneg 8); [lia|done|]. intros m Hm.
  rewrite Z.lor_spec, Z.pow2_bits_false by lia.
  by rewrite (proj1 (Z.bounded_iff_bits_nonneg 8 x ltac:(lia) ltac:(lia)) ltac:(lia)).
Qed.
Lemma flag_off_range x f : 0 <= x < 256 -> 0 <= Z.ldiff x f < 256.
Proof.
  intros Hx. assert (0 <= Z.ldiff x f) by (apply Z.ldiff_nonneg; lia). split; [done|].
  apply (Z.bounded_iff_bits_nonneg 8); [lia|done|]. intros m Hm.
  by rewrite Z.ldiff_spec, (proj1 (Z.bounded_iff_bits_nonneg 8 x ltac:(lia) ltac:(lia)) ltac:(lia)).
Qed.

(** What a rule leaves alone. *)
Definition same_user (u u' : User) : Prop := u_ID u' = u_ID u /\ u_Name u' = u_Name u.

Lemma remove_password_ok u rule p u' : user_ok u -> remove_password u rule p = inr u' -> user_ok u' /\ same_user u u'.
Proof.
  intros Hu. unfold remove_password. case_bool_decide; [|done]. intros [= <-]. split; [|done].
  destruct Hu. split; cbn [set_Passwords u_ID u_Flag u_Commands u_Passwords u_Timestamp]; try done.
  - intros q Hq. apply uo_Passwords0. set_solver.
  - pose proof (subseteq_size (u_Passwords u ∖ {[p]}) (u_Passwords u) ltac:(set_solver)). lia.
Qed.

Lemma getPassword_ok r p : getPassword r = inr p -> is_password p.
Proof.
  unfold getPassword. destruct (Z.eqb_spec (len (drop 1 r)) 64) as [E|]; [|done]. cbn [negb].
  destruct (Bytes.GetHexDecode (drop 1 r)) as [d|] eqn:Ed; [|done]. intros [= <-].
  split; [unfold len in E; lia|by eexists].
Qed.

Section rules.
Context `{PlatformSpec}.

(** A run that changes nothing in the transaction and returns what [P] says. *)
Definition yields {A} (m : M A) (t : Txn) (P : A -> Prop) : Prop := wp m t (fun a t' => P a /\ t' = t).

Lemma yields_ret {A} (a : A) t (P : A -> Prop) : P a -> yields (ret a) t P.
Proof. intros Ha. by apply wp_ret. Qed.

Lemma add_password_ok c t users u rule p :
  ready c t -> MaxPasswordsPerUser c < 256 -> user_ok u -> is_password p ->
  yields (add_password users u rule p) t (fun x => forall u', x = inr u' ->
    user_ok u' /\ same_user u u' /\ forall v, v ∈ GetLocalUsers (SetLocalUser u users) -> p ∉ u_Passwords v).
Proof.
  intros Hr Hm Hu Hp. unfold yields, add_password. apply wp_bind, (wp_get_config c); [by apply (rd_config c)|].
  apply wp_ret. split; [|done]. intros u'. destruct (Z.geb_spec (Z.of_nat (size (u_Passwords u))) (MaxPasswordsPerUser c)); [done|].
  destruct (IsPassExist p (SetLocalUser u users)) eqn:Ee; [done|]. intros [= <-].
  assert (forall v, v ∈ GetLocalUsers (SetLocalUser u users) -> p ∉ u_Passwords v) as Hnew.
  { intros v Hv Hin. unfold IsPassExist in Ee. rewrite <- not_true_iff_false in Ee. apply Ee, existsb_exists. exists v.
    split; [by apply list_elem_of_In|]. by apply bool_decide_eq_true. }
  split; [|by split]. destruct Hu. split; cbn [set_Passwords u_ID u_Flag u_Commands u_Passwords u_Timestamp]; try done.
  - intros q. rewrite elem_of_union, elem_of_singleton. intros [->|?]; auto.
  - pose proof (size_union_alt {[p]} (u_Passwords u)). rewrite size_singleton in *.
    pose proof (subseteq_size (u_Passwords u ∖ {[p]}) (u_Passwords u) ltac:(set_solver)). lia.
Qed.

Lemma change_command_ok f t u rule :
  user_ok u -> (forall i, exists b', f (u_Commands u) i = Some b' /\ Bitmap.wf b' /\ bm_length b' = bm_length (u_Commands u)) ->
  yields (change_command f u rule) t (fun x => forall u', x = inr u' -> user_ok u' /\ same_user u u').
Proof.
  intros Hu Hf. unfold change_command. destruct (lookup_command _) as [h|]; [|by apply yields_ret].
  destruct (Hf (h_ID h)) as (b'&->&Hw&Hl). apply yields_ret. intros u' [= <-]. split; [|done].
  apply set_Commands_ok; [done..|]. rewrite Hl. apply Hu.
Qed.

(** A rule of SETUSER that is not empty either fails or gives a well-formed user with
    the same number and name, and leaves the store alone: flags stay in their byte, the
    bitmap keeps its length, passwords are 64 hexadecimal digits and no more than the
    configuration allows. *)
Lemma aclSetRule_ok c t users u r :
  ready c t -> MaxPasswordsPerUser c < 256 -> user_ok u -> r <> [] ->
  wp (aclSetRule users u r) t (fun x t' =>
    (forall u', x = inr u' -> user_ok u' /\ u_ID u' = u_ID u /\ u_Name u' = u_Name u) /\ t' = t).
Proof.
  intros Hr Hm Hu Hne.
  assert (forall f, is_flag f -> yields (ret (inr (set_Flag (Z.lor (u_Flag u) f) u) : error + User)) t
    (fun x => forall u', x = inr u' -> user_ok u' /\ same_user u u')) as Hon.
  { intros f Hf. apply yields_ret. intros u' [= <-]. split; [|done].
    apply set_Flag_ok; [done|]. apply flag_on_range; [apply Hu|done]. }
  assert (forall f, yields (ret (inr (set_Flag (Z.ldiff (u_Flag u) f) u) : error + User)) t
    (fun x => forall u', x = inr u' -> user_ok u' /\ same_user u u')) as Hoff.
  { intros f. apply yields_ret. intros u' [= <-]. split; [|done].
    apply set_Flag_ok; [done|]. apply flag_off_range, Hu. }
  assert (forall n, 0 <= n < 8 -> is_flag (Z.shiftl 1 n)) as Hfl.
  { intros n Hn. exists n. split; [done|]. apply Z.shiftl_1_l. }
  change (yields (aclSetRule users u r) t (fun x => forall u', x = inr u' -> user_ok u' /\ same_user u u')).
  assert (forall rule p, is_password p ->
    yields (add_password users u rule p) t (fun x => forall u', x = inr u' -> user_ok u' /\ same_user u u')) as Hadd.
  { intros rule p Hp. eapply wp_mono; [by apply (add_password_ok c)|]. intros x t' [Hx ->]. split; [|done].
    intros u' E. destruct (Hx u' E) as (?&?&?). done. }
  unfold aclSetRule. cbv zeta.
  repeat (match goal with |- yields (if ?b then _ else _) _ _ => destruct b end;
    [first [solve [apply Hon, Hfl; lia]|solve [apply Hoff]|apply yields_ret; intros u' [= <-]; split; [|done]]|]).
  - destruct (SetFull_bits (u_Commands u) (uo_Commands u Hu)) as [Hw _].
    apply set_Commands_ok; [|done|apply Hu]. apply set_Flag_ok; [done|]. apply flag_on_range; [apply Hu|apply Hfl; lia].
  - destruct (SetEmpty_bits (u_Commands u) (uo_Commands u Hu)) as [Hw _].
    apply set_Commands_ok; [|done|apply Hu]. apply set_Flag_ok; [done|]. apply flag_off_range, Hu.
  - destruct (ToLower r) as [|c0 l] eqn:El; [by apply ToLower_nil in El|].
    destruct (Byte.eqb c0 x3e); [apply Hadd, is_password_sha|].
    destruct (Byte.eqb c0 x23).
    { destruct (getPassword r) as [e|p] eqn:Ep; [by apply yields_ret|]. apply Hadd. by apply getPassword_ok in Ep. }
    destruct (Byte.eqb c0 x3c).
    { apply yields_ret. intros u' E. by eapply remove_password_ok. }
    destruct (Byte.eqb c0 x21).
    { destruct (getPassword r) as [e|p] eqn:Ep; apply yields_ret; [done|]. intros u' E. by eapply remove_password_ok. }
    destruct (Byte.eqb c0 x2b).
    { apply change_command_ok; [done|]. intros i.
      destruct (Add_bits (u_Commands u) (uo_Commands u Hu) i) as (b'&?&?&?&_). by exists b'. }
    destruct (Byte.eqb c0 x2d); [|by apply yields_ret].
    apply change_command_ok; [done|]. intros i.
    destruct (Remove_bits (u_Commands u) (uo_Commands u Hu) i) as (b'&?&?&?&_). by exists b'.
Qed.

End rules.

(** ** One command more, one less *)

(** The permission bit of a command. *)
Definition allowed (u : User) (cmd : string) : Prop :=
  exists h, lookup_command cmd = Some h /\ h_ID h ∈ bits (u_Commands u).

(** Commands with the same number are the same. *)
Lemma same_number c1 c2 h1 h2 :
  lookup_command c1 = Some h1 -> lookup_command c2 = Some h2 -> h_ID h1 = h_ID h2 -> c1 = c2.
Proof.
  intros H1%find_commands H2%find_commands E.
  pose proof commands_ids as Hd. rewrite <- list_fmap_compose in Hd.
  by pose proof (NoDup_fmap_In (h_ID ∘ snd) commands _ _ Hd H1 H2 E) as [= ->].
Qed.

Lemma number_range cmd h : lookup_command cmd = Some h -> 0 <= h_ID h < MAX_COMMANDS.
Proof.
  intros H1%find_commands. pose proof commands_ok as Hok. rewrite forallb_forall in Hok. specialize (Hok _ H1).
  unfold entry_ok in Hok. cbn [fst snd] in Hok. lia.
Qed.

Lemma B2S_bs s : B2S (bs s) = s.
Proof. unfold B2S, bs. apply String.string_of_list_byte_of_string. Qed.

Section permissions.
Context `{PlatformSpec}.

(** The rules that name a command get past the keywords. *)
Lemma aclSetRule_command users u r c cmd h t :
  ToLower r = c :: bs cmd -> c = x2b \/ c = x2d -> lookup_command cmd = Some h ->
  aclSetRule users u r t
  = change_command (if Byte.eqb c x2b then Add else Remove) u (ToLower r) t.
Proof.
  intros El Hc Hh. assert (cmd <> "@all") as Hall by (intros ->; vm_compute in Hh; discriminate).
  unfold aclSetRule. cbv zeta. rewrite El.
  assert (forall s, bs s = x2b :: bs "@all" \/ bs s = x2d :: bs "@all" \/ head (bs s) <> Some c ->
    bool_decide (c :: bs cmd = bs s) = false) as Hk.
  { intros s Hs. apply bool_decide_false. intros E.
    assert (forall x, bs s = x :: bs "@all" -> False) as Hno.
    { intros x Hx. rewrite Hx in E. injection E as _ E. apply Hall. by rewrite <- (B2S_bs cmd), E, B2S_bs. }
    destruct Hs as [Hs|[Hs|Hs]]; [by eapply Hno..|]. by rewrite <- E in Hs. }
  repeat (rewrite Hk; [|first [left; reflexivity|right; left; reflexivity|
    right; right; destruct Hc as [-> | ->]; intros E; discriminate E]]).
  cbn [orb]. destruct Hc as [->| ->]; reflexivity.
Qed.

(** The rules [+command] and [-command] of SETUSER (in any case of letters) set and
    clear exactly the permission bit of that command in the user, and no other command's;
    flags and passwords stay. (The bits are what ACL shows and stores: the dispatch of
    commands does not look at them.) *)
Lemma acl_command_rule users u r (add : bool) cmd h t :
  user_ok u -> lookup_command cmd = Some h -> ToLower r = (if add then x2b else x2d) :: bs cmd ->
  exists u', aclSetRule users u r t = Ret (inr u') t /\
    u_Flag u' = u_Flag u /\ u_Passwords u' = u_Passwords u /\
    forall cmd', allowed u' cmd' <-> (if add then cmd' = cmd \/ allowed u cmd' else cmd' <> cmd /\ allowed u cmd').
Proof.
  intros Hu Hh El. rewrite (aclSetRule_command users u r _ cmd h t El) by (done || (destruct add; auto)).
  unfold change_command. rewrite El. cbn [drop]. rewrite drop_0, B2S_bs, Hh. pose proof (number_range _ _ Hh) as Hr.
  assert (forall cmd' h', lookup_command cmd' = Some h' -> h_ID h' = h_ID h <-> cmd' = cmd) as Hsame.
  { intros cmd' h' Hh'. split; [by apply same_number|]. intros ->. congruence. }
  destruct add; cbn [Byte.eqb].
  - change (Byte.eqb x2b x2b) with true. cbv iota.
    destruct (Add_bits (u_Commands u) (uo_Commands u Hu) (h_ID h)) as (b'&->&_&_&Hb).
    eexists. split; [done|]. split; [done|]. split; [done|]. intros cmd'. unfold allowed. cbn [u_Commands set_Commands].
    rewrite Hb, (proj2 (outside_false _ _)) by (rewrite (uo_Length u Hu); done). split.
    + intros (h'&Hh'&Hin). rewrite elem_of_union, elem_of_singleton, (Hsame cmd' h') in Hin by done. naive_solver.
    + intros [->|(h'&Hh'&Hin)]; [exists h; split; [done|set_solver]|exists h'; split; [done|set_solver]].
  - change (Byte.eqb x2d x2b) with false. cbv iota.
    destruct (Remove_bits (u_Commands u) (uo_Commands u Hu) (h_ID h)) as (b'&->&_&_&Hb).
    eexists. split; [done|]. split; [done|]. split; [done|]. intros cmd'. unfold allowed. cbn [u_Commands set_Commands].
    rewrite Hb. split.
    + intros (h'&Hh'&Hin). rewrite elem_of_difference, elem_of_singleton, (Hsame cmd' h') in Hin by done. naive_solver.
    + intros (Hne&h'&Hh'&Hin). exists h'. split; [done|].
      rewrite elem_of_difference, elem_of_singleton, (Hsame cmd' h') by done. done.
Qed.

End permissions.

(** ** What a rule does *)

(** The user [u'] is [u] with other flags, commands and passwords. *)
Definition changed (u u' : User) (flags : Z -> bool) (commands : gset Z) (passwords : gset bytes) : Prop :=
  u_ID u' = u_ID u /\ u_Name u' = u_Name u /\ u_Timestamp u' = u_Timestamp u /\
  (forall n, 0 <= n -> Z.testbit (u_Flag u') n = flags n) /\ bits (u_Commands u') = commands /\
  u_Passwords u' = passwords.

(** The words that set (or clear) a flag, and those that also concern all commands. *)
Definition flag_words : list (string * Z * bool) :=
  [("on", 0, true); ("off", 0, false); ("allkeys", 1, true); ("~*", 1, true); ("resetkeys", 1, false);
   ("allchannels", 2, true); ("&*", 2, true); ("resetchannels", 2, false); ("nopass", 4, true);
   ("resetpass", 4, false)]%string.
Definition command_words : list (string * bool) :=
  [("allcommands", true); ("+@all", true); ("nocommands", false); ("-@all", false)]%string.
Definition all_commands : gset Z := list_to_set (seqZ 0 MAX_COMMANDS).

(** The password a rule names, in plain text behind [text] or as a hash behind [hash]. *)
Definition given_password (text hash : Init.Byte.byte) (r p : bytes) : Prop :=
  (exists l, ToLower r = text :: l) /\ p = Sha256Sum (drop 1 r) \/
  (exists l, ToLower r = hash :: l) /\ p = drop 1 r /\ is_password p.

(** The user itself and the users of other names that the node knows. *)
Definition known_user (users : Users) (u v : User) : Prop :=
  v = u \/ exists name, name <> u_Name u /\ users !! name = Some v.

Inductive applies (max : Z) (users : Users) (u : User) (r : bytes) (u' : User) : Prop :=
  | applies_flag k n b :
      In (k, n, b) flag_words -> ToLower r = bs k ->
      changed u u' (fun m => if m =? n then b else Z.testbit (u_Flag u) m) (bits (u_Commands u)) (u_Passwords u) ->
      applies max users u r u'
  | applies_commands k (b : bool) :
      In (k, b) command_words -> ToLower r = bs k ->
      changed u u' (fun m => if m =? 3 then b else Z.testbit (u_Flag u) m) (if b then all_commands else ∅)
        (u_Passwords u) ->
      applies max users u r u'
  | applies_password p :
      given_password x3e x23 r p -> Z.of_nat (size (u_Passwords u)) < max ->
      (forall v, known_user users u v -> p ∉ u_Passwords v) ->
      changed u u' (Z.testbit (u_Flag u)) (bits (u_Commands u)) ({[p]} ∪ u_Passwords u) ->
      applies max users u r u'
  | applies_forget p :
      given_password x3c x21 r p -> p ∈ u_Passwords u ->
      changed u u' (Z.testbit (u_Flag u)) (bits (u_Commands u)) (u_Passwords u ∖ {[p]}) ->
      applies max users u r u'
  | applies_command (b : bool) cmd h :
      ToLower r = (if b then x2b else x2d) :: bs cmd -> lookup_command cmd = Some h ->
      changed u u' (Z.testbit (u_Flag u))
        (if b then {[h_ID h]} ∪ bits (u_Commands u) else bits (u_Commands u) ∖ {[h_ID h]}) (u_Passwords u) ->
      applies max users u r u'.

(** The rules of a list, one after the other. *)
Inductive follows (max : Z) (users : Users) : User -> list bytes -> User -> Prop :=
  | follows_nil u : follows max users u [] u
  | follows_cons u r u' rules u'' :
      applies max users u r u' -> follows max users u' rules u'' -> follows max users u (r :: rules) u''.

Section effects.
Context `{PlatformSpec}.

Lemma IsPassExist_spec p u users :
  IsPassExist p (SetLocalUser u users) = false <-> forall v, known_user users u v -> p ∉ u_Passwords v.
Proof.
  unfold IsPassExist, GetLocalUsers, SetLocalUser. rewrite <- not_true_iff_false, existsb_exists. split.
  - intros Hn v Hv Hin. apply Hn. exists v. split; [|by apply bool_decide_eq_true].
    apply list_elem_of_In, list_elem_of_fmap. destruct Hv as [->|(name&Hne&E)].
    + exists (u_Name u, u). split; [done|]. apply elem_of_map_to_list. apply lookup_insert_eq.
    + exists (name, v). split; [done|]. apply elem_of_map_to_list. by rewrite lookup_insert_ne.
  - intros Hk (v&Hv&Hin%bool_decide_eq_true). apply list_elem_of_In, list_elem_of_fmap in Hv as ([name v']&->&Hv).
    apply elem_of_map_to_list in Hv. cbn [snd] in *. apply (Hk v'); [|done].
    destruct (decide (name = u_Name u)) as [->|Hne]; [rewrite lookup_insert_eq in Hv; left; congruence|].
    rewrite lookup_insert_ne in Hv by done. right. by exists name.
Qed.

Lemma changed_flag_on u n : 0 <= n -> changed u (set_Flag (Z.lor (u_Flag u) (Z.shiftl 1 n)) u)
  (fun m => if m =? n then true else Z.testbit (u_Flag u) m) (bits (u_Commands u)) (u_Passwords u).
Proof.
  intros Hn. repeat (split; [done|]). split; [|done]. intros m Hm. cbn [set_Flag u_Flag].
  rewrite Z.shiftl_1_l, Z.lor_spec, Z.pow2_bits_eqb by done. rewrite (Z.eqb_sym n).
  destruct (m =? n); [apply orb_true_r|apply orb_false_r].
Qed.
Lemma changed_flag_off u n : 0 <= n -> changed u (set_Flag (Z.ldiff (u_Flag u) (Z.shiftl 1 n)) u)
  (fun m => if m =? n then false else Z.testbit (u_Flag u) m) (bits (u_Commands u)) (u_Passwords u).
Proof.
  intros Hn. repeat (split; [done|]). split; [|done]. intros m Hm. cbn [set_Flag u_Flag].
  rewrite Z.shiftl_1_l, Z.ldiff_spec, Z.pow2_bits_eqb by done. rewrite (Z.eqb_sym n).
  destruct (m =? n); [apply andb_false_r|apply andb_true_r].
Qed.

Lemma changed_commands u u' b flags cmds : changed u u' flags cmds (u_Passwords u) ->
  changed u (set_Commands b u') flags (bits b) (u_Passwords u).
Proof. intros (?&?&?&?&_&?). done. Qed.
Lemma changed_passwords u ps : changed u (set_Passwords ps u) (Z.testbit (u_Flag u)) (bits (u_Commands u)) ps.
Proof. done. Qed.

(** The rule is none of the words. *)
Definition no_word (r : bytes) : Prop :=
  (forall k n b, In (k, n, b) flag_words -> ToLower r <> bs k) /\
  (forall k b, In (k, b) command_words -> ToLower r <> bs k).

Definition decided (max : Z) (users : Users) (u : User) (r : bytes) (x : error + User) : Prop :=
  match x with inr u' => applies max users u r u' | inl _ => forall u', ~ applies max users u r u' end.

(** A rule that is no word and begins with [c] is refused unless [c] says otherwise. *)
Lemma refused max users u r c l :
  no_word r -> ToLower r = c :: l ->
  (forall p, given_password x3e x23 r p -> Z.of_nat (size (u_Passwords u)) < max ->
     (forall v, known_user users u v -> p ∉ u_Passwords v) -> False) ->
  (forall p, given_password x3c x21 r p -> p ∈ u_Passwords u -> False) ->
  (c = x2b \/ c = x2d -> lookup_command (B2S l) = None) ->
  forall u', ~ applies max users u r u'.
Proof.
  intros [Hf Hc] El Hadd Hdel Hcmd u' [k n b Hin E _|k b Hin E _|p Hp Hs Hn _|p Hp Hin _|b cmd h E Eh _].
  - by eapply Hf.
  - by eapply Hc.
  - by eapply Hadd.
  - by eapply Hdel.
  - rewrite El in E. injection E as -> ->. rewrite B2S_bs in Hcmd. rewrite Hcmd in Eh; [done|]. destruct b; auto.
Qed.

Lemma given_char text hash r p c l : ToLower r = c :: l -> given_password text hash r p -> c = text \/ c = hash.
Proof. intros E [[[l' E'] _]|[[l' E'] _]]; rewrite E in E'; injection E' as -> _; auto. Qed.

Lemma add_password_applies c t users u r rule p :
  ready c t -> no_word r -> given_password x3e x23 r p ->
  (forall q, given_password x3e x23 r q -> q = p) ->
  yields (add_password users u rule p) t (decided (MaxPasswordsPerUser c) users u r).
Proof.
  intros Hr Hw Hp Huniq. unfold yields, add_password, bad_rule. apply wp_bind, (wp_get_config c); [by apply (rd_config c)|].
  apply wp_ret. split; [|done]. assert (exists ch l, ToLower r = ch :: l /\ (ch = x3e \/ ch = x23)) as (ch&l&El&Hch).
  { destruct Hp as [[[l E] _]|[[l E] _]]; eauto. }
  assert (forall q, given_password x3c x21 r q -> False) as Hno.
  { intros q Hq. destruct (given_char _ _ _ _ _ _ El Hq); destruct Hch; congruence. }
  assert (ch = x2b \/ ch = x2d -> lookup_command (B2S l) = None) as Hnc by (intros [->| ->]; destruct Hch; congruence).
  rewrite Z.geb_leb. destruct (Z.leb_spec (MaxPasswordsPerUser c) (Z.of_nat (size (u_Passwords u)))).
  { cbn [decided]. eapply refused; [done..| |by eauto|done]. intros; lia. }
  destruct (IsPassExist p (SetLocalUser u users)) eqn:Ee.
  - cbn [decided]; eapply refused; [done..| |by eauto|done]. intros q ->%Huniq _ Hn. apply IsPassExist_spec in Hn. congruence.
  - eapply applies_password; [done..|by apply IsPassExist_spec|apply changed_passwords].
Qed.

Lemma remove_password_applies max users u r rule p :
  no_word r -> given_password x3c x21 r p -> (forall q, given_password x3c x21 r q -> q = p) ->
  decided max users u r (remove_password u rule p).
Proof.
  intros Hw Hp Huniq. assert (exists ch l, ToLower r = ch :: l /\ (ch = x3c \/ ch = x21)) as (ch&l&El&Hch).
  { destruct Hp as [[[l E] _]|[[l E] _]]; eauto. }
  unfold remove_password, bad_rule. case_bool_decide as Hin.
  - eapply applies_forget; [done..|apply changed_passwords].
  - cbn [decided]; eapply refused; [done..| |by intros q ->%Huniq|].
    + intros q Hq. destruct (given_char _ _ _ _ _ _ El Hq); destruct Hch; congruence.
    + intros [->| ->]; destruct Hch; congruence.
Qed.

Lemma getPassword_given r : match getPassword r with
  | inr p => p = drop 1 r /\ is_password p
  | inl _ => ~ is_password (drop 1 r)
  end.
Proof.
  pose proof (getPassword_ok r) as Hok. unfold getPassword in *.
  destruct (Z.eqb_spec (len (drop 1 r)) 64) as [E|E]; cbn [negb] in *.
  - destruct (Bytes.GetHexDecode (drop 1 r)) as [d|] eqn:Ed; [split; [done|by apply Hok]|].
    intros [_ [d Hd]]. congruence.
  - intros [Hl _]. apply E. unfold len. rewrite Hl. done.
Qed.

Lemma command_applies max users t u r (b : bool) l :
  user_ok u -> no_word r -> ToLower r = (if b then x2b else x2d) :: l ->
  yields (change_command (if b then Add else Remove) u (ToLower r)) t (decided max users u r).
Proof.
  intros Hu Hw El. unfold change_command, bad_rule. rewrite El. cbn [drop]. rewrite drop_0.
  destruct (lookup_command (B2S l)) as [h|] eqn:Eh.
  - assert (l = bs (B2S l)) as Ebl by (unfold bs, B2S; by rewrite String.list_byte_of_string_of_list_byte).
    pose proof (number_range _ _ Eh) as Hrange. destruct b.
    + destruct (Add_bits (u_Commands u) (uo_Commands u Hu) (h_ID h)) as (b'&->&_&_&Hb). apply yields_ret.
      apply (applies_command _ _ _ _ _ true (B2S l) h); [by rewrite <- Ebl|done|].
      rewrite (proj2 (outside_false _ _)) in Hb by (rewrite (uo_Length u Hu); done).
      unfold changed. by split_and!.
    + destruct (Remove_bits (u_Commands u) (uo_Commands u Hu) (h_ID h)) as (b'&->&_&_&Hb). apply yields_ret.
      apply (applies_command _ _ _ _ _ false (B2S l) h); [by rewrite <- Ebl|done|].
      unfold changed. by split_and!.
  - apply yields_ret. cbn [decided]; eapply refused; [done|exact El| | |done].
    + intros p Hp. destruct (given_char _ _ _ _ _ _ El Hp), b; congruence.
    + intros p Hp. destruct (given_char _ _ _ _ _ _ El Hp), b; congruence.
Qed.

End effects.

(** ** SETUSER *)

Section setuser.
Context `{PlatformSpec}.

Lemma byte_eqb_spec a b : Bool.reflect (a = b) (Byte.eqb a b).
Proof. apply Bool.iff_reflect. split; [apply Strings.Byte.byte_dec_lb|apply Strings.Byte.byte_dec_bl]. Qed.

(** The rules that are no words, by their first character. *)
Lemma aclSetRule_rest c t users u r :
  ready c t -> user_ok u -> r <> [] -> no_word r ->
  yields (match ToLower r with
    | [] => panic
    | ch :: _ =>
        if Byte.eqb ch x3e then add_password users u (ToLower r) (Sha256Sum (drop 1 r))
        else if Byte.eqb ch x23 then
          match getPassword r with
          | inl e => ret (inl e)
          | inr password => add_password users u (ToLower r) password
          end
        else if Byte.eqb ch x3c then ret (remove_password u (ToLower r) (Sha256Sum (drop 1 r)))
        else if Byte.eqb ch x21 then
          match getPassword r with
          | inl e => ret (inl e)
          | inr password => ret (remove_password u (ToLower r) password)
          end
        else if Byte.eqb ch x2b then change_command Add u (ToLower r)
        else if Byte.eqb ch x2d then change_command Remove u (ToLower r)
        else ret (bad_rule (ToLower r) ErrNotSupport)
    end) t (decided (MaxPasswordsPerUser c) users u r).
Proof.
  intros Hr Hu Hne Hw. destruct (ToLower r) as [|ch l] eqn:El; [by apply ToLower_nil in El|]. rewrite <- El.
  pose proof (getPassword_given r) as Hg.
  assert (forall text hash p, given_password text hash r p -> ch = text /\ p = Sha256Sum (drop 1 r) \/
    ch = hash /\ p = drop 1 r /\ is_password p) as Hgiven.
  { intros text hash p [[[l' E'] Hp]|[[l' E'] Hp]]; rewrite El in E'; injection E' as -> _; tauto. }
  assert (forall e : error, ch <> x3e -> ch <> x3c -> (ch = x23 \/ ch = x21 -> ~ is_password (drop 1 r)) ->
    (ch = x2b \/ ch = x2d -> lookup_command (B2S l) = None) ->
    decided (MaxPasswordsPerUser c) users u r (inl e)) as Hrefused.
  { intros e H1 H2 H3 H4. cbn [decided]. eapply refused; [done|exact El| | |exact H4].
    - intros p Hp _ _. destruct (Hgiven _ _ _ Hp) as [[? _]|(?&->&?)]; tauto.
    - intros p Hp _. destruct (Hgiven _ _ _ Hp) as [[? _]|(?&->&?)]; tauto. }
  destruct (byte_eqb_spec ch x3e) as [->|N1].
  { apply (add_password_applies c); [done..|left; by eauto|]. intros q Hq. by destruct (Hgiven _ _ _ Hq) as [[_ ?]|[? _]]. }
  destruct (byte_eqb_spec ch x23) as [->|N2].
  { destruct (getPassword r) as [e|p]; [apply yields_ret, Hrefused; try done; intros [|]; done|].
    destruct Hg as [-> Hp]. apply (add_password_applies c); [done..|right; by eauto|].
    intros q Hq. by destruct (Hgiven _ _ _ Hq) as [[? _]|(_&?&_)]. }
  destruct (byte_eqb_spec ch x3c) as [->|N3].
  { apply yields_ret, remove_password_applies; [done|left; by eauto|].
    intros q Hq. by destruct (Hgiven _ _ _ Hq) as [[_ ?]|[? _]]. }
  destruct (byte_eqb_spec ch x21) as [->|N4].
  { destruct (getPassword r) as [e|p]; [apply yields_ret, Hrefused; try done; intros [|]; done|].
    destruct Hg as [-> Hp]. apply yields_ret, remove_password_applies; [done|right; by eauto|].
    intros q Hq. by destruct (Hgiven _ _ _ Hq) as [[? _]|(_&?&_)]. }
  destruct (byte_eqb_spec ch x2b) as [->|N5]; [by apply (command_applies _ _ _ _ _ true l)|].
  destruct (byte_eqb_spec ch x2d) as [->|N6]; [by apply (command_applies _ _ _ _ _ false l)|].
  apply yields_ret, Hrefused; [done..| |]; intros [|]; done.
Qed.

#[local] Ltac in_words := cbn [flag_words command_words In]; repeat first [left; reflexivity|right].
#[local] Tactic Notation "on_word" constr(k) constr(n) constr(H) :=
  match goal with |- context [ToLower ?r] =>
    destruct (bool_decide_reflect (ToLower r = bs k)) as [?|?]; [apply (H k n); [lia|in_words|assumption]|]
  end.
#[local] Tactic Notation "on_words" constr(k) constr(k') constr(n) constr(H) :=
  on_word k n H; on_word k' n H; cbn [orb].

(** A rule that is not empty is applied as the relation says, or refused when it is none
    of those that the relation knows. *)
Lemma aclSetRule_applies c t users u r :
  ready c t -> user_ok u -> r <> [] ->
  yields (aclSetRule users u r) t (decided (MaxPasswordsPerUser c) users u r).
Proof.
  intros Hr Hu Hne.
  assert (forall k n, 0 <= n -> In (k, n, true) flag_words -> ToLower r = bs k ->
    yields (ret (inr (set_Flag (Z.lor (u_Flag u) (Z.shiftl 1 n)) u))) t (decided (MaxPasswordsPerUser c) users u r)) as Hon.
  { intros k n Hn Hin E. apply yields_ret. eapply applies_flag; [done..|by apply changed_flag_on]. }
  assert (forall k n, 0 <= n -> In (k, n, false) flag_words -> ToLower r = bs k ->
    yields (ret (inr (set_Flag (Z.ldiff (u_Flag u) (Z.shiftl 1 n)) u))) t (decided (MaxPasswordsPerUser c) users u r)) as Hoff.
  { intros k n Hn Hin E. apply yields_ret. eapply applies_flag; [done..|by apply changed_flag_off]. }
  destruct (SetFull_bits (u_Commands u) (uo_Commands u Hu)) as [_ Hfull].
  destruct (SetEmpty_bits (u_Commands u) (uo_Commands u Hu)) as [_ Hempty].
  assert (forall k (b : bool) bm f, In (k, b) command_words -> ToLower r = bs k ->
    bits bm = (if b then all_commands else ∅) ->
    changed u (set_Flag f u) (fun m => if m =? 3 then b else Z.testbit (u_Flag u) m) (bits (u_Commands u)) (u_Passwords u) ->
    yields (ret (inr (set_Commands bm (set_Flag f u)))) t (decided (MaxPasswordsPerUser c) users u r)) as Hall.
  { intros k b bm f Hin E Hbm Hch. apply yields_ret. eapply applies_commands; [done..|]. rewrite <- Hbm. by eapply changed_commands. }
  unfold aclSetRule. cbv zeta.
  on_word "on"%string 0 Hon. on_word "off"%string 0 Hoff. on_words "allkeys"%string "~*"%string 1 Hon.
  on_word "resetkeys"%string 1 Hoff. on_words "allchannels"%string "&*"%string 2 Hon.
  on_word "resetchannels"%string 2 Hoff.
  rewrite (uo_Length u Hu) in Hfull. fold all_commands in Hfull.
  destruct (bool_decide_reflect (ToLower r = bs "allcommands")) as [E|];
    [apply (Hall "allcommands"%string true); [in_words|exact E|exact Hfull|by apply (changed_flag_on u 3)]|].
  destruct (bool_decide_reflect (ToLower r = bs "+@all")) as [E|];
    [apply (Hall "+@all"%string true); [in_words|exact E|exact Hfull|by apply (changed_flag_on u 3)]|]. cbn [orb].
  destruct (bool_decide_reflect (ToLower r = bs "nocommands")) as [E|];
    [apply (Hall "nocommands"%string false); [in_words|exact E|exact Hempty|by apply (changed_flag_off u 3)]|].
  destruct (bool_decide_reflect (ToLower r = bs "-@all")) as [E|];
    [apply (Hall "-@all"%string false); [in_words|exact E|exact Hempty|by apply (changed_flag_off u 3)]|]. cbn [orb].
  on_word "nopass"%string 4 Hon. on_word "resetpass"%string 4 Hoff.
  assert (no_word r) as Hw.
  { split; intros k; intros; cbn [flag_words command_words In] in *;
      repeat match goal with H : _ \/ _ |- _ => destruct H as [[= <- <-]|H] || destruct H as [[= <- <- <-]|H] end; done. }
  clear Hon Hoff Hall. by apply aclSetRule_rest.
Qed.

Lemma wp_and {A} (m : M A) t (P Q : A -> Txn -> Prop) :
  wp m t P -> wp m t Q -> wp m t (fun a t' => P a t' /\ Q a t').
Proof. unfold wp. by destruct (m t). Qed.

Lemma set_rules_ok c t users u rules :
  ready c t -> MaxPasswordsPerUser c < 256 -> user_ok u -> Forall (fun r => r <> []) rules ->
  wp (set_rules users u rules) t (fun x t' => user_ok (snd x) /\ same_user u (snd x) /\ t' = t /\
    match fst x with
    | None => follows (MaxPasswordsPerUser c) users u rules (snd x)
    | Some _ => exists pre r post, rules = pre ++ r :: post /\
        follows (MaxPasswordsPerUser c) users u pre (snd x) /\
        forall u', ~ applies (MaxPasswordsPerUser c) users (snd x) r u'
    end).
Proof.
  intros Hr Hm Hu Hall. revert u Hu. induction Hall as [|r rules Hne Hall IH]; intros u Hu; cbn [set_rules].
  { apply wp_ret. repeat (split; [done|]). constructor. }
  apply wp_bind. eapply wp_mono; [apply wp_and; [by apply (aclSetRule_ok c)|by apply (aclSetRule_applies c)]|].
  intros x t' [[Hx ->] [Hd _]]. destruct x as [e|u'].
  { apply wp_ret. repeat (split; [done|]). exists [], r, rules. split; [done|]. split; [constructor|exact Hd]. }
  destruct (Hx u' eq_refl) as (Hu'&Hi&Hn). eapply wp_mono; [by apply IH|]. intros [err u''] t' (Hok&[]&->&Hend).
  split; [done|]. split; [split; cbn [snd] in *; congruence|]. split; [done|]. cbn [fst snd] in *. destruct err as [e|].
  - destruct Hend as (pre&r'&post&->&Hf&Hno). exists (r :: pre), r', post. split; [done|].
    split; [by eapply follows_cons|done].
  - by eapply follows_cons.
Qed.

Lemma UserEncode_ok u : user_ok u -> UserDecode (UserEncode u) (new_user (u_Name u)) = inr (stored u).
Proof. intros Hu. by apply UserDecode_UserEncode. Qed.

Lemma len_UserEncode u : user_ok u -> 0 < len (UserEncode u) < MAX_VALUE_SIZE.
Proof.
  intros Hu. unfold UserEncode, encode_user, GetSegments. unfold len at 1 3. 
  rewrite !length_app, length_segments, length_be_put, (commands_words u Hu). cbn [length].
  rewrite length_passwords; [|apply Forall_forall; intros p Hp; apply (uo_Passwords u Hu); by rewrite elem_of_elements in Hp].
  pose proof (uo_Size u Hu) as Hs. unfold size, set_size in Hs. cbn in Hs. unfold MAX_VALUE_SIZE. lia.
Qed.

Definition count_key : bytes := GetGeneralBytes CountGeneral UserPrefix.

(** The user that SETUSER starts from, and the number for the next one when it is new. *)
Definition user_before (t : Txn) (name : bytes) : option (User * option Z) :=
  match dv t !! GetUserBytes name with
  | Some b => match UserDecode b (new_user name) with inr u => Some (u, None) | inl _ => None end
  | None =>
      let count := match dv t !! count_key with
                   | Some b => let n := be_get (take 2 b) in if n <=? 1 then 2 else n
                   | None => 2
                   end in
      Some (mkUser count name USER_FLAG_ALLCHANNELS ∅ no_commands 0, Some count)
  end.


End setuser.
