(* ===== verification/StreamSpec.v ===== *)
(** Streams against their contents: for every partition, the messages by number and the
    number of the last one. XADD appends a message, XRANGE lists the messages of a
    range in order, and the options of XADD are never accepted. *)

From stdpp Require Import sorting.
From S2P Require Import Prelude Xerror GoStd Utils Glob Store Ranges Mem Client Object Reply.
From S2P Require Import ObjectSpec Counters Generic GenericSpec Strings StringsSpec HashSpec.
From S2P Require Import Scan Stream.
From Stdlib Require Import Init.Byte.

#[local] Open Scope Z_scope.

(** ** Keys of messages *)

Lemma length_message_key p n : length (encodeMessageKeyOffset p n) = 10%nat.
Proof. unfold encodeMessageKeyOffset. by rewrite length_app, !length_be_put. Qed.

(** A partition and the number of a message in it. *)
Definition numbered (p n : Z) : Prop := 0 <= p < 2 ^ 16 /\ 0 <= n <= 2 ^ 63.

Lemma u64_number n : 0 <= n <= 2 ^ 63 -> u64 n = n.
Proof. intros Hn. unfold u64, wrap_u. apply Z.mod_small. lia. Qed.

Lemma compare_message_key p n p' n' : numbered p n -> numbered p' n' ->
  bytes_compare (encodeMessageKeyOffset p n) (encodeMessageKeyOffset p' n') =
  match p ?= p' with Eq => n ?= n' | c => c end.
Proof.
  intros [Hp Hn] [Hp' Hn']. unfold encodeMessageKeyOffset. rewrite !u64_number by done.
  assert (bytes_compare (be_put 8 n) (be_put 8 n') = (n ?= n')) as Hc by (apply bytes_compare_be_put; lia).
  destruct (Z.compare_spec p p') as [->|Hl|Hl]; [by rewrite bytes_compare_app|..];
    (apply bytes_compare_fst; [by rewrite !length_be_put| |done]);
    rewrite bytes_compare_be_put by (change (256 ^ Z.of_nat 2) with (2 ^ 16); lia).
  - by apply Z.compare_lt_iff.
  - by apply Z.compare_gt_iff.
Qed.

Lemma message_key_inj p n p' n' : numbered p n -> numbered p' n' ->
  encodeMessageKeyOffset p n = encodeMessageKeyOffset p' n' -> p = p' /\ n = n'.
Proof.
  intros H1 H2 E. pose proof (compare_message_key _ _ _ _ H1 H2) as Hc. rewrite E, bytes_compare_refl in Hc.
  destruct (Z.compare_spec p p'); [|done..]. by destruct (Z.compare_spec n n').
Qed.

Lemma decodeMessageKey_encode p n : 0 <= p < 2 ^ 16 -> 0 <= n < 2 ^ 63 ->
  decodeMessageKey (encodeMessageKeyOffset p n) = inr (p, n).
Proof.
  intros Hp Hn. unfold decodeMessageKey. unfold len. rewrite length_message_key. cbn [Z.ltb].
  unfold encodeMessageKeyOffset. rewrite take_app_length' by by rewrite length_be_put.
  rewrite <- (app_nil_r (be_put 8 _)), slice_field by by rewrite !length_be_put.
  rewrite !be_get_put, u64_number by lia. rewrite !Z.mod_small by lia.
  rewrite i64_small by (unfold in_i64, MinInt64, MaxInt64; lia). done.
Qed.

Lemma StronglySorted_omap {A B} (R : relation A) (S : relation B) (f : A -> option B) l :
  (forall e e' x y, e ∈ l -> e' ∈ l -> R e e' -> f e = Some x -> f e' = Some y -> S x y) ->
  StronglySorted R l -> StronglySorted S (omap f l).
Proof.
  intros Hf Hl. induction Hl as [|e l Hl IH He]; [constructor|]. cbn [omap list_omap].
  assert (StronglySorted S (omap f l)) as Hrec by (apply IH; intros; eapply Hf; eauto; by right).
  destruct (f e) as [x|] eqn:Ex; [|done]. constructor; [done|]. apply Forall_forall. intros y Hy.
  apply list_elem_of_omap in Hy as (e'&He'&Ey). rewrite Forall_forall in He.
  apply (Hf e e'); [by left|by right|by apply He|done..].
Qed.

Section spec.
Context `{PlatformSpec, Msgpack}.

(** ** The contents of a stream *)

(** The partitions a message without an identifier can go to, and the one it goes to. *)
Definition is_shard (o : Object) (p : Z) : Prop := if o_Hash o >? 0 then 0 <= p < 2 ^ 16 else p = 0.
Definition shard_of (o : Object) (m : bytes) : Z := if o_Hash o >? 0 then Hash.GetShard m (o_Hash o) else 0.

Definition shard_counter (t : Txn) (o : Object) (p : Z) : bytes :=
  GetKeyBytes CountPrefix (t_UserId t) (t_DBId t) KeyPrefix
    (sl (o_Value o) :: if o_Hash o >? 0 then [be_put 2 p] else []).

(** The number of the last message of a partition, and the largest offset named. *)
Definition tally_of (b : bytes) : Z * Z :=
  match DecodeCount (count_of_entry []) b with
  | Some c => (c_Value c, be_get (take 8 (c_UserValue c)))
  | None => (0, 0)
  end.
Definition tally (t : Txn) (o : Object) (p : Z) : Z * Z := from_option tally_of (0, 0) (t_view t !! shard_counter t o p).

(** A stored message: when it was added, and its arguments. *)
Definition message_of (b : bytes) : option (Z * list bytes) :=
  match decodeMessageValue b with
  | inr (ts, _, m) => match Unmarshal m with inr args => Some (ts, args) | inl _ => None end
  | inl _ => None
  end.
Definition messages (t : Txn) (o : Object) (p n : Z) : option (Z * list bytes) :=
  fields (dv t) o (encodeMessageKeyOffset p n) ≫= message_of.

(** Every message has a number up to that of the last one of its partition, and the
    counters hold an offset. *)
Record stream_ok (t : Txn) (o : Object) : Prop := {
  so_type : o_Type o = StreamType;
  so_value : len (sl (o_Value o)) <= 16;
  so_hash : 0 <= o_Hash o < 2 ^ 16;
  so_counts p b : is_shard o p -> t_view t !! shard_counter t o p = Some b ->
    exists c, DecodeCount (count_of_entry []) b = Some c /\ 0 <= c_Value c <= MaxInt64 /\ len (c_UserValue c) = 8;
  so_messages f v : fields (dv t) o f = Some v ->
    exists p n, f = encodeMessageKeyOffset p n /\ is_shard o p /\ 1 <= n <= fst (tally t o p) /\ is_Some (message_of v)
}.

Lemma shard_range o p : is_shard o p -> 0 <= p < 2 ^ 16.
Proof. unfold is_shard. destruct (o_Hash o >? 0); lia. Qed.

Lemma shard_of_ok o m : is_shard o (shard_of o m).
Proof. unfold is_shard, shard_of. destruct (o_Hash o >? 0); [apply Hash.GetShard_range|done]. Qed.

Lemma shard_counter_inj t o p p' : is_shard o p -> is_shard o p' ->
  shard_counter t o p = shard_counter t o p' -> p = p'.
Proof.
  unfold is_shard, shard_counter. destruct (o_Hash o >? 0); [|by intros -> ->].
  intros Hp Hp' E. rewrite !GetKeyBytes_app in E. apply app_inv_head in E. cbn [concat] in E. rewrite !app_nil_r in E.
  apply app_inv_head, be_put_inj in E; [done|by change (256 ^ Z.of_nat 2) with (2 ^ 16)..].
Qed.

Lemma shard_counter_count t o p : is_count (shard_counter t o p).
Proof. by apply GetKeyBytes_count. Qed.

Lemma len_shard_counter t o p : len (shard_counter t o p) <= 7 + len (sl (o_Value o)).
Proof.
  unfold shard_counter. rewrite len_GetKeyBytes. destruct (o_Hash o >? 0); cbn [concat];
    rewrite ?len_app, ?app_nil_r; unfold len; cbn [length]; autorewrite with golen; lia.
Qed.

Lemma tally_bounds t o p : stream_ok t o -> is_shard o p ->
  0 <= fst (tally t o p) <= MaxInt64 /\ 0 <= snd (tally t o p) < 2 ^ 64.
Proof.
  intros Hs Hp. unfold tally. destruct (t_view t !! shard_counter t o p) as [b|] eqn:E; [|by vm_compute].
  destruct (so_counts _ _ Hs p b Hp E) as (c&Hd&Hv&Hu). cbn [from_option]. unfold tally_of. rewrite Hd.
  cbn [fst snd]. split; [done|]. pose proof (be_get_range (take 8 (c_UserValue c))) as Hr.
  rewrite length_take in Hr. unfold len in Hu. replace (8 `min` length (c_UserValue c))%nat with 8%nat in Hr by lia. apply Hr.
Qed.

(** ** The counter of a new message *)

(** What the counter of partition [p] becomes when a message is appended. *)
Definition advanced (t : Txn) (o : Object) (p : Z) : Count :=
  {| c_Timestamp := t_Timestamp t; c_Value := fst (tally t o p) + 1; c_Key := shard_counter t o p; c_Shard := p;
     c_UserValue := be_put 8 (u64 (snd (tally t o p) + 1)) |}.

Lemma count_key_shard t o m :
  count_key (t_UserId t) (t_DBId t) (o_Hash o) KeyPrefix (sl (o_Value o)) (Some m) =
  (shard_of o m, shard_counter t o (shard_of o m)).
Proof. unfold count_key, shard_of, shard_counter. by destruct (o_Hash o >? 0). Qed.

Lemma wp_next_count c t o m (Q : error + Count -> Txn -> Prop) :
  ready c t -> stream_ok t o -> fst (tally t o (shard_of o m)) < MaxInt64 ->
  (forall ts, Q (inr (set_c ts (c_Value (advanced t o (shard_of o m))) (advanced t o (shard_of o m)))) t) ->
  wp (next_count o ALLPartition NoOffset ALLPartition m) t Q.
Proof.
  intros Hr Hs Hlt HQ. unfold next_count. apply wp_bind, wp_get_txn. change (ALLPartition =? ALLPartition) with true.
  cbv iota. pose proof (so_value _ _ Hs) as Hv16. apply wp_bind, (wp_GetCount c); [done|unfold MAX_KEY_SIZE; lia|].
  rewrite count_key_shard. cbv zeta. cbn [fst snd]. set (p := shard_of o m) in *.
  pose proof (shard_of_ok o m) as Hp. fold p in Hp. pose proof (tally_bounds t o p Hs Hp) as [Hb _].
  change (NoOffset =? NoOffset) with true. change (ALLPartition >=? 0) with false. cbn [andb negb].
  unfold read_count. cbn [fst snd]. unfold advanced, tally in *.
  destruct (t_view t !! shard_counter t o p) as [b|] eqn:E; cbn [from_option] in *.
  - destruct (so_counts _ _ Hs p b Hp E) as (k&Hd&Hk&Hu). unfold tally_of in *. rewrite Hd in *. cbn [fst snd] in *.
    assert (DecodeCount (fresh_count (t_Timestamp t) p (shard_counter t o p)) b =
      Some {| c_Timestamp := c_Timestamp k; c_Value := c_Value k; c_Key := shard_counter t o p; c_Shard := p;
              c_UserValue := c_UserValue k |}) as ->.
    { revert Hd. unfold DecodeCount. destruct (len b <? 17); [done|]. by intros [= <-]. }
    unfold default; cbn [from_option id c_UserValue c_Value c_Shard c_Key c_Timestamp]. rewrite Hu. cbn [Z.gtb Z.ltb Z.compare andb].
    rewrite i64_small by (unfold in_i64, MinInt64; lia).
    rewrite (drop_ge (c_UserValue k)) by (unfold len in Hu; lia). rewrite app_nil_r. apply HQ.
  - cbn [fst snd c_UserValue c_Value c_Shard c_Key c_Timestamp fresh_count]. apply (HQ (t_Timestamp t)).
Qed.

(** ** XADD *)

Lemma tally_EncodeCount ts c : in_u64 ts -> 0 <= c_Value c <= MaxInt64 ->
  DecodeCount (count_of_entry []) (EncodeCount (set_c ts (c_Value c) c)) =
  Some {| c_Timestamp := ts; c_Value := c_Value c; c_Key := []; c_Shard := 0; c_UserValue := c_UserValue c |}.
Proof.
  intros Ht Hv. apply (DecodeCount_EncodeCount (Build_Count ts (c_Value c) [] 0 (c_UserValue c))); [done| |done|done].
  cbn [c_Value]. unfold in_i64, MinInt64. lia.
Qed.

(** What an XADD leaves: one more message, at the next number of its partition. *)
Record appended (c : Config) (o : Object) (t t' : Txn) (p : Z) (m : bytes) : Prop := {
  ap_wrote : dwrote c t t' (<[GetValueBytes o (encodeMessageKeyOffset p (fst (tally t o p) + 1)) :=
                              encodeMessageValue (t_Now t) (fst (tally t o p) + 1) m]> (dv t));
  ap_new : fields (dv t) o (encodeMessageKeyOffset p (fst (tally t o p) + 1)) = None;
  ap_counter p' : t_view t' !! shard_counter t' o p' =
    <[shard_counter t o p := EncodeCount (advanced t o p)]> (t_view t) !! shard_counter t o p'
}.

Lemma len_message_value ts n m : len (encodeMessageValue ts n m) = 16 + len m.
Proof. unfold encodeMessageValue, len. autorewrite with golen. lia. Qed.

Lemma decodeMessageValue_encode ts n m : in_i64 ts -> in_i64 n -> m <> [] ->
  decodeMessageValue (encodeMessageValue ts n m) = inr (ts, n, m).
Proof.
  intros Ht Hn Hm. unfold decodeMessageValue. rewrite len_message_value.
  assert (len m <> 0) as Hl by by rewrite len_nil_iff. pose proof (len_nonneg m).
  destruct (Z.leb_spec (16 + len m) 16); [lia|]. unfold encodeMessageValue.
  rewrite take_app_length' by by rewrite length_be_put.
  rewrite slice_field by by rewrite !length_be_put.
  rewrite app_assoc, drop_app_length' by by rewrite length_app, !length_be_put.
  rewrite !be_get_put. change (256 ^ Z.of_nat 8) with (2 ^ 64).
  rewrite !Z.mod_small by apply u64_range. by rewrite !i64_u64.
Qed.

(** Writing a counter and then a message. *)
Lemma wp_append c o t m ts (Q : Txn -> Prop) :
  ready c t -> stream_ok t o -> len m < MAX_VALUE_SIZE - 16 ->
  let p := shard_of o m in
  fst (tally t o p) < MaxInt64 ->
  (forall t', appended c o t t' p m -> Q t') ->
  let k := set_c ts (c_Value (advanced t o p)) (advanced t o p) in
  wp (SetCount k) t (fun e t1 => e = None /\
    wp (Put (GetValueBytes o (encodeMessageKeyOffset p (c_Value k))) (encodeMessageValue (t_Now t1) (c_Value k) m)) t1
      (fun e t' => e = None /\ Q t')).
Proof.
  intros Hr Hs Hm p Hlt HQ k. pose proof (shard_of_ok o m) as Hp. fold p in Hp.
  pose proof (tally_bounds t o p Hs Hp) as [Hb Hb2]. pose proof (so_value _ _ Hs) as Hv16.
  pose proof (len_shard_counter t o p) as Hlk. pose proof (len_nonneg m) as Hm0.
  unfold SetCount. apply wp_bind, wp_get_txn. change (c_Key _) with (shard_counter t o p).
  set (k1 := set_c _ _ k).
  assert (len (EncodeCount k1) = 25) as Hle.
  { rewrite len_EncodeCount. change (c_UserValue k1) with (be_put 8 (u64 (snd (tally t o p) + 1))).
    unfold len. by rewrite length_be_put. }
  apply (wp_count_Put c); [done|apply shard_counter_count|unfold MAX_KEY_SIZE; lia|rewrite Hle; unfold MAX_VALUE_SIZE; lia|].
  intros t1 Hw1 Hv1. split; [done|]. destruct Hw1 as [He1 Hr1 Hd1].
  change (c_Value k) with (fst (tally t o p) + 1). set (n := fst (tally t o p) + 1).
  rewrite (se_Now _ _ He1). set (key := GetValueBytes o _).
  assert (~ is_count key) as Hdata by apply GetValueBytes_data.
  apply wp_Put; [by apply (rd_up c)| | |].
  { unfold key. rewrite len_GetValueBytes. unfold len at 2. rewrite length_message_key. unfold MAX_KEY_SIZE. lia. }
  { rewrite len_message_value. unfold MAX_VALUE_SIZE in *. lia. }
  intros t2 Hw2. split; [done|]. apply HQ.
  assert (forall p', t_view t2 !! shard_counter t2 o p' = <[shard_counter t o p := EncodeCount k1]> (t_view t) !! shard_counter t o p') as Hc2.
  { intros p'. rewrite (wr_view _ _ _ Hw2), Hv1. destruct Hw2 as [He2 _ _].
    unfold shard_counter at 1. rewrite (se_UserId _ _ He2), (se_DBId _ _ He2), (se_UserId _ _ He1), (se_DBId _ _ He1).
    fold (shard_counter t o p'). apply lookup_insert_ne. intros E. apply Hdata. rewrite E. apply shard_counter_count. }
  split.
  - apply (dwrote_trans c t t1 t2 (dv t)); [by split|]. rewrite <- Hd1. unfold dv at 1. rewrite <- dview_insert by done.
    apply dwrote_wrote; [done..|]. apply wf_store_insert; [apply Hr1| |done].
    rewrite len_message_value. unfold MAX_VALUE_SIZE in *. lia.
  - destruct (fields (dv t) o _) as [v|] eqn:Ef; [|done]. exfalso.
    destruct (so_messages _ _ Hs _ _ Ef) as (p'&n'&E&Hp'&Hn'&_). pose proof (shard_range _ _ Hp). pose proof (shard_range _ _ Hp').
    pose proof (tally_bounds t o p' Hs Hp') as [Hb' _]. unfold MaxInt64 in *.
    apply message_key_inj in E as [<- <-]; [lia|split; lia..].
  - done.
Qed.

Lemma advanced_decoded t o p : in_u64 (t_Timestamp t) -> 0 <= fst (tally t o p) < MaxInt64 ->
  DecodeCount (count_of_entry []) (EncodeCount (advanced t o p)) =
  Some {| c_Timestamp := t_Timestamp t; c_Value := fst (tally t o p) + 1; c_Key := []; c_Shard := 0;
          c_UserValue := be_put 8 (u64 (snd (tally t o p) + 1)) |}.
Proof. intros Ht Hn. apply (tally_EncodeCount (t_Timestamp t) (advanced t o p)); [done|]. cbn [c_Value advanced]. lia. Qed.

Lemma appended_tally c o t t' p m : ready c t -> stream_ok t o -> is_shard o p -> fst (tally t o p) < MaxInt64 ->
  appended c o t t' p m -> tally t' o p = (fst (tally t o p) + 1, u64 (snd (tally t o p) + 1)).
Proof.
  intros Hr Hs Hp Hlt Ha. pose proof (tally_bounds t o p Hs Hp) as [Hb _].
  unfold tally at 1. rewrite (ap_counter _ _ _ _ _ _ Ha), lookup_insert_eq. cbn [from_option]. unfold tally_of.
  rewrite advanced_decoded by (first [apply Hr|lia]). cbn [c_Value c_UserValue].
  rewrite take_ge by by rewrite length_be_put. rewrite be_get_put, Z.mod_small by apply u64_range. done.
Qed.

Lemma appended_others c o t t' p m p' : is_shard o p -> is_shard o p' -> p' <> p ->
  appended c o t t' p m -> tally t' o p' = tally t o p'.
Proof.
  intros Hp Hp' Hne Ha. unfold tally. rewrite (ap_counter _ _ _ _ _ _ Ha), lookup_insert_ne; [done|].
  intros E. by apply shard_counter_inj in E.
Qed.

(** An appended message keeps the stream consistent. *)
Lemma appended_ok c o t t' p m :
  ready c t -> stream_ok t o -> is_shard o p -> fst (tally t o p) < MaxInt64 ->
  is_Some (message_of (encodeMessageValue (t_Now t) (fst (tally t o p) + 1) m)) ->
  appended c o t t' p m -> stream_ok t' o.
Proof.
  intros Hr Hs Hp Hlt Hmsg Ha. pose proof (tally_bounds t o p Hs Hp) as [Hb _].
  split; [apply Hs..| |].
  - intros p' b Hp' Eb. rewrite (ap_counter _ _ _ _ _ _ Ha) in Eb. destruct (decide (p' = p)) as [->|Hn].
    + rewrite lookup_insert_eq in Eb. injection Eb as <-. eexists.
      split; [apply advanced_decoded; [apply Hr|lia]|]. cbn [c_Value c_UserValue]. unfold len. rewrite length_be_put. lia.
    + rewrite lookup_insert_ne in Eb by (intros E; by apply shard_counter_inj in E). by apply (so_counts _ _ Hs p').
  - intros f v Hf. rewrite (dw_view _ _ _ _ (ap_wrote _ _ _ _ _ _ Ha)), fields_put in Hf. unfold put_field in Hf.
    destruct (decide (f = _)) as [->|Hn].
    + injection Hf as <-. exists p, (fst (tally t o p) + 1). split; [done|]. split; [done|]. split; [|done].
      rewrite (appended_tally c o t t' p m) by done. cbn [fst]. lia.
    + destruct (so_messages _ _ Hs f v Hf) as (p'&n'&->&Hp'&Hn'&Hv). exists p', n'. split; [done|]. split; [done|].
      split; [|done]. destruct (decide (p' = p)) as [->|Hne].
      * rewrite (appended_tally c o t t' p m) by done. cbn [fst]. lia.
      * by rewrite (appended_others c o t t' p m p').
Qed.

Lemma message_of_encode ts n m args : in_i64 ts -> in_i64 n -> m <> [] -> Unmarshal m = inr args ->
  message_of (encodeMessageValue ts n m) = Some (ts, args).
Proof. intros Ht Hn Hm Hu. unfold message_of. by rewrite decodeMessageValue_encode, Hu. Qed.

(** C23. XADD with an identifier of the server's choice on a stream that exists appends to a
    partition. The identifier is not the time and a sequence number that the command's
    documentation speaks of, and orders the messages of one partition alone: the reply names
    the partition the arguments pick and the number behind its last one; that number was
    free, it now holds the arguments and the time, every other message is as before, no
    other partition advances, and the stream stays consistent. *)
Theorem XADDHandle_appends c t k o kvs m :
  ready c t -> key_ok k -> good_header c t k -> find c t (dv t) k = Some o -> stream_ok t o ->
  2 <= len kvs -> Marshal kvs = inr m -> Unmarshal m = inr kvs -> 0 < len m < MAX_VALUE_SIZE - 16 ->
  let p := shard_of o m in
  let n := fst (tally t o p) + 1 in
  n <= MaxInt64 ->
  wp (XADDHandle (k :: bs "*" :: kvs)) t (fun r t' =>
    r = RBulk (message_id p n) /\ stream_ok t' o /\ messages t o p n = None /\
    (forall p' n', numbered p' n' -> messages t' o p' n' =
       if decide (p' = p /\ n' = n) then Some (t_Now t, kvs) else messages t o p' n') /\
    fst (tally t' o p) = n /\ forall p', is_shard o p' -> p' <> p -> tally t' o p' = tally t o p').
Proof.
  intros Hr Hk Hg Hf Hs Hlen Hm Hu Hlm p n Hn. pose proof (shard_of_ok o m) as Hp. fold p in Hp.
  pose proof (tally_bounds t o p Hs Hp) as [Hb _]. assert (fst (tally t o p) < MaxInt64) as Hlt by lia.
  unfold XADDHandle. apply wp_bind. unfold xadd.
  assert ((len (k :: bs "*" :: kvs) <? 4) = false) as -> by (rewrite !len_cons; lia).
  destruct kvs as [|f [|v kvs]]; [done|done|]. apply wp_bind. unfold wp at 1.
  change (xadd_options _ _ 1 _) with (ret (inr (1%nat, xadd_defaults)) : M (error + (nat * xaddOpt))). cbv beta iota.
  apply wp_bind. unfold wp at 1. change (index _ 1) with (ret (bs "*")). unfold ret at 1. cbv beta iota.
  change (checkID (bs "*")) with (inr (Auto, NotFound) : error + (Z * Z)). cbv iota.
  change (drop 2 _) with (f :: v :: kvs). rewrite Hm. cbn [arg nth].
  change (if Auto >=? 0 then Auto else ALLPartition) with ALLPartition.
  change (if NotFound >=? 0 then NotFound else NoOffset) with NoOffset.
  apply wp_bind, (wp_lookup_found c t k StreamType o); [done..|apply Hs|done|].
  pose proof (so_hash _ _ Hs) as Hh. unfold ALLPartition at 1. destruct (Z.gtb_spec (-1) (o_Hash o)); [lia|].
  change (xo_minPartition xadd_defaults) with ALLPartition.
  apply wp_bind, (wp_next_count c t o m); [done..|]. intros ts. fold p.
  apply wp_on_done. eapply wp_mono; [apply (wp_append c o t m ts); [done..|lia|done|]|].
  2:{ intros e t1 [-> Hput]. apply wp_bind, wp_get_txn, wp_on_done. eapply wp_mono; [exact Hput|].
      intros e' t' [-> HQ]. exact HQ. }
  intros t' Ha. fold p in Ha. change (message_id _ _) with (message_id p n).
  pose proof (shard_range _ _ Hp) as Hpr. pose proof (rd_now _ _ Hr) as Hnow.
  assert (m <> []) as Hm0 by (intros ->; unfold len in Hlm; simpl in Hlm; lia).
  assert (message_of (encodeMessageValue (t_Now t) n m) = Some (t_Now t, f :: v :: kvs)) as Hmo.
  { apply message_of_encode; [unfold in_i64, MinInt64, MaxInt64 in *; lia..|done|done]. }
  split; [done|]. split; [by eapply appended_ok|].
  split; [unfold messages, n; by rewrite (ap_new _ _ _ _ _ _ Ha)|]. split.
  { intros p' n' Hpn. unfold messages at 1. rewrite (dw_view _ _ _ _ (ap_wrote _ _ _ _ _ _ Ha)), fields_put.
    fold n. unfold put_field. destruct (decide (_ = _)) as [E|E].
    - apply message_key_inj in E as [-> ->]; [|done|split; unfold MaxInt64 in *; lia].
      rewrite decide_True by done. done.
    - rewrite decide_False; [done|]. intros [-> ->]. done. }
  rewrite (appended_tally c o t t' p m) by done. split; [done|]. intros p' Hp' Hne.
  by apply (appended_others c o t t' p m).
Qed.
(** ** The options of XADD *)

Definition xadd_option (a : bytes) : bool :=
  lower_is a "nomkstream" || lower_is a "minid" || lower_is a "maxlen" || lower_is a "limit".

(** Once an option is the first argument, the loop only ends behind the last one: every
    round looks at the first argument again. *)
Lemma xadd_options_end fuel args i o a t :
  args !! 1%nat = Some a -> xadd_option a = true -> (length args < fuel + i)%nat ->
  match xadd_options fuel args i o t with
  | Ret (inl _) t' => t' = t
  | Ret (inr (j, _)) t' => t' = t /\ (length args <= j)%nat
  | Panic => True
  | Diverge => (fuel = 0)%nat
  end.
Proof.
  intros Ha Hopt. revert i o. induction fuel as [|fuel IH]; intros i o Hi; [done|]. cbn [xadd_options].
  destruct (Nat.leb_spec (length args) i) as [Hle|Hgt]; [done|]. unfold bind at 1, index at 1. rewrite Ha. cbn [ret].
  assert (forall j o', (i < j)%nat ->
    match xadd_options fuel args j o' t with
    | Ret (inl _) t' => t' = t
    | Ret (inr (j, _)) t' => t' = t /\ (length args <= j)%nat
    | Panic => True
    | Diverge => S fuel = 0%nat
    end) as Hgo.
  { intros j o' Hj. specialize (IH j o' ltac:(lia)). destruct (xadd_options _ _ _ _ _) as [[|[? ?]]| |]; try done.
    subst fuel. lia. }
  unfold xadd_option in Hopt.
  destruct (lower_is a "nomkstream"); [by apply Hgo; lia|].
  destruct (lower_is a "minid").
  { destruct (trims o); [done|]. unfold bind, index. destruct (args !! S i) as [v|]; [|done]. cbn [ret].
    destruct (checkID v) as [e|[x y]]; [done|]. destruct (x <? 0); [done|].
    destruct (y =? NotFound); apply Hgo; lia. }
  destruct (lower_is a "maxlen").
  { destruct (trims o); [done|]. destruct (getThreshold _) as [e|[x y]]; [done|].
    destruct (x =? DefaultEXACT); apply Hgo; lia. }
  destruct (lower_is a "limit"); [|done].
  unfold bind, index. destruct (args !! S i) as [v|]; [|done]. cbn [ret].
  destruct (Int.GetNonnegativeInt64 v) as [x [e|]]; [done|]. apply Hgo; lia.
Qed.

(** XADD never accepts an option: with NOMKSTREAM, MINID, MAXLEN or LIMIT behind the
    key, whatever follows, the command is refused with an error or the handler panics
    (its loop looks at the first argument again in every round); nothing is written and
    nothing is trimmed. *)
Lemma xadd_options_refused k a args t :
  xadd_option a = true -> 2 <= len args ->
  match xadd (k :: a :: args) t with
  | Ret (RErr e, None) t' => t' = with_Err (Some e) t
  | Panic => True
  | _ => False
  end.
Proof.
  intros Ha Hl. unfold xadd.
  assert ((len (k :: a :: args) <? 4) = false) as -> by (rewrite !len_cons; lia).
  pose proof (xadd_options_end (length (k :: a :: args)) (k :: a :: args) 1 xadd_defaults a t eq_refl Ha ltac:(lia)) as Hend.
  unfold bind at 1. destruct (xadd_options _ _ _ _ t) as [[e|[j o]] t'| |]; [by subst t'| |done|done].
  destruct Hend as [-> Hj]. unfold bind at 1, index at 1. by rewrite lookup_ge_None_2.
Qed.
(** ** XRANGE *)

(** A message of the listing: its partition, its number, its arguments. *)
Definition listed_message (prefix : nat) (e : bytes * bytes) : option (Z * Z * list bytes) :=
  match decodeMessageKey (drop prefix (fst e)), message_of (snd e) with
  | inr (p, n), Some (_, args) => Some (p, n, args)
  | _, _ => None
  end.
Definition message_reply (x : Z * Z * list bytes) : reply :=
  RArr [RBulk (message_id (fst (fst x)) (snd (fst x))); RArr (RBulk <$> snd x)].

Lemma xrange_entry_listed prefix k v :
  xrange_entry prefix k v = message_reply <$> listed_message prefix (k, v).
Proof.
  unfold xrange_entry, listed_message, message_of. cbn [fst snd].
  destruct (decodeMessageKey _) as [|[p n]]; [done|]. destruct (decodeMessageValue v) as [|[[ts m] b]]; [done|].
  by destruct (Unmarshal b).
Qed.

Definition message_lt (x y : Z * Z * list bytes) : Prop :=
  fst (fst x) < fst (fst y) \/ fst (fst x) = fst (fst y) /\ snd (fst x) < snd (fst y).

(** The messages a range asks for. *)
Definition in_bounds (partition startOffset endOffset p n : Z) : Prop :=
  partition < 0 \/ p = partition /\ startOffset <= n /\ (endOffset < 0 \/ n <= endOffset).

Lemma message_stored t o p n ts args : stream_ok t o -> is_shard o p -> 0 <= n <= MaxInt64 ->
  messages t o p n = Some (ts, args) ->
  exists v, t_view t !! GetValueBytes o (encodeMessageKeyOffset p n) = Some v /\ message_of v = Some (ts, args).
Proof.
  intros Hs Hp Hn. unfold messages, fields, dv. rewrite dview_lookup by apply GetValueBytes_data.
  destruct (_ !! _) as [v|]; [|done]. intros E. by exists v.
Qed.

(** An entry behind the prefix that decodes is a message of the stream. *)
Lemma listed_stored t o k v p n args : stream_ok t o -> has_prefix (value_prefix o) k = true ->
  t_view t !! k = Some v -> listed_message (length (value_prefix o)) (k, v) = Some (p, n, args) ->
  k = GetValueBytes o (encodeMessageKeyOffset p n) /\ is_shard o p /\ 1 <= n <= MaxInt64 /\
  exists ts, messages t o p n = Some (ts, args).
Proof.
  intros Hs [f ->]%has_prefix_spec Hv. unfold listed_message. cbn [fst snd]. rewrite drop_app_length.
  rewrite <- GetValueBytes_app in *.
  assert (fields (dv t) o f = Some v) as Hf.
  { unfold fields, dv. by rewrite dview_lookup by apply GetValueBytes_data. }
  destruct (so_messages _ _ Hs f v Hf) as (p'&n'&->&Hp&Hn&[[ts args'] Hm]).
  pose proof (tally_bounds _ _ _ Hs Hp) as [Hb _]. pose proof (shard_range _ _ Hp).
  rewrite decodeMessageKey_encode, Hm by (unfold MaxInt64 in *; lia). intros [= -> -> ->].
  split; [done|]. split; [done|]. split; [lia|]. exists ts. unfold messages. by rewrite Hf.
Qed.

Lemma listed_encode o p n v ts args : 0 <= p < 2 ^ 16 -> 0 <= n <= MaxInt64 -> message_of v = Some (ts, args) ->
  listed_message (length (value_prefix o)) (GetValueBytes o (encodeMessageKeyOffset p n), v) = Some (p, n, args).
Proof.
  intros Hp Hn Hm. unfold listed_message. cbn [fst snd]. rewrite GetValueBytes_app, drop_app_length.
  by rewrite decodeMessageKey_encode, Hm by (unfold MaxInt64 in *; lia).
Qed.

Lemma listed_length o k v x : listed_message (length (value_prefix o)) (k, v) = Some x ->
  (length (value_prefix o) + 10 <= length k)%nat.
Proof.
  unfold listed_message, decodeMessageKey. cbn [fst snd].
  destruct (Z.ltb_spec (len (drop (length (value_prefix o)) k)) 10) as [|Hl]; [done|].
  unfold len in Hl. rewrite length_drop in Hl. lia.
Qed.

(** Offsets as they come out of identifiers. *)
Definition range_ok (o : Object) (partition startOffset endOffset : Z) : Prop :=
  partition <= o_Hash o /\ 0 <= startOffset <= MaxInt64 /\ endOffset <= MaxInt64 /\
  (0 <= endOffset -> startOffset <= endOffset).

Lemma message_key_split o p n : GetValueBytes o (encodeMessageKeyOffset p n) =
  GetValueBytes o (encodeMessageKeyPrefix p) ++ be_put 8 (u64 n).
Proof. rewrite !GetValueBytes_app. unfold encodeMessageKeyOffset, encodeMessageKeyPrefix. apply app_assoc. Qed.

Lemma prefix_not_ff o f : ~ Forall (fun x => x = xff) (GetValueBytes o f).
Proof. by apply not_ff. Qed.

Section range.
Context (t : Txn) (o : Object) (Hs : stream_ok t o).
Context (partition startOffset endOffset : Z) (Hok : range_ok o partition startOffset endOffset).
Let start := fst (xrange_range o partition startOffset endOffset).
Let end_ := snd (xrange_range o partition startOffset endOffset).

Lemma in_range_message p n : is_shard o p -> 1 <= n <= MaxInt64 ->
  let k := GetValueBytes o (encodeMessageKeyOffset p n) in
  (ble start k /\ blt k end_) <-> in_bounds partition startOffset endOffset p n.
Proof.
  intros Hp Hn k. pose proof (shard_range _ _ Hp) as Hpr. pose proof (so_hash _ _ Hs) as Hh.
  destruct Hok as (Hpart&Hso&Heo&Hse). unfold start, end_, xrange_range, in_bounds.
  destruct (Z.ltb_spec partition 0) as [Hneg|Hpos]; cbn [fst snd].
  { split; [by left|intros _]. fold (value_prefix o). apply Bytes.has_prefix_in_range; [apply prefix_not_ff|].
    apply has_prefix_spec. exists (encodeMessageKeyOffset p n). apply GetValueBytes_app. }
  assert (wrap_u 16 partition = partition) as -> by (unfold wrap_u; apply Z.mod_small; lia).
  assert (ble (GetValueBytes o (encodeMessageKeyOffset partition startOffset)) k <->
    partition < p \/ partition = p /\ startOffset <= n) as ->.
  { unfold k, ble. rewrite !GetValueBytes_app, bytes_compare_app, compare_message_key by (split; unfold MaxInt64 in *; lia).
    destruct (Z.compare_spec partition p), (Z.compare_spec startOffset n); split; intros; try done; try lia. }
  destruct (Z.ltb_spec endOffset 0) as [He|He].
  - split.
    + intros [L1 L2]. right. assert (p = partition) as ->; [|lia].
      assert (has_prefix (GetValueBytes o (encodeMessageKeyPrefix partition)) k = true) as Hpre.
      { apply Bytes.PrefixNext_range_prefix; [apply prefix_not_ff| | |done].
        - unfold k. rewrite message_key_split, !GetValueBytes_app, !length_app. unfold encodeMessageKeyPrefix.
          rewrite !length_be_put. lia.
        - apply blt_ble. unfold k. rewrite message_key_split, !GetValueBytes_app.
          destruct L1 as [L1|[-> L1]].
          + unfold blt, encodeMessageKeyPrefix. rewrite <- app_assoc, bytes_compare_app.
            rewrite <- (app_nil_r (be_put 2 partition)). apply bytes_compare_fst; [by rewrite !length_be_put| |done].
            rewrite bytes_compare_be_put by (change (256 ^ Z.of_nat 2) with (2 ^ 16); lia). by apply Z.compare_lt_iff.
          + unfold blt. rewrite <- app_assoc, bytes_compare_app.
            unfold encodeMessageKeyPrefix. rewrite <- (app_nil_r (be_put 2 p)) at 1.
            by rewrite bytes_compare_app. }
      apply has_prefix_spec in Hpre as [d Hd]. unfold k in Hd. rewrite message_key_split, !GetValueBytes_app in Hd.
      rewrite <- !app_assoc in Hd. apply app_inv_head in Hd. unfold encodeMessageKeyPrefix in Hd.
      apply app_inj_1 in Hd as [Hd _]; [|by rewrite !length_be_put].
      apply be_put_inj in Hd; [done|change (256 ^ Z.of_nat 2) with (2 ^ 16); lia..].
    + intros [?|(->&L1&_)]; [lia|]. split; [by right|].
      apply Bytes.has_prefix_in_range; [apply prefix_not_ff|]. apply has_prefix_spec. eexists. apply message_key_split.
  - assert (i64 (endOffset + 1) = endOffset + 1 \/ endOffset = MaxInt64) as Hw.
    { destruct (decide (endOffset = MaxInt64)); [by right|left]. apply i64_small. unfold in_i64, MinInt64, MaxInt64 in *. lia. }
    assert (encodeMessageKeyOffset partition (i64 (endOffset + 1)) = encodeMessageKeyOffset partition (endOffset + 1)) as ->.
    { unfold encodeMessageKeyOffset. do 2 f_equal. destruct Hw as [->| ->]; reflexivity. }
    unfold k, blt. rewrite !GetValueBytes_app, bytes_compare_app.
    rewrite compare_message_key by (split; unfold MaxInt64 in *; lia).
    destruct (Z.compare_spec p partition), (Z.compare_spec n (endOffset + 1)); split; intros; try done; try lia.
    all: intuition (try done; try lia).
Qed.

Lemma in_range_prefix k : ble start k -> blt k end_ -> (length (value_prefix o) + 10 <= length k)%nat ->
  has_prefix (value_prefix o) k = true.
Proof.
  unfold start, end_, xrange_range. destruct (Z.ltb_spec partition 0); cbn [fst snd].
  { intros L1 L2 Hl. apply Bytes.PrefixNext_range_prefix; [apply prefix_not_ff|lia|done..]. }
  destruct (Z.ltb_spec endOffset 0).
  - rewrite message_key_split. set (q := GetValueBytes o (encodeMessageKeyPrefix _)). intros L1 L2 Hl.
    assert (has_prefix q k = true) as Hq.
    { apply Bytes.PrefixNext_range_prefix; [apply prefix_not_ff| | |done].
      - unfold q. rewrite GetValueBytes_app, length_app. unfold encodeMessageKeyPrefix. rewrite length_be_put. lia.
      - eapply ble_trans; [apply ble_app|exact L1]. }
    apply has_prefix_spec in Hq as [d ->]. apply has_prefix_spec. eexists. unfold q. by rewrite GetValueBytes_app, <- app_assoc.
  - intros L1 L2 _. rewrite GetValueBytes_app in L1, L2. by eapply between_prefix.
Qed.

Lemma range_nonempty : end_ <> [] /\ ble start end_.
Proof.
  destruct Hok as (Hpart&Hso&Heo&Hse). pose proof (so_hash _ _ Hs) as Hh. unfold start, end_, xrange_range.
  destruct (Z.ltb_spec partition 0); cbn [fst snd].
  { split; [apply PrefixNext_nonempty|]. apply blt_ble, PrefixNext_gt, prefix_not_ff. }
  destruct (Z.ltb_spec endOffset 0).
  - split; [apply PrefixNext_nonempty|]. apply blt_ble, Bytes.has_prefix_in_range; [apply prefix_not_ff|].
    apply has_prefix_spec. eexists. apply message_key_split.
  - split; [by destruct o|].
    assert (encodeMessageKeyOffset (wrap_u 16 partition) (i64 (endOffset + 1)) =
            encodeMessageKeyOffset (wrap_u 16 partition) (endOffset + 1)) as ->.
    { unfold encodeMessageKeyOffset. do 2 f_equal. destruct (decide (endOffset = MaxInt64)) as [->|]; [reflexivity|].
      rewrite i64_small; [done|]. unfold in_i64, MinInt64, MaxInt64 in *. lia. }
    unfold ble. rewrite !GetValueBytes_app, bytes_compare_app, compare_message_key.
    + rewrite Z.compare_refl. destruct (Z.compare_spec startOffset (endOffset + 1)); [done|done|lia].
    + split; [by apply wrap_u_range|unfold MaxInt64 in *; lia].
    + split; [by apply wrap_u_range|unfold MaxInt64 in *; lia].
Qed.

(** The entries of the range that are messages. *)
Definition range_messages : list (Z * Z * list bytes) :=
  omap (listed_message (length (value_prefix o))) (range_entries start end_ (t_view t)).

Lemma elem_of_range_messages p n args : is_shard o p -> 1 <= n <= MaxInt64 ->
  (p, n, args) ∈ range_messages <->
  in_bounds partition startOffset endOffset p n /\ exists ts, messages t o p n = Some (ts, args).
Proof.
  intros Hp Hn. destruct range_nonempty as [Hne _]. unfold range_messages. rewrite list_elem_of_omap. split.
  - intros ([k v]&Hin&Hl). apply elem_of_range_entries in Hin as (Hv&L1&L2).
    apply below_spec in L2 as [?|L2]; [done|].
    destruct (listed_stored t o k v p n args) as (->&_&_&Hm); [done| |done..|].
    { apply in_range_prefix; [done..|]. by eapply listed_length. }
    split; [by apply in_range_message|done].
  - intros [Hb [ts Hm]]. apply message_stored in Hm as (v&Hv&Hm); [|done..|lia].
    exists (GetValueBytes o (encodeMessageKeyOffset p n), v). pose proof (shard_range _ _ Hp).
    split; [|eapply listed_encode; [done|lia|done]].
    apply (in_range_message p n Hp Hn) in Hb as [L1 L2]. apply elem_of_range_entries.
    split; [done|]. split; [done|]. apply below_spec. by right.
Qed.

(** Nothing else is listed. *)
Lemma range_messages_numbered p n args : (p, n, args) ∈ range_messages -> is_shard o p /\ 1 <= n <= MaxInt64.
Proof.
  destruct range_nonempty as [Hne _]. unfold range_messages. rewrite list_elem_of_omap.
  intros ([k v]&Hin&Hl). apply elem_of_range_entries in Hin as (Hv&L1&L2). apply below_spec in L2 as [?|L2]; [done|].
  destruct (listed_stored t o k v p n args) as (_&?&?&_); [done| |done..].
  apply in_range_prefix; [done..|]. by eapply listed_length.
Qed.

Lemma range_messages_sorted : StronglySorted message_lt range_messages.
Proof.
  destruct range_nonempty as [Hne _]. unfold range_messages.
  pose proof (range_entries_sorted start end_ (t_view t)) as Hsort.
  assert (forall e, e ∈ range_entries start end_ (t_view t) ->
    forall x, listed_message (length (value_prefix o)) e = Some x ->
    is_shard o (fst (fst x)) /\ 1 <= snd (fst x) <= MaxInt64 /\
    fst e = GetValueBytes o (encodeMessageKeyOffset (fst (fst x)) (snd (fst x)))) as Hall.
  { intros [k v] Hin [[p n] args] Hl. apply elem_of_range_entries in Hin as (Hv&L1&L2).
    apply below_spec in L2 as [?|L2]; [done|].
    destruct (listed_stored t o k v p n args) as (->&?&?&_); [done| |done..].
    apply in_range_prefix; [done..|]. by eapply listed_length. }
  apply (StronglySorted_omap entry_lt); [|done].
  intros e e' x y He He' Hlt Ex Ey. apply Hall in Ex as (Hp&Hn&Ek); [|done]. apply Hall in Ey as (Hp'&Hn'&Ek'); [|done].
  apply shard_range in Hp, Hp'. unfold entry_lt, blt in Hlt. rewrite Ek, Ek', !GetValueBytes_app, bytes_compare_app in Hlt.
  rewrite compare_message_key in Hlt by (split; unfold MaxInt64 in *; lia). unfold message_lt.
  destruct (Z.compare_spec (fst (fst x)) (fst (fst y))); [|by left|done].
  right. split; [done|]. by apply Z.compare_lt_iff.
Qed.
End range.

(** The loop of XRANGE collects the messages. *)
Lemma xrange_collect prefix l acc :
  foldl (fun r (e : bytes * bytes) => match xrange_entry prefix (fst e) (snd e) with Some x => r ++ [x] | None => r end) acc l =
  acc ++ (message_reply <$> omap (listed_message prefix) l).
Proof.
  revert acc. induction l as [|[k v] l IH]; intros acc; [by rewrite app_nil_r|]. cbn [foldl omap list_omap fst snd].
  rewrite xrange_entry_listed, IH. destruct (listed_message prefix (k, v)); [|done].
  cbn [fmap option_fmap option_map list_fmap]. by rewrite <- app_assoc.
Qed.

Lemma ParseInt_parse_id s n : parse_id s = inr n -> 0 <= n <= MaxInt64.
Proof.
  unfold parse_id. destruct (ParseInt s) as [v|] eqn:E; [|done]. apply ParseInt_range in E. unfold in_i64 in E.
  destruct (Z.ltb_spec v 0); [done|]. intros [= <-]. lia.
Qed.

Lemma checkID_range a x y : checkID a = inr (x, y) -> x <= MaxInt64 /\ y <= MaxInt64.
Proof.
  unfold checkID. repeat (case_bool_decide; [by intros [= <- <-]|]).
  destruct (Split x2d (ToLower a)) as [|s [|s' [|]]]; [done| | |done].
  - destruct (parse_id s) as [|n] eqn:E; [done|]. intros [= <- <-]. apply ParseInt_parse_id in E. unfold NotFound, MaxInt64 in *. lia.
  - destruct (parse_id s) as [|n] eqn:E; [done|]. destruct (parse_id s') as [|n'] eqn:E'; [done|]. intros [= <- <-].
    apply ParseInt_parse_id in E, E'. lia.
Qed.

Lemma xrange_bounds_ok o from to partition startOffset endOffset :
  xrange_bounds from to = inr (Some (partition, startOffset, endOffset)) -> partition <= o_Hash o ->
  range_ok o partition startOffset endOffset.
Proof.
  unfold xrange_bounds. destruct (checkID from) as [e|[x y]] eqn:E; [done|]. apply checkID_range in E as [Hx Hy].
  destruct (_ && _); [done|]. destruct (checkID to) as [e|[x' y']] eqn:E'; [done|]. apply checkID_range in E' as [Hx' Hy'].
  destruct ((x' <? 0) && _); [done|]. destruct (_ && negb _); [done|].
  destruct (_ && (_ <? _)) eqn:Hlt; [done|]. intros [= <- <- <-] Hp. split; [done|].
  unfold NoOffset in *. destruct (Z.geb_spec y 0), (Z.geb_spec y' 0);
    try (destruct (Z.geb_spec y' 0); [|lia]); cbn [andb] in Hlt; unfold MaxInt64 in *; lia.
Qed.

(** No key of a range is shorter than a prefix (every key of a collection has it). *)
Definition no_shorter (m : gmap bytes bytes) (start end_ p : bytes) : Prop :=
  forall k v, (k, v) ∈ range_entries start end_ m -> (length p <= length k)%nat.

(** C24. XRANGE on a stream: when the listing stays below COUNT, the reply has exactly the
    messages of the range with their identifiers and arguments, in the order of their
    partitions and numbers; when it reaches COUNT, the command fails (where the first
    COUNT messages are meant). The range is that of the identifiers, [-] and [+] being
    all partitions. *)
Theorem XRangeHandle_lists c t k o from to rest count partition startOffset endOffset :
  ready c t -> key_ok k -> good_header c t k -> find c t (dv t) k = Some o -> stream_ok t o ->
  xrange_bounds from to = inr (Some (partition, startOffset, endOffset)) -> partition <= o_Hash o ->
  xrange_count rest = inr count -> 0 < count ->
  let '(start, end_) := xrange_range o partition startOffset endOffset in
  no_shorter (t_view t) start end_ (value_prefix o) ->
  exists l : list (Z * Z * list bytes),
    StronglySorted message_lt l /\
    (forall p n args, (p, n, args) ∈ l <-> is_shard o p /\ 1 <= n <= MaxInt64 /\
       in_bounds partition startOffset endOffset p n /\ exists ts, messages t o p n = Some (ts, args)) /\
    XRangeHandle (k :: from :: to :: rest) t =
      if count <=? len (range_entries start end_ (t_view t))
      then Ret (RErr ReachLimit) (with_Err (Some ReachLimit) t)
      else Ret (RArr (message_reply <$> l)) t.
Proof.
  intros Hr Hk Hg Hf Hs Hb Hp Hc Hc0. pose proof (xrange_bounds_ok _ _ _ _ _ _ Hb Hp) as Hok.
  destruct (xrange_range _ _ _ _) as [start end_] eqn:Erange. intros Hlong.
  exists (range_messages t o partition startOffset endOffset). split; [by apply range_messages_sorted|]. split.
  { intros p n args. split.
    - intros Hin. destruct (range_messages_numbered t o Hs _ _ _ Hok p n args Hin) as [Hps Hn].
      split; [done|]. split; [done|]. by apply elem_of_range_messages in Hin.
    - intros (Hps&Hn&Hin). by apply elem_of_range_messages. }
  destruct (range_nonempty t o Hs _ _ _ Hok) as [Hne Hle].
  unfold XRangeHandle. assert ((len (k :: from :: to :: rest) <? 3) = false) as ->.
  { rewrite !len_cons. pose proof (len_nonneg rest). lia. }
  change (drop 3 _) with rest. cbn [arg nth]. rewrite Hb, Hc. destruct (Z.eqb_spec count 0); [lia|].
  assert (lookup StreamType k false t = Ret (o, None) t) as Hl.
  { assert (wp (lookup StreamType k false) t (fun r t' => r = (o, None) /\ t' = t)) as Hw.
    { by apply (wp_lookup_found c t k StreamType o); [..|apply Hs| |]. }
    apply wp_returns in Hw as (r&t'&->&->&->). done. }
  unfold bind at 1. rewrite Hl. destruct (Z.gtb_spec partition (o_Hash o)); [lia|].
  unfold range_messages. rewrite Erange in *. cbn [fst snd] in *.
  unfold bind at 1. rewrite (List_pure start end_ count _
    (fun r k v => match xrange_entry (length (GetValueBytes o [])) k v with Some x => r ++ [x] | None => r end));
    [|by apply (rd_up c)|done..|].
  2:{ intros k' v' Hv L1 L2 s. rewrite (proj2 (Nat.ltb_ge _ _)); [done|]. apply (Hlong k' v').
      by apply elem_of_range_entries. }
  rewrite xrange_collect. cbn [app]. destruct (Z.leb_spec count (len (range_entries start end_ (t_view t)))) as [Hle'|Hgt]; [done|].
  rewrite take_ge by (unfold len in Hgt; lia). done.
Qed.
End spec.
