(* ===== verification/ZSetSpec.v ===== *)
(** What the sorted-set commands promise: the entries of a sorted set are a finite map of
    scores and its mirror image by score, which every write keeps; ZADD, ZINCRBY and
    ZREM as operations on the map; ranges by score as slices of the mirror. *)

From stdpp Require Import sorting.
From S2P Require Import Prelude Xerror GoStd Utils Float Strconv Store Ranges Mem Object Reply.
From S2P Require Import ObjectSpec Counters Generic GenericSpec Strings StringsSpec.
From S2P Require Import HashCmd HashSpec Rank ZSet.
From Stdlib Require Import Init.Byte.

#[local] Open Scope Z_scope.

(** ** Scores *)

(** A number a score can be. *)
Definition is_score (s : float64) : Prop := in_u64 s /\ isNaN s = false.

Lemma EncodeFloat_inj a b : in_u64 a -> in_u64 b -> EncodeFloat a = EncodeFloat b -> a = b.
Proof.
  intros Ha Hb E. pose proof (DecodeFloat_EncodeFloat a [] Ha) as D.
  rewrite E, DecodeFloat_EncodeFloat in D by done. by injection D.
Qed.

Lemma score_key_inj a b m m' : in_u64 a -> in_u64 b ->
  EncodeScoreKey (float_number a) m = EncodeScoreKey (float_number b) m' -> a = b /\ m = m'.
Proof.
  intros Ha Hb E. apply (f_equal (drop 1)) in E. change (EncodeFloat a ++ m = EncodeFloat b ++ m') in E.
  apply app_inj_1 in E as [E ->]; [|by rewrite !length_EncodeFloat]. split; [|done]. by apply EncodeFloat_inj.
Qed.

Lemma member_key_inj m m' : EncodeMemberKey m = EncodeMemberKey m' -> m = m'.
Proof. intros E. by apply (f_equal (drop 1)) in E. Qed.

(** Two scores compare in exactly one way. *)
Lemma score_trichotomy a b : is_score a -> is_score b ->
  (flt a b = true /\ flt b a = false /\ feq a b = false) \/
  (flt a b = false /\ flt b a = false /\ feq a b = true) \/
  (flt a b = false /\ flt b a = true /\ feq a b = false).
Proof.
  intros [Ha Na] [Hb Nb]. unfold flt, feq. rewrite !fcompare_magnitude by done.
  rewrite (andb_comm (magnitude b =? 0)). rewrite (Z.compare_antisym (magnitude a) (magnitude b)).
  destruct (is_neg a), (is_neg b); try destruct (_ && _); try destruct (magnitude a ?= magnitude b);
    cbn; intuition congruence.
Qed.

Lemma feq_refl a : is_score a -> feq a a = true.
Proof. intros Ha. destruct (score_trichotomy a a Ha Ha) as [(H1&H2&_)|[(_&_&H)|(H1&H2&_)]]; congruence. Qed.

Lemma compare_scores a b : is_score a -> is_score b ->
  Number_Compare (float_number a) (float_number b) = if flt a b then -1 else if feq a b then 0 else 1.
Proof.
  intros Ha Hb. unfold Number_Compare. cbn [float_number IsInt Float64].
  destruct (score_trichotomy a b Ha Hb) as [(E1&E2&E3)|[(E1&E2&E3)|(E1&E2&E3)]]; by rewrite ?E1, ?E2, ?E3.
Qed.

(** ** The fields of a sorted set *)

Definition stored_score (b : bytes) : option float64 :=
  match DecodeValue b with inr v => DecodeFloat (v_Value v) | inl _ => None end.

(** The score of a member. *)
Definition score_of (g : bytes -> option bytes) (m : bytes) : option float64 :=
  g (EncodeMemberKey m) ≫= stored_score.

Definition score_key (s : float64) (m : bytes) : bytes := EncodeScoreKey (float_number s) m.

(** Every member has a score, the entries by score are those of the members, and there
    are no other entries. Sorted sets keep numbers ([is_score]); geo keys keep any cell. *)
Record scores_ok (P : float64 -> Prop) (g : bytes -> option bytes) : Prop := {
  zk_value : forall m b, g (EncodeMemberKey m) = Some b -> exists s, stored_score b = Some s /\ P s;
  zk_mirror : forall s m, in_u64 s -> is_Some (g (score_key s m)) <-> score_of g m = Some s;
  zk_shape : forall f, is_Some (g f) ->
    exists m, f = EncodeMemberKey m \/ exists s, in_u64 s /\ f = score_key s m
}.
#[global] Arguments zk_value {_}.
#[global] Arguments zk_mirror {_}.
#[global] Arguments zk_shape {_}.
Abbreviation zset_ok := (scores_ok is_score).

Class ScoreRange (P : float64 -> Prop) : Prop := score_range s : P s -> in_u64 s.
#[export] Instance is_score_range : ScoreRange is_score := fun s Hs => proj1 Hs.
#[export] Instance in_u64_range : ScoreRange in_u64 := fun s Hs => Hs.

Lemma score_of_ok P g m s : scores_ok P g -> score_of g m = Some s -> P s.
Proof.
  intros Hz. unfold score_of. destruct (g (EncodeMemberKey m)) as [b|] eqn:E; [|done]. cbn [mbind option_bind].
  destruct (zk_value g Hz m b E) as (s'&->&Hs). by intros [= <-].
Qed.

Lemma score_of_ext g h m : (forall f, g f = h f) -> score_of g m = score_of h m.
Proof. intros E. unfold score_of. by rewrite E. Qed.

Lemma scores_ok_ext P g h : (forall f, g f = h f) -> scores_ok P g -> scores_ok P h.
Proof.
  intros E [Hv Hm Hs]. split.
  - intros m b. rewrite <- E. apply Hv.
  - intros s m. rewrite <- E, <- (score_of_ext g h) by done. apply Hm.
  - intros f. rewrite <- E. apply Hs.
Qed.

(** What the writes do to the map of scores. *)
Definition put_score (m : bytes) (s : float64) (z : bytes -> option float64) (x : bytes) : option float64 :=
  if decide (x = m) then Some s else z x.
Definition del_score (m : bytes) (z : bytes -> option float64) (x : bytes) : option float64 :=
  if decide (x = m) then None else z x.

Definition score_value (ts : Z) (s : float64) : bytes := EncodeValue {| v_Timestamp := ts; v_Value := EncodeFloat s |}.
Definition mirror_value (ts : Z) : bytes := EncodeValue {| v_Timestamp := ts; v_Value := [] |}.

Lemma stored_score_value ts s : in_u64 ts -> in_u64 s -> stored_score (score_value ts s) = Some s.
Proof.
  intros Ht Hs. unfold stored_score, score_value. rewrite DecodeValue_EncodeValue by done. cbn [v_Value].
  rewrite <- (app_nil_r (EncodeFloat s)). by apply DecodeFloat_EncodeFloat.
Qed.

(** Both entries of a member. *)
Definition put_both (ts : Z) (m : bytes) (s : float64) (g : bytes -> option bytes) : bytes -> option bytes :=
  put_field (score_key s m) (mirror_value ts) (put_field (EncodeMemberKey m) (score_value ts s) g).
Definition del_both (m : bytes) (s : float64) (g : bytes -> option bytes) : bytes -> option bytes :=
  del_field (score_key s m) (del_field (EncodeMemberKey m) g).

Lemma member_not_score m s m' : EncodeMemberKey m <> score_key s m'.
Proof. intros E. by apply (f_equal head) in E. Qed.

(** Decides which entry a key is. *)
#[local] Ltac fields_cases :=
  unfold put_both, del_both, put_field, del_field in *;
  repeat match goal with
    | |- context [decide (?a = ?b)] => destruct (decide (a = b)) as [?E|?E]
    | Hf : context [decide (?a = ?b)] |- _ => destruct (decide (a = b)) as [?E|?E]
    | E : EncodeMemberKey _ = EncodeMemberKey _ |- _ => apply member_key_inj in E; subst
    | E : score_key _ _ = score_key _ _ |- _ => apply score_key_inj in E as [? ?]; [subst|assumption..]
    | E : EncodeMemberKey _ = score_key _ _ |- _ => exfalso; by apply member_not_score in E
    | E : score_key _ _ = EncodeMemberKey _ |- _ => exfalso; symmetry in E; by apply member_not_score in E
    end.

Lemma score_of_put ts m s g x : in_u64 ts -> in_u64 s ->
  score_of (put_both ts m s g) x = put_score m s (score_of g) x.
Proof.
  intros Ht Hs. unfold score_of at 1, put_score. fields_cases; cbn [mbind option_bind]; [by apply stored_score_value|congruence|congruence|done].
Qed.
Lemma score_of_del m s g x : score_of (del_both m s g) x = del_score m (score_of g) x.
Proof. unfold score_of at 1, del_score. fields_cases; first [done|congruence]. Qed.

(** A change of the entries of one member. *)
Lemma scores_ok_step P g h m :
  scores_ok P g ->
  (forall x, x <> m -> h (EncodeMemberKey x) = g (EncodeMemberKey x) /\
     forall s, in_u64 s -> h (score_key s x) = g (score_key s x)) ->
  (forall b, h (EncodeMemberKey m) = Some b -> exists s, stored_score b = Some s /\ P s) ->
  (forall s, in_u64 s -> is_Some (h (score_key s m)) <-> score_of h m = Some s) ->
  (forall f, is_Some (h f) ->
     is_Some (g f) \/ f = EncodeMemberKey m \/ exists s, in_u64 s /\ f = score_key s m) ->
  scores_ok P h.
Proof.
  intros Hz Hother Hb Hmir Hf. split.
  - intros x b. destruct (decide (x = m)) as [->|Hx]; [apply Hb|]. destruct (Hother x Hx) as [-> _]. by apply (zk_value _ Hz).
  - intros s x Hs. destruct (decide (x = m)) as [->|Hx]; [by apply Hmir|].
    destruct (Hother x Hx) as [E1 E2]. unfold score_of. rewrite E1, E2 by done. by apply (zk_mirror _ Hz).
  - intros f [Hg|[Hm|(s&Hs&Hm)]]%Hf; [by apply (zk_shape g Hz)|exists m; by left|exists m; right; by exists s].
Qed.

Lemma scores_ok_put `{ScoreRange P} ts m s g : scores_ok P g -> in_u64 ts -> P s -> score_of g m = None ->
  scores_ok P (put_both ts m s g).
Proof.
  intros Hz Ht HP Hg. pose proof (score_range s HP) as Hs.
  assert (forall s', in_u64 s' -> g (score_key s' m) = None) as Hno.
  { intros s' Hs'. destruct (g (score_key s' m)) eqn:E; [|done].
    assert (score_of g m = Some s') by (apply (zk_mirror g Hz); [done|by rewrite E]). congruence. }
  apply (scores_ok_step P g _ m Hz).
  - intros x Hx. split; [by fields_cases|]. intros s' Hs'. by fields_cases.
  - intros b Hb. exists s. split; [|done]. fields_cases; try done; injection Hb as <-; by apply stored_score_value.
  - intros s' Hs'. rewrite score_of_put by done. unfold put_score. rewrite decide_True by done.
    fields_cases; [by split|].
    rewrite Hno by done. split; [by intros []|]. congruence.
  - intros f Hf. fields_cases; [right; right; by exists s|by right; left|by left].
Qed.

Lemma scores_ok_update `{ScoreRange P} ts m s old g : scores_ok P g -> in_u64 ts -> P s -> score_of g m = Some old ->
  old <> s -> scores_ok P (del_field (score_key old m) (put_both ts m s g)).
Proof.
  intros Hz Ht HP Hg Hne. pose proof (score_range s HP) as Hs.
  pose proof (score_range old (score_of_ok _ _ _ _ Hz Hg)) as Ho.
  assert (score_of (del_field (score_key old m) (put_both ts m s g)) m = Some s) as Hnew.
  { unfold score_of. fields_cases; [|done]. cbn [mbind option_bind]. by apply stored_score_value. }
  apply (scores_ok_step P g _ m Hz).
  - intros x Hx. split; [by fields_cases|]. intros s' Hs'. by fields_cases.
  - intros b Hb. exists s. split; [|done]. unfold score_of in Hnew. by rewrite Hb in Hnew.
  - intros s' Hs'. rewrite Hnew. pose proof (zk_mirror g Hz s' m Hs') as Hm. rewrite Hg in Hm.
    fields_cases.
    + split; [by intros []|congruence].
    + by split.
    + rewrite Hm. split; [intros [= ->]; by destruct E|intros [= ->]; by destruct E0].
  - intros f Hf. fields_cases; [by destruct Hf|right; right; by exists s|by right; left|by left].
Qed.

Lemma scores_ok_del `{ScoreRange P} m s g : scores_ok P g -> score_of g m = Some s -> scores_ok P (del_both m s g).
Proof.
  intros Hz Hg. pose proof (score_range s (score_of_ok _ _ _ _ Hz Hg)) as Hs.
  apply (scores_ok_step P g _ m Hz).
  - intros x Hx. split; [by fields_cases|]. intros s' Hs'. by fields_cases.
  - intros b Hb. by fields_cases.
  - intros s' Hs'. rewrite score_of_del. unfold del_score. rewrite decide_True by done.
    pose proof (zk_mirror g Hz s' m Hs') as Hm. rewrite Hg in Hm. fields_cases; [split; [by intros []|done]|].
    rewrite Hm. split; [intros [= ->]; by destruct E|done].
  - intros f Hf. fields_cases; [by destruct Hf|by destruct Hf|by left].
Qed.

(** ** The number of members *)

Definition is_member_key (o : Object) (k : bytes) : bool := has_prefix (GetValueBytes o [MemberPrefix]) k.

Definition zcard (d : gmap bytes bytes) (o : Object) : Z :=
  Z.of_nat (size (base.filter (fun e => is_member_key o (fst e) = true) d)).

Lemma is_member_key_member o m : is_member_key o (GetValueBytes o (EncodeMemberKey m)) = true.
Proof.
  unfold is_member_key. rewrite has_prefix_spec. exists m.
  by rewrite !GetValueBytes_app, <- app_assoc.
Qed.
Lemma is_member_key_score o s m : is_member_key o (GetValueBytes o (score_key s m)) = false.
Proof.
  apply not_true_iff_false. unfold is_member_key. rewrite has_prefix_spec. intros [d E].
  rewrite !GetValueBytes_app, <- app_assoc in E. apply app_inv_head in E. by apply (f_equal head) in E.
Qed.

Lemma zcard_put_member d o m v :
  zcard (<[GetValueBytes o (EncodeMemberKey m) := v]> d) o =
  zcard d o + match d !! GetValueBytes o (EncodeMemberKey m) with None => 1 | Some _ => 0 end.
Proof.
  unfold zcard. pose proof (is_member_key_member o m) as Hm. set (k := GetValueBytes o _) in *.
  rewrite map_filter_insert_True by done. rewrite map_size_insert.
  destruct (d !! k) as [w|] eqn:E.
  - rewrite (map_lookup_filter_Some_2 _ _ k w) by done. by rewrite Z.add_0_r.
  - rewrite map_lookup_filter_None_2 by by left. by rewrite Nat2Z.inj_succ, <- Z.add_1_r.
Qed.

Lemma zcard_del_member d o m :
  zcard (delete (GetValueBytes o (EncodeMemberKey m)) d) o =
  zcard d o - match d !! GetValueBytes o (EncodeMemberKey m) with None => 0 | Some _ => 1 end.
Proof.
  unfold zcard. pose proof (is_member_key_member o m) as Hm. set (k := GetValueBytes o _) in *.
  rewrite map_filter_delete. destruct (d !! k) as [w|] eqn:E.
  - pose proof (map_lookup_filter_Some_2 (fun e => is_member_key o (fst e) = true) d k w E Hm) as Hf.
    set (f := base.filter _ d) in *.
    assert (size f = S (size (delete k f))) as ->; [|lia].
    rewrite <- (insert_delete_id f k w Hf) at 1. by rewrite map_size_insert_None by apply lookup_delete_eq.
  - rewrite delete_id by (apply map_lookup_filter_None_2; by left). lia.
Qed.

Lemma zcard_put_mirror d o s m v : zcard (<[GetValueBytes o (score_key s m) := v]> d) o = zcard d o.
Proof.
  unfold zcard. pose proof (is_member_key_score o s m) as Hm. set (k := GetValueBytes o _) in *.
  rewrite map_filter_insert_not'; [done|cbn [fst]; congruence|intros; cbn [fst]; congruence].
Qed.
Lemma zcard_del_mirror d o s m : zcard (delete (GetValueBytes o (score_key s m)) d) o = zcard d o.
Proof.
  unfold zcard. pose proof (is_member_key_score o s m) as Hm. set (k := GetValueBytes o _) in *.
  rewrite map_filter_delete_not; [done|]. intros w _. cbn [fst]. congruence.
Qed.

Section spec.
Context `{PlatformSpec}.

(** The counters are in step with the number of members. *)
Definition zin_step (c : Config) (o : Object) (t : Txn) : Prop :=
  DisableCount c && ObjectDisableCount o = false ->
  i64 (counted (t_view t) (count_prefix (t_UserId t) (t_DBId t) (sl (o_Value o)))) = zcard (dv t) o.

(** What a write to the sorted set [o] leaves: the scores [z], the number of members
    moved by [n], the entries consistent, the counters in step, the rest as it was. *)
Record scores_after (P : float64 -> Prop) (c : Config) (o : Object) (t t' : Txn) (z : bytes -> option float64)
    (n : Z) : Prop := {
  za_env : same_env t t';
  za_ready : ready c t';
  za_ok : scores_ok P (fields (dv t') o);
  za_score : forall m, score_of (fields (dv t') o) m = z m;
  za_card : zcard (dv t') o = zcard (dv t) o + n;
  za_step : zin_step c o t';
  za_frame : forall x, (forall f, x <> GetValueBytes o f) -> dv t' !! x = dv t !! x
}.
#[global] Arguments za_env {_}.
#[global] Arguments za_ready {_}.
#[global] Arguments za_ok {_}.
#[global] Arguments za_score {_}.
#[global] Arguments za_card {_}.
#[global] Arguments za_step {_}.
#[global] Arguments za_frame {_}.
Abbreviation zset_after := (scores_after is_score).

Definition zscores (o : Object) (t : Txn) : bytes -> option float64 := score_of (fields (dv t) o).

Lemma scores_after_refl P c o t : ready c t -> scores_ok P (fields (dv t) o) -> zin_step c o t ->
  scores_after P c o t t (zscores o t) 0.
Proof. intros. split; try done. lia. Qed.

Lemma scores_after_trans P c o t1 t2 t3 z2 z3 n2 n3 :
  scores_after P c o t1 t2 z2 n2 -> scores_after P c o t2 t3 z3 n3 -> scores_after P c o t1 t3 z3 (n2 + n3).
Proof.
  intros [E1 R1 K1 S1 C1 T1 F1] [E2 R2 K2 S2 C2 T2 F2]. split; try done; [by etrans|lia|].
  intros x Hx. by rewrite F2, F1.
Qed.

Lemma scores_after_eq P c o t t' z z' n n' : scores_after P c o t t' z n -> (forall m, z m = z' m) -> n = n' ->
  scores_after P c o t t' z' n'.
Proof. intros [E R K S C T F] Hz <-. split; try done. intros m. by rewrite S. Qed.

(** No header changes. *)
Lemma scores_after_find P c o t t' z n k : scores_after P c o t t' z n -> find c t (dv t') k = find c t (dv t) k.
Proof.
  intros Hf. apply find_ext, (za_frame _ _ _ _ _ _ Hf). intros f E. symmetry in E. by apply header_key_value in E.
Qed.

(** ** Writes of one field *)

Definition member_ok (m : bytes) : Prop := len m < MAX_KEY_SIZE - 30.

(** The data and the counters after some writes: the fields [g], the members moved by
    [n], the counters by [dc]. *)
Record zwrote (c : Config) (o : Object) (t t' : Txn) (g : bytes -> option bytes) (n dc : Z) : Prop := {
  zw_env : same_env t t';
  zw_ready : ready c t';
  zw_fields : forall f, fields (dv t') o f = g f;
  zw_card : zcard (dv t') o = zcard (dv t) o + n;
  zw_moved : counter_moved c o t t' dc;
  zw_frame : forall x, (forall f, x <> GetValueBytes o f) -> dv t' !! x = dv t !! x
}.

(** The fields after the write of [v], or the deletion, of [f]. *)
Definition set_field (f : bytes) (v : option bytes) (g : bytes -> option bytes) : bytes -> option bytes :=
  match v with Some v => put_field f v g | None => del_field f g end.

Lemma wp_zfield c o f v g n dc n1 t0 t (Q : option error -> Txn -> Prop) :
  zwrote c o t0 t g n dc -> collection t0 o -> len f < MAX_KEY_SIZE - 21 ->
  (forall v', v = Some v' -> 0 < len v' < MAX_VALUE_SIZE) ->
  zcard (put_or_delete (dv t) (GetValueBytes o f) v) o = zcard (dv t) o + n1 ->
  (forall t', zwrote c o t0 t' (set_field f v g) (n + n1) dc -> Q None t') ->
  wp (match v with None => Del (GetValueBytes o f) | Some v => Put (GetValueBytes o f) v end) t Q.
Proof.
  intros [He Hr Hg Hn Hm Hf] Hc Hlen Hv Hcard HQ.
  apply (wp_put_data c o); [done|apply GetValueBytes_data| |done|].
  { rewrite len_GetValueBytes, (cl_value _ _ Hc). lia. }
  intros t' Hw Hmv. pose proof (dw_view _ _ _ _ Hw) as Ev. apply HQ. split.
  - etrans; [exact He|apply Hw].
  - apply Hw.
  - intros x. rewrite Ev. destruct v as [v|]; cbn [put_or_delete set_field]; [rewrite fields_put|rewrite fields_del];
      unfold put_field, del_field; by rewrite Hg.
  - rewrite Ev, Hcard. lia.
  - rewrite <- (Z.add_0_r dc). eapply counter_moved_trans; [exact He|done|done].
  - intros x Hx. rewrite Ev, <- Hf by done.
    destruct v; cbn [put_or_delete]; [apply lookup_insert_ne|apply lookup_delete_ne]; by intros <-; apply (Hx f).
Qed.

Lemma zwrote_refl c o t : ready c t -> zwrote c o t t (fields (dv t) o) 0 0.
Proof. intros Hr. split; try done; [lia|]. intros _. cbv zeta. by rewrite Z.add_0_r. Qed.

(** Writes that keep the entries consistent and move the counters with the members. *)
Lemma zwrote_after P c o t t' g n :
  zwrote c o t t' g n n -> scores_ok P g -> zin_step c o t -> zcard (dv t) o + n <= MaxInt64 ->
  scores_after P c o t t' (score_of g) n.
Proof.
  intros [He Hr Hg Hn Hm Hf] Hok Hi Hb. split; try done.
  - eapply scores_ok_ext; [|exact Hok]. intros f. by rewrite Hg.
  - intros m. by apply score_of_ext.
  - intros Hc. specialize (Hm Hc). specialize (Hi Hc). cbv zeta in Hm.
    rewrite (se_UserId _ _ He), (se_DBId _ _ He), Hm, <- i64_add_l, Hi, <- Hn. apply i64_small.
    rewrite <- Hn in Hb. unfold in_i64, MinInt64, zcard in *. lia.
Qed.

(** ** [PutZset] *)

Lemma len_member_key m : len (EncodeMemberKey m) = 1 + len m.
Proof. unfold EncodeMemberKey. apply len_cons. Qed.
Lemma len_score_key s m : len (score_key s m) = 9 + len m.
Proof.
  unfold score_key, EncodeScoreKey, len. cbn [length]. rewrite length_app.
  change (Number_Encode (float_number s)) with (EncodeFloat s). rewrite length_EncodeFloat. lia.
Qed.
Lemma score_value_ok ts s v : Some (score_value ts s) = Some v -> 0 < len v < MAX_VALUE_SIZE.
Proof.
  intros [= <-]. unfold score_value. rewrite len_EncodeValue. cbn [v_Value]. unfold len.
  rewrite length_EncodeFloat. unfold MAX_VALUE_SIZE. lia.
Qed.
Lemma mirror_value_ok ts v : Some (mirror_value ts) = Some v -> 0 < len v < MAX_VALUE_SIZE.
Proof. intros [= <-]. unfold mirror_value. rewrite len_EncodeValue. cbn [v_Value]. unfold len, MAX_VALUE_SIZE. simpl. lia. Qed.

Lemma missing_member P o t m : scores_ok P (fields (dv t) o) -> zscores o t m = None ->
  fields (dv t) o (EncodeMemberKey m) = None.
Proof.
  intros Hz. unfold zscores, score_of. destruct (fields _ _ _) as [b|] eqn:E; [|done].
  destruct (zk_value _ Hz m b E) as (s&E2&_). cbn [mbind option_bind]. by rewrite E2.
Qed.
Lemma present_member o t m s : zscores o t m = Some s ->
  exists b, fields (dv t) o (EncodeMemberKey m) = Some b /\ stored_score b = Some s.
Proof. unfold zscores, score_of. destruct (fields _ _ _) as [b|]; [|done]. intros Hb. by exists b. Qed.

(** The part the three uses share: writing or deleting both entries. *)
Lemma wp_both c o m s v w t (k : M (Z * option error)) (R : Z * option error -> Txn -> Prop) :
  ready c t -> collection t o -> member_ok m ->
  (forall v', v = Some v' -> 0 < len v' < MAX_VALUE_SIZE) ->
  (forall v', w = Some v' -> 0 < len v' < MAX_VALUE_SIZE) ->
  let n := zcard (put_or_delete (dv t) (GetValueBytes o (EncodeMemberKey m)) v) o - zcard (dv t) o in
  (forall t', zwrote c o t t' (set_field (score_key s m) w (set_field (EncodeMemberKey m) v (fields (dv t) o))) n 0 ->
     wp k t' R) ->
  wp (do! match v with
          | None => Del (GetValueBytes o (EncodeMemberKey m))
          | Some v => Put (GetValueBytes o (EncodeMemberKey m)) v
          end
      else (fun e => ret (0, Some e)) in
      do! match w with
          | None => Del (GetValueBytes o (score_key s m))
          | Some w => Put (GetValueBytes o (score_key s m)) w
          end
      else (fun e => ret (0, Some e)) in k) t R.
Proof.
  intros Hr Hc Hm Hv Hw n Hk. unfold member_ok in Hm.
  apply wp_on_done. eapply (wp_zfield c o (EncodeMemberKey m) v); [by apply (zwrote_refl c o t)|done| |done| |].
  { rewrite len_member_key. lia. }
  { instantiate (1 := n). unfold n. lia. }
  intros t1 Hz1. apply wp_on_done. eapply (wp_zfield c o (score_key s m) w); [exact Hz1|done| |done| |].
  { rewrite len_score_key. lia. }
  { instantiate (1 := 0). destruct w; cbn [put_or_delete]; [rewrite zcard_put_mirror|rewrite zcard_del_mirror]; lia. }
  intros t2 Hz2. apply Hk. by rewrite Z.add_0_r in Hz2.
Qed.

(** The counter after both entries. *)
Lemma wp_counted c o hv n g t0 t (R : Z * option error -> Txn -> Prop) :
  zwrote c o t0 t g n 0 -> collection t0 o ->
  (forall t' r, zwrote c o t0 t' g n n -> R (r, None) t') ->
  wp (let! c := get_config in
      if ObjectDisableCount o && DisableCount c then ret (0, None)
      else
        let! (count, err) :=
          GetCount (t_UserId t0) (t_DBId t0) (o_Hash o) KeyPrefix (sl (o_Value o)) hv in
        match err with
        | None | Some KeyNotFound =>
            let count := set_c (c_Timestamp count) (i64 (c_Value count + n)) count in
            let! err := SetCount count in
            ret (c_Value count, err)
        | Some e => ret (0, Some e)
        end) t R.
Proof.
  intros [He Hr Hg Hn Hm Hf] Hc HR. apply wp_bind, (wp_config c); [done|].
  destruct (ObjectDisableCount o && DisableCount c) eqn:Edc.
  { apply HR. split; try done. intros Hd. by rewrite andb_comm, Edc in Hd. }
  rewrite <- (se_UserId _ _ He), <- (se_DBId _ _ He).
  apply (wp_count_step c o hv n t); [done|rewrite (cl_value _ _ Hc); lia|].
  intros t' r Hw Hmv. destruct Hw as [He' Hr' Hv']. apply HR. split; [by etrans|done|..].
  - intros f. unfold fields in *. by rewrite Hv'.
  - by rewrite Hv'.
  - by eapply (counter_moved_trans c o t0 t t' 0 n).
  - intros x Hx. rewrite Hv'. by apply Hf.
Qed.

(** Adding a member, moving one, and removing one. *)
Lemma wp_PutZset_new `{ScoreRange P} c o m s q old t (R : Z * option error -> Txn -> Prop) :
  ready c t -> collection t o -> scores_ok P (fields (dv t) o) -> zin_step c o t ->
  member_ok m -> P s -> Number_Encode q = EncodeFloat s -> zscores o t m = None -> zcard (dv t) o < MaxInt64 ->
  (forall t' r, scores_after P c o t t' (put_score m s (zscores o t)) 1 -> R (r, None) t') ->
  wp (PutZset o (GetValueBytes o (EncodeMemberKey m)) m q old 1) t R.
Proof.
  intros Hr Hc Hz Hi Hm HP Hq Hn Hmax HR. pose proof (score_range s HP) as Hs. pose proof (missing_member _ _ _ _ Hz Hn) as Hg.
  unfold PutZset, EncodeScoreKey. rewrite Hq. apply wp_bind, wp_get_txn.
  refine (wp_both c o m s (Some (score_value _ s)) (Some (mirror_value _)) t _ _ Hr Hc Hm
    (score_value_ok _ _) (mirror_value_ok _) _).
  cbn [put_or_delete set_field]. rewrite zcard_put_member. unfold fields in Hg. rewrite Hg.
  replace (zcard (dv t) o + 1 - zcard (dv t) o) with 1 by lia. intros t1 Hz1.
  apply (wp_counted c o (Some m) 1 _ t t1 R Hz1 Hc). intros t2 r Hz2. apply HR.
  eapply scores_after_eq; [apply (zwrote_after P _ _ _ _ _ _ Hz2)| |done]; [|done|lia|].
  - apply scores_ok_put; try done. apply Hr.
  - intros x. apply score_of_put; [apply Hr|done].
Qed.

Lemma wp_PutZset_move `{ScoreRange P} c o m s old q qo t (R : Z * option error -> Txn -> Prop) :
  ready c t -> collection t o -> scores_ok P (fields (dv t) o) -> zin_step c o t ->
  member_ok m -> P s -> Number_Encode q = EncodeFloat s -> zscores o t m = Some old -> Number_Encode qo = EncodeFloat old -> old <> s -> zcard (dv t) o <= MaxInt64 ->
  (forall t' r, scores_after P c o t t' (put_score m s (zscores o t)) 0 -> R (r, None) t') ->
  wp (PutZset o (GetValueBytes o (EncodeMemberKey m)) m q qo 0) t R.
Proof.
  intros Hr Hc Hz Hi Hm HP Hq Hn Hqo Hne Hmax HR. pose proof (score_range s HP) as Hs. destruct (present_member _ _ _ _ Hn) as (b&Hg&_).
  unfold PutZset, EncodeScoreKey. rewrite Hq, Hqo. apply wp_bind, wp_get_txn.
  refine (wp_both c o m s (Some (score_value _ s)) (Some (mirror_value _)) t _ _ Hr Hc Hm
    (score_value_ok _ _) (mirror_value_ok _) _).
  cbn [put_or_delete set_field]. rewrite zcard_put_member. unfold fields in Hg. rewrite Hg.
  replace (zcard (dv t) o + 0 - zcard (dv t) o) with 0 by lia. intros t1 Hz1.
  apply wp_bind. refine (wp_zfield c o (score_key old m) None _ 0 0 0 t t1 _ Hz1 Hc _ _ _ _); [|done| |].
  { rewrite len_score_key. unfold member_ok in Hm. lia. }
  { cbn [put_or_delete]. rewrite zcard_del_mirror. lia. }
  intros t2 Hz2. apply HR.
  eapply scores_after_eq; [apply (zwrote_after P _ _ _ _ _ _ Hz2)| |done]; [|done|lia|].
  - apply scores_ok_update; try done. apply Hr.
  - intros x. unfold zscores.
    rewrite <- (score_of_put (t_Timestamp t) m s (fields (dv t) o)) by (first [apply Hr | done]).
    unfold score_of, set_field, del_field. rewrite decide_False; [done|apply member_not_score].
Qed.

Lemma wp_PutZset_del `{ScoreRange P} c o m s q old t (R : Z * option error -> Txn -> Prop) :
  ready c t -> collection t o -> scores_ok P (fields (dv t) o) -> zin_step c o t ->
  member_ok m -> zscores o t m = Some s -> Number_Encode q = EncodeFloat s -> zcard (dv t) o <= MaxInt64 ->
  (forall t' r, scores_after P c o t t' (del_score m (zscores o t)) (-1) -> R (r, None) t') ->
  wp (PutZset o (GetValueBytes o (EncodeMemberKey m)) m q old (-1)) t R.
Proof.
  intros Hr Hc Hz Hi Hm Hn Hq Hmax HR. destruct (present_member _ _ _ _ Hn) as (b&Hg&_).
  unfold PutZset, EncodeScoreKey. rewrite Hq. apply wp_bind, wp_get_txn.
  refine (wp_both c o m s None None t _ _ Hr Hc Hm _ _ _); [done..|].
  cbn [put_or_delete set_field]. rewrite zcard_del_member. unfold fields in Hg. rewrite Hg.
  replace (zcard (dv t) o - 1 - zcard (dv t) o) with (-1) by lia. intros t1 Hz1.
  apply (wp_counted c o (Some m) (-1) _ t t1 R Hz1 Hc). intros t2 r Hz2. apply HR.
  eapply scores_after_eq; [apply (zwrote_after P _ _ _ _ _ _ Hz2)| |done]; [|done|lia|].
  - by apply scores_ok_del.
  - intros x. apply score_of_del.
Qed.

(** ** ZADD and ZREM on one member *)

(** Whether GT and LT let a member of score [old] take the score [s]. *)
Definition allowed (opt : checkOption) (s old : float64) : bool :=
  (negb (has_check opt CheckGT) || flt old s) && (negb (has_check opt CheckLT) || flt s old).

(** The score ZADD reports, the one the member has afterwards, and what the member adds
    to the count; [None] is a sum that is not a number. *)
Definition zadd_spec (opt : checkOption) (s : float64) (old : option float64) :
    option (float64 * option float64 * Z) :=
  match old with
  | None => Some (if has_check opt CheckExist then (0, None, 0) else (s, Some s, 1))
  | Some old =>
      let s := if co_Incr opt then fadd s old else s in
      if has_check opt CheckNotExist then Some (0, Some old, 0)
      else if isNaN s then None
      else if negb (allowed opt s old) then Some (old, Some old, 0)
      else if feq s old then Some (s, Some old, 0)
      else Some (s, Some s, if co_Changed opt then 1 else 0)
  end.

(** One member when it is new. *)
Definition grown (old new : option float64) : Z :=
  match old, new with None, Some _ => 1 | _, _ => 0 end.

Definition new_score (m : bytes) (s : option float64) (z : bytes -> option float64) : bytes -> option float64 :=
  fun x => if decide (x = m) then s else z x.

Lemma wp_member_Get c o m t (Q : error + bytes -> Txn -> Prop) :
  ready c t -> collection t o -> member_ok m ->
  Q (match fields (dv t) o (EncodeMemberKey m) with Some v => inr v | None => inl KeyNotFound end) t ->
  wp (Get (GetValueBytes o (EncodeMemberKey m))) t Q.
Proof.
  intros Hr Hc Hm HQ. apply (wp_field_Get c); [done..| |done].
  unfold field_ok. rewrite len_member_key. unfold member_ok in Hm. lia.
Qed.

(** Reading a stored score. *)
Lemma decode_stored b s : stored_score b = Some s ->
  exists v, DecodeValue b = inr v /\
    forall t, decode_number (mkNumber false 0 0) (v_Value v) t = Ret (float_number s) t.
Proof.
  unfold stored_score. destruct (DecodeValue b) as [e|v]; [done|]. intros E. exists v. split; [done|].
  intros t. unfold decode_number, Number_Decode. cbn [IsInt]. by rewrite E.
Qed.

Lemma scores_after_same P c o t m : ready c t -> scores_ok P (fields (dv t) o) -> zin_step c o t ->
  scores_after P c o t t (new_score m (zscores o t m) (zscores o t)) 0.
Proof.
  intros Hr Hz Hi. eapply scores_after_eq; [by apply (scores_after_refl _ c)| |done].
  intros x. unfold new_score. destruct (decide (x = m)) as [->|]; done.
Qed.

(** The comparisons of the code on scores. *)
Lemma compare_le s old : is_score s -> is_score old ->
  (Number_Compare (float_number s) (float_number old) <=? 0) = negb (flt old s).
Proof.
  intros Hs Ho. rewrite compare_scores by done.
  destruct (score_trichotomy s old Hs Ho) as [(E1&E2&E3)|[(E1&E2&E3)|(E1&E2&E3)]]; by rewrite E1, E2, ?E3.
Qed.
Lemma compare_ge s old : is_score s -> is_score old ->
  (Number_Compare (float_number s) (float_number old) >=? 0) = negb (flt s old).
Proof.
  intros Hs Ho. rewrite compare_scores by done. by destruct (flt s old), (feq s old).
Qed.
Lemma compare_eq s old : is_score s -> is_score old ->
  (Number_Compare (float_number s) (float_number old) =? 0) = feq s old.
Proof.
  intros Hs Ho. rewrite compare_scores by done.
  destruct (score_trichotomy s old Hs Ho) as [(E1&E2&E3)|[(E1&E2&E3)|(E1&E2&E3)]]; by rewrite E1, E3.
Qed.

Lemma zadd_refines c o m s opt t :
  ready c t -> collection t o -> IsGeo o = false -> zset_ok (fields (dv t) o) -> zin_step c o t ->
  member_ok m -> is_score s -> zcard (dv t) o < MaxInt64 ->
  wp (zadd o m (float_number s) opt) t (fun r t' =>
    match zadd_spec opt s (zscores o t m) with
    | None => r = inl (ErrResultNan : error) /\ t' = t
    | Some (q, new, n) => r = inr (float_number q, n) /\
        zset_after c o t t' (new_score m new (zscores o t)) (grown (zscores o t m) new)
    end).
Proof.
  intros Hr Hc Hgeo Hz Hi Hm Hs Hmax. pose proof (scores_after_same _ c o t m Hr Hz Hi) as Hsame.
  unfold zadd. assert (Number_IsNan (float_number s) = false) as -> by apply Hs. rewrite Hgeo.
  apply wp_bind, (wp_member_Get c); [done..|].
  destruct (zscores o t m) as [old|] eqn:Eold; unfold zadd_spec.
  2: { rewrite (missing_member _ o t m Hz Eold). destruct (has_check opt CheckExist); [by split|].
    apply wp_bind, (wp_PutZset_new (P := is_score) c o m s (float_number s)); [done..|]. by intros t' r Ha. }
  destruct (present_member _ _ _ _ Eold) as (b&->&Hb). pose proof (score_of_ok _ _ _ _ Hz Eold) as Ho.
  destruct (has_check opt CheckNotExist); [by split|].
  destruct (decode_stored b old Hb) as (v&->&Hdec). apply wp_bind. eapply returns_wp; [apply Hdec|].
  assert ((if co_Incr opt then Number_Add (float_number s) (float_number old) else float_number s) =
    float_number (if co_Incr opt then fadd s old else s)) as -> by by destruct (co_Incr opt).
  assert (in_u64 (if co_Incr opt then fadd s old else s)) as Hu.
  { destruct (co_Incr opt); [apply fadd_range|apply Hs]. }
  set (s' := if co_Incr opt then fadd s old else s) in *. clearbody s'.
  change (Number_IsNan (float_number s')) with (isNaN s'). destruct (isNaN s') eqn:En; [done|].
  assert (is_score s') as Hs' by done. rewrite compare_le, compare_ge, compare_eq by done.
  unfold allowed. destruct (has_check opt CheckGT), (has_check opt CheckLT), (flt old s') eqn:E1, (flt s' old) eqn:E2;
    cbn [negb orb andb]; try (by split);
    (destruct (feq s' old) eqn:E3; [by split|];
     apply wp_bind, (wp_PutZset_move (P := is_score) c o m s' old (float_number s') (float_number old)); [done..| |lia|by intros t' r Ha];
     intros ->; by rewrite feq_refl in E3).
Qed.

Lemma zrem_refines `{ScoreRange P} c o m t :
  ready c t -> collection t o -> scores_ok P (fields (dv t) o) -> zin_step c o t ->
  member_ok m -> zcard (dv t) o <= MaxInt64 ->
  wp (zrem o m) t (fun r t' =>
    r = inr (bool_decide (is_Some (zscores o t m))) /\
    scores_after P c o t t' (new_score m None (zscores o t)) (match zscores o t m with Some _ => -1 | None => 0 end)).
Proof.
  intros Hr Hc Hz Hi Hm Hmax. pose proof (scores_after_same _ c o t m Hr Hz Hi) as Hsame.
  unfold zrem. apply wp_bind, (wp_member_Get c); [done..|].
  destruct (zscores o t m) as [s|] eqn:Es; [|by rewrite (missing_member _ o t m Hz Es)].
  destruct (present_member _ _ _ _ Es) as (b&->&Hb). destruct (decode_stored b s Hb) as (v&->&Hdec).
  apply wp_bind. eapply returns_wp; [apply Hdec|].
  apply wp_bind, (wp_PutZset_del (P := P) c o m s (float_number s)); [done..|]. by intros t' r Ha.
Qed.

(** ** The commands on a key that holds a sorted set *)

Record zholds (c : Config) (t : Txn) (k : bytes) (o : Object) : Prop := {
  zh_find : find c t (dv t) k = Some o;
  zh_type : o_Type o = ZsetType;
  zh_ok : zset_ok (fields (dv t) o);
  zh_step : zin_step c o t
}.

Lemma zholds_collection c t k o : zholds c t k o -> collection t o /\ IsGeo o = false.
Proof.
  intros Hh. unfold IsGeo. rewrite (zh_type _ _ _ _ Hh). split; [|done].
  apply (find_compound c t k); [|apply Hh]. unfold IsSimple. by rewrite (zh_type _ _ _ _ Hh).
Qed.

Lemma zholds_after c t t' k o z n : zholds c t k o -> zset_after c o t t' z n -> zholds c t' k o.
Proof.
  intros [Hf Hy _ _] Ha. split; [|done|apply Ha|apply Ha].
  rewrite (find_env c t t') by apply Ha. by erewrite scores_after_find by exact Ha.
Qed.

(** Putting members one after the other: what they add to the count and to the number of
    members, and the scores after. [step] gives the score of one member after it was
    [old], and what it adds to the count. *)
Fixpoint put_all {A} (step : A -> option float64 -> option float64 * Z) (ms : list (bytes * A))
    (z : bytes -> option float64) : Z * Z * (bytes -> option float64) :=
  match ms with
  | [] => (0, 0, z)
  | (m, a) :: ms =>
      let '(new, n) := step a (z m) in
      let '(count, g, z') := put_all step ms (new_score m new z) in
      (n + count, grown (z m) new + g, z')
  end.

Lemma put_all_ext {A} step (ms : list (bytes * A)) y z : (forall m, y m = z m) ->
  fst (put_all step ms y) = fst (put_all step ms z) /\
  forall m, snd (put_all step ms y) m = snd (put_all step ms z) m.
Proof.
  revert y z. induction ms as [|[m s] ms IH]; intros y z E; [done|]. cbn [put_all]. rewrite E.
  destruct (step s (z m)) as [new n].
  destruct (IH (new_score m new y) (new_score m new z)) as [E1 E2].
  { intros x. unfold new_score. by destruct (decide _). }
  destruct (put_all step ms (new_score m new y)) as [[? ?] ?], (put_all step ms (new_score m new z)) as [[? ?] ?].
  cbn [fst snd] in *. split; [congruence|done].
Qed.

(** ZADD without INCR. *)
Definition zadd_step (opt : checkOption) (s : float64) (old : option float64) : option float64 * Z :=
  let '(_, new, n) := default (0, old, 0) (zadd_spec opt s old) in (new, n).
Definition zadd_all (opt : checkOption) : list (bytes * float64) -> (bytes -> option float64) ->
    Z * Z * (bytes -> option float64) := put_all (zadd_step opt).

Definition entry_ok (e : bytes * float64) : Prop := member_ok (fst e) /\ is_score (snd e).

Lemma zadd_spec_number opt s old : co_Incr opt = false -> is_score s -> is_Some (zadd_spec opt s old).
Proof.
  intros Hi [_ Hs]. unfold zadd_spec. rewrite Hi, Hs. destruct old; [|done].
  repeat (destruct (has_check _ _) || destruct (negb _) || destruct (feq _ _)); eauto.
Qed.

Lemma grown_bounds old new : 0 <= grown old new <= 1.
Proof. by destruct old, new. Qed.

Lemma zaddMembers_loop_puts {P A} (f : A -> Number) step (ok : bytes * A -> Prop) c o opt ms count q t :
  (forall m a t, ok (m, a) -> ready c t -> collection t o -> scores_ok P (fields (dv t) o) -> zin_step c o t ->
     zcard (dv t) o < MaxInt64 ->
     let '(new, n) := step a (zscores o t m) in
     wp (zadd o m (f a) opt) t (fun r t' => (exists q', r = inr (q', n)) /\
       scores_after P c o t t' (new_score m new (zscores o t)) (grown (zscores o t m) new))) ->
  ready c t -> collection t o -> scores_ok P (fields (dv t) o) -> zin_step c o t ->
  Forall ok ms -> zcard (dv t) o + len ms <= MaxInt64 ->
  let '(n, g, z) := put_all step ms (zscores o t) in
  wp (zaddMembers_loop o (prod_map id f <$> ms) opt count q) t (fun r t' =>
    (exists q', r = inr (count + n, q')) /\ scores_after P c o t t' z g).
Proof.
  intros Hstep. revert count q t.
  induction ms as [|[m s] ms IH]; intros count q t Hr Hc Hz Hi Hok Hmax; cbn [put_all].
  { apply wp_ret. split; [exists q; by rewrite Z.add_0_r|by apply scores_after_refl]. }
  apply Forall_cons in Hok as [Hm Hok]. rewrite len_cons in Hmax.
  pose proof (len_nonneg ms) as Hlen. cbn [zaddMembers_loop fmap list_fmap prod_map].
  pose proof (Hstep m s t Hm Hr Hc Hz Hi ltac:(lia)) as Hw. destruct (step s (zscores o t m)) as [new n].
  assert (forall t1, scores_after P c o t t1 (new_score m new (zscores o t)) (grown (zscores o t m) new) ->
    let '(n2, g2, z2) := put_all step ms (new_score m new (zscores o t)) in
    forall q1, wp (zaddMembers_loop o (prod_map id f <$> ms) opt (count + n) q1) t1 (fun r t' =>
      (exists q', r = inr (count + n + n2, q')) /\
      scores_after P c o t t' z2 (grown (zscores o t m) new + g2))) as Hrest.
  { intros t1 Ha. pose proof (put_all_ext step ms (zscores o t1) _ (za_score _ _ _ _ _ _ Ha)) as [E1 E2].
    pose proof (grown_bounds (zscores o t m) new) as Hg.
    assert (zcard (dv t1) o + len ms <= MaxInt64) as Hmax1 by (rewrite (za_card _ _ _ _ _ _ Ha); lia).
    specialize (fun q1 => IH (count + n) q1 t1 (za_ready _ _ _ _ _ _ Ha)
      (collection_env _ _ _ (za_env _ _ _ _ _ _ Ha) Hc) (za_ok _ _ _ _ _ _ Ha) (za_step _ _ _ _ _ _ Ha) Hok Hmax1).
    destruct (put_all step ms (zscores o t1)) as [[n1 g1] z1], (put_all step ms (new_score m new _)) as [[n2 g2] z2].
    cbn [fst snd] in E1, E2. injection E1 as -> ->. intros q2. eapply wp_mono; [apply IH|].
    intros r t' [Hq Ha2]. split; [done|]. eapply scores_after_eq; [by eapply scores_after_trans|done|done]. }
  destruct (put_all step ms (new_score m new _)) as [[n2 g2] z2].
  apply wp_on_value. eapply wp_mono; [exact Hw|]. intros r t1 [[q1 ->] Ha].
  eapply wp_mono; [by apply Hrest|]. intros r t' [[q' ->] Ha2]. split; [|done]. exists q'. by rewrite Z.add_assoc.
Qed.

Lemma zaddMembers_loop_refines c o opt ms count q t :
  ready c t -> collection t o -> IsGeo o = false -> zset_ok (fields (dv t) o) -> zin_step c o t ->
  co_Incr opt = false -> Forall entry_ok ms -> zcard (dv t) o + len ms <= MaxInt64 ->
  let '(n, g, z) := zadd_all opt ms (zscores o t) in
  wp (zaddMembers_loop o (prod_map id float_number <$> ms) opt count q) t (fun r t' =>
    (exists q', r = inr (count + n, q')) /\ zset_after c o t t' z g).
Proof.
  intros Hr Hc Hgeo Hz Hi Hincr Hok Hmax. apply (zaddMembers_loop_puts _ _ entry_ok); try done.
  clear t Hr Hc Hz Hi Hmax. intros m s t [Hm Hs] Hr Hc Hz Hi Hmax. cbn [fst snd] in Hm, Hs.
  pose proof (zadd_refines c o m s opt t Hr Hc Hgeo Hz Hi Hm Hs Hmax) as Hw. unfold zadd_step.
  destruct (zadd_spec_number opt s (zscores o t m) Hincr Hs) as [[[q1 new] n] E]. rewrite E in Hw |- *. cbn [default].
  eapply wp_mono; [exact Hw|]. intros r t' [-> Ha]. split; [by eexists|done].
Qed.

Lemma parse_score_ok a s : parse_score a = Some s -> is_score s.
Proof.
  unfold parse_score. destruct (ParseFloat a) as [f|] eqn:E; [|done]. destruct (isNaN f) eqn:En; [done|].
  intros [= <-]. split; [by eapply ParseFloat_range|done].
Qed.

Lemma set_member_ok m s l : entry_ok (m, s) -> Forall entry_ok l -> Forall entry_ok (set_member m s l).
Proof.
  intros He. induction 1 as [|[m' s'] l Hx Hl IH]; cbn [set_member]; [by constructor|].
  case_bool_decide; by constructor.
Qed.

Lemma zadd_members_ok args l ms : Forall member_ok args -> Forall entry_ok l ->
  zadd_members args l = Some ms -> Forall entry_ok ms.
Proof.
  assert (forall n args l, (length args <= n)%nat -> Forall member_ok args -> Forall entry_ok l ->
    zadd_members args l = Some ms -> Forall entry_ok ms) as Hn; [|by apply (Hn (length args))].
  clear. induction n as [|n IH]; intros [|a [|m args]] l Hlen Ha Hl; simpl in Hlen; try lia;
    cbn [zadd_members]; try by intros [= <-].
  destruct (parse_score a) as [s|] eqn:E; [|done]. apply Forall_cons in Ha as [_ Ha]. apply Forall_cons in Ha as [Hm Ha].
  apply IH; [lia|done|]. apply set_member_ok; [split; [done|by apply parse_score_ok in E]|done].
Qed.

(** C5. ZADD without INCR on a key that holds a sorted set: the scores become those of
    the reference map under the options NX, XX, GT and LT; the reply counts the members
    that are new and, with CH, those whose score changed; the entries by score stay the
    mirror image of the members', and the number of members and its counters move by the
    members that are new. *)
Theorem ZAddHandle_refines c t k o opts opt pairs ms :
  ready c t -> key_ok k -> good_header c t k -> zholds c t k o ->
  getCheckOption opts no_check = inr (opt, pairs) -> co_Incr opt = false ->
  pairs <> [] -> Nat.even (length pairs) = true -> zadd_members pairs [] = Some ms ->
  Forall member_ok pairs -> zcard (dv t) o + len ms <= MaxInt64 ->
  let '(count, n, z) := zadd_all opt ms (zscores o t) in
  wp (ZAddHandle (k :: opts)) t (fun r t' =>
    r = RInt count /\ zset_after c o t t' z n /\ zholds c t' k o).
Proof.
  intros Hr Hk Hg Hh Hopt Hincr Hne Heven Hms Hok Hmax.
  destruct (zholds_collection _ _ _ _ Hh) as [Hc Hgeo].
  assert (2 <= len pairs /\ go_rem (len pairs - 2) 2 = 0) as [Hp2 Hrem].
  { apply Nat.even_spec in Heven as [j Hj]. destruct pairs as [|a [|b pairs]]; [done|simpl in Hj; lia|].
    unfold len. rewrite Hj. unfold go_rem. split; [simpl in Hj; lia|].
    replace (Z.of_nat (2 * j) - 2) with ((Z.of_nat j - 1) * 2) by lia. apply Z.rem_mul. lia. }
  assert (len pairs <= len opts) as Hlen.
  { assert (forall args q r, getCheckOption args q = inr (opt, r) -> len r <= len args) as Hl; [|by eapply Hl].
    clear. induction args as [|a args IH]; intros q r; cbn [getCheckOption]; [by intros [= _ <-]|].
    destruct (check_word a q) as [[e|q']|]; [done|intros E%IH; rewrite len_cons; lia|intros [= _ <-]; done]. }
  pose proof (zaddMembers_loop_refines c o opt ms 0 zero_number t Hr Hc Hgeo (zh_ok _ _ _ _ Hh) (zh_step _ _ _ _ Hh)
    Hincr (zadd_members_ok _ _ _ Hok (Forall_nil_2 _) Hms) Hmax) as Hw.
  destruct (zadd_all opt ms (zscores o t)) as [[count n] z].
  unfold ZAddHandle. rewrite len_cons. destruct (Z.ltb_spec (1 + len opts) 3); [lia|].
  change (drop 1 (k :: opts)) with opts. cbn [arg nth]. rewrite Hopt, Hrem. destruct (Z.ltb_spec (len pairs) 2); [lia|]. cbn [negb orb Z.eqb].
  rewrite Hincr, Hms. cbn [andb]. apply wp_bind, (wp_GetOrCreate_found c t k ZsetType o); [done..|apply Hh|apply Hh|done|].
  unfold zaddMembers. apply wp_on_value. eapply wp_mono; [exact Hw|]. intros r t' [[q ->] Ha].
  rewrite Hincr. apply wp_ret. split; [done|]. split; [done|]. by eapply zholds_after.
Qed.

Lemma feq_sym a b : is_score a -> is_score b -> feq a b = feq b a.
Proof.
  intros Ha Hb. pose proof (score_trichotomy a b Ha Hb) as H1. pose proof (score_trichotomy b a Hb Ha) as H2.
  destruct (feq a b), (feq b a); intuition congruence.
Qed.

(** The score after ZINCRBY. *)
Definition zincr_sum (s : float64) (old : option float64) : float64 :=
  match old with Some old => fadd s old | None => s end.

(** ZINCRBY on a key that holds a sorted set adds to the score of the member, or
    makes it a member: the reply is the sum, and the member has a score equal to it (the
    old score stays when nothing is added); a sum that is not a number is refused and
    the data stay as they are. *)
Lemma ZIncrByHandle_refines c t k o d m s :
  ready c t -> key_ok k -> good_header c t k -> zholds c t k o -> parse_score d = Some s -> member_ok m ->
  zcard (dv t) o < MaxInt64 ->
  let sum := zincr_sum s (zscores o t m) in
  wp (ZIncrByHandle [k; d; m]) t (fun r t' =>
    if isNaN sum then r = RErr ErrResultNan /\ dv t' = dv t
    else r = RFloat sum /\ zholds c t' k o /\
      exists s', feq s' sum = true /\
        zset_after c o t t' (put_score m s' (zscores o t)) (grown (zscores o t m) (Some s'))).
Proof.
  intros Hr Hk Hg Hh Hd Hm Hmax sum. destruct (zholds_collection _ _ _ _ Hh) as [Hc Hgeo].
  pose proof (parse_score_ok _ _ Hd) as Hs.
  pose proof (zadd_refines c o m s (mkCheck 0 false true) t Hr Hc Hgeo (zh_ok _ _ _ _ Hh) (zh_step _ _ _ _ Hh) Hm Hs Hmax) as Hw.
  assert (forall old, zscores o t m = Some old -> is_score old) as Hold.
  { intros old E. by eapply score_of_ok; [apply Hh|]. }
  unfold ZIncrByHandle. change (negb (len [k; d; m] =? 3)) with false. cbv iota. cbn [arg nth]. rewrite Hd.
  apply wp_bind, (wp_GetOrCreate_found c t k ZsetType o); [done..|apply Hh|apply Hh|done|].
  apply wp_on_value. eapply wp_mono; [exact Hw|]. clear Hw. unfold zadd_spec, sum, zincr_sum. intros r t'.
  assert (forall q s' t', is_score q -> zset_after c o t t' (new_score m (Some s') (zscores o t)) (grown (zscores o t m) (Some s')) ->
    feq s' q = true ->
    wp (ret (RFloat q)) t' (fun r t' => r = RFloat q /\ zholds c t' k o /\ exists s', feq s' q = true /\
        zset_after c o t t' (put_score m s' (zscores o t)) (grown (zscores o t m) (Some s')))) as Hfin.
  { clear t'. intros q s' t' Hq Ha Heq. apply wp_ret. split; [done|]. split; [by eapply zholds_after|by exists s']. }
  destruct (zscores o t m) as [old|].
  - cbn [co_Incr]. change (has_check _ CheckNotExist) with false. cbv iota. destruct (isNaN (fadd s old)) eqn:En.
    + intros [-> ->]. unfold reply_err. by apply wp_bind, wp_SetError.
    + assert (is_score (fadd s old)) as Hsum by (split; [apply fadd_range|done]).
      change (negb (allowed _ (fadd s old) old)) with false. cbv iota. specialize (Hold old eq_refl).
      destruct (feq (fadd s old) old) eqn:Ef; intros [-> Ha];
        (eapply Hfin; [done|exact Ha|]); [by rewrite feq_sym|by apply feq_refl].
  - change (has_check _ CheckExist) with false. cbv iota. intros [-> Ha].
    rewrite (proj2 Hs). eapply Hfin; [done|exact Ha|by apply feq_refl].
Qed.

(** ZREM. *)
Fixpoint zrem_all (ms : list bytes) (z : bytes -> option float64) : Z * (bytes -> option float64) :=
  match ms with
  | [] => (0, z)
  | m :: ms =>
      let '(n, z') := zrem_all ms (new_score m None z) in
      ((match z m with Some _ => 1 | None => 0 end) + n, z')
  end.

Lemma zrem_all_ext ms y z : (forall m, y m = z m) ->
  fst (zrem_all ms y) = fst (zrem_all ms z) /\ forall m, snd (zrem_all ms y) m = snd (zrem_all ms z) m.
Proof.
  revert y z. induction ms as [|m ms IH]; intros y z E; [done|]. cbn [zrem_all]. rewrite E.
  destruct (IH (new_score m None y) (new_score m None z)) as [E1 E2].
  { intros x. unfold new_score. by destruct (decide _). }
  destruct (zrem_all ms (new_score m None y)), (zrem_all ms (new_score m None z)).
  cbn [fst snd] in *. by rewrite E1.
Qed.

Lemma zrem_loop_refines `{ScoreRange P} c o ms count t :
  ready c t -> collection t o -> scores_ok P (fields (dv t) o) -> zin_step c o t ->
  Forall member_ok ms -> zcard (dv t) o <= MaxInt64 ->
  wp (zrem_loop o ms count) t (fun r t' =>
    r = RInt (count + fst (zrem_all ms (zscores o t))) /\
    scores_after P c o t t' (snd (zrem_all ms (zscores o t))) (- fst (zrem_all ms (zscores o t)))).
Proof.
  revert count t. induction ms as [|m ms IH]; intros count t Hr Hc Hz Hi Hok Hmax; cbn [zrem_loop zrem_all].
  { apply wp_ret. split; [by rewrite Z.add_0_r|by apply scores_after_refl]. }
  apply Forall_cons in Hok as [Hm Hok]. apply wp_on_value.
  eapply wp_mono; [by apply (zrem_refines (P := P) c o m t)|]. intros r t1 [-> Ha].
  pose proof (zrem_all_ext ms (zscores o t1) _ (za_score _ _ _ _ _ _ Ha)) as [E1 E2].
  eapply wp_mono; [apply IH|].
  - apply Ha.
  - eapply collection_env; [apply Ha|done].
  - apply Ha.
  - apply Ha.
  - done.
  - rewrite (za_card _ _ _ _ _ _ Ha). destruct (zscores o t m); lia.
  - intros r t' [-> Ha2].
    destruct (zrem_all ms (new_score m None (zscores o t))) as [n z]. cbn [fst snd] in *. rewrite E1 in Ha2 |- *.
    pose proof (scores_after_trans _ _ _ _ _ _ _ _ _ _ Ha Ha2) as Ha3.
    split; [|eapply scores_after_eq; [exact Ha3|exact E2|]]; destruct (zscores o t m); simpl; f_equal; lia.
Qed.

(** ZREM on a key that holds a sorted set removes the members, replies how many were
    there, and keeps the mirror entries, the number of members and the counters in
    step. *)
Lemma ZRemHandle_refines c t k o ms :
  ready c t -> key_ok k -> good_header c t k -> zholds c t k o -> ms <> [] -> Forall member_ok ms ->
  zcard (dv t) o <= MaxInt64 ->
  wp (ZRemHandle (k :: ms)) t (fun r t' =>
    r = RInt (fst (zrem_all ms (zscores o t))) /\ zholds c t' k o /\
    zset_after c o t t' (snd (zrem_all ms (zscores o t))) (- fst (zrem_all ms (zscores o t)))).
Proof.
  intros Hr Hk Hg Hh Hne Hok Hmax. destruct (zholds_collection _ _ _ _ Hh) as [Hc _].
  unfold ZRemHandle. rewrite len_cons. destruct ms as [|m0 ms0]; [done|]. set (ms := m0 :: ms0) in *.
  assert ((1 + len ms <? 2) = false) as ->.
  { unfold ms. rewrite len_cons. pose proof (len_nonneg ms0). destruct (Z.ltb_spec (1 + (1 + len ms0)) 2); [lia|done]. }
  apply wp_bind, (wp_lookup_found c t k ZsetType o); [done..|apply Hh|apply Hh|done|].
  change (drop 1 (k :: ms)) with ms. eapply wp_mono; [apply (zrem_loop_refines (P := is_score) c o ms 0 t); try done; apply Hh|].
  intros r t' [-> Ha]. split; [done|]. split; [by eapply zholds_after|done].
Qed.

End spec.

Abbreviation zset_after := (scores_after is_score).
