(* ===== verification/ZRangeSpec.v ===== *)
(** Ranges by score: ZRANGEBYSCORE returns the members of the interval in the order of
    their scores, cut by offset and limit. *)

From stdpp Require Import sorting.
From S2P Require Import Prelude Xerror GoStd Utils Float Strconv Store Ranges Mem Object Reply.
From S2P Require Import ObjectSpec Counters Generic GenericSpec Strings StringsSpec.
From S2P Require Import HashCmd HashSpec Rank ListA ListB ListCmd ListSpec ZSet ZSetSpec.
From Stdlib Require Import Init.Byte.

#[local] Open Scope Z_scope.

(** ** The order of scores *)

(** The signed magnitude, which orders the numbers; both zeros have rank 0. *)
Definition srank (b : float64) : Z := if is_neg b then - magnitude b else magnitude b.

Lemma fcompare_srank a b : is_score a -> is_score b -> fcompare a b = Some (srank a ?= srank b).
Proof.
  intros [Ha Na] [Hb Nb]. rewrite fcompare_magnitude by done. f_equal. unfold srank, magnitude, is_neg, in_u64 in *.
  destruct (Z.leb_spec (2 ^ 63) a), (Z.leb_spec (2 ^ 63) b).
  - destruct (Z.compare_spec (b - 2 ^ 63) (a - 2 ^ 63)), (Z.compare_spec (- (a - 2 ^ 63)) (- (b - 2 ^ 63))); lia || done.
  - destruct (Z.eqb_spec (a - 2 ^ 63) 0), (Z.eqb_spec b 0), (Z.compare_spec (- (a - 2 ^ 63)) b); lia || done.
  - destruct (Z.eqb_spec a 0), (Z.eqb_spec (b - 2 ^ 63) 0), (Z.compare_spec a (- (b - 2 ^ 63))); lia || done.
  - done.
Qed.

Lemma flt_srank a b : is_score a -> is_score b -> flt a b = (srank a <? srank b).
Proof. intros Ha Hb. unfold flt, Z.ltb. rewrite fcompare_srank by done. by destruct (_ ?= _). Qed.
Lemma feq_srank a b : is_score a -> is_score b -> feq a b = (srank a =? srank b).
Proof.
  intros Ha Hb. unfold feq. rewrite fcompare_srank by done.
  destruct (Z.compare_spec (srank a) (srank b)), (Z.eqb_spec (srank a) (srank b)); lia || done.
Qed.

(** The order of the encodings is that of the ranks, with -0 before 0. *)
Lemma encoded_srank a : in_u64 a -> EncodeFloatUint a = srank a + 2 ^ 63 - (if is_neg a then 1 else 0).
Proof.
  intros Ha. rewrite EncodeFloatUint_eq by done. unfold srank, magnitude. destruct (is_neg a); lia.
Qed.

Lemma encoded_le a b : in_u64 a -> in_u64 b -> EncodeFloatUint a <= EncodeFloatUint b -> srank a <= srank b.
Proof.
  intros Ha Hb. rewrite !encoded_srank by done. unfold srank, magnitude, is_neg, in_u64 in *.
  destruct (Z.leb_spec (2 ^ 63) a), (Z.leb_spec (2 ^ 63) b); lia.
Qed.
Lemma encoded_lt a b : in_u64 a -> in_u64 b -> srank a < srank b -> EncodeFloatUint a < EncodeFloatUint b.
Proof.
  intros Ha Hb Hlt.
  rewrite !encoded_srank by done. unfold srank, magnitude, is_neg, in_u64 in *.
  destruct (Z.leb_spec (2 ^ 63) a), (Z.leb_spec (2 ^ 63) b); lia.
Qed.

(** Score and member in the order of their keys. *)
Definition scored := (float64 * bytes)%type.
Definition zlt (x y : scored) : Prop := blt (score_key (fst x) (snd x)) (score_key (fst y) (snd y)).

Lemma compare_score_keys s m s' m' : in_u64 s -> in_u64 s' ->
  bytes_compare (score_key s m) (score_key s' m') =
  match EncodeFloatUint s ?= EncodeFloatUint s' with Eq => bytes_compare m m' | c => c end.
Proof.
  intros Hs Hs'. change (score_key s m) with ([ScorePrefix] ++ (EncodeFloat s ++ m)).
  change (score_key s' m') with ([ScorePrefix] ++ (EncodeFloat s' ++ m')). rewrite bytes_compare_app.
  assert (bytes_compare (EncodeFloat s) (EncodeFloat s') = (EncodeFloatUint s ?= EncodeFloatUint s')) as Hc.
  { unfold EncodeFloat. by rewrite bytes_compare_be_put by by apply EncodeFloatUint_range. }
  destruct (Z.compare_spec (EncodeFloatUint s) (EncodeFloatUint s')) as [E|E|E].
  - unfold EncodeFloat. rewrite E. apply bytes_compare_app.
  - apply bytes_compare_fst; [by rewrite !length_EncodeFloat|exact Hc|done].
  - apply bytes_compare_fst; [by rewrite !length_EncodeFloat|exact Hc|done].
Qed.

(** Lower scores come first, then lower members. *)
Lemma zlt_score s m s' m' : is_score s -> is_score s' -> flt s s' = true -> zlt (s, m) (s', m').
Proof.
  intros Hs Hs'. rewrite flt_srank by done. intros Hlt%Z.ltb_lt. unfold zlt, blt. cbn [fst snd].
  rewrite compare_score_keys by (first [apply Hs | apply Hs']).
  apply encoded_lt in Hlt; [|apply Hs|apply Hs']. by apply Z.compare_lt_iff in Hlt as ->.
Qed.
Lemma zlt_member s m m' : in_u64 s -> blt m m' -> zlt (s, m) (s, m').
Proof.
  intros Hs Hm. unfold zlt, blt. cbn [fst snd]. by rewrite compare_score_keys, Z.compare_refl.
Qed.

(** The members of a sorted set in order. *)
Record in_order (z : bytes -> option float64) (L : list scored) : Prop := {
  io_sorted : StronglySorted zlt L;
  io_elem : forall s m, (s, m) ∈ L <-> z m = Some s
}.

(** ** Intervals *)

(** The listing bounds the encodings; the comparisons of the code decide on the ends. *)
Definition encoded_within (iv : interval float64) (s : float64) : bool :=
  (EncodeFloatUint (iv_min iv) <=? EncodeFloatUint s) && (EncodeFloatUint s <=? EncodeFloatUint (iv_max iv)).
Definition open_ends (iv : interval float64) (s : float64) : bool :=
  (iv_includeMin iv || negb (feq s (iv_min iv))) && (iv_includeMax iv || negb (feq s (iv_max iv))).
Definition in_interval (iv : interval float64) (s : float64) : bool := encoded_within iv s && open_ends iv s.

(** For scores that are not zero this is the interval of the numbers. *)
Definition real_interval (iv : interval float64) (s : float64) : bool :=
  (if iv_includeMin iv then fle (iv_min iv) s else flt (iv_min iv) s) &&
  (if iv_includeMax iv then fle s (iv_max iv) else flt s (iv_max iv)).

Lemma fle_srank a b : is_score a -> is_score b -> fle a b = (srank a <=? srank b).
Proof. intros Ha Hb. unfold fle, Z.leb. rewrite fcompare_srank by done. by destruct (_ ?= _). Qed.

Lemma encoded_leb a b : is_score a -> is_score b -> magnitude a <> 0 \/ is_neg a = is_neg b \/ is_neg b = false ->
  (EncodeFloatUint a <=? EncodeFloatUint b) = (srank a <=? srank b).
Proof.
  intros [Ha _] [Hb _] Hz. rewrite !encoded_srank by done. unfold srank, magnitude, is_neg, in_u64 in *.
  destruct (Z.leb_spec (2 ^ 63) a), (Z.leb_spec (2 ^ 63) b);
    [destruct (Z.leb_spec (- (a - 2 ^ 63)) (- (b - 2 ^ 63)))|destruct (Z.leb_spec (- (a - 2 ^ 63)) b)
    |destruct (Z.leb_spec a (- (b - 2 ^ 63)))|destruct (Z.leb_spec a b)]; lia.
Qed.

Lemma in_interval_real iv s : is_score (iv_min iv) -> is_score (iv_max iv) -> is_score s -> magnitude s <> 0 ->
  in_interval iv s = real_interval iv s.
Proof.
  intros Hmin Hmax Hs Hz. unfold in_interval, encoded_within, open_ends, real_interval.
  rewrite !fle_srank, !flt_srank, !feq_srank, (encoded_leb s) by auto.
  assert ((EncodeFloatUint (iv_min iv) <=? EncodeFloatUint s) = (srank (iv_min iv) <=? srank s)) as ->.
  { destruct Hmin as [Hmin _], Hs as [Hs _]. rewrite !encoded_srank by done. unfold srank, magnitude, is_neg, in_u64 in *.
    destruct (Z.leb_spec (2 ^ 63) (iv_min iv)), (Z.leb_spec (2 ^ 63) s); lia. }
  destruct (iv_includeMin iv), (iv_includeMax iv); cbn [orb andb]; lia.
Qed.

(** ** The entries between two scores *)

Section listing.
Context `{PlatformSpec}.

Definition scored_key (o : Object) (e : scored) : bytes := GetValueBytes o (score_key (fst e) (snd e)).

Lemma score_key_not_ff s m : ~ Forall (fun x => x = xff) (score_key s m).
Proof. by apply not_ff. Qed.

Lemma score_key_app s m : score_key s m = score_key s [] ++ m.
Proof. unfold score_key, EncodeScoreKey. by rewrite app_nil_r. Qed.

Lemma above_start a s m : in_u64 a -> in_u64 s ->
  ble (score_key a []) (score_key s m) <-> EncodeFloatUint a <= EncodeFloatUint s.
Proof.
  intros Ha Hs. unfold ble. rewrite compare_score_keys by done.
  destruct (Z.compare_spec (EncodeFloatUint a) (EncodeFloatUint s)); [|by split; [lia|]|split; [done|lia]].
  split; [lia|]. by destruct m.
Qed.

Lemma below_end b s m : in_u64 b -> in_u64 s ->
  blt (score_key s m) (Bytes.PrefixNext (score_key b [])) <-> EncodeFloatUint s <= EncodeFloatUint b.
Proof.
  intros Hb Hs. split.
  - intros Hlt. apply Z.nlt_ge. intros Hgt.
    assert (has_prefix (score_key b []) (score_key s m) = true) as Hp.
    { apply Bytes.PrefixNext_range_prefix; [apply score_key_not_ff| | |done].
      - pose proof (len_score_key b []) as E1. pose proof (len_score_key s m) as E2.
        change (len (@nil Init.Byte.byte)) with 0 in E1. pose proof (len_nonneg m). unfold len in *. lia.
      - apply above_start; [done..|lia]. }
    apply has_prefix_spec in Hp as [d E]. rewrite <- score_key_app in E.
    apply score_key_inj in E as [-> _]; [lia|done..].
  - intros Hle. destruct (decide (EncodeFloatUint s = EncodeFloatUint b)) as [E|Hne].
    + apply Bytes.has_prefix_in_range; [apply score_key_not_ff|]. apply has_prefix_spec. exists m.
      assert (s = b) as -> by (apply EncodeFloat_inj; [done..|unfold EncodeFloat; by rewrite E]). apply score_key_app.
    + eapply blt_trans; [|by apply PrefixNext_gt, score_key_not_ff]. unfold blt.
      rewrite compare_score_keys by done. destruct (Z.compare_spec (EncodeFloatUint s) (EncodeFloatUint b)); [lia|done|lia].
Qed.

Lemma member_below_scores m a : ~ ble (score_key a []) (EncodeMemberKey m).
Proof. intros Hle. by apply Hle. Qed.

Context {P : float64 -> Prop} `{!ScoreRange P} (o : Object) (t : Txn) (Hz : scores_ok P (fields (dv t) o)).
Context (L : list scored) (HL : in_order (zscores o t) L).

Lemma in_order_score e : e ∈ L -> P (fst e).
Proof. destruct e as [s m]. intros He. apply (io_elem _ _ HL) in He. by eapply score_of_ok. Qed.

Lemma field_view f : fields (dv t) o f = t_view t !! GetValueBytes o f.
Proof. unfold fields, dv. apply dview_lookup, GetValueBytes_data. Qed.

Definition start_of (iv : interval float64) : bytes := GetValueBytes o (EncodeScoreKey (float_number (iv_min iv)) []).
Definition end_of (iv : interval float64) : bytes := GetValueBytes o (EncodeScoreNext (float_number (iv_max iv))).

Lemma end_of_eq iv : end_of iv = GetValueBytes o (Bytes.PrefixNext (score_key (iv_max iv) [])).
Proof. unfold end_of, EncodeScoreNext, score_key, EncodeScoreKey. by rewrite app_nil_r. Qed.

Lemma end_of_nonempty iv : end_of iv <> [].
Proof. rewrite end_of_eq, GetValueBytes_app. done. Qed.

Lemma ble_value f g : ble (GetValueBytes o f) (GetValueBytes o g) <-> ble f g.
Proof. unfold ble. by rewrite !GetValueBytes_app, bytes_compare_app. Qed.
Lemma blt_value_iff f g : blt (GetValueBytes o f) (GetValueBytes o g) <-> blt f g.
Proof. unfold blt. by rewrite !GetValueBytes_app, bytes_compare_app. Qed.

Lemma scored_in_range iv e : in_u64 (iv_min iv) -> in_u64 (iv_max iv) -> in_u64 (fst e) ->
  (ble (start_of iv) (scored_key o e) /\ below (scored_key o e) (end_of iv) = true) <->
  encoded_within iv (fst e) = true.
Proof.
  intros Hmin Hmax He. rewrite below_spec, end_of_eq. unfold start_of, scored_key.
  change (EncodeScoreKey (float_number (iv_min iv)) []) with (score_key (iv_min iv) []).
  rewrite ble_value, blt_value_iff, above_start, below_end by done.
  unfold encoded_within. rewrite andb_true_iff, !Z.leb_le. split; [|tauto].
  intros [H1 [H2|H2]]; [|done]. pose proof (end_of_nonempty iv). by rewrite end_of_eq in *.
Qed.

Lemma StronglySorted_fmap {A B} (R : relation A) (R' : relation B) (f : A -> B) l :
  (forall x y, R x y -> R' (f x) (f y)) -> StronglySorted R l -> StronglySorted R' (f <$> l).
Proof.
  intros Hf. induction 1 as [|x l Hl IH Hx]; [constructor|]. constructor; [done|].
  apply Forall_fmap. eapply Forall_impl; [exact Hx|]. intros y. apply Hf.
Qed.

Definition with_value (e : scored) : bytes * bytes := (scored_key o e, default [] (t_view t !! scored_key o e)).

Lemma range_scored iv : in_u64 (iv_min iv) -> in_u64 (iv_max iv) ->
  range_entries (start_of iv) (end_of iv) (t_view t) =
  with_value <$> base.filter (fun e => encoded_within iv (fst e) = true) L.
Proof.
  intros Hmin Hmax. apply sorted_entries_eq; [apply range_entries_sorted| |].
  { eapply StronglySorted_fmap; [|by apply StronglySorted_sublist, HL].
    intros x y Hxy. unfold entry_lt, with_value, scored_key. cbn [fst]. by apply blt_value. }
  intros [k v]. rewrite elem_of_range_entries, list_elem_of_fmap. split.
  - intros (Hv&H1&H2).
    assert (exists f, k = GetValueBytes o f) as [f ->].
    { pose proof H2 as H2'. apply below_spec in H2' as [H2'|H2']; [by apply end_of_nonempty in H2'|].
      unfold start_of in H1. rewrite end_of_eq in H2'. rewrite GetValueBytes_app in H1, H2'.
      pose proof (between_prefix _ _ _ _ H1 H2') as Hp. apply has_prefix_spec in Hp as [f ->]. exists f.
      by rewrite GetValueBytes_app. }
    assert (is_Some (fields (dv t) o f)) as Hf by by rewrite field_view, Hv.
    destruct (zk_shape _ Hz f Hf) as (m&[->|(s&Hs&->)]).
    { unfold start_of in H1. apply (proj1 (ble_value _ _)) in H1. by apply member_below_scores in H1. }
    apply (zk_mirror _ Hz s m Hs) in Hf. exists (s, m). unfold with_value, scored_key. cbn [fst snd]. rewrite Hv.
    split; [done|]. apply list_elem_of_filter. split; [|by apply (io_elem _ _ HL)]. cbn [fst].
    apply (scored_in_range iv (s, m)); [done..|by apply score_range; eapply score_of_ok|done].
  - intros (e&[= -> ->]&[Hw He]%list_elem_of_filter). pose proof (score_range _ (in_order_score e He)) as Hs.
    split; [|by apply scored_in_range]. destruct e as [s m]. apply (io_elem _ _ HL) in He.
    apply (zk_mirror _ Hz s m) in He; [|done]. rewrite field_view in He. unfold scored_key. cbn [fst snd] in *.
    by destruct He as [v ->].
Qed.

End listing.

(** ** The callback of the ranges *)

Section callback.
Context `{PlatformSpec}.

Lemma drop_value_key o f n : drop (length (GetValueBytes o []) + n) (GetValueBytes o f) = drop n f.
Proof. rewrite (GetValueBytes_app o f). fold (value_prefix o). by rewrite <- drop_drop, drop_app_length. Qed.

Lemma within_srank iv s : is_score (iv_min iv) -> is_score (iv_max iv) -> is_score s ->
  encoded_within iv s = true -> srank (iv_min iv) <= srank s <= srank (iv_max iv).
Proof.
  intros [Hmin _] [Hmax _] [Hs _]. unfold encoded_within. rewrite andb_true_iff, !Z.leb_le.
  intros [H1 H2]. split; by apply encoded_le.
Qed.

(** An entry of the listing is skipped, ends it, or is taken. *)
Definition verdict (iv : interval float64) (e : scored) : bool + (Number * bytes) :=
  if negb (iv_includeMin iv) && feq (fst e) (iv_min iv) then inl true
  else if negb (iv_includeMax iv) && feq (fst e) (iv_max iv) then inl false
  else inr (float_number (fst e), snd e).

Lemma getScoreMember_run o iv e t : is_score (iv_min iv) -> is_score (iv_max iv) -> is_score (fst e) ->
  encoded_within iv (fst e) = true ->
  getScoreMember (scored_key o e) (GetValueBytes o []) (number_interval iv) false t = Ret (verdict iv e) t.
Proof.
  destruct e as [s m]. cbn [fst snd]. intros Hmin Hmax Hs Hw. apply within_srank in Hw; [|done..].
  unfold getScoreMember, scored_key, verdict. cbn [fst snd].
  assert ((len (GetValueBytes o (score_key s m)) <? len (GetValueBytes o []) + 8 + 1) = false) as ->.
  { rewrite !len_GetValueBytes, len_score_key. pose proof (len_nonneg m).
    change (len (@nil Init.Byte.byte)) with 0. destruct (Z.ltb_spec (5 + len (sl (o_Value o)) + (9 + len m)) (5 + len (sl (o_Value o)) + 0 + 8 + 1)); [lia|done]. }
  rewrite <- Nat.add_assoc, !drop_value_key. change (drop 1 (score_key s m)) with (EncodeFloat s ++ m).
  change (drop (8 + 1) (score_key s m)) with (drop 8 (EncodeFloat s ++ m)).
  rewrite (drop_app_length' (EncodeFloat s) m 8) by by rewrite length_EncodeFloat.
  assert (decode_number (mkNumber false 0 0) (EncodeFloat s ++ m) t = Ret (float_number s) t) as Hd.
  { unfold decode_number, Number_Decode. cbn [IsInt]. by rewrite DecodeFloat_EncodeFloat by apply Hs. }
  unfold bind. change (IsInt (iv_min (number_interval iv))) with false. rewrite Hd.
  unfold number_interval. cbn [iv_min iv_max iv_includeMin iv_includeMax].
  rewrite !compare_eq, !compare_scores, !flt_srank, !feq_srank by done. unfold ret. f_equal.
  destruct (Z.ltb_spec (srank s) (srank (iv_min iv))); [lia|].
  destruct (Z.ltb_spec (srank s) (srank (iv_max iv))), (Z.eqb_spec (srank s) (srank (iv_max iv)));
    destruct (Z.eqb_spec (srank s) (srank (iv_min iv))); try lia; reflexivity.
Qed.

(** Behind an excluded maximum there is nothing to take. *)
Lemma none_behind_max iv e L : is_score (iv_min iv) -> is_score (iv_max iv) ->
  StronglySorted zlt (e :: L) -> Forall (fun e => is_score (fst e) /\ encoded_within iv (fst e) = true) (e :: L) ->
  iv_includeMax iv = false -> feq (fst e) (iv_max iv) = true ->
  base.filter (fun e => open_ends iv (fst e) = true) (e :: L) = [].
Proof.
  intros Hmin Hmax [_ Hlt]%StronglySorted_inv Hall Hopen Heq. apply Forall_cons in Hall as [[Hs _] Hall].
  assert (forall x, x ∈ e :: L -> feq (fst x) (iv_max iv) = true) as Hx.
  { intros x [->|Hx]%elem_of_cons; [done|]. rewrite Forall_forall in Hlt, Hall.
    specialize (Hlt x Hx). destruct (Hall x Hx) as [Hsx Hw].
    rewrite feq_srank in Heq |- * by done. apply Z.eqb_eq in Heq. apply Z.eqb_eq.
    pose proof (within_srank iv (fst x) Hmin Hmax Hsx Hw).
    assert (srank (fst e) <= srank (fst x)); [|lia].
    apply encoded_le; [apply Hs|apply Hsx|]. unfold zlt, blt in Hlt.
    rewrite compare_score_keys in Hlt by (first [apply Hs | apply Hsx]).
    destruct (Z.compare_spec (EncodeFloatUint (fst e)) (EncodeFloatUint (fst x))); [lia|lia|done]. }
  apply elem_of_nil_inv. intros x [Ho Hi]%list_elem_of_filter. revert Ho. unfold open_ends. rewrite Hopen, (Hx x Hi).
  by rewrite andb_false_r.
Qed.

(** What the range collects from the entries it takes. *)
Definition taken (opt : zRangeOption) (e : scored) : list item :=
  IMember (snd e) :: if zo_withScores opt then [IScore (float_number (fst e))] else [].
Definition cut {A} (opt : zRangeOption) (l : list A) : list A :=
  take (Z.to_nat (zo_limit opt)) (drop (Z.to_nat (zo_offset opt)) l).

Lemma score_listing o iv opt limit t start end_ v L count st :
  is_score (iv_min iv) -> is_score (iv_max iv) -> StronglySorted zlt L ->
  Forall (fun e => is_score (fst e) /\ encoded_within iv (fst e) = true) L ->
  (forall e, e ∈ L -> bytes_ltb (scored_key o e) start || bytes_leb end_ (scored_key o e) = false) ->
  0 < limit -> 0 <= count -> count + len L < limit -> zo_reversed opt = false ->
  0 <= zo_offset opt < MaxInt64 -> cl_cnt st = Z.max 0 (cl_count st - zo_offset opt) -> 0 <= cl_count st ->
  cl_cnt st < zo_limit opt ->
  exists st', List_on start end_ limit (score_callback (GetValueBytes o []) (number_interval iv) opt)
    ((fun e => (scored_key o e, v e)) <$> L) count st t = Ret (st', None) t /\
    cl_items st' = cl_items st ++
      concat (taken opt <$> take (Z.to_nat (zo_limit opt - cl_cnt st))
        (drop (Z.to_nat (zo_offset opt - cl_count st))
          (base.filter (fun e => open_ends iv (fst e) = true) L))).
Proof.
  intros Hmin Hmax. revert count st. induction L as [|e L IH]; intros count st Hsort Hall Hin Hlim Hc Hlen Hrev Hoff Hcnt Hcount Hl.
  { exists st. split; [done|]. by rewrite filter_nil, drop_nil, take_nil, app_nil_r. }
  pose proof (none_behind_max iv e L Hmin Hmax Hsort Hall) as Hnone.
  apply Forall_cons in Hall as [[Hs Hw] Hall]. apply StronglySorted_inv in Hsort as [Hsort _].
  rewrite len_cons in Hlen. pose proof (len_nonneg L) as HL.
  specialize (fun st => IH (count + 1) st Hsort Hall (fun e He => Hin e (proj2 (elem_of_cons _ _ _) (or_intror He)))
    Hlim ltac:(lia) ltac:(lia) Hrev Hoff).
  cbn [fmap list_fmap List_on]. rewrite (Hin e) by by left.
  unfold bind at 1. unfold score_callback at 1. unfold bind at 1. rewrite Hrev, getScoreMember_run by done.
  unfold verdict. destruct (Z.gtb_spec limit 0); [|lia].
  destruct (negb (iv_includeMin iv) && feq (fst e) (iv_min iv)) eqn:E1.
  { cbn [negb andb]. destruct (Z.geb_spec (count + 1) limit); [lia|]. rewrite filter_cons_False.
    - by apply IH.
    - unfold open_ends. apply andb_true_iff in E1 as [E1 ->]. by destruct (iv_includeMin iv). }
  destruct (negb (iv_includeMax iv) && feq (fst e) (iv_max iv)) eqn:E2.
  { apply andb_true_iff in E2 as [E2 E3]. apply negb_true_iff in E2. rewrite Hnone by done.
    exists st. split; [done|]. by rewrite drop_nil, take_nil, app_nil_r. }
  rewrite filter_cons_True by (unfold open_ends; destruct (iv_includeMin iv), (iv_includeMax iv), (feq _ _), (feq _ _); done).
  rewrite i64_small by (unfold in_i64, MinInt64, MaxInt64 in *; lia).
  destruct (Z.ltb_spec (cl_count st + 1) (zo_offset opt + 1)).
  - unfold ret at 1. cbn [negb andb]. destruct (Z.geb_spec (count + 1) limit); [lia|].
    destruct (IH {| cl_items := cl_items st; cl_count := cl_count st + 1; cl_cnt := cl_cnt st |}) as (st'&E&Hi);
      cbn [cl_cnt cl_count cl_items] in *; [lia..|]. exists st'. split; [exact E|]. rewrite Hi.
    by replace (Z.to_nat (zo_offset opt - cl_count st)) with (S (Z.to_nat (zo_offset opt - (cl_count st + 1)))) by lia.
  - replace (Z.to_nat (zo_offset opt - cl_count st)) with 0%nat by lia.
    replace (Z.to_nat (zo_limit opt - cl_cnt st)) with (S (Z.to_nat (zo_limit opt - (cl_cnt st + 1)))) by lia.
    unfold ret at 1. cbn [drop take fmap list_fmap concat].
    set (st1 := {| cl_items := _; cl_count := _; cl_cnt := _ |}).
    destruct (Z.ltb_spec (cl_cnt st + 1) (zo_limit opt)); cbn [negb andb].
    + destruct (Z.geb_spec (count + 1) limit); [lia|].
      destruct (IH st1) as (st'&E&Hi); unfold st1 in *; cbn [cl_cnt cl_count cl_items] in *; [lia..|].
      exists st'. split; [exact E|]. rewrite Hi. replace (Z.to_nat (zo_offset opt - (cl_count st + 1))) with 0%nat by lia.
      by rewrite <- app_assoc.
    + exists st1. split; [done|]. replace (Z.to_nat (zo_limit opt - (cl_cnt st + 1))) with 0%nat by lia.
      unfold st1. cbn [cl_items take fmap list_fmap concat]. by rewrite app_nil_r.
Qed.

End callback.

(** ** ZRANGEBYSCORE *)

Section command.
Context `{PlatformSpec}.

Lemma checkMinMaxScore_ok a b t iv t' : checkMinMaxScore a b t = Ret (inr iv) t' ->
  is_score (iv_min iv) /\ is_score (iv_max iv).
Proof.
  assert (forall neg, is_score (float_inf neg)) as Hinf by (intros []; split; [apply float_inf_range|done|apply float_inf_range|done]).
  unfold checkMinMaxScore. set (min := if _ || _ then _ else _).
  assert (forall m i, min = inr (m, i) -> is_score m) as Hmin.
  { intros m i. unfold min. destruct (_ || _); [done|]. case_bool_decide; [intros [= <- _]; apply Hinf|].
    destruct (ToLower a) as [|x l]; [done|]. destruct (open_bound (x :: l)) as [incl s].
    destruct (parse_score s) eqn:E; [|done]. intros [= <- _]. by apply parse_score_ok in E. }
  clearbody min. destruct min as [e|[m i]]; [done|]. specialize (Hmin m i eq_refl).
  case_bool_decide; [done|]. destruct (_ || _); [intros [= <- _]; split; [done|apply Hinf]|].
  destruct (ToLower b) as [|x l]; [done|]. destruct (open_bound (x :: l)) as [incl s].
  destruct (parse_score s) eqn:E; [|done]. intros [= <- _]. split; [done|]. by apply parse_score_ok in E.
Qed.

Lemma objectZRangeByScore_run c o iv opt t L :
  ready c t -> zset_ok (fields (dv t) o) -> in_order (zscores o t) L ->
  is_score (iv_min iv) -> is_score (iv_max iv) -> EncodeFloatUint (iv_min iv) <= EncodeFloatUint (iv_max iv) ->
  zo_reversed opt = false -> 0 < zo_limit opt -> 0 <= zo_offset opt < MaxInt64 -> len L < ScanMaxCount c ->
  objectZRangeByScore o (number_interval iv) opt t =
  Ret (inr (concat (taken opt <$> cut opt (base.filter (fun e => in_interval iv (fst e) = true) L)))) t.
Proof.
  intros Hr Hz HL Hmin Hmax Hle Hrev Hlim Hoff Hlen.
  unfold objectZRangeByScore, ListByScore. rewrite Hrev. unfold bind at 1. unfold bind at 1.
  rewrite (get_config_run c) by done.
  change (GetValueBytes o (EncodeScoreKey (iv_min (number_interval iv)) [])) with (start_of o iv).
  change (GetValueBytes o (EncodeScoreNext (iv_max (number_interval iv)))) with (end_of o iv).
  rewrite List_forward; [|by apply (rd_up c)|].
  2: { apply not_true_iff_false. rewrite bytes_ltb_spec, blt_not_ble. intros Hn. apply Hn. rewrite end_of_eq.
    apply ble_value, blt_ble. change (EncodeScoreKey (float_number (iv_min iv)) []) with (score_key (iv_min iv) []).
    apply below_end; [apply Hmax|apply Hmin|done]. }
  rewrite (range_scored o t Hz L HL iv (proj1 Hmin) (proj1 Hmax)).
  set (L1 := base.filter _ L). set (st := collected0).
  assert (forall e, e ∈ L1 -> is_score (fst e) /\ encoded_within iv (fst e) = true) as Hall.
  { intros e [Hw He]%list_elem_of_filter. split; [by eapply in_order_score|done]. }
  assert (len L1 <= len L) as HL1.
  { unfold len, L1. apply inj_le, length_filter. }
  destruct (score_listing o iv opt (ScanMaxCount c) t (start_of o iv) (end_of o iv)
    (fun e => default [] (t_view t !! scored_key o e)) L1 0 st) as (st'&E&Hi); try done.
  - by apply StronglySorted_sublist, HL.
  - by rewrite Forall_forall.
  - intros e He. destruct (Hall e He) as [Hs Hw]. apply (scored_in_range o iv e) in Hw as [H1 H2]; [|apply Hmin|apply Hmax|apply Hs].
    apply orb_false_iff. split; apply not_true_iff_false; rewrite ?bytes_ltb_spec, ?bytes_leb_spec.
    + by rewrite blt_not_ble; intros Hn.
    + apply below_spec in H2 as [H2|H2]; [by apply end_of_nonempty in H2|]. by apply blt_not_ble.
  - pose proof (len_nonneg L). lia.
  - lia.
  - unfold st. cbn [collected0 cl_cnt cl_count]. lia.
  - unfold with_value. rewrite E. cbv beta iota. unfold ret. do 2 f_equal. rewrite Hi. unfold st, cut. cbn [collected0 cl_items cl_cnt cl_count app].
    rewrite !Z.sub_0_r. unfold L1. rewrite list_filter_filter. do 4 f_equal. apply list_filter_iff.
    intros e. unfold in_interval. rewrite andb_true_iff. tauto.
Qed.

(** C22. ZRANGEBYSCORE on a key that holds a sorted set of fewer than [ScanMaxCount] members,
    with an interval that is not empty, an offset below the largest integer and a limit that
    is not negative, lists the members whose scores lie in the interval, in the order of
    their scores and then of their names, skips as many as the offset says, takes no more
    than the limit, gives scores when asked for, and changes nothing. The order of scores is
    that of their encodings: it is the order of numbers except that -0 lies below 0, so that
    an interval that begins at 0 leaves -0 out. *)
Theorem ZRangeByScoreHandle_range c t k o L min max opts iv opt :
  ready c t -> key_ok k -> good_header c t k -> zholds c t k o -> in_order (zscores o t) L ->
  checkMinMaxScore min max t = Ret (inr iv) t -> checkZRangeOption opts t = Ret (inr opt) t ->
  EncodeFloatUint (iv_min iv) <= EncodeFloatUint (iv_max iv) ->
  0 <= zo_limit opt -> 0 <= zo_offset opt < MaxInt64 -> len L < ScanMaxCount c ->
  wp (ZRangeByScoreHandle (k :: min :: max :: opts)) t (fun r t' =>
    t' = t /\
    r = RArr (item_reply <$>
      concat (taken opt <$> cut opt (base.filter (fun e => in_interval iv (fst e) = true) L)))).
Proof.
  intros Hr Hk Hg Hh HL Hmm Hopt Hle Hlim Hoff Hlen.
  destruct (checkMinMaxScore_ok _ _ _ _ _ Hmm) as [Hmin Hmax].
  unfold ZRangeByScoreHandle, by_score_handle. rewrite !len_cons. pose proof (len_nonneg opts).
  destruct (Z.ltb_spec (1 + (1 + (1 + len opts))) 3); [lia|]. cbv iota. cbn [arg nth].
  apply wp_bind. eapply returns_wp; [exact Hmm|]. unfold reply_items, zrangeByScoreHandle.
  apply wp_on_value, wp_on_value. change (drop 3 (k :: min :: max :: opts)) with opts.
  eapply returns_wp; [exact Hopt|]. cbv beta iota.
  destruct (zo_limit opt =? 0) eqn:E; [apply Z.eqb_eq in E|apply Z.eqb_neq in E].
  { unfold cut. rewrite E. by apply wp_ret. }
  unfold zrangeByScore. cbn [arg nth].
  apply wp_bind, (wp_lookup_found c t k ZsetType o); [done..|apply Hh|apply Hh|done|].
  eapply returns_wp; [apply (objectZRangeByScore_run c o iv (set_reversed false opt) t L); try done; [apply Hh|cbn [zo_limit set_reversed]; lia]|].
  by apply wp_ret.
Qed.

End command.
