(* ===== verification/GeoSpec.v ===== *)
(** What the geo commands promise: the places of a geo key are a finite map of cells,
    kept like a sorted set's scores; GEOADD as an operation on the map, and searches that
    find the members of their region, all of them when the cover of the region is one. *)

From stdpp Require Import sorting.
From S2P Require Import Prelude Xerror GoStd Utils Float Strconv Store Ranges Mem Object Reply.
From S2P Require Import ObjectSpec Counters Generic GenericSpec Strings StringsSpec.
From S2P Require Import HashCmd HashSpec Rank ListA ListB ListCmd ListSpec ZSet ZSetSpec ZRangeSpec Geo.
From Stdlib Require Import Init.Byte.

#[local] Open Scope Z_scope.

(** ** Cells *)

(** The number whose encoding is that of a cell. *)
Definition pattern (id : Z) : float64 := DecodeFloatUint id.

Lemma pattern_range id : in_u64 id -> in_u64 (pattern id).
Proof.
  intros Hi. unfold pattern. rewrite DecodeFloatUint_eq by done. unfold is_neg, in_u64 in *.
  destruct (Z.leb_spec (2 ^ 63) id); lia.
Qed.

Lemma cell_pattern id : in_u64 id -> EncodeFloatUint (pattern id) = id.
Proof.
  intros Hi. rewrite EncodeFloatUint_eq by by apply pattern_range.
  unfold pattern. rewrite DecodeFloatUint_eq by done. unfold is_neg, in_u64 in *.
  destruct (Z.leb_spec (2 ^ 63) id).
  - destruct (Z.leb_spec (2 ^ 63) (id - 2 ^ 63)); lia.
  - destruct (Z.leb_spec (2 ^ 63) (2 ^ 64 - 1 - id)); lia.
Qed.

Lemma pattern_cell s : in_u64 s -> pattern (EncodeFloatUint s) = s.
Proof.
  intros Hs. pose proof (EncodeFloatUint_range s Hs) as Hr. pose proof (cell_pattern _ Hr) as E.
  pose proof (pattern_range _ Hr) as Hp. apply EncodeFloat_inj; [done..|]. unfold EncodeFloat. by rewrite E.
Qed.

Lemma Number_Encode_cell id f : in_u64 id -> Number_Encode (mkNumber true id f) = EncodeFloat (pattern id).
Proof. intros Hi. unfold EncodeFloat. by rewrite cell_pattern. Qed.

(** ** GEOADD *)

(** The cell of one member after GEOADD puts it into [id], and what it adds to the reply. *)
Definition cell_step (opt : checkOption) (id : Z) (old : option Z) : option Z * Z :=
  match old with
  | None => if has_check opt CheckExist then (None, 0) else (Some id, 1)
  | Some old =>
      if has_check opt CheckNotExist then (Some old, 0)
      else if has_check opt CheckGT && (id <=? old) then (Some old, 0)
      else if has_check opt CheckLT && (id >=? old) then (Some old, 0)
      else if id =? old then (Some old, 0)
      else (Some id, if co_Changed opt then 1 else 0)
  end.

(** The same on the numbers that are stored. *)
Definition pattern_step (opt : checkOption) (id : Z) (old : option float64) : option float64 * Z :=
  match old with
  | None => if has_check opt CheckExist then (None, 0) else (Some (pattern id), 1)
  | Some s =>
      let old := EncodeFloatUint s in
      if has_check opt CheckNotExist then (Some s, 0)
      else if has_check opt CheckGT && (id <=? old) then (Some s, 0)
      else if has_check opt CheckLT && (id >=? old) then (Some s, 0)
      else if id =? old then (Some s, 0)
      else (Some (pattern id), if co_Changed opt then 1 else 0)
  end.

Lemma cell_step_pattern opt id old : in_u64 id ->
  cell_step opt id (EncodeFloatUint <$> old) =
  (EncodeFloatUint <$> fst (pattern_step opt id old), snd (pattern_step opt id old)).
Proof.
  intros Hi. unfold cell_step, pattern_step. destruct old as [s|]; cbn [fmap option_fmap option_map].
  - repeat match goal with |- context [if ?b then _ else _] => destruct b; try done end.
    all: cbn [fst snd fmap option_fmap option_map]; by rewrite cell_pattern.
  - destruct (has_check opt CheckExist); [done|]. cbn [fst snd fmap option_fmap option_map]. by rewrite cell_pattern.
Qed.

(** Putting members into related maps. *)
Lemma put_all_map {A} (step1 step2 : A -> option Z -> option Z * Z) (f : Z -> Z) (ok : bytes * A -> Prop) ms y z :
  (forall m a old, ok (m, a) -> step1 a (f <$> old) = (f <$> fst (step2 a old), snd (step2 a old))) ->
  Forall ok ms -> (forall m, y m = f <$> z m) ->
  fst (put_all step1 ms y) = fst (put_all step2 ms z) /\
  forall m, snd (put_all step1 ms y) m = f <$> snd (put_all step2 ms z) m.
Proof.
  intros Hstep Hok. revert y z. induction Hok as [|[m a] ms Hm Hok IH]; intros y z E; [done|]. cbn [put_all].
  rewrite E, (Hstep m) by done. destruct (step2 a (z m)) as [new n]. cbn [fst snd].
  destruct (IH (new_score m (f <$> new) y) (new_score m new z)) as [E1 E2].
  { intros x. unfold new_score. by destruct (decide _). }
  destruct (put_all step1 ms _) as [[? ?] ?], (put_all step2 ms _) as [[? ?] ?].
  cbn [fst snd] in *. injection E1 as -> ->. split; [|done]. by destruct (z m), new.
Qed.

(** An [s2.CellID] is a [uint64]. *)
Class CellIDs `{GeoLib} : Prop := {
  CellIDFromLatLng_u64 l : in_u64 (CellIDFromLatLng l);
  CellID_RangeMin_u64 id : in_u64 (CellID_RangeMin id);
  CellID_RangeMax_u64 id : in_u64 (CellID_RangeMax id);
  CellID_RangeMin_Max id : CellID_RangeMin id <= CellID_RangeMax id
}.

(** What s2 documents of [CellUnionBound]: the cells cover the region. *)
Class Covers `{GeoLib} : Prop :=
  region_covered region l : RegionContains (DecodeCellID (EncodeCellID l)) region = true ->
    exists r, r ∈ RegionRange region /\ Min r <= EncodeCellID l <= Max r.

Section spec.
Context `{PlatformSpec} `{GeoLib} `{!CellIDs}.

(** A stored cell, read as an integer. *)
Lemma decode_stored_cell b s : stored_score b = Some s ->
  exists v, DecodeValue b = inr v /\
    forall t, decode_number (mkNumber true 0 0) (v_Value v) t = Ret (mkNumber true (EncodeFloatUint s) 0) t.
Proof.
  unfold stored_score. destruct (DecodeValue b) as [e|v]; [done|]. intros E. exists v. split; [done|].
  intros t. unfold decode_number, Number_Decode, DecodeFloat in *. cbn [IsInt Float64] in *.
  destruct (Z.ltb_spec (len (v_Value v)) 8) as [|Hl]; [done|]. injection E as <-.
  fold (pattern (be_get (take 8 (v_Value v)))). rewrite cell_pattern; [done|].
  pose proof (be_get_range (take 8 (v_Value v))) as Hr. unfold in_u64. rewrite length_take in Hr.
  unfold len in Hl. replace (8 `min` length (v_Value v))%nat with 8%nat in Hr by lia. lia.
Qed.

(** What a geo key stores: the cells of places. *)
Definition cell_score (s : float64) : Prop := in_u64 s /\ exists l, EncodeFloatUint s = EncodeCellID l.
#[export] Instance cell_score_range : ScoreRange cell_score := fun s Hs => proj1 Hs.

Lemma cell_score_pattern l : cell_score (pattern (EncodeCellID l)).
Proof.
  pose proof (CellIDFromLatLng_u64 (ToLatLng l)) as Hl. split; [by apply pattern_range|].
  exists l. by apply cell_pattern.
Qed.

(** The cell of a member. *)
Definition cells (o : Object) (t : Txn) (m : bytes) : option Z := EncodeFloatUint <$> zscores o t m.

Record gholds (c : Config) (t : Txn) (k : bytes) (o : Object) : Prop := {
  gh_find : find c t (dv t) k = Some o;
  gh_type : o_Type o = GeoType;
  gh_ok : scores_ok cell_score (fields (dv t) o);
  gh_step : zin_step c o t
}.

Lemma gholds_collection c t k o : gholds c t k o -> collection t o /\ IsGeo o = true.
Proof.
  intros Hh. unfold IsGeo. rewrite (gh_type _ _ _ _ Hh). split; [|done].
  apply (find_compound c t k); [|apply Hh]. unfold IsSimple. by rewrite (gh_type _ _ _ _ Hh).
Qed.

Lemma gholds_after c t t' k o z n : gholds c t k o -> scores_after cell_score c o t t' z n -> gholds c t' k o.
Proof.
  intros [Hf Hy _ _] Ha. split; [|done|apply Ha|apply Ha].
  rewrite (find_env c t t') by apply Ha. by erewrite scores_after_find by exact Ha.
Qed.

(** The tests on the outcome of a comparison. *)
#[local] Ltac compute_tests :=
  change (-1 >=? 0) with false; change (1 >=? 0) with true; change (0 >=? 0) with true;
  change (-1 <=? 0) with true; change (1 <=? 0) with false; change (0 <=? 0) with true;
  change (-1 =? 0) with false; change (1 =? 0) with false; change (0 =? 0) with true; cbv iota.

Lemma zadd_cell c o m id opt t :
  ready c t -> collection t o -> IsGeo o = true -> scores_ok cell_score (fields (dv t) o) -> zin_step c o t ->
  co_Incr opt = false -> member_ok m -> (exists l, id = EncodeCellID l) -> zcard (dv t) o < MaxInt64 ->
  let '(new, n) := pattern_step opt id (zscores o t m) in
  wp (zadd o m (mkNumber true id 0) opt) t (fun r t' =>
    (exists q, r = inr (q, n)) /\
    scores_after cell_score c o t t' (new_score m new (zscores o t)) (grown (zscores o t m) new)).
Proof.
  intros Hr Hc Hgeo Hz Hi Hincr Hm [l El] Hmax. pose proof (scores_after_same _ c o t m Hr Hz Hi) as Hsame.
  assert (in_u64 id) as Hid by (rewrite El; apply CellIDFromLatLng_u64).
  assert (cell_score (pattern id)) as Hcs by (rewrite El; apply cell_score_pattern). clear l El.
  pose proof (Number_Encode_cell id 0 Hid) as Hq. pose proof (pattern_range id Hid) as Hp.
  unfold zadd, pattern_step. rewrite Hgeo, Hincr.
  destruct (zscores o t m) as [old|] eqn:Eold.
  2: { assert (fields (dv t) o (EncodeMemberKey m) = None) as E by by eapply missing_member.
    destruct (has_check opt CheckExist); apply wp_bind, (wp_member_Get c); try done; rewrite E.
    - split; [by eexists|done].
    - apply wp_bind, (wp_PutZset_new (P := cell_score) c o m (pattern id) (mkNumber true id 0)); [done..|].
      intros t' r Ha. split; [by eexists|done]. }
  destruct (present_member _ _ _ _ Eold) as (b&Hb&Hs). pose proof (proj1 (score_of_ok _ _ _ _ Hz Eold)) as Ho.
  destruct (decode_stored_cell b old Hs) as (v&Hv&Hdec).
  pose proof (EncodeFloatUint_range old Ho) as Hor. pose proof (pattern_cell old Ho) as Hpo.
  set (new := if has_check opt CheckNotExist then _ else _).
  enough (wp (zadd o m (mkNumber true id 0) opt) t (fun r t' => (exists q, r = inr (q, snd new)) /\
    scores_after cell_score c o t t' (new_score m (fst new) (zscores o t)) (grown (Some old) (fst new)))) as Hw.
  { destruct new as [nw n]. unfold zadd in Hw. rewrite Hgeo, Hincr in Hw. exact Hw. }
  unfold zadd. rewrite Hgeo, Hincr. apply wp_bind, (wp_member_Get c); [done..|]. rewrite Hb. unfold new.
  destruct (has_check opt CheckNotExist); [split; [by eexists|done]|].
  rewrite Hv. apply wp_bind. eapply returns_wp; [apply Hdec|]. cbn [Number_IsNan IsInt negb].
  unfold Number_Compare. cbn [IsInt Uint64].
  destruct (Z.ltb_spec id (EncodeFloatUint old)), (Z.gtb_spec id (EncodeFloatUint old)),
    (Z.leb_spec id (EncodeFloatUint old)), (Z.geb_spec id (EncodeFloatUint old)), (Z.eqb_spec id (EncodeFloatUint old));
    try lia; destruct (has_check opt CheckGT), (has_check opt CheckLT); cbn [andb]; compute_tests;
    try (by split; [eexists|exact Hsame]);
    (apply wp_bind, (wp_PutZset_move (P := cell_score) c o m (pattern id) old (mkNumber true id 0)
       (mkNumber true (EncodeFloatUint old) 0)); [done..| | |lia|by intros t' r Ha; split; [eexists|]];
     [by rewrite Number_Encode_cell, pattern_cell|by intros ->; rewrite cell_pattern in *]).
Qed.

Definition place_ok (e : bytes * Number) : Prop :=
  member_ok (fst e) /\ exists l, snd e = mkNumber true (EncodeCellID l) 0.

Lemma set_place_ok m s l : place_ok (m, s) -> Forall place_ok l -> Forall place_ok (set_member m s l).
Proof.
  intros He. induction 1 as [|[m' s'] l Hx Hl IH]; cbn [set_member]; [by constructor|].
  case_bool_decide; by constructor.
Qed.

Lemma geo_places_ok args l ms : Forall member_ok args -> Forall place_ok l ->
  geo_places args l = inr ms -> Forall place_ok ms.
Proof.
  assert (forall n args l, (length args <= n)%nat -> Forall member_ok args -> Forall place_ok l ->
    geo_places args l = inr ms -> Forall place_ok ms) as Hn; [|by apply (Hn (length args))].
  induction n as [|n IH]; intros [|lng [|lat [|m rest]]] l' Hlen Ha Hl; simpl in Hlen; try lia;
    cbn [geo_places]; try by intros [= <-].
  destruct (checkGeoLocation [lng; lat]) as [e|loc]; [done|].
  apply Forall_cons in Ha as [_ Ha]. apply Forall_cons in Ha as [_ Ha]. apply Forall_cons in Ha as [Hm Ha].
  apply IH; [lia|done|]. apply set_place_ok; [|done]. split; [done|]. by exists loc.
Qed.

Lemma getCheckOption_length args q opt rest : getCheckOption args q = inr (opt, rest) -> len rest <= len args.
Proof.
  revert q. induction args as [|a args IH]; intros q; cbn [getCheckOption]; [by intros [= _ <-]|].
  destruct (check_word a q) as [[e|q']|]; [done|intros E%IH; rewrite len_cons; lia|intros [= _ <-]; done].
Qed.

(** C25. GEOADD on a key that holds places: the members move into the cells of their
    coordinates under the options NX, XX, GT and LT, as on the reference map of cells;
    the reply counts the members that are new and, with CH, those that moved; the entries
    by cell stay the mirror image of the members', and the number of members and its
    counters move by the members that are new. *)
Theorem GeoAddHandle_refines c t k o opts opt places ms :
  ready c t -> key_ok k -> good_header c t k -> gholds c t k o ->
  getCheckOption opts no_check = inr (opt, places) -> co_Incr opt = false ->
  places <> [] -> len places mod 3 = 0 -> geo_places places [] = inr ms ->
  Forall member_ok places -> zcard (dv t) o + len ms <= MaxInt64 ->
  let '(count, n, z) := put_all (fun q => cell_step opt (Uint64 q)) ms (cells o t) in
  wp (GeoAddHandle (k :: opts)) t (fun r t' =>
    r = RInt count /\ (forall m, cells o t' m = z m) /\ gholds c t' k o /\
    zcard (dv t') o = zcard (dv t) o + n).
Proof.
  intros Hr Hk Hg Hh Hopt Hincr Hne Hmod Hms Hok Hmax.
  destruct (gholds_collection _ _ _ _ Hh) as [Hc Hgeo].
  pose proof (geo_places_ok _ _ _ Hok (Forall_nil_2 _) Hms) as Hpl.
  pose proof (getCheckOption_length _ _ _ _ Hopt) as Hlen.
  assert (3 <= len places /\ go_rem (len places - 3) 3 = 0) as [Hp3 Hrem].
  { pose proof (len_nonneg places). assert (len places <> 0) as Hnz.
    { destruct places as [|x l]; [done|]. rewrite len_cons. pose proof (len_nonneg l). lia. }
    assert (3 <= len places) as Hp.
    { pose proof (Z.div_mod (len places) 3 ltac:(lia)). lia. }
    split; [done|]. unfold go_rem. rewrite Z.rem_mod_nonneg by lia.
    replace (len places - 3) with (len places + -1 * 3) by lia. by rewrite Z_mod_plus_full. }
  destruct (put_all_map (fun q => cell_step opt (Uint64 q)) (fun q => pattern_step opt (Uint64 q)) EncodeFloatUint
    place_ok ms (cells o t) (zscores o t)) as [E1 E2]; [|done..|].
  { intros m a old [_ (l&Ha)]. cbn [snd] in Ha. subst a. apply cell_step_pattern, CellIDFromLatLng_u64. }
  pose proof (zaddMembers_loop_puts (P := cell_score) (fun q => q) (fun q => pattern_step opt (Uint64 q)) place_ok
    c o opt ms 0 zero_number t) as Hw.
  destruct (put_all (fun q => cell_step opt (Uint64 q)) ms _) as [[count n] z],
    (put_all (fun q => pattern_step opt (Uint64 q)) ms _) as [[count' n'] z'].
  cbn [fst snd] in E1, E2. injection E1 as <- <-.
  assert (prod_map id (fun q : Number => q) <$> ms = ms) as Em.
  { rewrite <- (list_fmap_id ms) at 2. apply list_fmap_ext. by intros _ [m q] _. }
  rewrite Em in Hw.
  unfold GeoAddHandle. rewrite len_cons. destruct (Z.ltb_spec (1 + len opts) 4); [lia|].
  change (drop 1 (k :: opts)) with opts. cbn [arg nth]. rewrite Hopt, Hrem, Hincr, Hms.
  destruct (Z.ltb_spec (len places) 3); [lia|]. cbn [negb orb Z.eqb].
  apply wp_bind, (wp_GetOrCreate_found c t k GeoType o); [done..|apply Hh|apply Hh|done|].
  unfold zaddMembers. apply wp_on_value. eapply wp_mono; [apply Hw; try done; try apply Hh|].
  - clear - Hincr Hgeo H2. intros m a t [Hm (l&Ha)] Hr Hc Hz Hi Hmax. cbn [fst snd] in Hm, Ha. subst a.
    apply (zadd_cell c o m (EncodeCellID l) opt t); try done. by exists l.
  - intros r t' [[q ->] Ha]. rewrite Hincr. apply wp_ret. split; [done|].
    split; [|split; [by eapply gholds_after|apply Ha]].
    intros m. unfold cells, zscores. rewrite (za_score _ _ _ _ _ _ Ha). by rewrite E2.
Qed.

(** ** Searches *)

Definition in_range (r : Range) (e : scored) : Prop := Min r <= EncodeFloatUint (fst e) <= Max r.
#[export] Instance in_range_dec r e : Decision (in_range r e).
Proof. unfold in_range. apply _. Defined.
Definition range_ok (r : Range) : Prop := in_u64 (Min r) /\ in_u64 (Max r) /\ Min r <= Max r.

Lemma RegionRange_ok region : Forall range_ok (RegionRange region).
Proof.
  unfold RegionRange. apply Forall_fmap, Forall_true. intros id. unfold range_ok. cbn [compose Min Max].
  split; [apply CellID_RangeMin_u64|]. split; [apply CellID_RangeMax_u64|apply CellID_RangeMin_Max].
Qed.

(** The numbers between which a range lists. *)
Definition pattern_interval (r : Range) : interval float64 :=
  mkInterval (pattern (Min r)) (pattern (Max r)) true true.

Lemma pattern_within r s : range_ok r -> encoded_within (pattern_interval r) s = true <-> Min r <= EncodeFloatUint s <= Max r.
Proof.
  intros (Hmin&Hmax&_). unfold encoded_within, pattern_interval. cbn [iv_min iv_max].
  rewrite !cell_pattern by done. rewrite andb_true_iff, !Z.leb_le. done.
Qed.

Definition cell_items (e : scored) : list item :=
  [IMember (snd e); IScore (mkNumber true (EncodeFloatUint (fst e)) 0)].

Lemma getScoreMember_cell o r e t : range_ok r -> in_u64 (fst e) -> in_range r e ->
  getScoreMember (scored_key o e) (GetValueBytes o []) (cell_interval r) false t =
  Ret (inr (mkNumber true (EncodeFloatUint (fst e)) 0, snd e)) t.
Proof.
  destruct e as [s m]. unfold in_range. cbn [fst snd]. intros Hr Hs Hin.
  unfold getScoreMember, scored_key. cbn [fst snd].
  assert ((len (GetValueBytes o (score_key s m)) <? len (GetValueBytes o []) + 8 + 1) = false) as ->.
  { rewrite !len_GetValueBytes, len_score_key. pose proof (len_nonneg m).
    change (len (@nil Init.Byte.byte)) with 0. apply Z.ltb_ge. lia. }
  rewrite <- Nat.add_assoc, !drop_value_key. change (drop 1 (score_key s m)) with (EncodeFloat s ++ m).
  change (drop (8 + 1) (score_key s m)) with (drop 8 (EncodeFloat s ++ m)).
  rewrite (drop_app_length' (EncodeFloat s) m 8) by by rewrite length_EncodeFloat.
  assert (decode_number (mkNumber true 0 0) (EncodeFloat s ++ m) t = Ret (mkNumber true (EncodeFloatUint s) 0) t) as Hd.
  { unfold decode_number, Number_Decode. cbn [IsInt]. rewrite len_app. unfold len at 1. rewrite length_EncodeFloat.
    pose proof (len_nonneg m). destruct (Z.ltb_spec (Z.of_nat 8 + len m) 8); [lia|].
    rewrite (take_app_length' (EncodeFloat s) m 8) by by rewrite length_EncodeFloat.
    unfold EncodeFloat. rewrite be_get_put, Z.mod_small by by apply EncodeFloatUint_range. done. }
  unfold bind. change (IsInt (iv_min (cell_interval r))) with true. rewrite Hd.
  unfold cell_interval, Number_Compare. cbn [iv_min iv_max iv_includeMin iv_includeMax IsInt Uint64 negb andb].
  destruct (Z.ltb_spec (EncodeFloatUint s) (Min r)); [lia|].
  destruct (Z.gtb_spec (EncodeFloatUint s) (Max r)); [lia|].
  destruct (EncodeFloatUint s >? Min r), (EncodeFloatUint s <? Max r); reflexivity.
Qed.

Lemma cell_listing o r limit zlimit t start end_ v L count st :
  range_ok r -> Forall (fun e => in_u64 (fst e) /\ in_range r e) L ->
  (forall e, e ∈ L -> bytes_ltb (scored_key o e) start || bytes_leb end_ (scored_key o e) = false) ->
  0 < limit -> 0 <= count -> count + len L < limit -> 0 <= cl_count st -> cl_cnt st + len L < zlimit ->
  exists st', List_on start end_ limit
      (score_callback (GetValueBytes o []) (cell_interval r) (mkRange 0 zlimit true false 0))
      ((fun e => (scored_key o e, v e)) <$> L) count st t = Ret (st', None) t /\
    cl_items st' = cl_items st ++ concat (cell_items <$> L).
Proof.
  intros Hr. revert count st. induction L as [|e L IH]; intros count st Hall Hin Hlim Hc Hlen Hcount Hcnt.
  { exists st. split; [done|]. by rewrite app_nil_r. }
  apply Forall_cons in Hall as [[Hs Hw] Hall]. rewrite len_cons in Hlen, Hcnt. pose proof (len_nonneg L) as HL.
  cbn [fmap list_fmap List_on]. rewrite (Hin e) by by left.
  unfold bind at 1. unfold score_callback at 1. unfold bind at 1. cbn [zo_reversed zo_offset zo_withScores zo_limit].
  rewrite getScoreMember_cell by done. cbv beta iota zeta.
  change (i64 (0 + 1)) with 1. destruct (Z.ltb_spec (cl_count st + 1) 1); [lia|].
  unfold ret at 1. destruct (Z.gtb_spec limit 0); [|lia].
  destruct (Z.ltb_spec (cl_cnt st + 1) zlimit); [|lia]. cbn [negb andb].
  destruct (Z.geb_spec (count + 1) limit); [lia|]. set (st1 := {| cl_items := _; cl_count := _; cl_cnt := _ |}).
  destruct (IH (count + 1) st1) as (st'&E&Hi); unfold st1 in *; cbn [cl_cnt cl_count cl_items] in *; try lia; try done.
  { intros x Hx. apply Hin. by right. }
  exists st'. split; [exact E|]. rewrite Hi. cbn [concat app]. by rewrite <- app_assoc.
Qed.

Lemma cell_range_run c o r t L :
  ready c t -> scores_ok cell_score (fields (dv t) o) -> in_order (zscores o t) L -> range_ok r ->
  len L < ScanMaxCount c ->
  objectZRangeByScore o (cell_interval r) (mkRange 0 (ScanMaxCount c) true false 0) t =
  Ret (inr (concat (cell_items <$> base.filter (in_range r) L))) t.
Proof.
  intros Hr Hz HL Hok Hlen. pose proof Hok as (Hmin&Hmax&Hle).
  pose proof (pattern_range _ Hmin) as Hpmin. pose proof (pattern_range _ Hmax) as Hpmax.
  unfold objectZRangeByScore, ListByScore. cbn [zo_reversed]. unfold bind at 1. unfold bind at 1.
  rewrite (get_config_run c) by done.
  assert (GetValueBytes o (EncodeScoreKey (iv_min (cell_interval r)) []) = start_of o (pattern_interval r)) as ->.
  { unfold start_of, EncodeScoreKey, cell_interval. cbn [iv_min]. by rewrite Number_Encode_cell. }
  assert (GetValueBytes o (EncodeScoreNext (iv_max (cell_interval r))) = end_of o (pattern_interval r)) as ->.
  { unfold end_of, EncodeScoreNext, cell_interval. cbn [iv_max]. by rewrite Number_Encode_cell. }
  rewrite List_forward; [|by apply (rd_up c)|].
  2: { apply not_true_iff_false. rewrite bytes_ltb_spec, blt_not_ble. intros Hn. apply Hn. rewrite end_of_eq.
    apply ble_value, blt_ble.
    change (EncodeScoreKey (float_number (iv_min (pattern_interval r))) []) with (score_key (pattern (Min r)) []).
    apply below_end; [done..|]. cbn [pattern_interval iv_max]. by rewrite !cell_pattern. }
  rewrite (range_scored o t Hz L HL (pattern_interval r) Hpmin Hpmax).
  assert (base.filter (fun e => encoded_within (pattern_interval r) (fst e) = true) L = base.filter (in_range r) L) as ->
    by (apply list_filter_iff; intros e; by apply pattern_within).
  set (L1 := base.filter (in_range r) L).
  assert (forall e, e ∈ L1 -> in_u64 (fst e) /\ in_range r e) as Hall.
  { intros e [Hw He]%list_elem_of_filter. split; [by apply score_range, (in_order_score o t Hz L HL)|done]. }
  assert (len L1 <= len L) as HL1 by (unfold len, L1; apply inj_le, length_filter).
  destruct (cell_listing o r (ScanMaxCount c) (ScanMaxCount c) t (start_of o (pattern_interval r))
    (end_of o (pattern_interval r)) (fun e => default [] (t_view t !! scored_key o e)) L1 0 collected0) as (st'&E&Hi);
    [done|by rewrite Forall_forall| | |done|exact (Z.le_lt_trans _ _ _ HL1 Hlen)|done|exact (Z.le_lt_trans _ _ _ HL1 Hlen)|].
  - intros e He. destruct (Hall e He) as [Hs Hw]. apply (pattern_within r) in Hw; [|done].
    apply (scored_in_range o (pattern_interval r) e) in Hw as [H1' H2']; [|done..].
    apply orb_false_iff. split; apply not_true_iff_false; rewrite ?bytes_ltb_spec, ?bytes_leb_spec.
    + by rewrite blt_not_ble; intros Hn.
    + apply below_spec in H2' as [H2'|H2']; [by apply end_of_nonempty in H2'|]. by apply blt_not_ble.
  - pose proof (len_nonneg L). lia.
  - unfold with_value. rewrite E. cbv beta iota. unfold ret. by rewrite Hi.
Qed.

(** What a search notes of a member. *)
Definition geo_info (opt : geoOption) (m : bytes) (id : Z) : GeoInfo :=
  {| gi_Location := DecodeCellID id; gi_Member := m;
     gi_Distance := Distance (DecodeCellID id) (go_Center opt); gi_CellID := id |}.

Definition inside (region : Region) (e : scored) : Prop :=
  RegionContains (DecodeCellID (EncodeFloatUint (fst e))) region = true.
#[export] Instance inside_dec region e : Decision (inside region e).
Proof. unfold inside. apply _. Defined.
Definition hits (region : Region) (opt : geoOption) (L : list scored) : list GeoInfo :=
  (fun e => geo_info opt (snd e) (EncodeFloatUint (fst e))) <$> base.filter (inside region) L.

Lemma geo_collect_run region opt L ps t : go_Any opt = false ->
  geo_collect (concat (cell_items <$> L)) region opt ps t = Ret (ps ++ hits region opt L, false) t.
Proof.
  intros Hany. revert ps. induction L as [|e L IH]; intros ps; [by rewrite app_nil_r|].
  cbn [fmap list_fmap concat app cell_items geo_collect Uint64]. rewrite Hany. cbn [andb]. unfold hits.
  destruct (RegionContains _ region) eqn:E.
  - rewrite filter_cons_True by done. rewrite IH. cbn [fmap list_fmap]. by rewrite <- app_assoc.
  - rewrite filter_cons_False by (unfold inside; by rewrite E). apply IH.
Qed.

Lemma geo_ranges_run c o L ranges region opt ps t :
  ready c t -> scores_ok cell_score (fields (dv t) o) -> in_order (zscores o t) L -> Forall range_ok ranges ->
  len L < ScanMaxCount c -> go_Any opt = false ->
  geo_ranges o ranges region opt ps t =
  Ret (inr (ps ++ concat ((fun r => hits region opt (base.filter (in_range r) L)) <$> ranges))) t.
Proof.
  intros Hr Hz HL Hok Hlen Hany. revert ps. induction Hok as [|r ranges Hok _ IH]; intros ps.
  { cbn [geo_ranges fmap list_fmap concat]. by rewrite app_nil_r. }
  cbn [geo_ranges fmap list_fmap concat]. unfold bind at 1. rewrite (get_config_run c) by done.
  unfold on_value, bind. rewrite (cell_range_run c o r t L) by done. rewrite geo_collect_run by done.
  by rewrite IH, app_assoc.
Qed.

(** The search from the place of a member. *)
Definition centred (o : Object) (t : Txn) (member : option bytes) (opt : geoOption) : option geoOption :=
  match member with
  | None => Some opt
  | Some m => (fun id => set_center (DecodeCellID id) opt) <$> cells o t m
  end.

Lemma elem_of_found c o t L region opt i : ready c t -> scores_ok cell_score (fields (dv t) o) ->
  in_order (zscores o t) L -> Covers ->
  i ∈ concat ((fun r => hits region opt (base.filter (in_range r) L)) <$> RegionRange region) <->
  exists m id, cells o t m = Some id /\ RegionContains (DecodeCellID id) region = true /\ i = geo_info opt m id.
Proof.
  intros Hr Hz HL Hcov. rewrite list_elem_of_In, in_concat. setoid_rewrite <- list_elem_of_In. split.
  - intros (l&(r&->&_)%list_elem_of_fmap&Hi). unfold hits in Hi.
    apply list_elem_of_fmap in Hi as ([s m]&->&[Hc [_ He]%list_elem_of_filter]%list_elem_of_filter).
    exists m, (EncodeFloatUint s). split; [|done]. unfold cells. apply (io_elem _ _ HL) in He. by rewrite He.
  - intros (m&id&Hm&Hc&->). unfold cells in Hm. destruct (zscores o t m) as [s|] eqn:Es; [|done].
    injection Hm as <-. pose proof (score_of_ok _ _ _ _ Hz Es) as Hs.
    destruct Hs as [_ [l El]]. rewrite El in Hc. destruct (region_covered region l Hc) as (r&Hin&Hw). rewrite <- El in *.
    exists (hits region opt (base.filter (in_range r) L)). split; [apply list_elem_of_fmap; by exists r|].
    apply list_elem_of_fmap. exists (s, m). split; [done|]. apply list_elem_of_filter. split; [done|].
    apply list_elem_of_filter. split; [done|]. by apply (io_elem _ _ HL).
Qed.

Context `{SortSlice}.

Lemma geoSearchHandle_run c o t L opt region :
  ready c t -> scores_ok cell_score (fields (dv t) o) -> in_order (zscores o t) L -> len L < ScanMaxCount c ->
  geo_region opt = Some region -> go_Any opt = false ->
  geoSearchHandle o opt t =
  Ret (RArr (geo_reply opt <$> geo_select opt
    (concat ((fun r => hits region opt (base.filter (in_range r) L)) <$> RegionRange region)))) t.
Proof.
  intros Hr Hz HL Hlen Hreg Hany. unfold geoSearchHandle. rewrite Hreg. unfold on_value, bind.
  rewrite (geo_ranges_run c o L) by (first [done | apply RegionRange_ok]). done.
Qed.

(** The search around a member reads its cell. *)
Lemma zgetMember_run c o t m id Q : ready c t -> collection t o -> scores_ok cell_score (fields (dv t) o) ->
  member_ok m -> cells o t m = Some id ->
  (forall v, (forall t', decode_cell (v_Value v) t' = Ret id t') -> Q (inr (Some v)) t) ->
  wp (zgetMember o m) t Q.
Proof.
  intros Hr Hc Hz Hm Hid HQ. unfold zgetMember. apply wp_bind, (wp_member_Get c); [done..|].
  unfold cells in Hid. destruct (zscores o t m) as [s|] eqn:Es; [|done]. injection Hid as <-.
  destruct (present_member _ _ _ _ Es) as (b&->&Hb). destruct (decode_stored_cell b s Hb) as (v&->&Hd).
  apply wp_ret, HQ. intros t'. unfold decode_cell, bind. by rewrite Hd.
Qed.

(** C26. GEOSEARCH without ANY on a key that holds fewer than [ScanMaxCount] places, when the
    ranges of cells cover the region:
    the positions it selects from are those of all members whose cell lies in the circle
    or the box, and of no other, with their distances from the center, which is the place
    of the member FROMMEMBER names or the coordinates of FROMLONLAT; it changes nothing. *)
Theorem GeoSearchHandle_finds c t k o L opts opt member opt' region :
  ready c t -> key_ok k -> good_header c t k -> gholds c t k o -> in_order (zscores o t) L ->
  len L < ScanMaxCount c -> Covers ->
  checkGeoOption opts None = inr (opt, member) -> go_FromLonLat opt || go_FromMember opt = true ->
  (forall m, member = Some m -> member_ok m) ->
  centred o t member opt = Some opt' -> geo_region opt' = Some region -> go_Any opt = false ->
  wp (GeoSearchHandle (k :: opts)) t (fun r t' =>
    t' = t /\ exists positions, r = RArr (geo_reply opt' <$> geo_select opt' positions) /\
      forall i, i ∈ positions <->
        exists m id, cells o t m = Some id /\ RegionContains (DecodeCellID id) region = true /\
                     i = geo_info opt' m id).
Proof.
  intros Hr Hk Hg Hh HL Hlen Hcov Hopt Hfrom Hmem Hcen Hreg Hany.
  destruct (gholds_collection _ _ _ _ Hh) as [Hc _].
  assert (wp (geoSearchHandle o opt') t (fun r t' => t' = t /\ exists positions,
    r = RArr (geo_reply opt' <$> geo_select opt' positions) /\
      forall i, i ∈ positions <-> exists m id, cells o t m = Some id /\
        RegionContains (DecodeCellID id) region = true /\ i = geo_info opt' m id)) as Hs.
  { eapply returns_wp; [apply (geoSearchHandle_run c o t L opt' region); try done; [apply Hh|]|].
    - destruct member as [m|]; cbn [centred] in Hcen; [|by injection Hcen as <-].
      destruct (cells o t m); [|done]. injection Hcen as <-. by destruct opt.
    - split; [done|]. eexists. split; [done|]. intros i. eapply elem_of_found; [done|apply Hh|done..]. }
  assert (negb (go_FromLonLat opt') && negb (go_FromMember opt') = false /\
    negb (is_some (go_ByBox opt')) && negb (is_some (go_ByRadius opt')) = false) as [E1 E2].
  { split.
    - rewrite <- negb_orb. apply negb_false_iff. destruct member as [m|]; cbn [centred] in Hcen; [|by injection Hcen as <-].
      destruct (cells o t m); [|done]. injection Hcen as <-. by destruct opt.
    - unfold geo_region in Hreg. by destruct (go_ByRadius opt'), (go_ByBox opt') as [[??]|]. }
  unfold GeoSearchHandle. rewrite len_cons. pose proof (len_nonneg opts). destruct (Z.ltb_spec (1 + len opts) 1); [lia|].
  change (drop 1 (k :: opts)) with opts. cbn [arg nth]. rewrite Hopt.
  apply wp_bind, (wp_lookup_found c t k GeoType o); [done..|apply Hh|apply Hh|done|]. cbv beta iota zeta.
  destruct member as [m|]; cbn [centred] in Hcen; [|injection Hcen as <-; by rewrite E1, E2].
  destruct (cells o t m) as [id|] eqn:Eid; [|done]. cbn [fmap option_fmap option_map] in Hcen. injection Hcen as <-.
  apply wp_on_value. apply (zgetMember_run c o t m id); [done..|apply Hh|by apply Hmem|done|].
  intros v Hd. apply wp_bind. eapply returns_wp; [apply Hd|]. by rewrite E1, E2.
Qed.

(** Sorting by a distance and COUNT keep what is nearest (or farthest): nothing that is
    left out is nearer than what is kept. *)
Lemma geo_select_best opt ps a b :
  (forall x, x ∈ ps -> is_score (gi_Distance x)) -> go_Direction opt <> UnSorted ->
  a ∈ geo_select opt ps -> b ∈ drop (length (geo_select opt ps)) (sort_Slice (geo_less opt) ps) ->
  geo_less opt b a = false.
Proof.
  intros Hd Hdir. unfold geo_select. apply Z.eqb_neq in Hdir. rewrite Hdir. cbn [negb].
  set (l := sort_Slice (geo_less opt) ps).
  assert (StronglySorted (fun a b => geo_less opt b a = false) l) as Hs.
  { apply sort_Slice_sorted.
    - intros x y z Hx Hy Hz. unfold geo_less, fgt. rewrite !flt_srank by auto.
      destruct (go_Direction opt =? Asc); rewrite !Z.ltb_ge; lia.
    - intros x y Hx Hy. unfold geo_less, fgt. rewrite !flt_srank by auto.
      destruct (go_Direction opt =? Asc); rewrite Z.ltb_lt, Z.ltb_ge; lia. }
  assert (forall n, a ∈ take n l -> b ∈ drop n l -> geo_less opt b a = false) as Hcut.
  { intros n Ha Hb. rewrite <- (take_drop n l) in Hs. apply StronglySorted_app in Hs as (Hs&_&_). by apply Hs. }
  destruct (_ && _); intros Ha Hb.
  - eapply Hcut; [exact Ha|]. rewrite length_take in Hb.
    destruct (decide (Z.to_nat (go_Count opt) <= length l)%nat) as [Hl|Hl].
    + by rewrite Nat.min_l in Hb.
    + rewrite Nat.min_r, drop_all in Hb by lia. by apply elem_of_nil in Hb.
  - rewrite drop_all in Hb. by apply elem_of_nil in Hb.
Qed.

End spec.
