(* ===== verification/JsonSpec.v ===== *)
(** What the JSON commands promise: JSON.SET at the root as an update of the database,
    commands that read change nothing, and commands that edit write the document that they
    computed, and no other key. *)

From S2P Require Import Prelude Xerror GoStd Utils Float Strconv Store Ranges Mem Object Reply.
From S2P Require Import ObjectSpec Generic GenericSpec Strings StringsSpec Json JsonCmd.
From Stdlib Require Import Init.Byte.

#[local] Open Scope Z_scope.

(** What the commands rely on: an index from the size on is refused, and reading an element
    leaves the array as long as it is. *)
Class AjsonSpec `{Ajson} := {
  GetIndex_range o i h : Size o h <= i -> exists e h', GetIndex o i h = (inl e, h');
  GetIndex_size o i h : Size o (snd (GetIndex o i h)) = Size o h
}.

Section spec.
Context `{PlatformSpec} `{Ajson}.

(** ** Documents *)

Lemma json_simple o : beq JsonType (o_Type o) = true -> IsSimple o = true.
Proof. unfold beq, IsSimple. rewrite bool_decide_eq_true. intros <-. done. Qed.

(** The document under a key, or a fresh one. *)
Definition json_or_new (c : Config) (t : Txn) (k : bytes) : Object :=
  match find c t (dv t) k with Some o => o | None => the_object c t JsonType k end.
Definition json_settable (f : bytes -> option Object) (k : bytes) : bool :=
  match f k with Some o => beq JsonType (o_Type o) | None => true end.

Lemma fresh_json_wf c t k v : ready c t -> wf_object (with_value (t_Timestamp t) v (the_object c t JsonType k)) /\
  len (ObjectEncode (with_value (t_Timestamp t) v (the_object c t JsonType k))) = 19 + len v.
Proof.
  intros Hr. split.
  - split; [apply Hr|]. split; [done|]. split; [apply Hr|]. split; [|split; [by eexists|done]].
    cbn. destruct (Z.eqb_spec (ObjectHash c) 0); [done|apply Hr].
  - rewrite ObjectEncode_length. cbn. unfold len at 2. simpl. unfold id. lia.
Qed.

(** A new text in the document, whose expiry stays. *)
Lemma wp_put_json c k v change o t t1 d (Q : option error -> Txn -> Prop) :
  ready c t -> key_ok k -> len v < MAX_VALUE_SIZE - 19 -> json_settable (find c t (dv t)) k = true ->
  o = json_or_new c t k -> dwrote c t t1 d -> (forall k', find c t d k' = find c t (dv t) k') ->
  has change DeleteKeyType = false ->
  (forall t', ready c t' -> same_env t t' ->
     (forall x, find c t (dv t') x = upd k (with_value (t_Timestamp t) v o) (find c t (dv t)) x) -> Q None t') ->
  wp (setTxnObject (ObjectKeyBytes o) (with_value (t_Timestamp t) v o) change) t1 Q.
Proof.
  intros Hr Hk Hv Hs Eo Hw Hf Hc HQ. unfold json_settable in Hs. unfold json_or_new in Eo.
  assert (wf_object (with_value (t_Timestamp t) v o) /\ o_UserId o = t_UserId t /\ o_Db o = t_DBId t /\
    o_Key o = k /\ expired (t_Now t) o = false /\ len (ObjectEncode (with_value (t_Timestamp t) v o)) = 19 + len v)
    as (Hwf&Eu&Ed&Ek&Hx&Hl).
  { destruct (find c t (dv t) k) as [o'|] eqn:Ef; subst o.
    - destruct (find_key _ _ _ _ _ Ef) as (_&?&?&?&_&?). destruct (find_wf _ _ _ _ Hr Ef) as [Hwf _].
      apply json_simple in Hs. split; [|repeat split; try done; by apply len_with_value].
      apply with_value_wf; [done..|apply Hr].
    - destruct (fresh_json_wf c t k v Hr) as [Hwf Hl]. split; [exact Hwf|]. by split_and!. }
  change (ObjectKeyBytes o) with (ObjectKeyBytes (with_value (t_Timestamp t) v o)).
  apply (wp_put_object c k _ _ t t1 d); try done; [unfold key_ok in Hk; lia|lia|].
  intros t' Hw' Hf'. apply HQ; [apply Hw'|apply Hw'|done].
Qed.

(** Nothing has changed. *)
Definition unchanged (c : Config) (t t' : Txn) : Prop :=
  ready c t' /\ same_env t t' /\ forall k, find c t (dv t') k = find c t (dv t) k.

Lemma unchanged_dwrote c t t' d : dwrote c t t' d -> (forall k, find c t d k = find c t (dv t) k) -> unchanged c t t'.
Proof. intros Hw Hf. split; [apply Hw|]. split; [apply Hw|]. intros k. by rewrite (dw_view _ _ _ _ Hw). Qed.

(** ** JSON.SET *)

(** C27. JSON.SET at the root refines an update of the database: on a missing key or a
    document, a valid text becomes the value of the key, which keeps its expiry, and every
    other key is unchanged; an invalid text and a key of another type are refused, and XX
    on a missing key and NX on a document reply nil, without a change. *)
Theorem JsonSetHandle_refines c k path v opts check t :
  ready c t -> key_ok k -> good_header c t k -> len v < MAX_VALUE_SIZE - 19 -> is_root path = true ->
  len opts <= 1 -> set_check (k :: path :: v :: opts) = inr check ->
  wp (JsonSetHandle (k :: path :: v :: opts)) t (fun r t' =>
    if negb (json_settable (find c t (dv t)) k) then failed c t WrongTypeErr r t'
    else if check =? match find c t (dv t) k with Some _ => CheckNotExist | None => CheckExist end
    then r = RNil /\ unchanged c t t'
    else if Valid v then
      r = OK /\ ready c t' /\ same_env t t' /\
      forall x, find c t (dv t') x =
        upd k (with_value (t_Timestamp t) v (json_or_new c t k)) (find c t (dv t)) x
    else failed c t InvalidJsonError r t').
Proof.
  intros Hr Hk Hg Hv Hp Hl Hc. unfold JsonSetHandle.
  assert ((len (k :: path :: v :: opts) <? 3) || (len (k :: path :: v :: opts) >? 4) = false) as ->.
  { rewrite !len_cons. pose proof (len_nonneg opts). apply orb_false_iff.
    split; [apply Z.ltb_ge; lia|]. rewrite Z.gtb_ltb. apply Z.ltb_ge. lia. }
  rewrite Hc. cbn [arg nth]. rewrite Hp.
  apply wp_bind, (wp_lookup_typed c); [done|unfold key_ok in Hk; lia|done|done|].
  intros t1 d1 Hw1 Hf1 _ _. unfold json_settable.
  assert (forall o create, o = json_or_new c t k -> json_settable (find c t (dv t)) k = true ->
    has create DeleteKeyType = false ->
    wp (let! t := get_txn in
        do! setTxnObject (ObjectKeyBytes o) (set_o_Timestamp (t_Timestamp t) (set_o_Value (Some v) o)) create
        else reply_err in ret OK) t1
      (fun r t' => r = OK /\ ready c t' /\ same_env t t' /\
        forall x, find c t (dv t') x = upd k (with_value (t_Timestamp t) v (json_or_new c t k)) (find c t (dv t)) x)) as Hput.
  { intros o create Eo Hs Hcr. apply wp_bind, wp_get_txn. destruct (dw_env _ _ _ _ Hw1) as []. rewrite se_Timestamp.
    fold (with_value (t_Timestamp t) v o). apply wp_on_done, (wp_put_json c k v create o t t1 d1); try done.
    intros t' Hr' He Hf. apply wp_ret. split; [done|]. split; [done|]. split; [done|]. by rewrite <- Eo. }
  pose proof (unchanged_dwrote c t t1 d1 Hw1 Hf1) as Hun.
  assert (json_or_new c t k = match find c t (dv t) k with Some o => o | None => the_object c t JsonType k end)
    as Ej by done.
  assert (json_settable (find c t (dv t)) k = match find c t (dv t) k with
    Some o => beq JsonType (o_Type o) | None => true end) as Es by done.
  destruct (find c t (dv t) k) as [o|].
  - destruct (beq JsonType (o_Type o)); cbn [negb]; [|by apply (wp_reply_err c t t1 d1)].
    destruct (check =? CheckNotExist); [by apply wp_ret|].
    destruct (Valid v); cbn [negb]; [by apply Hput|by apply (wp_reply_err c t t1 d1)].
  - cbn [negb]. destruct (check =? CheckExist); [by apply wp_ret|].
    destruct (Valid v); cbn [negb]; [by apply Hput|by apply (wp_reply_err c t t1 d1)].
Qed.

(** ** Commands that read *)

(** The data of the store is as it was. *)
Definition kept (c : Config) (t t' : Txn) : Prop := ready c t' /\ dv t' = dv t.

Lemma wp_kept_err c t t1 e : kept c t t1 -> wp (reply_err e) t1 (fun _ t' => kept c t t').
Proof. intros [Hr Hd]. split; [by apply ready_with_Err|done]. Qed.

Lemma wp_kept_ret c t t1 (r : reply) : kept c t t1 -> wp (ret r) t1 (fun _ t' => kept c t t').
Proof. done. Qed.

Ltac kept := first [by apply wp_kept_ret | by apply wp_kept_err].

Lemma wp_lookup_reads c k t (Q : Object * option error -> Txn -> Prop) :
  ready c t -> key_ok k -> good_header c t k ->
  (forall o e t', kept c t t' -> same_env t t' -> Q (o, e) t') -> wp (lookup JsonType k false) t Q.
Proof.
  intros Hr Hk Hg HQ. apply (wp_lookup_typed c); [done|unfold key_ok in Hk; lia|done|done|].
  intros t1 d1 Hw _ Ed _. rewrite (Ed eq_refl) in Hw.
  assert (kept c t t1) as Hkept by (split; [apply Hw|by rewrite (dw_view _ _ _ _ Hw)]).
  destruct (find c t (dv t) k) as [o|]; [destruct (beq JsonType (o_Type o))|]; apply HQ; done || apply Hw.
Qed.

(** A callback that changes nothing, and does not panic. *)
Definition reads (f : JsonCallback) (args : list json_arg) : Prop :=
  forall o h, exists r e h', f o args h = Some (r, false, e, h').

Lemma callback_nodes_reads f args nodes acc reterr h : reads f args ->
  exists rets reterr' h', callback_nodes f nodes args acc false reterr h = Some (rets, false, reterr', h') /\
    length rets = (length acc + length nodes)%nat.
Proof.
  intros Hf. revert acc reterr h. induction nodes as [|node nodes IH]; intros acc reterr h; cbn [callback_nodes length].
  { exists acc, reterr, h. split; [done|lia]. }
  destruct (Hf node h) as (r&e&h1&->). cbn [mbind option_bind orb].
  destruct e as [e|]; [edestruct IH as (rets&reterr'&h'&->&El)|edestruct IH as (rets&reterr'&h'&->&El)];
    exists rets, reterr', h'; (split; [done|]); rewrite El, length_app; simpl; lia.
Qed.

Lemma wp_callback_reads c k path args h cmd f t :
  ready c t -> key_ok k -> good_header c t k -> callback_of cmd = Some f -> reads f args ->
  wp (jsonCallbackHandle k path args h false cmd) t (fun _ t' => kept c t t').
Proof.
  intros Hr Hk Hg Hc Hf. unfold jsonCallbackHandle. apply wp_bind, (wp_lookup_reads c); [done..|].
  intros o err t1 Hk1 _. destruct err as [e|].
  { destruct e; try kept. destruct (missing_is_nil cmd); kept. }
  destruct (Ajson_Unmarshal _ h) as [[e|root] h1]; [kept|].
  destruct (find_nodes root path h1) as [[[e|nodes] h2] rootPrefix]; [kept|].
  destruct (negb rootPrefix && bool_decide (length nodes = 0%nat)) eqn:Eempty.
  { destruct (bool_decide (cmd = _)); kept. }
  rewrite Hc. destruct (callback_nodes_reads f args nodes [] None h2 Hf) as (rets&reterr&h3&->&El).
  apply wp_on_done, wp_ret. destruct rootPrefix; cbn [negb andb] in *.
  - destruct (is_numeric cmd); kept.
  - destruct reterr; [kept|]. destruct rets as [|r rets]; [|kept].
    apply bool_decide_eq_false in Eempty. simpl in El. congruence.
Qed.

Lemma reads_getType args : reads getType args.
Proof.
  intros o h. unfold getType. destruct (NodeType_of o h); try (by do 3 eexists).
  destruct (GetNumeric o h) as [v h1]. destruct (feq _ _); by do 3 eexists.
Qed.
Lemma reads_getStrLen args : reads getStrLen args.
Proof.
  intros o h. unfold getStrLen. destruct (IsString o h); [|by do 3 eexists].
  destruct (GetString o h) as [[e|v] h1]; by do 3 eexists.
Qed.
Lemma reads_getObjLen args : reads getObjLen args.
Proof. intros o h. unfold getObjLen. destruct (IsObject o h); by do 3 eexists. Qed.
Lemma reads_getObjKeys args : reads getObjKeys args.
Proof. intros o h. unfold getObjKeys. destruct (IsObject o h); by do 3 eexists. Qed.
Lemma reads_getArrLen args : reads getArrLen args.
Proof. intros o h. unfold getArrLen. destruct (IsArray o h); by do 3 eexists. Qed.

Lemma arrIndex_loop_reads `{!AjsonSpec} fuel o value index end_ h :
  Size o h - index <= Z.of_nat fuel ->
  exists r e h', arrIndex_loop (S fuel) o value index end_ h = Some (r, false, e, h').
Proof.
  revert index h. induction fuel as [|fuel IH]; intros index h Hf; cbn [arrIndex_loop];
    (destruct (negb (index <? end_)); [by do 3 eexists|]);
    (destruct (Z.le_gt_cases (Size o h) index) as [Hle|Hlt];
      [destruct (GetIndex_range o index h Hle) as (e&h1&->); by do 3 eexists|]); [exfalso; simpl in Hf; lia|].
  pose proof (GetIndex_size o index h) as Hs. destruct (GetIndex o index h) as [[e|av] h1]; [by do 3 eexists|].
  destruct (Eq value av h1); [by do 3 eexists|]. apply IH. cbn [snd] in Hs. rewrite Hs. lia.
Qed.

Lemma reads_getArrIndex `{!AjsonSpec} value start end_ : reads getArrIndex [ANode value; AInt start; AInt end_].
Proof.
  intros o h. unfold getArrIndex. destruct (negb (IsArray o h)); [by do 3 eexists|].
  destruct (Size o h =? 0); [by do 3 eexists|]. set (s0 := if start <? 0 then _ else _). set (s1 := if s0 <? 0 then 0 else s0).
  set (e0 := if end_ =? 0 then _ else _). set (e1 := if e0 <? 0 then _ else _).
  destruct (e1 <=? s1); [by do 3 eexists|]. apply arrIndex_loop_reads. unfold s1. destruct (Z.ltb_spec s0 0); lia.
Qed.

(** The commands that read: their keys are known to be short. *)
Definition json_readers : list TxnHandle :=
  [JsonTypeHandle; JsonStrLenHandle; JsonObjLenHandle; JsonObjKeysHandle; JsonArrLenHandle; JsonArrIndexHandle;
   JsonGetHandle; JsonMgetHandle].

Lemma wp_wrong_args c command t : ready c t -> wp (wrong_args command) t (fun _ t' => kept c t t').
Proof. intros Hr. by apply wp_kept_err. Qed.

Lemma JsonGet_reads c t args : ready c t -> Forall key_ok args -> (forall k, k ∈ args -> good_header c t k) ->
  wp (JsonGetHandle args) t (fun _ t' => kept c t t').
Proof.
  intros Hr Hk Hg. unfold JsonGetHandle. destruct args as [|k paths]; [by apply wp_wrong_args|].
  rewrite (proj2 (Z.ltb_ge _ _)) by (rewrite len_cons; pose proof (len_nonneg paths); lia).
  apply Forall_cons in Hk as [Hk _]. cbn [arg nth]. change (drop 1 (k :: paths)) with paths.
  apply wp_bind, (wp_lookup_reads c); [done..|apply Hg; by left|]. intros o err t1 Hk1 _.
  destruct err as [e|]; [destruct e; kept|]. destruct paths as [|p ps]; [kept|].
  destruct (Ajson_Unmarshal _ _) as [[e|root] h1]; [kept|]. destruct ps as [|p2 ps].
  - destruct (jsonGet root p h1) as [[e|r] h2]; [kept|]. destruct (Ajson_Marshal r h2) as [[e|data] h3]; kept.
  - destruct (jsonGet_paths root _ [] h1) as [e|[m h2]]; [kept|]. destruct (Marshal_map m h2) as [[e|data] h3]; kept.
Qed.

Lemma good_header_env c t t' k : same_env t t' -> dv t' = dv t -> good_header c t k -> good_header c t' k.
Proof.
  intros He Hd. unfold good_header, hkey, header_key, the_object. rewrite Hd.
  by rewrite (se_UserId _ _ He), (se_DBId _ _ He).
Qed.

Lemma jsonMget_reads c t t1 keys path acc : kept c t t1 -> same_env t t1 ->
  Forall key_ok keys -> (forall k, k ∈ keys -> good_header c t k) ->
  wp (jsonMget_loop keys path acc) t1 (fun _ t' => kept c t t').
Proof.
  revert t1 acc. induction keys as [|k keys IH]; intros t1 acc Hk1 He Hk Hg; cbn [jsonMget_loop]; [kept|].
  apply Forall_cons in Hk as [Hk Hks]. destruct Hk1 as [Hr1 Hd1].
  apply wp_bind. unfold jsonGetHandle. apply wp_bind, (wp_lookup_reads c); [done..| |].
  { apply (good_header_env c t t1); [done..|]. apply Hg. by left. }
  intros o err t2 [Hr2 Hd2] He2. assert (kept c t t2) as Hkept by (split; [done|congruence]).
  assert (same_env t t2) as Het by (by etrans).
  assert (forall acc, wp (jsonMget_loop keys path acc) t2 (fun _ t' => kept c t t')) as Hnext.
  { intros acc'. apply IH; [done..|]. intros k' Hk'. apply Hg. by right. }
  assert (forall e : error, wp (match e with Sentinel ErrPathNotExist => jsonMget_loop keys path (acc ++ [RNil])
     | e => reply_err e end) t2 (fun _ t' => kept c t t')) as Hfail.
  { intros e. destruct e as [| | | | | | |s| | | |]; try kept. destruct s; try kept. apply Hnext. }
  destruct err as [e|].
  { destruct e as [| | | | | | |s| | | |]; try (by apply wp_ret; first [apply Hnext|kept]). apply wp_ret. apply (Hfail (Sentinel s)). }
  destruct (Ajson_Unmarshal _ _) as [[e|root] h1]; [apply wp_ret; kept|].
  destruct (jsonGet root path h1) as [[e|r] h2]; apply wp_ret; [apply Hfail|].
  destruct (Ajson_Marshal r h2) as [[e|data] h3]; [kept|apply Hnext].
Qed.

Lemma JsonMget_reads c t args : ready c t -> Forall key_ok args -> (forall k, k ∈ args -> good_header c t k) ->
  wp (JsonMgetHandle args) t (fun _ t' => kept c t t').
Proof.
  intros Hr Hk Hg. unfold JsonMgetHandle. destruct (len args <? 2) eqn:El; [by apply wp_wrong_args|].
  assert (args <> []) as Hne by (intros ->; done).
  pose proof (app_removelast_last [] Hne) as E.
  apply jsonMget_reads; [done|done| |].
  - rewrite E in Hk. by apply Forall_app in Hk as [? _].
  - intros k Hin. apply Hg. rewrite E. apply elem_of_app. by left.
Qed.

Lemma one_or_two_cons args : one_or_two args = true -> exists k args', args = k :: args'.
Proof. destruct args; [done|eauto]. Qed.

(** A command of one or two arguments whose callback reads. *)
Lemma wp_reader c t args cmd f : ready c t -> Forall key_ok args -> (forall k, k ∈ args -> good_header c t k) ->
  callback_of cmd = Some f -> reads f [] ->
  wp (if negb (one_or_two args) then wrong_args cmd
      else jsonCallbackHandle (arg 0 args) (path_or_dot args) [] no_nodes false cmd) t (fun _ t' => kept c t t').
Proof.
  intros Hr Hk Hg Hc Hf. destruct (one_or_two args) eqn:E; cbn [negb]; [|by apply wp_wrong_args].
  apply one_or_two_cons in E as (k&args'&->). apply Forall_cons in Hk as [Hk _].
  apply (wp_callback_reads c _ _ _ _ _ f); [done..|apply Hg; by left|done|done].
Qed.

Lemma JsonArrIndex_reads `{!AjsonSpec} c t args : ready c t -> Forall key_ok args ->
  (forall k, k ∈ args -> good_header c t k) -> wp (JsonArrIndexHandle args) t (fun _ t' => kept c t t').
Proof.
  intros Hr Hk Hg. unfold JsonArrIndexHandle. destruct args as [|k args]; [by apply wp_wrong_args|].
  apply Forall_cons in Hk as [Hk _]. destruct (_ || _); [by apply wp_wrong_args|].
  destruct (Ajson_Unmarshal _ no_nodes) as [[e|value] h]; [by apply wp_kept_err|].
  destruct (index_or_zero 3 (k :: args)) as [start|], (index_or_zero 4 (k :: args)) as [end_|]; try (by apply wp_kept_err).
  apply (wp_callback_reads c _ _ _ _ _ getArrIndex); [done..|apply Hg; by left|done|apply reads_getArrIndex].
Qed.

(** The JSON commands that read (TYPE, STRLEN, OBJLEN, OBJKEYS, ARRLEN, ARRINDEX, GET
    and MGET) return and leave the data of the store as it is, whatever their arguments,
    the documents and the library of JSON paths. *)
Lemma json_readers_keep `{!AjsonSpec} c t handler args :
  ready c t -> In handler json_readers -> Forall key_ok args -> (forall k, k ∈ args -> good_header c t k) ->
  wp (handler args) t (fun _ t' => ready c t' /\ dv t' = dv t).
Proof.
  intros Hr Hin Hk Hg. repeat destruct Hin as [<-|Hin]; [..|done].
  - by apply (wp_reader c t args _ getType); [..|apply reads_getType].
  - by apply (wp_reader c t args _ getStrLen); [..|apply reads_getStrLen].
  - by apply (wp_reader c t args _ getObjLen); [..|apply reads_getObjLen].
  - by apply (wp_reader c t args _ getObjKeys); [..|apply reads_getObjKeys].
  - by apply (wp_reader c t args _ getArrLen); [..|apply reads_getArrLen].
  - by apply JsonArrIndex_reads.
  - by apply JsonGet_reads.
  - by apply JsonMget_reads.
Qed.

(** ** Commands that edit *)

(** The answer of a command from the results of its callback. *)
Definition answer_of (cmd : string) (rootPrefix : bool) (rets : list reply) (reterr : option error) : error + reply :=
  if rootPrefix then inr (if is_numeric cmd then RBulk (marshal_numbers rets) else RArr rets)
  else match reterr with Some e => inl e | None => inr (hd RNil rets) end.

Lemma wp_answer cmd rootPrefix rets reterr t Q : (rootPrefix = false -> rets <> []) ->
  wp (match answer_of cmd rootPrefix rets reterr with inl e => reply_err e | inr r => ret r end) t Q ->
  wp (if negb rootPrefix then
        match reterr, rets with
        | Some e, _ => reply_err e
        | None, r :: _ => ret r
        | None, [] => panic
        end
      else if is_numeric cmd then ret (RBulk (marshal_numbers rets)) else ret (RArr rets)) t Q.
Proof.
  intros Hne. unfold answer_of. destruct rootPrefix; cbn [negb]; [by destruct (is_numeric cmd)|].
  destruct reterr; [done|]. destruct rets; [by specialize (Hne eq_refl)|done].
Qed.

(** The callback runs on the nodes, and the document is written if one has changed it. *)
Definition edit_nodes (f : JsonCallback) (cmd : string) (root : Node) (nodes : list Node) (rootPrefix : bool)
    (args : list json_arg) (h : Heap) : option ((error + reply) * option bytes) :=
  '(rets, change, reterr, h) ← callback_nodes f nodes args [] false None h;
  if change : bool then
    match Ajson_Marshal root h with
    | (inl e, _) => Some (inl e, None)
    | (inr text, _) => Some (answer_of cmd rootPrefix rets reterr, Some text)
    end
  else Some (answer_of cmd rootPrefix rets reterr, None).

(** The part of [jsonCallbackHandle] that does not touch the store, over the same search
    and the same callbacks: it isolates what is computed from what is stored, and is not a
    specification of the callbacks. *)
Definition edit (f : JsonCallback) (cmd : string) (value path : bytes) (args : list json_arg) (h : Heap) :
    option ((error + reply) * option bytes) :=
  match Ajson_Unmarshal value h with
  | (inl _, _) => Some (inl (InvalidJsonError : error), None)
  | (inr root, h) =>
      match find_nodes root path h with
      | (inl _, _, _) => Some (inl (InvalidJsonPathError : error), None)
      | (inr [], _, false) =>
          Some (if bool_decide (cmd = "json.type"%string) then inr RNil else inl (ErrPathNotExist : error), None)
      | (inr nodes, h, rootPrefix) =>
          edit_nodes f cmd root nodes rootPrefix args h
      end
  end.

(** The answer is given, and the document is the new text if there is one. *)
Definition edited (c : Config) (t : Txn) (k : bytes) (o : Object) (answer : error + reply) (text : option bytes)
    (r : reply) (t' : Txn) : Prop :=
  r = match answer with inl e => RErr e | inr r => r end /\ ready c t' /\
  t_Err t' = match answer with inl e => Some e | inr _ => t_Err t end /\
  forall x, find c t (dv t') x =
    match text with
    | Some v => upd k (with_value (t_Timestamp t) v o) (find c t (dv t)) x
    | None => find c t (dv t) x
    end.

Lemma wp_edited_answer c t k o answer text t1 :
  ready c t1 -> same_env t t1 ->
  (forall x, find c t (dv t1) x = match text with
     | Some v => upd k (with_value (t_Timestamp t) v o) (find c t (dv t)) x
     | None => find c t (dv t) x end) ->
  wp (match answer with inl e => reply_err e | inr r => ret r end) t1 (edited c t k o answer text).
Proof.
  intros Hr He Hf. destruct answer as [e|r].
  - split; [done|]. split; [by apply ready_with_Err|]. split; [done|]. exact Hf.
  - split; [done|]. split; [done|]. split; [apply He|]. exact Hf.
Qed.

Lemma callback_nodes_length f args nodes acc change reterr h rets change' reterr' h' :
  callback_nodes f nodes args acc change reterr h = Some (rets, change', reterr', h') ->
  length rets = (length acc + length nodes)%nat.
Proof.
  revert acc change reterr h. induction nodes as [|node nodes IH]; intros acc change reterr h; cbn [callback_nodes length].
  { intros [= <- _ _ _]. lia. }
  destruct (f node args h) as [[[[r b] e] h1]|]; [|done]. cbn [mbind option_bind].
  destruct e; intros E%IH; rewrite length_app in E; simpl in E; lia.
Qed.

(** What the JSON commands with a callback store: the document becomes the text that was
    computed, if there is one, with the expiry it had, and every other key is unchanged; a
    missing key and a key of another type are refused. *)
Lemma jsonCallbackHandle_stores c t k path args h clear cmd f :
  ready c t -> key_ok k -> good_header c t k -> callback_of cmd = Some f ->
  (forall o, find c t (dv t) k = Some o -> exists answer text,
     edit f cmd (sl (o_Value o)) path args h = Some (answer, text) /\
     forall v, text = Some v -> len v < MAX_VALUE_SIZE - 19) ->
  wp (jsonCallbackHandle k path args h clear cmd) t (fun r t' =>
    match find c t (dv t) k with
    | None => if missing_is_nil cmd then r = RNil /\ unchanged c t t' else failed c t KeyNotFound r t'
    | Some o =>
        if beq JsonType (o_Type o) then
          exists answer text, edit f cmd (sl (o_Value o)) path args h = Some (answer, text) /\
            edited c t k o answer text r t'
        else failed c t WrongTypeErr r t'
    end).
Proof.
  intros Hr Hk Hg Hc Hed. unfold jsonCallbackHandle.
  apply wp_bind, (wp_lookup_typed c); [done|unfold key_ok in Hk; lia|done|done|].
  intros t1 d1 Hw1 Hf1 _ _. pose proof (unchanged_dwrote c t t1 d1 Hw1 Hf1) as (Hr1&He1&Hu1).
  assert (json_or_new c t k = match find c t (dv t) k with Some o => o | None => the_object c t JsonType k end)
    as Ej by done.
  assert (json_settable (find c t (dv t)) k = match find c t (dv t) k with
    Some o => beq JsonType (o_Type o) | None => true end) as Es by done.
  destruct (find c t (dv t) k) as [o|]; [|destruct (missing_is_nil cmd);
    [by apply wp_ret|by apply (wp_reply_err c t t1 d1)]].
  destruct (beq JsonType (o_Type o)); [|by apply (wp_reply_err c t t1 d1)].
  destruct (Hed o eq_refl) as (answer&text&Eed&Hlen). clear Hed.
  apply (wp_mono _ _ (edited c t k o answer text)); [|intros r t' He; by exists answer, text].
  unfold edit in Eed. destruct (Ajson_Unmarshal _ h) as [[e|root] h1].
  { injection Eed as <- <-. by apply (wp_edited_answer c t k o (inl _) None t1). }
  destruct (find_nodes root path h1) as [[[e|nodes] h2] rootPrefix].
  { injection Eed as <- <-. by apply (wp_edited_answer c t k o (inl _) None t1). }
  destruct (negb rootPrefix && bool_decide (length nodes = 0%nat)) eqn:Eempty.
  { apply andb_prop in Eempty as [Erp En%bool_decide_eq_true]. destruct rootPrefix; [done|].
    apply nil_length_inv in En as ->. injection Eed as <- <-. destruct (bool_decide (cmd = _)).
    - by apply (wp_edited_answer c t k o (inr _) None t1).
    - by apply (wp_edited_answer c t k o (inl _) None t1). }
  rewrite Hc. assert (edit_nodes f cmd root nodes rootPrefix args h2 = Some (answer, text)) as Erun.
  { destruct nodes, rootPrefix; try exact Eed. done. }
  clear Eed. unfold edit_nodes in Erun.
  destruct (callback_nodes f nodes args [] false None h2) as [[[[rets change] reterr] h3]|] eqn:Ecb; [|done].
  cbn [mbind option_bind] in Erun. apply callback_nodes_length in Ecb.
  assert (rootPrefix = false -> rets <> []) as Hne.
  { intros -> ->. destruct nodes; done. }
  destruct change.
  - unfold setJsonValue. destruct (Ajson_Marshal root h3) as [[e|v] h4].
    { injection Erun as <- <-. apply wp_on_done, wp_ret. by apply (wp_edited_answer c t k o (inl _) None t1). }
    injection Erun as <- <-. apply wp_on_done, wp_bind, wp_get_txn. rewrite (se_Timestamp _ _ He1).
    fold (with_value (t_Timestamp t) v o).
    apply (wp_put_json c k v 0 o t t1 d1); try done; [by apply Hlen|].
    intros t2 Hr2 He2 Hf2. apply wp_answer; [done|]. by apply wp_edited_answer.
  - injection Erun as <- <-. apply wp_on_done, wp_ret. apply wp_answer; [done|]. by apply wp_edited_answer.
Qed.

End spec.
