(* ===== verification/TypeSpec.v ===== *)
(** Keys are typed: a command for one type answers WRONGTYPE on a key that holds
    another, and leaves the store as it is. *)

From S2P Require Import Prelude Xerror GoStd Utils Float Store Ranges Mem Object Reply.
From S2P Require Import ObjectSpec Counters Generic GenericSpec Strings StringsSpec.
From S2P Require Import HashCmd SetCmd Rank ListA ListB ListCmd.
From Stdlib Require Import Init.Byte.

#[local] Open Scope Z_scope.

Section types.
Context `{Platform}.

(** The type of lists, which the configuration chooses. *)
Definition list_type (c : Config) : Init.Byte.byte :=
  if String.eqb (ListType c) BLIST then BListType else AListType.

(** Commands that take a key first, with the type they take and a test of the arguments
    that follow: when it holds, the handler goes on to the key. *)
Definition takes (n : nat) (args : list bytes) : bool := Nat.eqb (length args) n.
Definition takes_some (args : list bytes) : bool := match args with [] => false | _ => true end.
Definition takes_pairs (args : list bytes) : bool := takes_some args && Nat.even (length args).
Definition takes_int (i : nat) (args : list bytes) : bool :=
  match nth_error args i with
  | Some a => match ParseInt a with Some _ => true | None => false end
  | None => false
  end.

Definition typed_commands (c : Config) : list (Init.Byte.byte * TxnHandle * (list bytes -> bool)) :=
  let s := StringType in let h := HashType in let m := SetType in let l := list_type c in [
  (s, GetHandle, takes 0); (s, StrLenHandle, takes 0); (s, GetDelHandle, takes 0);
  (s, AppendHandle, takes 1);
  (h, HGetHandle, takes 1); (h, HExistsHandle, takes 1); (h, HStrLenHandle, takes 1);
  (h, HLenHandle, takes 0); (h, HGetAllHandle, takes 0); (h, HKeysHandle, takes 0);
  (h, HValsHandle, takes 0); (h, HMGetHandle, takes_some); (h, HDelHandle, takes_some);
  (h, HSetHandle, takes_pairs); (h, HMSetHandle, takes_pairs); (h, HSetNXHandle, takes 2);
  (h, HIncrByHandle, fun args => takes 2 args && takes_int 1 args);
  (m, SAddHandle, takes_some); (m, SRemHandle, takes_some); (m, SCardHandle, takes 0);
  (m, SIsMemberHandle, takes 1); (m, SMIsMemberHandle, takes_some);
  (m, SMembersHandle, takes 0); (m, SPopHandle, takes 0);
  (l, LPushHandle, takes_some); (l, RPushHandle, takes_some); (l, LPushXHandle, takes_some);
  (l, RPushXHandle, takes_some); (l, LPopHandle, takes 0); (l, RPopHandle, takes 0);
  (l, LLenHandle, takes 0);
  (l, LRangeHandle, fun args => takes 2 args && takes_int 0 args && takes_int 1 args);
  (l, LTrimHandle, fun args => takes 2 args && takes_int 0 args && takes_int 1 args);
  (l, LIndexHandle, fun args => takes 1 args && takes_int 0 args)
].

End types.

Section spec.
Context `{PlatformSpec}.

(** The key holds a value of another type. *)
Definition other_type (c : Config) (t : Txn) (k : bytes) (typo : Init.Byte.byte) : Prop :=
  exists o, find c t (dv t) k = Some o /\ o_Type o <> typo.

Section key.
Context (c : Config) (t : Txn) (k : bytes) (Hr : ready c t) (Hk : key_ok k) (Hg : good_header c t k).
Context (typo : Init.Byte.byte) (Ho : other_type c t k typo) (Ht : typo <> UnknownType).

Abbreviation refused := (Ret (RErr (WrongTypeErr : error)) (with_Err (Some (WrongTypeErr : error)) t)).

Lemma get_wrong clear : exists o,
  getTxnObject (ObjectKeyBytes (the_object c t typo k)) (the_object c t typo k) clear t
  = Ret (o, Some (WrongTypeErr : error)) t.
Proof.
  destruct Ho as (o&Hf&Hty).
  enough (wp (getTxnObject (ObjectKeyBytes (the_object c t typo k)) (the_object c t typo k) clear) t
    (fun r t' => r = (o, Some (WrongTypeErr : error)) /\ t' = t)) as (r&t'&->&->&->)%wp_returns by by exists o.
  apply (wp_getTxnObject c); [done|rewrite len_ObjectKeyBytes; cbn [o_Key new_object the_object]; unfold key_ok in Hk; lia|].
  pose proof (read_object_typed c t typo k Hg Ht) as Hread. rewrite Hf in Hread.
  assert (beq typo (o_Type o) = false) as Hb by (unfold beq; by rewrite bool_decide_eq_false_2).
  rewrite Hb in Hread. intros t' _ Hsame. rewrite Hread. split; [done|]. apply Hsame.
  unfold read_object, sweeps in *. destruct (dv t !! _); [|by rewrite andb_false_r].
  destruct (ObjectDecode _ _) as [o' [e|]]; [by rewrite andb_false_r|].
  destruct (expired (t_Now t) o'); [done|by rewrite andb_false_r].
Qed.

Lemma NewObject_run ty : NewObject ty k t = Ret (the_object c t ty k) t.
Proof.
  unfold NewObject, bind. by rewrite (get_config_run c t Hr).
Qed.

Lemma lookup_wrong clear : exists o, lookup typo k clear t = Ret (o, Some (WrongTypeErr : error)) t.
Proof.
  destruct (get_wrong clear) as [o E]. exists o. unfold lookup, bind. by rewrite NewObject_run.
Qed.

Lemma create_wrong : exists o, GetOrCreateUUIDObject typo k t = Ret (o, Some (WrongTypeErr : error)) t.
Proof.
  destruct (get_wrong true) as [o E]. exists o. unfold GetOrCreateUUIDObject, bind. by rewrite NewObject_run, E.
Qed.

Lemma count_wrong : GetCountByKey k typo t = Ret (inl (WrongTypeErr : error)) t.
Proof.
  destruct (get_wrong false) as [o E]. unfold GetCountByKey, bind. by rewrite NewObject_run, E.
Qed.

Lemma list_wrong args cmd fa fb opt :
  typo = list_type c -> find_func cmd AListFuncs = Some fa -> find_func cmd BListFuncs = Some fb ->
  ListHandle (k :: args) cmd opt t = Ret (inl (WrongTypeErr : error)) t.
Proof.
  intros El Ha Hb. destruct (get_wrong true) as [o E]. unfold ListHandle, bind.
  rewrite (get_config_run c t Hr). unfold list_type in El. rewrite Ha, Hb.
  destruct (String.eqb (ListType c) BLIST); [unfold BListHandle|unfold AListHandle]; cbn [arg nth drop];
    unfold bind; rewrite NewObject_run, <- El, E; reflexivity.
Qed.

End key.

Lemma takes_some_len k args : takes_some args = true -> (len (k :: args) <? 2) = false.
Proof.
  destruct args as [|x args]; [done|]. intros _. rewrite !len_cons. pose proof (len_nonneg args). lia.
Qed.

Lemma takes_pairs_len k args : takes_pairs args = true ->
  (len (k :: args) <? 3) || negb (go_rem (len (k :: args)) 2 =? 1) = false.
Proof.
  intros [Hs [m Hm]%Nat.even_spec]%andb_true_iff. unfold len, go_rem. destruct args as [|x [|y args]]; [done|simpl in Hm; lia|].
  rewrite Z.rem_mod_nonneg by lia. cbn [length] in *. replace (Z.of_nat (S (S (S (length args))))) with (1 + Z.of_nat m * 2) by lia.
  rewrite Z_mod_plus_full. destruct (Z.ltb_spec (1 + Z.of_nat m * 2) 3); [lia|done].
Qed.

Lemma list_type_known c : list_type c <> UnknownType.
Proof. unfold list_type. by destruct (String.eqb _ _). Qed.

(** Computes the tests of a known number of arguments. *)
Ltac arity :=
  repeat match goal with
  | |- context [len ?l =? ?n] => let b := eval cbv in (len l =? n) in progress change (len l =? n) with b
  | |- context [len ?l <? ?n] => let b := eval cbv in (len l <? n) in progress change (len l <? n) with b
  | |- context [len ?l >? ?n] => let b := eval cbv in (len l >? n) in progress change (len l >? n) with b
  end.

(** Settles the test of the arguments. *)
Ltac settle Hok :=
  rewrite ?takes_some_len, ?takes_pairs_len by exact Hok;
  lazymatch type of Hok with
  | context [takes] => repeat match goal with a : list bytes |- _ => destruct a as [|? a]; try discriminate Hok end
  | _ => idtac
  end;
  arity;
  cbn [takes takes_int nth_error length Nat.eqb andb] in Hok; cbn [arg nth drop];
  repeat match type of Hok with
  | context [ParseInt ?a] => destruct (ParseInt a) eqn:?; [|try discriminate Hok; by rewrite ?andb_false_r in Hok]
  end.

(** Runs a command up to its first access to the key. *)
Ltac open_command :=
  cbv beta iota zeta delta [bind on_value ret reply_int reply_bulks reply_err SetError modify
    getString hget hset hgetall sadd srem smembers push pushx pophandle list_reply getStartEnd
    checkMaxLen push_command arg nth drop negb andb]; arity; cbv beta iota;
  repeat match goal with E : ParseInt _ = Some _ |- _ => rewrite E end; cbv beta iota;
  try (erewrite get_config_run by eassumption); cbv beta iota.

Ltac refuse :=
  lazymatch goal with
  | Hr : ready ?c ?t, Hk : key_ok ?k, Hg : good_header ?c ?t ?k, Ho : other_type ?c ?t ?k ?ty |- _ =>
      first
      [ destruct (lookup_wrong c t k Hr Hk Hg ty Ho ltac:(done) false) as [o E]; rewrite E; reflexivity
      | destruct (lookup_wrong c t k Hr Hk Hg ty Ho ltac:(done) true) as [o E]; rewrite E; reflexivity
      | destruct (create_wrong c t k Hr Hk Hg ty Ho ltac:(done)) as [o E]; rewrite E; reflexivity
      | rewrite (count_wrong c t k Hr Hk Hg ty Ho ltac:(done)); reflexivity
      | erewrite (list_wrong c t k Hr Hk Hg ty Ho); [reflexivity|try apply list_type_known|reflexivity..] ]
  end.

(** A command whose arguments pass its test is refused. *)
Definition refuses (t : Txn) (k : bytes) (e : Init.Byte.byte * TxnHandle * (list bytes -> bool)) : Prop :=
  forall args, snd e args = true ->
    snd (fst e) (k :: args) t = Ret (RErr (WrongTypeErr : error)) (with_Err (Some (WrongTypeErr : error)) t).

Tactic Notation "refused" reference(h) :=
  apply Forall_cons; split; [intros args Hok; cbn [fst snd] in *; unfold h;
    cbv beta delta [push pushx]; settle Hok; open_command; refuse|].

Lemma strings_refuse c t k :
  ready c t -> key_ok k -> good_header c t k -> other_type c t k StringType ->
  Forall (refuses t k) (take 4 (typed_commands c)).
Proof.
  intros Hr Hk Hg Ho. unfold typed_commands. cbn [take].
  refused GetHandle. refused StrLenHandle. refused GetDelHandle. refused AppendHandle. by apply Forall_nil.
Qed.

Lemma hashes_refuse c t k :
  ready c t -> key_ok k -> good_header c t k -> other_type c t k HashType ->
  Forall (refuses t k) (take 13 (drop 4 (typed_commands c))).
Proof.
  intros Hr Hk Hg Ho. unfold typed_commands. cbn [take drop].
  refused HGetHandle. refused HExistsHandle. refused HStrLenHandle. refused HLenHandle.
  refused HGetAllHandle. refused HKeysHandle. refused HValsHandle. refused HMGetHandle.
  refused HDelHandle. refused HSetHandle. refused HMSetHandle. refused HSetNXHandle.
  refused HIncrByHandle. by apply Forall_nil.
Qed.

Lemma sets_refuse c t k :
  ready c t -> key_ok k -> good_header c t k -> other_type c t k SetType ->
  Forall (refuses t k) (take 7 (drop 17 (typed_commands c))).
Proof.
  intros Hr Hk Hg Ho. unfold typed_commands. cbn [take drop].
  refused SAddHandle. refused SRemHandle. refused SCardHandle. refused SIsMemberHandle.
  refused SMIsMemberHandle. refused SMembersHandle. refused SPopHandle. by apply Forall_nil.
Qed.

Lemma lists_refuse c t k :
  ready c t -> key_ok k -> good_header c t k -> other_type c t k (list_type c) ->
  Forall (refuses t k) (drop 24 (typed_commands c)).
Proof.
  intros Hr Hk Hg Ho. unfold typed_commands. cbn [take drop].
  refused LPushHandle. refused RPushHandle. refused LPushXHandle. refused RPushXHandle.
  refused LPopHandle. refused RPopHandle. refused LLenHandle.
  refused LRangeHandle. refused LTrimHandle. refused LIndexHandle. by apply Forall_nil.
Qed.


End spec.
