(* ===== verification/SetAlgebraSpec.v ===== *)
(** What the set algebra computes: SINTER, SUNION and SDIFF against sets of members,
    with what happens to the empty member. *)

From stdpp Require Import sorting.
From S2P Require Import Prelude Xerror GoStd Utils Store Ranges Mem Object Reply ObjectSpec.
From S2P Require Import Counters Generic GenericSpec HashCmd SetCmd HashSpec Heap SetAlgebra.
From Stdlib Require Import Init.Byte.

#[local] Open Scope Z_scope.

(** ** Sorted keys *)

Lemma len_fmap {A B} (f : A -> B) l : len (f <$> l) = len l.
Proof. unfold len. by rewrite length_fmap. Qed.

Lemma blt_app p a b : blt (p ++ a) (p ++ b) <-> blt a b.
Proof. unfold blt. by rewrite bytes_compare_app. Qed.

Lemma ble_app_inv p a b : ble (p ++ a) (p ++ b) <-> ble a b.
Proof. unfold ble. by rewrite bytes_compare_app. Qed.

Lemma StronglySorted_map {A B} (R : relation A) (S : relation B) (f : A -> B) l :
  (forall x y, x ∈ l -> y ∈ l -> R x y -> S (f x) (f y)) -> StronglySorted R l -> StronglySorted S (f <$> l).
Proof.
  intros Hf Hl. induction Hl as [|x l Hl IH Hx]; [constructor|]. cbn [fmap list_fmap]. constructor.
  - apply IH. intros a b Ha Hb. apply Hf; by right.
  - rewrite Forall_forall in Hx. rewrite Forall_forall. intros y (a&->&Ha)%list_elem_of_fmap.
    apply Hf; [by left|by right|by apply Hx].
Qed.

(** The suffixes of ascending keys with a common prefix ascend. *)
Lemma suffixes_sorted p (l : list (bytes * bytes)) :
  StronglySorted entry_lt l -> (forall e, e ∈ l -> exists f, fst e = p ++ f) ->
  StronglySorted blt ((fun e => drop (length p) (fst e)) <$> l).
Proof.
  intros Hl Hp. eapply StronglySorted_map; [|exact Hl]. intros x y Hx Hy Hlt.
  destruct (Hp x Hx) as [f Ef], (Hp y Hy) as [g Eg]. unfold entry_lt in Hlt.
  rewrite Ef, Eg, !drop_app_length in *. by apply blt_app in Hlt.
Qed.

Lemma blt_sorted_ble l : StronglySorted blt l -> StronglySorted ble l.
Proof.
  induction 1 as [|x l Hl IH Hx]; constructor; [done|].
  eapply Forall_impl; [exact Hx|]. intros y. apply blt_ble.
Qed.

Lemma elem_of_concat {A} (x : A) (ls : list (list A)) : x ∈ concat ls <-> exists l, x ∈ l /\ l ∈ ls.
Proof.
  rewrite list_elem_of_In, in_concat. split; intros (l&H1&H2); exists l; by rewrite !list_elem_of_In in *.
Qed.

(** ** Several iterators *)

Section iters.
Context `{PlatformSpec}.

Definition rest (it : IterScan) : list bytes :=
  (fun e => drop (length (is_prefix it)) (fst e)) <$> it_list (is_iter it).

(** The iterator is up and yields keys of its prefix, in ascending order. *)
Record on_prefix (it : IterScan) : Prop := {
  op_up : it_up (is_iter it);
  op_list : forall e, e ∈ it_list (is_iter it) -> exists f, fst e = is_prefix it ++ f;
  op_sorted : StronglySorted ble (rest it)
}.

(** For the keys from [k] on, the iterator tells the members of [mem]. *)
Record tracks (mem : bytes -> Prop) (k : bytes) (it : IterScan) : Prop := {
  tr_on : on_prefix it;
  tr_current : exists f, is_current it = is_prefix it ++ f;
  tr_sorted : StronglySorted ble (cur_suffix it :: rest it);
  tr_mem : forall m, ble k m -> m ∈ cur_suffix it :: rest it <-> mem m
}.

Lemma tracks_later mem k k' it : ble k k' -> tracks mem k it -> tracks mem k' it.
Proof.
  intros Hk [Ho Hc Hs Hm]. split; [done..|]. intros m Hkm. apply Hm. by eapply ble_trans.
Qed.

(** Taking one entry. *)
Lemma on_prefix_next it k v l iter :
  on_prefix it -> it_list (is_iter it) = (k, v) :: l -> it_up iter -> it_list iter = l ->
  exists f, k = is_prefix it ++ f /\ rest it = f :: rest (advanced k v iter it) /\
    on_prefix (advanced k v iter it) /\ cur_suffix (advanced k v iter it) = f.
Proof.
  intros [Hu Hp Hs] E Hu' E'. destruct (Hp (k, v)) as [f Ef]; [rewrite E; by left|]. cbn [fst] in Ef.
  exists f. assert (rest it = f :: rest (advanced k v iter it)) as Er.
  { unfold rest. rewrite E. cbn [fmap list_fmap fst is_iter advanced is_prefix]. by rewrite Ef, drop_app_length, E'. }
  split; [done|]. split; [done|]. rewrite Er in Hs. apply StronglySorted_inv in Hs as [Hs _]. split.
  - split; [done| |done]. cbn [is_iter advanced is_prefix]. intros e He. apply Hp. rewrite E. right. by rewrite <- E'.
  - unfold cur_suffix. cbn [is_current is_prefix advanced]. by rewrite Ef, drop_app_length.
Qed.

(** What a visit says about the key. *)
Definition tells (mem : bytes -> Prop) (k : bytes) (p : position) : Prop :=
  match p with At _ => mem k | Past | Finished => ~ mem k end.

Lemma tells_compare mem k it :
  tracks mem k it -> match bytes_compare (cur_suffix it) k with
                     | Eq => mem k
                     | Gt => ~ mem k
                     | Lt => blt (cur_suffix it) k
                     end.
Proof.
  intros Ht. destruct (bytes_compare (cur_suffix it) k) eqn:E; [|done|].
  - apply (tr_mem _ _ _ Ht); [apply ble_refl|]. apply bytes_compare_eq in E as <-. by left.
  - rewrite <- (tr_mem _ _ _ Ht) by apply ble_refl. pose proof (tr_sorted _ _ _ Ht) as Hs.
    apply StronglySorted_inv in Hs as [_ Hs]. rewrite Forall_forall in Hs.
    assert (blt k (cur_suffix it)) as Hb by (unfold blt; by rewrite bytes_compare_antisym, E).
    rewrite elem_of_cons. intros [->|Hi]; [by apply blt_irrefl in Hb|].
    apply Hs in Hi. apply (blt_irrefl k). by eapply blt_ble_trans.
Qed.

Lemma wp_seek fuel mem k it t (Q : error + IterScan * position -> Txn -> Prop) :
  (length (it_list (is_iter it)) < fuel)%nat -> tracks mem k it -> blt (cur_suffix it) k ->
  (forall it' p, tracks mem k it' -> tells mem k p -> Q (inr (it', p)) t) ->
  wp (seek fuel k it) t Q.
Proof.
  revert it. induction fuel as [|fuel IH]; intros it Hf Ht Hb HQ; [lia|]. cbn [seek].
  rewrite it_Valid_list. destruct (it_list (is_iter it)) as [|[key v] l] eqn:E.
  { apply wp_ret, HQ; [done|]. cbn [tells]. rewrite <- (tr_mem _ _ _ Ht) by apply ble_refl.
    unfold rest. rewrite E. rewrite list_elem_of_singleton. intros ->. by apply blt_irrefl in Hb. }
  cbn [negb]. rewrite bool_decide_eq_false_2 by done. cbn [negb].
  destruct (it_Key_list _ _ _ _ E) as [-> ->].
  destruct (it_Next_up _ (op_up _ (tr_on _ _ _ Ht))) as (iter&->&Hu&El). rewrite E in El. cbn [tail] in El.
  destruct (on_prefix_next it key v l iter (tr_on _ _ _ Ht) E Hu El) as (f&Ek&Er&Ho&Ef).
  set (it' := advanced key v iter it) in *. assert (tracks mem k it') as Ht'.
  { split; [done|by exists f| |].
    - rewrite Ef, <- Er. by apply (StronglySorted_inv (tr_sorted _ _ _ Ht)).
    - intros m Hm. rewrite Ef, <- Er, <- (tr_mem _ _ _ Ht m Hm), (elem_of_cons (rest it)).
      split; [by right|]. intros [->|]; [|done]. exfalso. apply (blt_irrefl k). by eapply ble_blt_trans. }
  assert ((len (is_current it') >=? len (is_prefix it')) = true) as ->.
  { cbn [is_current is_prefix advanced it']. rewrite Ek, len_app. pose proof (len_nonneg f). lia. }
  pose proof (tells_compare mem k it' Ht') as Hc.
  destruct (bytes_compare (cur_suffix it') k); [by apply wp_ret, HQ| |by apply wp_ret, HQ].
  apply IH; [cbn [is_iter advanced it']; rewrite El; simpl in Hf; lia|done|done|done].
Qed.

Lemma wp_visit mem k it t (Q : error + IterScan * position -> Txn -> Prop) :
  tracks mem k it ->
  (forall it' p, tracks mem k it' -> tells mem k p -> Q (inr (it', p)) t) ->
  wp (visit k it) t Q.
Proof.
  intros Ht HQ. unfold visit. destruct (tr_current _ _ _ Ht) as [f Ec].
  assert ((len (is_current it) <? len (is_prefix it)) = false) as ->.
  { rewrite Ec, len_app. pose proof (len_nonneg f). lia. }
  pose proof (tells_compare mem k it Ht) as Hc.
  destruct (bytes_compare (cur_suffix it) k); [by apply wp_ret, HQ| |by apply wp_ret, HQ].
  eapply wp_seek; [pose proof (it_size_list (is_iter it)); lia|done..].
Qed.

(** [NextUntil] over all iterators: values from all of them exactly when all have the
    key. *)
Lemma wp_NextUntil_all mems k l vs t (Q : error + IterScans * list (nat * bytes) -> Txn -> Prop) :
  Forall2 (fun mem it => tracks mem k it) mems l ->
  (forall l' vs', Forall2 (fun mem it => tracks mem k it) mems l' ->
     (Forall (fun mem => mem k) mems /\ len vs' = len vs + len mems) \/
     (~ Forall (fun mem => mem k) mems /\ len vs' < len vs + len mems) -> Q (inr (l', vs')) t) ->
  wp (NextUntil k true l vs) t Q.
Proof.
  intros Hl. revert vs Q. induction Hl as [|mem it mems l Ht Hl IH]; intros vs Q HQ; cbn [NextUntil].
  { apply wp_ret, HQ; [done|]. left. split; [done|]. unfold len. simpl. lia. }
  pose proof (len_nonneg mems). pose proof (len_nonneg vs).
  apply wp_on_value, (wp_visit mem); [done|]. intros it' p Ht' Hp. destruct p as [v| |]; cbn [tells] in Hp.
  - apply wp_on_value, IH. intros l' vs' Hl' Hvs. apply wp_ret, HQ; [by constructor|].
    rewrite len_app, len_cons in *. change (len [(is_idx it', v)]) with 1 in Hvs.
    rewrite Forall_cons. destruct Hvs as [[Hf Hn]|[Hf Hn]]; [left|right]; (split; [tauto|lia]).
  - apply wp_ret, HQ; [by constructor|]. right. rewrite Forall_cons, len_cons. split; [tauto|].
    change (len (@nil (nat * bytes))) with 0. lia.
  - apply wp_on_value, IH. intros l' vs' Hl' Hvs. apply wp_ret, HQ; [by constructor|].
    rewrite len_cons, Forall_cons. right. split; [tauto|]. destruct Hvs as [[_ Hn]|[_ Hn]]; lia.
Qed.

(** Otherwise: a value exactly when some iterator has the key. *)
Lemma wp_NextUntil_any mems k l vs t (Q : error + IterScans * list (nat * bytes) -> Txn -> Prop) :
  Forall2 (fun mem it => tracks mem k it) mems l ->
  (forall l' vs', Forall2 (fun mem it => tracks mem k it) mems l' ->
     (Exists (fun mem => mem k) mems /\ len vs < len vs') \/
     (~ Exists (fun mem => mem k) mems /\ vs' = vs) -> Q (inr (l', vs')) t) ->
  wp (NextUntil k false l vs) t Q.
Proof.
  intros Hl. revert vs Q. induction Hl as [|mem it mems l Ht Hl IH]; intros vs Q HQ; cbn [NextUntil].
  { apply wp_ret, HQ; [done|]. right. split; [|done]. by intros ?%Exists_nil. }
  apply wp_on_value, (wp_visit mem); [done|]. intros it' p Ht' Hp. destruct p as [v| |]; cbn [tells] in Hp.
  - apply wp_ret, HQ.
    + constructor; [done|]. eapply Forall2_impl; [exact Hl|]. done.
    + left. rewrite len_app. split; [by left|]. change (len [(is_idx it', v)]) with 1. lia.
  - apply wp_on_value, IH. intros l' vs' Hl' Hvs. apply wp_ret, HQ; [by constructor|].
    rewrite Exists_cons. tauto.
  - apply wp_on_value, IH. intros l' vs' Hl' Hvs. apply wp_ret, HQ; [by constructor|].
    rewrite Exists_cons. tauto.
Qed.

(** *** The merge *)

(** The keys that are still to come: those in the heap and those of the iterators. *)
Definition keys_of (heap : list Heap.KV) : list bytes := Heap.kv_Key <$> heap.
Definition pending (il : IterList) : list bytes := keys_of (il_heap il) ++ concat (rest <$> il_iters il).

(** The same with their values. *)
Definition kvs (it : IterScan) : list Heap.KV :=
  (fun e => {| Heap.kv_Idx := is_idx it; Heap.kv_Key := drop (length (is_prefix it)) (fst e);
               Heap.kv_Value := snd e |}) <$> it_list (is_iter it).
Definition pendings (il : IterList) : list Heap.KV := il_heap il ++ concat (kvs <$> il_iters il).

Lemma keys_kvs it : keys_of (kvs it) = rest it.
Proof. unfold keys_of, kvs, rest. rewrite <- list_fmap_compose. done. Qed.

Lemma keys_pendings il : keys_of (pendings il) = pending il.
Proof.
  unfold pending, pendings, keys_of. rewrite fmap_app. f_equal.
  induction (il_iters il) as [|it l IH]; [done|]. cbn [fmap list_fmap concat].
  rewrite fmap_app. f_equal; [apply keys_kvs|done].
Qed.

#[export] Instance keys_of_proper : Proper ((≡ₚ) ==> (≡ₚ)) keys_of.
Proof. intros l k E. unfold keys_of. by rewrite E. Qed.

(** What one pass over an iterator leaves: nothing is lost, and a key that is no
    greater than those that remain is in the heap. *)
Record pulled (it it' : IterScan) (heap heap' : list Heap.KV) : Prop := {
  pu_on : on_prefix it';
  pu_heap : Heap.is_heap heap';
  pu_kvs : heap' ++ kvs it' ≡ₚ heap ++ kvs it;
  pu_more : keys_of heap ⊆ keys_of heap';
  pu_least : rest it' <> [] -> exists m, m ∈ keys_of heap' /\ Forall (ble m) (rest it')
}.

Lemma wp_pull fuel it heap t (Q : error + IterScan * list Heap.KV -> Txn -> Prop) :
  (0 < fuel)%nat -> on_prefix it -> Heap.is_heap heap ->
  (forall it' heap', pulled it it' heap heap' -> Q (inr (it', heap')) t) ->
  wp (pull fuel it heap) t Q.
Proof.
  intros Hf Ho Hh HQ. destruct fuel as [|fuel]; [lia|]. cbn [pull]. rewrite it_Valid_list.
  destruct (it_list (is_iter it)) as [|[key v] l] eqn:E.
  { apply wp_ret, HQ. split; [done|done|done|done|]. unfold rest. rewrite E. done. }
  rewrite bool_decide_eq_false_2 by done. cbn [negb].
  destruct (it_Key_list _ _ _ _ E) as [-> ->].
  destruct (it_Next_up _ (op_up _ Ho)) as (iter&->&Hu&El). rewrite E in El. cbn [tail] in El.
  destruct (on_prefix_next it key v l iter Ho E Hu El) as (f&Ek&Er&Ho'&Ef).
  assert ((len key >=? len (is_prefix it)) = true) as ->.
  { rewrite Ek, len_app. pose proof (len_nonneg f). lia. }
  apply wp_ret, HQ. rewrite Ek, drop_app_length.
  set (kv := {| Heap.kv_Idx := is_idx it; Heap.kv_Key := f; Heap.kv_Value := v |}).
  destruct (Heap.Push_heap kv heap Hh) as [Hh' Hp].
  assert (kvs it = kv :: kvs (advanced (is_current it) (is_curValue it) iter it)) as Ekv.
  { unfold kvs. rewrite E. cbn [fmap list_fmap fst snd is_iter is_prefix is_idx advanced].
    by rewrite Ek, drop_app_length, El. }
  assert (rest (advanced (is_current it) (is_curValue it) iter it) = rest (advanced key v iter it)) as Ea by done.
  split.
  - split; [apply Ho'|apply Ho'|]. rewrite Ea. apply Ho'.
  - done.
  - rewrite Ekv, Hp. cbn [app]. apply Permutation_middle.
  - intros m Hm. rewrite Hp. unfold keys_of. by right.
  - intros _. exists f. split; [rewrite Hp; by left|]. rewrite Ea.
    pose proof (op_sorted _ Ho) as Hs. rewrite Er in Hs. apply (StronglySorted_inv Hs).
Qed.

Lemma wp_pull_all l heap t (Q : error + IterScans * list Heap.KV -> Txn -> Prop) :
  Forall on_prefix l -> Heap.is_heap heap ->
  (forall l' heap', Forall on_prefix l' -> Heap.is_heap heap' ->
     heap' ++ concat (kvs <$> l') ≡ₚ heap ++ concat (kvs <$> l) ->
     keys_of heap ⊆ keys_of heap' ->
     Forall (fun it => exists m, m ∈ keys_of heap' /\ Forall (ble m) (rest it)) l' ->
     Q (inr (l', heap')) t) ->
  wp (pull_all l heap) t Q.
Proof.
  intros Hl. revert heap Q. induction Hl as [|it l Ho Hl IH]; intros heap Q Hh HQ; cbn [pull_all].
  { by apply wp_ret, HQ. }
  apply wp_on_value, wp_pull; [lia|done|done|]. intros it' heap1 Hp.
  apply wp_on_value, IH; [apply Hp|]. intros l' heap' Hl' Hh' Hk Hm Hf. apply wp_ret.
  assert (heap' ++ kvs it' ++ concat (kvs <$> l') ≡ₚ heap ++ kvs it ++ concat (kvs <$> l)) as Hall.
  { rewrite (Permutation_app_comm (kvs it')), app_assoc, Hk, <- app_assoc.
    rewrite (Permutation_app_comm _ (kvs it')), !app_assoc. by rewrite (pu_kvs _ _ _ _ Hp). }
  assert (keys_of heap ⊆ keys_of heap') as Hsub by (intros m Hx; by apply Hm, (pu_more _ _ _ _ Hp)).
  rewrite it_Valid_list. destruct (bool_decide_reflect (it_list (is_iter it') = [])) as [Ee|Ee]; cbn [negb].
  - apply HQ; try done. cbn [fmap list_fmap concat]. rewrite <- Hall. unfold kvs at 2. by rewrite Ee.
  - apply HQ; [constructor; [apply Hp|done]|done|done|done|]. constructor; [|done].
    destruct (pu_least _ _ _ _ Hp) as (m&Hin&Hle); [|by exists m; split; [apply Hm|]].
    unfold rest. by destruct (it_list (is_iter it')).
Qed.

Lemma wp_Next il t (Q : error + IterList * option Heap.KV -> Txn -> Prop) :
  Forall on_prefix (il_iters il) -> Heap.is_heap (il_heap il) ->
  (forall il' o, Forall on_prefix (il_iters il') -> Heap.is_heap (il_heap il') ->
     match o with
     | None => pendings il = []
     | Some kv => pendings il ≡ₚ kv :: pendings il' /\ Forall (ble (Heap.kv_Key kv)) (pending il')
     end -> Q (inr (il', o)) t) ->
  wp (Next il) t Q.
Proof.
  intros Hl Hh HQ. unfold Next. apply wp_on_value, wp_pull_all; [done|done|].
  intros l heap Hl' Hh' Hk _ Hf. pose proof (Heap.Pop_heap heap Hh') as Hpop.
  destruct heap as [|kv0 heap0].
  { apply wp_ret, HQ; [done|done|]. apply Permutation_nil. unfold pendings. rewrite <- Hk.
    destruct Hf as [|it l (m&Hm&_) _]; [done|]. by apply not_elem_of_nil in Hm. }
  destruct (Heap.Pop (kv0 :: heap0)) as [[kv heap']|]; [|done].
  destruct Hpop as (Hh1&Hp&Hmin). apply wp_ret, HQ; [done|done|]. split.
  - unfold pendings at 1. rewrite <- Hk. unfold pendings. cbn [il_heap il_iters]. by rewrite Hp.
  - unfold pending. cbn [il_heap il_iters]. rewrite Forall_app. unfold keys_of in *.
    assert (forall m, m ∈ Heap.kv_Key <$> kv0 :: heap0 -> ble (Heap.kv_Key kv) m) as Hm.
    { intros m (y&->&Hy)%list_elem_of_fmap. by apply Hmin. }
    split.
    + rewrite Forall_forall. intros m Hin. apply Hm. rewrite Hp. by right.
    + rewrite Forall_forall in Hf. rewrite Forall_forall. intros m Hin.
      apply elem_of_concat in Hin as (r&Hmr&(it&->&Hit)%list_elem_of_fmap).
      destruct (Hf it Hit) as (x&Hx&Hle). rewrite Forall_forall in Hle.
      eapply ble_trans; [by apply Hm|by apply Hle].
Qed.

(** *** The loop of a union *)

(** What [union] returns for the sorted members [u]: the last key, when it is empty, is
    taken for the end. *)
Definition but_lone_empty (u : list bytes) : list bytes := if decide (u = [[]]) then [] else u.

Lemma wp_union_loop fuel il pre l t (Q : error + list bytes -> Txn -> Prop) :
  (length (pending il) < fuel)%nat -> Forall on_prefix (il_iters il) -> Heap.is_heap (il_heap il) ->
  Forall (fun m => from_option (fun p => ble p m) True pre) (pending il) ->
  (forall u, StronglySorted blt u ->
     (forall m, m ∈ u <-> pre = Some m \/ m ∈ pending il) -> Q (inr (l ++ but_lone_empty u)) t) ->
  wp (union_loop fuel il pre l) t Q.
Proof.
  revert il pre l Q. induction fuel as [|fuel IH]; intros il pre l Q Hf Hl Hh Hpre HQ; [lia|].
  cbn [union_loop]. apply wp_on_value, wp_Next; [done|done|]. intros il' o Hl' Hh' Ho.
  destruct o as [kv|]; cbn [from_option].
  2: { apply wp_ret. rewrite <- keys_pendings, Ho in HQ. cbn [keys_of fmap list_fmap] in HQ. destruct pre as [p|].
    - specialize (HQ [p]). unfold but_lone_empty in HQ. unfold bytes_Equal.
      destruct (decide ([p] = [[]])) as [E|E].
      + injection E as ->. rewrite bool_decide_eq_true_2 by done. rewrite app_nil_r in HQ.
        apply HQ; [repeat constructor|]. intros m. rewrite list_elem_of_singleton, elem_of_nil. naive_solver.
      + rewrite bool_decide_eq_false_2 by (intros ->; done).
        apply HQ; [repeat constructor|]. intros m. rewrite list_elem_of_singleton, elem_of_nil. naive_solver.
    - specialize (HQ []). unfold but_lone_empty in HQ. rewrite decide_False, app_nil_r in HQ by done.
      apply HQ; [constructor|]. intros m. rewrite elem_of_nil. naive_solver. }
  destruct Ho as [Hp Hmin]. set (k := Heap.kv_Key kv) in *.
  assert (pending il ≡ₚ k :: pending il') as Hpk0 by (rewrite <- !keys_pendings, Hp; done).
  clear Hp. rename Hpk0 into Hp.
  assert (length (pending il') < fuel)%nat as Hf' by (apply Permutation_length in Hp; simpl in Hp; lia).
  apply IH; [done|done|done|done|]. intros u Hu Hm. destruct pre as [p|].
  2: { apply HQ; [done|]. intros m. rewrite Hm, Hp, elem_of_cons. naive_solver. }
  cbn [from_option] in Hpre. rewrite Hp, Forall_cons in Hpre. destruct Hpre as [Hpk Hpre].
  unfold bytes_Equal. destruct (bool_decide_reflect (p = k)) as [->|Hne].
  { apply HQ; [done|]. intros m. rewrite Hm, Hp, elem_of_cons. naive_solver. }
  assert (forall m, m ∈ u -> blt p m) as Hpu.
  { intros m [[= <-]|Hin]%Hm; apply ble_lt_eq in Hpk as [Hb| ->]; try done.
    eapply blt_ble_trans; [done|]. rewrite Forall_forall in Hmin. by apply Hmin. }
  assert (k ∈ u) as Hk by (apply Hm; by left).
  assert (but_lone_empty u = u) as ->.
  { unfold but_lone_empty. rewrite decide_False; [done|]. intros ->. apply list_elem_of_singleton in Hk.
    rewrite Hk in Hpk. apply ble_lt_eq in Hpk as [Hb|]; [by destruct p|congruence]. }
  rewrite <- app_assoc. specialize (HQ (p :: u)). unfold but_lone_empty in HQ.
  rewrite decide_False in HQ by (intros [= -> ->]; by apply elem_of_nil in Hk). apply HQ.
  - constructor; [done|]. by apply Forall_forall.
  - intros m. rewrite elem_of_cons, Hm, Hp, elem_of_cons. naive_solver.
Qed.

End iters.

(** ** The commands *)

(** A listing whose callback goes on to the end: the callback maintains an invariant
    between what has been listed and its variables. *)
Lemma wp_List_inv `{PlatformSpec} {S} start end_ limit (cb : Callback S) s t
    (I : list (bytes * bytes) -> S -> Prop) (Q : S * option error -> Txn -> Prop) :
  t_up t -> end_ <> [] -> ble start end_ -> len (range_entries start end_ (t_view t)) < limit ->
  I [] s ->
  (forall seen k v more s, range_entries start end_ (t_view t) = seen ++ (k, v) :: more -> I seen s ->
     wp (cb s k v) t (fun r t' => t' = t /\ exists s', r = (s', true) /\ I (seen ++ [(k, v)]) s')) ->
  (forall s, I (range_entries start end_ (t_view t)) s -> Q (s, None) t) ->
  wp (List start end_ limit cb s) t Q.
Proof.
  intros Hup He Hse Hl Hi Hcb HQ. unfold List.
  assert (bytes_ltb end_ start = false) as ->.
  { apply not_true_iff_false. rewrite bytes_ltb_spec, blt_not_ble. tauto. }
  destruct (IterOf_up start end_ false t Hup) as (it&Hit&Hu&Hil).
  unfold wp, bind. rewrite Hit. rewrite List_loop_on by (first [done | pose proof (it_size_list it); lia]).
  rewrite Hil. clear it Hit Hu Hil.
  assert (forall l seen count s, range_entries start end_ (t_view t) = seen ++ l -> count = len seen -> I seen s ->
    wp (List_on start end_ limit cb l count s) t Q) as Hon.
  { induction l as [|[k v] l IH]; intros seen count s1 E Hc Hs; cbn [List_on].
    - apply wp_ret, HQ. by rewrite E, app_nil_r.
    - assert ((k, v) ∈ range_entries start end_ (t_view t)) as Hin.
      { rewrite E. apply elem_of_app. right. by left. }
      apply elem_in_range in Hin as [Hs1 Hb].
      assert (bytes_ltb k start || bytes_leb end_ k = false) as ->.
      { unfold below in Hb. destruct end_ as [|b e]; [done|]. apply bytes_ltb_spec, blt_not_ble in Hb.
        apply orb_false_iff; split; apply not_true_iff_false; rewrite ?bytes_leb_spec, ?bytes_ltb_spec; [|done].
        rewrite blt_not_ble. tauto. }
      apply wp_bind. eapply wp_mono; [by eapply Hcb|]. intros r t' (->&s'&->&Hs'). cbn [negb].
      rewrite E, len_app, len_cons in Hl. pose proof (len_nonneg l).
      destruct (Z.geb_spec (count + 1) limit); [lia|]. rewrite andb_false_r.
      apply (IH (seen ++ [(k, v)])); [by rewrite E, <- app_assoc| |done].
      rewrite len_app, Hc. by unfold len. }
  by apply (Hon _ []).
Qed.

Section sets.
Context `{PlatformSpec}.

(** The key [k] holds a set or nothing. No key that is shorter than the prefix of the
    members may lie among them (there is none unless the identifier of the set ends in
    [0xff], and then only next to a set with a shorter identifier). *)
Definition unmixed (t : Txn) (o : Object) : Prop :=
  forall e, e ∈ range_entries (value_prefix o) (Bytes.PrefixNext (value_prefix o)) (t_view t) ->
    len (value_prefix o) <= len (fst e).

Definition is_set (c : Config) (t : Txn) (k : bytes) : Prop :=
  key_ok k /\ good_header c t k /\
  match find c t (dv t) k with None => True | Some o => o_Type o = SetType /\ unmixed t o end.

(** Its members, in ascending order. *)
Definition set_of (c : Config) (t : Txn) (k : bytes) : list bytes :=
  match find c t (dv t) k with None => [] | Some o => members (dv t) o end.

Lemma elem_of_members t o m : m ∈ members (dv t) o <-> is_Some (t_view t !! GetValueBytes o m).
Proof.
  unfold members. rewrite list_elem_of_fmap, entries_dv. split.
  - intros ([x v]&->&Hx). apply elem_of_entries in Hx as (Hx&f&->). cbn [fst].
    rewrite (GetValueBytes_app o f), drop_app_length. eauto.
  - intros [v Hv]. exists (GetValueBytes o m, v). rewrite elem_of_entries. cbn [fst].
    split; [by rewrite GetValueBytes_app, drop_app_length|eauto].
Qed.

Lemma members_sorted t o : StronglySorted blt (members (dv t) o).
Proof.
  unfold members. apply suffixes_sorted.
  - unfold entries. apply StronglySorted_sublist, range_entries_sorted.
  - intros [x v] Hx. apply elem_of_entries in Hx as (_&f&->). exists f. apply GetValueBytes_app.
Qed.

Lemma wp_lookup_set c k t (Q : Object * option error -> Txn -> Prop) :
  ready c t -> is_set c t k ->
  Q match find c t (dv t) k with
    | Some o => (o, None)
    | None => (the_object c t SetType k, Some KeyNotFound)
    end t ->
  wp (lookup SetType k false) t Q.
Proof.
  intros Hr (Hk&Hg&Hs) HQ. unfold lookup. apply wp_bind, (wp_NewObject c); [done|].
  apply (wp_getTxnObject c); [done|rewrite len_ObjectKeyBytes; cbn [o_Key new_object]; unfold key_ok in Hk; lia|].
  fold (the_object c t SetType k). intros t' _ Hsame. rewrite Hsame, (read_object_typed c t SetType k Hg) by done.
  destruct (find c t (dv t) k) as [o|]; [|done]. destruct Hs as [-> _]. by rewrite beq_refl.
Qed.

Lemma wp_checkValid c ks t (Q : option error -> Txn -> Prop) :
  ready c t -> Forall (is_set c t) ks -> Q None t -> wp (checkValidObjectArgs ks SetType) t Q.
Proof.
  intros Hr Hks HQ. induction Hks as [|k ks Hk Hks IH]; cbn [checkValidObjectArgs]; [done|].
  apply wp_bind, (wp_lookup_set c); [done|done|]. by destruct (find c t (dv t) k).
Qed.

(** An iterator over the members from [k0] on. *)
Lemma wp_IterOf o k0 t (Q : error + Iter -> Txn -> Prop) :
  t_up t -> unmixed t o ->
  (forall it, it_up it ->
     (forall e, e ∈ it_list it -> exists f, fst e = value_prefix o ++ f) ->
     StronglySorted blt ((fun e => drop (length (value_prefix o)) (fst e)) <$> it_list it) ->
     (forall m, m ∈ ((fun e => drop (length (value_prefix o)) (fst e)) <$> it_list it) <->
        ble k0 m /\ m ∈ members (dv t) o) ->
     Q (inr it) t) ->
  wp (IterOf (value_prefix o ++ k0) (Bytes.PrefixNext (value_prefix o)) false) t Q.
Proof.
  intros Hup Hm HQ. destruct (IterOf_up (value_prefix o ++ k0) (Bytes.PrefixNext (value_prefix o)) false t Hup)
    as (it&Hi&Hu&Hl). unfold wp. rewrite Hi.
  assert (forall k v, (k, v) ∈ it_list it -> exists f, k = value_prefix o ++ f /\ t_view t !! k = Some v /\ ble k0 f) as Hp.
  { intros k v Hin. rewrite Hl in Hin. apply elem_of_range_entries in Hin as (Hv&Hs&Hb).
    assert ((k, v) ∈ entries (t_view t) o) as He.
    { unfold entries. rewrite list_elem_of_filter.
      assert ((k, v) ∈ range_entries (value_prefix o) (Bytes.PrefixNext (value_prefix o)) (t_view t)) as Hr.
      { apply elem_of_range_entries. split; [done|]. split; [|done]. eapply ble_trans; [apply ble_app|exact Hs]. }
      split; [|done]. by apply Z.leb_le, (Hm _ Hr). }
    apply elem_of_entries in He as (_&f&->). rewrite GetValueBytes_app in *. exists f.
    split; [done|]. split; [done|]. by apply ble_app_inv in Hs. }
  apply HQ; [done| | |].
  - intros [k v] Hin. destruct (Hp k v Hin) as (f&->&_). by exists f.
  - apply suffixes_sorted; [rewrite Hl; apply range_entries_sorted|].
    intros [k v] Hin. destruct (Hp k v Hin) as (f&->&_). by exists f.
  - intros m. rewrite list_elem_of_fmap. split.
    + intros ([k v]&->&Hin). destruct (Hp k v Hin) as (f&->&Hv&Hb). cbn [fst]. rewrite drop_app_length.
      split; [done|]. apply elem_of_members. rewrite GetValueBytes_app. by eexists.
    + intros [Hb [v Hv]%elem_of_members]. exists (value_prefix o ++ m, v). cbn [fst].
      split; [by rewrite drop_app_length|]. rewrite Hl. apply elem_of_range_entries.
      rewrite <- (GetValueBytes_app o m). split; [done|].
      split; [rewrite GetValueBytes_app; by apply ble_app_inv|].
      pose proof (proj1 (field_in_entries_range o m)) as Hr. apply in_range_spec in Hr. apply Hr.
Qed.

(** *** Union *)

Lemma wp_union_iters c ks i l0 t (Q : error + IterScans -> Txn -> Prop) :
  ready c t -> Forall (is_set c t) ks -> Forall on_prefix l0 ->
  (forall l, Forall on_prefix l ->
     (forall m, m ∈ concat (rest <$> l) <-> m ∈ concat (rest <$> l0) \/ exists k, k ∈ ks /\ m ∈ set_of c t k) ->
     Q (inr l) t) ->
  wp (union_iters ks i l0) t Q.
Proof.
  intros Hr Hks. revert i l0 Q. induction Hks as [|k ks Hk Hks IH]; intros i l0 Q Hl0 HQ; cbn [union_iters].
  { apply wp_ret, HQ; [done|]. intros m. split; [by left|]. intros [|(k&Hk&_)]; [done|by apply elem_of_nil in Hk]. }
  apply wp_bind, (wp_lookup_set c); [done|done|]. unfold set_of in HQ.
  destruct (find c t (dv t) k) as [o|] eqn:Ef.
  2: { apply IH; [done|]. intros l Hl Hm. apply HQ; [done|]. intros m. rewrite Hm. split.
       - intros [|(k'&Hk'&Hin)]; [by left|]. right. exists k'. split; [by right|done].
       - intros [|(k'&[->|Hk']%elem_of_cons&Hin)]; [by left| |right; by exists k'].
         rewrite Ef in Hin. by apply elem_of_nil in Hin. }
  destruct Hk as (_&_&Hs). rewrite Ef in Hs. destruct Hs as [_ Hu].
  unfold member_prefix. fold (value_prefix o).
  apply wp_on_value. replace (IterOf (value_prefix o)) with (IterOf (value_prefix o ++ [])) by by rewrite app_nil_r.
  apply wp_IterOf; [by apply (rd_up c)|done|].
  intros it Hit Hp Hsort Hmem. set (sc := {| is_prefix := value_prefix o; is_current := value_prefix o;
    is_curValue := []; is_idx := i; is_iter := it |}).
  assert (on_prefix sc) as Hsc by (split; [done|done|by apply blt_sorted_ble]).
  unfold Add. fold sc. apply IH; [apply Forall_app; split; [done|by constructor]|].
  intros l Hl Hm. apply HQ; [done|]. intros m. rewrite Hm, fmap_app, concat_app, elem_of_app.
  cbn [fmap list_fmap concat]. rewrite app_nil_r. change (rest sc) with ((fun e => drop (length (value_prefix o)) (fst e)) <$> it_list it).
  rewrite Hmem. split.
  - intros [[|[_ Hin]]|(k'&Hk'&Hin)]; [by left|right; exists k; rewrite Ef; split; [by left|done]|].
    right. exists k'. split; [by right|done].
  - intros [|(k'&[->|Hk']%elem_of_cons&Hin)]; [by left; left| |right; by exists k'].
    rewrite Ef in Hin. left. right. split; [|done]. by destruct m.
Qed.

Lemma length_pending l : (length (concat (rest <$> l)) <= entries_bound l)%nat.
Proof.
  unfold entries_bound. induction l as [|it l IH]; [done|]. cbn [fmap list_fmap concat list_sum foldr].
  rewrite length_app. unfold rest at 1. rewrite length_fmap. pose proof (it_size_list (is_iter it)).
  unfold compose at 1. unfold list_sum in IH. lia.
Qed.

(** C19. SUNION of keys that hold sets or nothing: the reply lists the members of all of
    them, each once and in ascending order, however they are spread over the sets. There
    is one exception: when the empty member is the only one, the loop takes it for the
    end and the reply is empty. Nothing is written. *)
Theorem SUnionHandle_union c ks t :
  ready c t -> ks <> [] -> Forall (is_set c t) ks ->
  exists u, StronglySorted blt u /\
    (forall m, m ∈ u <-> exists k, k ∈ ks /\ m ∈ set_of c t k) /\
    SUnionHandle ks t = Ret (bulks (if decide (u = [[]]) then [] else u)) t.
Proof.
  intros Hr Hne Hks.
  assert (wp (SUnionHandle ks) t (fun r t' => t' = t /\ exists u, StronglySorted blt u /\
    (forall m, m ∈ u <-> exists k, k ∈ ks /\ m ∈ set_of c t k) /\ r = bulks (but_lone_empty u))) as Hw.
  { unfold SUnionHandle. assert ((len ks <? 1) = false) as ->.
    { destruct ks; [done|]. rewrite len_cons. pose proof (len_nonneg ks). lia. }
    unfold reply_bulks. apply wp_on_value. unfold union. apply wp_on_value, (wp_union_iters c); [done|done|constructor|].
    intros l Hl Hm. pose proof (length_pending l). apply wp_union_loop; unfold pending, keys_of; cbn [il_heap il_iters fmap list_fmap app].
    - lia.
    - done.
    - apply Heap.is_heap_nil.
    - apply Forall_forall. done.
    - intros u Hu Hmu. cbn [app]. apply wp_ret. split; [done|]. exists u. split; [done|]. split; [|done].
      intros m. rewrite Hmu, Hm. cbn [fmap list_fmap concat]. rewrite elem_of_nil. naive_solver. }
  apply wp_returns in Hw as (r&t'&Hrun&->&u&Hu&Hm&->). by exists u.
Qed.

(** *** Scanning one set against others *)

(** What an iterator over the members of [o] tells: the empty member is where it
    stands before its first step, and taken for there. *)
Definition mem_of (t : Txn) (o : Object) (m : bytes) : Prop := m = [] \/ m ∈ members (dv t) o.

Lemma wp_open_iters k llist l0 mems t (Q : error + IterScans -> Txn -> Prop) :
  t_up t -> Forall (unmixed t) llist.*2 -> Forall2 (fun mem it => tracks mem k it) mems l0 ->
  (forall l, Forall2 (fun mem it => tracks mem k it) (mems ++ (mem_of t <$> llist.*2)) l -> Q (inr l) t) ->
  wp (open_iters k llist l0) t Q.
Proof.
  intros Hup. revert l0 mems. induction llist as [|[i o] llist IH]; intros l0 mems Hu Hl HQ; cbn [open_iters].
  { apply wp_ret, HQ. by rewrite app_nil_r. }
  cbn [fmap list_fmap snd] in Hu, HQ. apply Forall_cons in Hu as [Hu Hus].
  unfold member_prefix. fold (value_prefix o). rewrite GetValueBytes_app.
  apply wp_on_value, wp_IterOf; [done|done|]. intros it Hit Hp Hsort Hmem.
  set (sc := {| is_prefix := value_prefix o; is_current := value_prefix o;
    is_curValue := []; is_idx := i; is_iter := it |}).
  assert (cur_suffix sc = []) as Hcur by (apply drop_all).
  apply (IH (Add (value_prefix o) i it l0) (mems ++ [mem_of t o])); [done| |].
  - unfold Add. fold sc. apply Forall2_app; [done|]. constructor; [|done].
    split.
    + split; [done|done|by apply blt_sorted_ble].
    + exists []. by rewrite app_nil_r.
    + rewrite Hcur. constructor; [by apply blt_sorted_ble|]. apply Forall_forall. intros m _. by destruct m.
    + intros m Hm. rewrite Hcur, elem_of_cons.
      change (rest sc) with ((fun e => drop (length (value_prefix o)) (fst e)) <$> it_list it).
      rewrite Hmem. unfold mem_of. tauto.
  - intros l Hl'. apply HQ. by rewrite <- app_assoc in Hl'.
Qed.

(** The state of a scan after the members [seen]; [P] says which of them are returned. *)
Definition scanned (t : Txn) (llist : list (nat * Object)) (P : bytes -> Prop) `{!forall m, Decision (P m)}
    (seen : list bytes) (s : scan) : Prop :=
  sc_cbErr s = None /\ sc_ret s = base.filter P seen /\
  match sc_iters s with
  | None => llist = [] \/ seen = []
  | Some l => llist <> [] /\ forall k, Forall (fun m => blt m k) seen ->
      Forall2 (fun mem it => tracks mem k it) (mem_of t <$> llist.*2) l
  end.

Lemma wp_opened k llist iters t (Q : error + option IterScans -> Txn -> Prop) :
  t_up t -> Forall (unmixed t) llist.*2 ->
  match iters with
  | None => True
  | Some l => llist <> [] /\ Forall2 (fun mem it => tracks mem k it) (mem_of t <$> llist.*2) l
  end ->
  (llist = [] -> Q (inr None) t) ->
  (llist <> [] -> forall l, Forall2 (fun mem it => tracks mem k it) (mem_of t <$> llist.*2) l -> Q (inr (Some l)) t) ->
  wp (opened k llist iters) t Q.
Proof.
  intros Hup Hu Hi Hn HQ. unfold opened. destruct iters as [l|]; [by apply wp_ret, HQ; apply Hi|].
  destruct llist as [|x llist]; [by apply wp_ret, Hn|].
  apply wp_on_value, (wp_open_iters k _ [] []); [done|done|constructor|].
  intros l Hl. by apply wp_ret, HQ.
Qed.

Lemma wp_get_all c glist k t (Q : option error -> Txn -> Prop) :
  ready c t -> Forall (collection t) glist.*2 -> field_ok k ->
  (Forall (fun o => k ∈ members (dv t) o) glist.*2 -> Q None t) ->
  (~ Forall (fun o => k ∈ members (dv t) o) glist.*2 -> Q (Some KeyNotFound) t) ->
  wp (get_all glist k) t Q.
Proof.
  intros Hr Hg Hk. induction glist as [|[i o] glist IH]; cbn [get_all fmap list_fmap snd]; intros HQ HQ'.
  { by apply wp_ret, HQ. }
  apply Forall_cons in Hg as [Ho Hg]. apply wp_bind, (wp_field_Get c); [done..|].
  assert (k ∈ members (dv t) o <-> is_Some (fields (dv t) o k)) as Hm.
  { rewrite elem_of_members. unfold fields, dv. by rewrite dview_lookup. }
  destruct (fields (dv t) o k) as [v|].
  - apply IH; [done| |]; intros Hf; [apply HQ|apply HQ']; rewrite Forall_cons, Hm; [by split; [eexists|]|tauto].
  - apply wp_ret, HQ'. rewrite Forall_cons, Hm. intros [[x Hx] _]. done.
Qed.

Lemma wp_get_any c glist k t (Q : error + bool -> Txn -> Prop) :
  ready c t -> Forall (collection t) glist.*2 -> field_ok k ->
  (Exists (fun o => k ∈ members (dv t) o) glist.*2 -> Q (inr true) t) ->
  (~ Exists (fun o => k ∈ members (dv t) o) glist.*2 -> Q (inr false) t) ->
  wp (get_any glist k) t Q.
Proof.
  intros Hr Hg Hk. induction glist as [|[i o] glist IH]; cbn [get_any fmap list_fmap snd]; intros HQ HQ'.
  { apply wp_ret, HQ'. by intros ?%Exists_nil. }
  apply Forall_cons in Hg as [Ho Hg]. apply wp_bind, (wp_field_Get c); [done..|].
  assert (k ∈ members (dv t) o <-> is_Some (fields (dv t) o k)) as Hm.
  { rewrite elem_of_members. unfold fields, dv. by rewrite dview_lookup. }
  destruct (fields (dv t) o k) as [v|].
  - apply wp_ret, HQ. rewrite Exists_cons, Hm. left. by eexists.
  - apply IH; [done| |]; intros Hf; [apply HQ|apply HQ']; rewrite Exists_cons, Hm; [by right|].
    intros [[x Hx]|]; done.
Qed.

(** What is returned: [P] for an intersection, [Q] for a difference. *)
Definition in_all (t : Txn) (llist glist : list (nat * Object)) (m : bytes) : Prop :=
  Forall (fun o => mem_of t o m) llist.*2 /\ Forall (fun o => m ∈ members (dv t) o) glist.*2.
Definition in_none (t : Txn) (llist glist : list (nat * Object)) (m : bytes) : Prop :=
  ~ Exists (fun o => mem_of t o m) llist.*2 /\ ~ Exists (fun o => m ∈ members (dv t) o) glist.*2.

#[global] Instance mem_of_dec t o m : Decision (mem_of t o m).
Proof. unfold mem_of. apply _. Defined.
#[global] Instance in_all_dec t llist glist m : Decision (in_all t llist glist m).
Proof. unfold in_all. apply _. Defined.
#[global] Instance in_none_dec t llist glist m : Decision (in_none t llist glist m).
Proof. unfold in_none. apply _. Defined.

(** A callback of either command, at the entry of the member [k] of the set [o]. *)
Definition scan_step (c : Config) (t : Txn) (cb : Callback scan) (llist : list (nat * Object)) (o : Object)
    (P : bytes -> Prop) `{!forall m, Decision (P m)} : Prop :=
  forall k v seen s, field_ok k -> Forall (fun m => blt m k) seen -> scanned t llist P seen s ->
    wp (cb s (value_prefix o ++ k) v) t (fun r t' => t' = t /\
      exists s', r = (s', true) /\ scanned t llist P (seen ++ [k]) s').

Lemma scanned_snoc t llist (P : bytes -> Prop) `{!forall m, Decision (P m)} seen k l iters :
  Forall (fun m => blt m k) seen ->
  l = base.filter P seen ++ (if decide (P k) then [k] else []) ->
  match iters with
  | None => llist = []
  | Some l => llist <> [] /\ Forall2 (fun mem it => tracks mem k it) (mem_of t <$> llist.*2) l
  end ->
  scanned t llist P (seen ++ [k]) {| sc_ret := l; sc_iters := iters; sc_cbErr := None |}.
Proof.
  intros Hs -> Hi. split; [done|]. cbn [sc_ret sc_iters]. split.
  - rewrite filter_app, filter_cons. by destruct (decide (P k)).
  - destruct iters as [l|]; [|by left]. destruct Hi as [Hne Hi]. split; [done|]. intros k' Hk'.
    apply Forall_app in Hk' as [_ Hk']. apply Forall_cons in Hk' as [Hk' _].
    eapply Forall2_impl; [exact Hi|]. intros mem it. apply tracks_later. by apply blt_ble.
Qed.

Lemma inter_step c t llist glist o :
  ready c t -> Forall (unmixed t) llist.*2 -> Forall (collection t) glist.*2 ->
  scan_step c t (inter_callback (value_prefix o) llist glist) llist o (in_all t llist glist).
Proof.
  intros Hr Hu Hg k v seen s Hk Hs (He&Hret&Hi). unfold inter_callback.
  assert ((len (value_prefix o ++ k) <? len (value_prefix o)) = false) as ->.
  { rewrite len_app. pose proof (len_nonneg k). lia. }
  rewrite drop_app_length. apply wp_on_value, wp_opened; [by apply (rd_up c)|done| | |].
  - destruct (sc_iters s) as [l|]; [|done]. destruct Hi as [Hne Hi]. by split; [|apply Hi].
  - intros ->. cbn [from_option]. apply wp_bind, (wp_get_all c); [done..| |]; intros Hf; apply wp_ret; (split; [done|]);
      eexists; (split; [done|]); apply scanned_snoc; try done; rewrite Hret.
    + rewrite decide_True by (by split; [constructor|]). done.
    + rewrite decide_False by (by intros [_ ?]). by rewrite app_nil_r.
  - intros Hne l Hl. apply wp_on_value, (wp_NextUntil_all (mem_of t <$> llist.*2)); [done|].
    intros l' vs Hl' Hvs. rewrite len_fmap, len_fmap in Hvs. change (len (@nil (nat * bytes))) with 0 in Hvs.
    assert (Forall (fun mem : bytes -> Prop => mem k) (mem_of t <$> llist.*2) <-> Forall (fun o => mem_of t o k) llist.*2) as Hiff
      by by rewrite Forall_fmap.
    rewrite Hiff in Hvs. destruct Hvs as [[Hall Hn]|[Hall Hn]].
    + destruct (Z.ltb_spec (len vs) (len llist)); [lia|].
      apply wp_bind, (wp_get_all c); [done..| |]; intros Hf; apply wp_ret; (split; [done|]);
        eexists; (split; [done|]); apply scanned_snoc; try done; rewrite Hret.
      * rewrite decide_True by done. done.
      * rewrite decide_False by (by intros [_ ?]). by rewrite app_nil_r.
    + destruct (Z.ltb_spec (len vs) (len llist)); [|lia]. apply wp_ret. split; [done|].
      eexists. split; [done|]. apply scanned_snoc; try done. rewrite Hret.
      rewrite decide_False by (by intros [? _]). by rewrite app_nil_r.
Qed.

Lemma diff_step c t llist glist o :
  ready c t -> Forall (unmixed t) llist.*2 -> Forall (collection t) glist.*2 ->
  scan_step c t (diff_callback (value_prefix o) llist glist) llist o (in_none t llist glist).
Proof.
  intros Hr Hu Hg k v seen s Hk Hs (He&Hret&Hi). unfold diff_callback.
  assert ((len (value_prefix o ++ k) <? len (value_prefix o)) = false) as ->.
  { rewrite len_app. pose proof (len_nonneg k). lia. }
  rewrite drop_app_length. apply wp_on_value, wp_opened; [by apply (rd_up c)|done| | |].
  - destruct (sc_iters s) as [l|]; [|done]. destruct Hi as [Hne Hi]. by split; [|apply Hi].
  - intros ->. apply wp_on_value, (wp_get_any c); [done..| |]; intros Hf; apply wp_ret; (split; [done|]);
      eexists; (split; [done|]); apply scanned_snoc; try done; rewrite Hret.
    + rewrite decide_False by (by intros [_ ?]). by rewrite app_nil_r.
    + rewrite decide_True by (split; [by intros ?%Exists_nil|done]). done.
  - intros Hne l Hl. apply wp_on_value, (wp_get_any c); [done..| |]; intros Hf.
    { apply wp_ret. split; [done|]. eexists. split; [done|]. apply scanned_snoc; try done. rewrite Hret.
      rewrite decide_False by (by intros [_ ?]). by rewrite app_nil_r. }
    apply wp_on_value, (wp_NextUntil_any (mem_of t <$> llist.*2)); [done|]. intros l' vs Hl' Hvs.
    assert (Exists (fun mem : bytes -> Prop => mem k) (mem_of t <$> llist.*2) <-> Exists (fun o => mem_of t o k) llist.*2) as Hiff
      by by rewrite Exists_fmap.
    rewrite Hiff in Hvs. change (len (@nil (nat * bytes))) with 0 in Hvs. destruct Hvs as [[Hany Hn]|[Hany ->]].
    + destruct (Z.gtb_spec (len vs) 0); [|lia]. apply wp_ret. split; [done|].
      eexists. split; [done|]. apply scanned_snoc; try done. rewrite Hret.
      rewrite decide_False by (by intros [? _]). by rewrite app_nil_r.
    + change (len (@nil (nat * bytes)) >? 0) with false. cbv iota. apply wp_ret. split; [done|].
      eexists. split; [done|]. apply scanned_snoc; try done. rewrite Hret. by rewrite decide_True by done.
Qed.

Lemma members_unmixed t o : unmixed t o ->
  members (dv t) o = (fun e => drop (length (value_prefix o)) (fst e)) <$>
    range_entries (value_prefix o) (Bytes.PrefixNext (value_prefix o)) (t_view t).
Proof.
  intros Hu. unfold members. rewrite entries_dv. unfold entries. f_equal.
  unfold unmixed in Hu. induction (range_entries _ _ _) as [|e l IH]; [done|].
  rewrite filter_cons_True by (apply Z.leb_le, Hu; by left). f_equal. apply IH. intros x Hx. apply Hu. by right.
Qed.

Lemma sorted_before {A} (R : relation A) l x l' : StronglySorted R (l ++ x :: l') -> Forall (fun y => R y x) l.
Proof.
  induction l as [|y l IH]; [constructor|]. intros [Hs Hy]%StronglySorted_inv. constructor; [|by apply IH].
  rewrite Forall_forall in Hy. apply Hy, elem_of_app. right. by left.
Qed.

(** The listing of the first set. *)
Lemma wp_scan c t cb llist o (P : bytes -> Prop) `{!forall m, Decision (P m)} limit
    (Q : scan * option error -> Txn -> Prop) :
  ready c t -> unmixed t o -> Forall field_ok (members (dv t) o) -> len (members (dv t) o) < limit ->
  scan_step c t cb llist o P ->
  (forall s, sc_cbErr s = None -> sc_ret s = base.filter P (members (dv t) o) -> Q (s, None) t) ->
  wp (List (value_prefix o) (Bytes.PrefixNext (value_prefix o)) limit cb no_scan) t Q.
Proof.
  intros Hr Hu Hok Hl Hcb HQ. destruct (value_prefix_ok o) as (Hne&Hb&_).
  rewrite members_unmixed, len_fmap in Hl by done.
  apply (wp_List_inv _ _ _ _ _ _ (fun seen s =>
    scanned t llist P ((fun e => drop (length (value_prefix o)) (fst e)) <$> seen) s)); [by apply (rd_up c)|done..| | |].
  - split; [done|]. split; [done|]. by right.
  - intros seen k v more s E Hs.
    assert (exists f, k = value_prefix o ++ f) as [f ->].
    { assert ((k, v) ∈ entries (t_view t) o) as He.
      { assert ((k, v) ∈ range_entries (value_prefix o) (Bytes.PrefixNext (value_prefix o)) (t_view t)) as Hin.
        { rewrite E. apply elem_of_app. right. by left. }
        unfold entries. rewrite list_elem_of_filter. split; [|done]. by apply Z.leb_le, (Hu _ Hin). }
      apply elem_of_entries in He as (_&f&->). exists f. apply GetValueBytes_app. }
    rewrite fmap_app. cbn [fmap list_fmap fst]. rewrite drop_app_length.
    pose proof (members_sorted t o) as Hsort. pose proof (members_unmixed t o Hu) as Em.
    rewrite E, fmap_app in Em. cbn [fmap list_fmap fst] in Em. rewrite drop_app_length in Em. rewrite Em in Hsort, Hok.
    apply Forall_app in Hok as [_ Hok]. apply Forall_cons in Hok as [Hf _].
    apply Hcb; [done| |done]. by eapply sorted_before.
  - intros s (He&Hret&_). apply HQ; [done|]. by rewrite Hret, members_unmixed.
Qed.

(** *** The objects of the arguments *)

Lemma find_collection c t k o : find c t (dv t) k = Some o -> o_Type o = SetType -> collection t o.
Proof.
  intros Ef Eo. destruct (find_key _ _ _ _ _ Ef) as (_&Eu&Ed&_&(_&_&Hv)&_).
  split; [done|done|]. apply Hv. unfold IsSimple. by rewrite Eo.
Qed.

Lemma wp_inter_objects c ks acc t (Q : error + option (list Object) -> Txn -> Prop) :
  ready c t -> Forall (is_set c t) ks ->
  Q (inr (match mapM (find c t (dv t)) ks with Some os => Some (acc ++ os) | None => None end)) t ->
  wp (inter_objects ks acc) t Q.
Proof.
  intros Hr Hks. revert acc. induction Hks as [|k ks Hk Hks IH]; intros acc; cbn [inter_objects mapM]; intros HQ.
  { apply wp_ret. cbn in HQ. by rewrite app_nil_r in HQ. }
  apply wp_bind, (wp_lookup_set c); [done|done|]. cbn in HQ.
  destruct (find c t (dv t) k) as [o|]; cbn in HQ.
  - apply IH. destruct (mapM _ ks) as [os|]; cbn in HQ; [|done]. by rewrite <- app_assoc.
  - by apply wp_on_done, (wp_checkValid c).
Qed.

Definition others_of (c : Config) (t : Txn) (ks : list bytes) : list Object := omap (find c t (dv t)) ks.

Lemma wp_diff_objects c ks i acc t (Q : error + list (nat * Object) -> Txn -> Prop) :
  ready c t -> Forall (is_set c t) ks ->
  (forall l, l.*2 = acc.*2 ++ others_of c t ks -> Q (inr l) t) ->
  wp (diff_objects ks i acc) t Q.
Proof.
  intros Hr Hks. revert i acc. induction Hks as [|k ks Hk Hks IH]; intros i acc HQ; cbn [diff_objects].
  { apply wp_ret, HQ. by rewrite app_nil_r. }
  apply wp_bind, (wp_lookup_set c); [done|done|]. unfold others_of in HQ. cbn [omap list_omap] in HQ.
  destruct (find c t (dv t) k) as [o|]; apply IH; intros l E; apply HQ; rewrite E; [|done].
  rewrite fmap_app, <- app_assoc. done.
Qed.

Lemma numbered_objects os : (numbered os).*2 = os.
Proof.
  unfold numbered. rewrite fmap_imap. rewrite <- (list_fmap_id os) at 2.
  rewrite <- (imap_const id os). by apply imap_ext.
Qed.

(** The sets among the arguments. *)
Lemma set_objects c t ks os :
  Forall (is_set c t) ks -> (forall o, o ∈ os -> exists k, k ∈ ks /\ find c t (dv t) k = Some o) ->
  Forall (unmixed t) os /\ Forall (collection t) os.
Proof.
  intros Hks Hos. rewrite Forall_forall in Hks. rewrite !Forall_forall.
  split; intros o Ho; destruct (Hos o Ho) as (k&Hk&Ef); destruct (Hks k Hk) as (_&_&Hs);
    rewrite Ef in Hs; [apply Hs|]. apply (find_collection c t k); [done|apply Hs].
Qed.

(** *** Intersection and difference *)

Definition present (c : Config) (t : Txn) (k : bytes) : bool := bool_decide (is_Some (find c t (dv t) k)).

(** C18. SINTER of keys that hold sets or nothing, the first of which has fewer members than
    one listing may have ([ScanMaxCount], 10000 unless configured otherwise): the reply is empty when a key is
    missing; otherwise it lists, in ascending order, the members of the first set that
    are in all others, whether the others are walked along with it or asked for every
    member. The empty member is the exception when they are walked: it is returned
    whenever the first set has it, because that is where an iterator stands before its
    first step. Nothing is written. *)
Theorem SInterHandle_inter c k ks t :
  ready c t -> Forall (is_set c t) (k :: ks) -> Forall field_ok (set_of c t k) ->
  len (set_of c t k) < ScanMaxCount c ->
  SInterHandle (k :: ks) t =
  Ret (bulks (if forallb (present c t) (k :: ks)
              then base.filter (fun m => Forall (fun k' =>
                     (m = [] /\ SetOperation c = SETOP_SCAN) \/ m ∈ set_of c t k') ks) (set_of c t k)
              else [])) t.
Proof.
  intros Hr Hks Hok Hl.
  assert (wp (SInterHandle (k :: ks)) t (fun r t' => t' = t /\ r =
    bulks (if forallb (present c t) (k :: ks)
              then base.filter (fun m => Forall (fun k' =>
                     (m = [] /\ SetOperation c = SETOP_SCAN) \/ m ∈ set_of c t k') ks) (set_of c t k)
              else []))) as Hw.
  2: { apply wp_returns in Hw as (r&t'&Hrun&->&->). done. }
  unfold SInterHandle. assert ((len (k :: ks) <? 1) = false) as ->.
  { rewrite len_cons. pose proof (len_nonneg ks). lia. }
  unfold reply_bulks. apply wp_on_value. unfold inter. apply wp_on_value, (wp_inter_objects c); [done|done|].
  destruct (mapM (find c t (dv t)) (k :: ks)) as [os|] eqn:Eos; cbn [app].
  2: { apply wp_ret. apply wp_ret. split; [done|]. apply mapM_None in Eos.
       assert (forallb (present c t) (k :: ks) = false) as ->; [|done].
       apply not_true_iff_false. rewrite forallb_forall. intros Hall.
       apply Exists_exists in Eos as (x&Hx%list_elem_of_In&E). apply Hall in Hx. unfold present in Hx.
       rewrite E in Hx. by apply bool_decide_eq_true, is_Some_None in Hx. }
  apply mapM_Some in Eos. apply Forall2_cons_inv_l in Eos as (o&others&Eo&Eos&->).
  assert (forallb (present c t) (k :: ks) = true) as ->.
  { apply forallb_forall. intros x [<-|Hx]; unfold present; [by rewrite Eo|].
    apply list_elem_of_In, list_elem_of_lookup in Hx as [i Hi].
    destruct (Forall2_lookup_l _ _ _ _ _ Eos Hi) as (y&_&->). done. }
  apply Forall_cons in Hks as [Hk Hks]. destruct Hk as (_&_&Hk). rewrite Eo in Hk. destruct Hk as [_ Hu].
  unfold set_of in Hok, Hl |- *. rewrite Eo in Hok, Hl |- *.
  destruct (set_objects c t ks others Hks) as [Hus Hcs].
  { intros x [i Hi]%list_elem_of_lookup. destruct (Forall2_lookup_r _ _ _ _ _ Eos Hi) as (y&Hy&E).
    exists y. split; [by eapply list_elem_of_lookup_2|done]. }
  assert (forall m, Forall (fun k' => (m = [] /\ SetOperation c = SETOP_SCAN) \/ m ∈ set_of c t k') ks <->
    Forall (fun o => (m = [] /\ SetOperation c = SETOP_SCAN) \/ m ∈ members (dv t) o) others) as Hiff.
  { intros m. clear -Eos. induction Eos as [|x y l k0 E Eos IH]; [done|]. rewrite !Forall_cons, IH.
    unfold set_of at 1. by rewrite E. }
  unfold set_of in Hiff.
  apply wp_bind, (wp_config c); [done|]. unfold member_prefix. fold (value_prefix o).
  set (llist := if String.eqb _ _ then _ else _). set (glist := if String.eqb _ _ then [] else _).
  apply wp_bind, (wp_scan c _ _ llist o (in_all t llist glist)); [done|done|done|done| |].
  - apply inter_step; [done| |]; subst llist glist; destruct (String.eqb _ _); try constructor; by rewrite numbered_objects.
  - intros s He Hret. rewrite He. apply wp_ret. apply wp_ret. split; [done|]. rewrite Hret. f_equal.
    apply list_filter_iff. intros m. rewrite Hiff. unfold in_all. subst llist glist.
    destruct (String.eqb_spec (SetOperation c) SETOP_SCAN) as [E|E]; rewrite numbered_objects; cbn [fmap list_fmap].
    + rewrite Forall_nil, (and_comm _ True). split; [intros [_ Hm]|intros Hm; split; [done|]];
        (eapply Forall_impl; [exact Hm|]); unfold mem_of; tauto.
    + rewrite Forall_nil. split; [intros [_ Hm]|intros Hm; split; [done|]]; (eapply Forall_impl; [exact Hm|]);
        intros x Hx; [by right|by destruct Hx as [[_ Hx]|Hx]].
Qed.

(** C20. SDIFF of keys that hold sets or nothing, the first of which has fewer members than
    one listing may have ([ScanMaxCount], 10000 unless configured otherwise), lists, in ascending order, the members
    of the first set that are in none of the others. The empty member is the exception
    when the others are walked along: it is left out as soon as one of them exists,
    whether or not it has it. Nothing is written. *)
Theorem SDiffHandle_diff c k ks t :
  ready c t -> Forall (is_set c t) (k :: ks) -> Forall field_ok (set_of c t k) ->
  len (set_of c t k) < ScanMaxCount c ->
  SDiffHandle (k :: ks) t =
  Ret (bulks (base.filter (fun m => ~ Exists (fun k' => m ∈ set_of c t k') ks /\
                ~ (m = [] /\ SetOperation c <> SETOP_GET /\ others_of c t ks <> [])) (set_of c t k))) t.
Proof.
  intros Hr Hks Hok Hl.
  assert (wp (SDiffHandle (k :: ks)) t (fun r t' => t' = t /\ r =
    bulks (base.filter (fun m => ~ Exists (fun k' => m ∈ set_of c t k') ks /\
                ~ (m = [] /\ SetOperation c <> SETOP_GET /\ others_of c t ks <> [])) (set_of c t k)))) as Hw.
  2: { apply wp_returns in Hw as (r&t'&Hrun&->&->). done. }
  unfold SDiffHandle. assert ((len (k :: ks) <? 1) = false) as ->.
  { rewrite len_cons. pose proof (len_nonneg ks). lia. }
  unfold reply_bulks. apply wp_on_value. unfold diff. cbn [arg nth drop].
  pose proof Hks as Hall. apply Forall_cons in Hks as [Hk Hks].
  apply wp_bind, (wp_lookup_set c); [done|done|]. unfold set_of in Hok, Hl.
  destruct Hk as (_&_&Hk). destruct (find c t (dv t) k) as [o|] eqn:Eo.
  2: { assert (set_of c t k = []) as -> by (unfold set_of; by rewrite Eo).
       apply wp_on_done, (wp_checkValid c); [done..|]. apply wp_ret. by apply wp_ret. }
  destruct Hk as [_ Hu]. assert (set_of c t k = members (dv t) o) as -> by (unfold set_of; by rewrite Eo).
  assert (forall m, Exists (fun k' => m ∈ set_of c t k') ks <-> Exists (fun o => m ∈ members (dv t) o) (others_of c t ks)) as Hiff.
  { intros m. clear. unfold others_of. induction ks as [|x ks IH]; [by cbn; rewrite !Exists_nil|]. rewrite Exists_cons, IH.
    unfold set_of at 1. cbn [omap list_omap]. destruct (find c t (dv t) x); [by rewrite Exists_cons|].
    rewrite elem_of_nil. tauto. }
  destruct (set_objects c t ks (others_of c t ks) Hks) as [Hus Hcs].
  { intros x (y&Hy&E)%list_elem_of_omap. by exists y. }
  apply wp_bind, (wp_config c); [done|]. unfold member_prefix. fold (value_prefix o).
  destruct (Z.eqb_spec (len (k :: ks)) 1) as [E1|E1].
  - assert (ks = []) as -> by (rewrite len_cons in E1; apply len_nil_iff; lia).
    destruct (value_prefix_ok o) as (Hne&Hb&_). apply wp_bind. unfold wp.
    rewrite (List_pure _ _ _ _ (fun l k _ => if len k <? len (value_prefix o) then l
      else l ++ [drop (length (value_prefix o)) k])); try done.
    + rewrite (members_unmixed t o Hu), len_fmap in Hl. destruct (Z.leb_spec (ScanMaxCount c)
        (len (range_entries (value_prefix o) (Bytes.PrefixNext (value_prefix o)) (t_view t)))); [lia|].
      rewrite take_ge by (unfold len in *; lia).
      rewrite (foldl_collect (len (value_prefix o)) (fun k _ => drop (length (value_prefix o)) k)).
      cbn [app]. apply wp_ret. apply wp_ret. split; [done|]. f_equal. fold (entries (t_view t) o).
      rewrite <- entries_dv. fold (members (dv t) o). symmetry. apply filter_all. intros m _.
      split; [by intros ?%Exists_nil|]. by intros (_&_&?).
    + by apply (rd_up c).
    + pose proof (len_nonneg (members (dv t) o)). lia.
  - apply wp_on_value, (wp_diff_objects c); [done|done|]. intros others Eoth. cbn [app fmap list_fmap] in Eoth.
    set (llist := if String.eqb _ _ then _ else _). set (glist := if String.eqb _ _ then _ else []).
    apply wp_bind, (wp_scan c _ _ llist o (in_none t llist glist)); [done|done|done|done| |].
    + apply diff_step; [done| |]; subst llist glist; destruct (String.eqb _ _); try constructor; by rewrite Eoth.
    + intros s He Hret. rewrite He. apply wp_ret. apply wp_ret. split; [done|]. rewrite Hret. f_equal.
      apply list_filter_iff. intros m. rewrite Hiff. unfold in_none. subst llist glist.
      assert (forall os, Exists (fun o => mem_of t o m) os <-> (m = [] /\ os <> []) \/
        Exists (fun o => m ∈ members (dv t) o) os) as Hmem.
      { induction os as [|x os IH]; [rewrite !Exists_nil; tauto|]. rewrite !Exists_cons, IH. unfold mem_of. naive_solver. }
      destruct (String.eqb_spec (SetOperation c) SETOP_GET) as [E|E]; rewrite Eoth; cbn [fmap list_fmap];
        rewrite Exists_nil, ?Hmem; tauto.
Qed.

End sets.
