(* ===== verification/HllSpec.v ===== *)
(** HyperLogLog against its registers: a promise about registers that both the ones in
    memory and the ones in the store keep, PFADD and PFMERGE as pointwise maxima. *)

From stdpp Require Import sorting.
From S2P Require Import Prelude Xerror GoStd Utils Float Strconv Store Ranges Mem Object Reply.
From S2P Require Import ObjectSpec Counters Generic GenericSpec Strings StringsSpec HashSpec SetAlgebraSpec Hll.
From Stdlib Require Import Init.Byte.

#[local] Open Scope Z_scope.

(** ** Lists of registers *)

(** The number in register [i]. *)
Definition at_reg (l : bytes) (i : Z) : Z := b2z (nth (Z.to_nat i) l x00).

Lemma at_reg_range l i : 0 <= at_reg l i < 256.
Proof. apply b2z_range. Qed.

Lemma at_reg_zero n i : at_reg (replicate n x00) i = 0.
Proof.
  unfold at_reg. rewrite nth_lookup. destruct (replicate n x00 !! Z.to_nat i) as [b|] eqn:E; [|done].
  by apply lookup_replicate in E as [-> _].
Qed.

Lemma at_reg_set l i j rho : 0 <= i < len l -> 0 <= j -> 0 <= rho < 256 ->
  at_reg (<[Z.to_nat i := z2b rho]> l) j = if decide (j = i) then rho else at_reg l j.
Proof.
  intros Hi Hj Hr. unfold at_reg. rewrite !nth_lookup. unfold len in Hi.
  destruct (decide (j = i)) as [->|Hn].
  - rewrite list_lookup_insert_eq by lia. cbn [default from_option id]. rewrite b2z_z2b. apply Z.mod_small. lia.
  - by rewrite list_lookup_insert_ne by lia.
Qed.

Lemma length_splice tmp s v : 0 <= s -> s + len v <= len tmp -> length (splice tmp s v) = length tmp.
Proof.
  intros Hs Hl. unfold splice, len in *. rewrite !length_app, length_take, length_drop. lia.
Qed.

Lemma at_reg_splice tmp s v i : 0 <= s -> s + len v <= len tmp -> 0 <= i ->
  at_reg (splice tmp s v) i = if (s <=? i) && (i <? s + len v) then at_reg v (i - s) else at_reg tmp i.
Proof.
  intros Hs Hl Hi. unfold at_reg, splice, len in *. rewrite !nth_lookup.
  assert (length (take (Z.to_nat s) tmp) = Z.to_nat s) as Ht by (rewrite length_take; lia).
  destruct (Z.leb_spec s i) as [H1|H1]; cbn [andb].
  - rewrite lookup_app_r by lia. rewrite Ht. destruct (Z.ltb_spec i (s + Z.of_nat (length v))).
    + rewrite lookup_app_l by lia. by replace (Z.to_nat i - Z.to_nat s)%nat with (Z.to_nat (i - s)) by lia.
    + rewrite lookup_app_r by lia. rewrite lookup_drop.
      by replace (_ + _)%nat with (Z.to_nat i) by lia.
  - rewrite lookup_app_l by (rewrite Ht; lia). rewrite lookup_take_lt by lia. done.
Qed.

Lemma window_some tmp s d : 0 <= s -> 0 <= d -> s + d <= len tmp ->
  exists v, window tmp s d = Some v /\ len v = d /\ forall j, 0 <= j < d -> at_reg v j = at_reg tmp (s + j).
Proof.
  intros Hs Hd Hl. unfold window. destruct (Z.ltb_spec (len tmp) (s + d)); [lia|].
  eexists. split; [done|]. unfold len in *. split; [rewrite length_take, length_drop; lia|].
  intros j Hj. unfold at_reg. rewrite !nth_lookup, lookup_take_lt by lia. rewrite lookup_drop.
  by replace (Z.to_nat s + Z.to_nat j)%nat with (Z.to_nat (s + j)) by lia.
Qed.

Section spec.
Context `{PlatformSpec, HllMath}.

(** ** What registers promise *)

(** [dn_step] relates the registers and the transaction before an operation to those after
    it: what else an operation may have changed. *)
Class DenseSpec (D : Type) {dense : Dense D} := {
  dn_ok : D -> Txn -> Prop;
  dn_size : D -> Z;
  dn_reg : D -> Txn -> Z -> Z;
  dn_step : D * Txn -> D * Txn -> Prop;
  dn_step_refl d t : dn_ok d t -> dn_step (d, t) (d, t);
  dn_step_trans x y z : dn_step x y -> dn_step y z -> dn_step x z;
  dn_CheckAndSet d t i rho Q :
    dn_ok d t -> 0 <= i < dn_size d -> 0 <= rho < 256 ->
    (forall d' t', dn_ok d' t' -> dn_size d' = dn_size d -> dn_step (d, t) (d', t') ->
       (forall j, 0 <= j < dn_size d -> dn_reg d' t' j = if decide (j = i) then Z.max (dn_reg d t i) rho else dn_reg d t j) ->
       Q (inr (dn_reg d t i, rho >? dn_reg d t i), d') t') ->
    wp (CheckAndSet d i rho) t Q;
  dn_List d t Q :
    dn_ok d t ->
    (forall d' l, dn_ok d' t -> dn_size d' = dn_size d -> dn_step (d, t) (d', t) ->
       (forall j, 0 <= j < dn_size d -> dn_reg d' t j = dn_reg d t j) -> len l = dn_size d ->
       (forall j, 0 <= j < dn_size d -> at_reg l j = dn_reg d t j) -> Q (inr l, d') t) ->
    wp (DenseList d) t Q
}.

Section laws.
Context {D : Type} {dense : Dense D} {spec : DenseSpec D}.

(** A sketch has as many registers as its precision says. *)
Definition plus_ok (h : Plus D) (t : Txn) : Prop :=
  dn_ok (pl_dense h) t /\ 0 < pl_p h /\ dn_size (pl_dense h) = 2 ^ pl_p h.

Lemma index_of_range p v : 0 < p -> 0 <= index_of p v < 2 ^ p.
Proof.
  intros Hp. unfold index_of, bextr. rewrite Z.shiftl_1_l.
  replace (2 ^ p - 1) with (Z.ones p) by (rewrite Z.ones_equiv; lia). rewrite Z.land_ones by lia.
  apply Z.mod_pos_bound. lia.
Qed.

Lemma rho_of_range p v : 0 <= rho_of p v < 256.
Proof. by apply (wrap_u_range 8). Qed.

(** Adding a value raises its register. *)
Definition raised (p : Z) (v : bytes) (r : Z -> Z) (i : Z) : Z :=
  if decide (i = index_of p v) then Z.max (r i) (rho_of p v) else r i.

Lemma wp_Add h v t (Q : (error + bool) * Plus D -> Txn -> Prop) :
  plus_ok h t ->
  (forall d' t', plus_ok (with_dense h d') t' -> dn_step (pl_dense h, t) (d', t') ->
     (forall i, 0 <= i < 2 ^ pl_p h -> dn_reg d' t' i = raised (pl_p h) v (dn_reg (pl_dense h) t) i) ->
     Q (inr (rho_of (pl_p h) v >? dn_reg (pl_dense h) t (index_of (pl_p h) v)), with_dense h d') t') ->
  wp (Add h v) t Q.
Proof.
  intros (Hok&Hp&Hs) HQ. unfold Add. apply wp_bind. apply dn_CheckAndSet; [done| |apply rho_of_range|].
  { rewrite Hs. by apply index_of_range. }
  intros d' t' Hok' Hs' Hstep Hreg. apply wp_ret. apply HQ; [|done|].
  - split; [done|]. split; [done|]. change (dn_size d' = 2 ^ pl_p h). by rewrite Hs'.
  - intros i Hi. rewrite Hreg by by rewrite Hs. unfold raised. by destruct (decide (i = _)) as [->|].
Qed.

Lemma wp_merge_loop l : forall d i t (Q : option error * D -> Txn -> Prop),
  dn_ok d t -> 0 <= i -> i + len l = dn_size d ->
  (forall d' t', dn_ok d' t' -> dn_size d' = dn_size d -> dn_step (d, t) (d', t') ->
     (forall j, 0 <= j < dn_size d ->
        dn_reg d' t' j = if i <=? j then Z.max (dn_reg d t j) (at_reg l (j - i)) else dn_reg d t j) ->
     Q (None, d') t') ->
  wp (merge_loop d i l) t Q.
Proof.
  induction l as [|v l IH]; intros d i t Q Hok Hi Hl HQ; cbn [merge_loop].
  - apply wp_ret, HQ; [done|done|by apply dn_step_refl|]. intros j Hj. unfold len in Hl; cbn [length] in Hl.
    destruct (Z.leb_spec i j); [lia|done].
  - rewrite len_cons in Hl. pose proof (len_nonneg l). apply wp_bind, dn_CheckAndSet; [done|lia|apply b2z_range|].
    intros d1 t1 Hok1 Hs1 Hst1 Hr1. apply IH; [done|lia|lia|]. intros d2 t2 Hok2 Hs2 Hst2 Hr2.
    apply HQ; [done|congruence|by eapply dn_step_trans|]. intros j Hj. rewrite Hr2, Hr1 by lia.
    destruct (decide (j = i)) as [->|Hn].
    + destruct (Z.leb_spec (i + 1) i); [lia|]. destruct (Z.leb_spec i i); [|lia]. by rewrite Z.sub_diag.
    + destruct (Z.leb_spec (i + 1) j), (Z.leb_spec i j); try lia. f_equal. unfold at_reg.
      replace (Z.to_nat (j - i)) with (S (Z.to_nat (j - (i + 1)))) by lia. done.
Qed.

End laws.

(** Merging takes the greater of two registers, whatever keeps them. *)
Lemma wp_Merge {D D'} {dense : Dense D} {spec : DenseSpec D} {dense' : Dense D'} {spec' : DenseSpec D'} (h : Plus D) (other : Plus D') t (Q : option error * Plus D -> Txn -> Prop) :
  plus_ok h t -> plus_ok other t -> pl_p h = pl_p other ->
  (forall d' t', plus_ok (with_dense h d') t' -> dn_step (pl_dense h, t) (d', t') ->
     (forall i, 0 <= i < 2 ^ pl_p h ->
        dn_reg d' t' i = Z.max (dn_reg (pl_dense h) t i) (dn_reg (pl_dense other) t i)) ->
     Q (None, with_dense h d') t') ->
  wp (Merge h other) t Q.
Proof.
  intros (Hok&Hp&Hs) (Hok'&Hp'&Hs') He HQ. unfold Merge. rewrite He, Z.eqb_refl. cbn [negb].
  apply wp_bind, (dn_List (pl_dense other)); [done|]. intros d1 l Hok1 Hs1 Hst1 Hr1 Hl Hreg.
  apply wp_bind, (dn_List (pl_dense h)); [done|]. intros d2 l2 Hok2 Hs2 Hst2 Hr2 Hl2 Hreg2.
  apply wp_bind, wp_merge_loop; [done|lia|rewrite Hl, Hs', <- He, Hs2, Hs; lia|].
  intros d3 t3 Hok3 Hs3 Hst3 Hr3. apply wp_ret, HQ.
  - split; [done|]. split; [done|]. change (dn_size d3 = 2 ^ pl_p h). congruence.
  - by eapply dn_step_trans.
  - intros i Hi. rewrite Hr3 by (rewrite Hs2, Hs; done). destruct (Z.leb_spec 0 i); [|lia].
    rewrite Z.sub_0_r, Hreg, Hr2 by (rewrite ?Hs, ?Hs', <- ?He; done). done.
Qed.

(** *** Registers in memory *)

#[export] Program Instance default_dense_spec : DenseSpec DefaultDense := {|
  dn_ok d t := True;
  dn_size d := len d;
  dn_reg d t i := at_reg d i;
  dn_step x y := snd y = snd x
|}.
Next Obligation. done. Qed.
Next Obligation. intros x y z Hxy Hyz. congruence. Qed.
Next Obligation.
  intros d t i rho Q _ Hi Hr HQ. cbn [CheckAndSet default_dense]. unfold mem_CheckAndSet, DefaultDense in *.
  destruct (d !! Z.to_nat i) as [o|] eqn:Ho; [|by apply lookup_ge_None_1 in Ho; unfold len in Hi; lia].
  apply wp_ret.
  assert (at_reg d i = b2z o) as Eo by (unfold at_reg; f_equal; by apply nth_lookup_Some). rewrite <- Eo. apply HQ; [done| |done|].
  - destruct (rho >? at_reg d i); [|done]. unfold len. f_equal. apply length_insert.
  - intros j Hj. destruct (Z.gtb_spec rho (at_reg d i)).
    + rewrite at_reg_set by lia. destruct (decide (j = i)); lia.
    + destruct (decide (j = i)) as [->|]; lia.
Qed.
Next Obligation. intros d t Q _ HQ. by apply wp_ret, HQ. Qed.

(** *** Registers in the store *)

(** The number in register [i] of the entries of an object. *)
Definition stored_reg (d : gmap bytes bytes) (o : Object) (i : Z) : Z :=
  match fields d o (be_put 2 (i / 16)) with
  | Some v => if len (entry_value v) =? 16 then at_reg (entry_value v) (i mod 16) else 0
  | None => 0
  end.

(** An object of registers: its fields are the 4096 entries, and no other key lies in the
    range that is listed. *)
Record hll_ok (c : Config) (t : Txn) (o : Object) : Prop := {
  hk_ready : ready c t;
  hk_coll : collection t o;
  hk_fields f : is_Some (fields (dv t) o f) -> exists b, f = be_put 2 b /\ 0 <= b < 4096;
  hk_alone k : is_Some (dv t !! k) -> ble (value_prefix o) k -> blt k (Bytes.PrefixNext (value_prefix o)) ->
    has_prefix (value_prefix o) k = true;
  hk_limit : 4096 < ScanMaxCount c
}.

(** What a write to the entries of [o] may change. *)
Record entries_changed (c : Config) (o : Object) (t t' : Txn) : Prop := {
  ec_env : same_env t t';
  ec_frame x : (forall f, x <> GetValueBytes o f) -> dv t' !! x = dv t !! x
}.

Lemma entries_changed_refl c o t : entries_changed c o t t.
Proof. by split. Qed.
Lemma entries_changed_trans c o t1 t2 t3 :
  entries_changed c o t1 t2 -> entries_changed c o t2 t3 -> entries_changed c o t1 t3.
Proof. intros [E1 F1] [E2 F2]. split; [by etrans|]. intros x Hx. by rewrite F2, F1. Qed.

(** The sixteen registers of an entry, as the code reads them. *)
Definition entry_of (t : Txn) (o : Object) (b : Z) (v : bytes) : Prop :=
  len v = 16 /\ forall j, 0 <= j < 16 -> at_reg v j = stored_reg (dv t) o (16 * b + j).

Lemma bucket_div b j : 0 <= j < 16 -> (16 * b + j) / 16 = b.
Proof. intros Hj. rewrite Z.mul_comm, Z.div_add_l by lia. rewrite (Z.div_small j) by lia. lia. Qed.
Lemma bucket_mod b j : 0 <= j < 16 -> (16 * b + j) mod 16 = j.
Proof. intros Hj. rewrite Z.mul_comm, Z.add_comm, Z_mod_plus_full. apply Z.mod_small. lia. Qed.

Lemma be_put2_inj a b : 0 <= a < 4096 -> 0 <= b < 4096 -> be_put 2 a = be_put 2 b -> a = b.
Proof. intros Ha Hb. apply be_put_inj; change (256 ^ Z.of_nat 2) with (2 ^ 16); lia. Qed.

Lemma entry_value_encode ts v : in_u64 ts -> entry_value (EncodeValue {| v_Timestamp := ts; v_Value := v |}) = v.
Proof. intros Ht. unfold entry_value. by rewrite DecodeValue_EncodeValue. Qed.

(** Raising a register of an entry and writing the entry back. *)
Lemma wp_write_entry c t o b j rho v (Q : option error -> Txn -> Prop) :
  hll_ok c t o -> 0 <= b < 4096 -> 0 <= j < 16 -> 0 <= rho < 256 -> entry_of t o b v ->
  (forall t', hll_ok c t' o -> entries_changed c o t t' ->
     (forall i, 0 <= i < 2 ^ 16 -> stored_reg (dv t') o i = if decide (i = 16 * b + j) then rho else stored_reg (dv t) o i) ->
     Q None t') ->
  wp (Put (GetValueBytes o (be_put 2 b)) (EncodeValue {| v_Timestamp := t_Timestamp t; v_Value := <[Z.to_nat j := z2b rho]> v |})) t Q.
Proof.
  intros [Hr Hc Hf Ha Hlim] Hb Hj Hrho [Hl Hv] HQ. set (v' := <[Z.to_nat j := z2b rho]> v).
  assert (len v' = 16) as Hl' by (unfold v', len in *; by rewrite length_insert).
  apply (wp_data_Put c); [done|apply GetValueBytes_data| | |].
  { rewrite len_GetValueBytes, (cl_value _ _ Hc). unfold len. rewrite length_be_put. unfold MAX_KEY_SIZE. lia. }
  { rewrite len_EncodeValue. cbn [v_Value]. rewrite Hl'. unfold MAX_VALUE_SIZE. lia. }
  intros t' [He Hr' Hd]. apply HQ.
  - split; [done|by apply (collection_env t)| | |done].
    + intros f. rewrite Hd, fields_put. unfold put_field. destruct (decide (f = _)) as [->|]; [by exists b|apply Hf].
    + intros k [w Hw]. rewrite Hd in Hw. destruct (decide (k = GetValueBytes o (be_put 2 b))) as [->|Hne].
      * intros _ _. apply has_prefix_spec. eexists. apply GetValueBytes_app.
      * rewrite lookup_insert_ne in Hw by done. by apply Ha.
  - split; [done|]. intros x Hx. rewrite Hd, lookup_insert_ne; [done|]. intros E. by apply (Hx (be_put 2 b)).
  - intros i Hi. unfold stored_reg at 1. rewrite Hd, fields_put. unfold put_field.
    assert (0 <= i / 16 < 4096) as Hib by (split; [apply Z.div_pos; lia|apply Z.div_lt_upper_bound; lia]).
    pose proof (Z.div_mod i 16 ltac:(lia)) as Hdm. pose proof (Z.mod_pos_bound i 16 ltac:(lia)) as Him.
    destruct (decide (be_put 2 (i / 16) = be_put 2 b)) as [E|E].
    + apply be_put2_inj in E; [|done|done]. rewrite entry_value_encode by apply Hr. rewrite Hl'. cbn [Z.eqb Pos.eqb].
      unfold v'. rewrite at_reg_set by lia. destruct (decide (i mod 16 = j)) as [Em|Em].
      * rewrite decide_True by lia. done.
      * rewrite decide_False by lia. rewrite Hv by lia. f_equal. lia.
    + rewrite decide_False; [done|]. intros ->. rewrite bucket_div in E by done. done.
Qed.

Lemma entry_filled t o b : 0 <= b < 4096 ->
  entry_of t o b
    (fill 16 (match fields (dv t) o (be_put 2 b) with Some w => entry_value w | None => [] end)).
Proof.
  intros Hb. unfold fill. set (v := match fields _ _ _ with Some w => _ | None => _ end).
  assert (forall j, 0 <= j < 16 -> stored_reg (dv t) o (16 * b + j) = if len v =? 16 then at_reg v j else 0) as Hs.
  { intros j Hj. unfold stored_reg. rewrite bucket_div, bucket_mod by done. unfold v.
    destruct (fields (dv t) o (be_put 2 b)); [done|]. by destruct (len [] =? 16) eqn:E. }
  destruct (Z.eqb_spec (len v) 16) as [E|E]; cbn [negb].
  - split; [done|]. intros j Hj. by rewrite Hs.
  - split; [done|]. intros j Hj. rewrite Hs by done. apply at_reg_zero.
Qed.

Section txn.
Context (c : Config).

Definition txn_ok (d : TxnDense) (t : Txn) : Prop :=
  d_m d = 2 ^ 16 /\ hll_ok c t (d_object d) /\
  match d_tmp d with
  | Some tmp => len tmp = 2 ^ 16 /\ forall i, 0 <= i < 2 ^ 16 -> at_reg tmp i = stored_reg (dv t) (d_object d) i
  | None => True
  end.

Definition txn_step (x y : TxnDense * Txn) : Prop :=
  d_object (fst y) = d_object (fst x) /\ entries_changed c (d_object (fst x)) (snd x) (snd y).

(** The number of a register splits into its entry and its place there. *)
Lemma reg_split i : 0 <= i < 2 ^ 16 ->
  0 <= i / 16 < 4096 /\ 0 <= i mod 16 < 16 /\ i = 16 * (i / 16) + i mod 16.
Proof.
  intros Hi. split; [split; [apply Z.div_pos; lia|apply Z.div_lt_upper_bound; lia]|].
  split; [by apply Z.mod_pos_bound|by apply Z.div_mod].
Qed.

Lemma bucket_key_eq o i : 0 <= i < 2 ^ 16 -> bucket_key o i 16 = GetValueBytes o (be_put 2 (i / 16)).
Proof.
  intros Hi. unfold bucket_key. destruct (reg_split i Hi) as (Hb&_). unfold wrap_u. by rewrite Z.mod_small by lia.
Qed.

Lemma txn_CheckAndSet_ok d t i rho (Q : (error + (Z * bool)) * TxnDense -> Txn -> Prop) :
  txn_ok d t -> 0 <= i < d_m d -> 0 <= rho < 256 ->
  (forall d' t', txn_ok d' t' -> d_m d' = d_m d -> txn_step (d, t) (d', t') ->
     (forall j, 0 <= j < d_m d -> stored_reg (dv t') (d_object d') j =
        if decide (j = i) then Z.max (stored_reg (dv t) (d_object d) i) rho else stored_reg (dv t) (d_object d) j) ->
     Q (inr (stored_reg (dv t) (d_object d) i, rho >? stored_reg (dv t) (d_object d) i), d') t') ->
  wp (txn_CheckAndSet d i rho) t Q.
Proof.
  intros (Hm&Hok&Htmp) Hi Hrho HQ. rewrite Hm in *. destruct (reg_split i Hi) as (Hb&Hj&Hij).
  set (o := d_object d) in *. set (b := i / 16) in *. set (j := i mod 16) in *.
  unfold txn_CheckAndSet. rewrite Hm. change (2 ^ 16 / DenseSize) with 16. cbn [Z.eqb Pos.eqb].
  fold o. rewrite bucket_key_eq by done. fold b j.
  assert (forall v, entry_of t o b v -> wp (set_in d (GetValueBytes o (be_put 2 b)) (b * 16) (Z.to_nat j) rho v) t Q) as Hset.
  { intros v Hv. pose proof (proj2 Hv j Hj) as Ho. rewrite <- Hij in Ho. unfold set_in.
    change (b2z (nth (Z.to_nat j) v x00)) with (at_reg v j). rewrite Ho. destruct (Z.gtb_spec rho (stored_reg (dv t) o i)) as [Hg|Hg].
    - apply wp_bind, wp_get_txn, wp_on_done, (wp_write_entry c t o b j rho v); [done..|].
      intros t' Hok' Hch Hreg. apply wp_ret.
      apply HQ; cbn [d_m d_object d_tmp]; fold o; [|done|by split|].
      + split; [done|]. split; [done|]. cbn [d_object d_tmp]. fold o. destruct (d_tmp d) as [tmp|]; [|done].
        destruct Htmp as [Hl Hcoh]. cbn [fmap option_fmap option_map].
        assert (len (<[Z.to_nat j := z2b rho]> v) = 16) as Hl'.
        { destruct Hv as [Hv _]. unfold len in *. by rewrite length_insert. }
        split; [unfold len in *; rewrite length_splice by (unfold len in *; lia); done|].
        intros k Hk. rewrite at_reg_splice, Hl', Hreg by lia.
        destruct (Z.leb_spec (b * 16) k); [destruct (Z.ltb_spec k (b * 16 + 16))|]; cbn [andb].
        * rewrite at_reg_set by (destruct Hv; lia).
          destruct (decide (k - b * 16 = j)); [by rewrite decide_True by lia|]. rewrite decide_False by lia.
          rewrite (proj2 Hv) by lia. f_equal. lia.
        * rewrite decide_False by lia. by apply Hcoh.
        * rewrite decide_False by lia. by apply Hcoh.
      + intros k Hk. rewrite Hreg by done. rewrite <- Hij. destruct (decide (k = i)); lia.
    - apply wp_ret.
      apply HQ; [done|done|split; [done|apply entries_changed_refl]|].
      intros k Hk. fold o. destruct (decide (k = i)) as [->|]; lia. }
  destruct (d_tmp d) as [tmp|].
  - destruct Htmp as [Hl Hcoh]. destruct (window_some tmp (b * 16) 16) as (v&->&Hlv&Hv); [lia..|].
    apply Hset. split; [done|]. intros k Hk. rewrite Hv, Hcoh by lia. f_equal. lia.
  - apply wp_bind, (wp_field_Get c); [apply Hok|apply Hok|unfold field_ok, len; rewrite length_be_put; unfold MAX_KEY_SIZE; lia|].
    pose proof (entry_filled t o b Hb) as He.
    destruct (fields (dv t) o (be_put 2 b)) as [w|]; apply Hset; exact He.
Qed.

(** The listed keys are those of entries. *)
Lemma listed_entry t o k v : hll_ok c t o ->
  (k, v) ∈ range_entries (value_prefix o) (Bytes.PrefixNext (value_prefix o)) (dv t) ->
  exists b, k = GetValueBytes o (be_put 2 b) /\ 0 <= b < 4096 /\ fields (dv t) o (be_put 2 b) = Some v.
Proof.
  intros Hok (Hd&L1&L2)%elem_of_range_entries. rewrite below_PrefixNext, bytes_ltb_spec in L2.
  apply (hk_alone _ _ _ Hok) in L2; [|by eexists|done]. apply has_prefix_spec in L2 as [f ->].
  rewrite <- GetValueBytes_app in Hd. destruct (hk_fields _ _ _ Hok f) as (b&->&Hb); [by exists v|].
  exists b. by rewrite GetValueBytes_app.
Qed.

Lemma few_entries t o : hll_ok c t o ->
  len (range_entries (value_prefix o) (Bytes.PrefixNext (value_prefix o)) (t_view t)) <= 4096.
Proof.
  intros Hok. rewrite <- range_entries_dv. set (l := range_entries _ _ _).
  assert ((fst <$> l) ⊆+ ((fun n => GetValueBytes o (be_put 2 (Z.of_nat n))) <$> seq 0 4096)) as Hsub.
  { apply NoDup_submseteq; [apply range_entries_NoDup|]. intros k ([k' v]&->&Hin)%list_elem_of_fmap.
    apply (listed_entry t o) in Hin as (b&->&Hb&_); [|done]. cbn [fst]. apply list_elem_of_fmap.
    exists (Z.to_nat b). rewrite Z2Nat.id by lia. split; [done|]. apply elem_of_seq. lia. }
  apply submseteq_length in Hsub. rewrite !length_fmap, length_seq in Hsub. unfold len. lia.
Qed.

(** The registers after the entries [seen] have been copied. *)
Definition copied (o : Object) (seen : list (bytes * bytes)) (regs : bytes) : Prop :=
  len regs = 2 ^ 16 /\ forall i, 0 <= i < 2 ^ 16 ->
    (forall v, (GetValueBytes o (be_put 2 (i / 16)), v) ∈ seen ->
       at_reg regs i = if len (entry_value v) =? 16 then at_reg (entry_value v) (i mod 16) else 0) /\
    ((forall v, (GetValueBytes o (be_put 2 (i / 16)), v) ∉ seen) -> at_reg regs i = 0).

Lemma copied_step o seen regs b v : 0 <= b < 4096 -> copied o seen regs ->
  (forall w, (GetValueBytes o (be_put 2 b), w) ∉ seen) ->
  copied o (seen ++ [(GetValueBytes o (be_put 2 b), v)])
    (if len (entry_value v) =? 16 then splice regs (b * 16) (entry_value v) else regs).
Proof.
  intros Hb [Hl Hc] Hnew. assert (len (if len (entry_value v) =? 16 then splice regs (b * 16) (entry_value v) else regs) = 2 ^ 16) as Hl'.
  { destruct (Z.eqb_spec (len (entry_value v)) 16); [|done]. unfold len in *. by rewrite length_splice by (unfold len; lia). }
  split; [done|]. intros i Hi. destruct (reg_split i Hi) as (Hib&Hij&Hi'). destruct (Hc i Hi) as [Hc1 Hc2].
  set (key := GetValueBytes o (be_put 2 (i / 16))) in *.
  assert (key = GetValueBytes o (be_put 2 b) -> i / 16 = b) as Hkey by (intros E%GetValueBytes_inj; by apply be_put2_inj in E).
  assert (i / 16 <> b -> at_reg (if len (entry_value v) =? 16 then splice regs (b * 16) (entry_value v) else regs) i = at_reg regs i) as Hother.
  { intros Hne. destruct (Z.eqb_spec (len (entry_value v)) 16) as [E|]; [|done]. rewrite at_reg_splice by lia. rewrite E.
    destruct (Z.leb_spec (b * 16) i), (Z.ltb_spec i (b * 16 + 16)); cbn [andb]; lia || done. }
  split.
  - intros w [Hw|Hw%list_elem_of_singleton]%elem_of_app.
    + rewrite Hother; [by apply Hc1|]. intros E. subst b. by apply (Hnew w).
    + apply pair_equal_spec in Hw as [Ek ->]. apply Hkey in Ek. subst b. destruct (Z.eqb_spec (len (entry_value v)) 16) as [E|E].
      * rewrite at_reg_splice by lia. rewrite E. destruct (Z.leb_spec (i / 16 * 16) i); [|lia].
        destruct (Z.ltb_spec i (i / 16 * 16 + 16)); [|lia]. cbn [andb]. f_equal. lia.
      * apply Hc2. intros w. apply Hnew.
  - intros Hn. rewrite Hother.
    + apply Hc2. intros w Hw. apply (Hn w), elem_of_app. by left.
    + intros E. subst b. apply (Hn v), elem_of_app. right. by apply list_elem_of_singleton.
Qed.

Lemma txn_List_ok d t (Q : (error + bytes) * TxnDense -> Txn -> Prop) :
  txn_ok d t ->
  (forall d' l, txn_ok d' t -> d_m d' = d_m d -> txn_step (d, t) (d', t) ->
     (forall j, 0 <= j < d_m d -> stored_reg (dv t) (d_object d') j = stored_reg (dv t) (d_object d) j) -> len l = d_m d ->
     (forall j, 0 <= j < d_m d -> at_reg l j = stored_reg (dv t) (d_object d) j) -> Q (inr l, d') t) ->
  wp (txn_List d) t Q.
Proof.
  intros (Hm&Hok&Htmp) HQ. unfold txn_List. destruct (d_tmp d) as [tmp|] eqn:Et.
  - apply wp_ret. destruct Htmp as [Hl Hc]. apply HQ; [|done|split; [done|apply entries_changed_refl]|done|lia|by rewrite Hm].
    split; [done|]. split; [done|]. by rewrite Et.
  - set (o := d_object d) in *. fold (value_prefix o). apply wp_bind, (wp_config c); [apply Hok|].
    rewrite Hm. change (2 ^ 16 / DenseSize) with 16. apply wp_bind.
    destruct (value_prefix_ok o) as (Hne&Hle&Hnf).
    pose proof (few_entries t o Hok) as Hfew. pose proof (hk_limit _ _ _ Hok) as Hlim.
    apply (wp_List_inv _ _ _ _ _ _ (copied o)); [apply (rd_up c), Hok|done|done|lia| | |].
    + split; [unfold len; rewrite length_replicate; lia|]. intros i Hi. split; [by intros v Hv%elem_of_nil|].
      intros _. apply at_reg_zero.
    + intros seen k v more regs Heq Hc. rewrite <- range_entries_dv in Heq.
      assert ((k, v) ∈ range_entries (value_prefix o) (Bytes.PrefixNext (value_prefix o)) (dv t)) as Hin.
      { rewrite Heq. apply elem_of_app. right. by left. }
      apply (listed_entry t o) in Hin as (b&->&Hb&_); [|done].
      pose proof (range_entries_NoDup (value_prefix o) (Bytes.PrefixNext (value_prefix o)) (dv t)) as Hnd.
      rewrite Heq, fmap_app in Hnd. apply NoDup_app in Hnd as (_&Hnd&_).
      unfold list_registers. assert ((length (GetValueBytes o (be_put 2 b)) <? length (value_prefix o)) = false)%nat as ->.
      { apply Nat.ltb_ge. rewrite GetValueBytes_app, length_app. lia. }
      cbv zeta. assert (drop (length (value_prefix o)) (GetValueBytes o (be_put 2 b)) = be_put 2 b) as ->
        by by rewrite GetValueBytes_app, drop_app_length.
      unfold len at 1. rewrite length_be_put.
      change (Z.of_nat 2 <? 2) with false. cbv iota. rewrite take_ge by by rewrite length_be_put.
      rewrite be_get_put, Z.mod_small by (change (256 ^ Z.of_nat 2) with (2 ^ 16); lia).
      pose proof (copied_step o seen regs b v Hb Hc) as Hstep.
      assert (forall w, (GetValueBytes o (be_put 2 b), w) ∉ seen) as Hnew.
      { intros w Hw. apply (Hnd (GetValueBytes o (be_put 2 b))); [|by left].
        apply list_elem_of_fmap. by exists (GetValueBytes o (be_put 2 b), w). }
      specialize (Hstep Hnew). destruct (len (entry_value v) =? 16); cbn [negb].
      * destruct Hc as [Hl _]. destruct (Z.ltb_spec (len regs) (b * 16 + 16)); [lia|]. apply wp_ret. eauto.
      * apply wp_ret. eauto.
    + intros regs [Hl Hc]. rewrite <- range_entries_dv in Hc. apply wp_ret.
      assert (forall i, 0 <= i < 2 ^ 16 -> at_reg regs i = stored_reg (dv t) o i) as Hregs.
      { intros i Hi. destruct (Hc i Hi) as [Hc1 Hc2]. destruct (reg_split i Hi) as (Hib&_).
        unfold stored_reg, fields in *. destruct (dv t !! GetValueBytes o (be_put 2 (i / 16))) as [v|] eqn:Ef.
        - apply Hc1, elem_of_range_entries. split; [done|].
          assert (has_prefix (value_prefix o) (GetValueBytes o (be_put 2 (i / 16))) = true) as Hp.
          { apply has_prefix_spec. eexists. apply GetValueBytes_app. }
          apply Bytes.has_prefix_in_range in Hp as [??]; [|done]. split; [done|].
          by rewrite below_PrefixNext, bytes_ltb_spec.
        - apply Hc2. intros v (Hv&_)%elem_of_range_entries. congruence. }
      apply HQ; cbn [d_m d_object d_tmp]; fold o; [|lia|split; [done|apply entries_changed_refl]|done|lia|by rewrite Hm].
      split; [done|]. split; [done|]. by split.
Qed.

Lemma txn_step_trans x y z : txn_step x y -> txn_step y z -> txn_step x z.
Proof.
  intros [E1 C1] [E2 C2]. split; [congruence|]. rewrite E1 in C2. by eapply entries_changed_trans.
Qed.

(** The registers of the store keep the promise. *)
#[local] Instance txn_dense_spec : DenseSpec TxnDense := {|
  dn_ok := txn_ok;
  dn_size := d_m;
  dn_reg d t i := stored_reg (dv t) (d_object d) i;
  dn_step := txn_step;
  dn_step_refl d t _ := conj eq_refl (entries_changed_refl c (d_object d) t);
  dn_step_trans := txn_step_trans;
  dn_CheckAndSet := txn_CheckAndSet_ok;
  dn_List := txn_List_ok
|}.

(** ** PFADD *)

Definition sketch (o : Object) : Plus TxnDense :=
  mkPlus DefaultPrecision (2 ^ 16) (alpha_of (2 ^ 16)) (mkDense (2 ^ 16) o None).

Lemma getHll_sketch o : getHll o = inr (sketch o).
Proof. done. Qed.

Lemma sketch_ok o t : hll_ok c t o -> plus_ok (sketch o) t.
Proof. intros Hok. split; [by split|done]. Qed.

(** The registers after values: each is the greatest number any of its values asks for. *)
Definition added (xs : list bytes) (r : Z -> Z) (i : Z) : Z :=
  foldr Z.max (r i) (rho_of 16 <$> base.filter (fun v => index_of 16 v = i) xs).

(** Whether a value raises a register. *)
Definition raises (r : Z -> Z) (xs : list bytes) : bool := existsb (fun v => r (index_of 16 v) <? rho_of 16 v) xs.

Lemma foldr_max_l a l x : foldr Z.max (Z.max a x) l = Z.max x (foldr Z.max a l).
Proof. induction l as [|y l IH]; cbn [foldr]; lia. Qed.

Lemma foldr_max_ge a l : a <= foldr Z.max a l.
Proof. induction l as [|y l IH]; cbn [foldr]; lia. Qed.

Lemma added_raised v xs r i : added xs (raised 16 v r) i = added (v :: xs) r i.
Proof.
  unfold added, raised. destruct (decide (i = index_of 16 v)) as [->|Hn].
  - rewrite filter_cons_True by done. cbn [fmap list_fmap foldr]. apply foldr_max_l.
  - by rewrite filter_cons_False by done.
Qed.

Lemma added_ext xs r r' i : r i = r' i -> added xs r i = added xs r' i.
Proof. intros E. unfold added. by rewrite E. Qed.

(** A value that raises nothing at first raises nothing later. *)
Lemma raises_raised v xs r :
  (r (index_of 16 v) <? rho_of 16 v) || raises (raised 16 v r) xs = (r (index_of 16 v) <? rho_of 16 v) || raises r xs.
Proof.
  destruct (Z.ltb_spec (r (index_of 16 v)) (rho_of 16 v)) as [|Hle]; [done|]. cbn [orb]. unfold raises.
  induction xs as [|x xs IH]; [done|]. cbn [existsb]. rewrite IH. f_equal. unfold raised.
  destruct (decide (index_of 16 x = index_of 16 v)) as [E|]; [|done]. rewrite E. f_equal. lia.
Qed.

Lemma raises_ext xs r r' : (forall i, 0 <= i < 2 ^ 16 -> r i = r' i) -> raises r xs = raises r' xs.
Proof.
  intros E. unfold raises. induction xs as [|x xs IH]; [done|]. cbn [existsb]. rewrite IH. f_equal.
  by rewrite E by by apply index_of_range.
Qed.

Lemma pfadd_loop_ok o xs : forall h n t (Q : error + Z -> Txn -> Prop),
  plus_ok h t -> pl_p h = 16 -> d_object (pl_dense h) = o -> (n = 0 \/ n = 1) ->
  (forall t', hll_ok c t' o -> entries_changed c o t t' ->
     (forall i, 0 <= i < 2 ^ 16 -> stored_reg (dv t') o i = added xs (stored_reg (dv t) o) i) ->
     Q (inr (if raises (stored_reg (dv t) o) xs then 1 else n)) t') ->
  wp (pfadd_loop h xs n) t Q.
Proof.
  induction xs as [|v xs IH]; intros h n t Q Hok Hp Ho Hn HQ; cbn [pfadd_loop].
  - apply wp_ret. refine (HQ t _ (entries_changed_refl c o t) _); [|done]. destruct Hok as ((_&Hk&_)&_). by rewrite Ho in Hk.
  - apply wp_bind, wp_Add; [done|]. rewrite Hp. intros d' t1 Hok1 Hst1 Hr1.
    assert (d_object d' = o) as Ho1 by (destruct Hst1 as [E _]; cbn [fst] in E; congruence).
    assert (entries_changed c o t t1) as Hch1 by (destruct Hst1 as [_ E]; cbn [fst snd] in E; by rewrite Ho in E).
    cbn [dn_reg txn_dense_spec] in *. rewrite Ho in *. rewrite Ho1 in Hr1. change (2 ^ 16) with (2 ^ 16) in Hr1.
    apply IH; [done|done|done|by destruct (_ >? _); [right|]|].
    intros t2 Hk2 Hch2 Hr2.
    assert (raises (stored_reg (dv t1) o) xs = raises (raised 16 v (stored_reg (dv t) o)) xs) as Era by by apply raises_ext.
    replace (if raises (stored_reg (dv t1) o) xs then 1 else _)
      with (if raises (stored_reg (dv t) o) (v :: xs) then 1 else n).
    + apply HQ; [done|by eapply entries_changed_trans|]. intros i Hi. rewrite Hr2 by done.
      rewrite <- added_raised. by apply added_ext, Hr1.
    + rewrite Era. pose proof (raises_raised v xs (stored_reg (dv t) o)) as Hrr.
      change (raises (stored_reg (dv t) o) (v :: xs)) with
        ((stored_reg (dv t) o (index_of 16 v) <? rho_of 16 v) || raises (stored_reg (dv t) o) xs).
      rewrite <- Hrr, <- Z.gtb_ltb. destruct (rho_of 16 v >? _); cbn [orb]; [|done].
      by destruct (raises (raised 16 v (stored_reg (dv t) o)) xs).
Qed.

(** A key that holds registers. *)
Record sketched (t : Txn) (k : bytes) (o : Object) : Prop := {
  sk_key : key_ok k;
  sk_header : good_header c t k;
  sk_find : find c t (dv t) k = Some o;
  sk_type : o_Type o = HLLType;
  sk_ok : hll_ok c t o
}.

Lemma header_unchanged o t t' k : entries_changed c o t t' -> dv t' !! hkey t k = dv t !! hkey t k.
Proof. intros Hch. apply (ec_frame _ _ _ _ Hch). intros f E. symmetry in E. by apply header_key_value in E. Qed.

Lemma find_unchanged o t t' k : entries_changed c o t t' -> find c t' (dv t') k = find c t (dv t) k.
Proof. intros Hch. rewrite (find_env c t t') by apply Hch. by apply find_ext, (header_unchanged o). Qed.

Lemma good_header_unchanged o t t' k : entries_changed c o t t' -> good_header c t k -> good_header c t' k.
Proof.
  intros Hch. unfold good_header. rewrite (hkey_env t t') by apply Hch. rewrite (header_unchanged o t t') by done.
  assert (the_object c t' UnknownType k = the_object c t UnknownType k) as ->; [|done].
  destruct Hch as [He _]. unfold the_object. by rewrite (se_UserId _ _ He), (se_DBId _ _ He).
Qed.

(** C30. PFADD on a key that holds registers: every register becomes the greatest of its
    number and those of the values that fall into it, whatever their order and however
    often they come; the reply is 1 exactly when some register grew; and the key still
    holds registers. *)
Theorem PfAddHandle_raises t k xs o :
  sketched t k o ->
  wp (PfAddHandle (k :: xs)) t (fun r t' =>
    r = RInt (if raises (stored_reg (dv t) o) xs then 1 else 0) /\ sketched t' k o /\
    forall i, 0 <= i < 2 ^ 16 -> stored_reg (dv t') o i = added xs (stored_reg (dv t) o) i).
Proof.
  intros [Hk Hg Hf Ht Hok]. unfold PfAddHandle.
  assert ((len (k :: xs) <? 1) = false) as -> by (rewrite len_cons; pose proof (len_nonneg xs); lia).
  apply wp_bind, (wp_GetOrCreate_found c t k HLLType o); [apply Hok|done..|].
  rewrite getHll_sketch. unfold reply_int. change (drop 1 (k :: xs)) with xs. apply wp_on_value.
  apply (pfadd_loop_ok o); [by apply sketch_ok|done|done|by left|].
  intros t' Hok' Hch Hreg. apply wp_ret. split; [done|]. split; [|done].
  split; [done|by eapply good_header_unchanged|by rewrite (find_unchanged o t t')|done|done].
Qed.

(** ** PFMERGE *)

Lemma value_prefix_len t o : collection t o -> length (value_prefix o) = 21%nat.
Proof.
  intros Hc. pose proof (len_GetValueBytes o []) as Hl. rewrite (cl_value _ _ Hc) in Hl. unfold len in Hl.
  unfold value_prefix. cbn [length] in Hl. lia.
Qed.

(** Writes to the entries of an object leave other objects of registers as they are. *)
Lemma hll_ok_other t t' o o' : hll_ok c t o' -> entries_changed c o t t' -> hll_ok c t' o -> hll_ok c t' o'.
Proof.
  intros Hok' Hch Hok. pose proof (value_prefix_len _ _ (hk_coll _ _ _ Hok)) as Hl.
  pose proof (value_prefix_len _ _ (hk_coll _ _ _ Hok')) as Hl'.
  split; [apply Hok|eapply collection_env; [apply Hch|apply Hok']| | |apply Hok].
  - intros f Hf. destruct (decide (value_prefix o' = value_prefix o)) as [E|E].
    + apply (hk_fields _ _ _ Hok). unfold fields in *. by rewrite GetValueBytes_app, E, <- GetValueBytes_app in Hf.
    + apply (hk_fields _ _ _ Hok'). unfold fields in *. rewrite (ec_frame _ _ _ _ Hch) in Hf; [done|].
      intros g Eg. rewrite !GetValueBytes_app in Eg. apply app_inj_1 in Eg as [Eg _]; [done|congruence].
  - intros k Hk L1 L2. destruct (decide (take 21 k = value_prefix o)) as [E|E].
    + apply Bytes.PrefixNext_range_prefix; [apply value_prefix_ok| |done|done].
      apply (f_equal length) in E. rewrite length_take in E. lia.
    + apply (hk_alone _ _ _ Hok'); [|done|done]. rewrite (ec_frame _ _ _ _ Hch) in Hk; [done|].
      intros f ->. apply E. by rewrite GetValueBytes_app, take_app_length' by done.
Qed.

Lemma stored_reg_other t t' o o' i : entries_changed c o t t' -> hll_ok c t o' -> hll_ok c t o ->
  value_prefix o' <> value_prefix o -> stored_reg (dv t') o' i = stored_reg (dv t) o' i.
Proof.
  intros Hch Hok' Hok Hne. unfold stored_reg, fields. rewrite (ec_frame _ _ _ _ Hch); [done|].
  intros g Eg. rewrite !GetValueBytes_app in Eg. apply app_inj_1 in Eg as [Eg _]; [done|].
  by rewrite (value_prefix_len _ _ (hk_coll _ _ _ Hok)), (value_prefix_len _ _ (hk_coll _ _ _ Hok')).
Qed.

Lemma stored_reg_same d o o' i : value_prefix o' = value_prefix o -> stored_reg d o' i = stored_reg d o i.
Proof. intros E. unfold stored_reg, fields. by rewrite (GetValueBytes_app o'), (GetValueBytes_app o), E. Qed.

(** The greatest of a register and those of other objects. *)
Definition merged (d : gmap bytes bytes) (o : Object) (srcs : list (bytes * Object)) (i : Z) : Z :=
  foldr Z.max (stored_reg d o i) ((fun s => stored_reg d (snd s) i) <$> srcs).

Lemma merged_ge d o srcs i s : s ∈ srcs -> stored_reg d (snd s) i <= merged d o srcs i.
Proof.
  unfold merged. induction srcs as [|x srcs IH]; [by intros ?%elem_of_nil|].
  intros [->|Hs]%elem_of_cons; cbn [fmap list_fmap foldr]; [lia|]. specialize (IH Hs). lia.
Qed.

Lemma merged_app d o a b i : merged d o (a ++ b) i = Z.max (merged d o a i) (merged d o b i).
Proof.
  unfold merged. induction a as [|x a IH]; cbn [app fmap list_fmap foldr].
  - pose proof (foldr_max_ge (stored_reg d o i) ((fun s => stored_reg d (snd s) i) <$> b)). unfold merged in *. lia.
  - rewrite IH. lia.
Qed.

Lemma merged_cons d o s l i : merged d o (s :: l) i = Z.max (stored_reg d (snd s) i) (merged d o l i).
Proof. done. Qed.

Lemma pfmerge_loop_ok t o (Hok0 : hll_ok c t o) todo : forall seen dest t1 (Q : option error -> Txn -> Prop),
  Forall (fun s => sketched t (fst s) (snd s)) seen -> Forall (fun s => sketched t (fst s) (snd s)) todo ->
  plus_ok dest t1 -> pl_p dest = 16 -> d_object (pl_dense dest) = o -> entries_changed c o t t1 ->
  (forall i, 0 <= i < 2 ^ 16 -> stored_reg (dv t1) o i = merged (dv t) o seen i) ->
  (forall t', hll_ok c t' o -> entries_changed c o t t' ->
     (forall i, 0 <= i < 2 ^ 16 -> stored_reg (dv t') o i = merged (dv t) o (seen ++ todo) i) -> Q None t') ->
  wp (pfmerge_loop dest (fst <$> todo) (list_to_set (fst <$> seen))) t1 Q.
Proof.
  induction todo as [|[k o'] todo IH]; intros seen dest t1 Q Hseen Hall Hok Hp Ho Hch Hreg HQ; cbn [fmap list_fmap pfmerge_loop fst];
    assert (hll_ok c t1 o) as Hok1 by (destruct Hok as ((_&Hk&_)&_); by rewrite Ho in Hk).
  - apply wp_ret, HQ; [done|done|by rewrite app_nil_r].
  - apply Forall_cons in Hall as [Hs Hall]. pose proof Hs as [Hk Hg Hf Hty Hoks]. cbn [fst snd] in *.
    destruct (decide (k ∈ (list_to_set (fst <$> seen) : gset bytes))) as [Hin|Hnin].
    + apply elem_of_list_to_set, list_elem_of_fmap in Hin as ([k2 o2]&Ek&Hin). cbn [fst] in Ek. subst k2.
      assert (o2 = o') as ->.
      { rewrite Forall_forall in Hseen. apply Hseen, sk_find in Hin. cbn [fst snd] in Hin. congruence. }
      apply IH; [done..|]. intros t' Hok' Hch' Hreg'. apply HQ; [done|done|]. intros i Hi.
      rewrite Hreg', !merged_app, merged_cons by done. pose proof (merged_ge (dv t) o seen i (k, o') Hin). lia.
    + apply wp_bind, (wp_GetOrCreate_found c t1 k HLLType o'); [apply Hok1|done|by eapply good_header_unchanged| |done|done|].
      { by rewrite (find_unchanged o t t1). }
      rewrite getHll_sketch. pose proof (hll_ok_other _ _ _ _ Hoks Hch Hok1) as Hok2.
      apply wp_bind, wp_Merge; [done|by apply sketch_ok|done|]. rewrite Hp. intros d' t2 Hd' Hst Hr.
      assert (d_object d' = o) as Hod by (destruct Hst as [E _]; cbn [fst] in E; congruence).
      assert (entries_changed c o t1 t2) as Hch2 by (destruct Hst as [_ E]; cbn [fst snd] in E; by rewrite Ho in E).
      apply (IH ((k, o') :: seen)); [by constructor|done|done|done|done|by eapply entries_changed_trans| |].
      * intros i Hi. rewrite merged_cons. cbn [snd dn_reg txn_dense_spec pl_dense sketch d_object] in *.
        rewrite Hod, Ho in Hr. rewrite Hr, Hreg by done.
        destruct (decide (value_prefix o' = value_prefix o)) as [E|E].
        -- rewrite !(stored_reg_same _ o o') by done. rewrite Hreg by done. unfold merged.
           pose proof (foldr_max_ge (stored_reg (dv t) o i) ((fun s => stored_reg (dv t) (snd s) i) <$> seen)). lia.
        -- rewrite (stored_reg_other t t1 o o') by done. lia.
      * intros t' Hok' Hch' Hreg'. apply HQ; [done|done|]. intros i Hi. rewrite Hreg' by done.
        cbn [app]. rewrite !merged_cons, !merged_app, !merged_cons. lia.
Qed.

(** PFMERGE into a key that holds registers, from keys that do: every register becomes
    the greatest of its number and those of the sources as they were at the start, even
    when a source is named twice or is the destination. *)
Lemma PfMergeHandle_merges t k o srcs :
  sketched t k o -> Forall (fun s => sketched t (fst s) (snd s)) srcs -> srcs <> [] ->
  wp (PfMergeHandle (k :: (fst <$> srcs))) t (fun r t' =>
    r = OK /\ sketched t' k o /\
    forall i, 0 <= i < 2 ^ 16 -> stored_reg (dv t') o i = merged (dv t) o srcs i).
Proof.
  intros Hs Hall Hne. pose proof Hs as [Hk Hg Hf Ht Hok]. unfold PfMergeHandle.
  assert ((len (k :: (fst <$> srcs)) <? 2) = false) as ->.
  { destruct srcs as [|s srcs]; [done|]. cbn [fmap list_fmap]. rewrite !len_cons.
    pose proof (len_nonneg (fst <$> srcs)). unfold fmap in *. lia. }
  apply wp_bind, (wp_GetOrCreate_found c t k HLLType o); [apply Hok|done..|].
  rewrite getHll_sketch. change (drop 1 (k :: (fst <$> srcs))) with (fst <$> srcs).
  apply wp_bind. apply (pfmerge_loop_ok t o Hok srcs [] (sketch o)); [done|done|by apply sketch_ok|done|done|apply entries_changed_refl|done|].
  intros t' Hok' Hch Hreg. apply wp_ret. split; [done|]. split; [|done].
  split; [done|by eapply good_header_unchanged|by rewrite (find_unchanged o t t')|done|done].
Qed.
End txn.
End spec.
