(* ===== verification/ZAlgebraSpec.v ===== *)
(** ZUNION against the finite maps of scores: the members of all sorted sets in ascending
    order, each with the sum, the least or the greatest of its weighted scores. *)

From stdpp Require Import sorting.
From S2P Require Import Prelude Xerror GoStd Utils Float Strconv Store Ranges Mem Object Reply.
From S2P Require Import ObjectSpec Counters Generic GenericSpec Strings StringsSpec.
From S2P Require Import HashCmd SetCmd HashSpec Heap SetAlgebra SetAlgebraSpec Rank ZSet ZSetSpec.
From S2P Require Import ZAlgebra.
From Stdlib Require Import Init.Byte.

#[local] Open Scope Z_scope.

(** ** The merge, a member at a time *)

Section merge.
Context `{PlatformSpec} `{MapOrder}.
Context (getType : Z) (weights : list float64) (ws : Heap.KV -> Number).
Hypothesis keys : has_flag getType OnlyKey = true.

(** The score of a member from the entries that have it, in the order in which the merge
    meets them. *)
Definition merged_scores (l : list Number) : Number :=
  if has_flag getType SumAGG then foldl Number_Add (float_number 0) l
  else
    let pick (better : Z -> bool) :=
      match l with
      | [] => float_number 0
      | x :: l => foldl (fun best y => if better (Number_Compare y best) then y else best) x l
      end in
    if has_flag getType MaxAGG then pick (fun z => z >? 0)
    else if has_flag getType MinAGG then pick (fun z => z <? 0)
    else float_number 0.

Lemma merged_one x : union_score getType true (float_number 0) x = merged_scores [x].
Proof.
  unfold union_score, merged_scores. destruct (has_flag getType SumAGG); [done|].
  destruct (has_flag getType MaxAGG); [done|]. by destruct (has_flag getType MinAGG).
Qed.

Lemma merged_snoc l x : l <> [] ->
  merged_scores (l ++ [x]) = union_score getType false (merged_scores l) x.
Proof.
  intros Hl. unfold merged_scores, union_score. destruct (has_flag getType SumAGG); [by rewrite foldl_app|].
  destruct l as [|y l]; [done|]. cbn [app orb]. cbv zeta.
  destruct (has_flag getType MaxAGG); [by rewrite foldl_app|].
  by destruct (has_flag getType MinAGG); [rewrite foldl_app|].
Qed.

(** A group: the entries of one member. *)
Definition group_key (g : list Heap.KV) : bytes := from_option Heap.kv_Key [] (head g).
Definition is_group (k : bytes) (g : list Heap.KV) : Prop := g <> [] /\ Forall (fun kv => Heap.kv_Key kv = k) g.

Lemma is_group_key k g : is_group k g -> group_key g = k.
Proof. intros [Hne Hg]. destruct g as [|x g]; [done|]. by apply Forall_cons in Hg as [Hg _]. Qed.

Definition group_items (g : list Heap.KV) : list item :=
  IMember (group_key g) ::
  if has_flag getType OnlyValue then [IScore (merged_scores (ws <$> g))] else [].

(** The only group is lost when its member is empty. *)
Definition groups_items (gs : list (list Heap.KV)) : list item :=
  if decide (group_key <$> gs = [[]]) then [] else concat (group_items <$> gs).

(** What the loop knows of the entries [acc] of its current member. *)
Definition current (pre : option bytes) (preScore : Number) (first : bool) (acc : list Heap.KV) : Prop :=
  match pre with
  | None => first = true /\ preScore = float_number 0 /\ acc = []
  | Some p => first = false /\ is_group p acc /\
              (has_flag getType OnlyValue = true -> preScore = merged_scores (ws <$> acc))
  end.

Lemma flush_group p acc preScore l : is_group p acc ->
  (has_flag getType OnlyValue = true -> preScore = merged_scores (ws <$> acc)) ->
  flush getType p preScore l = l ++ group_items acc.
Proof.
  intros Hg Hs. unfold flush, group_items. rewrite keys, (is_group_key p acc Hg).
  destruct (has_flag getType OnlyValue); [|done]. rewrite Hs by done. by rewrite <- app_assoc.
Qed.

(** Sorted groups, which the loop has made of the entries [kvs]. *)
Record grouped (gs : list (list Heap.KV)) (kvs : list Heap.KV) : Prop := {
  gr_sorted : StronglySorted blt (group_key <$> gs);
  gr_groups : Forall (fun g => is_group (group_key g) g) gs;
  gr_all : concat gs ≡ₚ kvs
}.

Lemma grouped_one p acc : is_group p acc -> grouped [acc] acc.
Proof.
  intros Hg. split; [by repeat constructor| |by rewrite concat_cons, app_nil_r].
  constructor; [by rewrite (is_group_key p acc Hg)|done].
Qed.

(** A group in front of others, the first of which has the key [k]. *)
Lemma grouped_cons p k acc gs kvs :
  is_group p acc -> blt p k -> head (group_key <$> gs) = Some k -> grouped gs kvs ->
  grouped (acc :: gs) (acc ++ kvs) /\ groups_items (acc :: gs) = group_items acc ++ groups_items gs.
Proof.
  intros Hg Hb Hh [Hs Hgs Hc]. pose proof (is_group_key p acc Hg) as Ek.
  destruct gs as [|g gs]; [done|]. cbn [fmap list_fmap head] in *. injection Hh as Eg. split.
  - split; [|constructor; [by rewrite Ek|done]|by rewrite concat_cons, Hc].
    cbn [fmap list_fmap]. rewrite Ek. constructor; [done|]. rewrite Eg in *. constructor; [done|].
    apply StronglySorted_inv in Hs as [_ Hs]. eapply Forall_impl; [exact Hs|]. intros m Hm. by eapply blt_trans.
  - unfold groups_items. cbn [fmap list_fmap]. rewrite !decide_False; [done| |].
    + rewrite Eg. intros [= -> _]. by destruct p.
    + by intros ?%(f_equal length).
Qed.

(** No more entries. *)
Lemma current_end pre preScore first acc l : current pre preScore first acc ->
  exists gs, grouped gs acc /\ from_option (fun p => head (group_key <$> gs) = Some p) True pre /\
    (if match pre with Some p => negb (bytes_Equal p []) | None => false end
     then flush getType (default [] pre) preScore l else l) = l ++ groups_items gs.
Proof.
  destruct pre as [p|]; cbn [current default from_option].
  2: { intros (_&_&->). exists []. split; [split; [constructor..|done]|]. split; [done|].
       unfold groups_items. cbn. by rewrite app_nil_r. }
  intros (_&Hg&Hs). exists [acc]. split; [by apply (grouped_one p)|]. unfold groups_items.
  cbn [fmap list_fmap head id concat]. rewrite (is_group_key p acc Hg), app_nil_r. split; [done|]. unfold bytes_Equal.
  destruct (decide (p = [])) as [->|Hne].
  - rewrite bool_decide_eq_true_2, decide_True by done. cbn [negb]. by rewrite app_nil_r.
  - rewrite bool_decide_eq_false_2, decide_False by congruence. cbn [negb]. by apply flush_group.
Qed.

Lemma wp_zunion_loop fuel il pre preScore first acc l t (Q : error + list item -> Txn -> Prop) :
  (length (pendings il) < fuel)%nat -> Forall on_prefix (il_iters il) -> Heap.is_heap (il_heap il) ->
  Forall (fun kv => weighted_score weights (Heap.kv_Idx kv) (Heap.kv_Value kv) t = Ret (ws kv) t) (pendings il) ->
  current pre preScore first acc ->
  Forall (fun m => from_option (fun p => ble p m) True pre) (pending il) ->
  (forall gs, grouped gs (acc ++ pendings il) -> from_option (fun p => head (group_key <$> gs) = Some p) True pre ->
     Q (inr (l ++ groups_items gs)) t) ->
  wp (zunion_loop fuel getType weights il pre preScore first l) t Q.
Proof.
  revert il pre preScore first acc l Q. induction fuel as [|fuel IH];
    intros il pre preScore first acc l Q Hf Hl Hh Hws Hcur Hpre HQ; [lia|].
  cbn [zunion_loop]. apply wp_on_value, wp_Next; [done|done|]. intros il' o Hl' Hh' Ho. rewrite keys.
  destruct o as [kv|]; cbn [from_option].
  2: { apply wp_ret. destruct (current_end pre preScore first acc l Hcur) as (gs&Hg&Hp&->).
       apply HQ; [by rewrite Ho, app_nil_r|done]. }
  destruct Ho as [Hp Hmin]. set (k := Heap.kv_Key kv) in *.
  assert (pending il ≡ₚ k :: pending il') as Hpk by (rewrite <- !keys_pendings, Hp; done).
  assert (length (pendings il') < fuel)%nat as Hf' by (apply Permutation_length in Hp; simpl in Hp; lia).
  rewrite Hp, Forall_cons in Hws. destruct Hws as [Hkv Hws].
  rewrite Hpk, Forall_cons in Hpre. destruct Hpre as [Hpk1 Hpre].
  assert (forall r ps acc' l', is_group k acc' ->
    (has_flag getType OnlyValue = true -> union_score getType r ps (ws kv) = merged_scores (ws <$> acc')) ->
    (forall gs, grouped gs (acc' ++ pendings il') -> head (group_key <$> gs) = Some k -> Q (inr (l' ++ groups_items gs)) t) ->
    wp (if has_flag getType OnlyValue
        then let! score := weighted_score weights (Heap.kv_Idx kv) (Heap.kv_Value kv) in
             zunion_loop fuel getType weights il' (Some k) (union_score getType r ps score) false l'
        else zunion_loop fuel getType weights il' (Some k) ps false l') t Q) as Hstep.
  { intros r ps acc' l' Hg Hs HQ'.
    destruct (has_flag getType OnlyValue) eqn:Ev; [apply wp_bind; eapply returns_wp; [exact Hkv|]|];
      (apply (IH il' (Some k) _ false acc' l'); try done; cbn [current]; split_and!; [done|done|by rewrite Ev]). }
  destruct pre as [p|]; cbn [current from_option id] in *.
  2: { destruct Hcur as (->&->&->). cbn [negb andb]. apply (Hstep _ _ [kv]); [by repeat constructor|by rewrite merged_one|].
       intros gs [] Hh1. apply HQ; [|done]. split; [done|done|]. by rewrite gr_all0, Hp. }
  destruct Hcur as (->&Hg&Hs). unfold bytes_Equal. destruct (decide (p = k)) as [->|Hne];
    [rewrite bool_decide_eq_true_2 by done|rewrite bool_decide_eq_false_2 by done]; cbn [negb andb orb].
  - pose proof Hg as [Hne Hall]. apply (Hstep _ _ (acc ++ [kv])).
    + split; [by destruct acc|]. apply Forall_app. by repeat constructor.
    + intros Hv. rewrite Hs, fmap_app by done. symmetry. apply merged_snoc. by destruct acc.
    + intros gs [] Hh1. apply HQ; [|done]. split; [done|done|]. by rewrite gr_all0, Hp, <- app_assoc.
  - rewrite (flush_group p acc preScore l Hg Hs). apply (Hstep _ _ [kv]); [by repeat constructor|intros ->; apply merged_one|].
    intros gs Hgs Hh1. assert (blt p k) as Hb by (apply ble_lt_eq in Hpk1 as [|]; done).
    destruct (grouped_cons p k acc gs _ Hg Hb Hh1 Hgs) as [Hgs' E]. rewrite <- app_assoc, <- E. apply HQ.
    + destruct Hgs' as [Hs1 Hs2 Hs3]. split; [done|done|]. by rewrite Hs3, Hp.
    + cbn [fmap list_fmap head]. by rewrite (is_group_key p acc Hg).
Qed.

End merge.

(** The group of a member is made of its entries. *)
Lemma filter_key_concat (gs : list (list Heap.KV)) g m :
  StronglySorted blt (group_key <$> gs) -> Forall (fun g => is_group (group_key g) g) gs ->
  g ∈ gs -> group_key g = m -> base.filter (fun kv => Heap.kv_Key kv = m) (concat gs) = g.
Proof.
  assert (forall k g', is_group k g' -> k <> m -> base.filter (fun kv => Heap.kv_Key kv = m) g' = []) as Hno.
  { intros k g' [_ Hg'] Hne. apply filter_none. eapply Forall_impl; [exact Hg'|]. by intros kv ->. }
  assert (forall g', is_group m g' -> base.filter (fun kv => Heap.kv_Key kv = m) g' = g') as Hyes.
  { intros g' [_ Hg']. apply filter_all. by apply Forall_forall. }
  induction gs as [|g0 gs IH]; intros Hs Hg Hin Hm; [by apply elem_of_nil in Hin|].
  cbn [fmap list_fmap] in Hs. apply StronglySorted_inv in Hs as [Hs Hlt]. apply Forall_cons in Hg as [Hg0 Hg].
  rewrite concat_cons, filter_app. apply elem_of_cons in Hin as [->|Hin].
  - rewrite Hm in Hg0. rewrite (Hyes _ Hg0). rewrite Hm in Hlt.
    assert (base.filter (fun kv => Heap.kv_Key kv = m) (concat gs) = []) as ->; [|by rewrite app_nil_r].
    apply filter_none. apply Forall_concat. rewrite Forall_forall in Hg. rewrite Forall_forall in Hlt.
    apply Forall_forall. intros g' Hg'.
    destruct (Hg g' Hg') as [_ Hk]. eapply Forall_impl; [exact Hk|]. intros kv -> E.
    apply (blt_irrefl m). rewrite <- E at 2. apply Hlt. by apply list_elem_of_fmap_2.
  - rewrite (Hno (group_key g0)), IH; [done|done|done|done|done|done|].
    intros E. rewrite Forall_forall in Hlt. apply (blt_irrefl m). rewrite <- E at 1. rewrite <- Hm.
    apply Hlt. by apply list_elem_of_fmap_2.
Qed.

(** ** The entries of a sorted set *)

Section entries.
Context `{PlatformSpec} `{MapOrder}.

(** A key that names a sorted set or nothing, and the scores it has. *)
Definition zset_key (c : Config) (t : Txn) (k : bytes) : Prop :=
  key_ok k /\ good_header c t k /\
  match find c t (dv t) k with None => True | Some o => o_Type o = ZsetType /\ zset_ok (fields (dv t) o) end.
Definition score_in (c : Config) (t : Txn) (k m : bytes) : option float64 :=
  match find c t (dv t) k with None => None | Some o => zscores o t m end.

Lemma wp_lookup_z c sets k t (Q : Object * option error -> Txn -> Prop) :
  ready c t -> zset_key c t k ->
  Q match find c t (dv t) k with
    | Some o => (o, None)
    | None => (the_object c t ZsetType k, Some KeyNotFound)
    end t ->
  wp (lookup_z sets k) t Q.
Proof.
  intros Hr (Hk&Hg&Hs) HQ. unfold lookup_z, lookup. apply wp_bind, wp_bind, (wp_NewObject c); [done|].
  apply (wp_getTxnObject c); [done|rewrite len_ObjectKeyBytes; cbn [o_Key new_object]; unfold key_ok in Hk; lia|].
  fold (the_object c t ZsetType k). intros t' _ Hsame. rewrite Hsame, (read_object_typed c t ZsetType k Hg) by done.
  destruct (find c t (dv t) k) as [o|]; [|by apply wp_ret]. destruct Hs as [-> _]. by apply wp_ret.
Qed.

Definition member_prefix_of (o : Object) : bytes := GetValueBytes o [MemberPrefix].

Lemma entry_key_zset o k : o_Type o = ZsetType -> entry_key o k = member_prefix_of o ++ k.
Proof.
  intros Ht. unfold entry_key, beq. rewrite bool_decide_eq_false_2 by (by rewrite Ht).
  unfold GetZsetKey, member_prefix_of, EncodeMemberKey. rewrite !GetValueBytes_app. by rewrite <- app_assoc.
Qed.

Lemma first_byte_m d : blt d [x6e] -> ble [MemberPrefix] d -> exists m, d = MemberPrefix :: m.
Proof.
  destruct d as [|b d]; [by intros _ []|]. intros Hlt Hle. exists d. f_equal.
  unfold blt, ble in *. cbn [bytes_compare] in *. change (b2z x6e) with 110 in *.
  change (b2z MemberPrefix) with 109 in *. apply (inj b2z). change (b2z MemberPrefix) with 109.
  destruct (Z.compare_spec (b2z b) 110); [by destruct d| |done].
  destruct (Z.compare_spec 109 (b2z b)); [done|lia|done].
Qed.

(** What an iterator over the members yields. *)
Definition member_entries (t : Txn) (o : Object) : list (bytes * bytes) :=
  range_entries (member_prefix_of o) (Bytes.PrefixNext (member_prefix_of o)) (t_view t).

Lemma elem_of_member_entries t o k v :
  (k, v) ∈ member_entries t o <-> exists m, k = member_prefix_of o ++ m /\ fields (dv t) o (EncodeMemberKey m) = Some v.
Proof.
  unfold member_entries, member_prefix_of. rewrite elem_of_range_entries.
  assert (forall m, t_view t !! (GetValueBytes o [MemberPrefix] ++ m) = fields (dv t) o (EncodeMemberKey m)) as Hf.
  { intros m. unfold fields, dv. rewrite dview_lookup by apply GetValueBytes_data. f_equal.
    unfold EncodeMemberKey. by rewrite (GetValueBytes_app o [_]), (GetValueBytes_app o (_ :: m)), <- app_assoc. }
  rewrite (GetValueBytes_app o [MemberPrefix]) in *. set (p := value_prefix o) in *.
  rewrite PrefixNext_app by (rewrite Forall_singleton; done).
  change (Bytes.PrefixNext [MemberPrefix]) with [x6e]. split.
  - intros (Hv&Hs&Hb). assert (blt k (p ++ [x6e])) as Hlt.
    { apply below_spec in Hb as [Hb|Hb]; [by destruct p|done]. }
    pose proof (between_prefix _ _ _ _ Hs Hlt) as [d ->]%has_prefix_spec.
    apply ble_app_inv in Hs. apply blt_app in Hlt. apply first_byte_m in Hlt as [m ->]; [|done].
    assert (p ++ MemberPrefix :: m = (p ++ [MemberPrefix]) ++ m) as E by by rewrite <- app_assoc.
    rewrite E in Hv |- *. rewrite Hf in Hv. by exists m.
  - intros (m&->&Hv). rewrite Hf. split; [done|]. split; [apply ble_app|].
    apply below_spec. right. rewrite <- app_assoc. apply blt_app. done.
Qed.

(** An iterator over them. *)
Definition over_members (t : Txn) (i : nat) (o : Object) (iter : Iter) : IterScan :=
  {| is_prefix := member_prefix_of o; is_current := member_prefix_of o; is_curValue := []; is_idx := i; is_iter := iter |}.

Lemma wp_IterOf_members o t (Q : error + Iter -> Txn -> Prop) :
  t_up t ->
  (forall it, it_list it = member_entries t o -> (forall i, on_prefix (over_members t i o it)) -> Q (inr it) t) ->
  wp (IterOf (member_prefix_of o) (Bytes.PrefixNext (member_prefix_of o)) false) t Q.
Proof.
  intros Hup HQ.
  destruct (IterOf_up (member_prefix_of o) (Bytes.PrefixNext (member_prefix_of o)) false t Hup) as (it&Hi&Hu&Hl).
  unfold wp. rewrite Hi. fold (member_entries t o) in Hl.
  assert (forall e, e ∈ it_list it -> exists f, fst e = member_prefix_of o ++ f) as Hp.
  { intros [k v] He. rewrite Hl in He. apply elem_of_member_entries in He as (m&->&_). by exists m. }
  apply HQ; [done|]. intros i. split; [done|done|]. apply blt_sorted_ble. unfold rest. cbn [is_iter is_prefix over_members].
  apply suffixes_sorted; [|done]. rewrite Hl. apply range_entries_sorted.
Qed.

(** The entries of the merge: those of every key, under its number. *)
Definition zkvs (t : Txn) (i : nat) (o : Object) : list Heap.KV :=
  (fun e => {| Heap.kv_Idx := i; Heap.kv_Key := drop (length (member_prefix_of o)) (fst e);
               Heap.kv_Value := snd e |}) <$> member_entries t o.
Fixpoint all_entries (c : Config) (t : Txn) (ks : list bytes) (i : nat) : list Heap.KV :=
  match ks with
  | [] => []
  | k :: ks => from_option (zkvs t i) [] (find c t (dv t) k) ++ all_entries c t ks (S i)
  end.

Lemma elem_of_zkvs t i o kv :
  kv ∈ zkvs t i o <-> Heap.kv_Idx kv = i /\ fields (dv t) o (EncodeMemberKey (Heap.kv_Key kv)) = Some (Heap.kv_Value kv).
Proof.
  unfold zkvs. rewrite list_elem_of_fmap. split.
  - intros ([k v]&->&(m&->&Hv)%elem_of_member_entries). cbn [Heap.kv_Idx Heap.kv_Key Heap.kv_Value fst snd].
    by rewrite drop_app_length.
  - destruct kv as [j m v]. cbn [Heap.kv_Idx Heap.kv_Key Heap.kv_Value]. intros [-> Hv].
    exists (member_prefix_of o ++ m, v). cbn [fst snd]. rewrite drop_app_length. split; [done|].
    apply elem_of_member_entries. by exists m.
Qed.

Lemma zkvs_sorted t i o : StronglySorted blt (Heap.kv_Key <$> zkvs t i o).
Proof.
  unfold zkvs. rewrite <- list_fmap_compose. apply (suffixes_sorted (member_prefix_of o)).
  - apply range_entries_sorted.
  - intros [k v] (m&->&_)%elem_of_member_entries. by exists m.
Qed.

Lemma wp_zunion_iters c ks i l0 t (Q : error + IterScans -> Txn -> Prop) :
  ready c t -> Forall (zset_key c t) ks -> Forall on_prefix l0 ->
  (forall l, Forall on_prefix l -> concat (kvs <$> l) = concat (kvs <$> l0) ++ all_entries c t ks i -> Q (inr l) t) ->
  wp (zunion_iters ks i l0) t Q.
Proof.
  intros Hr Hks. revert i l0. induction Hks as [|k ks Hk Hks IH]; intros i l0 Hl0 HQ; cbn [zunion_iters].
  { apply wp_ret, HQ; [done|]. by rewrite app_nil_r. }
  apply wp_bind, (wp_lookup_z c); [done|done|]. destruct Hk as (_&_&Ho).
  cbn [all_entries] in HQ. destruct (find c t (dv t) k) as [o|]; [|by apply IH].
  destruct Ho as [Ho _]. rewrite (entry_key_zset o []), app_nil_r by done.
  apply wp_on_value, wp_IterOf_members; [by apply (rd_up c)|]. intros it Hit Hon.
  apply IH; [apply Forall_app; split; [done|]; constructor; [apply (Hon i)|done]|].
  intros l Hl E. apply HQ; [done|]. rewrite E. unfold Add. rewrite fmap_app, concat_app, <- app_assoc. f_equal.
  cbn [fmap list_fmap concat from_option]. rewrite app_nil_r. f_equal. unfold kvs. cbn [is_iter is_idx is_prefix].
  by rewrite Hit.
Qed.

Lemma length_pendings l : (length (concat (kvs <$> l)) <= entries_bound l)%nat.
Proof.
  etrans; [|apply length_pending]. clear. induction l as [|it l IH]; [done|]. cbn [fmap list_fmap concat].
  rewrite !length_app. unfold kvs at 1, rest at 1. rewrite !length_fmap. unfold fmap in *. lia.
Qed.

(** *** Weighted scores *)

Definition weigh (weights : list float64) (i : nat) (s : float64) : Number :=
  if len weights >? 0 then times (float_number s) (nth i weights 0) else float_number s.

(** The weighted scores of a member, in the order of the keys. *)
Fixpoint contributions (c : Config) (t : Txn) (weights : list float64) (ks : list bytes) (i : nat) (m : bytes) :
    list Number :=
  match ks with
  | [] => []
  | k :: ks => from_option (fun s => [weigh weights i s]) [] (score_in c t k m) ++ contributions c t weights ks (S i) m
  end.

Definition kv_number (weights : list float64) (kv : Heap.KV) : Number :=
  from_option (weigh weights (Heap.kv_Idx kv)) one_number (stored_score (Heap.kv_Value kv)).

Lemma weighted_score_run weights i v s t :
  stored_score v = Some s -> weights = [] \/ (i < length weights)%nat ->
  weighted_score weights i v t = Ret (weigh weights i s) t.
Proof.
  intros Hs Hi. destruct (decode_stored v s Hs) as (zv&Ez&Hd). unfold stored_score in Hs. rewrite Ez in Hs.
  assert (entry_score v t = Ret (float_number s) t) as He.
  { unfold entry_score, decoded_value. rewrite Ez. assert ((len (v_Value zv) >? 0) = true) as ->; [|apply Hd].
    destruct (v_Value zv); [done|]. rewrite len_cons. pose proof (len_nonneg l). lia. }
  unfold weighted_score, bind, weighted, weigh. rewrite He. destruct (len weights >? 0) eqn:El; [|done].
  destruct Hi as [->|Hi]; [done|]. destruct (lookup_lt_is_Some_2 weights i Hi) as [w Hw]. rewrite Hw.
  by erewrite nth_lookup_Some.
Qed.

Lemma all_entries_run c t weights ks i : Forall (zset_key c t) ks ->
  weights = [] \/ (i + length ks <= length weights)%nat ->
  Forall (fun kv => weighted_score weights (Heap.kv_Idx kv) (Heap.kv_Value kv) t = Ret (kv_number weights kv) t)
    (all_entries c t ks i).
Proof.
  intros Hks. revert i. induction Hks as [|k ks (_&_&Ho) Hks IH]; intros i Hi; [constructor|]. cbn [all_entries length] in *.
  apply Forall_app. split; [|apply IH; destruct Hi; [by left|right; lia]].
  destruct (find c t (dv t) k) as [o|]; cbn [from_option]; [|constructor]. destruct Ho as [_ Hz].
  apply Forall_forall. intros kv [<- Hv]%elem_of_zkvs. destruct (zk_value _ Hz _ _ Hv) as (s&Hs&_).
  unfold kv_number. rewrite Hs. apply weighted_score_run; [done|]. destruct Hi; [by left|right; lia].
Qed.

(** The entries of a member give its weighted scores. *)
Lemma zkvs_member weights c t k i m o :
  find c t (dv t) k = Some o -> zset_ok (fields (dv t) o) ->
  kv_number weights <$> base.filter (fun kv => Heap.kv_Key kv = m) (zkvs t i o)
  = from_option (fun s => [weigh weights i s]) [] (score_in c t k m).
Proof.
  intros Hf Hz. unfold score_in, zscores, score_of. rewrite Hf.
  destruct (fields (dv t) o (EncodeMemberKey m)) as [v|] eqn:Ev; cbn [mbind option_bind].
  - destruct (zk_value _ Hz _ _ Ev) as (s&Hs&_). rewrite Hs. cbn [from_option].
    set (kv := {| Heap.kv_Idx := i; Heap.kv_Key := m; Heap.kv_Value := v |}).
    assert (concat ((fun x => [x]) <$> zkvs t i o) = zkvs t i o) as E by (induction (zkvs t i o); [done|by cbn; f_equal]).
    rewrite <- E, (filter_key_concat _ [kv] m).
    + cbn [fmap list_fmap]. unfold kv_number. cbn [Heap.kv_Value Heap.kv_Idx kv]. by rewrite Hs.
    + rewrite <- list_fmap_compose. apply zkvs_sorted.
    + apply Forall_fmap, Forall_forall. intros x _. by repeat constructor.
    + apply list_elem_of_fmap. exists kv. split; [done|]. by apply elem_of_zkvs.
    + done.
  - cbn [from_option]. rewrite filter_none; [done|]. apply Forall_forall. intros kv [_ Hv]%elem_of_zkvs E. congruence.
Qed.

Lemma entries_contributions c t weights ks i m : Forall (zset_key c t) ks ->
  kv_number weights <$> base.filter (fun kv => Heap.kv_Key kv = m) (all_entries c t ks i)
  = contributions c t weights ks i m.
Proof.
  intros Hks. revert i. induction Hks as [|k ks (_&_&Ho) Hks IH]; intros i; [done|]. cbn [all_entries contributions].
  rewrite filter_app, fmap_app, IH. f_equal. destruct (find c t (dv t) k) as [o|] eqn:Ef; cbn [from_option].
  - destruct Ho as [_ Hz]. by apply zkvs_member.
  - unfold score_in. by rewrite Ef.
Qed.

Lemma members_contributions c t ks i m : Forall (zset_key c t) ks ->
  (exists kv, kv ∈ all_entries c t ks i /\ Heap.kv_Key kv = m) <-> exists k, k ∈ ks /\ is_Some (score_in c t k m).
Proof.
  intros Hks. revert i. induction Hks as [|k ks (_&_&Ho) Hks IH]; intros i; cbn [all_entries].
  { split; [intros (kv&Hkv&_)|intros (k&Hk&_)]; by eapply elem_of_nil in Hkv || eapply elem_of_nil in Hk. }
  assert ((exists kv, kv ∈ from_option (zkvs t i) [] (find c t (dv t) k) /\ Heap.kv_Key kv = m) <->
          is_Some (score_in c t k m)) as Hk.
  { unfold score_in. destruct (find c t (dv t) k) as [o|]; cbn [from_option].
    2: { split; [intros (kv&Hkv&_)|intros [s Hs]]; [by apply elem_of_nil in Hkv|done]. }
    destruct Ho as [_ Hz]. unfold zscores, score_of. split.
    - intros (kv&[_ Hv]%elem_of_zkvs&<-). rewrite Hv. destruct (zk_value _ Hz _ _ Hv) as (s&Hs&_).
      cbn [mbind option_bind]. by rewrite Hs.
    - destruct (fields (dv t) o (EncodeMemberKey m)) as [v|] eqn:Ev; [|by intros []].
      intros _. exists {| Heap.kv_Idx := i; Heap.kv_Key := m; Heap.kv_Value := v |}. split; [|done]. by apply elem_of_zkvs. }
  specialize (IH (S i)). setoid_rewrite elem_of_app. setoid_rewrite elem_of_cons. naive_solver.
Qed.

(** *** The options *)

Lemma parse_weights_length args w : parse_weights args = Some w -> length w = length args.
Proof.
  revert w. induction args as [|a args IH]; intros w; cbn [parse_weights]; [by intros [= <-]|].
  destruct (ParseFloat a) as [x|]; [|done]. destruct (isNaN x); [done|].
  destruct (parse_weights args) as [l|]; [|done]. cbn. intros [= <-]. cbn. by rewrite (IH l).
Qed.

(** As many weights as keys, and members are always asked for. *)
Record options_ok (opt : zsetOptions) : Prop := {
  ok_weights : za_weights opt = [] \/ len (za_weights opt) = za_num opt;
  ok_keys : has_flag (za_getType opt) OnlyKey = true
}.

Lemma add_type_ok f opt : options_ok opt -> options_ok (add_type f opt).
Proof.
  intros [Hw Hk]. split; [done|]. unfold has_flag, add_type, OnlyKey in *. cbn [za_getType].
  apply Z.eqb_eq in Hk. apply Z.eqb_eq. rewrite Z.land_lor_distr_l, Hk. apply Z.bits_inj'. intros n Hn.
  rewrite Z.lor_spec, Z.land_spec. by destruct (Z.testbit 1 n); rewrite ?andb_false_r.
Qed.

Lemma zset_options_ok args skip opt agg opt' agg' :
  zset_options args skip opt agg = inr (opt', agg') -> options_ok opt -> 0 <= za_num opt ->
  options_ok opt' /\ za_num opt' = za_num opt.
Proof.
  revert skip opt agg. induction args as [|a args IH]; intros skip opt agg; cbn [zset_options].
  { by intros [= -> ->]. }
  destruct skip as [|skip]; [|apply IH]. intros E Ho Hn.
  destruct (lower_is a "weights").
  { destruct (Z.ltb_spec (len args) (za_num opt)); [done|].
    destruct (parse_weights _) as [w|] eqn:Ew; [|done]. apply IH in E; [done| |done].
    split; [right|apply Ho]. cbn [za_weights za_num set_weights]. apply parse_weights_length in Ew.
    unfold len in *. rewrite Ew, length_take. lia. }
  destruct (lower_is a "withscores"); [by apply IH in E; [|apply add_type_ok|]|].
  destruct (lower_is a "aggregate"); [|done]. destruct args as [|b args']; [done|].
  destruct (lower_is b "sum"); [by apply IH in E; [|apply add_type_ok|]|].
  destruct (lower_is b "min"); [by apply IH in E; [|apply add_type_ok|]|].
  by destruct (lower_is b "max"); [apply IH in E; [|apply add_type_ok|]|].
Qed.

Lemma checkZsetOptions_ok args opt t t' : checkZsetOptions args t = Ret (inr opt) t' ->
  t' = t /\ options_ok opt /\ 0 < za_num opt.
Proof.
  unfold checkZsetOptions. destruct (Int.GetPositiveInt (arg 0 args)) as [num [e|]] eqn:En; [done|].
  assert (0 < num) as Hn.
  { unfold Int.GetPositiveInt in En. destruct (Atoi _) as [n|]; [|done].
    destruct (Z.leb_spec n 0); [done|]. by injection En as <-. }
  destruct (_ <? _); [done|]. destruct (_ <? 0); [done|].
  set (opt0 := {| za_num := num; za_weights := []; za_getType := OnlyKey |}).
  destruct (zset_options _ 0 opt0 false) as [e|[opt1 agg]] eqn:Eo; intros [= <- <-].
  apply zset_options_ok in Eo as [Ho Hnum]; [|by split; [left|]|cbn; lia].
  split; [done|]. destruct agg; [by rewrite Hnum|]. split; [by apply add_type_ok|]. cbn [za_num add_type]. by rewrite Hnum.
Qed.

(** *** ZUNION *)

(** The items of a member and its score. *)
Definition scored_items (getType : Z) (e : bytes * Number) : list item :=
  IMember (fst e) :: if has_flag getType OnlyValue then [IScore (snd e)] else [].

(** C21. ZUNION of keys that hold sorted sets or nothing: the reply lists the members of
    all of them, each once and in ascending order, with the sum, the least or the greatest
    of its weighted scores (in the order in which the merge meets them) when scores are
    asked for. There is one exception: when the empty member is the only one, the reply is
    empty. Nothing is written. *)
Theorem ZUnionHandle_merges c t n ks opts opt :
  ready c t -> checkZsetOptions (n :: ks ++ opts) t = Ret (inr opt) t -> za_num opt = len ks ->
  Forall (zset_key c t) ks ->
  exists es : list (bytes * Number),
    StronglySorted blt (fst <$> es) /\
    (forall m, m ∈ fst <$> es <-> exists k, k ∈ ks /\ is_Some (score_in c t k m)) /\
    Forall (fun e => exists l, l ≡ₚ contributions c t (za_weights opt) ks 0 (fst e) /\
                               snd e = merged_scores (za_getType opt) l) es /\
    ZUnionHandle (n :: ks ++ opts) t =
      Ret (RArr (item_reply <$> if decide (fst <$> es = [[]]) then []
                                else concat (scored_items (za_getType opt) <$> es))) t.
Proof.
  intros Hr Hopt Hnum Hks. destruct (checkZsetOptions_ok _ _ _ _ Hopt) as (_&[Hw Hkey]&Hpos).
  set (w := za_weights opt) in *. set (ty := za_getType opt) in *.
  assert (w = [] \/ (0 + length ks <= length w)%nat) as Hw'.
  { destruct Hw as [|Hw]; [by left|right]. rewrite Hnum in Hw. unfold len in Hw. lia. }
  assert (wp (ZUnionHandle (n :: ks ++ opts)) t (fun r t' => t' = t /\
    exists gs, grouped gs (all_entries c t ks 0) /\ r = RArr (item_reply <$> groups_items ty (kv_number w) gs))) as Hrun.
  { unfold ZUnionHandle. destruct (Z.ltb_spec (len (n :: ks ++ opts)) 2) as [Hlt|_].
    { rewrite len_cons, len_app in Hlt. pose proof (len_nonneg opts). lia. }
    apply wp_on_value. eapply returns_wp; [exact Hopt|]. cbv beta iota.
    assert (key_args (za_num opt) (n :: ks ++ opts) = ks) as ->.
    { unfold key_args. change (drop 1 (n :: ks ++ opts)) with (ks ++ opts). rewrite Hnum. unfold len. by rewrite Nat2Z.id, take_app_length. }
    unfold reply_items. apply wp_on_value. unfold zunion.
    apply wp_on_value, (wp_zunion_iters c); [done|done|constructor|]. intros l Hl E. cbn [fmap list_fmap concat app] in E.
    pose proof (length_pendings l) as Hlen.
    apply (wp_zunion_loop ty w (kv_number w)) with (acc := []); unfold pendings, pending, keys_of; cbn [il_heap il_iters fmap list_fmap app].
    - done.
    - lia.
    - done.
    - apply Heap.is_heap_nil.
    - rewrite E. by apply all_entries_run.
    - done.
    - by apply Forall_forall.
    - rewrite E. intros gs Hgs _. apply wp_ret. split; [done|]. by exists gs. }
  apply wp_returns in Hrun as (r&t'&Hrun&->&gs&[Hs Hg Hall]&->).
  exists ((fun g => (group_key g, merged_scores ty (kv_number w <$> g))) <$> gs).
  assert (fst <$> ((fun g => (group_key g, merged_scores ty (kv_number w <$> g))) <$> gs) = group_key <$> gs) as ->
    by by rewrite <- list_fmap_compose.
  split; [done|]. split; [|split].
  - intros m. rewrite <- (members_contributions c t ks 0 m Hks). setoid_rewrite <- Hall. split.
    + intros (g&->&Hin)%list_elem_of_fmap. rewrite Forall_forall in Hg. destruct (Hg g Hin) as [Hne Hk].
      destruct g as [|kv g]; [done|]. exists kv. split; [|done].
      apply elem_of_concat. exists (kv :: g). split; [by left|done].
    + intros (kv&(g&Hkv&Hin)%elem_of_concat&<-). apply list_elem_of_fmap. exists g. split; [|done].
      rewrite Forall_forall in Hg. destruct (Hg g Hin) as [_ Hk]. rewrite Forall_forall in Hk. by rewrite (Hk kv Hkv).
  - apply Forall_fmap, Forall_forall. intros g Hin. cbn [fst snd compose]. exists (kv_number w <$> g). split; [|done].
    rewrite <- entries_contributions, <- Hall by done. by rewrite (filter_key_concat gs g).
  - rewrite Hrun. unfold groups_items. do 3 f_equal. destruct (decide _); [done|]. rewrite <- list_fmap_compose. done.
Qed.

End entries.
