(* ===== verification/SampleLibs.v ===== *)
(** Small libraries for the samples, as concrete instances of the classes: the cells of a
    planet of whole degrees and insertion sort for [GeoLib] and [SortSlice], and documents of
    scalars and arrays of them, with the paths [$] and [$[*]], for [Ajson]. *)

From stdpp Require Import sorting.
From S2P Require Import Prelude Xerror GoStd Utils Float Strconv Store Object Reply.
From S2P Require Import Generic Strings Geo Json JsonCmd GeoSpec JsonSpec.
From Stdlib Require Import Init.Byte Floats.SpecFloat.
From Stdlib Require Import Init.Byte.

#[local] Open Scope Z_scope.

Definition truncate (f : float64) : Z :=
  match decode f with
  | S754_finite s m e => let v := Z.shiftl (Zpos m) e in if s then - v else v
  | _ => 0
  end.
Definition fabs (f : float64) : float64 := if is_neg f then fneg f else f.

#[export] Instance sample_geo : GeoLib := {|
  Degree := fone;
  Angle_Radians a := a;
  Angle_Degrees a := a;
  LatLng := float64 * float64;
  LatLng_Lat := fst;
  LatLng_Lng := snd;
  LatLngFromDegrees lat lng := (lat, lng);
  LatLng_Distance a b := fadd (fabs (fsub (fst a) (fst b))) (fabs (fsub (snd a) (snd b)));
  CellIDFromLatLng l := (truncate (fst l) + 90) mod 256 * 1024 + (truncate (snd l) + 180) mod 1024;
  CellID_LatLng id := (of_int (id / 1024 - 90), of_int (id mod 1024 - 180));
  CellID_RangeMin id := id mod 4 * 65536;
  CellID_RangeMax id := id mod 4 * 65536 + 65535;
  Point := float64 * float64;
  PointFromLatLng l := l;
  Cap := (float64 * float64) * float64;
  CapFromCenterAngle p a := (p, a);
  Cap_ContainsPoint c p :=
    fle (fadd (fabs (fsub (fst p) (fst (fst c)))) (fabs (fsub (snd p) (snd (fst c))))) (snd c);
  Cap_CellUnionBound _ := [0; 1; 2; 3];
  Rect := (float64 * float64) * (float64 * float64);
  RectFromLatLng l := (l, l);
  Rect_AddPoint r l := (fst r, l);
  Rect_ContainsLatLng r l :=
    fle (fst (fst r)) (fst l) && fle (fst l) (fst (snd r)) && fle (snd (fst r)) (snd l) && fle (snd l) (snd (snd r));
  Rect_CellUnionBound _ := [0; 1; 2; 3];
  EncodeWithPrecision lat lng _ := FormatFloat lat ++ FormatFloat lng;
  EncodeIntWithPrecision lat lng _ := u64 (truncate lat * 1024 + truncate lng);
  DecodeIntWithPrecision score _ := (of_int (score / 1024), of_int (score mod 1024));
  math_Cos _ := fone
|}.

#[export] Instance sample_cells : CellIDs.
Proof.
  assert (forall x, 0 <= x mod 4 < 4) as H4 by (intros; by apply Z.mod_pos_bound).
  split; intros; cbn [CellIDFromLatLng CellID_RangeMin CellID_RangeMax sample_geo]; unfold in_u64;
    try (pose proof (H4 id); lia).
  pose proof (Z.mod_pos_bound (truncate (fst l) + 90) 256). pose proof (Z.mod_pos_bound (truncate (snd l) + 180) 1024). lia.
Qed.

Lemma sample_covers : Covers.
Proof.
  intros region l _. unfold EncodeCellID, ToLatLng. cbn [CellIDFromLatLng LatLngFromDegrees sample_geo fst snd].
  pose proof (Z.mod_pos_bound (truncate (Lat l) + 90) 256). pose proof (Z.mod_pos_bound (truncate (Lng l) + 180) 1024).
  set (a := (truncate (Lat l) + 90) mod 256) in *. set (b := (truncate (Lng l) + 180) mod 1024) in *.
  assert (RegionRange region = (fun i => {| Min := i * 65536; Max := i * 65536 + 65535 |}) <$> [0; 1; 2; 3]) as ->
    by by destruct region.
  assert (exists i, i ∈ [0; 1; 2; 3] /\ i * 65536 <= a * 1024 + b <= i * 65536 + 65535) as (i&Hi&Hr).
  { assert (a < 64 \/ 64 <= a < 128 \/ 128 <= a < 192 \/ 192 <= a) as [Ha|[Ha|[Ha|Ha]]] by lia;
      [exists 0|exists 1|exists 2|exists 3]; (split; [set_solver|lia]). }
  exists {| Min := i * 65536; Max := i * 65536 + 65535 |}. split; [|exact Hr]. apply list_elem_of_fmap. by exists i.
Qed.

(** ** Insertion sort *)

Section sort.
Context {A : Type} (less : A -> A -> bool).

Fixpoint insert_by (x : A) (l : list A) : list A :=
  match l with
  | [] => [x]
  | y :: l => if less y x then y :: insert_by x l else x :: y :: l
  end.
Fixpoint sort_by (l : list A) : list A :=
  match l with [] => [] | x :: l => insert_by x (sort_by l) end.

Lemma insert_by_perm x l : insert_by x l ≡ₚ x :: l.
Proof. induction l as [|y l IH]; [done|]. cbn [insert_by]. destruct (less y x); [|done]. rewrite IH. apply perm_swap. Qed.
Lemma sort_by_perm l : sort_by l ≡ₚ l.
Proof. induction l as [|x l IH]; [done|]. cbn [sort_by]. by rewrite insert_by_perm, IH. Qed.

Lemma sort_by_sorted l :
  (forall a b c, a ∈ l -> b ∈ l -> c ∈ l -> less a b = false -> less b c = false -> less a c = false) ->
  (forall a b, a ∈ l -> b ∈ l -> less a b = true -> less b a = false) ->
  StronglySorted (fun a b => less b a = false) (sort_by l).
Proof.
  induction l as [|x l IH]; intros Ht Ha; [constructor|]. cbn [sort_by].
  assert (StronglySorted (fun a b => less b a = false) (sort_by l)) as Hs.
  { apply IH; [intros a b c ???; apply Ht|intros a b ??; apply Ha]; by right. }
  assert (forall y, y ∈ sort_by l -> y ∈ l) as Hin by (intros y; by rewrite sort_by_perm).
  revert Hs Hin. induction (sort_by l) as [|y k IHk]; intros Hs Hin; cbn [insert_by]; [repeat constructor|].
  apply StronglySorted_inv in Hs as [Hs Hy]. rewrite Forall_forall in Hy.
  assert (forall z, z ∈ k -> z ∈ l) as Hk by (intros z Hz; apply Hin; by right).
  assert (y ∈ l) as Hyl by (apply Hin; by left).
  destruct (less y x) eqn:E; constructor.
  - by apply IHk.
  - apply Forall_forall. intros z. rewrite insert_by_perm. intros [->|Hz]%elem_of_cons; [|by apply Hy].
    apply Ha; [by right|by left|done].
  - constructor; [done|by apply Forall_forall].
  - constructor; [done|]. apply Forall_forall. intros z Hz.
    apply (Ht z y x); [right; by apply Hk|by right|by left|by apply Hy|done].
Qed.

End sort.

#[export] Instance insertion_sort : SortSlice := {|
  sort_Slice A := sort_by;
  sort_Slice_perm A := sort_by_perm;
  sort_Slice_sorted A := sort_by_sorted
|}.

Inductive val := VNull | VNum (f : float64) | VStr (s : bytes) | VBool (b : bool) | VArr (l : list nat).

(** A scalar: the words of JSON, a string without escapes, or a number. *)
Definition scalar (b : bytes) : option val :=
  if bool_decide (b = bs "null") then Some VNull
  else if bool_decide (b = bs "true") then Some (VBool true)
  else if bool_decide (b = bs "false") then Some (VBool false)
  else
    match b with
    | x22 :: s => Some (VStr (removelast s))
    | _ => VNum <$> ParseFloat b
    end.

(** The parts of a list. *)
Fixpoint parts (l cur : bytes) : list bytes :=
  match l with
  | [] => [cur]
  | x2c :: l => cur :: parts l []
  | c :: l => parts l (cur ++ [c])
  end.

Definition bad : error := FmtError "wrong node".

Fixpoint add_scalars (l : list bytes) (h : list val) : option (list nat * list val) :=
  match l with
  | [] => Some ([], h)
  | b :: l =>
      v ← scalar b;
      '(ns, h') ← add_scalars l (h ++ [v]);
      Some (length h :: ns, h')
  end.

Definition sample_unmarshal (b : bytes) (h : list val) : (error + nat) * list val :=
  match b with
  | x5b :: l =>
      let inner := removelast l in
      match add_scalars (if bool_decide (inner = []) then [] else parts inner []) h with
      | Some (ns, h) => (inr (length h), h ++ [VArr ns])
      | None => (inl bad, h)
      end
  | _ => match scalar b with Some v => (inr (length h), h ++ [v]) | None => (inl bad, h) end
  end.

Definition show (f : float64) : bytes := default (bs "null") (marshal_float f).
Fixpoint print (fuel : nat) (h : list val) (n : nat) : bytes :=
  match fuel, h !! n with
  | O, _ | _, None => []
  | S fuel, Some v =>
      match v with
      | VNull => bs "null"
      | VNum f => show f
      | VStr s => [x22] ++ s ++ [x22]
      | VBool true => bs "true"
      | VBool false => bs "false"
      | VArr l =>
          [x5b] ++ match print fuel h <$> l with [] => [] | x :: l => x ++ concat ((fun y => x2c :: y) <$> l) end ++ [x5d]
      end
  end.

Definition elements_of (h : list val) (n : nat) : list nat := match h !! n with Some (VArr l) => l | _ => [] end.
Definition is_array (h : list val) (n : nat) : bool := match h !! n with Some (VArr _) => true | _ => false end.
Definition put (n : nat) (v : val) (h : list val) : option error * list val := (None, <[n := v]> h).
Definition in_array (n : nat) (f : list nat -> list nat) (h : list val) : option error * list val :=
  if is_array h n then put n (VArr (f (elements_of h n))) h else (Some bad, h).
Definition at_index (l : list nat) (i : Z) : option nat :=
  if i <? 0 then (if i + Z.of_nat (length l) <? 0 then None else l !! Z.to_nat (i + Z.of_nat (length l)))
  else if i >=? Z.of_nat (length l) then None else l !! Z.to_nat i.

#[export] Instance sample_json : Ajson := {|
  Heap := list val;
  Node := nat;
  no_nodes := [];
  Ajson_Unmarshal := sample_unmarshal;
  Ajson_Marshal n h := (inr (print 3 h n), h);
  Marshal_map m h := (inr (concat ((fun '(k, n) => k ++ [x3a] ++ print 3 h n) <$> m)), h);
  ArrayNode ns h := (length h, h ++ [VArr ns]);
  JSONPath n p h :=
    if bool_decide (p = bs "$") then (inr [n], h)
    else if bool_decide (p = bs "$[*]") then (inr (elements_of h n), h)
    else if bool_decide (p = bs "$.x") then (inr [], h) else (inl bad, h);
  ParseJSONPath p := if bool_decide (p = bs "$") then inr [bs "$"] else inr [bs "$"; drop 1 p];
  ApplyJSONPath n cs h :=
    match cs with [_] => (inr [n], h) | _ => (inr (if is_array h n then elements_of h n else []), h) end;
  Ajson_Str c := c;
  NodeType_of n h :=
    match h !! n with
    | Some VNull => Null | Some (VNum _) => Numeric | Some (VStr _) => StringNode | Some (VBool _) => BoolNode
    | Some (VArr _) => ArrayType | None => OtherType
    end;
  IsArray n h := is_array h n;
  IsObject n h := false;
  IsString n h := match h !! n with Some (VStr _) => true | _ => false end;
  Size n h := Z.of_nat (length (elements_of h n));
  Keys n h := [];
  Eq n m h := bool_decide (print 3 h n = print 3 h m);
  Value n h :=
    (inr match h !! n with
         | Some (VNum f) => RFloat f | Some (VStr s) => RBulk s | Some (VBool b) => RBulk (if b then bs "1" else bs "0")
         | _ => RNil
         end, h);
  GetNumeric n h := (match h !! n with Some (VNum f) => inr f | _ => inl bad end, h);
  GetString n h := (match h !! n with Some (VStr s) => inr s | _ => inl bad end, h);
  GetBool n h := (match h !! n with Some (VBool b) => inr b | _ => inl bad end, h);
  GetIndex n i h := (match at_index (elements_of h n) i with Some m => inr m | None => inl bad end, h);
  Node_Clear n h := if is_array h n then (inr true, <[n := VArr []]> h) else (inr false, h);
  Node_Delete n h := put n VNull h;
  SetNode n m h := match h !! m with Some v => put n v h | None => (Some bad, h) end;
  SetNumeric n f h := put n (VNum f) h;
  SetString n s h := put n (VStr s) h;
  SetBool n b h := put n (VBool b) h;
  AppendObject _ _ _ h := (Some bad, h);
  AppendArray n m h := in_array n (fun l => l ++ [m]) h;
  InsertArray n i ms h := in_array n (fun l => take (Z.to_nat i) l ++ ms ++ drop (Z.to_nat i) l) h;
  TrimIndex n i j h :=
    match in_array n (fun l => take (Z.to_nat (j + 1 - i)) (drop (Z.to_nat i) l)) h with
    | (Some e, h) => (inl e, h)
    | (None, h) => (inr true, h)
    end;
  PopIndex n i h :=
    match at_index (elements_of h n) i with
    | Some m => (inr m, snd (in_array n (base.filter (fun x => x <> m)) h))
    | None => (inl bad, h)
    end
|}.

#[export] Instance sample_json_spec : AjsonSpec.
Proof.
  split; [|done]. intros o i h Hi. cbn in *. unfold at_index.
  rewrite (proj2 (Z.ltb_ge i 0)) by lia. rewrite (proj2 (Z.geb_le _ _)) by lia. by do 2 eexists.
Qed.
