(* ===== verification/Samples.v ===== *)
(** The theorems about the commands at concrete stores: the memory platform, a few
    keys, and the handlers' runs on them. *)

From S2P Require Import Prelude Xerror GoStd Utils Store Ranges Mem Object Reply ObjectSpec Float.
From S2P Require Import Counters Generic GenericSpec Strings StringsSpec HashCmd SetCmd.
From S2P Require Import HashSpec Client Transaction TransactionSpec Stream Hll CommandTable Gc GcSpec Resp.
From S2P Require Import SampleLibs RespSpec ZAlgebra.
From Stdlib Require Import Init.Byte.

#[local] Open Scope Z_scope.

(** ** Sample stores *)

Definition store_ok (l : list (bytes * bytes)) : bool :=
  forallb (fun '(k, v) => (len v <? MAX_VALUE_SIZE) && (negb (bool_decide (is_count k)) || (17 <=? len v))) l.

Lemma store_ok_wf l : store_ok l = true -> wf_store (list_to_map l).
Proof.
  intros Hl k b Hb. apply elem_of_list_to_map_2, list_elem_of_In in Hb.
  unfold store_ok in Hl. rewrite forallb_forall in Hl. specialize (Hl _ Hb). cbn beta iota in Hl.
  apply andb_true_iff in Hl as [Hv Hc]. apply Z.ltb_lt in Hv. split; [done|]. intros Hk.
  apply orb_true_iff in Hc as [Hc|Hc]; [|by apply Z.leb_le].
  by rewrite bool_decide_eq_true_2 in Hc.
Qed.

Lemma mem_ready l : store_ok l = true -> ready mem_config (mem_txn l).
Proof. intros Hl. split; try done. by apply store_ok_wf. Qed.

(** What is stored after [m] ran on the entries [l]. *)
Definition after {A} (m : M A) (l : list (bytes * bytes)) : list (bytes * bytes) :=
  default [] (out_view (m (mem_txn l))).

Definition string_store : list (bytes * bytes) :=
  Eval vm_compute in after (SetHandle [bs "k"; bs "41"]) [].
Definition ttl_store : list (bytes * bytes) :=
  Eval vm_compute in after (SetHandle [bs "k"; bs "41"; bs "EX"; bs "10"]) [].
Definition hash_store : list (bytes * bytes) :=
  Eval vm_compute in after (HSetHandle [bs "h"; bs "f"; bs "1"; bs "g"; bs "2"]) string_store.
Definition set_store : list (bytes * bytes) :=
  Eval vm_compute in after (SAddHandle [bs "s"; bs "y"; bs "x"]) string_store.

Definition object_of (l : list (bytes * bytes)) (k : bytes) : Object :=
  default zero_object (find mem_config (mem_txn l) (dv (mem_txn l)) k).

(** MessagePack of short arrays of short byte strings. *)
Fixpoint unpack (n : nat) (b : bytes) : option (list bytes) :=
  match n, b with
  | O, [] => Some []
  | S n, xc4 :: l :: b =>
      let l := Z.to_nat (b2z l) in
      if (length b <? l)%nat then None else cons (take l b) <$> unpack n (drop l b)
  | _, _ => None
  end.

#[export] Instance short_msgpack : Msgpack := {|
  Marshal l :=
    if (len l <? 16) && forallb (fun x => len x <? 256) l
    then inr (z2b (144 + len l) :: concat ((fun x => xc4 :: z2b (len x) :: x) <$> l))
    else inl (ErrNotSupport : error);
  Unmarshal b :=
    match b with
    | c :: b => if b2z c - 144 <? 0 then inl (ErrNotSupport : error)
                else match unpack (Z.to_nat (b2z c - 144)) b with
                     | Some l => inr l
                     | None => inl (ErrNotSupport : error)
                     end
    | [] => inl (ErrNotSupport : error)
    end
|}.

(** FNV, spread by a multiplication, in place of xxhash; the first terms of the logarithm's series about 1. *)
#[export] Instance insertion_order : MapOrder := {| map_order := id; map_order_perm l := reflexivity l |}.

#[export] Instance sample_math : HllMath := {|
  Sum64 v := u64 (Hash.Sum64 v * 0x9E3779B97F4A7C15);
  math_Log x := let y := fsub x fone in fsub y (fdiv (fmul y y) ftwo);
  math_Pow x _ := fmul x x
|}.

(** A decision for [in_step] and [holds] at a sample store. *)
Lemma mem_holds l k typo o :
  find mem_config (mem_txn l) (dv (mem_txn l)) k = Some o -> o_Type o = typo ->
  i64 (counted (t_view (mem_txn l)) (count_prefix 1 0 (sl (o_Value o)))) = cardinality (dv (mem_txn l)) o ->
  holds mem_config (mem_txn l) k typo o.
Proof. intros Hf Ht Hs. split; [done|done|]. by intros _. Qed.

Lemma hash_holds : holds mem_config (mem_txn hash_store) (bs "h") HashType (object_of hash_store (bs "h")).
Proof. apply mem_holds; vm_compute; reflexivity. Qed.
Lemma set_holds : holds mem_config (mem_txn set_store) (bs "s") SetType (object_of set_store (bs "s")).
Proof. apply mem_holds; vm_compute; reflexivity. Qed.

(** ** The theorems at the samples *)

Lemma string_found : find mem_config (mem_txn string_store) (dv (mem_txn string_store)) (bs "k")
                     = Some (object_of string_store (bs "k")).
Proof. vm_compute. reflexivity. Qed.
Lemma ttl_found : find mem_config (mem_txn ttl_store) (dv (mem_txn ttl_store)) (bs "k")
                  = Some (object_of ttl_store (bs "k")).
Proof. vm_compute. reflexivity. Qed.

(** Steps into the branch of a live string. *)
Ltac live_string found Hm :=
  unfold settable in Hm; rewrite found in Hm; cbn [negb] in Hm;
  change (beq _ _) with true in Hm; cbn beta iota in Hm.

(** Discharges the side conditions of a theorem at a sample. *)
Ltac at_sample :=
  lazymatch goal with
  | |- ready _ _ => by apply mem_ready
  | |- holds _ _ _ HashType _ => exact hash_holds
  | |- holds _ _ _ SetType _ => exact set_holds
  | |- in_step _ _ (mem_txn hash_store) => exact (ho_step _ _ _ _ _ hash_holds)
  | |- in_step _ _ (mem_txn set_store) => exact (ho_step _ _ _ _ _ set_holds)
  | |- collection _ (object_of hash_store _) =>
      exact (holds_collection _ _ _ _ _ (or_introl eq_refl) hash_holds)
  | |- collection _ (object_of set_store _) =>
      exact (holds_collection _ _ _ _ _ (or_intror eq_refl) set_holds)
  | |- good_header _ _ _ => vm_compute; exact eq_refl || exact I
  | |- _ \/ _ => by (left + right)
  | |- _ <= _ => vm_compute; discriminate
  | |- _ <= _ <= _ => vm_compute; split; discriminate
  | |- in_i64 _ => vm_compute; split; discriminate
  | |- Forall _ _ => repeat constructor
  | |- _ => vm_compute; reflexivity
  end.

Lemma GetCountByObject_cardinality_witness :
  holds mem_config (mem_txn hash_store) (bs "h") HashType (object_of hash_store (bs "h")) /\
  GetCountByObject (object_of hash_store (bs "h")) (mem_txn hash_store) = Ret (inr 2) (mem_txn hash_store).
Proof.
  split; [exact hash_holds|].
  rewrite (GetCountByObject_cardinality mem_config); [|at_sample..].
  replace (cardinality _ _) with 2 by (vm_compute; reflexivity). reflexivity.
Defined.

Lemma DELHandle_refines_witness :
  ready mem_config (mem_txn hash_store) /\
  wp (DELHandle [bs "h"; bs "nope"; bs "k"]) (mem_txn hash_store) (fun r t' =>
    r = RInt 2 /\ find mem_config (mem_txn hash_store) (dv t') (bs "k") = None) /\
  wp (UnlinkHandle [bs "k"]) (mem_txn hash_store) (fun r t' => r = RInt 1).
Proof.
  split; [by apply mem_ready|]. split.
  2: { eapply wp_mono; [apply (DELHandle_refines mem_config); [at_sample|done|at_sample|simpl; tauto]|].
       intros r t' (-> & _). vm_compute. reflexivity. }
  eapply wp_mono; [apply (DELHandle_refines mem_config); [at_sample|done|at_sample|simpl; tauto]|].
  intros r t' (-> & _ & Hf). split; [vm_compute; reflexivity|]. rewrite Hf. vm_compute. reflexivity.
Defined.

Lemma expire_sets_witness :
  ready mem_config (mem_txn ttl_store) /\
  wp (expire [bs "k"; bs "100"] 1100000 false) (mem_txn ttl_store) (fun r t' =>
    r = inr 1 /\ find mem_config (mem_txn ttl_store) (dv t') (bs "k")
                 = Some (set_o_TTL 1100000 (object_of ttl_store (bs "k"))) /\
    dv t' !! GetTTLKeyBytes (object_of ttl_store (bs "k")) = None).
Proof.
  split; [by apply mem_ready|].
  eapply wp_mono; [apply (expire_sets mem_config); at_sample|].
  intros r t' [_ Hm].
  rewrite ttl_found in Hm. destruct Hm as (-> & Hf & _ & Hd). split; [done|]. split.
  - rewrite Hf, decide_True by done. vm_compute. reflexivity.
  - apply Hd; vm_compute; [reflexivity|discriminate].
Defined.

Lemma SetHandle_refines_witness :
  ready mem_config (mem_txn ttl_store) /\
  wp (SetHandle [bs "k"; bs "v"]) (mem_txn ttl_store) (fun r t' =>
    r = OK /\ dv t' !! GetTTLKeyBytes (object_of ttl_store (bs "k")) = None).
Proof.
  split; [by apply mem_ready|].
  eapply wp_mono; [apply (SetHandle_refines mem_config); at_sample|].
  intros r t' Hm. live_string ttl_found Hm.
  destruct Hm as (-> & _ & _ & _ & Hd). split; [done|]. by apply Hd.
Defined.

Lemma GetHandle_refines_witness :
  ready mem_config (mem_txn string_store) /\
  wp (GetHandle [bs "k"]) (mem_txn string_store) (fun r t' =>
    r = RBulk (bs "41") /\ dv t' = dv (mem_txn string_store)).
Proof.
  split; [by apply mem_ready|].
  eapply wp_mono; [apply (GetHandle_refines mem_config); at_sample|].
  intros r t' Hm. live_string string_found Hm.
  destruct Hm as (-> & Hw). split; [vm_compute; reflexivity|apply Hw].
Defined.

Lemma stringHandle_incr_witness :
  ready mem_config (mem_txn string_store) /\
  wp (IncrHandle [bs "k"]) (mem_txn string_store) (fun r t' =>
    r = RInt 42 /\
    exists o, find mem_config (mem_txn string_store) (dv t') (bs "k") = Some o /\ o_Value o = Some (bs "42")).
Proof.
  split; [by apply mem_ready|].
  eapply wp_mono;
    [apply (stringHandle_incr mem_config (bs "k") 1 [bs "k"] (mem_txn string_store) incr);
       [at_sample..|done]|].
  intros r t' Hm. live_string string_found Hm.
  replace (incr_spec _ _) with (inr (RInt 42, Some (bs "42")) : error + (reply * option bytes)) in Hm
    by (vm_compute; reflexivity).
  destruct Hm as (-> & _ & _ & Hf). split; [done|]. eexists. rewrite Hf.
  unfold upd. rewrite decide_True by done. by split.
Defined.

Lemma SetRangeHandle_overlay_witness :
  ready mem_config (mem_txn string_store) /\
  wp (SetRangeHandle [bs "k"; bs "4"; bs "ab"]) (mem_txn string_store) (fun r t' =>
    r = RInt 6 /\
    exists o, find mem_config (mem_txn string_store) (dv t') (bs "k") = Some o /\
              o_Value o = Some (bs "41" ++ [x00; x00] ++ bs "ab")).
Proof.
  split; [by apply mem_ready|].
  eapply wp_mono;
    [apply (SetRangeHandle_overlay mem_config (bs "k") (bs "4") (bs "ab") 4); at_sample|].
  intros r t' Hm. cbv zeta in Hm. live_string string_found Hm. change (4 + len (bs "ab") =? 0) with false in Hm.
  destruct Hm as (-> & _ & _ & Hf). split; [vm_compute; reflexivity|]. eexists. rewrite Hf.
  unfold upd. rewrite decide_True by done. split; [reflexivity|vm_compute; reflexivity].
Defined.

Lemma setString_value_witness :
  ready mem_config (mem_txn ttl_store) /\
  wp (setString (bs "k") (bs "v") 0 NoCheck) (mem_txn ttl_store) (fun r t' =>
    r = None /\ dv t' !! GetTTLKeyBytes (object_of ttl_store (bs "k")) = None /\
    exists o, find mem_config (mem_txn ttl_store) (dv t') (bs "k") = Some o /\ o_TTL o = 1010000).
Proof.
  split; [by apply mem_ready|].
  eapply wp_mono; [apply (setString_value mem_config); at_sample|].
  intros r t' Hm. live_string ttl_found Hm. change (NoCheck =? CheckNotExist) with false in Hm.
  destruct Hm as (-> & (_ & _ & Hf) & Hd).
  destruct (Hd _ eq_refl) as [Ht Hn]; [vm_compute; reflexivity|].
  split; [done|]. split; [done|]. eexists. rewrite Hf.
  unfold upd. rewrite decide_True by done. split; [reflexivity|]. rewrite Ht. vm_compute. reflexivity.
Defined.

(** ** Collections *)

#[local] Abbreviation h_store := (mem_txn hash_store).

Lemma hset_loop_fields_witness :
  holds mem_config h_store (bs "h") HashType (object_of hash_store (bs "h")) /\
  wp (hset_loop (object_of hash_store (bs "h")) false [bs "f"; bs "7"; bs "e"; bs "8"] 0) h_store
    (fun r t' => r = inr 1 /\ cardinality (dv t') (object_of hash_store (bs "h")) = 3).
Proof.
  split; [exact hash_holds|].
  eapply wp_mono; [apply (hset_loop_fields mem_config); at_sample|].
  intros r t' [-> Hf]. split; [vm_compute; reflexivity|].
  rewrite (fs_card _ _ _ _ _ _ Hf). vm_compute. reflexivity.
Defined.

Lemma hdel_loop_fields_witness :
  holds mem_config h_store (bs "h") HashType (object_of hash_store (bs "h")) /\
  wp (hdel_loop (object_of hash_store (bs "h")) [bs "f"; bs "f"; bs "z"] 0) h_store
    (fun r t' => r = inr 1 /\ cardinality (dv t') (object_of hash_store (bs "h")) = 1).
Proof.
  split; [exact hash_holds|].
  eapply wp_mono; [apply (hdel_loop_fields mem_config); at_sample|].
  intros r t' [-> Hf]. split; [vm_compute; reflexivity|].
  rewrite (fs_card _ _ _ _ _ _ Hf). vm_compute. reflexivity.
Defined.

Lemma HSetHandle_refines_witness :
  holds mem_config h_store (bs "h") HashType (object_of hash_store (bs "h")) /\
  wp (HSetHandle [bs "h"; bs "g"; bs "7"; bs "e"; bs "8"]) h_store
    (fun r t' => r = RInt 1 /\ holds mem_config t' (bs "h") HashType (object_of hash_store (bs "h"))).
Proof.
  split; [exact hash_holds|].
  eapply wp_mono;
    [apply (HSetHandle_refines mem_config _ _ _ (object_of hash_store (bs "h"))); [at_sample..|discriminate| | |]; at_sample|].
  intros r t' (-> & _ & Hh). split; [vm_compute; reflexivity|done].
Defined.

Lemma HGetHandle_refines_witness :
  holds mem_config h_store (bs "h") HashType (object_of hash_store (bs "h")) /\
  wp (HGetHandle [bs "h"; bs "g"]) h_store (fun r t' => r = RBulk (bs "2")).
Proof.
  split; [exact hash_holds|].
  eapply wp_mono;
    [apply (HGetHandle_refines mem_config _ _ _ (object_of hash_store (bs "h"))); at_sample|].
  intros r t' [_ ->]. vm_compute. reflexivity.
Defined.

Lemma GetCountByKey_cardinality_witness :
  holds mem_config h_store (bs "h") HashType (object_of hash_store (bs "h")) /\
  GetCountByKey (bs "h") HashType h_store = Ret (inr 2) h_store.
Proof.
  split; [exact hash_holds|].
  rewrite (GetCountByKey_cardinality mem_config _ _ _ (object_of hash_store (bs "h"))); [|at_sample..].
  replace (cardinality _ _) with 2 by (vm_compute; reflexivity). reflexivity.
Defined.

Lemma sadd_loop_members_witness :
  holds mem_config (mem_txn set_store) (bs "s") SetType (object_of set_store (bs "s")) /\
  wp (sadd_loop (object_of set_store (bs "s")) [bs "x"; bs "z"] 0) (mem_txn set_store)
    (fun r t' => r = inr 1 /\ cardinality (dv t') (object_of set_store (bs "s")) = 3).
Proof.
  split; [exact set_holds|].
  eapply wp_mono; [apply (sadd_loop_members mem_config); at_sample|].
  intros r t' [-> Hf]. split; [vm_compute; reflexivity|].
  rewrite (fs_card _ _ _ _ _ _ Hf). vm_compute. reflexivity.
Defined.

Lemma smembers_lists_witness :
  holds mem_config (mem_txn set_store) (bs "s") SetType (object_of set_store (bs "s")) /\
  smembers [bs "s"] 100 (mem_txn set_store) = Ret (inr [bs "x"; bs "y"]) (mem_txn set_store).
Proof.
  split; [exact set_holds|].
  etrans; [eapply (smembers_lists mem_config); at_sample|].
  replace (members _ _) with [bs "x"; bs "y"] by (vm_compute; reflexivity). reflexivity.
Defined.

(** ** A node on the memory platform *)

(** Nobody subscribes. *)
#[local] Instance nobody : PubSub := {| WaitAlive := None; PublishMessages ms := (fun _ => 0) <$> ms |}.

(** Other clients that act as [others]; every user has the sample configuration. *)
Definition clients (others : Z -> Cluster -> Cluster) : Clients :=
  {| Others := others; GetConfig _ := mem_config |}.
#[local] Instance node `{c : !Clients} : Server :=
  {| TxnHandleTable comma := on_txn <$> modelled_command comma; kv_Reset kv := kv |}.
Lemma node_keeps `{c : !Clients} comma h : TxnHandleTable comma = Some h -> keeps h.
Proof. cbn. destruct (modelled_command comma) as [f|]; [|done]. intros [= <-]. apply on_txn_keeps. Qed.

#[local] Instance quiet_clients : Clients := clients (fun _ c => c).

#[local] Program Instance mem_cluster : ClusterSpec := {|
  cl_data := mc_data;
  cl_up c := mc_down c = None;
  cl_last c := clamp_ts (mc_ts c)
|}.
Next Obligation. intros c Hc. simpl. rewrite Hc. eexists. split; [done|]. split; [done|]. split; [done|]. cbn. lia. Qed.
Next Obligation.
  intros c kv. simpl. destruct (mc_down c); [done|]. intros [= <-]. cbn [mk_ts].
  assert (2 ^ 18 <= clamp_ts (mc_ts c) <= 2 ^ 64 - 1) as Hc by (unfold clamp_ts; lia).
  split; [unfold in_u64; lia|]. rewrite Z.shiftr_div_pow2 by lia. unfold MaxInt64.
  pose proof (Z.div_le_lower_bound (clamp_ts (mc_ts c)) (2 ^ 18) 1).
  pose proof (Z.div_le_upper_bound (clamp_ts (mc_ts c)) (2 ^ 18) (2 ^ 63 - 1)). lia.
Qed.
Next Obligation. done. Qed.
Next Obligation. done. Qed.
Next Obligation. done. Qed.
Next Obligation.
  intros c kv Hc Hu Hl. simpl. rewrite Hc. unfold stale.
  destruct (Z.ltb_spec (clamp_ts (mk_ts kv)) (clamp_ts (mc_ts c))); [cbn in Hl; lia|]. eauto.
Qed.

(** *** Connections *)

Definition new_conn : Conn :=
  {| cn_UserId := 1; cn_DBId := 0; cn_txn := None; cn_draws := 0; cn_out := [] |}.
Definition mem_store (l : list (bytes * bytes)) : Cluster :=
  {| mc_data := list_to_map l; mc_ts := Z.shiftl 1000000 18; mc_down := None |}.
Definition world (l : list (bytes * bytes)) : World :=
  {| w_cluster := mem_store l; w_conn := new_conn; w_time := 0 |}.

Definition words (l : list string) : list bytes := bs <$> l.

(** What a command wrote to the connection. *)
Definition step_out (r : Step) : option (list wire) :=
  match r with Done _ w => Some (cn_out (w_conn w)) | _ => None end.
Definition step_world (r : Step) : World :=
  match r with Done _ w => w | _ => world [] end.

Definition set_get : list (list bytes) := [words ["SET"; "k"; "v"]; words ["GET"; "k"]].
Definition multi_set_get : Step := serve_then (words ["MULTI"] :: set_get) (words ["EXEC"]) (world []).

Lemma multi_exec_witness :
  step_out multi_set_get = Some [WAny OK; WAny Queued; WAny Queued; WAny (RArr [OK; RBulk (bs "v")])] /\
  exists t w out, executes set_get t (store_of w) out /\ exec_ends out w multi_set_get.
Proof.
  split; [vm_compute; reflexivity|].
  pose proof (multi_exec (words ["MULTI"]) set_get (words ["EXEC"]) (world []) eq_refl eq_refl eq_refl eq_refl
    eq_refl eq_refl ltac:(repeat constructor)) as Hm.
  cbv zeta in Hm. assert (forallb known set_get = true) as Hk by (vm_compute; reflexivity). rewrite Hk in Hm.
  change (HasTransaction (fst (getOrCreateTransaction (w_conn (world []))))) with false in Hm. cbv iota in Hm.
  set (w1 := tick _) in Hm. set (t0 := set_Multi set_get _) in Hm.
  assert (snd (Begin (w_cluster w1) t0) = None) as Hb by (vm_compute; reflexivity).
  destruct (Begin (w_cluster w1) t0) as [t e]. cbn [snd] in Hb. subst e.
  destruct Hm as (out&Ho&Hend). exists (set_Exec t), w1, out. split; [exact Ho|exact Hend].
Defined.

(** A step whose end is only computed as far as needed. *)
Definition step_err (r : Step) : option (option error) :=
  match r with Done e _ => Some e | _ => None end.
Lemma step_done r e : step_err r = Some e -> r = Done e (step_world r).
Proof. destruct r; [by intros [= ->]|done..]. Qed.

Definition conn_txn (w : World) : Txn := default NewTxn (cn_txn (w_conn w)).
Lemma conn_txn_some w : match cn_txn (w_conn w) with Some _ => true | None => false end = true -> cn_txn (w_conn w) = Some (conn_txn w).
Proof. unfold conn_txn. by destruct (cn_txn (w_conn w)). Qed.

Definition in_multi : World := step_world (serve (words ["MULTI"]) (world [])).
Definition queueing_set : World := step_world (serve (words ["SET"; "k"; "v"]) in_multi).

Lemma connection_invariant_witness :
  reachable queueing_set /\ t_PendingReq (conn_txn queueing_set) = [words ["SET"; "k"; "v"]] /\
  txn_ok (conn_txn queueing_set).
Proof.
  assert (reachable queueing_set) as Hr.
  { eapply (reach_serve in_multi (words ["SET"; "k"; "v"]) None); [|apply step_done; vm_compute; reflexivity].
    eapply (reach_serve (world []) (words ["MULTI"]) None); [by apply reach_new|apply step_done; vm_compute; reflexivity]. }
  split; [exact Hr|]. split; [vm_compute; reflexivity|].
  apply (connection_invariant queueing_set); [exact Hr|apply conn_txn_some; vm_compute; reflexivity].
Defined.

(** Another client writes while the first attempt runs: the second one commits. *)
Definition interfering : Clients :=
  clients (fun n c => if n =? 1 then {| mc_data := <[bs "x" := bs "y"]> (mc_data c);
                                        mc_ts := mc_ts c + 1; mc_down := mc_down c |} else c).
Definition retried : Step := @serve _ interfering _ _ (words ["SET"; "k"; "v"]) (world []).

Lemma serve_commits_once_witness :
  step_out retried = Some [WAny OK] /\ w_time (step_world retried) = 4 /\
  (@quiet _ interfering (store_of (world [])) (store_of (step_world retried)) \/
   (None = None :> option error /\ @committed _ interfering (store_of (world [])) (store_of (step_world retried)))).
Proof.
  split; [vm_compute; reflexivity|]. split; [vm_compute; reflexivity|].
  apply (@serve_commits_once _ interfering _ _ (words ["SET"; "k"; "v"])).
  { intros comma h _. apply node_keeps. }
  apply step_done. vm_compute. reflexivity.
Defined.

(** A second WATCH with a key that is too long. *)
Definition watching : World := step_world (serve (words ["WATCH"; "k"]) (world [])).
Definition long_watch : list bytes := [bs "WATCH"; replicate 5000 x61].

(** Another client changes the key that is watched; the queued command runs all the same. *)
Definition changed_key : Cluster := mem_store [(watch_key (conn_txn watching) (bs "k"), bs "x")].

Lemma failed_watch_forgets_witness :
  let r := watch long_watch watching in
  let w := with_cluster changed_key (step_world r) in
  step_err r = Some (Some (ErrExceedMaxSize : error)) /\
  exists t0 t w1 out, t_Watch t0 = true /\ HasTransaction t0 = false /\
    Begin (w_cluster w1) (set_Multi [words ["SET"; "k"; "v"]] t0) = (t, None) /\
    executes [words ["SET"; "k"; "v"]] (set_Exec t) (store_of w1) out /\
    exec_ends out w1 (serve_then [words ["MULTI"]; words ["SET"; "k"; "v"]] (words ["EXEC"]) w) /\
    step_err (serve_then [words ["MULTI"]; words ["SET"; "k"; "v"]] (words ["EXEC"]) w) = Some None.
Proof.
  intros r w. assert (step_err r = Some (Some (ErrExceedMaxSize : error))) as He by (vm_compute; reflexivity).
  split; [exact He|].
  destruct (failed_watch_forgets long_watch watching ErrExceedMaxSize (step_world r) (conn_txn watching)
    (words ["MULTI"]) [words ["SET"; "k"; "v"]] (words ["EXEC"]) changed_key) as (t0&Et0&Hw&Hh&Hr);
    [by apply step_done|discriminate|apply conn_txn_some; vm_compute; reflexivity|vm_compute; reflexivity..|
     repeat constructor|vm_compute; reflexivity|].
  cbv zeta in Hr. set (w1 := tick _) in Hr. fold w in Hr.
  assert (t0 = conn_txn (step_world r)) as Ht by (unfold conn_txn; by rewrite Et0).
  assert (snd (Begin (w_cluster w1) (set_Multi [words ["SET"; "k"; "v"]] t0)) = None) as Hb
    by (rewrite Ht; vm_compute; reflexivity).
  destruct (Begin (w_cluster w1) (set_Multi [words ["SET"; "k"; "v"]] t0)) as [t e] eqn:Eb. cbn [snd] in Hb. subst e.
  destruct Hr as (out&Ho&Hend). exists t0, t, w1, out. repeat (split; [done|]). vm_compute. reflexivity.
Defined.

(** *** The collector *)

Lemma quiet_alone : alone.
Proof. done. Qed.
Lemma mem_configs_ok : configs_ok.
Proof. intros u. by split. Qed.

Definition data_of (s : Store) : list (bytes * bytes) := range_entries [] [] (cl_data (fst s)).

Lemma DelteRange_clears_witness :
  let st := (mem_store [(bs "a", bs "1"); (bs "b", bs "2"); (bs "c", bs "3"); (bs "d", bs "4")], 0) in
  exists st', cl_data (fst st') = cleared (bs "a") (bs "d") (cl_data (fst st)) /\
    DelteRange 10 mem_config (bs "a") (bs "d") (Finished tt) st = Finished None st'.
Proof.
  intros st. destruct (DelteRange_clears 10 mem_config (bs "a") (bs "d") (Finished tt) st) as (st'&_&Hd&E).
  - exact quiet_alone.
  - reflexivity.
  - reflexivity.
  - intros k [v Hv]. cbn [fst st mem_store cl_data mem_cluster mc_data] in Hv.
    apply elem_of_list_to_map_2, list_elem_of_In in Hv.
    repeat (destruct Hv as [[= <- _]|Hv]; [vm_compute; reflexivity|]). destruct Hv.
  - apply (Nat.ltb_lt _ 10). vm_compute. reflexivity.
  - exists st'. split; [exact Hd|exact E].
Defined.

(** An expired key (due), a key that expires later, and a malformed entry. *)
Definition gc_store : list (bytes * bytes) :=
  Eval vm_compute in
    (bs "t!", bs "1") :: after (SetHandle [bs "l"; bs "41"; bs "EX"; bs "100"]) ttl_store.

Lemma gc_entries_short l start end_ :
  forallb (fun e => len (fst e) <? MAX_KEY_SIZE) l = true ->
  Forall (fun e => len (fst e) < MAX_KEY_SIZE) (index start end_ (mem_store l, 0)).
Proof.
  intros Hl. apply Forall_forall. intros [k v] Hx. apply elem_of_range_entries in Hx as [Hx _].
  apply elem_of_list_to_map_2, list_elem_of_In in Hx. rewrite forallb_forall in Hl.
  specialize (Hl _ Hx). by apply Z.ltb_lt in Hl.
Qed.

Lemma doGC_collects_witness :
  ends (doGC [x74] endGC 1050000 100 4 0 (mem_store gc_store, 0)) (fun '(lastKey, o, err, jobs) s' =>
    err = None /\ removed (fun x => exists e, e ∈ index [x74] endGC (mem_store gc_store, 0) /\ collects 1050000 e x)
                    (dview (list_to_map gc_store)) (dview (cl_data (fst s')))).
Proof.
  eapply ends_mono.
  - apply (doGC_collects [x74] endGC 1050000 100 4 0 (mem_store gc_store, 0)).
    + exact quiet_alone.
    + reflexivity.
    + exact mem_configs_ok.
    + discriminate.
    + apply store_ok_wf. vm_compute. reflexivity.
    + apply gc_entries_short. vm_compute. reflexivity.
  - intros [[[lastKey o] err] jobs] s' (E&_&Hr&_). exact (conj E Hr).
Defined.

(** A due entry of a value behind the entry of a key that expires later. *)
Definition skip_store : list (bytes * bytes) :=
  Eval vm_compute in
    after (let! _ := HSetHandle [bs "h"; bs "f"; bs "1"] in
           let! _ := DELHandle [bs "h"] in SetHandle [bs "l"; bs "41"; bs "EX"; bs "100"]) [].

Definition skip_entry : bytes * bytes := hd ([], []) (index [x74] endGC (mem_store skip_store, 0)).
Definition skip_object : Object :=
  match GetObjectFromTTL (fst skip_entry) (snd skip_entry) with inr o => o | inl _ => zero_object end.

Lemma gc_skips_values_witness :
  (fun e => (nth 4 (fst e) x00, option_map o_TTL (match GetObjectFromTTL (fst e) (snd e) with
                                                   | inr o => Some o | inl _ => None end)))
    <$> index [x74] endGC (mem_store skip_store, 0) = [(KeyPrefix, Some 1100000); (ValuePrefix, Some 1000000)] /\
  ends (doGC [x74] endGC 1050000 100 4 0 (mem_store skip_store, 0)) (fun '(r, jobs) s' =>
    cl_data (fst s') = list_to_map skip_store /\ jobs = [] /\
    exists cur, tick_next r = Some cur /\
      forall w, o_UserId w = o_UserId skip_object -> o_Db w = o_Db skip_object -> 0 < o_TTL w ->
        blt (GetTTLValueBytes w) cur).
Proof.
  split; [vm_compute; reflexivity|].
  eapply ends_mono.
  - apply (gc_skips_values [x74] 1050000 100 4 0 (mem_store skip_store, 0) (fst skip_entry) (snd skip_entry)
             (tl (index [x74] endGC (mem_store skip_store, 0))) skip_object).
    + exact quiet_alone.
    + reflexivity.
    + vm_compute. reflexivity.
    + vm_compute. reflexivity.
    + vm_compute. discriminate.
    + vm_compute. split; [discriminate|reflexivity].
  - intros [r jobs] s' (E&Ej&Hc). split; [rewrite E; reflexivity|]. exact (conj Ej Hc).
Defined.

(** ** A live key that is collected *)

(** The sample transaction at another time. *)
Definition mem_txn_at (now : Z) (l : list (bytes * bytes)) : Txn := {|
  t_txn := t_txn (mem_txn l);
  t_Multi := false; t_Watch := false; t_Exec := false; t_Err := None; t_PendingErr := false;
  t_Timestamp := Z.shiftl now 18; t_Now := now; t_ListLID := 0; t_ListRID := 0;
  t_Config := Some mem_config; t_UserId := 1; t_DBId := 0; t_PendingReq := []; t_draws := 0
|}.

Definition after_at {A} (now : Z) (m : M A) (l : list (bytes * bytes)) : list (bytes * bytes) :=
  default [] (out_view (m (mem_txn_at now l))).

Definition collected_at (now : Z) (l : list (bytes * bytes)) : list (bytes * bytes) :=
  match doGC [x74] endGC now 100 4 0 (mem_store l, 0) with
  | Finished _ s => data_of s
  | _ => []
  end.

(** SET k 1 EX 10; after 20 seconds, SET k 2, which finds the key expired and leaves
    the entry of the old expiry in the index; the next round of the collector takes
    that entry at its word and deletes the new key, which has no expiry. *)
Lemma gc_deletes_live_key :
  let l1 := after_at 1000000 (SetHandle (words ["k"; "1"; "EX"; "10"])) [] in
  let l2 := after_at 1020000 (SetHandle (words ["k"; "2"])) l1 in
  let l3 := collected_at 1030000 l2 in
  out_value (GetHandle (words ["k"]) (mem_txn_at 1020001 l2)) = Some (RBulk (bs "2")) /\
  out_value (TTLHandle (words ["k"]) (mem_txn_at 1020001 l2)) = Some (RInt (-1)) /\
  out_value (GetHandle (words ["k"]) (mem_txn_at 1030001 l3)) = Some RNil.
Proof. vm_compute. repeat split. Qed.

(** ** The protocol *)

Lemma readCommands_pipeline_witness :
  readCommands (concat (encode_command <$> [words ["SET"; "k"; "1"]; words ["GET"; "k"]])
                ++ bs "*1" ++ CRLF ++ bs "$4")
  = inr ([words ["SET"; "k"; "1"]; words ["GET"; "k"]], bs "*1" ++ CRLF ++ bs "$4").
Proof.
  apply (readCommands_pipeline _ (words ["PING"]) _ (CRLF ++ bs "PING" ++ CRLF)).
  - repeat constructor; vm_compute; discriminate.
  - repeat constructor; vm_compute; discriminate.
  - vm_compute. reflexivity.
  - discriminate.
Defined.

Lemma reply_framing_witness :
  exists resp,
    ReadNextRESP (AppendAny [] (RArr [RInt (-7); RArr [RBulk [LF]; RNil]; RStatus "OK"]) ++ bs "$1")
    = Some (len (AppendAny [] (RArr [RInt (-7); RArr [RBulk [LF]; RNil]; RStatus "OK"])), resp) /\
    Raw resp = AppendAny [] (RArr [RInt (-7); RArr [RBulk [LF]; RNil]; RStatus "OK"]) /\ Type_ resp <> x00.
Proof.
  apply (reply_framing (RArr [RInt (-7); RArr [RBulk [LF]; RNil]; RStatus "OK"]) (bs "$1")).
  - repeat split; vm_compute; discriminate.
  - vm_compute. split; discriminate.
Defined.
