(* ===== verification/ListSamples.v ===== *)
(** The theorems about lists, and what the code does outside them, at a store with one
    list. *)

From stdpp Require Import sorting.
From S2P Require Import Prelude Xerror GoStd Utils Float Store Ranges Mem Object Reply.
From S2P Require Import ObjectSpec Counters Generic GenericSpec Strings HashCmd SetCmd HashSpec.
From S2P Require Import Rank ListA ListB ListCmd ListSpec RankSpec TypeSpec Samples.
From Stdlib Require Import Init.Byte.

#[local] Open Scope Z_scope.

(** RPUSH l a b c d. *)
Definition list_store : list (bytes * bytes) :=
  Eval vm_compute in after (RPushHandle [bs "l"; bs "a"; bs "b"; bs "c"; bs "d"]) string_store.

(** A transaction that has pushed those elements itself. *)
Definition l_store : Txn := with_list_ids 0 4 (mem_txn list_store).
Definition l_object : Object := object_of list_store (bs "l").

Lemma l_ready : ready mem_config l_store.
Proof. apply ready_ids, mem_ready. vm_compute. reflexivity. Qed.
Lemma l_holds : holds mem_config l_store (bs "l") AListType l_object.
Proof. split; [vm_compute; reflexivity..|]. intros _. vm_compute. reflexivity. Qed.
Lemma l_elems : elems (dv l_store) l_object = [bs "a"; bs "b"; bs "c"; bs "d"].
Proof. vm_compute. reflexivity. Qed.

Definition l_fields : list bytes :=
  Eval vm_compute in drop (length (value_prefix l_object)) <$> (fst <$> entries (dv l_store) l_object).

Lemma l_field f v : fields (dv l_store) l_object f = Some v -> f ∈ l_fields.
Proof.
  intros Hf%field_entry. assert (f = drop (length (value_prefix l_object)) (GetValueBytes l_object f)) as ->
    by by rewrite GetValueBytes_app, drop_app_length.
  replace l_fields with (drop (length (value_prefix l_object)) <$> (fst <$> entries (dv l_store) l_object))
    by (vm_compute; reflexivity).
  apply list_elem_of_fmap. eexists. split; [done|]. apply list_elem_of_fmap. by exists (GetValueBytes l_object f, v).
Qed.

Lemma l_keys (P : bytes -> bool) : forallb P l_fields = true ->
  forall f v, fields (dv l_store) l_object f = Some v -> P f = true.
Proof. intros Hp f v Hf%l_field. rewrite forallb_forall in Hp. apply Hp. by apply list_elem_of_In. Qed.

Lemma l_room : room l_store l_object.
Proof.
  split; [vm_compute; by split|vm_compute; split; discriminate|vm_compute; by split|..].
  - intros f v Hf. apply bytes_ltb_spec. revert f v Hf. apply l_keys. vm_compute. reflexivity.
  - intros f v Hf. apply bytes_ltb_spec.
    apply (l_keys (fun f => bytes_ltb f (right_key (t_Timestamp l_store) (t_ListRID l_store)))) with v; [|done].
    vm_compute. reflexivity.
Qed.

(** Discharges the side conditions of a theorem at the list. *)
Ltac at_list :=
  lazymatch goal with
  | |- ready _ _ => exact l_ready
  | |- holds _ _ _ _ _ => exact l_holds
  | |- room _ _ => exact l_room
  | |- good_header _ _ _ => vm_compute; exact eq_refl || exact I
  | |- _ <> _ => vm_compute; discriminate
  | |- Forall _ _ => repeat constructor
  | |- _ <= _ => vm_compute; discriminate
  | |- _ => vm_compute; reflexivity
  end.

Lemma l_entries_ok : forallb (fun e => len (value_prefix l_object) <=? len (fst e))
  (range_entries (value_prefix l_object) (Bytes.PrefixNext (value_prefix l_object)) (dv l_store)) = true.
Proof. vm_compute. reflexivity. Qed.

Lemma l_tidy : tidy (dv l_store) l_object.
Proof.
  intros e He%list_elem_of_In. pose proof l_entries_ok as Hb. rewrite forallb_forall in Hb.
  by apply Z.leb_le, Hb.
Qed.

Lemma l_keys_ok : keys_ok (dv l_store) l_object.
Proof.
  intros f v Hf. unfold field_ok. apply Z.ltb_lt. revert f v Hf.
  apply (l_keys (fun f => len f <? _)). vm_compute. reflexivity.
Qed.


(** RPOP l 3. *)
Lemma pophandle_refines_witness :
  holds mem_config l_store (bs "l") AListType l_object /\
  wp (pophandle [bs "l"; bs "3"] (pop_command false)) l_store (fun r t' =>
    r = bulks [bs "d"; bs "c"; bs "b"] /\ elems (dv t') l_object = [bs "a"]).
Proof.
  split; [exact l_holds|].
  eapply wp_mono; [apply (pophandle_refines mem_config l_store (bs "l") false (Some 3) _ l_object)|];
    [at_list..|exact l_keys_ok|exact l_tidy|at_list| |].
  - split; [done|]. exists (bs "3"). split; [done|]. vm_compute. reflexivity.
  - cbv zeta. rewrite l_elems. intros r t' (->&->&_). split; reflexivity.
Defined.



(** ** What the code does elsewhere *)

Definition run {A} (m : M A) (l : list (bytes * bytes)) : option A := out_value (m (mem_txn l)).

(** The first index in the back half, the second counted from the end: [LRANGE l 3 -1] is [d] in Redis. *)
Lemma lrange_mixed :
  run (LRangeHandle [bs "l"; bs "3"; bs "-1"]) list_store = Some (bulks [bs "c"]) /\
  range_ref (elems (dv l_store) l_object) 3 (-1) = [bs "d"].
Proof. split; [vm_compute; reflexivity|]. rewrite l_elems. reflexivity. Qed.

(** The first index counted from the end, the second from the front. *)
Lemma lrange_mixed_back :
  run (LRangeHandle [bs "l"; bs "-2"; bs "3"]) list_store = Some (bulks [bs "c"]) /\
  range_ref (elems (dv l_store) l_object) (-2) 3 = [bs "c"; bs "d"].
Proof. split; [vm_compute; reflexivity|]. rewrite l_elems. reflexivity. Qed.

(** LSET replaces an element and counts one more. *)
Lemma lset_counts :
  run (let! _ := LSetHandle [bs "l"; bs "1"; bs "x"] in LLenHandle [bs "l"]) list_store = Some (RInt 5) /\
  run (let! _ := LSetHandle [bs "l"; bs "1"; bs "x"] in LRangeHandle [bs "l"; bs "0"; bs "10"]) list_store
  = Some (bulks [bs "a"; bs "x"; bs "c"; bs "d"]).
Proof. split; vm_compute; reflexivity. Qed.

(** LTRIM with indexes from different ends keeps elements outside the range. *)
Lemma ltrim_mixed :
  run (let! _ := LTrimHandle [bs "l"; bs "-2"; bs "10"] in LRangeHandle [bs "l"; bs "0"; bs "10"]) list_store
  = Some (bulks [bs "a"; bs "b"; bs "c"; bs "d"]).
Proof. vm_compute. reflexivity. Qed.

(** The MAXLEN option makes LRANGE panic. *)
Definition is_panic {A} (o : Out A) : bool := match o with Panic => true | _ => false end.

Lemma maxlen_panics :
  is_panic (LRangeHandle [bs "l"; bs "0"; bs "1"; bs "MAXLEN"; bs "10"] (mem_txn list_store)) = true.
Proof. vm_compute. reflexivity. Qed.

(** The reply of a push is the number of elements pushed. *)
Lemma push_reply :
  run (RPushHandle [bs "m"; bs "x"; bs "y"]) list_store = Some (RInt 2) /\
  run (let! _ := RPushHandle [bs "m"; bs "x"; bs "y"] in RPushHandle [bs "m"; bs "z"]) list_store = Some (RInt 1).
Proof. split; vm_compute; reflexivity. Qed.

(** The numbers of the elements that a transaction pushes are cut to 16 bits: the 32769th
    pushed to the back sorts before the first, and the 32770th pushed to the front behind it. *)
Lemma push_wraps :
  bytes_ltb (right_key 5 (2 ^ 15)) (right_key 5 0) = true /\
  bytes_ltb (left_key 5 0) (left_key 5 (2 ^ 15 + 1)) = true.
Proof. split; vm_compute; reflexivity. Qed.
