(* ===== verification/ZSetSamples.v ===== *)
(** The theorems about sorted sets, and what the code does outside them, at a store with
    one sorted set. *)

From stdpp Require Import sorting.
From S2P Require Import Prelude Xerror GoStd Utils Float Strconv Store Ranges Mem Object Reply.
From S2P Require Import ObjectSpec Counters Generic GenericSpec Strings HashCmd SetCmd HashSpec.
From S2P Require Import Rank ListA ListB ListCmd ListSpec ZSet ZSetSpec ZRangeSpec Samples ListSamples.
From Stdlib Require Import Init.Byte.

#[local] Open Scope Z_scope.

(** ZADD z 2.5 b 1 a -3 d 2.5 c. *)
Definition zset_store : list (bytes * bytes) :=
  Eval vm_compute in after
    (ZAddHandle [bs "z"; bs "2.5"; bs "b"; bs "1"; bs "a"; bs "-3"; bs "d"; bs "2.5"; bs "c"]) string_store.

Definition z_store : Txn := mem_txn zset_store.
Definition z_object : Object := object_of zset_store (bs "z").
Definition z_fields : bytes -> option bytes := fields (dv z_store) z_object.

Lemma z_ready : ready mem_config z_store.
Proof. apply mem_ready. vm_compute. reflexivity. Qed.

Section check.
Context {P : float64 -> Prop} (ok : float64 -> bool) (Hok : forall s, in_u64 s -> ok s = true -> P s).

Definition check_field (g : bytes -> option bytes) (f : bytes) : bool :=
  match f with
  | x6d :: m =>
      match score_of g m with
      | Some s => (0 <=? s) && (s <? 2 ^ 64) && ok s && bool_decide (is_Some (g (score_key s m)))
      | None => false
      end
  | x73 :: r =>
      match DecodeFloat r with
      | Some s => (0 <=? s) && (s <? 2 ^ 64) && bool_decide (score_of g (drop 8 r) = Some s) &&
                  bool_decide (f = score_key s (drop 8 r))
      | None => false
      end
  | _ => false
  end.

(** The entries of a finite map are consistent when each of them passes the check. *)
Lemma check_scores_ok g : (forall f, is_Some (g f) -> check_field g f = true) -> scores_ok P g.
Proof.
  intros Hc.
  assert (forall m b, g (EncodeMemberKey m) = Some b -> exists s, score_of g m = Some s /\ P s /\
    is_Some (g (score_key s m))) as Hmem.
  { intros m b Hb. pose proof (Hc (EncodeMemberKey m)) as H1. rewrite Hb in H1. specialize (H1 (mk_is_Some _ _ eq_refl)).
    unfold check_field, EncodeMemberKey in H1. change MemberPrefix with x6d in H1. cbv iota in H1.
    destruct (score_of g m) as [s|]; [|done]. exists s. rewrite !andb_true_iff in H1.
    destruct H1 as [[[H1 H2] H3] H4]. split; [done|]. split; [apply Hok; [unfold in_u64; lia|done]|].
    by apply bool_decide_eq_true in H4. }
  split.
  - intros m b Hb. destruct (Hmem m b Hb) as (s&Hs&HP&_). exists s. unfold score_of in Hs. by rewrite Hb in Hs.
  - intros s m Hs. split.
    + intros Hf. apply Hc in Hf. change (score_key s m) with (x73 :: (EncodeFloat s ++ m)) in Hf. unfold check_field in Hf.
      rewrite DecodeFloat_EncodeFloat in Hf by done. rewrite !andb_true_iff in Hf. destruct Hf as [[_ Hf] _].
      apply bool_decide_eq_true in Hf. by rewrite (drop_app_length' (EncodeFloat s) m 8) in Hf by by rewrite length_EncodeFloat.
    + intros Hf. pose proof Hf as Hf'. unfold score_of in Hf. destruct (g (EncodeMemberKey m)) as [b|] eqn:E; [|done].
      destruct (Hmem m b E) as (s'&Hs'&_&Hm). congruence.
  - intros f Hf. apply Hc in Hf. destruct f as [|x f]; [done|]. destruct x; try done.
    + exists f. by left.
    + unfold check_field in Hf. destruct (DecodeFloat f) as [s|]; [|done]. rewrite !andb_true_iff in Hf.
      destruct Hf as [[[H1 H2] _] Hf]. apply bool_decide_eq_true in Hf. exists (drop 8 f). right. exists s.
      split; [unfold in_u64; lia|done].
Qed.

End check.

(** The fields an object of a store has. *)
Definition stored_fields (l : list (bytes * bytes)) (o : Object) : list bytes :=
  drop (length (value_prefix o)) <$> (fst <$> entries (dv (mem_txn l)) o).

Lemma elem_of_stored_fields l o f : is_Some (fields (dv (mem_txn l)) o f) -> f ∈ stored_fields l o.
Proof.
  intros [v Hf%field_entry]. unfold stored_fields.
  assert (f = drop (length (value_prefix o)) (GetValueBytes o f)) as E by by rewrite GetValueBytes_app, drop_app_length.
  rewrite E. apply list_elem_of_fmap. eexists. split; [done|]. apply list_elem_of_fmap. by exists (GetValueBytes o f, v).
Qed.

Lemma stored_scores_ok {P} ok l o : (forall s, in_u64 s -> ok s = true -> P s) ->
  forallb (check_field ok (fields (dv (mem_txn l)) o)) (stored_fields l o) = true ->
  scores_ok P (fields (dv (mem_txn l)) o).
Proof.
  intros Hok Hb. apply (check_scores_ok ok Hok). intros f Hf%elem_of_stored_fields.
  rewrite forallb_forall in Hb. apply Hb. by apply list_elem_of_In.
Qed.

Definition check_number (s : float64) : bool := negb (isNaN s).
Lemma stored_zset_ok l o :
  forallb (check_field check_number (fields (dv (mem_txn l)) o)) (stored_fields l o) = true ->
  zset_ok (fields (dv (mem_txn l)) o).
Proof.
  apply stored_scores_ok. intros s Hs Hn. split; [done|]. unfold check_number in Hn. by destruct (isNaN s).
Qed.

(** The members of a store in order. *)
Definition check_order (g : bytes -> option bytes) (L : list scored) (f : bytes) : bool :=
  match score_of g (drop 1 f) with
  | Some s => bool_decide ((s, drop 1 f) ∈ L)
  | None => true
  end.

Lemma stored_in_order l o L :
  StronglySorted zlt L ->
  forallb (fun e => bool_decide (score_of (fields (dv (mem_txn l)) o) (snd e) = Some (fst e))) L = true ->
  forallb (check_order (fields (dv (mem_txn l)) o) L) (stored_fields l o) = true ->
  in_order (zscores o (mem_txn l)) L.
Proof.
  intros Hs H1 H2. rewrite forallb_forall in H1, H2. split; [done|]. intros s m. unfold zscores. split.
  - intros Hi%list_elem_of_In%H1. by apply bool_decide_eq_true in Hi.
  - intros Hm. assert (EncodeMemberKey m ∈ stored_fields l o) as Hk.
    { apply elem_of_stored_fields. unfold score_of in Hm. by destruct (fields _ _ _). }
    apply list_elem_of_In, H2 in Hk. unfold check_order in Hk. change (drop 1 (EncodeMemberKey m)) with m in Hk.
    rewrite Hm in Hk. by apply bool_decide_eq_true in Hk.
Qed.

Lemma z_ok : zset_ok z_fields.
Proof. apply stored_zset_ok. vm_compute. reflexivity. Qed.

Lemma z_holds : zholds mem_config z_store (bs "z") z_object.
Proof.
  split; [vm_compute; reflexivity..|exact z_ok|]. intros _. vm_compute. reflexivity.
Qed.

Definition f_3 : float64 := 4613937818241073152.
Definition z_members : list scored :=
  Eval vm_compute in
    (fun m => (default 0 (score_of z_fields m), m)) <$> [bs "d"; bs "a"; bs "b"; bs "c"].

Lemma z_in_order : in_order (zscores z_object z_store) z_members.
Proof. apply stored_in_order; [repeat constructor|vm_compute; reflexivity..]. Qed.

(** Discharges the side conditions of a theorem at the sorted set. *)
Ltac at_zset :=
  lazymatch goal with
  | |- ready _ _ => exact z_ready
  | |- zholds _ _ _ _ => exact z_holds
  | |- in_order _ _ => exact z_in_order
  | |- good_header _ _ _ => vm_compute; exact eq_refl || exact I
  | |- _ <> _ => discriminate
  | |- Forall _ _ => repeat constructor
  | |- _ /\ _ => split; at_zset
  | |- _ <= _ => vm_compute; discriminate
  | |- _ => vm_compute; reflexivity
  end.

(** ZADD z GT CH 0 b 4 d 7 e: [b] keeps its score. *)
Lemma ZAddHandle_refines_witness :
  zholds mem_config z_store (bs "z") z_object /\
  wp (ZAddHandle [bs "z"; bs "GT"; bs "CH"; bs "0"; bs "b"; bs "4"; bs "d"; bs "7"; bs "e"]) z_store (fun r t' =>
    r = RInt 2 /\ zholds mem_config t' (bs "z") z_object /\ zcard (dv t') z_object = 5).
Proof.
  split; [exact z_holds|].
  pose proof (ZAddHandle_refines mem_config z_store (bs "z") z_object
    [bs "GT"; bs "CH"; bs "0"; bs "b"; bs "4"; bs "d"; bs "7"; bs "e"]
    (mkCheck CheckGT true false) [bs "0"; bs "b"; bs "4"; bs "d"; bs "7"; bs "e"]
    [(bs "b", 0); (bs "d", 4616189618054758400); (bs "e", 4619567317775286272)]) as Hw.
  assert (fst (zadd_all (mkCheck CheckGT true false)
    [(bs "b", 0); (bs "d", 4616189618054758400); (bs "e", 4619567317775286272)] (zscores z_object z_store)) = (2, 1)) as E
    by (vm_compute; reflexivity).
  destruct (zadd_all _ _ _) as [[n g] z] in Hw, E. cbn [fst] in E. injection E as -> ->.
  eapply wp_mono; [apply Hw; at_zset|]. intros r t' (->&Ha&Hh). split; [done|]. split; [done|].
  rewrite (za_card _ _ _ _ _ _ Ha). vm_compute. reflexivity.
Defined.

(** ZINCRBY z 1.5 a. *)
Lemma ZIncrByHandle_refines_witness :
  zholds mem_config z_store (bs "z") z_object /\
  wp (ZIncrByHandle [bs "z"; bs "1.5"; bs "a"]) z_store (fun r t' =>
    r = RFloat 4612811918334230528 /\ zholds mem_config t' (bs "z") z_object).
Proof.
  split; [exact z_holds|].
  eapply wp_mono; [apply (ZIncrByHandle_refines mem_config z_store (bs "z") z_object (bs "1.5") (bs "a")
    4609434218613702656); at_zset|].
  assert (zincr_sum 4609434218613702656 (zscores z_object z_store (bs "a")) = 4612811918334230528) as E
    by (vm_compute; reflexivity).
  rewrite E. change (isNaN 4612811918334230528) with false. intros r t' (->&Hh&_). split; [reflexivity|exact Hh].
Defined.

(** ZREM z c nope a. *)
Lemma ZRemHandle_refines_witness :
  zholds mem_config z_store (bs "z") z_object /\
  wp (ZRemHandle [bs "z"; bs "c"; bs "nope"; bs "a"]) z_store (fun r t' =>
    r = RInt 2 /\ zholds mem_config t' (bs "z") z_object).
Proof.
  split; [exact z_holds|].
  eapply wp_mono; [apply (ZRemHandle_refines mem_config z_store (bs "z") z_object [bs "c"; bs "nope"; bs "a"]); at_zset|].
  intros r t' (->&Hh&_). split; [vm_compute; reflexivity|done].
Defined.

Lemma from_minus_3 `{Platform} t : checkMinMaxScore (bs "(-3") (bs "inf") t =
  Ret (inr (mkInterval 13837309855095848960 (float_inf false) false true)) t.
Proof. vm_compute. reflexivity. Qed.

Lemma limit_1_2 `{PlatformSpec} c t : ready c t ->
  checkZRangeOption [bs "LIMIT"; bs "1"; bs "2"; bs "WITHSCORES"] t = Ret (inr (mkRange 1 2 true false BYRANK)) t.
Proof.
  intros Hr. unfold checkZRangeOption, on_value, bind at 1. rewrite (get_config_run c) by done.
  cbn [zrange_options]. change (lower_is (bs "LIMIT") "withscores") with false.
  change (lower_is (bs "LIMIT") "limit") with true. cbv iota. unfold on_value, checkLimit.
  change (Int.GetNonnegativeInt64 (arg 1 [bs "LIMIT"; bs "1"; bs "2"])) with (1, None : option error).
  change (Int.GetNonnegativeInt64 (arg 2 [bs "LIMIT"; bs "1"; bs "2"])) with (2, None : option error).
  change ((len [bs "LIMIT"; bs "1"; bs "2"] <? 2) || (len [bs "LIMIT"; bs "1"; bs "2"] >? 3)) with false.
  change (len [bs "LIMIT"; bs "1"; bs "2"] =? 3) with true. cbv iota.
  unfold bind at 1 2 3. rewrite (get_config_run c) by done. reflexivity.
Qed.

(** ZRANGEBYSCORE z (-3 inf LIMIT 1 2 WITHSCORES. *)
Lemma ZRangeByScoreHandle_range_witness :
  zholds mem_config z_store (bs "z") z_object /\
  wp (ZRangeByScoreHandle [bs "z"; bs "(-3"; bs "inf"; bs "LIMIT"; bs "1"; bs "2"; bs "WITHSCORES"]) z_store
    (fun r t' => r = RArr [RBulk (bs "b"); RFloat 4612811918334230528; RBulk (bs "c"); RFloat 4612811918334230528]).
Proof.
  split; [exact z_holds|].
  eapply wp_mono; [apply (ZRangeByScoreHandle_range mem_config z_store (bs "z") z_object z_members (bs "(-3") (bs "inf")
    [bs "LIMIT"; bs "1"; bs "2"; bs "WITHSCORES"]
    (mkInterval 13837309855095848960 (float_inf false) false true) (mkRange 1 2 true false BYRANK));
    [at_zset|at_zset|at_zset|at_zset|at_zset|apply from_minus_3|apply (limit_1_2 mem_config), z_ready|at_zset..]|].
  intros r t' [_ ->]. vm_compute. reflexivity.
Defined.

(** ** What the code does elsewhere *)

(** An empty upper bound panics; an empty lower bound is an error. *)
Lemma zcount_empty_bound :
  is_panic (ZCountHandle [bs "z"; bs "0"; []] (mem_txn zset_store)) = true /\
  run (ZCountHandle [bs "z"; []; bs "0"]) zset_store = Some (RErr ErrInvalidFloat).
Proof. split; vm_compute; reflexivity. Qed.

(** An INCR that changes nothing replies nil, not the score. *)
Lemma zadd_incr_zero :
  run (ZAddHandle [bs "z"; bs "INCR"; bs "0"; bs "a"]) zset_store = Some RNil /\
  run (ZIncrByHandle [bs "z"; bs "0"; bs "a"]) zset_store = Some (RFloat fone).
Proof. split; vm_compute; reflexivity. Qed.

(** A score of -0 lies below the range that starts at 0. *)
Lemma negative_zero_excluded :
  run (let! _ := ZAddHandle [bs "y"; bs "-0"; bs "m"] in ZCountHandle [bs "y"; bs "0"; bs "1"]) []
  = Some (RInt 0) /\
  real_interval (mkInterval 0 fone true true) (2 ^ 63) = true.
Proof. split; vm_compute; reflexivity. Qed.

(** Infinite scores are not found by the range that names them. *)
Lemma infinite_minimum_empty :
  run (let! _ := ZAddHandle [bs "y"; bs "inf"; bs "m"] in
       ZRangeByScoreHandle [bs "y"; bs "inf"; bs "+inf"]) [] = Some (RArr []).
Proof. vm_compute. reflexivity. Qed.

(** The largest offset wraps around and skips nothing. *)
Lemma largest_offset :
  run (ZRangeByScoreHandle [bs "z"; bs "-inf"; bs "0"; bs "LIMIT"; bs "9223372036854775807"; bs "5"]) zset_store
  = Some (RArr [RBulk (bs "d")]).
Proof. vm_compute. reflexivity. Qed.

(** A negative count on a missing key asks for a random number below 0. *)
Lemma zrandmember_missing :
  is_panic (ZRandMemberHandle [bs "nope"; bs "-1"] (mem_txn zset_store)) = true.
Proof. vm_compute. reflexivity. Qed.

(** ZPOPMIN, ZRANGE by rank and its store, and the removals by range. *)
Lemma zset_commands :
  run (let! r := ZPopMinHandle [bs "z"] in let! n := ZCardHandle [bs "z"] in ret (r, n)) zset_store
  = Some (RArr [RBulk (bs "d"); RFloat 13837309855095848960], RInt 3) /\
  run (ZRangeHandle [bs "z"; bs "0"; bs "-2"; bs "REV"]) zset_store
  = Some (bulks [bs "c"; bs "b"; bs "a"]) /\
  run (let! _ := ZAddHandle [bs "z"; bs "2.5"; bs "b"; bs "1"; bs "a"; bs "-3"; bs "d"; bs "2.5"; bs "c"] in
       let! n := ZRangeStoreHandle [bs "y"; bs "z"; bs "[b"; bs "+"; bs "BYLEX"] in
       let! r := ZRangeHandle [bs "y"; bs "0"; bs "5"] in ret (n, r)) []
  = Some (RInt 3, bulks [bs "d"; bs "b"; bs "c"]) /\
  run (let! n := ZRemRangeByScoreHandle [bs "z"; bs "1"; bs "(2.5"] in
       let! r := ZRankHandle [bs "z"; bs "c"] in ret (n, r)) zset_store = Some (RInt 1, RInt 2).
Proof. split_and!; vm_compute; reflexivity. Qed.
