(* ===== verification/AlgebraSamples.v ===== *)
(** The theorems about the algebra of sets and sorted sets at concrete stores. *)

From stdpp Require Import sorting.
From S2P Require Import Prelude Xerror GoStd Utils Float Strconv Store Ranges Mem Object.
From S2P Require Import Reply ObjectSpec Counters Generic GenericSpec Strings HashCmd Rank.
From S2P Require Import ZSet SetCmd Heap SetAlgebra ZAlgebra HashSpec ZSetSpec.
From S2P Require Import SetAlgebraSpec ZAlgebraSpec Samples ZSetSamples.
From Stdlib Require Import Init.Byte.

#[local] Open Scope Z_scope.

(** SADD a x y and the empty member, SADD b z x, SADD c with the empty member only. *)
Definition sets_store : list (bytes * bytes) :=
  Eval vm_compute in after
    (let! _ := SAddHandle [bs "a"; bs "y"; bs "x"; []] in
     let! _ := SAddHandle [bs "b"; bs "z"; bs "x"] in
     SAddHandle [bs "c"; []]) string_store.

Definition is_set_b (t : Txn) (k : bytes) : bool :=
  (len k <? MAX_KEY_SIZE - 13) &&
  match dv t !! hkey t k with
  | Some v => match snd (ObjectDecode v (the_object mem_config t UnknownType k)) with None => true | _ => false end
  | None => true
  end &&
  match find mem_config t (dv t) k with
  | None => true
  | Some o =>
      beq (o_Type o) SetType &&
      forallb (fun e => len (value_prefix o) <=? len (fst e))
        (range_entries (value_prefix o) (Bytes.PrefixNext (value_prefix o)) (t_view t))
  end.

Lemma is_set_b_spec t k : is_set_b t k = true -> is_set mem_config t k.
Proof.
  unfold is_set_b, is_set, key_ok, good_header. intros [[H1%Z.ltb_lt H2]%andb_true_iff H3]%andb_true_iff.
  split; [done|]. split.
  - destruct (dv t !! hkey t k); [|done]. by destruct (snd _).
  - destruct (find mem_config t (dv t) k) as [o|]; [|done].
    apply andb_true_iff in H3 as [H3 H4]. split; [by apply bool_decide_eq_true in H3|].
    intros e He%list_elem_of_In. rewrite forallb_forall in H4. by apply Z.leb_le, H4.
Qed.

Lemma all_sets ks : forallb (is_set_b (mem_txn sets_store)) ks = true ->
  Forall (is_set mem_config (mem_txn sets_store)) ks.
Proof.
  rewrite forallb_forall, Forall_forall. intros Hk k Hin. apply is_set_b_spec, Hk. by apply list_elem_of_In.
Qed.

Lemma sets_ready : ready mem_config (mem_txn sets_store).
Proof. apply mem_ready. vm_compute. reflexivity. Qed.

(** The union with a missing key, and of the empty member alone. *)
Lemma SUnionHandle_union_witness :
  (exists u, StronglySorted blt u /\
    (forall m, m ∈ u <-> exists k, k ∈ [bs "b"; bs "nope"; bs "a"] /\ m ∈ set_of mem_config (mem_txn sets_store) k) /\
    SUnionHandle [bs "b"; bs "nope"; bs "a"] (mem_txn sets_store)
    = Ret (bulks (if decide (u = [[]]) then [] else u)) (mem_txn sets_store)) /\
  out_value (SUnionHandle [bs "b"; bs "nope"; bs "a"] (mem_txn sets_store))
  = Some (bulks [[]; bs "x"; bs "y"; bs "z"]) /\
  out_value (SUnionHandle [bs "c"; bs "c"] (mem_txn sets_store)) = Some (bulks []).
Proof.
  split; [|split; vm_compute; reflexivity].
  apply (SUnionHandle_union mem_config); [exact sets_ready|discriminate|].
  apply all_sets. vm_compute. reflexivity.
Defined.

(** The empty member of the first set comes back although the second lacks it. *)
Lemma SInterHandle_inter_witness :
  SInterHandle [bs "a"; bs "b"] (mem_txn sets_store) = Ret (bulks [[]; bs "x"]) (mem_txn sets_store).
Proof.
  etrans; [apply (SInterHandle_inter mem_config)|].
  - exact sets_ready.
  - apply all_sets. vm_compute. reflexivity.
  - apply (bool_decide_unpack _). vm_compute. exact I.
  - vm_compute. reflexivity.
  - apply (f_equal (fun r => Ret r (mem_txn sets_store))). vm_compute. reflexivity.
Defined.

(** The empty member of the first set is left out although the second lacks it. *)
Lemma SDiffHandle_diff_witness :
  SDiffHandle [bs "a"; bs "b"; bs "nope"] (mem_txn sets_store) = Ret (bulks [bs "y"]) (mem_txn sets_store).
Proof.
  etrans; [apply (SDiffHandle_diff mem_config)|].
  - exact sets_ready.
  - apply all_sets. vm_compute. reflexivity.
  - apply (bool_decide_unpack _). vm_compute. exact I.
  - vm_compute. reflexivity.
  - apply (f_equal (fun r => Ret r (mem_txn sets_store))). vm_compute. reflexivity.
Defined.

(** ZADD z 2.5 b 1 a, ZADD y 1 b 4 e, SADD s x. *)
Definition two_zsets : list (bytes * bytes) :=
  Eval vm_compute in after
    (let! _ := ZAddHandle [bs "z"; bs "2.5"; bs "b"; bs "1"; bs "a"] in
     let! _ := ZAddHandle [bs "y"; bs "1"; bs "b"; bs "4"; bs "e"] in
     SAddHandle [bs "s"; bs "x"]) string_store.

Lemma two_zset_keys : Forall (zset_key mem_config (mem_txn two_zsets)) [bs "z"; bs "y"; bs "none"].
Proof.
  assert (forall k, k = bs "z" \/ k = bs "y" -> zset_key mem_config (mem_txn two_zsets) k) as Hz.
  { intros k Hk. split; [by destruct Hk as [-> | ->]|]. split; [destruct Hk as [-> | ->]; vm_compute; exact eq_refl|].
    destruct Hk as [-> | ->]; [set (o := object_of two_zsets (bs "z"))|set (o := object_of two_zsets (bs "y"))];
      replace (find _ _ _ _) with (Some o) by (vm_compute; reflexivity);
      (split; [vm_compute; reflexivity|apply stored_zset_ok; vm_compute; reflexivity]). }
  apply Forall_cons. split; [apply Hz; by left|]. apply Forall_cons. split; [apply Hz; by right|].
  apply Forall_singleton. split; [done|]. split; [vm_compute; exact I|].
  by replace (find _ _ _ _) with (@None Object) by (vm_compute; reflexivity).
Qed.

Definition one_two_one : list float64 := Eval vm_compute in default [] (parse_weights [bs "1"; bs "2"; bs "1"]).
Definition zunion_options : zsetOptions :=
  {| za_num := 3; za_weights := one_two_one; za_getType := Z.lor BothKV SumAGG |}.

Lemma zunion_options_read t :
  checkZsetOptions ([bs "3"; bs "z"; bs "y"; bs "none"] ++ [bs "weights"; bs "1"; bs "2"; bs "1"; bs "withscores"]) t
  = Ret (inr zunion_options) t.
Proof.
  unfold checkZsetOptions.
  replace (Int.GetPositiveInt _) with (3, @None error) by (vm_compute; reflexivity). cbv beta iota zeta.
  change (i64 (3 + 1)) with 4. change (len _ <? 4) with false. change (4 <? 0) with false. cbv beta iota.
  replace (zset_options _ _ _ _) with (@inr error _ (add_type BothKV
    (set_weights (za_weights zunion_options) {| za_num := 3; za_weights := []; za_getType := OnlyKey |}), false))
    by (vm_compute; reflexivity).
  reflexivity.
Qed.

(** ZUNION 3 z y none WEIGHTS 1 2 1 WITHSCORES. *)
Lemma ZUnionHandle_merges_witness :
  Forall (zset_key mem_config (mem_txn two_zsets)) [bs "z"; bs "y"; bs "none"] /\
  exists es : list (bytes * Number), (forall m, m ∈ fst <$> es <->
      exists k, k ∈ [bs "z"; bs "y"; bs "none"] /\ is_Some (score_in mem_config (mem_txn two_zsets) k m)) /\
    exists r, ZUnionHandle ([bs "3"; bs "z"; bs "y"; bs "none"] ++
      [bs "weights"; bs "1"; bs "2"; bs "1"; bs "withscores"]) (mem_txn two_zsets) = Ret r (mem_txn two_zsets).
Proof.
  split; [exact two_zset_keys|].
  destruct (ZUnionHandle_merges mem_config (mem_txn two_zsets) (bs "3") [bs "z"; bs "y"; bs "none"]
    [bs "weights"; bs "1"; bs "2"; bs "1"; bs "withscores"] zunion_options) as (es&_&Hm&_&Hrun).
  - at_sample.
  - apply zunion_options_read.
  - reflexivity.
  - exact two_zset_keys.
  - exists es. split; [exact Hm|]. eexists. exact Hrun.
Defined.

(** ZDIFF 1 y WITHSCORES has no scores, and ZDIFFSTORE of one key panics on it. *)
Lemma zdiff_single :
  out_value (ZDiffHandle [bs "1"; bs "y"; bs "withscores"] (mem_txn two_zsets)) = Some (RArr [RBulk (bs "b"); RBulk (bs "e")]) /\
  match ZDiffStoreHandle [bs "d"; bs "1"; bs "y"] (mem_txn two_zsets) with Panic => true | _ => false end = true.
Proof. split; vm_compute; reflexivity. Qed.

(** The number of keys may be the largest integer. *)
Lemma zunion_num_wraps :
  match ZUnionHandle [bs "9223372036854775807"; bs "y"] (mem_txn two_zsets) with Panic => true | _ => false end = true.
Proof. vm_compute. reflexivity. Qed.

(** ZDIFF takes a set first but not after. *)
Lemma zdiff_set_second :
  out_value (ZDiffHandle [bs "2"; bs "s"; bs "y"] (mem_txn two_zsets)) = Some (RArr [RBulk (bs "x")]) /\
  out_value (ZDiffHandle [bs "2"; bs "y"; bs "s"] (mem_txn two_zsets)) = Some (RErr (WrongTypeErr : error)).
Proof. split; vm_compute; reflexivity. Qed.

(** ZINTER 2 z y WEIGHTS 2 3 WITHSCORES. *)
Example zinter_weighs :
  match ZInterHandle [bs "2"; bs "z"; bs "y"; bs "weights"; bs "2"; bs "3"; bs "withscores"] (mem_txn two_zsets) with
  | Ret (RArr [RBulk m; s]) _ => bool_decide (m = bs "b")
  | _ => false
  end = true.
Proof. vm_compute. reflexivity. Qed.
