(* ===== verification/GeoSamples.v ===== *)
(** The theorems about places, and what the code does outside them, at a store with one
    geo key on the small planet. *)

From stdpp Require Import sorting.
From S2P Require Import Prelude Xerror GoStd Utils Float Strconv Store Ranges Mem Object Reply.
From S2P Require Import ObjectSpec Counters Generic GenericSpec Strings HashCmd SetCmd HashSpec.
From S2P Require Import Rank ListA ListB ListCmd ListSpec ZSet ZSetSpec ZRangeSpec Geo GeoSpec.
From S2P Require Import SampleLibs Samples ListSamples ZSetSamples.
From Stdlib Require Import Init.Byte.

#[local] Open Scope Z_scope.

(** GEOADD g 10 20 a 12 21 b -70 40 c. *)
Definition geo_store : list (bytes * bytes) :=
  Eval vm_compute in after
    (GeoAddHandle [bs "g"; bs "10"; bs "20"; bs "a"; bs "12"; bs "21"; bs "b"; bs "-70"; bs "40"; bs "c"]) string_store.

Definition g_store : Txn := mem_txn geo_store.
Definition g_object : Object := object_of geo_store (bs "g").

Lemma g_ready : ready mem_config g_store.
Proof. apply mem_ready. vm_compute. reflexivity. Qed.

(** A cell of the planet is that of its own place. *)
Definition check_cell (s : float64) : bool :=
  EncodeCellID (DecodeCellID (EncodeFloatUint s)) =? EncodeFloatUint s.

Lemma g_ok : scores_ok cell_score (fields (dv g_store) g_object).
Proof.
  apply (stored_scores_ok check_cell); [|vm_compute; reflexivity].
  intros s Hs Hc%Z.eqb_eq. split; [done|]. by eexists.
Qed.

Lemma g_holds : gholds mem_config g_store (bs "g") g_object.
Proof. split; [vm_compute; reflexivity..|exact g_ok|]. intros _. vm_compute. reflexivity. Qed.

Definition g_members : list scored :=
  Eval vm_compute in
    (fun m => (default 0 (score_of (fields (dv g_store) g_object) m), m)) <$> [bs "a"; bs "b"; bs "c"].

Lemma g_in_order : in_order (zscores g_object g_store) g_members.
Proof. apply stored_in_order; [repeat constructor|vm_compute; reflexivity..]. Qed.

(** Discharges the side conditions of a theorem at the geo key. *)
Ltac at_geo :=
  lazymatch goal with
  | |- ready _ _ => exact g_ready
  | |- gholds _ _ _ _ => exact g_holds
  | |- in_order _ _ => exact g_in_order
  | |- Covers => exact sample_covers
  | |- geo_region _ = _ => reflexivity
  | |- forall m, _ => intros ? [= <-]; at_geo
  | |- good_header _ _ _ => vm_compute; exact eq_refl || exact I
  | |- _ <> _ => discriminate
  | |- Forall _ _ => repeat constructor
  | |- _ <= _ => vm_compute; discriminate
  | |- _ => vm_compute; reflexivity
  end.

(** GEOADD g CH 30 5 d 11 20 a: one member is new, one moves. *)
Definition two_places : list (bytes * Number) :=
  Eval vm_compute in
    match geo_places [bs "30"; bs "5"; bs "d"; bs "11"; bs "20"; bs "a"] [] with inr ms => ms | inl _ => [] end.

Lemma GeoAddHandle_refines_witness :
  gholds mem_config g_store (bs "g") g_object /\
  wp (GeoAddHandle [bs "g"; bs "CH"; bs "30"; bs "5"; bs "d"; bs "11"; bs "20"; bs "a"]) g_store (fun r t' =>
    r = RInt 2 /\ gholds mem_config t' (bs "g") g_object /\ zcard (dv t') g_object = 4).
Proof.
  split; [exact g_holds|].
  pose proof (GeoAddHandle_refines mem_config g_store (bs "g") g_object
    [bs "CH"; bs "30"; bs "5"; bs "d"; bs "11"; bs "20"; bs "a"] (mkCheck 0 true false)
    [bs "30"; bs "5"; bs "d"; bs "11"; bs "20"; bs "a"] two_places) as Hw.
  assert (fst (put_all (fun q => cell_step (mkCheck 0 true false) (Uint64 q)) two_places (cells g_object g_store)) = (2, 1))
    as E by (vm_compute; reflexivity).
  destruct (put_all _ _ _) as [[n g] z] in Hw, E. cbn [fst] in E. injection E as -> ->.
  eapply wp_mono; [apply Hw; at_geo|]. intros r t' (->&_&Hh&Hc). split; [done|]. split; [done|].
  rewrite Hc. vm_compute. reflexivity.
Defined.

(** GEOSEARCH g FROMMEMBER a BYRADIUS 30000 km ASC: five degrees hold [b], but not [c]. *)
Definition around_a : geoOption :=
  Eval vm_compute in
    match checkGeoOption [bs "FROMMEMBER"; bs "a"; bs "BYRADIUS"; bs "30000"; bs "km"; bs "ASC"] None with
    | inr (opt, _) => opt
    | inl _ => geo_zero
    end.
Definition centre_a : geoOption :=
  Eval vm_compute in default geo_zero (centred g_object g_store (Some (bs "a")) around_a).
Definition region_a : Region := CapRegion (go_Center centre_a) (fmul (default 0 (go_ByRadius centre_a)) (go_Unit centre_a)).

Lemma GeoSearchHandle_finds_witness :
  gholds mem_config g_store (bs "g") g_object /\
  wp (GeoSearchHandle [bs "g"; bs "FROMMEMBER"; bs "a"; bs "BYRADIUS"; bs "30000"; bs "km"; bs "ASC"]) g_store
    (fun r t' => t' = g_store /\ exists positions, r = RArr (geo_reply centre_a <$> geo_select centre_a positions) /\
      (exists i, i ∈ positions /\ gi_Member i = bs "b") /\ ~ exists i, i ∈ positions /\ gi_Member i = bs "c").
Proof.
  split; [exact g_holds|].
  eapply wp_mono; [apply (GeoSearchHandle_finds mem_config g_store (bs "g") g_object g_members
    [bs "FROMMEMBER"; bs "a"; bs "BYRADIUS"; bs "30000"; bs "km"; bs "ASC"] around_a (Some (bs "a")) centre_a region_a);
    at_geo|].
  intros r t' [-> (ps&->&Hps)]. split; [done|]. exists ps. split; [done|].
  assert (cells g_object g_store (bs "b") = Some 113856) as Eb by (vm_compute; reflexivity).
  assert (cells g_object g_store (bs "c") = Some 133230) as Ec by (vm_compute; reflexivity).
  split.
  - exists (geo_info centre_a (bs "b") 113856). split; [|done]. apply Hps. exists (bs "b"), 113856.
    split; [exact Eb|]. split; [vm_compute; reflexivity|done].
  - intros (i&(m&id&Hm&Hr&->)%Hps&Hc). cbn [geo_info gi_Member] in Hc. subst m. rewrite Ec in Hm. injection Hm as <-.
    vm_compute in Hr. discriminate.
Defined.

(** ** What the code does outside the theorems *)

(** A latitude that is not a number passes: the test for it tests the longitude. Nothing
    compares with it, so that the bounds do not refuse it either. *)
Example nan_latitude_accepted :
  checkGeoLocation [bs "10"; bs "nan"] = inr {| Lat := float_nan; Lng := 4621819117588971520 |} /\
  checkGeoLocation [bs "nan"; bs "10"] = inl (ErrInvalidFloat : error).
Proof. vm_compute. auto. Qed.

(** The error for coordinates out of range names them in the wrong order. *)
Example invalid_pair_swapped :
  checkGeoLocation [bs "200.5"; bs "10"] =
  inl (Redis (RedisNew "ERR invalid longitude,latitude pair 10.000000,200.500000")).
Proof. vm_compute. reflexivity. Qed.

(** STORE is read, and conflicts with WITHDIST, but nothing is stored: the reply is that
    of the search. *)
Example store_ignored :
  out_value (GeoRadiusHandle [bs "g"; bs "10"; bs "20"; bs "1"; bs "m"; bs "STORE"; bs "dst"] g_store) =
    Some (RArr [RBulk (bs "a")]) /\
  out_view (GeoRadiusHandle [bs "g"; bs "10"; bs "20"; bs "1"; bs "m"; bs "STORE"; bs "dst"] g_store) =
    Some geo_store.
Proof. split; vm_compute; reflexivity. Qed.

(** An unknown unit is a meter. *)
Example unknown_unit : toMeter (bs "parsec") = fone.
Proof. reflexivity. Qed.
