(* ===== verification/BlockSamples.v ===== *)
(** The theorems about commands that wait, and BLMOVE, at stores without and with a list. *)

From stdpp Require Import sorting.
From S2P Require Import Prelude Xerror GoStd Utils Float Strconv Store Ranges Mem Object Reply.
From S2P Require Import ObjectSpec Counters Generic GenericSpec Strings HashCmd SetCmd HashSpec.
From S2P Require Import Rank ListA ListB ListCmd ListSpec ZSet Block BlockSpec Samples ListSamples.
From Stdlib Require Import Init.Byte.

#[local] Open Scope Z_scope.

Definition no_list : Txn := mem_txn string_store.

Definition tick_on (l : list (bytes * bytes)) (ms : Z) : event :=
  Tick false None (mem_store l) (NowTime no_list + ms * Millisecond).

Lemma opened_mem l : opened no_list (mem_store l) = mem_txn l.
Proof. reflexivity. Qed.

Lemma no_list_waiting : waiting mem_config [bs "l"] no_list.
Proof.
  split; [at_sample|]. constructor; [|constructor]. split; [done|]. split; [at_sample|].
  vm_compute. reflexivity.
Qed.

Lemma idle_no_list ms : idle_tick mem_config [bs "l"] no_list (tick_on string_store ms).
Proof.
  split; [done|]. split; [done|]. split; [by eexists|]. rewrite opened_mem. exact no_list_waiting.
Qed.

Definition two : float64 := Eval vm_compute in default 0 (ParseFloat (bs "2")).
Lemma two_parses : ParseFloat (bs "2") = Some two.
Proof. vm_compute. reflexivity. Qed.

Lemma list_ready : ready mem_config (mem_txn list_store).
Proof. at_sample. Qed.
Lemma list_held : holds mem_config (mem_txn list_store) (bs "l") AListType l_object.
Proof. split; [vm_compute; reflexivity..|]. intros _. vm_compute. reflexivity. Qed.

(** RPUSH 1 a. *)
Definition one_store : list (bytes * bytes) :=
  Eval vm_compute in after (RPushHandle [bs "1"; bs "a"]) string_store.

(** BRPOP l 2, when the list appears between the first and the second tick. *)
Lemma block_pop_serves_witness :
  waiting mem_config [bs "l"] no_list /\
  wp (block false [tick_on string_store 100; tick_on list_store 200] (NowTime no_list) [bs "l"] (bs "2"))
    no_list (fun r t' => r = RArr [RBulk (bs "l"); RBulk (bs "d")] /\
      elems (dv t') l_object = [bs "a"; bs "b"; bs "c"]).
Proof.
  split; [exact no_list_waiting|].
  eapply wp_mono.
  - eapply (block_pop_serves mem_config false) with (ks1 := []) (ks2 := []) (second := two)
      (pre := [tick_on string_store 100]) (o := l_object) (x := bs "d") (xs := [bs "c"; bs "b"; bs "a"]).
    + discriminate.
    + exact two_parses.
    + reflexivity.
    + exact no_list_waiting.
    + reflexivity.
    + vm_compute. reflexivity.
    + constructor; [|constructor]. split; [apply idle_no_list|vm_compute; reflexivity].
    + reflexivity.
    + exact list_ready.
    + constructor.
    + done.
    + vm_compute. exact eq_refl.
    + exact list_held.
    + exact l_keys_ok.
    + exact l_tidy.
    + vm_compute. discriminate.
    + vm_compute. reflexivity.
  - by intros r t' [-> ->].
Defined.

(** BLPOP l 2, on a store without lists for two seconds: twenty ticks of the timer. *)
Lemma block_pop_ends_witness :
  waiting mem_config [bs "l"] no_list /\
  wp (block true (tick_on string_store <$> (Z.mul 100 <$> seqZ 1 20)) (NowTime no_list) [bs "l"] (bs "2"))
    no_list (fun r t' => r = RNil).
Proof.
  split; [exact no_list_waiting|].
  eapply wp_mono.
  - eapply (block_pop_ends mem_config true) with (second := two).
    + discriminate.
    + discriminate.
    + exact two_parses.
    + reflexivity.
    + vm_compute. reflexivity.
    + exact no_list_waiting.
    + reflexivity.
    + done.
    + apply Forall_fmap, Forall_true. intros ms. apply idle_no_list.
    + intros i e He. apply list_lookup_fmap_Some in He as (ms&->&Hm).
      apply list_lookup_fmap_Some in Hm as (z&->&Hz). apply lookup_seqZ in Hz as [-> Hi].
      change (pull_interval (duration two)) with (100 * Millisecond). cbn [tick_on clock].
      unfold Millisecond. lia.
    + vm_compute. discriminate.
  - by intros r t' [-> _].
Defined.

(** BLMOVE src dst LEFT RIGHT l takes the element from the list that its timeout names. *)
Lemma BlMove_pops_timeout :
  out_value (BlMoveHandle [] 0 [bs "none"; bs "dst"; bs "left"; bs "right"; bs "1"] (mem_txn one_store))
  = Some (RBulk (bs "a")).
Proof. vm_compute. reflexivity. Qed.
