(* ===== verification/StreamSamples.v ===== *)
(** Streams at a store with one stream, and what the code does at the edges. *)

From stdpp Require Import sorting.
From S2P Require Import Prelude Xerror GoStd Utils Store Ranges Mem Client Object Reply.
From S2P Require Import ObjectSpec Counters Generic GenericSpec Strings StringsSpec HashSpec Stream.
From S2P Require Import StreamSpec ListSpec Samples ListSamples.
From Stdlib Require Import Init.Byte.

#[local] Open Scope Z_scope.

Definition xadd_x (args : list string) : M reply := XADDHandle (bs "x" :: (bs <$> args)).

Definition stream_store : list (bytes * bytes) :=
  Eval vm_compute in after
    (let! _ := xadd_x ["*"; "f"; "1"] in let! _ := xadd_x ["*"; "f"; "2"] in xadd_x ["*"; "f"; "1"])%string string_store.
Definition x_store : Txn := mem_txn stream_store.
Definition x_object : Object := object_of stream_store (bs "x").

Lemma x_ready : ready mem_config x_store.
Proof. apply mem_ready. vm_compute. reflexivity. Qed.

Lemma x_found : find mem_config x_store (dv x_store) (bs "x") = Some x_object.
Proof. vm_compute. reflexivity. Qed.

(** The consistency of a stored stream, entry by entry. *)
Definition counter_ok (e : bytes * bytes) : bool :=
  negb (bool_decide (is_count (fst e))) ||
  match DecodeCount (count_of_entry []) (snd e) with
  | Some c => (0 <=? c_Value c) && (c_Value c <=? MaxInt64) && (len (c_UserValue c) =? 8)
  | None => false
  end.
Definition message_ok (t : Txn) (o : Object) (e : bytes * bytes) : bool :=
  match decodeMessageKey (drop (length (value_prefix o)) (fst e)) with
  | inr (p, n) =>
      bool_decide (fst e = GetValueBytes o (encodeMessageKeyOffset p n)) && (0 <=? p) && (p <? 2 ^ 16) &&
      (1 <=? n) && (n <=? fst (tally t o p)) && bool_decide (is_Some (message_of (snd e)))
  | inl _ => false
  end.

Lemma check_stream l o :
  let t := mem_txn l in
  o_Type o = StreamType -> len (sl (o_Value o)) <= 16 -> 0 < o_Hash o < 2 ^ 16 ->
  forallb counter_ok l = true -> forallb (message_ok t o) (entries (dv t) o) = true -> stream_ok t o.
Proof.
  intros t Ht Hv Hh Hc Hm. split; [done|done|lia| |].
  - intros p b _ Hb. apply elem_of_list_to_map_2, list_elem_of_In in Hb. rewrite forallb_forall in Hc.
    specialize (Hc _ Hb). unfold counter_ok in Hc. cbn [fst snd] in Hc.
    rewrite bool_decide_eq_true_2 in Hc by apply shard_counter_count. cbn [negb orb] in Hc.
    destruct (DecodeCount _ b) as [c|]; [|done]. exists c. split; [done|]. rewrite !andb_true_iff in Hc. lia.
  - intros f v Hf%field_entry. rewrite forallb_forall in Hm. apply list_elem_of_In in Hf. specialize (Hm _ Hf).
    unfold message_ok in Hm. cbn [fst snd] in Hm. destruct (decodeMessageKey _) as [|[p n]]; [done|].
    rewrite !andb_true_iff, !bool_decide_eq_true in Hm. destruct Hm as (((((E&?)&?)&?)&?)&Hs).
    exists p, n. split; [by apply GetValueBytes_inj in E|]. split; [|split; [lia|done]].
    unfold is_shard. destruct (Z.gtb_spec (o_Hash o) 0); lia.
Qed.

Lemma x_ok : stream_ok x_store x_object.
Proof. apply check_stream; vm_compute; first [reflexivity|discriminate|split; [reflexivity|reflexivity]]. Qed.

Definition x_message : bytes := Eval vm_compute in
  match Marshal [bs "f"; bs "1"] with inr m => m | inl _ => [] end.

Lemma XADDHandle_appends_witness :
  stream_ok x_store x_object /\
  wp (XADDHandle [bs "x"; bs "*"; bs "f"; bs "1"]) x_store (fun r t' =>
    r = RBulk (bs "2-3") /\ stream_ok t' x_object /\ fst (tally t' x_object 2) = 3).
Proof.
  split; [exact x_ok|].
  assert (shard_of x_object x_message = 2) as Hp by (vm_compute; reflexivity).
  assert (fst (tally x_store x_object 2) = 2) as Hn by (vm_compute; reflexivity).
  eapply wp_mono.
  - apply (XADDHandle_appends mem_config x_store (bs "x") x_object [bs "f"; bs "1"] x_message);
      [exact x_ready|at_sample|at_sample|exact x_found|exact x_ok|at_sample|at_sample|at_sample|
       vm_compute; split; reflexivity|rewrite Hp, Hn; discriminate].
  - intros r t'. rewrite Hp, Hn. intros (->&Hok&_&_&Ht&_). split; [vm_compute; reflexivity|]. by split.
Defined.

Lemma xadd_options_refused_witness :
  xadd_option (bs "MaxLen") = true /\
  match xadd [bs "x"; bs "MaxLen"; bs "5"; bs "*"; bs "f"; bs "1"] x_store with
  | Ret (RErr e, None) t' => t' = with_Err (Some e) x_store
  | Panic => True
  | _ => False
  end.
Proof.
  split; [vm_compute; reflexivity|].
  apply (xadd_options_refused (bs "x") (bs "MaxLen") [bs "5"; bs "*"; bs "f"; bs "1"] x_store);
    [vm_compute; reflexivity|vm_compute; discriminate].
Defined.

Lemma XRangeHandle_lists_witness :
  stream_ok x_store x_object /\
  exists l, StronglySorted message_lt l /\ XRangeHandle [bs "x"; bs "-"; bs "+"] x_store = Ret (RArr (message_reply <$> l)) x_store.
Proof.
  split; [exact x_ok|].
  pose proof (XRangeHandle_lists mem_config x_store (bs "x") x_object (bs "-") (bs "+") [] 100 (-1) 0 (-1)
    x_ready ltac:(at_sample) ltac:(at_sample) x_found x_ok ltac:(at_sample) ltac:(at_sample) ltac:(at_sample) ltac:(at_sample)) as Ht.
  assert ((let '(start, end_) := xrange_range x_object (-1) 0 (-1) in
           forallb (fun e => (length (value_prefix x_object) <=? length (fst e))%nat)
             (range_entries start end_ (t_view x_store)) &&
           negb (100 <=? len (range_entries start end_ (t_view x_store)))) = true) as Hlt by (vm_compute; reflexivity).
  destruct (xrange_range x_object (-1) 0 (-1)) as [start end_]. apply andb_true_iff in Hlt as [Hlong Hlt].
  destruct Ht as (l&Hs&_&E).
  - intros k v Hin. rewrite forallb_forall in Hlong. apply list_elem_of_In, Hlong in Hin. by apply Nat.leb_le.
  - exists l. split; [exact Hs|]. rewrite E. apply negb_true_iff in Hlt. by rewrite Hlt.
Defined.

(** The listing in the order of partitions and numbers; it fails when it reaches COUNT. *)
Lemma xrange_sample :
  run (XRangeHandle [bs "x"; bs "-"; bs "+"]) stream_store =
  Some (RArr [message_reply (2, 1, [bs "f"; bs "1"]); message_reply (2, 2, [bs "f"; bs "1"]);
              message_reply (15, 1, [bs "f"; bs "2"])]) /\
  run (XRangeHandle [bs "x"; bs "2-2"; bs "+"]) stream_store = Some (RArr [message_reply (2, 2, [bs "f"; bs "1"])]) /\
  run (XRangeHandle [bs "x"; bs "-"; bs "+"; bs "COUNT"; bs "3"]) stream_store = Some (RErr ReachLimit).
Proof. repeat split; vm_compute; reflexivity. Qed.

(** An identifier chosen by the client: the number in the reply is that of the counter,
    not the one asked for. *)
Lemma xadd_own_number :
  run (xadd_x ["2-7"; "f"; "1"]%string) stream_store = Some (RBulk (bs "2-3")).
Proof. vm_compute. reflexivity. Qed.

(** Partition 0 has two counters, so a message that names it replaces one that fell into
    it by itself. *)
Lemma xadd_partition_zero :
  run (let! _ := xadd_x ["*"; "f"; "g"]%string in let! _ := xadd_x ["0"; "f"; "b"]%string in
       XRangeHandle [bs "x"; bs "0"; bs "+"]) stream_store =
  Some (RArr [message_reply (0, 1, [bs "f"; bs "b"])]).
Proof. vm_compute. reflexivity. Qed.

(** NOMKSTREAM makes the handler index past its arguments. *)
Lemma xadd_nomkstream_panics :
  match XADDHandle [bs "x"; bs "NOMKSTREAM"; bs "*"; bs "f"; bs "1"] x_store with Panic => true | _ => false end = true.
Proof. vm_compute. reflexivity. Qed.

(** XGROUP CREATE looks for the group under the key of the stream. *)
Lemma xgroup_wrong_key :
  run (XCreateHandle [bs "x"; bs "g"; bs "$"]) stream_store = Some (RErr (WrongTypeErr : error)).
Proof. vm_compute. reflexivity. Qed.

(** FSUBSCRIBE takes a partition modulo 2^16. *)
Lemma fsubscribe_wraps :
  run (FSubscribeHandle [bs "x"; bs "65537"]) stream_store = run (FSubscribeHandle [bs "x"; bs "1"]) stream_store.
Proof. vm_compute. reflexivity. Qed.
