(* ===== verification/ValueSamples.v ===== *)
(** The theorems about bits, HyperLogLogs and scans at concrete stores. *)

From stdpp Require Import sorting.
From S2P Require Import Prelude Xerror GoStd Utils Float Glob Bitmap Store Ranges Mem.
From S2P Require Import Object Reply ObjectSpec Counters Generic GenericSpec Strings.
From S2P Require Import StringsSpec BitCmd HashCmd Scan Hll SetCmd HashSpec ListSpec.
From S2P Require Import BitSpec HllSpec Samples ListSamples.
From Stdlib Require Import Init.Byte.

#[local] Open Scope Z_scope.

(** The string is [41], the bits 00110100 00110001. *)
Lemma SetBitHandle_sets_witness :
  ready mem_config (mem_txn string_store) /\
  wp (SetBitHandle [bs "k"; bs "9"; bs "1"]) (mem_txn string_store) (fun r t' =>
    r = RInt 0 /\ exists new o, find mem_config (mem_txn string_store) (dv t') (bs "k") = Some o /\
      o_Value o = Some new /\ len new = 2 /\ bit_at new 9 = true /\ bit_at new 2 = true).
Proof.
  split; [by apply mem_ready|].
  eapply wp_mono; [apply (SetBitHandle_sets mem_config (bs "k") (bs "9") (bs "1") 9 true);
    first [solve [at_sample]|by vm_compute]|].
  intros r t' Hm. cbv zeta in Hm. live_string string_found Hm.
  destruct Hm as (-> & new & (_ & _ & Hf) & Hl & Hb). split; [vm_compute; reflexivity|].
  exists new. eexists. rewrite Hf. unfold upd. rewrite decide_True by done. split; [reflexivity|]. split; [reflexivity|].
  split_and!; [rewrite Hl; vm_compute; reflexivity|by rewrite Hb|rewrite Hb by done; vm_compute; reflexivity].
Defined.

Lemma BitPosHandle_first_witness :
  ready mem_config (mem_txn string_store) /\
  wp (BitPosHandle [bs "k"; bs "1"]) (mem_txn string_store) (fun r t' => r = RInt 2).
Proof.
  split; [by apply mem_ready|].
  eapply wp_mono; [apply (BitPosHandle_first mem_config (bs "k") (bs "1") true);
    first [solve [at_sample]|by vm_compute]|].
  intros r t' Hm. cbv zeta in Hm. live_string string_found Hm.
  destruct Hm as (_ & p & -> & Hp). f_equal.
  assert (bit_at (sl (old_string mem_config (mem_txn string_store) (bs "k"))) 2 = true) as H2 by (vm_compute; reflexivity).
  assert (bit_at (sl (old_string mem_config (mem_txn string_store) (bs "k"))) 0 = false) as H0 by (vm_compute; reflexivity).
  assert (bit_at (sl (old_string mem_config (mem_txn string_store) (bs "k"))) 1 = false) as H1 by (vm_compute; reflexivity).
  assert (8 * len (sl (old_string mem_config (mem_txn string_store) (bs "k"))) = 16) as H3 by (vm_compute; reflexivity).
  generalize dependent (sl (old_string mem_config (mem_txn string_store) (bs "k"))). intros v Hp H2 H0 H1 H3.
  destruct Hp as [(Hr & Hp & Hlt)|(-> & Hn)].
  - destruct (decide (p = 0)) as [->|]; [congruence|]. destruct (decide (p = 1)) as [->|]; [congruence|].
    destruct (decide (2 < p)); [|lia]. rewrite Hlt in H2 by lia. done.
  - rewrite Hn in H2 by lia. done.
Defined.

(** BITOP, BITCOUNT with a range, and the reply of a bit that stays. *)
Lemma bit_commands :
  run (let! _ := SetBitHandle [bs "b"; bs "20"; bs "1"] in
       let! n := BitOpHandle [bs "or"; bs "d"; bs "k"; bs "b"] in
       let! v := GetHandle [bs "d"] in ret (n, v)) string_store
  = Some (RInt 3, RBulk (bs "41" ++ [x08])) /\
  run (BitCountHandle [bs "k"; bs "0"; bs "0"]) string_store = Some (RInt 3) /\
  run (SetBitHandle [bs "k"; bs "2"; bs "1"]) string_store = Some (RInt 1).
Proof. split_and!; vm_compute; reflexivity. Qed.

(** BITCOUNT without arguments panics: its test asks for fewer than one and more than three. *)
Lemma bitcount_no_arguments : is_panic (BitCountHandle [] (mem_txn string_store)) = true.
Proof. vm_compute. reflexivity. Qed.

(** A missing source of BITOP AND is passed over, not taken as zeros; and a result that is
    empty leaves the destination as it was. *)
Lemma bitop_missing_source :
  run (let! n := BitOpHandle [bs "and"; bs "d"; bs "k"; bs "none"] in
       let! v := GetHandle [bs "d"] in ret (n, v)) string_store = Some (RInt 2, RBulk (bs "41")) /\
  run (let! n := BitOpHandle [bs "and"; bs "k"; bs "none"; bs "none"] in
       let! v := GetHandle [bs "k"] in ret (n, v)) string_store = Some (RInt 0, RBulk (bs "41")).
Proof. split; vm_compute; reflexivity. Qed.

(** BITFIELD takes the type of a field for the next word, so every field is refused. *)
Lemma bitfield_refused :
  run (BitFieldHandle [bs "k"; bs "GET"; bs "u8"; bs "0"]) string_store = Some (RErr ErrSyntax) /\
  run (BitFieldHandle [bs "k"]) string_store = Some (RArr []).
Proof. split; vm_compute; reflexivity. Qed.

(** The bitmap for a number of bits that is no multiple of 64 lacks its last word. *)
Lemma bitmap_short : (b ← Bitmap.New 100; Bitmap.Add b 99) = None.
Proof. vm_compute. reflexivity. Qed.

Definition pf_store : list (bytes * bytes) :=
  Eval vm_compute in after
    (let! _ := PfAddHandle [bs "p"; bs "a"; bs "b"] in PfAddHandle [bs "q"; bs "b"; bs "c"]) string_store.
Definition pf_txn : Txn := mem_txn pf_store.
Definition p_object : Object := object_of pf_store (bs "p").
Definition q_object : Object := object_of pf_store (bs "q").

Definition entry_ok (p : nat) (e : bytes * bytes) : bool :=
  let f := drop p (fst e) in bool_decide (length f = 2%nat) && (be_get f <? 4096).

Lemma check_hll l o :
  let t := mem_txn l in
  store_ok l = true -> collection t o ->
  forallb (entry_ok (length (value_prefix o))) (entries (dv t) o) = true ->
  forallb (fun e => has_prefix (value_prefix o) (fst e)) (range_entries (value_prefix o) (Bytes.PrefixNext (value_prefix o)) (dv t)) = true ->
  hll_ok mem_config t o.
Proof.
  intros t Hl Hc He Hr. split; [by apply mem_ready|done| | |by vm_compute].
  - intros f [v Hv%field_entry]. rewrite forallb_forall in He. apply list_elem_of_In, He in Hv.
    unfold entry_ok in Hv. cbn [fst] in Hv. rewrite GetValueBytes_app, drop_app_length in Hv.
    apply andb_true_iff in Hv as [Hf Hb]. apply bool_decide_eq_true in Hf. exists (be_get f).
    pose proof (be_get_range f). rewrite <- Hf, be_put_get. split; [done|lia].
  - intros k [v Hv] L1 L2. rewrite forallb_forall in Hr. apply (Hr (k, v)), list_elem_of_In.
    apply elem_of_range_entries. split; [done|]. split; [done|]. by rewrite below_PrefixNext, bytes_ltb_spec.
Qed.

Lemma p_sketched : sketched mem_config pf_txn (bs "p") p_object.
Proof.
  split; [at_sample|at_sample|vm_compute; reflexivity|vm_compute; reflexivity|].
  apply check_hll; [vm_compute; reflexivity|split; vm_compute; reflexivity|vm_compute; reflexivity|vm_compute; reflexivity].
Qed.
Lemma q_sketched : sketched mem_config pf_txn (bs "q") q_object.
Proof.
  split; [at_sample|at_sample|vm_compute; reflexivity|vm_compute; reflexivity|].
  apply check_hll; [vm_compute; reflexivity|split; vm_compute; reflexivity|vm_compute; reflexivity|vm_compute; reflexivity].
Qed.

Lemma PfAddHandle_raises_witness :
  sketched mem_config pf_txn (bs "p") p_object /\
  wp (PfAddHandle [bs "p"; bs "b"; bs "c"]) pf_txn (fun r t' =>
    r = RInt 1 /\ stored_reg (dv t') p_object (index_of 16 (bs "c")) = rho_of 16 (bs "c")).
Proof.
  split; [exact p_sketched|].
  eapply wp_mono; [apply (PfAddHandle_raises mem_config pf_txn (bs "p") [bs "b"; bs "c"] p_object p_sketched)|].
  intros r t' (->&_&Hr). split; [vm_compute; reflexivity|].
  rewrite Hr by (vm_compute; split; [discriminate|reflexivity]). vm_compute. reflexivity.
Defined.

Lemma PfMergeHandle_merges_witness :
  sketched mem_config pf_txn (bs "p") p_object /\
  wp (PfMergeHandle [bs "p"; bs "q"; bs "p"; bs "q"]) pf_txn (fun r t' =>
    r = OK /\ stored_reg (dv t') p_object (index_of 16 (bs "c")) = stored_reg (dv pf_txn) q_object (index_of 16 (bs "c"))).
Proof.
  split; [exact p_sketched|].
  eapply wp_mono.
  - apply (PfMergeHandle_merges mem_config pf_txn (bs "p") p_object
      [(bs "q", q_object); (bs "p", p_object); (bs "q", q_object)] p_sketched); [|discriminate].
    apply Forall_cons; split; [exact q_sketched|]. apply Forall_cons; split; [exact p_sketched|].
    apply Forall_cons; split; [exact q_sketched|]. apply Forall_nil_2.
  - intros r t' (->&_&Hr). split; [reflexivity|].
    rewrite Hr by (vm_compute; split; [discriminate|reflexivity]). vm_compute. reflexivity.
Defined.

(** PFADD of nothing replies 0 although it creates the key. *)
Lemma pfadd_nothing : run (PfAddHandle [bs "new"]) pf_store = Some (RInt 0).
Proof. vm_compute. reflexivity. Qed.

(** A register above 31 makes its power of two 0 in 32 bits, the sum infinite and the
    estimate 0. *)
Lemma estimate_wraps :
  let m := 64 in
  estimate (alpha_of m) m (replicate 64 x01) = 91 /\
  estimate (alpha_of m) m (x1f :: replicate 63 x01) = 92 /\
  estimate (alpha_of m) m (x20 :: replicate 63 x01) = 0.
Proof. vm_compute. auto. Qed.

(** TiKV's timestamps, and a cache that holds one cursor. *)
Definition tso_cursors (cache : list (bytes * bytes)) : Cursors := {|
  cache_Get k := snd <$> List.find (fun e => bool_decide (fst e = k)) cache;
  ExtractPhysical ts := Z.shiftr ts 18;
  ExtractLogical ts := Z.land ts (2 ^ 18 - 1);
  ComposeTS physical logical := u64 (Z.shiftl physical 18 + logical)
|}.

Definition server_options : scanOptions := mkScan 1 [x2a] false [] [] HashType ServerCursor.
Definition cluster_options : scanOptions := mkScan 1 [x2a] false [] [] HashType ClusterCursor.

Definition scan_txn : Txn := mem_txn hash_store.

Section sample.

#[local] Instance sample_cursors : Cursors := tso_cursors [(bs "h:h:*:150994944", bs "f")].

Lemma page_resumes_witness :
  exists r sets n,
    page server_options HashType (bs "h") 1 (Some (bs "pf")) RNil scan_txn = Ret (r, sets) scan_txn /\
    cursor_of r = Some n /\
    checkCursor server_options n (HashType :: bs ":" ++ bs "h" ++ bs ":" ++ bs "*") (bs "p") scan_txn =
    Ret (inr (Bytes.NextKey (bs "p" ++ bs "f"))) scan_txn.
Proof.
  destruct (page_resumes server_options HashType (bs "h") (bs "p") (bs "f") RNil true scan_txn) as (r&sets&n&Hp&Hn&Hc);
    [discriminate|vm_compute; reflexivity|intros _; vm_compute; split; [reflexivity|discriminate]|].
  exists r, sets, n. split; [exact Hp|]. split; [exact Hn|]. apply Hc. intros k v Hkv.
  assert (out_value (page server_options HashType (bs "h") 1 (Some (bs "pf")) RNil scan_txn) =
    Some (RArr [RGoUint 150994944; RNil], [(bs "h:h:*:150994944", bs "f")])) as E by (vm_compute; reflexivity).
  change (length (bs "p")) with 1%nat in Hp. change (bs "p" ++ bs "f") with (bs "pf") in Hp.
  rewrite Hp in E. injection E as _ ->. apply list_elem_of_singleton in Hkv. injection Hkv as -> ->.
  vm_compute. reflexivity.
Defined.

(** HSCAN a field at a time. *)
Lemma hscan_pages :
  run (HScanHandle [bs "h"; bs "0"; bs "COUNT"; bs "1"; bs "CURSOR"; bs "cluster"]) hash_store
  = Some (RArr [RBulk (bs "Zg=="); bulks [bs "f"; bs "1"]], []) /\
  run (HScanHandle [bs "h"; bs "Zg=="; bs "CURSOR"; bs "cluster"]) hash_store
  = Some (RArr [RGoInt 0; bulks [bs "g"; bs "2"]], []).
Proof. split; vm_compute; reflexivity. Qed.

(** A prefix that ends in a backslash hides the keys that an escape names. *)
Lemma keys_escape :
  run (let! _ := SetHandle [bs "*a"; bs "1"] in KeysHandle [bs "\*a"]) [] = Some (bulks []) /\
  run (let! _ := SetHandle [bs "*a"; bs "1"] in KeysHandle [bs "[*]a"]) [] = Some (bulks [bs "*a"]).
Proof. split; vm_compute; reflexivity. Qed.

(** A cursor continues behind START, not behind the last key. *)
Lemma scan_start_cursor :
  run (let! _ := SetHandle [bs "ab"; bs "1"] in let! _ := SetHandle [bs "ac"; bs "1"] in
       let! _ := SetHandle [bs "ad"; bs "1"] in
       ScanHandle [bs "0"; bs "START"; bs "ab"; bs "COUNT"; bs "1"; bs "CURSOR"; bs "cluster"]) []
  = Some (RArr [RBulk (bs "YWI="); bulks [bs "ab"]], []) /\
  run (let! _ := SetHandle [bs "ab"; bs "1"] in let! _ := SetHandle [bs "ac"; bs "1"] in
       let! _ := SetHandle [bs "ad"; bs "1"] in
       ScanHandle [bs "YWI="; bs "START"; bs "ab"; bs "COUNT"; bs "1"; bs "CURSOR"; bs "cluster"]) []
  = Some (RArr [RBulk (bs "YWM="); bulks [bs "ac"]], []) /\
  run (let! _ := SetHandle [bs "ab"; bs "1"] in let! _ := SetHandle [bs "aba"; bs "1"] in
       ScanHandle [bs "YWI="; bs "START"; bs "ab"; bs "COUNT"; bs "1"; bs "CURSOR"; bs "cluster"]) []
  = Some (RArr [RGoInt 0; bulks []], []).
Proof. split_and!; vm_compute; reflexivity. Qed.

(** A server-side cursor can have number 0, which tells the client that the scan is over. *)
Lemma server_cursor_zero : fst (SetCursorByTimestamp HashType (bs "h") (bs "*") (Z.shiftl 4096 18) (bs "f")) = 0.
Proof. vm_compute. reflexivity. Qed.

End sample.
