(* ===== verification/ServerSamples.v ===== *)
(** The theorems about connections, publish and subscribe and users at concrete nodes, and
    what the code does where operations interleave, a node does not answer or a packet
    holds an error. *)

From stdpp Require Import sorting.
From stdpp Require Import gmap sets fin_sets.
From S2P Require Import Prelude Xerror GoStd Utils Float Strconv Glob Bitmap Sha Store.
From S2P Require Import Ranges Mem Client Object Reply ObjectSpec Transaction.
From S2P Require Import TransactionSpec Pubsub PubsubSpec CommandTable Acl Resp RespSpec.
From S2P Require Import Redcon RedconSpec AclSpec Block ServerCmd ConnCmd Samples ListSamples.
From Stdlib Require Import Init.Byte.

#[local] Open Scope Z_scope.

Definition pass1 : bytes := Eval vm_compute in Sha256Sum (bs "one").
Definition pass2 : bytes := Eval vm_compute in Sha256Sum (bs "two").
Definition alice : User := mkUser 7 (bs "alice") 5 {[pass1; pass2]} no_commands 0.

Lemma no_commands_wf : Bitmap.wf no_commands.
Proof. split; [done|]. by apply Forall_replicate. Qed.

Lemma is_password1 : is_password pass1.
Proof. change pass1 with (Sha256Sum (bs "one")). apply is_password_sha. Qed.
Lemma is_password2 : is_password pass2.
Proof. change pass2 with (Sha256Sum (bs "two")). apply is_password_sha. Qed.

Lemma alice_ok : user_ok alice.
Proof.
  split; cbn [alice u_ID u_Flag u_Commands u_Passwords u_Timestamp]; [lia|lia|apply no_commands_wf|done| | |done].
  - intros p. rewrite elem_of_union, !elem_of_singleton.
    intros [->| ->]; [apply is_password1|apply is_password2].
  - vm_compute. reflexivity.
Qed.

Lemma UserDecode_UserEncode_witness :
  user_ok alice /\ UserDecode (encode_user (rev (elements (u_Passwords alice))) alice) (new_user (bs "alice")) = inr (stored alice).
Proof.
  split; [exact alice_ok|].
  exact (UserDecode_UserEncode alice (rev (elements (u_Passwords alice))) alice_ok (Permutation_sym (Permutation_rev _))).
Defined.

(** [+GET] gives GET and nothing else. *)
Lemma acl_command_sample :
  user_ok alice /\ exists u', aclSetRule ∅ alice (bs "+GET") (mem_txn []) = Ret (inr u') (mem_txn []) /\
    allowed u' "get" /\ ~ allowed u' "set".
Proof.
  split; [exact alice_ok|].
  destruct (acl_command_rule ∅ alice (bs "+GET") true "get" (mkHandler "get" (Method "GetHandle") true false 0 StringType)
    (mem_txn []) alice_ok) as (u'&E&_&_&Ha); [reflexivity|reflexivity|].
  exists u'. split; [exact E|]. rewrite !Ha. split; [by left|]. intros [?|(h&Hh&Hb)]; [done|].
  apply elem_of_bits in Hb. revert Hb. vm_compute in Hh. injection Hh as <-. vm_compute. discriminate.
Defined.

(** ACL SETUSER bob on >pw on a store without users. *)
Definition bob0 : User := mkUser 2 (bs "bob") USER_FLAG_ALLCHANNELS ∅ no_commands 0.
Lemma bob0_ok : user_ok bob0.
Proof.
  split; cbn [bob0 u_ID u_Flag u_Commands u_Passwords u_Timestamp]; [lia|by vm_compute|apply no_commands_wf|done| | |done].
  - set_solver.
  - vm_compute. reflexivity.
Qed.


(** ** What the code does elsewhere *)

Definition user_of (l : list (bytes * bytes)) (m : M (reply * Users)) (name : bytes) : option (reply * option Z) :=
  (fun x : reply * Users => (fst x, u_Flag <$> snd x !! name)) <$> out_value (m (mem_txn l)).

(** A rule that fails: nothing is stored, but the node has enabled the user. *)
Lemma setuser_fails_halfway :
  user_of [] (AclSetUser ∅ [bs "eve"; bs "on"; bs "bad"]) (bs "eve")
  = Some (RErr (WrongModifier "acl setuser" "bad" ErrNotSupport), Some (Z.lor USER_FLAG_ALLCHANNELS USER_FLAG_ENABLED)) /\
  run (let! _ := AclSetUser ∅ [bs "eve"; bs "on"; bs "bad"] in GetUser (bs "eve")) [] = Some (inl KeyNotFound).
Proof. split; vm_compute; reflexivity. Qed.

(** The empty rule panics. *)
Lemma setuser_empty_rule : is_panic (AclSetUser ∅ [bs "eve"; []] (mem_txn [])) = true.
Proof. vm_compute. reflexivity. Qed.

(** A hash in capitals is accepted, although the error for other hashes asks for lower
    case, but it is not what a password is compared with until the users are loaded again. *)
Definition capitals : bytes :=
  Eval vm_compute in (fun b => if (97 <=? b2z b) && (b2z b <=? 102) then z2b (b2z b - 32) else b) <$> Sha256Sum (bs "pw").
Lemma password_in_capitals :
  let users := match out_value (AclSetUser ∅ [bs "eve"; bs "on"; x23 :: capitals] (mem_txn [])) with
               | Some x => snd x | None => ∅ end in
  GetLocalUsers users <> [] /\
  find_auth (GetLocalUsers users) (bs "eve") (Sha256Sum (bs "pw")) = None /\
  find_auth (stored <$> GetLocalUsers users) (bs "eve") (Sha256Sum (bs "pw")) <> None.
Proof. vm_compute. split_and!; [discriminate|reflexivity|discriminate]. Qed.

(** The numbers of users wrap around: after 2^16 - 1 comes 0, and the next user gets 2 again. *)
Lemma user_numbers_wrap :
  run (let! _ := SetUserCount 65535 in let! x := AclSetUser ∅ [bs "x"] in
       let! y := AclSetUser (snd x) [bs "y"] in
       ret (u_ID <$> snd y !! bs "x", u_ID <$> snd y !! bs "y")) [] = Some (Some 65535, Some 2).
Proof. vm_compute. reflexivity. Qed.

(** ACL USERS lists the names from the last to the first. *)
Lemma acl_users_descending :
  run (let! x := AclSetUser ∅ [bs "a"] in let! y := AclSetUser (snd x) [bs "b"] in
       let! z := AclUsers (snd y) [] in ret (fst z)) [] = Some (RArr [RBulk (bs "b"); RBulk (bs "a")]).
Proof. vm_compute. reflexivity. Qed.

#[local] Existing Instance nobody.
#[local] Existing Instance node.
#[local] Existing Instance quiet_clients.
#[local] Existing Instance mem_cluster.

(** ** FLUSHALL *)

(** No cluster: the ranges go through transactions. *)
#[local] Instance no_cluster : PlacementDriver := {|
  PDAddrs := false;
  GetAllStores _ := inr [];
  UnsafeDestroyRange _ _ _ c := (true, c);
  NotifyDeleteRange _ _ _ := None
|}.
Definition root_flush : FlushEnv := {| fl_Root := 1; fl_Permission := true; fl_users := ∅ |}.

(** A hash and a string of user 1, with the hash's counters, and a string of user 2. *)
Definition hash_key : bytes := GetKeyBytes DataPrefix 1 0 KeyPrefix [bs "h"].
Definition other_key : bytes := GetKeyBytes DataPrefix 2 0 KeyPrefix [bs "k"].
Definition flush_store : list (bytes * bytes) := Eval vm_compute in hash_store ++ [(other_key, bs "v")].
Definition flush_data : gmap bytes bytes := list_to_map flush_store.

Lemma flush_all (P : bytes -> Prop) `{!forall k, Decision (P k)} :
  bool_decide (map_Forall (fun k _ => P k) flush_data) = true -> forall k, is_Some (flush_data !! k) -> P k.
Proof. intros Hb k [v Hk]. by apply bool_decide_eq_true in Hb; apply (Hb k v). Qed.

Lemma flush_laid_out : laid_out flush_data.
Proof.
  intros k typo Hk Hin Hh. revert k Hk Hh.
  refine (flush_all (fun k => head k = Some typo -> (4 <= length k)%nat) _).
  destruct Hin as [<-|[<-|[<-|[]]]]; vm_compute; reflexivity.
Qed.

Lemma flush_clears_witness :
  let st := (mem_store flush_store, 0) in
  exists st', FlushAllHandle 100 mem_config root_flush [] (mem_txn []) st = Finished (inr OK) st' /\
    is_Some (flush_data !! hash_key) /\ cl_data (fst st') !! hash_key = None /\
    cl_data (fst st') !! other_key = Some (bs "v").
Proof.
  intros st. destruct (flush_clears 100 mem_config root_flush true [] (mem_txn []) st 1) as (st'&E&_&Hd).
  - reflexivity.
  - exact quiet_alone.
  - reflexivity.
  - reflexivity.
  - apply (flush_all (fun k => len k < MAX_KEY_SIZE)). vm_compute. reflexivity.
  - apply (Nat.ltb_lt _ 100). vm_compute. reflexivity.
  - exact flush_laid_out.
  - left. reflexivity.
  - constructor.
  - vm_compute. split; [discriminate|reflexivity].
  - vm_compute. split; [discriminate|reflexivity].
  - exists st'. split; [exact E|]. split; [vm_compute; by eexists|]. split; rewrite Hd; vm_compute; reflexivity.
Defined.

(** It is one of the handlers that commit transactions of their own. *)
Lemma flush_does_not_keep : ~ keeps (on_client (FlushAllHandle 100 mem_config root_flush)).
Proof.
  intros Hk. specialize (Hk [] (mem_txn []) (mem_store flush_store, 0)).
  assert (match on_client (FlushAllHandle 100 mem_config root_flush) [] (mem_txn []) (mem_store flush_store, 0) with
          | HandlerDone _ _ s' => snd s' <> 0 | HandlerPanicked | HandlerDiverged => False end) as Hs
    by (vm_compute; discriminate).
  destruct (on_client _ _ _ _) as [r t s'| |]; [|done..]. by subst s'.
Qed.

(** ** CLIENT *)

(** Go visits maps in the order of their keys. *)
#[export] Instance map_range_id : MapRange.
Proof. refine {| map_range := fun A l => l |}. done. Defined.

Definition peer (name : string) (user : Z) : Peer :=
  mkPeer (bs name) user (bs "someone") 0 true false None (bs "127.0.0.1:4000") 0 0 [bs "brpop"; bs "l"; bs "0"].
Definition peers : Peers := {[ 3 := peer "" 7; 4 := peer "worker" 8; 5 := peer "worker" 7 ]}.
Definition client_env : ClientEnv :=
  {| ce_Root := 1; ce_Addr := bs "127.0.0.1:6379"; ce_Now := 0; ce_Channels := (0, 0); ce_ID := 3; ce_Multi := false; ce_Pending := 0 |}.

(** User 7 kills the connections called worker: connection 4 stays open. *)
Lemma client_isolated_witness :
  exists s', peers_after (ClientHandle client_env (peer "" 7) (words ["KILL"; "USER"; "worker"]) peers) = Some s' /\
    s' !! 4 = Some (peer "worker" 8).
Proof.
  destruct (peers_after (ClientHandle client_env (peer "" 7) (words ["KILL"; "USER"; "worker"]) peers)) as [s'|] eqn:E;
    [|vm_compute in E; discriminate E].
  exists s'. split; [done|].
  apply (client_isolated client_env (peer "" 7) (words ["KILL"; "USER"; "worker"]) peers s' 4 (peer "worker" 8));
    [reflexivity|vm_compute; discriminate|exact E|reflexivity|vm_compute; discriminate].
Defined.

(** It stays open because the command is refused there, after connection 5 was closed. *)
Example kill_refused_halfway :
  match ClientHandle client_env (peer "" 7) (words ["KILL"; "USER"; "worker"]) peers with
  | Refused e s => Some (pr_closed <$> s !! 5, pr_closed <$> s !! 4)
  | _ => None
  end = Some (Some true, Some false).
Proof. vm_compute. reflexivity. Qed.

(** CLIENT KILL without a filter closes every connection that has no name. *)
Example kill_without_filter :
  match ClientHandle client_env (peer "worker" 7) [bs "KILL"] (delete 4 (<[6 := peer "" 7]> peers)) with
  | Answered r s => Some (r, pr_closed <$> s !! 6, pr_closed <$> s !! 5)
  | _ => None
  end = Some (RInt 1, Some true, Some false).
Proof. vm_compute. reflexivity. Qed.

(** UNBLOCK of a connection that is closed sends on a closed channel. *)
Example unblock_closed_panics :
  ClientHandle client_env (peer "" 7) (words ["UNBLOCK"; "5"]) (alter close_peer 5 peers) = Panics.
Proof. vm_compute. reflexivity. Qed.

#[local] Instance good_network : Network := {| network_error _ := false; done_isSet _ := false |}.
#[local] Instance no_traces : Embedded := {| COMMANDS := bs "*0" ++ CRLF; GetTraces := inr [] |}.

Definition pipeline : list (list bytes) :=
  [words ["SET"; "k"; "v"]; words ["NOPE"]; words ["MULTI"]; words ["GET"; "k"]; words ["EXEC"]].

(** Packets of seven bytes. *)
Fixpoint packets_of (n : nat) (b : bytes) : list bytes :=
  match n, b with
  | O, _ | _, [] => []
  | S n, b => take 7 b :: packets_of n (drop 7 b)
  end.
Definition sent_packets : list bytes := packets_of 100 (concat (encode_command <$> pipeline)).

Definition after_pipeline : World := default (world []) (serve_all pipeline (world [])).
Lemma pipeline_runs : serve_all pipeline (world []) = Some after_pipeline.
Proof.
  assert ((match serve_all pipeline (world []) with Some _ => true | None => false end) = true) as E
    by (vm_compute; reflexivity).
  unfold after_pipeline. by destruct (serve_all pipeline (world [])).
Qed.

Definition pipeline_answers : list wire :=
  [WAny OK; WError "ERR unknown command `nope`, with args beginning with:"; WAny OK; WAny Queued; WAny (RArr [RBulk (bs "v")])].
Lemma pipeline_out : new_out (world []) after_pipeline = pipeline_answers.
Proof. vm_compute. reflexivity. Qed.

Lemma pipeline_ok : Forall wire_ok (new_out (world []) after_pipeline).
Proof. rewrite pipeline_out. repeat constructor; vm_compute; discriminate. Qed.

Lemma pipeline_commands : Forall command_ok pipeline.
Proof. repeat constructor; done. Qed.

Definition line (s : string) : bytes := bs s ++ CRLF.

Lemma server_pipeline_witness :
  exists c vs, handle ServeRESP (NewConn (world []) sent_packets) = Some (ReadError EOF, c) /\
    read_values 5 (c_sent c) = Some vs /\
    (Raw <$> vs) = [line "+OK"; line "-ERR unknown command `nope`, with args beginning with:"; line "+OK"; line "+QUEUED";
                    line "*1" ++ line "$1" ++ line "v"].
Proof.
  destruct (server_pipeline pipeline sent_packets (world []) after_pipeline) as (c&vs&Ec&_&_&_&Ev&_&Eraw);
    [done|done|exact pipeline_commands|by repeat constructor|vm_compute; reflexivity|exact pipeline_runs|exact pipeline_ok|].
  exists c, vs. split; [exact Ec|]. split; [exact Ev|]. rewrite Eraw, pipeline_out. vm_compute. reflexivity.
Defined.

(** An error in a packet loses the commands that came complete before it in the same
    packet; in a packet of their own they run. *)
Definition ending {St} (r : option (handle_end * RConn St)) : option (handle_end * bytes) :=
  (fun x => (fst x, c_sent (snd x))) <$> r.
Definition set_k : bytes := encode_command (words ["SET"; "k"; "v"]).
Example error_in_packet :
  ending (handle ServeRESP (NewConn (world []) [set_k ++ line "*x"])) =
    Some (ReadError (ProtocolError errInvalidMultiBulkLength), line "-ERR Protocol error: invalid multibulk length") /\
  ending (handle ServeRESP (NewConn (world []) [set_k; line "*x"])) =
    Some (ReadError (ProtocolError errInvalidMultiBulkLength),
          line "+OK" ++ line "-ERR Protocol error: invalid multibulk length").
Proof. split; vm_compute; reflexivity. Qed.

(** Plain text, a connection that the network cuts, and one that is closed. *)
Example plain_text :
  ending (handle ServeRESP (NewConn (world []) [bs "SET k 'a "; bs "b'"; [LF]; bs "GET k" ++ CRLF])) =
  Some (ReadError EOF, line "+OK" ++ line "$3" ++ line "a b").
Proof. vm_compute. reflexivity. Qed.
Definition broken : Network := {| network_error n := Nat.leb 1 n; done_isSet _ := false |}.
Example write_fails :
  ending (handle (H := broken) ServeRESP (NewConn (world []) [set_k; set_k; set_k])) = Some (WriteFailed, line "+OK").
Proof. vm_compute. reflexivity. Qed.
Definition stopping : Network := {| network_error _ := false; done_isSet _ := true |}.
Example stops_when_idle :
  ending (handle (H := stopping) ServeRESP (NewConn (world []) [set_k ++ bs "*3"; set_k; set_k])) =
  Some (ReadError (ProtocolError errInvalidMultiBulkLength), line "+OK" ++ line "-ERR Protocol error: invalid multibulk length") /\
  ending (handle (H := stopping) ServeRESP (NewConn (world []) [set_k; set_k])) = Some (NoError, line "+OK").
Proof. split; vm_compute; reflexivity. Qed.

(** QUIT closes the connection and the commands behind it are not run; a subscription
    takes the connection out of the loop, with what is still to be written. *)
Example connection_ends :
  ending (handle ServeRESP (NewConn (world []) [set_k ++ encode_command [bs "Quit"] ++ set_k; set_k])) =
    Some (NoError, line "+OK" ++ line "+OK") /\
  ending (handle ServeRESP (NewConn (world []) [set_k; encode_command (words ["SUBSCRIBE"; "c"]); set_k])) =
    Some (errDetached, line "+OK").
Proof. split; vm_compute; reflexivity. Qed.
Example trace_toggles :
  ending (handle ServeRESP (NewConn (world []) [encode_command (words ["trace"; "TOGGLE"]);
    encode_command (words ["trace"; "info"]); encode_command (words ["trace"; "list"])])) =
  Some (ReadError EOF, line "+OK" ++ line "$6" ++ line "enable" ++ line "*0").
Proof. vm_compute. reflexivity. Qed.

(** [Parse] takes one command, and returns the first of several. *)
Example parse_samples :
  (Parse set_k, Parse (set_k ++ set_k), Parse (set_k ++ bs "*"), Parse (bs "*1")) =
  (inr (words ["SET"; "k"; "v"]), inr (words ["SET"; "k"; "v"]), inl errTooMuchData, inl errIncompleteCommand).
Proof. vm_compute. reflexivity. Qed.

(** The state and the second it was entered share a word. *)
Example state_round_trip :
  (getState (packState 1700000000 StateIdle), All (words ["SET"; "key"; "a long value"]) 5 100) =
  ((2, 1700000000), bs "SET key ... ").
Proof. vm_compute. reflexivity. Qed.

Definition state_of {A} (r : option (A * PsManager)) : PsManager :=
  match r with Some (_, s) => s | None => NewPsManager end.

(** Connection 0 listens to [news] and [n*], connection 1 to [n*] only. *)
Definition ps_first : PsManager :=
  state_of (Command_subscribe 0 4 None [bs "subscribe"; bs "news"] NormalChannel NewPsManager).
Definition ps_second : PsManager := state_of (run_command 0 [bs "PSUBSCRIBE"; bs "n*"] ps_first).
Definition ps_sample : PsManager :=
  state_of (Command_subscribe 1 4 None [bs "psubscribe"; bs "n*"] PatternChannel ps_second).

(** The steps that lead there. *)
Lemma first_step : ps_step NewPsManager ps_first.
Proof.
  apply (step_listen NewPsManager ps_first 0 4 None [bs "subscribe"; bs "news"] NormalChannel None); [done|lia|].
  vm_compute. reflexivity.
Qed.
Lemma second_step : ps_step ps_first ps_second.
Proof. apply (step_command ps_first ps_second 0 [bs "PSUBSCRIBE"; bs "n*"] true). vm_compute. reflexivity. Qed.
Lemma sample_step : ps_step ps_second ps_sample.
Proof.
  apply (step_listen ps_second ps_sample 1 4 None [bs "psubscribe"; bs "n*"] PatternChannel None); [done|lia|].
  vm_compute. reflexivity.
Qed.

Lemma sample_reached : ps_reachable ps_sample.
Proof.
  eapply reach_step; [|exact sample_step]. eapply reach_step; [|exact second_step].
  eapply reach_step; [apply reach_new|exact first_step].
Qed.

Lemma sample_inv : ps_inv ps_sample.
Proof.
  eapply inv_step; [|exact sample_step]. eapply inv_step; [|exact second_step].
  eapply inv_step; [apply inv_start|exact first_step].
Qed.

Lemma pubsub_invariant_witness : ps_reachable ps_sample /\ ps_inv ps_sample.
Proof. split; [exact sample_reached|apply (pubsub_invariant ps_sample); exact sample_reached]. Defined.

Lemma sample_room p c : pm_conns ps_sample !! p = Some c ->
  len (pc_messages c) +
  len (received ps_sample (fst <$> map_range (map_to_list (hubs PatternChannel ps_sample))) (bs "news") [bs "x"] p)
  <= pc_cap c.
Proof.
  revert p c. apply (bool_decide_unpack (map_Forall (fun p c => len (pc_messages c) +
    len (received ps_sample (fst <$> map_range (map_to_list (hubs PatternChannel ps_sample))) (bs "news") [bs "x"] p)
    <= pc_cap c) (pm_conns ps_sample))).
  vm_compute. exact I.
Qed.

Lemma publish_delivers_witness : ps_inv ps_sample /\
  exists s', publish (bs "news") [bs "x"] ps_sample = Some (3, s') /\
    (pc_messages <$> pm_conns s' !! 1%nat) =
      Some [RArr [RBulk (bs "psubscribe"); RBulk (bs "n*"); RInt 1];
            RArr [RBulk (bs "pmessage"); RBulk (bs "n*"); RBulk (bs "news"); RBulk (bs "x")]].
Proof.
  split; [exact sample_inv|].
  destruct (publish_delivers ps_sample (bs "news") [bs "x"] sample_inv sample_room) as (_&_&s'&E&Hd).
  exists s'. split; [rewrite E; f_equal|]. by rewrite (de_conns _ _ _ Hd).
Defined.

(** ** What the code does *)

(** A subscriber is lost when the last one leaves between its finding the hub and its
    joining it: no message reaches it, though it was told that it is subscribed. *)
Definition ps_race : option PsManager :=
  let s := set_conn 1 (mkConn [] [] false ∅ ∅ 4 [] true) ps_first in
  let '(h, s) := find_hub 1 (bs "news") NormalChannel s in
  let s := unsubscribeChannel 0 (bs "news") NormalChannel s in
  snd <$> note_channel 1 (bs "news") NormalChannel (join_hub 1 h s).

Example subscribe_race :
  (s ← ps_race; c ← pm_conns s !! 1%nat;
   Some (bool_decide (bs "news" ∈ pc_normal c), pc_messages c, fst <$> publish (bs "news") [bs "x"] s)) =
  Some (true, [RArr [RBulk (bs "subscribe"); RBulk (bs "news"); RInt 1]], Some 0).
Proof. vm_compute. reflexivity. Qed.

(** A slow subscriber is closed and leaves its hubs; its own next command panics. *)
Definition ps_slow : PsManager := state_of (publish (bs "news") (replicate 5 (bs "x")) ps_first).
Example slow_subscriber :
  (pc_closed <$> pm_conns ps_slow !! 0%nat, LocalNUMSUB [bs "news"] ps_slow, run_command 0 [bs "ping"] ps_slow) =
  (Some true, [0], None).
Proof. vm_compute. reflexivity. Qed.

(** PUBSUB NUMSUB panics while another node has not answered. *)
Example numsub_waits_for_none :
  PubSubHandle {| an_channels := []; an_numsub := [None]; an_numpat := [] |} [bs "numsub"; bs "news"] ps_sample = None.
Proof. vm_compute. reflexivity. Qed.
Example numsub_adds :
  PubSubHandle {| an_channels := []; an_numsub := [Some [2]]; an_numpat := [] |} [bs "NUMSUB"; bs "news"] ps_sample =
  Some (inr (RArr [RBulk (bs "news"); RInt 3])).
Proof. vm_compute. reflexivity. Qed.

Example pubsub_queries :
  (PubSubHandle {| an_channels := []; an_numsub := []; an_numpat := [Some 2; None] |} [bs "numpat"] ps_sample,
   PubSubHandle {| an_channels := [Some [bs "other"]]; an_numsub := []; an_numpat := [] |} [bs "channels"] ps_sample) =
  (Some (inr (RInt 3)), Some (inr (RArr [RBulk (bs "news"); RBulk (bs "other")]))).
Proof. vm_compute. reflexivity. Qed.
