(* ===== verification/JsonSamples.v ===== *)
(** The theorems about JSON documents at a store with one, and what the code does where it
    means something else. *)

From S2P Require Import Prelude Xerror GoStd Utils Float Strconv Store Ranges Mem Object Reply.
From S2P Require Import ObjectSpec Generic GenericSpec Strings StringsSpec Json JsonCmd JsonSpec SampleLibs.
From S2P Require Import CommandTable Samples.
From Stdlib Require Import Init.Byte.

#[local] Open Scope Z_scope.

(** A document [[1,2.5,'a']] with an expiry, and the string of the other samples. *)
Definition doc : bytes := quoted "[1,2.5,'a']".
Definition json_store : list (bytes * bytes) :=
  Eval vm_compute in
    after (ExpireHandle [bs "j"; bs "100"]) (after (JsonSetHandle [bs "j"; bs "$"; doc]) string_store).
Definition json_txn : Txn := mem_txn json_store.

Lemma json_ready : ready mem_config json_txn.
Proof. apply mem_ready. vm_compute. reflexivity. Qed.
Lemma json_found : find mem_config json_txn (dv json_txn) (bs "j") = Some (object_of json_store (bs "j")).
Proof. vm_compute. reflexivity. Qed.

Lemma json_type : beq JsonType (o_Type (object_of json_store (bs "j"))) = true.
Proof. vm_compute. reflexivity. Qed.
Lemma json_text : sl (o_Value (object_of json_store (bs "j"))) = doc.
Proof. vm_compute. reflexivity. Qed.

(** Discharges the side conditions of a theorem at this store. *)
Ltac at_json :=
  lazymatch goal with
  | |- ready _ _ => exact json_ready
  | |- key_ok _ => done
  | |- callback_of _ = _ => reflexivity
  | |- _ <= _ => vm_compute; discriminate
  | |- good_header _ _ _ => vm_compute; exact eq_refl || exact I
  | |- _ => vm_compute; reflexivity
  end.

(** The reply of a command, and the document after it. *)
Definition shown (m : M reply) : option (reply * option bytes) :=
  match m json_txn with
  | Ret r t => Some (r, find mem_config json_txn (dv t) (bs "j") ≫= o_Value)
  | _ => None
  end.

Lemma JsonSetHandle_refines_witness :
  ready mem_config json_txn /\
  wp (JsonSetHandle [bs "j"; bs "."; bs "[true]"; bs "XX"]) json_txn (fun r t' =>
    r = OK /\ (find mem_config json_txn (dv t') (bs "j") ≫= o_Value) = Some (bs "[true]")).
Proof.
  split; [exact json_ready|].
  eapply wp_mono; [apply (JsonSetHandle_refines mem_config (bs "j") (bs ".") (bs "[true]") [bs "XX"] CheckExist); at_json|].
  intros r t' Hm. unfold json_settable in Hm. rewrite json_found, json_type in Hm. cbn [negb] in Hm. change (CheckExist =? CheckNotExist) with false in Hm.
  change (Valid (bs "[true]")) with true in Hm. cbn beta iota in Hm. destruct Hm as (->&_&_&Hf). split; [done|].
  rewrite Hf. reflexivity.
Defined.

(** Headers of several keys, by a test. *)
Lemma good_headers l : forallb (fun k => match dv json_txn !! hkey json_txn k with
    | Some v => match snd (ObjectDecode v (the_object mem_config json_txn UnknownType k)) with None => true | _ => false end
    | None => true end) l = true ->
  forall k, k ∈ l -> good_header mem_config json_txn k.
Proof.
  intros Hl k Hk%list_elem_of_In. rewrite forallb_forall in Hl. specialize (Hl k Hk). unfold good_header.
  destruct (_ !! _) as [v|]; [|done]. by destruct (snd _).
Qed.

Lemma json_readers_keep_witness :
  ready mem_config json_txn /\
  wp (JsonArrIndexHandle [bs "j"; bs "$"; bs "2.5"; bs "-2"]) json_txn (fun _ t' =>
    ready mem_config t' /\ dv t' = dv json_txn) /\
  shown (JsonArrIndexHandle [bs "j"; bs "$"; bs "2.5"; bs "-2"]) = Some (RArr [RInt 1], Some doc).
Proof.
  split; [exact json_ready|]. split; [|vm_compute; reflexivity].
  apply (json_readers_keep mem_config); [exact json_ready|simpl; tauto|by repeat constructor|].
  intros k Hk. apply (good_headers [bs "j"; bs "$"; bs "2.5"; bs "-2"]); [vm_compute; reflexivity|exact Hk].
Defined.

(** JSON.NUMINCRBY j $[*] 1.5: the numbers grow, the text is no number. *)
Lemma numincrby_sample :
  ready mem_config json_txn /\
  wp (jsonCallbackHandle (bs "j") (bs "$[*]") [AFloat (default 0 (ParseFloat (bs "1.5")))] no_nodes true "json.numincrby") json_txn
    (fun r t' => r = RBulk (bs "[2.5,4,null]") /\
      (find mem_config json_txn (dv t') (bs "j") ≫= o_Value) = Some (quoted "[2.5,4,'a']")).
Proof.
  split; [exact json_ready|].
  set (one := default 0 (ParseFloat (bs "1.5"))).
  assert (edit numIncrBy "json.numincrby" doc (bs "$[*]") [AFloat one] no_nodes =
    Some (inr (RBulk (bs "[2.5,4,null]")), Some (quoted "[2.5,4,'a']"))) as E by (vm_compute; reflexivity).
  eapply wp_mono;
    [apply (jsonCallbackHandle_stores mem_config json_txn (bs "j") (bs "$[*]") [AFloat one] no_nodes true _ numIncrBy);
       [at_json..|]|].
  - intros o Ho. rewrite json_found in Ho. apply (inj Some) in Ho as <-. rewrite json_text. do 2 eexists. split; [exact E|].
    intros v Hv. apply (inj Some) in Hv as <-. vm_compute. reflexivity.
  - intros r t' Hm. rewrite json_found, json_type in Hm.
    destruct Hm as (answer&text&Ed&(->&_&_&Hf)). rewrite json_text, E in Ed.
    apply (inj Some) in Ed. apply (inj2 pair) in Ed as [<- <-].
    split; [reflexivity|]. rewrite Hf. unfold upd. rewrite decide_True by reflexivity. reflexivity.
Defined.

(** ** What the code does *)

(** Where no element matches, an element of an array that [checkParent] has set counts as
    if nothing had been done: nothing is stored. *)
Example set_array_element :
  match checkParent (1%nat : Node) (bs "0") (0%nat : Node) ([VNum (of_int 7); VArr [2%nat]; VNull] : Heap) with
  | (inr ok, h) => (ok, (h : list val) !! 2%nat)
  | _ => (true, None)
  end = (false, Some (VNum (of_int 7))).
Proof. vm_compute. reflexivity. Qed.

Example edits :
  (shown (JsonArrAppendHandle [bs "j"; bs "."; bs "true"]), shown (JsonArrPopHandle [bs "j"; bs "$"; bs "-9"]),
   shown (JsonArrInsertHandle [bs "j"; bs "$"; bs "1"; bs "null"]), shown (JsonArrTrimHandle [bs "j"; bs "."; bs "1"; bs "1"])) =
  (Some (RInt 4, Some (quoted "[1,2.5,'a',true]")), Some (RArr [RFloat (of_int 1)], Some (quoted "[2.5,'a']")),
   Some (RArr [RInt 4], Some (quoted "[1,null,2.5,'a']")), Some (RInt 1, Some (bs "[2.5]"))).
Proof. vm_compute. reflexivity. Qed.
Example edits_of_elements :
  (shown (JsonStrAppendHandle [bs "j"; bs "$[*]"; quoted "'bc'"]), shown (JsonNumMultByHandle [bs "j"; bs "$[*]"; bs "-2"]),
   shown (JsonToggleHandle [bs "j"; bs "$[*]"]), shown (JsonDelHandle [bs "j"; bs "$[*]"]), shown (JsonDelHandle [bs "j"])) =
  (Some (RArr [RNil; RNil; RInt 3], Some (quoted "[1,2.5,'abc']")), Some (RBulk (bs "[-2,-5,null]"), Some (quoted "[-2,-5,'a']")),
   Some (RArr [RNil; RNil; RNil], Some doc), Some (RInt 3, Some (bs "[null,null,null]")), Some (RInt 1, None)).
Proof. vm_compute. reflexivity. Qed.
Example reads_of_elements :
  (shown (JsonTypeHandle [bs "j"; bs "$[*]"]), shown (JsonGetHandle [bs "j"; bs "$[*]"]), shown (JsonArrLenHandle [bs "j"]),
   shown (JsonMgetHandle [bs "nothing"; bs "j"; bs "x"]), shown (JsonObjLenHandle [bs "nothing"])) =
  (Some (RArr [RBulk (bs "integer"); RBulk (bs "number"); RBulk (bs "string")], Some doc), Some (RBulk doc, Some doc),
   Some (RInt 3, Some doc), Some (RArr [RNil; RNil], Some doc), Some (RNil, Some doc)).
Proof. vm_compute. reflexivity. Qed.

(** JSON.SET: its checks, and one value for several elements. *)
Example set_checks :
  (shown (JsonSetHandle [bs "j"; bs "$"; bs "1"; bs "NX"]), shown (JsonSetHandle [bs "new"; bs "a"; bs "1"]),
   shown (JsonSetHandle [bs "j"; bs "$"; bs "[1,]"]), shown (JsonSetHandle [bs "j"; bs "$[*]"; bs "0"])) =
  (Some (RNil, Some doc), Some (RErr ErrMustCreateRoot, Some doc), Some (RErr InvalidJsonError, Some doc),
   Some (OK, Some (bs "[0,0,0]"))).
Proof. vm_compute. reflexivity. Qed.

(** JSON.TOGGLE writes, but is in the table as a command that reads: scripts that may only
    read may call it. *)
Example toggle_reads :
  (h_ReadOnly <$> lookup_command "json.toggle", h_ReadOnly <$> lookup_command "json.clear") = (Some true, Some false).
Proof. vm_compute. reflexivity. Qed.
Example toggle_writes :
  match JsonToggleHandle [bs "b"] (mem_txn (after (JsonSetHandle [bs "b"; bs "$"; bs "true"]) string_store)) with
  | Ret r t => (r, find mem_config json_txn (dv t) (bs "b") ≫= o_Value)
  | _ => (RNil, None)
  end = (RInt 0, Some (bs "false")).
Proof. vm_compute. reflexivity. Qed.
